(* ===== verification/_CoqProject ===== *)
-Q . S2P
Prelude.v
Bits.v
CString.v
Cidr.v
CidrMain.v
CidrFacts.v
CidrProofs.v
CidrMainProofs.v
Blocks.v
Md5.v
Sha256.v
HashSpec.v
Md5Proofs.v
Sha256Proofs.v
Mkhash.v
MkhashProofs.v
Nvram.v
NvramTable.v
NvramCommit.v
NvramProofs.v
KExpr.v
KExprOps.v
KExprProofs.v
KExprDups.v
KSym.v
KSymSpec.v
KSymFacts.v
KSymCalc.v
KSymOrder.v
KSymSet.v
KSymProofs.v
KSymCheck.v
KSymCheckFacts.v
KSymCheckProofs.v
KTable.v
KConf.v
KConfWrite.v
KConfFacts.v
KConfRead.v
KConfOut.v
KConfVisit.v
KConfFile.v
KConfProofs.v
KConfValues.v
KConfAny.v
KPre.v
KPreProofs.v
KPreCalls.v
KPreAssign.v
Packet.v
Siit.v
Siit64.v
SiitXmit.v
PacketFacts.v
SiitFacts.v
SiitProofs.v
SiitIcmp.v
Siit64Ext.v
Siit64Proofs.v
SiitFragment.v
SiitXmitProofs.v
SiitBounds.v
Mapcalc.v
MapcalcFacts.v
MapcalcProofs.v
MapcalcRules.v
MapcalcMain.v
Bmt.v
BmtBbt.v
BmtBbtProofs.v
BmtV2.v
BmtV2Proofs.v
BmtDevice.v
BmtV2Device.v
Nmbm.v
NmbmFacts.v
NmbmProofs.v
NmbmDevice.v
BmtAttach.v
BmtExample.v
