(* ===== verification/Prelude.v ===== *)
(** * Verification of firewall-core: host tools and small network programs

    firewall-core is an OpenWrt tree. Most of its C is either kernel driver code or
    vendored; what this library models are the self-contained programs with logic of
    their own, translated by hand into executable definitions and proved correct.
    The definitions keep the names of the C functions, in the order of the files.

    ** The parts

    - [feeds/packages/net/owipcalc/src/owipcalc.c]: arithmetic on IPv4 and IPv6
      networks. [Cidr] has the [struct cidr] (family, prefix, and the 16 bytes of
      the union), the stack of results and every operation on it; [CidrMain] has
      the operation table, [runop] and [main] of [main.c]. [CidrFacts],
      [CidrProofs] and [CidrMainProofs] prove them.
    - [scripts/mkhash.c]: MD5 and SHA-256 of files. [Md5] and [Sha256] model the two
      hash functions with their contexts, [Mkhash] the reading of streams, the table
      of hash types and the command line. [HashSpec] is RFC 1321 and FIPS 180-4
      written independently of the code; [Blocks] is the interface between them: a
      [Compression] function absorbed block by block, the buffer a context [holds].
      Proofs are in [Md5Proofs], [Sha256Proofs] and [MkhashProofs].
    - [package/utils/nvram/src]: the variables a Broadcom router keeps in flash.
      [Nvram] models [crc.c] and [nvram.c]: the hash table of tuples, the image in
      the mapping, committing and reading it back, and [cli.c].
      [NvramTable] relates the table to a finite map, [NvramCommit] the loops to the
      bytes they leave and follows a whole commit, [NvramProofs] states what follows.
    - [scripts/config/expr.c], [expr.h]: the dependency expressions of the
      configuration language. [KExpr] has the data, equality and the elimination of
      duplicates, [KExprOps] transformation, evaluation and printing;
      [KExprProofs] and [KExprDups] prove that the rewriting preserves values.
    - [scripts/config/symbol.c]: the symbols of the configuration language. [KSym] has
      how values are calculated and set (with [set_all_choice_values] of [confdata.c]),
      [KSymCheck] the check for recursive dependencies. [KSymSpec] says what the value
      of a symbol is, as equations without state; [KSymFacts] has the logic [runs] for
      programs, and what a calculation may change; [KSymCalc] relates every step of
      [sym_calc_value] to its equation, [KSymOrder] shows that there is one solution,
      [KSymSet] follows the setting of values, [KSymCheckFacts] the search for cycles.
      [KSymProofs] and [KSymCheckProofs] state what follows.
    - [scripts/config/confdata.c], with [menu_is_visible] and [menu_get_prompt] of
      [menu.c] and [zconf_fopen] of [lexer.l]: configuration files. [KTable] is the
      table of names of [symbol.c], in which a reader finds symbols; [KConf] the
      reading of files, [KConfWrite] the printers, the walk over the menus and the
      replacement of the file. [KConfFacts] has what one line does, [KConfRead] a whole
      file of comments and settings, [KConfAny] any file; [KConfOut] turns the walk
      along pointers into the preorder of a forest, it and [KConfVisit] follow what is
      printed and marked on the way, [KConfFile] the whole text and the files.
      [KConfProofs] and [KConfValues] compose the two directions.
    - [scripts/config/preprocess.c]: variables and functions in the text of Kconfig
      files. [KPre] has the whole of it; [KPreProofs] a logic [takes] for what an
      expansion may do to the state, and the end of expansions, [KPreCalls]
      calls of functions, [KPreAssign] assignments.
    - [feeds/packages/net/siit/src/siit.c]: the kernel module that translates packets
      between IPv4 and IPv6 (RFC 2765). [Packet] has pointers into buffers, fields in
      network order and the Internet checksum; the checksum functions of the kernel
      are the class [Checksums], with what the kernel documents of them as
      [ChecksumLaws]. [Siit] is [ip4_ip6], [Siit64] is [ip6_ip4], [SiitXmit] is
      [ip4_fragment] and [siit_xmit], which call the two. [PacketFacts] has the
      lemmas on buffers, a small logic [within] for code that stays inside one, and
      the arithmetic of RFC 1071; [SiitFacts] the encodings of packets. [SiitProofs]
      and [SiitIcmp] prove the way to IPv6, [Siit64Ext] and [Siit64Proofs] the
      extension headers, the way back and the round trip, [SiitFragment] and
      [SiitXmitProofs] fragmentation and transmission, [SiitBounds] that the buffers
      are large enough.
    - [package/network/ipv6/map/src/mapcalc.c]: the command that computes the addresses
      and port sets of MAP rules (RFC 7597). [Mapcalc] is the whole of it, from the
      options to what is printed. [MapcalcFacts] has the bits and bit fields of a list
      of bytes and what the three functions on bits do to them, [MapcalcProofs] the
      port sets and the addresses, [MapcalcRules] the search for the
      delegated prefix, [MapcalcMain] the parser, the count and the exit status.
    - [target/linux/generic/files/drivers/mtd/nand/mtk_bmt.c], [mtk_bmt.h],
      [mtk_bmt_bbt.c], [mtk_bmt_v2.c] and [mtk_bmt_nmbm.c]: the layer on a NAND flash
      that replaces bad blocks. [Bmt] is the mapped device: reading, writing, erasing, and
      remapping when the chip reports an error; the driver of the chip is the class
      [Nand], and the backend a record of operations. [BmtBbt] is the backend with a table of bad
      blocks, [BmtV2] the one with a table of replacements and a pool of spare blocks,
      [Nmbm] the one that keeps two tables in a management area of the chip.
      [BmtDevice] has the interfaces: [Chip] and [ChipLaws] say what a chip keeps and
      how its blocks fail, [MapLaws] what the device needs of a backend, and reading,
      writing and erasing are proved for any that has it. [BmtV2Proofs] has the
      invariant of the second backend, [BmtV2Device] the instance of [MapLaws],
      [BmtBbtProofs] the first backend. [NmbmFacts] has the table of states, what an
      operation on a block may touch (the class [ChipFrame]) and [manages], a logic for the
      functions that keep the tables; with it [NmbmProofs] follows them whatever the chip
      answers. [NmbmDevice] has the bytes of a table, its way to the chip and back, and the
      instance of [MapLaws]. [BmtAttach] is how a device gets a backend and the functions
      of the layer. [BmtExample] has two small chips and the theorems at work.

    This file has what all of them share: machine integers, bytes in memory in
    either byte order, writes to buffers, a small monad of programs with output and
    exit codes. [Bits] relates bitwise operations on words to the bytes of memory,
    [CString] has the C string functions the programs call.

    ** How state and effects are modelled

    A word of [w] bits is an integer between 0 and [2^w - 1], with [wrap w] written
    where the C wraps around; signed overflow, shifts out of range and accesses
    outside an array are the result [None] or [Undef], so that a theorem that gives a
    result also says that none of them happens. Where the result depends on the host
    (byte order, signedness of [char], width of [unsigned long], the address of a
    mapping) the host is a parameter of a Section, and theorems hold for every host
    they do not name. Memory the C leaves uninitialised is a parameter as well.
    Allocations succeed or fail by a list of booleans that is part of the state.
    Programs are functions from a world (the stack and what was printed) to a result
    with a new world, an exit, or [Undef]. Functions of the C library on text
    addresses ([inet_pton], [inet_ntop]) are the class [Inet], and the sizes of what
    they return the class [InetLaws].

    ** What the theorems show

    - owipcalc: addition, masks, containment and classes of addresses are what they
      are on numbers, on both byte orders; where the code depends on the byte order
      ([cidr_next4], [cidr_6to4]) the exact result is given, as is the exact result
      of [next] and [prev] on IPv6; [main] ends with an exit code of the documented
      set and printing is inverted by parsing.
    - mkhash: for every way a message is cut into calls the streaming functions give
      the digest of the standard; the program prints that digest for each file, up
      to the first that cannot be read.
    - nvram: [nvram_set], [nvram_unset] and [nvram_get] refine a finite map, and it is
      stated exactly when [nvram_set] fails and what it leaves then; with the mapping at a
      low address and no refused allocation a commit ends, stays inside the partition and,
      when they fit, reads back as the variables that were set; the checksum is the CRC of
      its polynomial and the one [nvram info] recomputes.
    - kconfig: transformation, equality, elimination of duplicates, insertion of
      comparisons and the boolean context preserve values, under the conditions
      stated (constants that differ have different values, no modules), and end.
    - kconfig symbols: calculation ends and gives the solution of the equations, in
      whatever order the symbols are calculated; clearing makes any state consistent;
      a new value within range is the value afterwards (a symbol that is selected while
      its dependencies do not hold is off), a new one out of range is refused, and the
      value a symbol has is accepted in any case; toggling finds the next value in range.
      The check finds a recursive dependency exactly if there is one, and what passes it
      can be calculated with the fuel it gives, when the bounds of ranges, which it does
      not look at, are in order.
    - kconfig files: reading what was written, in any later run, gives back exactly the
      values of the symbols that were written, and calculating again gives every symbol
      the value it had, under the conditions that the theorem needs and the code does
      not ensure (defaults within the visibility, the user's visible values in the menus); writing ends, and the old
      configuration is never lost; whatever a file holds, reading it leaves valid input.
    - kconfig variables: an expansion ends, and leaves the variables as they were; the
      call of a function is the text of the function with the arguments put in; an
      assignment gives the variable its flavor and value and touches no other. The
      assignment [A := $(A) text] is shown to read freed memory.
    - siit: what comes of TCP, UDP and ICMP packets is given byte for byte (of ICMP errors
      those that include TCP or UDP without options), and so is what comes of IPv6 packets
      with any chain of well-formed destination, finished routing and fragment headers, in
      as many rounds as there are headers. The addresses are behind the prefix that the code
      defines for both sides, which is neither the one its comments name nor, for the IPv6
      side, that of RFC 2765. Checksums that are put in verify, those that are kept stay
      valid because the prefix is neutral; a packet sent there and back is the packet without its options;
      fragmentation refines the sending of the pieces of a packet; transmission
      accounts for every packet and buffer whatever allocation fails, and shows the
      buffer that is lost on the way to IPv4; no access leaves the buffers when the
      headers fit the packet; a destination header that does not fit is never left.
    - mapcalc: the embedded address bits of the delegated prefix are the suffix of the
      IPv4 address and the PSID, the IPv6 address has both; the ranges printed for a
      PSID are exactly the ports that have it; the delegated prefix is the longest
      that fits on the first interface that has one; the copies of bits are in bounds
      exactly under the conditions given, which the command does not check; a rule
      that passes its check is well formed, and the status tells whether all did.
    - mtk_bmt: on a chip whose spare blocks are good and whose reads return the data, with
      any number of bits corrected, the device with replaced blocks reads back what was
      written to it, whatever other blocks fail to write or are replaced for their bit
      flips on the way; a
      remapping keeps the table one-to-one also when spare blocks fail. The table of
      bad blocks maps a range one-to-one, but marking a block bad moves all behind it,
      and the contents of the next one are lost. The managed mapping makes a device in the
      same sense as the second backend; updating its tables ends and stays in the
      management area on any chip; a table that was written is loaded as it was. Two
      blocks can get the same place when a spare block is bad.

    Examples next to the theorems show inputs on which the code does not do what it
    means to: a commit that cannot be opened for writing again, padding past the
    mapping, a variable that loses its value, checksums on big-endian hosts,
    comparisons of numeric constants and of negated modules, an IPv4 header that is
    too short, a recursion through the bound of a range, a report that reads a null
    pointer, a page of flash that is lost when two blocks fail, tables that are not
    found again or do not have what was found while they were written.

    ** Fuel

    Recursion that is not structural carries a bound that is proved to be enough:
    [hash_loop] the length of the stream plus one (each round reads a byte), [parse]
    the length of the mapping (each round moves on by an entry), [eq_fuel] and
    [expr_eliminate_dups1] the number of nodes, [dups_loop] the same (every pass but
    the last one makes the expression smaller), [transform] a [weight] that
    moving a negation inside lowers, [ext_loop] an eighth of the length of the packet
    (a header that is skipped has 8 bytes or more; for one that is not, see
    [destination_header_hangs]), [fragment_loop] one round per 1232 bytes,
    [parse_rule] the length of the rule (an option has a character or more),
    [sym_calc_value] the rank of the symbol and two (it calls itself for symbols of
    lower rank, and once for a symbol that is known), [sym_check_deps] the number of
    symbols and four (each call marks one that was not), [eval_clause] [expand_fuel]
    (a clause is shorter than its text, and a variable is expanded at most 1001 times
    within itself), [write_menus] twice the number
    of menus and one (each is entered and left), [read_loop] one round per block and one
    more, [write_loop] and [erase_loop] two per block and one (a block is replaced once),
    [isbad_loop] the eleven tries of the code, [copy_pages] the pages of a block,
    [scan_pool] the blocks of the chip and one, [update_loop] a round per block and one (a
    round that has to be repeated has found a bad block), [read_chunks] and [write_chunks]
    the pages of the data and two; the other loops of [Nmbm] count blocks or pages of a
    range. The theorems state that a result is returned.

    ** What is not modelled

    Input and output beyond the bytes read and printed: finding and mapping the mtd
    device, staging files, [getopt], read errors, and errors in writing to a stream that is
    open (a full disk under [conf_write]). The usage texts. A [size_t] has 64 bits in
    [SHA256_Update], and [getsubopt] is the one of glibc. Of kconfig, lists
    and ranges as parts of expressions ([E_LIST], [E_RANGE]), the search for symbols by
    regular expressions, the parser and the front ends; choices are modelled, but the
    theorems on values are for configurations without them, and for range bounds that
    are in order with the other dependencies, and those on files besides for the values of
    the user, since this tree writes no [auto.conf]. [conf_read] and
    [conf_write_defconfig] are modelled; the theorems are about [conf_read_simple] and the
    calculation after it, and about [conf_write]. Of siit, the set-up of the device and the debug dumps, which
    keep no state of the translation, and what the kernel does with a frame that is
    shorter than its link-layer header. Of mapcalc, the calls of ubus. Of mtk_bmt, what is
    printed; the theorems on devices are for chips whose reads succeed (bits may be corrected), the
    definitions for all, and of the managed mapping the search for a signature, the creation and the choice
    between two tables are modelled and tried on a chip, without theorems. The mtd and image tools, the other kernel drivers,
    patches, generated and vendored code are not modelled. *)

From Stdlib Require Import ZArith Lia String Ascii.
From stdpp Require Import base list strings numbers option pretty.

#[global] Open Scope Z_scope.

(** ** Machine integers *)

(** [wrap w z]: the value of [z] after conversion to an unsigned [w]-bit type. *)
Definition wrap (w z : Z) : Z := z mod 2 ^ w.

(** Conversion to a signed [w]-bit type (two's complement, as GCC defines it). *)
Definition swrap (w z : Z) : Z := (z + 2 ^ (w - 1)) mod 2 ^ w - 2 ^ (w - 1).

Abbreviation u8 := (wrap 8).
Abbreviation u16 := (wrap 16).
Abbreviation u32 := (wrap 32).
Abbreviation u64 := (wrap 64).
Abbreviation s32 := (swrap 32).

(** Is [z] representable in a signed 32-bit [int]? *)
Definition fits_int (z : Z) : bool := (- 2 ^ 31 <=? z) && (z <? 2 ^ 31).

(** [x << n] on a 32-bit [int]: undefined when the count is out of range; a
    shift into the sign bit wraps, as GCC documents. *)
Definition int_shl (x n : Z) : option Z :=
  if (0 <=? n) && (n <? 32) then Some (s32 (x * 2 ^ n)) else None.

(** [x - y] on [int]: undefined on overflow. *)
Definition int_sub (x y : Z) : option Z :=
  if fits_int (x - y) then Some (x - y) else None.

(** Bitwise complement of an unsigned [w]-bit value. *)
Definition not_w (w x : Z) : Z := wrap w (Z.lnot x).

(** ** Bytes and byte order *)

Inductive endian := LE | BE.

#[export] Instance endian_eq_dec : EqDecision endian.
Proof. solve_decision. Defined.

Definition is_byte (b : Z) : Prop := 0 <= b < 256.

Abbreviation bytes_ok := (Forall is_byte).

(** Value of a byte list, least significant byte first. *)
Fixpoint le_val (l : list Z) : Z :=
  match l with
  | [] => 0
  | b :: r => b + 256 * le_val r
  end.

(** The [n] low bytes of [z], least significant first. *)
Fixpoint le_bytes (n : nat) (z : Z) : list Z :=
  match n with
  | O => []
  | S n => z mod 256 :: le_bytes n (z / 256)
  end.

Definition be_val (l : list Z) : Z := le_val (reverse l).
Definition be_bytes (n : nat) (z : Z) : list Z := reverse (le_bytes n z).

(** Memory image of an integer on a host of byte order [e], and back. *)
Definition load (e : endian) (l : list Z) : Z :=
  match e with LE => le_val l | BE => be_val l end.
Definition store (e : endian) (n : nat) (z : Z) : list Z :=
  match e with LE => le_bytes n z | BE => be_bytes n z end.

(** [htonl] and [ntohl] of a host of byte order [e]. *)
Definition htonl (e : endian) (x : Z) : Z := load e (be_bytes 4 x).
Definition ntohl (e : endian) (x : Z) : Z := be_val (store e 4 x).

(** [write off bs l]: [memcpy(l + off, bs, length bs)], in range. *)
Definition write (off : nat) (bs l : list Z) : list Z :=
  take off l ++ bs ++ drop (off + length bs) l.

(** [slice off n l]: the [n] bytes of [l] from offset [off]. *)
Definition slice (off n : nat) (l : list Z) : list Z := take n (drop off l).

(** ** A state monad with exits and undefined behaviour *)

(** The result of running C code on a state: it returns, it calls [exit], or it
    does something the C standard leaves undefined. *)
Inductive outcome (S A : Type) :=
  | Ret (a : A) (s : S)
  | Exit (code : Z) (s : S)
  | Undef.
Arguments Ret {S A} a s.
Arguments Exit {S A} code s.
Arguments Undef {S A}.

Definition prog (S A : Type) : Type := S -> outcome S A.

#[export] Instance prog_ret {S} : MRet (prog S) := fun A a s => Ret a s.
#[export] Instance prog_bind {S} : MBind (prog S) := fun A B f m s =>
  match m s with
  | Ret a s' => f a s'
  | Exit c s' => Exit c s'
  | Undef => Undef
  end.

Section Prog.
Context {S : Type}.
Definition get_st : prog S S := fun s => Ret s s.
Definition modify (f : S -> S) : prog S unit := fun s => Ret tt (f s).
Definition exit_with {A} (code : Z) : prog S A := fun s => Exit code s.
Definition undef {A} : prog S A := fun _ => Undef.
(** Use a value whose computation may be undefined. *)
Definition defined {A} (o : option A) : prog S A :=
  fun s => match o with Some a => Ret a s | None => Undef end.
End Prog.

(** The program returns, with a result and a state as described. *)
Definition runs {W A} (p : prog W A) (w : W) (Q : A -> W -> Prop) : Prop :=
  match p w with Ret a w' => Q a w' | _ => False end.

(** ** Lemmas: programs *)

Lemma runs_bind {W A B} (p : prog W A) (f : A -> prog W B) w Q :
  runs p w (fun a w' => runs (f a) w' Q) -> runs (p ≫= f) w Q.
Proof. unfold runs, mbind, prog_bind. by destruct (p w). Qed.

Lemma runs_mono {W A} (p : prog W A) w (Q Q' : A -> W -> Prop) :
  runs p w Q -> (forall a w', Q a w' -> Q' a w') -> runs p w Q'.
Proof. unfold runs. destruct (p w); auto. Qed.

Lemma runs_step {W A B} (p : prog W A) (f : A -> prog W B) w (Q : A -> W -> Prop) R :
  runs p w Q -> (forall a w', Q a w' -> runs (f a) w' R) -> runs (p ≫= f) w R.
Proof. intros Hp Hf. apply runs_bind. by apply (runs_mono p w Q). Qed.

Lemma runs_ret {W A} (a : A) w (Q : A -> W -> Prop) : Q a w -> runs (mret a) w Q.
Proof. done. Qed.

Lemma runs_get {W} (w : W) (Q : W -> W -> Prop) : Q w w -> runs get_st w Q.
Proof. done. Qed.

Lemma runs_modify {W} (g : W -> W) w (Q : unit -> W -> Prop) : Q tt (g w) -> runs (modify g) w Q.
Proof. done. Qed.

Lemma runs_defined {W A} (a : A) (w : W) (Q : A -> W -> Prop) : Q a w -> runs (defined (Some a)) w Q.
Proof. done. Qed.

(** ** Lemmas: machine integers *)

Lemma wrap_range w z : 0 <= w -> 0 <= wrap w z < 2 ^ w.
Proof. intros. apply Z.mod_pos_bound. lia. Qed.

Lemma wrap_small w z : 0 <= z < 2 ^ w -> wrap w z = z.
Proof. apply Z.mod_small. Qed.

Lemma wrap_wrap w z : 0 <= w -> wrap w (wrap w z) = wrap w z.
Proof. intros. apply wrap_small, wrap_range. done. Qed.

Lemma wrap_add_l w x y : wrap w (wrap w x + y) = wrap w (x + y).
Proof. apply Zplus_mod_idemp_l. Qed.

Lemma wrap_add_r w x y : wrap w (x + wrap w y) = wrap w (x + y).
Proof. apply Zplus_mod_idemp_r. Qed.

Lemma mod_mul_add m q r : m <> 0 -> (m * q + r) mod m = r mod m.
Proof. intros. by rewrite Z.add_comm, Z.mul_comm, Z.mod_add. Qed.

Lemma wrap_testbit w z i :
  0 <= w -> Z.testbit (wrap w z) i = (i <? w) && Z.testbit z i.
Proof.
  intros. unfold wrap. destruct (Z.ltb_spec i w).
  - by rewrite Z.mod_pow2_bits_low.
  - by rewrite Z.mod_pow2_bits_high.
Qed.

(** Bits above the width of a bounded number are zero. *)
Lemma testbit_out_of_range x w i : 0 <= x < 2 ^ w -> w <= i -> Z.testbit x i = false.
Proof.
  intros Hx Hi. rewrite <- (Z.mod_small x (2 ^ w)) by done.
  apply Z.mod_pow2_bits_high. destruct (Z.leb_spec 0 w); [lia|].
  rewrite Z.pow_neg_r in Hx by done. lia.
Qed.

(** Complementing a low mask: [x & ~(2^k - 1)] clears the low [k] bits. *)
Lemma land_high_mask x w k :
  0 <= k <= w -> 0 <= x < 2 ^ w ->
  Z.land x (wrap w (Z.lnot (2 ^ k - 1))) = x - x mod 2 ^ k.
Proof.
  intros Hk Hx.
  assert (Z.land x (wrap w (Z.lnot (2 ^ k - 1))) = Z.ldiff x (Z.ones k)) as ->.
  { apply Z.bits_inj'. intros i Hi.
    rewrite Z.land_spec, wrap_testbit, Z.lnot_spec, Z.ldiff_spec by lia.
    rewrite Z.ones_equiv, Z.sub_1_r.
    destruct (Z.ltb_spec i w); [done|].
    rewrite (testbit_out_of_range x w) by lia. done. }
  rewrite Z.ldiff_ones_r by lia.
  rewrite Z.shiftl_mul_pow2, Z.shiftr_div_pow2 by lia.
  pose proof (Z.div_mod x (2 ^ k)). lia.
Qed.

Lemma lor_low_mask x k :
  0 <= k -> 0 <= x -> Z.lor x (2 ^ k - 1) = x - x mod 2 ^ k + (2 ^ k - 1).
Proof.
  intros Hk Hx.
  rewrite Z.sub_1_r, <- Z.ones_equiv.
  assert (Z.lor x (Z.ones k) = Z.lor (Z.ldiff x (Z.ones k)) (Z.ones k)) as ->.
  { apply Z.bits_inj'. intros i Hi. rewrite !Z.lor_spec, Z.ldiff_spec.
    by destruct (Z.testbit x i), (Z.testbit (Z.ones k) i). }
  rewrite <- Z.lxor_lor, <- Z.add_nocarry_lxor.
  - rewrite Z.ldiff_ones_r by lia.
    rewrite Z.shiftl_mul_pow2, Z.shiftr_div_pow2 by lia.
    pose proof (Z.div_mod x (2 ^ k)). lia.
  - apply Z.bits_inj'. intros i Hi. rewrite Z.land_spec, Z.ldiff_spec, Z.bits_0.
    by destruct (Z.testbit x i), (Z.testbit (Z.ones k) i).
  - apply Z.bits_inj'. intros i Hi. rewrite Z.land_spec, Z.ldiff_spec, Z.bits_0.
    by destruct (Z.testbit x i), (Z.testbit (Z.ones k) i).
Qed.

(** ** Lemmas: byte lists *)

Lemma le_bytes_length n z : length (le_bytes n z) = n.
Proof. revert z. induction n; intros; simpl; auto. Qed.

Lemma be_bytes_length n z : length (be_bytes n z) = n.
Proof. unfold be_bytes. by rewrite length_reverse, le_bytes_length. Qed.

Lemma store_length e n z : length (store e n z) = n.
Proof. destruct e; [apply le_bytes_length|apply be_bytes_length]. Qed.

Lemma le_bytes_ok n z : bytes_ok (le_bytes n z).
Proof.
  revert z. induction n; intros; simpl; constructor; auto.
  unfold is_byte. apply Z.mod_pos_bound. lia.
Qed.

Lemma zeros_ok n : bytes_ok (replicate n 0).
Proof. apply Forall_replicate. unfold is_byte. lia. Qed.

Lemma be_bytes_ok n z : bytes_ok (be_bytes n z).
Proof. apply Forall_reverse, le_bytes_ok. Qed.

Lemma store_ok e n z : bytes_ok (store e n z).
Proof. destruct e; [apply le_bytes_ok|apply be_bytes_ok]. Qed.

Lemma pow256 n : 256 ^ Z.of_nat (S n) = 256 * 256 ^ Z.of_nat n.
Proof. rewrite Nat2Z.inj_succ, Z.pow_succ_r; lia. Qed.

Lemma le_val_bytes n z : le_val (le_bytes n z) = z mod 256 ^ Z.of_nat n.
Proof.
  revert z. induction n as [|n IH]; intros z; simpl le_val; simpl le_bytes.
  - by rewrite Z.mod_1_r.
  - cbn [le_val]. rewrite IH, pow256, Z.rem_mul_r; lia.
Qed.

Lemma le_val_range l : bytes_ok l -> 0 <= le_val l < 256 ^ Z.of_nat (length l).
Proof.
  induction 1 as [|b l Hb _ IH]; cbn [le_val length]; [lia|].
  rewrite pow256. unfold is_byte in Hb. lia.
Qed.

Lemma le_bytes_val l : bytes_ok l -> le_bytes (length l) (le_val l) = l.
Proof.
  induction 1 as [|b l Hb _ IH]; cbn [le_val length le_bytes]; [done|].
  unfold is_byte in Hb. f_equal.
  - rewrite Z.mul_comm, Z.mod_add by lia. by apply Z.mod_small.
  - rewrite Z.mul_comm, Z.div_add, Z.div_small by lia. exact IH.
Qed.

Lemma le_val_app l1 l2 :
  le_val (l1 ++ l2) = le_val l1 + 256 ^ Z.of_nat (length l1) * le_val l2.
Proof.
  induction l1 as [|b l IH]; cbn [le_val length app].
  - lia.
  - rewrite IH, pow256. lia.
Qed.

Lemma be_val_bytes n z : be_val (be_bytes n z) = z mod 256 ^ Z.of_nat n.
Proof. unfold be_val, be_bytes. rewrite reverse_involutive. apply le_val_bytes. Qed.

Lemma be_val_range l : bytes_ok l -> 0 <= be_val l < 256 ^ Z.of_nat (length l).
Proof.
  intros. unfold be_val. rewrite <- length_reverse. by apply le_val_range, Forall_reverse.
Qed.

Lemma be_bytes_val l : bytes_ok l -> be_bytes (length l) (be_val l) = l.
Proof.
  intros. unfold be_bytes, be_val. rewrite <- length_reverse.
  rewrite le_bytes_val by by apply Forall_reverse. apply reverse_involutive.
Qed.

Lemma be_val_app l1 l2 :
  be_val (l1 ++ l2) = 256 ^ Z.of_nat (length l2) * be_val l1 + be_val l2.
Proof. unfold be_val. rewrite reverse_app, le_val_app, length_reverse. lia. Qed.

Lemma be_val_cons b l : be_val (b :: l) = 256 ^ Z.of_nat (length l) * b + be_val l.
Proof.
  change (b :: l) with ([b] ++ l). rewrite be_val_app.
  assert (be_val [b] = b) as -> by (unfold be_val; simpl; lia). done.
Qed.

Lemma load_store e n z : load e (store e n z) = z mod 256 ^ Z.of_nat n.
Proof. destruct e; [apply le_val_bytes|apply be_val_bytes]. Qed.

Lemma store_load e n l : bytes_ok l -> length l = n -> store e n (load e l) = l.
Proof. intros ? <-. destruct e; [by apply le_bytes_val|by apply be_bytes_val]. Qed.

Lemma load_range e l : bytes_ok l -> 0 <= load e l < 256 ^ Z.of_nat (length l).
Proof. destruct e; [apply le_val_range|apply be_val_range]. Qed.

Lemma store_mod e n z : store e n (z mod 256 ^ Z.of_nat n) = store e n z.
Proof.
  rewrite <- (load_store e n z). apply store_load; [apply store_ok|apply store_length].
Qed.

Lemma store_htonl e x : store e 4 (htonl e x) = be_bytes 4 x.
Proof. unfold htonl. apply store_load; [apply be_bytes_ok|apply be_bytes_length]. Qed.

Lemma ntohl_load e l : bytes_ok l -> length l = 4%nat -> ntohl e (load e l) = be_val l.
Proof. intros. unfold ntohl. by rewrite store_load. Qed.

Lemma ntohl_htonl e x : 0 <= x < 2 ^ 32 -> ntohl e (htonl e x) = x.
Proof.
  intros. unfold ntohl. rewrite store_htonl, be_val_bytes.
  change (256 ^ Z.of_nat 4) with (2 ^ 32). by apply Z.mod_small.
Qed.

Lemma length_write off bs l :
  (off + length bs <= length l)%nat -> length (write off bs l) = length l.
Proof. intros. unfold write. rewrite !length_app, length_take, length_drop. lia. Qed.

Lemma length_slice off n l : (off + n <= length l)%nat -> length (slice off n l) = n.
Proof. intros. unfold slice. rewrite length_take, length_drop. lia. Qed.

Lemma bytes_ok_write off bs l : bytes_ok bs -> bytes_ok l -> bytes_ok (write off bs l).
Proof.
  intros. unfold write. apply Forall_app; split; [by apply Forall_take|].
  apply Forall_app; split; [done|by apply Forall_drop].
Qed.

Lemma bytes_ok_slice off n l : bytes_ok l -> bytes_ok (slice off n l).
Proof. intros. unfold slice. by apply Forall_take, Forall_drop. Qed.

Lemma slice_write_eq off bs l :
  (off <= length l)%nat -> slice off (length bs) (write off bs l) = bs.
Proof.
  intros. unfold slice, write. rewrite drop_app_length' by (rewrite length_take; lia).
  by rewrite take_app_length.
Qed.

Lemma slice_write_ne off bs l o n :
  (off + length bs <= length l)%nat -> (o + n <= off \/ off + length bs <= o)%nat ->
  slice o n (write off bs l) = slice o n l.
Proof.
  intros Hl Ho. unfold slice, write. destruct Ho as [Ho|Ho].
  - rewrite drop_app_le by (rewrite length_take; lia). rewrite take_app_le by (rewrite length_drop, length_take; lia).
    rewrite skipn_firstn_comm, take_take. f_equal. lia.
  - rewrite drop_app_ge by (rewrite length_take; lia). rewrite drop_app_ge by (rewrite length_take; lia).
    rewrite drop_drop. f_equal. f_equal. rewrite length_take. lia.
Qed.

(** Overwriting behind a known prefix. *)
Lemma write_write used p q buf :
  (used <= length buf)%nat ->
  write (used + length p) q (write used p buf) = write used (p ++ q) buf.
Proof.
  intros Hl. unfold write. rewrite length_app, !app_assoc. f_equal.
  - f_equal. rewrite take_app_le by (rewrite length_app, length_take; lia).
    rewrite take_ge; [done|]. rewrite length_app, length_take. lia.
  - rewrite drop_app_ge by (rewrite length_app, length_take; lia).
    rewrite drop_drop. f_equal. rewrite length_app, length_take. lia.
Qed.

Lemma write_full used p buf :
  (used + length p = length buf)%nat -> write used p buf = take used buf ++ p.
Proof. intros. unfold write. by rewrite (drop_ge buf), app_nil_r by lia. Qed.

Lemma take_write_end used p buf :
  (used <= length buf)%nat -> take (used + length p) (write used p buf) = take used buf ++ p.
Proof.
  intros. unfold write. rewrite app_assoc, take_app_le, take_ge;
    [done|..]; rewrite length_app, length_take; lia.
Qed.

(** The end of a padded 64-byte block: zeros up to 56, then two words. *)
Lemma write_tail k z l h buf :
  length buf = 64%nat -> (k + length z = 56)%nat -> length l = 4%nat -> length h = 4%nat ->
  write 60 h (write 56 l (write k z buf)) = take k buf ++ z ++ l ++ h.
Proof.
  intros Hb Hz Hl Hh.
  replace 60%nat with (k + length (z ++ l))%nat by (rewrite length_app; lia).
  rewrite <- Hz, write_write, write_write by lia. rewrite write_full by (rewrite !length_app; lia).
  by rewrite <- !app_assoc.
Qed.

Create HintDb bytes.
Create Rewrite HintDb bytes.
#[export] Hint Resolve store_ok be_bytes_ok le_bytes_ok bytes_ok_write bytes_ok_slice
  store_length be_bytes_length le_bytes_length : bytes.
#[export] Hint Rewrite store_length be_bytes_length le_bytes_length : bytes.

(** [case_bool]: split on the boolean comparisons of the goal. *)
Ltac case_bool :=
  repeat match goal with
  | |- context [ ?x <=? ?y ] => destruct (Z.leb_spec x y)
  | |- context [ ?x <? ?y ] => destruct (Z.ltb_spec x y)
  | |- context [ ?x =? ?y ] => destruct (Z.eqb_spec x y)
  end.
