(* ===== verification/Bits.v ===== *)
(** * Bitwise operations on byte lists

    Bitwise operators act byte by byte, so they commute with the byte order
    conversions; masks select the high or the low part of a number. *)

From Stdlib Require Import ZArith Lia.
From stdpp Require Import base list numbers.
From S2P Require Import Prelude.

Lemma testbit_cons256 b z i :
  is_byte b -> 0 <= i ->
  Z.testbit (b + 256 * z) i = if i <? 8 then Z.testbit b i else Z.testbit z (i - 8).
Proof.
  intros Hb Hi. unfold is_byte in Hb. destruct (Z.ltb_spec i 8) as [Hlt|Hge].
  - rewrite <- (Z.mod_pow2_bits_low (b + 256 * z) 8) by lia. f_equal.
    change (2 ^ 8) with 256. rewrite Z.mul_comm, Z.mod_add by lia. by apply Z.mod_small.
  - replace i with (i - 8 + 8) at 1 by lia.
    rewrite <- Z.div_pow2_bits by lia. f_equal. change (2 ^ 8) with 256.
    rewrite Z.mul_comm, Z.div_add, Z.div_small by lia. lia.
Qed.

Lemma reverse_zip_with (f : Z -> Z -> Z) l1 l2 :
  length l1 = length l2 ->
  reverse (zip_with f l1 l2) = zip_with f (reverse l1) (reverse l2).
Proof.
  revert l2. induction l1 as [|x l1 IH]; intros [|y l2] Hl; try done.
  simpl in *. rewrite !reverse_cons, IH by lia.
  rewrite zip_with_app; [done|]. rewrite !length_reverse. lia.
Qed.

(** A binary operator that works bit by bit. *)
Class Bitwise (f : Z -> Z -> Z) (fb : bool -> bool -> bool) := {
  bitwise_spec : forall x y i, 0 <= i -> Z.testbit (f x y) i = fb (Z.testbit x i) (Z.testbit y i);
  bitwise_ff : fb false false = false;
  bitwise_nonneg : forall x y, 0 <= x -> 0 <= y -> 0 <= f x y
}.

#[export] Instance bitwise_land : Bitwise Z.land andb.
Proof.
  split; [intros; apply Z.land_spec|done|]. intros. apply Z.land_nonneg. lia.
Qed.
#[export] Instance bitwise_lor : Bitwise Z.lor orb.
Proof.
  split; [intros; apply Z.lor_spec|done|]. intros. apply Z.lor_nonneg. lia.
Qed.
#[export] Instance bitwise_lxor : Bitwise Z.lxor xorb.
Proof.
  split; [intros; apply Z.lxor_spec|done|]. intros. apply Z.lxor_nonneg. lia.
Qed.

Section Bitwise.
Context {f fb} `{Bitwise f fb}.

Lemma bitwise_range w x y :
  0 <= w -> 0 <= x < 2 ^ w -> 0 <= y < 2 ^ w -> 0 <= f x y < 2 ^ w.
Proof.
  intros Hw Hx Hy. pose proof (bitwise_nonneg x y ltac:(lia) ltac:(lia)) as H0.
  split; [done|].
  assert (f x y mod 2 ^ w = f x y) as <-; [|apply Z.mod_pos_bound; lia].
  apply Z.bits_inj'. intros i Hi. destruct (Z.ltb_spec i w).
  - by rewrite Z.mod_pow2_bits_low.
  - rewrite Z.mod_pow2_bits_high by lia. rewrite bitwise_spec by done.
    rewrite !(testbit_out_of_range _ w) by lia. by rewrite bitwise_ff.
Qed.

Lemma bitwise_byte x y : is_byte x -> is_byte y -> is_byte (f x y).
Proof. apply (bitwise_range 8). lia. Qed.

Lemma bitwise_cons x y a b :
  is_byte x -> is_byte y -> f (x + 256 * a) (y + 256 * b) = f x y + 256 * f a b.
Proof.
  intros Hx Hy. pose proof (bitwise_byte x y Hx Hy).
  apply Z.bits_inj'. intros i Hi.
  rewrite bitwise_spec, !testbit_cons256 by done.
  destruct (i <? 8) eqn:E; rewrite bitwise_spec; try done.
  apply Z.ltb_ge in E. lia.
Qed.

Lemma bitwise_00 : f 0 0 = 0.
Proof. apply Z.bits_inj'. intros i Hi. by rewrite bitwise_spec, Z.bits_0, bitwise_ff. Qed.

Lemma le_val_zip l1 l2 :
  bytes_ok l1 -> bytes_ok l2 -> length l1 = length l2 ->
  f (le_val l1) (le_val l2) = le_val (zip_with f l1 l2).
Proof.
  intros H1. revert l2. induction H1 as [|x l1 Hx H1 IH]; intros [|y l2] H2 Hl; try done.
  - apply bitwise_00.
  - inversion H2; subst. cbn. rewrite bitwise_cons by done. rewrite IH; auto.
Qed.

Lemma bytes_ok_zip l1 l2 : bytes_ok l1 -> bytes_ok l2 -> bytes_ok (zip_with f l1 l2).
Proof.
  intros H1. revert l2. induction H1; intros l2 H2; destruct H2; simpl; constructor; auto.
  by apply bitwise_byte.
Qed.

Lemma be_val_zip l1 l2 :
  bytes_ok l1 -> bytes_ok l2 -> length l1 = length l2 ->
  f (be_val l1) (be_val l2) = be_val (zip_with f l1 l2).
Proof.
  intros. unfold be_val. rewrite reverse_zip_with by done.
  apply le_val_zip; [by apply Forall_reverse..|]. by rewrite !length_reverse.
Qed.

Lemma load_zip e l1 l2 :
  bytes_ok l1 -> bytes_ok l2 -> length l1 = length l2 ->
  f (load e l1) (load e l2) = load e (zip_with f l1 l2).
Proof. destruct e; [apply le_val_zip|apply be_val_zip]. Qed.

(** [ntohl] commutes with the operator. *)
Lemma ntohl_bitwise e l1 l2 :
  bytes_ok l1 -> bytes_ok l2 -> length l1 = 4%nat -> length l2 = 4%nat ->
  ntohl e (f (load e l1) (load e l2)) = f (be_val l1) (be_val l2).
Proof.
  intros. rewrite load_zip by congruence.
  rewrite ntohl_load.
  - symmetry. apply be_val_zip; congruence.
  - by apply bytes_ok_zip.
  - rewrite length_zip_with. lia.
Qed.
End Bitwise.

(** [ntohl] is injective on 32-bit values, so network order values may be
    compared as they are. *)
Lemma ntohl_inj e x y :
  0 <= x < 2 ^ 32 -> 0 <= y < 2 ^ 32 -> ntohl e x = ntohl e y -> x = y.
Proof.
  intros Hx Hy E. unfold ntohl in E.
  assert (store e 4 x = store e 4 y) as E'.
  { rewrite <- (be_bytes_val (store e 4 x)), <- (be_bytes_val (store e 4 y));
      auto with bytes. by rewrite !store_length, E. }
  assert (load e (store e 4 x) = load e (store e 4 y)) as E2 by by rewrite E'.
  rewrite !load_store in E2. change (256 ^ Z.of_nat 4) with (2 ^ 32) in E2.
  by rewrite !Z.mod_small in E2.
Qed.

(** Clearing low bits forgets exactly the remainder. *)
Lemma clear_low_eq x y k :
  0 <= k -> (x - x mod 2 ^ k = y - y mod 2 ^ k <-> x / 2 ^ k = y / 2 ^ k).
Proof.
  intros. pose proof (Z.div_mod x (2 ^ k)). pose proof (Z.div_mod y (2 ^ k)).
  assert (0 < 2 ^ k) by lia. split; nia.
Qed.

(** A number lies in the aligned block of [x] iff the quotients agree. *)
Lemma in_block x y k :
  0 <= k ->
  (x / 2 ^ k = y / 2 ^ k <-> x - x mod 2 ^ k <= y <= x - x mod 2 ^ k + (2 ^ k - 1)).
Proof.
  intros. assert (0 < 2 ^ k) by lia.
  pose proof (Z.div_mod x (2 ^ k)). pose proof (Z.mod_pos_bound x (2 ^ k)).
  pose proof (Z.div_mod y (2 ^ k)). pose proof (Z.mod_pos_bound y (2 ^ k)).
  split; [nia|]. intros.
  assert (x / 2 ^ k - 1 < y / 2 ^ k) by nia.
  assert (y / 2 ^ k < x / 2 ^ k + 1) by nia. lia.
Qed.
