(* ===== verification/CString.v ===== *)
(** * C strings and the number parsing and printing of the C library

    The C library functions the modelled programs call on strings: [strchr],
    [strtoul] and its relatives, and the hexadecimal conversions of [sprintf].
    A C string is a [string] (its NUL terminator is implicit), an end pointer is
    the suffix of the string it points to. *)

From Stdlib Require Import ZArith Lia String Ascii.
From stdpp Require Import base list strings numbers option pretty.
From S2P Require Import Prelude.

(** [isspace] in the C locale. *)
Definition isspace (c : ascii) : bool :=
  let n := Z.of_nat (nat_of_ascii c) in (n =? 32) || ((9 <=? n) && (n <=? 13)).

Fixpoint skip_spaces (s : string) : string :=
  match s with
  | String c r => if isspace c then skip_spaces r else s
  | EmptyString => s
  end.

(** Value of a digit in the bases up to 36. *)
Definition digit_val (c : ascii) : option Z :=
  let n := Z.of_nat (nat_of_ascii c) in
  if (48 <=? n) && (n <=? 57) then Some (n - 48)
  else if (97 <=? n) && (n <=? 122) then Some (n - 87)
  else if (65 <=? n) && (n <=? 90) then Some (n - 55)
  else None.

Definition is_digit (base : Z) (c : ascii) : bool :=
  match digit_val c with Some d => d <? base | None => false end.

Definition isxdigit : ascii -> bool := is_digit 16.

Definition starts_digit (base : Z) (s : string) : bool :=
  match s with String c _ => is_digit base c | EmptyString => false end.

(** Longest prefix of digits: its value and the rest of the string. *)
Fixpoint take_digits (base : Z) (s : string) (acc : Z) : Z * string :=
  match s with
  | String c r =>
      match digit_val c with
      | Some d => if d <? base then take_digits base r (acc * base + d) else (acc, s)
      | None => (acc, s)
      end
  | EmptyString => (acc, s)
  end.

Definition take_sign (s : string) : bool * string :=
  match s with
  | String c r =>
      if ascii_dec c "-" then (true, r) else if ascii_dec c "+" then (false, r) else (false, s)
  | EmptyString => (false, s)
  end.

(** The base a [0x] or [0] prefix selects, and the string behind the prefix. *)
Definition take_base (base : Z) (s : string) : Z * string :=
  match s with
  | String "0" (String x r) =>
      if ((base =? 0) || (base =? 16)) && (bool_decide (x = "x"%char) || bool_decide (x = "X"%char))
         && starts_digit 16 r
      then (16, r)
      else ((if base =? 0 then 8 else base), s)
  | String "0" EmptyString => ((if base =? 0 then 8 else base), s)
  | _ => ((if base =? 0 then 10 else base), s)
  end.

(** The subject sequence of the [strto*] functions: sign, magnitude, end
    pointer; [None] when there is no conversion. *)
Definition strto_parse (s : string) (base : Z) : option (bool * Z * string) :=
  let '(neg, s2) := take_sign (skip_spaces s) in
  let '(b, s3) := take_base base s2 in
  if starts_digit b s3
  then let '(v, r) := take_digits b s3 0 in Some (neg, v, r)
  else None.

(** [strtoul] with [w]-bit [unsigned long]: value and end pointer. *)
Definition strtoul (w : Z) (s : string) (base : Z) : Z * string :=
  match strto_parse s base with
  | None => (0, s)
  | Some (neg, v, r) =>
      ((if 2 ^ w <=? v then 2 ^ w - 1 else if neg : bool then (- v) mod 2 ^ w else v), r)
  end.

(** [strtoull] (64 bits) with the [errno] it leaves: [true] for [ERANGE]. *)
Definition strtoull (s : string) (base : Z) : Z * bool * string :=
  match strto_parse s base with
  | None => (0, false, s)
  | Some (neg, v, r) =>
      if 2 ^ 64 <=? v then (2 ^ 64 - 1, true, r)
      else ((if neg : bool then (- v) mod 2 ^ 64 else v), false, r)
  end.

(** [strtoll] (64 bits) with the [errno] it leaves. *)
Definition strtoll (s : string) (base : Z) : Z * bool * string :=
  match strto_parse s base with
  | None => (0, false, s)
  | Some (neg, v, r) =>
      if neg : bool
      then if 2 ^ 63 <? v then (- 2 ^ 63, true, r) else (- v, false, r)
      else if 2 ^ 63 <=? v then (2 ^ 63 - 1, true, r) else (v, false, r)
  end.

(** [strchr(s, c)] used to cut the string: what precedes the first [c], and
    what follows it. *)
Fixpoint cut (c : ascii) (s : string) : option (string * string) :=
  match s with
  | EmptyString => None
  | String x r =>
      if ascii_dec x c then Some (EmptyString, r)
      else match cut c r with
           | Some (a, b) => Some (String x a, b)
           | None => None
           end
  end.

(** [strchr(s, c) != NULL]. *)
Definition has_char (c : ascii) (s : string) : bool :=
  match cut c s with Some _ => true | None => false end.

(** [%u] of [printf]. *)
Definition print_u (z : Z) : string := pretty (Z.to_N z).

Definition hex_digit (upper : bool) (d : Z) : ascii :=
  ascii_of_nat (Z.to_nat (if d <? 10 then 48 + d else if upper then 55 + d else 87 + d)).

(** [%0nx] and [%0nX] of a value below [16 ^ n]. *)
Fixpoint hex_fixed (upper : bool) (n : nat) (z : Z) : string :=
  match n with
  | O => EmptyString
  | S n => String (hex_digit upper (z / 16 ^ Z.of_nat n mod 16)) (hex_fixed upper n z)
  end.

(** Bytes of a string and back. *)
Definition byte_of_ascii (c : ascii) : Z := Z.of_nat (nat_of_ascii c).
Definition ascii_of_byte (b : Z) : ascii := ascii_of_nat (Z.to_nat b).
Definition bytes_of (s : string) : list Z := map byte_of_ascii (list_ascii_of_string s).
Definition string_of (l : list Z) : string := string_of_list_ascii (map ascii_of_byte l).

(** [strlen]. *)
Definition strlen (s : string) : Z := Z.of_nat (String.length s).

(** The string of one line feed. *)
Definition newline : string := String (ascii_of_nat 10) EmptyString.

(** The socket library's text conversions, on addresses in network order. *)
Class Inet := {
  inet_pton4 : string -> option (list Z);
  inet_ntop4 : list Z -> string;
  inet_pton6 : string -> option (list Z);
  inet_ntop6 : list Z -> string
}.

(** [c] is not in the text. *)
Definition without (c : ascii) (s : string) : Prop := Forall (fun d : ascii => d <> c) (list_ascii_of_string s).

(** ** Lemmas *)

Lemma byte_of_ascii_range c : 0 <= byte_of_ascii c < 256.
Proof. unfold byte_of_ascii. pose proof (nat_ascii_bounded c). lia. Qed.

Lemma ascii_of_byte_of_ascii c : ascii_of_byte (byte_of_ascii c) = c.
Proof. unfold ascii_of_byte, byte_of_ascii. by rewrite Nat2Z.id, ascii_nat_embedding. Qed.

Lemma bytes_of_ok s : bytes_ok (bytes_of s).
Proof.
  unfold bytes_of. apply Forall_forall. intros b Hb.
  apply list_elem_of_In, in_map_iff in Hb as [c [<- _]]. apply byte_of_ascii_range.
Qed.

Lemma bytes_of_length s : length (bytes_of s) = String.length s.
Proof. unfold bytes_of. rewrite length_map. induction s; simpl; auto. Qed.

Lemma string_of_bytes_of s : string_of (bytes_of s) = s.
Proof.
  unfold string_of, bytes_of. rewrite map_map.
  rewrite (map_ext _ id), map_id; [apply string_of_list_ascii_of_string|].
  intros. apply ascii_of_byte_of_ascii.
Qed.

Lemma bytes_of_app a b : bytes_of (a +:+ b) = bytes_of a ++ bytes_of b.
Proof.
  unfold bytes_of. induction a as [|c a IH]; [done|].
  change (String c a +:+ b) with (String c (a +:+ b)). cbn. by rewrite IH.
Qed.

Lemma string_app_assoc (a b c : string) : (a +:+ b) +:+ c = a +:+ (b +:+ c).
Proof.
  induction a as [|x a IH]; [done|].
  change (String x ((a +:+ b) +:+ c) = String x (a +:+ (b +:+ c))). by rewrite IH.
Qed.

Lemma string_app_nil (s : string) : s +:+ "" = s.
Proof.
  induction s as [|x s IH]; [done|].
  change (String x (s +:+ "") = String x s). by rewrite IH.
Qed.

Lemma strlen_app a b : strlen (a +:+ b) = strlen a + strlen b.
Proof. unfold strlen. rewrite <- !bytes_of_length, bytes_of_app, length_app. lia. Qed.

(** Cutting at a character that [a] does not contain. *)
Lemma cut_app c a b : has_char c a = false -> cut c (a +:+ String c b) = Some (a, b).
Proof.
  unfold has_char. induction a as [|x a IH]; simpl.
  - intros _. by destruct (ascii_dec c c).
  - destruct (ascii_dec x c); [done|].
    destruct (cut c a) as [[? ?]|]; [done|]. intros _. by rewrite IH.
Qed.

Lemma without_cons c d s : without c (String d s) <-> d <> c /\ without c s.
Proof. unfold without. cbn [list_ascii_of_string]. by rewrite Forall_cons. Qed.

Lemma without_nil c : without c "".
Proof. constructor. Qed.

Lemma cons_app c a b : String c a +:+ b = String c (a +:+ b).
Proof. done. Qed.

Lemma nil_app b : "" +:+ b = b.
Proof. done. Qed.

Lemma list_of_app a b : list_ascii_of_string (a +:+ b) = list_ascii_of_string a ++ list_ascii_of_string b.
Proof. induction a as [|c a IH]; [done|]. rewrite ?cons_app. cbn. f_equal. exact IH. Qed.

Lemma without_app c a b : without c (a +:+ b) <-> without c a /\ without c b.
Proof. unfold without. rewrite list_of_app. apply Forall_app. Qed.

Lemma cut_at c a b : without c a -> cut c (a +:+ String c b) = Some (a, b).
Proof.
  induction a as [|d a IH]; intros H; rewrite ?cons_app, ?nil_app; cbn.
  - by destruct (ascii_dec c c).
  - apply without_cons in H as [Hd H]. destruct (ascii_dec d c); [done|]. by rewrite IH.
Qed.

Lemma length_string_app a b : String.length (a +:+ b) = (String.length a + String.length b)%nat.
Proof. pose proof (strlen_app a b). unfold strlen in *. lia. Qed.

Example strtoul_hex : strtoul 32 "0x0419" 0 = (1049, ""%string).
Proof. reflexivity. Qed.
Example strtoul_neg : strtoul 32 " -1 " 10 = (4294967295, " "%string).
Proof. reflexivity. Qed.
