(* ===== verification/Cidr.v ===== *)
(** * IP address calculator: the address operations of owipcalc.c

    Models [feeds/packages/net/owipcalc/src/owipcalc.c]: the stack of
    intermediate results and every operation on it. The [addr] union of
    [struct cidr] is its 16 bytes of memory, so the 32-bit view [s_addr]
    depends on the byte order of the host, which is a parameter. The scratch
    field [buf] is left out: each function that reads it has written it before.
    The text form of an address ([inet_pton], [inet_ntop]) is an interface. *)

From Stdlib Require Import ZArith Lia String Ascii.
From stdpp Require Import base list strings numbers option.
From S2P Require Import Prelude CString.

Inductive af := AF_INET | AF_INET6.

#[export] Instance af_eq_dec : EqDecision af.
Proof. solve_decision. Defined.

Record cidr := Cidr { family : af; prefix : Z; addr : list Z }.

(** The global variables, the two output streams, and the answers the
    allocator will still give ([nil]: every later [malloc] succeeds). *)
Record world := World {
  stack : list cidr;
  quiet : bool;
  printed : bool;
  stdout : string;
  stderr : list string;
  mallocs : list bool
}.

Abbreviation P := (prog world).

Definition with_stack (f : list cidr -> list cidr) (w : world) : world :=
  World (f (stack w)) (quiet w) (printed w) (stdout w) (stderr w) (mallocs w).

Definition malloc : P bool := fun w =>
  match mallocs w with
  | [] => Ret true w
  | b :: r => Ret b (World (stack w) (quiet w) (printed w) (stdout w) (stderr w) r)
  end.

Definition eprintf (m : string) : P unit :=
  modify (fun w => World (stack w) (quiet w) (printed w) (stdout w) (stderr w ++ [m]) (mallocs w)).

(** The macro [qprintf]. *)
Definition qprintf (m : string) : P unit :=
  modify (fun w => World (stack w) (quiet w) true
    (if quiet w then stdout w else stdout w +:+ m) (stderr w) (mallocs w)).

(** [if (printed) qprintf(" ")]. *)
Definition separator : P unit :=
  w ← get_st; if printed w then qprintf " " else mret tt.

(** Dereference of [stack], and assignment to the structure it points to. *)
Definition top : P cidr := fun w =>
  match stack w with a :: _ => Ret a w | [] => Undef end.
Definition set_top (c : cidr) : P unit :=
  modify (with_stack (fun s => c :: tail s)).

Definition cidr_push (a : option cidr) : P unit :=
  match a with
  | Some a => modify (with_stack (cons a))
  | None => mret tt
  end.

Definition cidr_pop : P bool := fun w =>
  match stack w with
  | _ :: s => Ret true (with_stack (fun _ => s) w)
  | [] => Ret false w
  end.

(** [cidr_clone a]: the copy is the new top of the stack. *)
Definition cidr_clone (a : cidr) : P cidr :=
  ok ← malloc;
  if ok : bool then cidr_push (Some a);; mret a
  else eprintf "out of memory";; exit_with 255.

Definition with_addr (l : list Z) (c : cidr) : cidr := Cidr (family c) (prefix c) l.
Definition with_prefix (p : Z) (c : cidr) : cidr := Cidr (family c) p (addr c).

(** [~((1 << (32 - prefix)) - 1)] is computed from this [int]. *)
Definition hostmask4 (p : Z) : option Z :=
  x ← int_shl 1 (u32 (32 - p)); int_sub x 1.

Section Ops.
Context (e : endian).

(** [addr.v4.s_addr], read and written. *)
Definition s_addr (c : cidr) : Z := load e (take 4 (addr c)).
Definition set_s_addr (x : Z) (c : cidr) : cidr := with_addr (write 0 (store e 4 x) (addr c)) c.

Definition cidr_add4 (b : cidr) : P bool :=
  a ← top;
  let x := ntohl e (s_addr a) in
  let y := ntohl e (s_addr b) in
  n ← cidr_clone a;
  if negb (bool_decide (family n = AF_INET)) || negb (bool_decide (family b = AF_INET))
  then mret false
  else if u32 (x + y) <? x then eprintf "overflow during 'add'";; mret false
  else set_top (set_s_addr (htonl e (u32 (x + y))) n);; mret true.

Definition cidr_sub4 (b : cidr) : P bool :=
  a ← top;
  let x := ntohl e (s_addr a) in
  let y := ntohl e (s_addr b) in
  n ← cidr_clone a;
  if negb (bool_decide (family n = AF_INET)) || negb (bool_decide (family b = AF_INET))
  then mret false
  else if x <? u32 (x - y) then eprintf "underflow during 'sub'";; mret false
  else set_top (set_s_addr (htonl e (u32 (x - y))) n);; mret true.

Definition cidr_network4 : P bool :=
  a ← top; n ← cidr_clone a;
  m ← defined (hostmask4 (prefix n));
  set_top (with_prefix 32
    (set_s_addr (Z.land (s_addr n) (htonl e (u32 (Z.lnot m)))) n));;
  mret true.

Definition cidr_broadcast4 : P bool :=
  a ← top; n ← cidr_clone a;
  m ← defined (hostmask4 (prefix n));
  set_top (with_prefix 32 (set_s_addr (Z.lor (s_addr n) (htonl e (u32 m))) n));;
  mret true.

(** The test of [cidr_contains4], before it is printed. *)
Definition contains4_test (a b : cidr) : option bool :=
  m ← hostmask4 (prefix a);
  let net1 := Z.land (s_addr a) (htonl e (u32 (Z.lnot m))) in
  let net2 := Z.land (s_addr b) (htonl e (u32 (Z.lnot m))) in
  Some ((prefix a =? 0) || ((prefix a <=? prefix b) && (net1 =? net2))).

(** [qprintf("1"); return true] or [qprintf("0"); return false]. *)
Definition answer (r : bool) : P bool :=
  separator;; qprintf (if r then "1" else "0");; mret r.

Definition cidr_contains4 (b : cidr) : P bool :=
  a ← top; r ← defined (contains4_test a b); answer r.

Definition cidr_netmask4 : P bool :=
  a ← top; n ← cidr_clone a;
  m ← defined (hostmask4 (prefix n));
  set_top (with_prefix 32 (set_s_addr (htonl e (u32 (Z.lnot m))) n));;
  mret true.

Definition private4_test (x : Z) : bool :=
  ((0x0A000000 <=? x) && (x <=? 0x0AFFFFFF))
  || ((0xAC100000 <=? x) && (x <=? 0xAC1FFFFF))
  || ((0xC0A80000 <=? x) && (x <=? 0xC0A8FFFF)).

Definition cidr_private4 : P bool :=
  a ← top; answer (private4_test (ntohl e (s_addr a))).

Definition linklocal4_test (x : Z) : bool := (0xA9FE0000 <=? x) && (x <=? 0xA9FEFFFF).

Definition cidr_linklocal4 : P bool :=
  a ← top; answer (linklocal4_test (ntohl e (s_addr a))).

Definition cidr_prev4 (b : cidr) : P bool :=
  a ← top; n ← cidr_clone a;
  d ← defined (int_shl 1 (u32 (32 - prefix b)));
  set_top (set_s_addr (u32 (s_addr n - htonl e (u32 d))) (with_prefix (prefix b) n));;
  mret true.

Definition cidr_next4 (b : cidr) : P bool :=
  a ← top; n ← cidr_clone a;
  d ← defined (int_shl 1 (u32 (32 - prefix b)));
  set_top (set_s_addr (u32 (s_addr n + htonl e (u32 d))) (with_prefix (prefix b) n));;
  mret true.

(** The 16 bytes [cidr_6to4] stores for the [s_addr] value [x]. *)
Definition sixtofour_bytes (x : Z) : list Z :=
  [0x20; 0x02; u8 (Z.shiftr x 24); Z.land (Z.shiftr x 16) 0xFF;
   Z.land (Z.shiftr x 8) 0xFF; Z.land x 0xFF] ++ replicate 10 0.

Definition cidr_6to4 : P bool :=
  a ← top; n ← cidr_clone a;
  set_top (Cidr AF_INET6 48 (sixtofour_bytes (s_addr a)));;
  mret true.
End Ops.

(** ** IPv6 *)

(** The loop of [cidr_add6], on the bytes from index 15 down. *)
Fixpoint add6_loop (xs ys : list Z) (carry : Z) : list Z * Z :=
  match xs, ys with
  | x :: xs, y :: ys =>
      let overflow := if 256 <=? x + y + carry then 1 else 0 in
      let '(r, c) := add6_loop xs ys overflow in
      (u8 (x + (y + carry)) :: r, c)
  | _, _ => ([], carry)
  end.

Definition cidr_add6 (b : cidr) : P bool :=
  a ← top; n ← cidr_clone a;
  if negb (bool_decide (family a = AF_INET6)) || negb (bool_decide (family b = AF_INET6))
  then mret false
  else
    let '(r, carry) := add6_loop (reverse (addr n)) (reverse (addr b)) 0 in
    set_top (with_addr (reverse r) n);;
    if negb (carry =? 0) then eprintf "overflow during 'add'";; mret false
    else mret true.

Fixpoint sub6_loop (xs ys : list Z) (carry : Z) : list Z * Z :=
  match xs, ys with
  | x :: xs, y :: ys =>
      let underflow := if x - y - carry <? 0 then 1 else 0 in
      let '(r, c) := sub6_loop xs ys underflow in
      (u8 (x - (y + carry)) :: r, c)
  | _, _ => ([], carry)
  end.

Definition cidr_sub6 (b : cidr) : P bool :=
  a ← top; n ← cidr_clone a;
  if negb (bool_decide (family n = AF_INET6)) || negb (bool_decide (family b = AF_INET6))
  then mret false
  else
    let '(r, carry) := sub6_loop (reverse (addr n)) (reverse (addr b)) 0 in
    set_top (with_addr (reverse r) n);;
    if negb (carry =? 0) then eprintf "underflow during 'sub'";; mret false
    else mret true.

(** The borrow and carry loops of [cidr_prev6] and [cidr_next6], on the bytes
    from index [idx] down to 0. *)
Fixpoint prev6_loop (xs : list Z) (carry : Z) : list Z * Z :=
  match xs with
  | x :: xs =>
      let underflow := if x - carry <? 0 then 1 else 0 in
      let '(r, c) := prev6_loop xs underflow in (u8 (x - carry) :: r, c)
  | [] => ([], carry)
  end.

Fixpoint next6_loop (xs : list Z) (carry : Z) : list Z * Z :=
  match xs with
  | x :: xs =>
      let overflow := if 256 <=? x + carry then 1 else 0 in
      let '(r, c) := next6_loop xs overflow in (u8 (x + carry) :: r, c)
  | [] => ([], carry)
  end.

(** Run a loop on the bytes [idx .. 0] of an address; an index past the array
    is undefined. *)
Definition from_index (loop : list Z -> Z -> list Z * Z) (idx : Z) (l : list Z)
    : option (list Z * Z) :=
  if 15 <? idx then None
  else let k := S (Z.to_nat idx) in
       let '(r, c) := loop (reverse (take k l)) 1 in
       Some (reverse r ++ drop k l, c).

Definition cidr_prev6 (b : cidr) : P bool :=
  a ← top; n ← cidr_clone a;
  if prefix b =? 0 then eprintf "underflow during 'prev'";; mret false
  else
    '(l, carry) ← defined (from_index prev6_loop (u8 ((prefix b - 1) / 8)) (addr n));
    set_top (with_addr l n);;
    if negb (carry =? 0) then eprintf "underflow during 'prev'";; mret false
    else set_top (with_prefix (prefix b) (with_addr l n));; mret true.

Definition cidr_next6 (b : cidr) : P bool :=
  a ← top; n ← cidr_clone a;
  if prefix b =? 0 then eprintf "overflow during 'next'";; mret false
  else
    '(l, carry) ← defined (from_index next6_loop (u8 ((prefix b - 1) / 8)) (addr n));
    set_top (with_addr l n);;
    if negb (carry =? 0) then eprintf "overflow during 'next'";; mret false
    else set_top (with_prefix (prefix b) (with_addr l n));; mret true.

(** Clearing the host bits of the 16 bytes, as [cidr_network6] does. *)
Definition network6_bytes (p : Z) (l : list Z) : option (list Z) :=
  let h := u32 (128 - p) in
  if 128 <? h then None
  else
    let i := Z.to_nat (h / 8) in
    let l1 := take (16 - i) l ++ replicate i 0 in
    if h mod 8 =? 0 then Some l1
    else Some (alter (fun x => u8 (Z.land x (Z.lnot (2 ^ (h mod 8) - 1)))) (15 - i)%nat l1).

Definition cidr_network6 : P bool :=
  a ← top; n ← cidr_clone a;
  l ← defined (network6_bytes (prefix n) (addr n));
  set_top (with_addr l n);;
  mret true.

Definition contains6_test (a b : cidr) : bool :=
  let h := u32 (128 - prefix a) in
  let i := Z.to_nat (h / 8 mod 16) in
  let m := u8 (Z.lnot (2 ^ (h mod 8) - 1)) in
  let net1 := Z.land (nth (15 - i) (addr a) 0) m in
  let net2 := Z.land (nth (15 - i) (addr b) 0) m in
  (prefix a =? 0)
  || ((prefix a <=? prefix b) && (net1 =? net2)
      && (bool_decide (i = 15%nat)
          || bool_decide (take (15 - i) (addr a) = take (15 - i) (addr b)))).

Definition cidr_contains6 (b : cidr) : P bool :=
  a ← top; answer (contains6_test a b).

Definition linklocal6_test (l : list Z) : bool :=
  (nth 0 l 0 =? 0xFE) && (0x80 <=? nth 1 l 0) && (nth 1 l 0 <=? 0xBF).

Definition cidr_linklocal6 : P bool := a ← top; answer (linklocal6_test (addr a)).

Definition ula6_test (l : list Z) : bool := (0xFC <=? nth 0 l 0) && (nth 0 l 0 <=? 0xFD).

Definition cidr_ula6 : P bool := a ← top; answer (ula6_test (addr a)).

Definition cidr_howmany (b : cidr) : P bool :=
  a ← top;
  separator;;
  if prefix b <? prefix a then qprintf "0";; mret true
  else d ← defined (int_shl 1 (u32 (prefix b - prefix a)));
       qprintf (print_u (u32 d));; mret true.

Definition cidr_prefix (b : cidr) : P bool :=
  a ← top; set_top (with_prefix (prefix b) a);; mret true.

Definition cidr_quiet : P bool :=
  modify (fun w => World (stack w) true (printed w) (stdout w) (stderr w) (mallocs w));;
  mret true.

(** ** Text *)

Section Text.
Context (e : endian) (ulong : Z) `{Inet}.
(** Bytes the allocator leaves in the part of the union an IPv4 address does
    not use. *)
Context (junk : list Z).

Definition cidr_print4 : P bool :=
  w ← get_st;
  match stack w with
  | [] => mret false
  | a :: _ =>
  if negb (bool_decide (family a = AF_INET)) then mret false
  else
    separator;;
    qprintf (inet_ntop4 (take 4 (addr a)));;
    (if prefix a <? 32 then qprintf ("/" +:+ print_u (prefix a)) else mret tt);;
    cidr_pop;; mret true
  end.

Definition cidr_print6 : P bool :=
  w ← get_st;
  match stack w with
  | [] => mret false
  | a :: _ =>
  if negb (bool_decide (family a = AF_INET6)) then mret false
  else
    separator;;
    qprintf (inet_ntop6 (addr a));;
    (if prefix a <? 128 then qprintf ("/" +:+ print_u (prefix a)) else mret tt);;
    cidr_pop;; mret true
  end.

(** [for (prefix = 0; mask; mask >>= 1) prefix += mask & 1]. *)
Fixpoint count_bits (n : nat) (mask : Z) : Z :=
  match n with
  | O => 0
  | S n => if mask =? 0 then 0 else Z.land mask 1 + count_bits n (Z.shiftr mask 1)
  end.

(** The prefix length after the slash; [None]: a parse error. *)
Definition parse_plen4 (p : string) : option Z :=
  if has_char "." p then
    mask ← inet_pton4 p; Some (count_bits 32 (load e mask))
  else
    let '(v, r) := strtoul ulong p 10 in
    let pl := u32 v in
    if bool_decide (r = p) || negb (bool_decide (r = ""%string)) || (32 <? pl)
    then None else Some pl.

Definition parse4_text (s : string) : option cidr :=
  if 33 <=? strlen s then None
  else
    match cut "/" s with
    | Some (a, p) =>
        pl ← parse_plen4 p;
        if bool_decide (a = ""%string) then Some (Cidr AF_INET pl (replicate 4 0 ++ junk))
        else l ← inet_pton4 a; Some (Cidr AF_INET pl (l ++ junk))
    | None => l ← inet_pton4 s; Some (Cidr AF_INET 32 (l ++ junk))
    end.

Definition cidr_parse4 (s : string) : P (option cidr) :=
  ok ← malloc; mret (if ok : bool then parse4_text s else None).

Definition parse6_text (s : string) : option cidr :=
  if 51 <=? strlen s then None
  else
    match cut "/" s with
    | Some (a, p) =>
        let '(v, r) := strtoul ulong p 10 in
        let pl := u32 v in
        if bool_decide (r = p) || negb (bool_decide (r = ""%string)) || (128 <? pl)
        then None
        else if bool_decide (a = ""%string) then Some (Cidr AF_INET6 pl (replicate 16 0))
        else l ← inet_pton6 a; Some (Cidr AF_INET6 pl l)
    | None => l ← inet_pton6 s; Some (Cidr AF_INET6 128 l)
    end.

Definition cidr_parse6 (s : string) : P (option cidr) :=
  ok ← malloc; mret (if ok : bool then parse6_text s else None).

(** The operand a plain number stands for. *)
Definition number_operand (sum : Z) (af_hint : af) : cidr :=
  match af_hint with
  | AF_INET => Cidr AF_INET sum (store e 4 (htonl e sum) ++ junk)
  | AF_INET6 => Cidr AF_INET6 sum (be_bytes 16 sum)
  end.

Definition cidr_parse (op s : string) (af_hint : af) : P (option cidr) :=
  let '(v, r) := strtoul ulong s 0 in
  let sum := u32 v in
  if negb (bool_decide (r = s)) && bool_decide (r = ""%string) then
    ok ← malloc;
    mret (if ok : bool then Some (number_operand sum af_hint) else None)
  else
    a ← (if has_char ":" s then cidr_parse6 s else cidr_parse4 s);
    match a with
    | None => mret None
    | Some a =>
        if bool_decide (family a = af_hint) then mret (Some a)
        else
          eprintf ("attempt to '" +:+ op +:+ "' "
                   +:+ (if bool_decide (af_hint = AF_INET) then "ipv4" else "ipv6")
                   +:+ " with "
                   +:+ (if bool_decide (af_hint = AF_INET) then "ipv6" else "ipv4")
                   +:+ " address");;
          exit_with 4
    end.
End Text.
