(* ===== verification/CidrMain.v ===== *)
(** * IP address calculator: the command line of main.c

    Models [feeds/packages/net/owipcalc/src/main.c]: the table of operations,
    [runop], and [main]. The usage text itself is left out ([usage] is its exit). *)

From Stdlib Require Import ZArith Lia String Ascii.
From stdpp Require Import base list strings numbers option.
From S2P Require Import Prelude CString Cidr.

(** One row of [ops[]]; [None] is a null function pointer. *)
Record op := Op {
  name : string;
  f4_a1 : option (P bool);
  f4_a2 : option (cidr -> P bool);
  f6_a1 : option (P bool);
  f6_a2 : option (cidr -> P bool)
}.

Definition usage : P Z := exit_with 1.

Section Main.
Context (e : endian) (ulong : Z) `{Inet} (junk : list Z).

Definition binary (n : string) (f4 f6 : option (cidr -> P bool)) : op := Op n None f4 None f6.
Definition unary (n : string) (f4 f6 : option (P bool)) : op := Op n f4 None f6 None.

Definition ops : list op := [
  binary "add" (Some (cidr_add4 e)) (Some cidr_add6);
  binary "sub" (Some (cidr_sub4 e)) (Some cidr_sub6);
  binary "next" (Some (cidr_next4 e)) (Some cidr_next6);
  binary "prev" (Some (cidr_prev4 e)) (Some cidr_prev6);
  unary "network" (Some (cidr_network4 e)) (Some cidr_network6);
  unary "broadcast" (Some (cidr_broadcast4 e)) None;
  binary "prefix" (Some cidr_prefix) (Some cidr_prefix);
  unary "netmask" (Some (cidr_netmask4 e)) None;
  unary "6to4" (Some (cidr_6to4 e)) None;
  binary "howmany" (Some cidr_howmany) (Some cidr_howmany);
  binary "contains" (Some (cidr_contains4 e)) (Some cidr_contains6);
  unary "private" (Some (cidr_private4 e)) None;
  unary "linklocal" (Some (cidr_linklocal4 e)) (Some cidr_linklocal6);
  unary "ula" None (Some cidr_ula6);
  unary "quiet" (Some cidr_quiet) (Some cidr_quiet);
  unary "pop" (Some cidr_pop) (Some cidr_pop);
  unary "print" (Some cidr_print4) (Some cidr_print6)
].

Definition is_some {A} (o : option A) : bool := match o with Some _ => true | None => false end.

(** Which row [runop] finds. *)
Definition find_op (arg1 : string) : option op :=
  match list_find (fun o => name o = arg1) ops with
  | Some (_, o) => Some o
  | None => None
  end.

(** [!f(...)] as an exit status. *)
Definition status_of (r : bool) : Z := if r then 0 else 1.

Definition not_supported (o : op) (f : af) : P unit :=
  eprintf ("'" +:+ name o +:+ "' not supported for "
           +:+ (if bool_decide (f = AF_INET) then "ipv4" else "ipv6") +:+ " addresses").

(** Result of [runop]: continue?, the remaining arguments, [*status]. *)
Definition runop (arg : list string) (status : Z) : P (bool * list string * Z) :=
  match arg with
  | [] => mret (false, arg, status)
  | arg1 :: rest =>
      match find_op arg1 with
      | None => mret (false, arg, status)
      | Some o =>
          if is_some (f4_a2 o) || is_some (f6_a2 o) then
            match rest with
            | [] =>
                eprintf ("'" +:+ name o +:+ "' requires an argument");;
                mret (false, arg, 2)
            | arg2 :: rest2 =>
                a ← top;
                b ← cidr_parse e ulong junk (name o) arg2 (family a);
                match b with
                | None =>
                    eprintf ("invalid address argument for '" +:+ name o +:+ "'");;
                    mret (false, arg, 3)
                | Some b =>
                    match (if bool_decide (family a = AF_INET) then f4_a2 o else f6_a2 o) with
                    | None => not_supported o (family a);; mret (false, rest2, 5)
                    | Some f => r ← f b; mret (true, rest2, status_of r)
                    end
                end
            end
          else
            a ← top;
            match (if bool_decide (family a = AF_INET) then f4_a1 o else f6_a1 o) with
            | None => not_supported o (family a);; mret (false, rest, 5)
            | Some f => r ← f; mret (true, rest, status_of r)
            end
      end
  end.

(** [while (runop(&arg, &status));] with at most [n] iterations. *)
Fixpoint run_ops (n : nat) (arg : list string) (status : Z)
    : P (option (list string * Z)) :=
  match n with
  | O => mret None
  | S n =>
      '(continue, arg', status') ← runop arg status;
      if continue : bool then run_ops n arg' status' else mret (Some (arg', status'))
  end.

(** [main]'s exit code. [argv] is the command line without the program name;
    the loop runs once per argument and once more to stop. *)
Definition main (argv : list string) : P Z :=
  modify (fun w => World (stack w) false (printed w) (stdout w) (stderr w) (mallocs w));;
  match argv with
  | [] | [_] => usage
  | base :: arg =>
      a ← (if has_char ":" base then cidr_parse6 ulong base
           else cidr_parse4 e ulong junk base);
      match a with
      | None => usage
      | Some a =>
          cidr_push (Some a);;
          r ← run_ops (S (length arg)) arg 0;
          match r with
          | None => undef
          | Some (unknown :: _, _) =>
              eprintf ("unknown operation '" +:+ unknown +:+ "'");; exit_with 6
          | Some ([], status) =>
              w ← get_st;
              (if negb (printed w) && (status <? 2) then
                 a ← top;
                 (if bool_decide (family a = AF_INET) then cidr_print4 else cidr_print6);;
                 mret tt
               else mret tt);;
              qprintf newline;;
              exit_with status
          end
      end
  end.

(** The globals at program start. *)
Definition start (m : list bool) : world := World [] true false "" [] m.
End Main.
