(* ===== verification/CidrFacts.v ===== *)
(** * IP address calculator: lemmas

    Well-formed addresses, their numeric values, how the world changes, and the
    arithmetic of the masks and of the carry loops. *)

From Stdlib Require Import ZArith Lia String Ascii.
From stdpp Require Import base list strings numbers option.
From S2P Require Import Prelude Bits CString Cidr.

(** ** Values *)

Record wf (c : cidr) : Prop := Wf {
  wf_length : length (addr c) = 16%nat;
  wf_bytes : bytes_ok (addr c);
  wf_prefix : 0 <= prefix c < 2 ^ 32
}.

(** The IPv4 address as a number, and the IPv6 address as a number. *)
Definition v4 (e : endian) (c : cidr) : Z := ntohl e (s_addr e c).
Definition v6 (c : cidr) : Z := be_val (addr c).

(** ** The world *)

Definition can_malloc (w : world) : Prop := head (mallocs w) <> Some false.

Definition after_malloc (w : world) : world :=
  World (stack w) (quiet w) (printed w) (stdout w) (stderr w) (tail (mallocs w)).

(** The world after an operation that pushed the result [n]. *)
Definition pushed (w : world) (n : cidr) : world := with_stack (cons n) (after_malloc w).

(** The world after a message on standard error. *)
Definition warned (w : world) (m : string) : world :=
  World (stack w) (quiet w) (printed w) (stdout w) (stderr w ++ [m]) (mallocs w).

Lemma malloc_ok w : can_malloc w -> malloc w = Ret true (after_malloc w).
Proof. destruct w as [? ? ? ? ? [|[] ?]]; cbn; intros H; [done|done|]. by destruct H. Qed.

Lemma clone_ok a w : can_malloc w -> cidr_clone a w = Ret a (pushed w a).
Proof. intros H. unfold cidr_clone, mbind, prog_bind. by rewrite malloc_ok. Qed.

Lemma top_ok w a st : stack w = a :: st -> top w = Ret a w.
Proof. intros H. unfold top. by rewrite H. Qed.

Lemma set_top_pushed w n n' : set_top n' (pushed w n) = Ret tt (pushed w n').
Proof. done. Qed.

(** Run the first steps of an operation: read the top, clone it. *)
Ltac start_op :=
  unfold mbind, prog_bind;
  match goal with H : stack ?w = _ :: _ |- context [ top ?w ] => rewrite (top_ok w _ _ H) end;
  cbn beta iota;
  try (rewrite clone_ok by assumption; cbn beta iota).

(** ** IPv4 arithmetic *)

Lemma take4_ok c : wf c -> bytes_ok (take 4 (addr c)) /\ length (take 4 (addr c)) = 4%nat.
Proof.
  intros [Hl Hb _]. split; [by apply Forall_take|]. rewrite length_take. lia.
Qed.

Lemma v4_range e c : wf c -> 0 <= v4 e c < 2 ^ 32.
Proof.
  intros [Hb Hl]%take4_ok. unfold v4, s_addr. rewrite ntohl_load by done.
  pose proof (be_val_range _ Hb) as Hr. rewrite Hl in Hr. exact Hr.
Qed.

Lemma s_addr_range e c : wf c -> 0 <= s_addr e c < 2 ^ 32.
Proof.
  intros [Hb Hl]%take4_ok. unfold s_addr. pose proof (load_range e _ Hb) as Hr.
  rewrite Hl in Hr. exact Hr.
Qed.

Lemma htonl_range e x : 0 <= htonl e x < 2 ^ 32.
Proof.
  unfold htonl. pose proof (load_range e (be_bytes 4 x) (be_bytes_ok _ _)) as Hr.
  rewrite be_bytes_length in Hr. exact Hr.
Qed.

Lemma s_addr_set e x c : wf c -> s_addr e (set_s_addr e x c) = x mod 2 ^ 32.
Proof.
  intros Hwf. unfold s_addr, set_s_addr, with_addr, write. cbn [addr].
  rewrite take_0, app_nil_l, take_app_le, take_ge by (rewrite store_length; lia).
  apply load_store.
Qed.

Lemma wf_set_s_addr e x c : wf c -> wf (set_s_addr e x c).
Proof.
  intros [Hl Hb Hp]. unfold set_s_addr, with_addr. constructor; cbn [addr prefix]; [| |done].
  - rewrite length_write; rewrite ?store_length; lia.
  - auto with bytes.
Qed.

Lemma wf_with_prefix p c : wf c -> 0 <= p < 2 ^ 32 -> wf (with_prefix p c).
Proof. intros [Hl Hb _] Hp. by constructor. Qed.

(** The address of a structure whose [s_addr] was assigned. *)
Lemma v4_set e x c : wf c -> 0 <= x < 2 ^ 32 -> v4 e (set_s_addr e x c) = ntohl e x.
Proof. intros. unfold v4. by rewrite s_addr_set, Z.mod_small. Qed.

Lemma v4_set_htonl e x c :
  wf c -> 0 <= x < 2 ^ 32 -> v4 e (set_s_addr e (htonl e x) c) = x.
Proof. intros. rewrite v4_set by auto using htonl_range. by apply ntohl_htonl. Qed.

Lemma v4_with_prefix e p c : v4 e (with_prefix p c) = v4 e c.
Proof. done. Qed.

Lemma ntohl_s_addr_op e c x {f fb} `{Bitwise f fb} :
  wf c -> 0 <= x < 2 ^ 32 -> ntohl e (f (s_addr e c) (htonl e x)) = f (v4 e c) x.
Proof.
  intros Hwf Hx. destruct (take4_ok c Hwf) as [Hb Hl].
  unfold v4, s_addr, htonl. rewrite ntohl_bitwise by auto with bytes.
  rewrite ntohl_load by done. rewrite be_val_bytes. f_equal.
  change (256 ^ Z.of_nat 4) with (2 ^ 32). by apply Z.mod_small.
Qed.

Lemma hostmask4_ok p : 2 <= p <= 32 -> hostmask4 p = Some (2 ^ (32 - p) - 1).
Proof.
  intros Hp. assert (exists n, p = Z.of_nat n /\ (2 <= n <= 32)%nat) as (n & -> & Hn)
    by (exists (Z.to_nat p); lia).
  do 33 (destruct n as [|n]; [try lia; reflexivity|]). lia.
Qed.

Lemma hostmask4_undefined p : 0 <= p < 2 ^ 32 -> (p < 2 \/ 32 < p) -> hostmask4 p = None.
Proof.
  intros Hp [Hlt|Hgt].
  - assert (p = 0 \/ p = 1) as [-> | ->] by lia; reflexivity.
  - unfold hostmask4, int_shl, wrap.
    rewrite <- (Z.mod_add _ 1), Z.mod_small by lia.
    destruct (Z.leb_spec 0 (32 - p + 1 * 2 ^ 32)), (Z.ltb_spec (32 - p + 1 * 2 ^ 32) 32);
      simpl; (done || lia).
Qed.

Lemma netmask4_range k : 0 <= k <= 31 -> 0 <= u32 (Z.lnot (2 ^ k - 1)) < 2 ^ 32.
Proof. intros. apply wrap_range. lia. Qed.

Lemma land_netmask4 x k :
  0 <= k <= 31 -> 0 <= x < 2 ^ 32 ->
  Z.land x (u32 (Z.lnot (2 ^ k - 1))) = x - x mod 2 ^ k.
Proof. intros. apply land_high_mask; lia. Qed.

Lemma mod_le_self x k : 0 <= x -> 0 <= k -> 0 <= x - x mod 2 ^ k <= x.
Proof.
  intros. pose proof (Z.mod_pos_bound x (2 ^ k) ltac:(lia)).
  pose proof (Z.mod_le x (2 ^ k) ltac:(lia) ltac:(lia)). lia.
Qed.

(** ** IPv6 arithmetic: the carry loops *)

Definition is_bit (c : Z) : Prop := c = 0 \/ c = 1.

(** A byte with its carry or borrow taken out. *)
Lemma byte_carry x : 0 <= x < 512 -> x = u8 x + 256 * (if 256 <=? x then 1 else 0).
Proof.
  intros. unfold wrap. change (2 ^ 8) with 256. destruct (Z.leb_spec 256 x).
  - rewrite <- (Z.mod_add x (-1)), Z.mod_small by lia. lia.
  - rewrite Z.mod_small by lia. lia.
Qed.

Lemma byte_borrow x : -256 <= x < 256 -> x = u8 x - 256 * (if x <? 0 then 1 else 0).
Proof.
  intros. unfold wrap. change (2 ^ 8) with 256. destruct (Z.ltb_spec x 0).
  - rewrite <- (Z.mod_add x 1), Z.mod_small by lia. lia.
  - rewrite Z.mod_small by lia. lia.
Qed.

Lemma u8_byte x : is_byte (u8 x).
Proof. apply (wrap_range 8). lia. Qed.

Lemma add6_loop_spec xs ys carry :
  length xs = length ys -> bytes_ok xs -> bytes_ok ys -> is_bit carry ->
  let '(r, c) := add6_loop xs ys carry in
  bytes_ok r /\ length r = length xs /\ is_bit c /\
  le_val xs + le_val ys + carry = le_val r + 256 ^ Z.of_nat (length xs) * c.
Proof.
  intros Hl Hx. revert ys carry Hl. induction Hx as [|x xs Hx _ IH];
    intros [|y ys] carry Hl Hy Hc; try done.
  - cbn. repeat split; [constructor|done|lia].
  - inversion Hy as [|? ? Hy1 Hy2]; subst. cbn [add6_loop length].
    unfold is_byte in Hx, Hy1.
    pose proof (byte_carry (x + y + carry) ltac:(destruct Hc; lia)) as Hb.
    specialize (IH ys (if 256 <=? x + y + carry then 1 else 0) ltac:(simpl in Hl; lia) Hy2).
    destruct (add6_loop xs ys _) as [r c].
    destruct IH as (Hr & Hlr & Hc' & Heq); [unfold is_bit; case_bool; lia|].
    rewrite Z.add_assoc. repeat split; [by constructor; [apply u8_byte|]|cbn; lia|done|].
    rewrite pow256. cbn [le_val]. lia.
Qed.

Lemma sub6_loop_spec xs ys carry :
  length xs = length ys -> bytes_ok xs -> bytes_ok ys -> is_bit carry ->
  let '(r, c) := sub6_loop xs ys carry in
  bytes_ok r /\ length r = length xs /\ is_bit c /\
  le_val xs - le_val ys - carry = le_val r - 256 ^ Z.of_nat (length xs) * c.
Proof.
  intros Hl Hx. revert ys carry Hl. induction Hx as [|x xs Hx _ IH];
    intros [|y ys] carry Hl Hy Hc; try done.
  - cbn. repeat split; [constructor|done|lia].
  - inversion Hy as [|? ? Hy1 Hy2]; subst. cbn [sub6_loop length].
    unfold is_byte in Hx, Hy1.
    pose proof (byte_borrow (x - y - carry) ltac:(destruct Hc; lia)) as Hb.
    specialize (IH ys (if x - y - carry <? 0 then 1 else 0) ltac:(simpl in Hl; lia) Hy2).
    destruct (sub6_loop xs ys _) as [r c].
    destruct IH as (Hr & Hlr & Hc' & Heq); [unfold is_bit; case_bool; lia|].
    rewrite Z.sub_add_distr. repeat split; [by constructor; [apply u8_byte|]|cbn; lia|done|].
    rewrite pow256. cbn [le_val]. lia.
Qed.

(** The one-operand loops are the two-operand loops with a zero operand. *)
Lemma next6_loop_add xs carry : next6_loop xs carry = add6_loop xs (replicate (length xs) 0) carry.
Proof.
  revert carry. induction xs as [|x xs IH]; intros carry; cbn; [done|].
  by rewrite IH, Z.add_0_r.
Qed.

Lemma prev6_loop_sub xs carry : prev6_loop xs carry = sub6_loop xs (replicate (length xs) 0) carry.
Proof.
  revert carry. induction xs as [|x xs IH]; intros carry; cbn; [done|].
  by rewrite IH, Z.sub_0_r.
Qed.

Lemma le_val_zeros n : le_val (replicate n 0) = 0.
Proof. induction n; cbn; lia. Qed.

Lemma reverse_zeros n : reverse (replicate n 0) = replicate n 0.
Proof. apply reverse_replicate. Qed.

Lemma be_val_zeros n : be_val (replicate n 0) = 0.
Proof. unfold be_val. by rewrite reverse_zeros, le_val_zeros. Qed.

Lemma pow256_pow2 n : 256 ^ Z.of_nat n = 2 ^ (8 * Z.of_nat n).
Proof. rewrite Z.pow_mul_r by lia. done. Qed.

(** Running a loop from byte [idx] changes the number by the weight of that byte. *)
Lemma from_index_spec loop idx l sgn :
  0 <= idx <= 15 -> length l = 16%nat -> bytes_ok l ->
  (forall xs, bytes_ok xs ->
    let '(r, c) := loop xs 1 in
    bytes_ok r /\ length r = length xs /\ is_bit c /\
    le_val xs + sgn = le_val r + sgn * 256 ^ Z.of_nat (length xs) * c) ->
  exists l' c, from_index loop idx l = Some (l', c) /\ bytes_ok l' /\ length l' = 16%nat /\
    is_bit c /\ be_val l + sgn * 2 ^ (8 * (15 - idx)) = be_val l' + sgn * 2 ^ 128 * c.
Proof.
  intros Hi Hl Hb Hloop. unfold from_index.
  destruct (Z.ltb_spec 15 idx); [lia|].
  set (k := S (Z.to_nat idx)).
  specialize (Hloop (reverse (take k l)) ltac:(by apply Forall_reverse, Forall_take)).
  destruct (loop (reverse (take k l)) 1) as [r c].
  destruct Hloop as (Hr & Hlr & Hc & Heq).
  rewrite length_reverse, length_take in Hlr, Heq.
  assert (Hk : (k `min` length l)%nat = k) by lia. rewrite Hk in *.
  eexists _, c. split; [done|]. split; [|split; [|split; [done|]]].
  - apply Forall_app; split; [by apply Forall_reverse|by apply Forall_drop].
  - rewrite length_app, length_reverse, length_drop. lia.
  - rewrite <- (take_drop k l) at 1. rewrite !be_val_app, length_drop.
    replace (be_val (reverse r)) with (le_val r) by (unfold be_val; by rewrite reverse_involutive).
    fold (be_val (take k l)) in Heq.
    replace (8 * (15 - idx)) with (8 * Z.of_nat (length l - k)) by lia.
    rewrite <- pow256_pow2.
    replace (2 ^ 128) with (256 ^ Z.of_nat (length l - k) * 256 ^ Z.of_nat k); [nia|].
    rewrite <- Z.pow_add_r by lia. replace (Z.of_nat (length l - k) + Z.of_nat k) with 16 by lia.
    done.
Qed.

Lemma from_index_next6 idx l :
  0 <= idx <= 15 -> length l = 16%nat -> bytes_ok l ->
  exists l' c, from_index next6_loop idx l = Some (l', c) /\ bytes_ok l' /\ length l' = 16%nat /\
    is_bit c /\ be_val l + 2 ^ (8 * (15 - idx)) = be_val l' + 2 ^ 128 * c.
Proof.
  intros Hi Hl Hb. destruct (from_index_spec next6_loop idx l 1 Hi Hl Hb) as (l' & c & H).
  - intros xs Hxs. rewrite next6_loop_add.
    pose proof (add6_loop_spec xs (replicate (length xs) 0) 1) as H.
    destruct (add6_loop _ _ _). rewrite le_val_zeros in H.
    destruct H as (?&?&?&?); [by rewrite length_replicate|done|apply zeros_ok|by right|].
    repeat split; auto; lia.
  - exists l', c. destruct H as (?&?&?&?&?). repeat split; auto; lia.
Qed.

Lemma from_index_prev6 idx l :
  0 <= idx <= 15 -> length l = 16%nat -> bytes_ok l ->
  exists l' c, from_index prev6_loop idx l = Some (l', c) /\ bytes_ok l' /\ length l' = 16%nat /\
    is_bit c /\ be_val l - 2 ^ (8 * (15 - idx)) = be_val l' - 2 ^ 128 * c.
Proof.
  intros Hi Hl Hb. destruct (from_index_spec prev6_loop idx l (-1) Hi Hl Hb) as (l' & c & H).
  - intros xs Hxs. rewrite prev6_loop_sub.
    pose proof (sub6_loop_spec xs (replicate (length xs) 0) 1) as H.
    destruct (sub6_loop _ _ _). rewrite le_val_zeros in H.
    destruct H as (?&?&?&?); [by rewrite length_replicate|done|apply zeros_ok|by right|].
    repeat split; auto; lia.
  - exists l', c. destruct H as (?&?&?&?&?). repeat split; auto; lia.
Qed.

(** The index the code derives from a prefix length. *)
Lemma index_of_prefix p : 1 <= p <= 128 -> u8 ((p - 1) / 8) = (p - 1) / 8 /\ 0 <= (p - 1) / 8 <= 15.
Proof.
  intros. assert (0 <= (p - 1) / 8 <= 15) by (split; [apply Z.div_pos|apply Z.lt_succ_r, Z.div_lt_upper_bound]; lia).
  split; [|done]. apply wrap_small. lia.
Qed.

(** ** IPv6 arithmetic: splitting an address at a prefix length *)

(** Position of the byte a prefix length cuts, and the number of host bits in it. *)
Lemma host_bits6 p :
  1 <= p <= 128 ->
  u32 (128 - p) = 128 - p /\ exists i r, (i <= 15)%nat /\ 0 <= r < 8 /\
    128 - p = 8 * Z.of_nat i + r /\ (128 - p) / 8 = Z.of_nat i /\ (128 - p) mod 8 = r.
Proof.
  intros. split; [apply wrap_small; lia|].
  exists (Z.to_nat ((128 - p) / 8)), ((128 - p) mod 8).
  pose proof (Z.div_mod (128 - p) 8). pose proof (Z.mod_pos_bound (128 - p) 8).
  assert (0 <= (128 - p) / 8 <= 15) by lia. lia.
Qed.

(** A 16-byte address as the bytes above the cut, the cut byte and the bytes below. *)
Lemma split_at l i :
  length l = 16%nat -> (i <= 15)%nat ->
  l = take (15 - i) l ++ nth (15 - i) l 0 :: drop (16 - i) l.
Proof.
  intros Hl Hi. rewrite <- (take_drop (15 - i) l) at 1. f_equal.
  assert (Hlt : (15 - i < length l)%nat) by lia.
  replace (16 - i)%nat with (S (15 - i)) by lia.
  apply lookup_lt_is_Some_2 in Hlt as [x Hx].
  rewrite (drop_S _ _ _ Hx). f_equal. symmetry. by apply nth_lookup_Some.
Qed.

Lemma be_val_split h b t :
  be_val (h ++ b :: t) = 256 ^ Z.of_nat (length t) * (256 * be_val h + b) + be_val t.
Proof. rewrite be_val_app, be_val_cons. cbn [length]. rewrite pow256. lia. Qed.

(** Dividing by the weight of the low bytes and of [r] more bits. *)
Lemma div_split h b t n r :
  0 <= n -> 0 <= r < 8 -> 0 <= t < 256 ^ n ->
  (256 ^ n * (256 * h + b) + t) / 2 ^ (8 * n + r) = 2 ^ (8 - r) * h + b / 2 ^ r.
Proof.
  intros Hn Hr Ht. assert (0 < 256 ^ n) by lia.
  rewrite Z.pow_add_r by lia. rewrite Z.pow_mul_r by lia. change (2 ^ 8) with 256.
  rewrite <- Z.div_div by lia.
  rewrite (Z.mul_comm (256 ^ n)), Z.div_add_l, (Z.div_small t), Z.add_0_r by lia.
  assert (2 ^ (8 - r) * 2 ^ r = 256) as E
    by (rewrite <- Z.pow_add_r by lia; by replace (8 - r + r) with 8 by lia).
  replace (256 * h + b) with (b + 2 ^ (8 - r) * h * 2 ^ r) by (rewrite <- E; ring).
  rewrite Z.div_add by lia. lia.
Qed.

Lemma mod_split h b t n r :
  0 <= n -> 0 <= r < 8 -> 0 <= t < 256 ^ n ->
  256 ^ n * (256 * h + b) + t - (256 ^ n * (256 * h + b) + t) mod 2 ^ (8 * n + r)
  = 256 ^ n * (256 * h + (b - b mod 2 ^ r)).
Proof.
  intros Hn Hr Ht.
  assert (E1 : forall x k, 0 <= k -> x - x mod 2 ^ k = 2 ^ k * (x / 2 ^ k))
    by (intros x k Hk; pose proof (Z.div_mod x (2 ^ k)); lia).
  rewrite !E1, div_split by lia.
  rewrite Z.pow_add_r, Z.pow_mul_r by lia. change (2 ^ 8) with 256.
  replace (256 * h) with (2 ^ r * 2 ^ (8 - r) * h); [ring|].
  rewrite <- Z.pow_add_r by lia. replace (r + (8 - r)) with 8 by lia. done.
Qed.

(** The top byte: equal quotients mean equal high parts. *)
Lemma quotient_split h1 b1 h2 b2 r :
  0 <= r < 8 -> is_byte b1 -> is_byte b2 ->
  (2 ^ (8 - r) * h1 + b1 / 2 ^ r = 2 ^ (8 - r) * h2 + b2 / 2 ^ r
   <-> h1 = h2 /\ b1 / 2 ^ r = b2 / 2 ^ r).
Proof.
  intros Hr Hb1 Hb2. unfold is_byte in *.
  assert (Hq : forall b, 0 <= b < 256 -> 0 <= b / 2 ^ r < 2 ^ (8 - r)).
  { intros b Hb. split; [apply Z.div_pos; lia|]. apply Z.div_lt_upper_bound; [lia|].
    rewrite <- Z.pow_add_r by lia. replace (r + (8 - r)) with 8 by lia. lia. }
  pose proof (Hq b1 Hb1). pose proof (Hq b2 Hb2). split; [|intros [-> ->]; done].
  intros E. assert (h1 = h2) by nia. subst. split; [done|lia].
Qed.

Lemma be_val_inj l1 l2 :
  bytes_ok l1 -> bytes_ok l2 -> length l1 = length l2 -> be_val l1 = be_val l2 -> l1 = l2.
Proof.
  intros H1 H2 Hl E. transitivity (be_bytes (length l1) (be_val l1)).
  - symmetry. by apply be_bytes_val.
  - rewrite Hl, E. by apply be_bytes_val.
Qed.

Lemma nth_byte l n : bytes_ok l -> is_byte (nth n l 0).
Proof.
  intros H. destruct (nth_in_or_default n l 0) as [Hin| ->]; [|unfold is_byte; lia].
  rewrite List.Forall_forall in H. by apply H.
Qed.
