(* ===== verification/CidrProofs.v ===== *)
(** * IP address calculator: the correctness of the address operations

    Each operation of owipcalc.c against its arithmetic meaning on the 32-bit or
    128-bit address, on both byte orders where the result does not depend on the
    byte order, and with the exact result where it does. *)

From Stdlib Require Import ZArith Lia String Ascii.
From stdpp Require Import base list strings numbers option.
From S2P Require Import Prelude Bits CString Cidr CidrFacts.

(** Concrete values for the witnesses. *)
Definition ex_world (c : cidr) : world := World [c] false false "" [] [].
Definition ex4 (a b c d p : Z) : cidr := Cidr AF_INET p ([a; b; c; d] ++ replicate 12 0).
Definition ex6 (l : list Z) (p : Z) : cidr := Cidr AF_INET6 p (l ++ replicate (16 - length l) 0).

Ltac check_wf :=
  constructor; [reflexivity| |cbv; intuition congruence];
  repeat (apply List.Forall_cons; [cbv; intuition congruence|]); apply List.Forall_nil.

(** ** IPv4 *)

Lemma cidr_add4_spec e a b st w :
  stack w = a :: st -> can_malloc w -> wf a -> family a = AF_INET -> family b = AF_INET ->
  0 <= v4 e b < 2 ^ 32 ->
  (v4 e a + v4 e b < 2 ^ 32 ->
     exists n, cidr_add4 e b w = Ret true (pushed w n) /\
       v4 e n = v4 e a + v4 e b /\ prefix n = prefix a /\ family n = AF_INET) /\
  (2 ^ 32 <= v4 e a + v4 e b ->
     cidr_add4 e b w = Ret false (warned (pushed w a) "overflow during 'add'")).
Proof.
  intros Hst Hm Hwf Ha Hb Hvb. pose proof (v4_range e a Hwf).
  unfold cidr_add4. start_op. rewrite Ha, Hb. cbn -[set_s_addr htonl u32].
  fold (v4 e a) (v4 e b). unfold wrap.
  destruct (Z.lt_ge_cases (v4 e a + v4 e b) (2 ^ 32)).
  - rewrite Z.mod_small by lia. destruct (Z.ltb_spec (v4 e a + v4 e b) (v4 e a)); [lia|].
    split; [|lia]. intros _. eexists. split; [reflexivity|].
    rewrite v4_set_htonl by (done || lia). done.
  - rewrite <- (Z.mod_add _ (-1)), Z.mod_small by lia.
    destruct (Z.ltb_spec (v4 e a + v4 e b + -1 * 2 ^ 32) (v4 e a)); [|lia].
    split; [lia|done].
Qed.

(** [cidr_add4] adds the two 32-bit addresses on either byte order; when the
    sum does not fit it fails with a message and leaves a plain copy of the base
    address on the stack. *)
Theorem cidr_add4_correct e a b st w :
  stack w = a :: st -> can_malloc w -> wf a -> wf b -> family a = AF_INET -> family b = AF_INET ->
  (v4 e a + v4 e b < 2 ^ 32 ->
     exists n, cidr_add4 e b w = Ret true (pushed w n) /\
       v4 e n = v4 e a + v4 e b /\ prefix n = prefix a /\ family n = AF_INET) /\
  (2 ^ 32 <= v4 e a + v4 e b ->
     cidr_add4 e b w = Ret false (warned (pushed w a) "overflow during 'add'")).
Proof. intros. eapply cidr_add4_spec; eauto using v4_range. Qed.

Lemma cidr_add4_correct_witness :
  exists n, cidr_add4 LE (ex4 0 0 1 0 32) (ex_world (ex4 10 0 0 255 24))
            = Ret true (pushed (ex_world (ex4 10 0 0 255 24)) n) /\ v4 LE n = 0x0A0001FF.
Proof.
  destruct (cidr_add4_correct LE (ex4 10 0 0 255 24) (ex4 0 0 1 0 32) []
    (ex_world (ex4 10 0 0 255 24))) as [H _]; [done|done|check_wf|check_wf|done|done|].
  destruct H as (n & Hn & Hv & _); [vm_compute; reflexivity|].
  exists n. split; [exact Hn|]. rewrite Hv. vm_compute. reflexivity.
Defined.

(** Running an IPv4 mask operation with a prefix of 2 to 32. *)
Ltac mask_op :=
  start_op; rewrite hostmask4_ok by done; cbn -[set_s_addr htonl wrap Z.land Z.lor Z.pow];
  eexists; split; [reflexivity|].

(** For prefixes 2 to 32, [network] clears the host bits, [broadcast] sets
    them, [netmask] is the mask itself, each as a [/32], on either byte order. *)
Theorem cidr_mask_ops_correct e a st w :
  stack w = a :: st -> can_malloc w -> wf a -> 2 <= prefix a <= 32 ->
  let host := 2 ^ (32 - prefix a) in
  (exists n, cidr_network4 e w = Ret true (pushed w n) /\
     v4 e n = v4 e a - v4 e a mod host /\ prefix n = 32) /\
  (exists n, cidr_broadcast4 e w = Ret true (pushed w n) /\
     v4 e n = v4 e a - v4 e a mod host + (host - 1) /\ prefix n = 32) /\
  (exists n, cidr_netmask4 e w = Ret true (pushed w n) /\
     v4 e n = 2 ^ 32 - host /\ prefix n = 32).
Proof.
  intros Hst Hm Hwf Hp. cbv zeta. set (k := 32 - prefix a).
  assert (Hk : 0 <= k <= 30) by lia.
  pose proof (v4_range e a Hwf) as Hv.
  assert (Hpow : 2 ^ k < 2 ^ 32) by (apply Z.pow_lt_mono_r; lia).
  assert (H0 : 0 < 2 ^ k) by lia.
  split; [|split].
  - unfold cidr_network4. mask_op. split; [|done].
    rewrite v4_with_prefix, v4_set; try done.
    + rewrite (ntohl_s_addr_op _ _ _ (f:=Z.land)) by auto using netmask4_range with lia.
      apply land_netmask4; lia.
    + apply (bitwise_range (f:=Z.land) 32); [lia|by apply s_addr_range|apply htonl_range].
  - unfold cidr_broadcast4. mask_op. split; [|done].
    rewrite v4_with_prefix, v4_set; try done.
    + fold k. rewrite (wrap_small 32 (2 ^ k - 1)) by lia.
      rewrite (ntohl_s_addr_op _ _ _ (f:=Z.lor)) by (done || lia). apply lor_low_mask; lia.
    + apply (bitwise_range (f:=Z.lor) 32); [lia|by apply s_addr_range|apply htonl_range].
  - unfold cidr_netmask4. mask_op. split; [|done].
    rewrite v4_with_prefix, v4_set_htonl; [|done|apply wrap_range; lia].
    fold k. unfold wrap. unfold Z.lnot.
    rewrite <- (Z.mod_add _ 1), Z.mod_small by lia. lia.
Qed.

Lemma cidr_mask_ops_correct_witness :
  exists n, cidr_network4 BE (ex_world (ex4 192 168 77 9 20))
            = Ret true (pushed (ex_world (ex4 192 168 77 9 20)) n) /\ v4 BE n = 0xC0A84000.
Proof.
  destruct (cidr_mask_ops_correct BE (ex4 192 168 77 9 20) [] (ex_world (ex4 192 168 77 9 20)))
    as [(n & Hn & Hv & _) _]; [done|done|check_wf|cbv; intuition congruence|].
  exists n. split; [exact Hn|]. rewrite Hv. vm_compute. reflexivity.
Defined.

(** For the prefixes 0 and 1 and for every prefix above 32, [network],
    [broadcast], [netmask] and [contains] shift or subtract out of the range of
    [int]: the code has no defined result. *)
Theorem cidr_mask_ops_undefined e a b st w :
  stack w = a :: st -> can_malloc w -> wf a -> prefix a < 2 \/ 32 < prefix a ->
  cidr_network4 e w = Undef /\ cidr_broadcast4 e w = Undef /\
  cidr_netmask4 e w = Undef /\ cidr_contains4 e b w = Undef.
Proof.
  intros Hst Hm Hwf Hp.
  pose proof (hostmask4_undefined (prefix a) (wf_prefix a Hwf) Hp) as Hnone.
  unfold cidr_network4, cidr_broadcast4, cidr_netmask4, cidr_contains4, contains4_test.
  repeat split; start_op; by rewrite Hnone.
Qed.

Lemma cidr_mask_ops_undefined_witness :
  cidr_network4 LE (ex_world (ex4 10 0 0 1 0)) = Undef.
Proof.
  apply (cidr_mask_ops_undefined LE (ex4 10 0 0 1 0) (ex4 10 0 0 1 0) []
           (ex_world (ex4 10 0 0 1 0))); [done|done|check_wf|left; cbv; done].
Defined.

(** [cidr_contains4] answers whether the argument is an equal or longer
    prefix whose address lies between the network and the broadcast address of
    the base prefix (prefixes 2 to 32), on either byte order. *)
Theorem cidr_contains4_correct e a b st w :
  stack w = a :: st -> wf a -> wf b -> 2 <= prefix a <= 32 ->
  exists r, cidr_contains4 e b w = answer r w /\
    (r = true <->
     prefix a <= prefix b /\
     v4 e a - v4 e a mod 2 ^ (32 - prefix a) <= v4 e b
       <= v4 e a - v4 e a mod 2 ^ (32 - prefix a) + (2 ^ (32 - prefix a) - 1)).
Proof.
  intros Hst Hwa Hwb Hp. set (k := 32 - prefix a).
  assert (Hk : 0 <= k <= 30) by lia.
  unfold cidr_contains4, contains4_test. start_op. rewrite hostmask4_ok by done.
  cbn -[htonl wrap Z.land Z.pow Z.eqb Z.leb answer]. fold k.
  eexists. split; [reflexivity|].
  destruct (Z.eqb_spec (prefix a) 0); [lia|]. rewrite orb_false_l, andb_true_iff.
  rewrite Z.leb_le, Z.eqb_eq, <- in_block by lia. apply and_iff_compat_l.
  rewrite <- clear_low_eq by lia.
  pose proof (v4_range e a Hwa). pose proof (v4_range e b Hwb).
  rewrite <- !(land_netmask4 _ k) by lia.
  rewrite <- !(ntohl_s_addr_op _ _ _ (f:=Z.land)) by auto using netmask4_range with lia.
  split; [congruence|]. intros E. eapply ntohl_inj, E.
  all: apply (bitwise_range (f:=Z.land) 32); [lia|by apply s_addr_range|apply htonl_range].
Qed.

Lemma cidr_contains4_correct_witness :
  cidr_contains4 LE (ex4 10 1 2 3 32) (ex_world (ex4 10 0 0 0 8))
  = answer true (ex_world (ex4 10 0 0 0 8)).
Proof.
  destruct (cidr_contains4_correct LE (ex4 10 0 0 0 8) (ex4 10 1 2 3 32) []
    (ex_world (ex4 10 0 0 0 8))) as ([|] & Hr & Hiff);
    [done|check_wf|check_wf|cbv; intuition congruence|exact Hr|].
  exfalso. assert (false = true) as E; [apply Hiff; vm_compute; intuition congruence|congruence].
Defined.

Lemma next4_run e a b st w d :
  stack w = a :: st -> can_malloc w -> wf a -> 1 <= prefix b <= 32 -> 0 <= d < 2 ^ 32 ->
  int_shl 1 (u32 (32 - prefix b)) = Some d \/ int_shl 1 (u32 (32 - prefix b)) = Some (d - 2 ^ 32) ->
  exists n, cidr_next4 e b w = Ret true (pushed w n) /\ prefix n = prefix b /\
    v4 e n = ntohl e ((s_addr e a + htonl e d) mod 2 ^ 32).
Proof.
  intros Hst Hm Hwf Hp Hd Hs. unfold cidr_next4. start_op.
  assert (Hu : exists x, int_shl 1 (u32 (32 - prefix b)) = Some x /\ u32 x = d).
  { destruct Hs as [-> | ->]; eexists; split; try done; [by apply wrap_small|].
    unfold wrap. rewrite <- (Z.mod_add _ 1), Z.mod_small; lia. }
  destruct Hu as (x & -> & Hx). cbn -[set_s_addr htonl wrap].
  eexists. split; [reflexivity|]. split; [done|].

  rewrite Hx. rewrite v4_set; [done|by apply wf_with_prefix; [|lia]|].
  apply wrap_range. lia.
Qed.

Lemma int_shl_prefix p :
  1 <= p <= 32 ->
  int_shl 1 (u32 (32 - p)) = Some (2 ^ (32 - p)) \/
  int_shl 1 (u32 (32 - p)) = Some (2 ^ (32 - p) - 2 ^ 32).
Proof.
  intros Hp. assert (exists n, p = Z.of_nat n /\ (1 <= n <= 32)%nat) as (n & -> & Hn)
    by (exists (Z.to_nat p); lia).
  do 33 (destruct n as [|n]; [try lia; (left; reflexivity) || (right; reflexivity)|]). lia.
Qed.

Lemma next4_big_endian a b st w :
  stack w = a :: st -> can_malloc w -> wf a -> 1 <= prefix b <= 32 ->
  exists n, cidr_next4 BE b w = Ret true (pushed w n) /\ prefix n = prefix b /\
    v4 BE n = (v4 BE a + 2 ^ (32 - prefix b)) mod 2 ^ 32.
Proof.
  intros Hst Hm Hwf Hp.
  assert (0 <= 2 ^ (32 - prefix b) < 2 ^ 32)
    by (split; [lia|apply Z.pow_lt_mono_r; lia]).
  destruct (next4_run BE a b st w (2 ^ (32 - prefix b))) as (n & Hn & Hpn & Hv);
    auto using int_shl_prefix.
  exists n. split; [done|]. split; [done|]. rewrite Hv.
  assert (HBE : forall x, 0 <= x < 2 ^ 32 -> ntohl BE x = x).
  { intros x Hx. unfold ntohl. cbn [store]. rewrite be_val_bytes. by apply Z.mod_small. }
  assert (HH : forall x, 0 <= x < 2 ^ 32 -> htonl BE x = x).
  { intros x Hx. unfold htonl. cbn [load]. rewrite be_val_bytes. by apply Z.mod_small. }
  unfold v4. rewrite (HBE (s_addr BE a)) by by apply s_addr_range.
  rewrite HBE, HH; [done|done|apply Z.mod_pos_bound; lia].
Qed.

(** Adding to the most significant byte of a little-endian word. *)
Lemma le_add_top l d :
  bytes_ok l -> length l = 4%nat -> 0 <= d < 256 ->
  ntohl LE ((le_val l + htonl LE d) mod 2 ^ 32)
  = be_val l - be_val l mod 256 + (be_val l + d) mod 256.
Proof.
  intros Hb Hl Hd. destruct l as [|b0 [|b1 [|b2 [|b3 [|]]]]]; try done.
  inversion Hb as [|? ? H0 Hb1]; subst. inversion Hb1 as [|? ? H1 Hb2]; subst.
  inversion Hb2 as [|? ? H2 Hb3]; subst. inversion Hb3 as [|? ? H3 _]; subst.
  unfold is_byte in *.
  assert (Hh : htonl LE d = 16777216 * d).
  { unfold htonl, be_bytes. cbn [load le_bytes].
    rewrite (Z.mod_small d), (Z.div_small d) by lia.
    repeat change (0 / 256) with 0. change (0 mod 256) with 0. cbn. lia. }
  assert (Hv : be_val [b0; b1; b2; b3] = 256 * (65536 * b0 + 256 * b1 + b2) + b3)
    by (unfold be_val; cbn; lia).
  rewrite Hh, Hv. cbn [le_val].
  set (x := 65536 * b0 + 256 * b1 + b2).
  replace (256 * x + b3 + d) with (256 * x + (b3 + d)) by lia.
  rewrite !mod_mul_add, (Z.mod_small b3) by lia.
  set (c := (b3 + d) mod 256).
  assert (0 <= c < 256) by (apply Z.mod_pos_bound; lia).
  replace ((b0 + 256 * (b1 + 256 * (b2 + 256 * (b3 + 256 * 0))) + 16777216 * d) mod 2 ^ 32)
    with (le_val [b0; b1; b2; c]).
  - change (le_val [b0; b1; b2; c]) with (load LE [b0; b1; b2; c]).
    rewrite ntohl_load; [unfold be_val; cbn; lia| |done].
    repeat constructor; unfold is_byte; lia.
  - pose proof (Z.div_mod (b3 + d) 256 ltac:(lia)) as Hdm. fold c in Hdm. cbn. apply (Z.mod_unique _ _ ((b3 + d) / 256)); [left; lia|lia].
Qed.

Lemma next4_little_endian a b st w :
  stack w = a :: st -> can_malloc w -> wf a -> 25 <= prefix b <= 32 ->
  exists n, cidr_next4 LE b w = Ret true (pushed w n) /\ prefix n = prefix b /\
    v4 LE n = v4 LE a - v4 LE a mod 256 + (v4 LE a + 2 ^ (32 - prefix b)) mod 256.
Proof.
  intros Hst Hm Hwf Hp. destruct (take4_ok a Hwf) as [Hb Hl].
  assert (Hd : 0 <= 2 ^ (32 - prefix b) < 2 ^ 8)
    by (split; [lia|apply Z.pow_lt_mono_r; lia]).
  destruct (next4_run LE a b st w (2 ^ (32 - prefix b))) as (n & Hn & Hpn & Hv);
    [done|done|done|lia|lia|apply int_shl_prefix; lia|].
  exists n. split; [done|]. split; [done|]. rewrite Hv.
  unfold v4, s_addr. rewrite ntohl_load by done. cbn [load]. apply le_add_top; auto.
Qed.

(** On a big-endian host [cidr_next4] advances the address by the size of
    the given prefix, modulo 2^32 and without reporting the overflow. On a
    little-endian host a prefix of 25 to 32 only ever changes the last octet: the
    addition wraps inside it, so advancing past the end of a /24 goes backwards
    instead of to the next /24. *)
Theorem cidr_next4_exact a b st w :
  stack w = a :: st -> can_malloc w -> wf a ->
  (1 <= prefix b <= 32 ->
   exists n, cidr_next4 BE b w = Ret true (pushed w n) /\ prefix n = prefix b /\
     v4 BE n = (v4 BE a + 2 ^ (32 - prefix b)) mod 2 ^ 32) /\
  (25 <= prefix b <= 32 ->
   exists n, cidr_next4 LE b w = Ret true (pushed w n) /\ prefix n = prefix b /\
     v4 LE n = v4 LE a - v4 LE a mod 256 + (v4 LE a + 2 ^ (32 - prefix b)) mod 256).
Proof.
  intros Hst Hm Hwf. split; intros Hp.
  - by apply (next4_big_endian a b st).
  - by apply (next4_little_endian a b st).
Qed.

Lemma cidr_next4_exact_witness :
  exists n, cidr_next4 LE (ex4 0 0 0 0 32) (ex_world (ex4 10 0 0 255 24))
            = Ret true (pushed (ex_world (ex4 10 0 0 255 24)) n) /\ v4 LE n = 0x0A000000.
Proof.
  destruct (cidr_next4_exact (ex4 10 0 0 255 24) (ex4 0 0 0 0 32) []
    (ex_world (ex4 10 0 0 255 24))) as [_ Hle]; [done|done|check_wf|].
  destruct Hle as (n & Hn & _ & Hv); [cbv; intuition congruence|].
  exists n. split; [exact Hn|]. rewrite Hv. vm_compute. reflexivity.
Defined.

(** ** IPv6 *)

Lemma reverse_be l : le_val (reverse l) = be_val l.
Proof. done. Qed.

Lemma be_reverse l : be_val (reverse l) = le_val l.
Proof. unfold be_val. by rewrite reverse_involutive. Qed.

(** The structure the byte loops leave on the stack. *)
Lemma wf_loop_result r a :
  wf a -> bytes_ok r -> length r = 16%nat ->
  wf (with_addr (reverse r) a) /\ v6 (with_addr (reverse r) a) = le_val r.
Proof.
  intros [_ _ Hp] Hr Hl. split; [|apply be_reverse].
  constructor; cbn; [by rewrite length_reverse|by apply Forall_reverse|done].
Qed.

(** Reading off the result and the carry from the equation of a loop. *)
Lemma carry_out x r c m : 0 <= r < m -> is_bit c -> 0 <= x -> x = r + m * c ->
  r = x mod m /\ negb (c =? 0) = negb (x <? m).
Proof.
  intros Hr [-> | ->] Hx ->; [rewrite Z.mul_0_r, Z.add_0_r, Z.mod_small by lia|].
  - case_bool; simpl; split; lia || done.
  - rewrite Z.mul_1_r, <- (Z.mod_add _ (-1)), Z.mod_small by lia.
    case_bool; simpl; split; lia || done.
Qed.

Lemma borrow_out x r c m : 0 <= r < m -> is_bit c -> x < m -> x = r - m * c ->
  r = x mod m /\ negb (c =? 0) = (x <? 0).
Proof.
  intros Hr [-> | ->] Hx ->; [rewrite Z.mul_0_r, Z.sub_0_r, Z.mod_small by lia|].
  - case_bool; simpl; split; lia || done.
  - rewrite Z.mul_1_r, <- (Z.mod_add _ 1), Z.mod_small by lia.
    case_bool; simpl; split; lia || done.
Qed.

(** C36. [cidr_add6] and [cidr_sub6] are addition and subtraction of 128-bit
    numbers: the byte loop leaves the exact result modulo 2^128 on the stack,
    and the return value says whether it is the exact result. *)
Theorem cidr_add6_sub6_correct a b st w :
  stack w = a :: st -> can_malloc w -> wf a -> wf b -> family a = AF_INET6 -> family b = AF_INET6 ->
  (exists n w', cidr_add6 b w = Ret (v6 a + v6 b <? 2 ^ 128) w' /\ stack w' = n :: a :: st /\
     v6 n = (v6 a + v6 b) mod 2 ^ 128 /\ prefix n = prefix a /\ wf n) /\
  (exists n w', cidr_sub6 b w = Ret (v6 b <=? v6 a) w' /\ stack w' = n :: a :: st /\
     v6 n = (v6 a - v6 b) mod 2 ^ 128 /\ prefix n = prefix a /\ wf n).
Proof.
  intros Hst Hm Hwa Hwb Ha Hb. pose proof Hwa as [Hla Hba _]. pose proof Hwb as [Hlb Hbb _].
  assert (Hlen : length (reverse (addr a)) = length (reverse (addr b)))
    by (rewrite !length_reverse; lia).
  pose proof (proj2 (Forall_reverse _ _) Hba) as Hra.
  pose proof (proj2 (Forall_reverse _ _) Hbb) as Hrb.
  pose proof (be_val_range _ Hba) as Hva. pose proof (be_val_range _ Hbb) as Hvb.
  rewrite Hla in Hva. rewrite Hlb in Hvb. unfold be_val in Hva, Hvb.
  change (256 ^ Z.of_nat 16) with (2 ^ 128) in *.
  split.
  - pose proof (add6_loop_spec _ _ 0 Hlen Hra Hrb ltac:(by left)) as H.
    unfold cidr_add6. start_op. rewrite Ha, Hb. cbn -[add6_loop reverse].
    destruct (add6_loop _ _ _) as [r c]. destruct H as (Hr & Hlr & Hc & Heq).
    rewrite length_reverse, Hla in *.
    pose proof (le_val_range r Hr) as Hrange. rewrite Hlr in Hrange.
    destruct (wf_loop_result r a Hwa Hr Hlr) as [Hwf Hv].
    destruct (carry_out (v6 a + v6 b) _ _ _ Hrange Hc) as [Hres Hneg];
      [unfold v6, be_val; lia..|]. rewrite Hres in Hv.
    exists (with_addr (reverse r) a). rewrite Hneg.
    change (256 ^ Z.of_nat 16) with (2 ^ 128). destruct (v6 a + v6 b <? 2 ^ 128); cbn.
    all: eexists; split; [reflexivity|]; split; [by cbn; rewrite Hst|]; auto.
  - pose proof (sub6_loop_spec _ _ 0 Hlen Hra Hrb ltac:(by left)) as H.
    unfold cidr_sub6. start_op. rewrite Ha, Hb. cbn -[sub6_loop reverse].
    destruct (sub6_loop _ _ _) as [r c]. destruct H as (Hr & Hlr & Hc & Heq).
    rewrite length_reverse, Hla in *.
    pose proof (le_val_range r Hr) as Hrange. rewrite Hlr in Hrange.
    destruct (wf_loop_result r a Hwa Hr Hlr) as [Hwf Hv].
    destruct (borrow_out (v6 a - v6 b) _ _ _ Hrange Hc) as [Hres Hneg];
      [unfold v6, be_val; lia..|]. rewrite Hres in Hv.
    exists (with_addr (reverse r) a). rewrite Hneg.
    replace (v6 b <=? v6 a) with (negb (v6 a - v6 b <? 0)) by (case_bool; simpl; lia || done).
    destruct (v6 a - v6 b <? 0); cbn.
    all: eexists; split; [reflexivity|]; split; [by cbn; rewrite Hst|]; auto.
Qed.

Lemma cidr_add6_sub6_correct_witness :
  exists n w', cidr_add6 (ex6 (replicate 15 0 ++ [1]) 128) (ex_world (ex6 (replicate 16 255) 128))
               = Ret false w' /\ stack w' = [n; ex6 (replicate 16 255) 128] /\ v6 n = 0.
Proof.
  destruct (cidr_add6_sub6_correct (ex6 (replicate 16 255) 128) (ex6 (replicate 15 0 ++ [1]) 128) []
    (ex_world (ex6 (replicate 16 255) 128))) as [(n & w' & Hn & Hst & Hv & _) _];
    [done|done|check_wf|check_wf|done|done|].
  exists n, w'. split; [exact Hn|]. split; [exact Hst|]. rewrite Hv. vm_compute. reflexivity.
Defined.

(** [cidr_next6] and [cidr_prev6] add and subtract the weight of the byte
    that holds the last prefix bit, 2^(8 * (15 - (p - 1) / 8)), and fail exactly
    when that leaves the 128-bit range. *)
Theorem cidr_next6_prev6_exact a b st w :
  stack w = a :: st -> can_malloc w -> wf a -> 1 <= prefix b <= 128 ->
  let step := 2 ^ (8 * (15 - (prefix b - 1) / 8)) in
  (exists n w', cidr_next6 b w = Ret (v6 a + step <? 2 ^ 128) w' /\ stack w' = n :: a :: st /\
     v6 n = (v6 a + step) mod 2 ^ 128) /\
  (exists n w', cidr_prev6 b w = Ret (step <=? v6 a) w' /\ stack w' = n :: a :: st /\
     v6 n = (v6 a - step) mod 2 ^ 128).
Proof.
  intros Hst Hm Hwa Hp. cbv zeta. pose proof Hwa as [Hla Hba _].
  destruct (index_of_prefix (prefix b) Hp) as [Hu Hi].
  set (step := 2 ^ (8 * (15 - (prefix b - 1) / 8))).
  assert (Hs : 0 < step <= 2 ^ 120)
    by (split; [lia|apply Z.pow_le_mono_r; lia]).
  pose proof (be_val_range _ Hba) as Hva. rewrite Hla in Hva.
  change (256 ^ Z.of_nat 16) with (2 ^ 128) in Hva.
  split.
  - destruct (from_index_next6 _ _ Hi Hla Hba) as (l' & c & Hfi & Hb' & Hl' & Hc & Heq).
    unfold cidr_next6. start_op.
    destruct (Z.eqb_spec (prefix b) 0); [lia|]. rewrite Hu, Hfi. cbn -[Z.eqb Z.ltb].
    pose proof (be_val_range _ Hb') as Hr. rewrite Hl' in Hr.
    change (256 ^ Z.of_nat 16) with (2 ^ 128) in Hr. fold step in Heq.
    destruct (carry_out (v6 a + step) _ _ _ Hr Hc) as [Hres Hneg]; [unfold v6; lia..|].
    rewrite Hneg. destruct (v6 a + step <? 2 ^ 128); cbn; do 2 eexists.
    all: (split; [reflexivity|]; split; [by cbn; rewrite Hst|]; exact Hres).
  - destruct (from_index_prev6 _ _ Hi Hla Hba) as (l' & c & Hfi & Hb' & Hl' & Hc & Heq).
    unfold cidr_prev6. start_op.
    destruct (Z.eqb_spec (prefix b) 0); [lia|]. rewrite Hu, Hfi. cbn -[Z.eqb Z.ltb].
    pose proof (be_val_range _ Hb') as Hr. rewrite Hl' in Hr.
    change (256 ^ Z.of_nat 16) with (2 ^ 128) in Hr. fold step in Heq.
    destruct (borrow_out (v6 a - step) _ _ _ Hr Hc) as [Hres Hneg]; [unfold v6; lia..|].
    replace (step <=? v6 a) with (negb (v6 a - step <? 0)) by (case_bool; simpl; lia || done).
    rewrite Hneg. destruct (v6 a - step <? 0); cbn; do 2 eexists.
    all: (split; [reflexivity|]; split; [by cbn; rewrite Hst|]; exact Hres).
Qed.

(** The step of a prefix length that is a multiple of 8 is the prefix size; the
    next /60 is 16 prefixes too far. *)
Lemma cidr_next6_prev6_exact_witness :
  exists n w', cidr_next6 (ex6 [] 60) (ex_world (ex6 [0x20; 1; 0xd; 0xb8; 0; 0; 0; 0] 60)) = Ret true w' /\
    stack w' = [n; ex6 [0x20; 1; 0xd; 0xb8; 0; 0; 0; 0] 60] /\
    v6 n = v6 (ex6 [0x20; 1; 0xd; 0xb8; 0; 0; 0; 1] 60).
Proof.
  destruct (cidr_next6_prev6_exact (ex6 [0x20; 1; 0xd; 0xb8; 0; 0; 0; 0] 60) (ex6 [] 60) []
    (ex_world (ex6 [0x20; 1; 0xd; 0xb8; 0; 0; 0; 0] 60))) as [(n & w' & Hn & Hst & Hv) _];
    [done|done|check_wf|cbv; intuition congruence|].
  exists n, w'. split; [exact Hn|]. split; [exact Hst|]. rewrite Hv. vm_compute. reflexivity.
Defined.

(** Masking a byte. *)
Lemma mask_byte x r :
  is_byte x -> 0 <= r < 8 -> Z.land x (u8 (Z.lnot (2 ^ r - 1))) = x - x mod 2 ^ r.
Proof. intros. apply land_high_mask; [lia|done]. Qed.

Lemma mask_byte' x r :
  is_byte x -> 0 <= r < 8 -> u8 (Z.land x (Z.lnot (2 ^ r - 1))) = x - x mod 2 ^ r.
Proof.
  intros Hx Hr. rewrite <- mask_byte by done. unfold wrap.
  rewrite <- !(Z.land_ones _ 8) by lia. by rewrite Z.land_assoc.
Qed.

(** [network6_bytes] on an address that is cut at a byte. *)
Lemma network6_bytes_spec p l :
  0 <= p <= 128 -> length l = 16%nat -> bytes_ok l ->
  exists l', network6_bytes p l = Some l' /\ be_val l' = be_val l - be_val l mod 2 ^ (128 - p).
Proof.
  intros Hp Hl Hb. pose proof (be_val_range l Hb) as Hv. rewrite Hl in Hv.
  change (256 ^ Z.of_nat 16) with (2 ^ 128) in Hv. unfold network6_bytes.
  assert (p = 0 \/ 1 <= p) as [-> |Hp1] by lia.
  { exists (replicate 16 0). split; [reflexivity|].
    rewrite be_val_zeros. change (128 - 0) with 128. rewrite Z.mod_small; lia. }
  destruct (host_bits6 p ltac:(lia)) as [-> (i & r & Hi & Hr & Hk & Hdiv & Hmod)].
  rewrite Hdiv, Hmod, Nat2Z.id. destruct (Z.ltb_spec 128 (128 - p)); [lia|].
  set (h := take (15 - i) l). set (b := nth (15 - i) l 0). set (t := drop (16 - i) l).
  assert (Hsplit : l = h ++ b :: t) by by apply split_at.
  assert (Hlh : length h = (15 - i)%nat) by (unfold h; rewrite length_take; lia).
  assert (Hlt : length t = i) by (unfold t; rewrite length_drop; lia).
  assert (Hbb : is_byte b) by by apply nth_byte.
  assert (Ht : 0 <= be_val t < 256 ^ Z.of_nat i)
    by (rewrite <- Hlt; apply be_val_range, Forall_drop, Hb).
  assert (take (16 - i) l = h ++ [b]) as ->.
  { rewrite Hsplit at 1. replace (16 - i)%nat with (length (h ++ [b])) by (rewrite length_app; cbn; lia).
    change (b :: t) with ([b] ++ t). rewrite app_assoc. apply take_app_length. }
  assert (be_val l = 256 ^ Z.of_nat i * (256 * be_val h + b) + be_val t) as ->
    by (rewrite Hsplit at 1; rewrite be_val_split, Hlt; done).
  rewrite Hk, mod_split by lia.
  rewrite <- app_assoc. cbn [app].
  destruct (Z.eqb_spec r 0) as [-> |Hr0]; eexists; (split; [reflexivity|]).
  - rewrite be_val_split, length_replicate, be_val_zeros. rewrite Z.mod_1_r. lia.
  - rewrite alter_app_r_alt by lia. rewrite Hlh, Nat.sub_diag. cbn [alter list_alter].
    rewrite be_val_split, length_replicate, be_val_zeros, mask_byte' by done. lia.
Qed.

(** For prefixes 0 to 128, [cidr_network6] clears exactly the host bits of
    the 128-bit address and keeps the prefix length. *)
Theorem cidr_network6_correct a st w :
  stack w = a :: st -> can_malloc w -> wf a -> prefix a <= 128 ->
  exists n, cidr_network6 w = Ret true (pushed w n) /\
    v6 n = v6 a - v6 a mod 2 ^ (128 - prefix a) /\ prefix n = prefix a /\ family n = family a.
Proof.
  intros Hst Hm [Hl Hb Hp] Hp128.
  destruct (network6_bytes_spec (prefix a) (addr a)) as (l' & Hl' & Hv); [lia|done|done|].
  unfold cidr_network6. start_op. rewrite Hl'. cbn.
  eexists. split; [reflexivity|]. done.
Qed.

Lemma cidr_network6_correct_witness :
  exists n, cidr_network6 (ex_world (ex6 [0x20; 1; 0xd; 0xb8; 0; 0; 0xab; 0xcd; 1] 60))
            = Ret true (pushed (ex_world (ex6 [0x20; 1; 0xd; 0xb8; 0; 0; 0xab; 0xcd; 1] 60)) n) /\
    v6 n = v6 (ex6 [0x20; 1; 0xd; 0xb8; 0; 0; 0xab; 0xc0] 60).
Proof.
  destruct (cidr_network6_correct (ex6 [0x20; 1; 0xd; 0xb8; 0; 0; 0xab; 0xcd; 1] 60) []
    (ex_world (ex6 [0x20; 1; 0xd; 0xb8; 0; 0; 0xab; 0xcd; 1] 60))) as (n & Hn & Hv & _);
    [done|done|check_wf|cbv; done|].
  exists n. split; [exact Hn|]. rewrite Hv. vm_compute. reflexivity.
Defined.

(** [cidr_contains6] answers whether the argument is an equal or longer
    prefix that agrees with the base on all the bits of the base prefix (0 to
    128). *)
Theorem cidr_contains6_correct a b st w :
  stack w = a :: st -> wf a -> wf b -> prefix a <= 128 ->
  exists r, cidr_contains6 b w = answer r w /\
    (r = true <->
     prefix a <= prefix b /\ v6 a / 2 ^ (128 - prefix a) = v6 b / 2 ^ (128 - prefix a)).
Proof.
  intros Hst [Hla Hba Hpa] [Hlb Hbb Hpb] Hp128.
  unfold cidr_contains6. start_op. eexists. split; [reflexivity|].
  unfold contains6_test.
  pose proof (be_val_range _ Hba) as Hva. pose proof (be_val_range _ Hbb) as Hvb.
  rewrite Hla in Hva. rewrite Hlb in Hvb. change (256 ^ Z.of_nat 16) with (2 ^ 128) in *.
  destruct (Z.eqb_spec (prefix a) 0) as [E|Hp0].
  { rewrite E. change (128 - 0) with 128. unfold v6. rewrite (Z.div_small (be_val (addr a))), (Z.div_small (be_val (addr b))) by lia.
    split; [intros _; split; [lia|done]|done]. }
  rewrite orb_false_l.
  destruct (host_bits6 (prefix a) ltac:(lia)) as [-> (i & r & Hi & Hr & Hk & Hdiv & Hmod)].
  rewrite Hdiv, Hmod, (Z.mod_small (Z.of_nat i)), Nat2Z.id, Hk by lia.
  pose proof (split_at (addr a) i Hla Hi) as Ha. pose proof (split_at (addr b) i Hlb Hi) as Hb.
  set (ha := take (15 - i) (addr a)) in *. set (hb := take (15 - i) (addr b)) in *.
  set (xa := nth (15 - i) (addr a) 0) in *. set (xb := nth (15 - i) (addr b) 0) in *.
  set (ta := drop (16 - i) (addr a)) in *. set (tb := drop (16 - i) (addr b)) in *.
  assert (Hxa : is_byte xa) by by apply nth_byte. assert (Hxb : is_byte xb) by by apply nth_byte.
  assert (Hta : 0 <= be_val ta < 256 ^ Z.of_nat i).
  { replace i with (length ta) by (unfold ta; rewrite length_drop; lia).
    apply be_val_range, Forall_drop, Hba. }
  assert (Htb : 0 <= be_val tb < 256 ^ Z.of_nat i).
  { replace i with (length tb) by (unfold tb; rewrite length_drop; lia).
    apply be_val_range, Forall_drop, Hbb. }
  assert (v6 a / 2 ^ (8 * Z.of_nat i + r) = 2 ^ (8 - r) * be_val ha + xa / 2 ^ r) as ->.
  { unfold v6. rewrite Ha, be_val_split. replace (length ta) with i by (unfold ta; rewrite length_drop; lia).
    apply div_split; lia. }
  assert (v6 b / 2 ^ (8 * Z.of_nat i + r) = 2 ^ (8 - r) * be_val hb + xb / 2 ^ r) as ->.
  { unfold v6. rewrite Hb, be_val_split. replace (length tb) with i by (unfold tb; rewrite length_drop; lia).
    apply div_split; lia. }
  rewrite quotient_split by done.
  rewrite !andb_true_iff, Z.leb_le, Z.eqb_eq, !mask_byte, clear_low_eq by (done || lia).
  rewrite orb_true_iff, !bool_decide_eq_true.
  assert (Hh : be_val ha = be_val hb <-> ha = hb).
  { split; [|congruence]. apply be_val_inj.
    - apply Forall_take, Hba.
    - apply Forall_take, Hbb.
    - unfold ha, hb. rewrite !length_take. lia. }
  assert (i = 15%nat -> ha = hb) by (intros ->; reflexivity).
  rewrite Hh. tauto.
Qed.

Lemma cidr_contains6_correct_witness :
  cidr_contains6 (ex6 [0xfd; 0x12; 0x34] 48) (ex_world (ex6 [0xfc] 7))
  = answer true (ex_world (ex6 [0xfc] 7)).
Proof.
  destruct (cidr_contains6_correct (ex6 [0xfc] 7) (ex6 [0xfd; 0x12; 0x34] 48) []
    (ex_world (ex6 [0xfc] 7))) as ([|] & Hr & Hiff); [done|check_wf|check_wf|cbv; done|exact Hr|].
  exfalso. assert (false = true) as E; [apply Hiff; vm_compute; intuition congruence|congruence].
Defined.

(** ** Address classes, 6to4, counting *)

Ltac div_lia := Z.to_euclidean_division_equations; lia.

Lemma private4_test_spec x :
  private4_test x = true <-> x / 2 ^ 24 = 10 \/ x / 2 ^ 20 = 0xAC1 \/ x / 2 ^ 16 = 0xC0A8.
Proof.
  unfold private4_test. rewrite !orb_true_iff, !andb_true_iff, !Z.leb_le.
  change (2 ^ 24) with 16777216. change (2 ^ 20) with 1048576. change (2 ^ 16) with 65536.
  split; intros; div_lia.
Qed.

Lemma linklocal4_test_spec x : linklocal4_test x = true <-> x / 2 ^ 16 = 0xA9FE.
Proof.
  unfold linklocal4_test. rewrite !andb_true_iff, !Z.leb_le. change (2 ^ 16) with 65536.
  split; intros; div_lia.
Qed.

(** The first two bytes of an IPv6 address. *)
Lemma v6_head a :
  wf a -> exists b0 b1 t, addr a = b0 :: b1 :: t /\ is_byte b0 /\ is_byte b1 /\
    v6 a / 2 ^ 112 = 256 * b0 + b1.
Proof.
  intros [Hl Hb _]. unfold v6. destruct (addr a) as [|b0 [|b1 t]]; try done.
  inversion Hb as [|? ? H0 Hb']; subst. inversion Hb' as [|? ? H1 Ht]; subst.
  exists b0, b1, t. repeat split; try (apply H0 || apply H1).
  pose proof (be_val_range t Ht) as Hr. simpl in Hl. assert (length t = 14%nat) as Hlt by lia.
  rewrite !be_val_cons. cbn [length]. rewrite Hlt in *.
  change (256 ^ Z.of_nat 15) with (2 ^ 112 * 256). change (256 ^ Z.of_nat 14) with (2 ^ 112) in *.
  replace (2 ^ 112 * 256 * b0 + (2 ^ 112 * b1 + be_val t))
    with (be_val t + (256 * b0 + b1) * 2 ^ 112) by lia.
  rewrite Z.div_add, Z.div_small by lia. lia.
Qed.

(** The class tests are membership in the documented blocks: [private] is
    10/8, 172.16/12 or 192.168/16, [linklocal] is 169.254/16 or fe80::/10, and
    [ula] is fc00::/7. *)
Theorem cidr_classes_correct e a st w :
  stack w = a :: st -> wf a ->
  (exists r, cidr_private4 e w = answer r w /\
     (r = true <-> v4 e a / 2 ^ 24 = 10 \/ v4 e a / 2 ^ 20 = 0xAC1 \/ v4 e a / 2 ^ 16 = 0xC0A8)) /\
  (exists r, cidr_linklocal4 e w = answer r w /\ (r = true <-> v4 e a / 2 ^ 16 = 0xA9FE)) /\
  (exists r, cidr_linklocal6 w = answer r w /\ (r = true <-> v6 a / 2 ^ 118 = 0x3FA)) /\
  (exists r, cidr_ula6 w = answer r w /\ (r = true <-> v6 a / 2 ^ 121 = 0x7E)).
Proof.
  intros Hst Hwf.
  destruct (v6_head a Hwf) as (b0 & b1 & t & Ha & H0 & H1 & Hv). unfold is_byte in *.
  change (2 ^ 118) with (2 ^ 112 * 64). change (2 ^ 121) with (2 ^ 112 * 512).
  rewrite <- !Z.div_div, Hv by lia.
  unfold cidr_private4, cidr_linklocal4, cidr_linklocal6, cidr_ula6.
  repeat split; start_op; eexists; (split; [reflexivity|]).
  - apply private4_test_spec.
  - apply linklocal4_test_spec.
  - unfold linklocal6_test. rewrite Ha. cbn -[Z.div].
    rewrite !andb_true_iff, !Z.leb_le, Z.eqb_eq. split; intros; div_lia.
  - unfold ula6_test. rewrite Ha. cbn -[Z.div].
    rewrite !andb_true_iff, !Z.leb_le. split; intros; div_lia.
Qed.

Lemma cidr_classes_correct_witness :
  cidr_private4 LE (ex_world (ex4 172 31 0 1 32)) = answer true (ex_world (ex4 172 31 0 1 32)).
Proof.
  destruct (cidr_classes_correct LE (ex4 172 31 0 1 32) [] (ex_world (ex4 172 31 0 1 32)))
    as [([|] & Hr & Hiff) _]; [done|check_wf|exact Hr|].
  exfalso. assert (false = true) as E; [apply Hiff; vm_compute; tauto|congruence].
Defined.

Definition sixtofour (l : list Z) : list Z := [0x20; 0x02] ++ l ++ replicate 10 0.

Lemma be_bytes4 x : 0 <= x < 2 ^ 32 ->
  be_bytes 4 x = [u8 (Z.shiftr x 24); Z.land (Z.shiftr x 16) 0xFF;
                  Z.land (Z.shiftr x 8) 0xFF; Z.land x 0xFF].
Proof.
  intros Hx. unfold be_bytes, wrap. cbn [le_bytes].
  change 0xFF with (Z.ones 8). rewrite !Z.land_ones, !Z.shiftr_div_pow2 by lia.
  change (2 ^ 8) with 256. rewrite !Z.div_div by lia. reflexivity.
Qed.

(** [cidr_6to4] builds the 2002::/16 prefix from the four address bytes in
    the order a host of that byte order keeps the most significant one first:
    the right order on a big-endian host, reversed on a little-endian one. *)
Theorem cidr_6to4_exact e a st w :
  stack w = a :: st -> can_malloc w -> wf a ->
  cidr_6to4 e w = Ret true (pushed w (Cidr AF_INET6 48 (sixtofour
    (match e with BE => take 4 (addr a) | LE => reverse (take 4 (addr a)) end)))).
Proof.
  intros Hst Hm Hwf. unfold cidr_6to4. start_op.
  unfold sixtofour_bytes, sixtofour. destruct (take4_ok a Hwf) as [Hb Hl].
  pose proof (s_addr_range e a Hwf) as Hr.
  pose proof (be_bytes4 _ Hr) as Hbytes.
  assert (be_bytes 4 (s_addr e a) =
          match e with BE => take 4 (addr a) | LE => reverse (take 4 (addr a)) end) as <-.
  { pose proof (le_bytes_val _ Hb) as Hle. pose proof (be_bytes_val _ Hb) as Hbe.
    rewrite Hl in Hle, Hbe. unfold s_addr. destruct e; cbn [load]; [|exact Hbe].
    unfold be_bytes. by rewrite Hle. }
  rewrite Hbytes. reflexivity.
Qed.

Lemma cidr_6to4_exact_witness :
  cidr_6to4 LE (ex_world (ex4 192 0 2 1 32))
  = Ret true (pushed (ex_world (ex4 192 0 2 1 32)) (ex6 [0x20; 2; 1; 2; 0; 192] 48)).
Proof.
  rewrite (cidr_6to4_exact LE (ex4 192 0 2 1 32) []); [reflexivity|done|done|check_wf].
Defined.
