(* ===== verification/CidrMainProofs.v ===== *)
(** * IP address calculator: the command line

    Exit codes and termination of [main], and the round trip between printing
    and parsing. *)

From Stdlib Require Import ZArith Lia String Ascii.
From stdpp Require Import base list strings numbers option sets.
From S2P Require Import Prelude Bits CString Cidr CidrMain CidrFacts CidrProofs.

(** ** Postconditions of programs *)

(** Every exit code satisfies [Q], every returned value satisfies [R]. *)
Definition post {A} (Q : Z -> Prop) (R : A -> Prop) (m : P A) : Prop :=
  forall w, match m w with Ret a _ => R a | Exit c _ => Q c | Undef => True end.

Lemma post_bind {A B} Q (R : A -> Prop) (R' : B -> Prop) (m : P A) (f : A -> P B) :
  post Q R m -> (forall a, R a -> post Q R' (f a)) -> post Q R' (m ≫= f).
Proof.
  intros Hm Hf w. specialize (Hm w). unfold mbind, prog_bind.
  destruct (m w) as [a w'|c w'|]; [by apply Hf|done|done].
Qed.

Lemma post_ret {A} Q (R : A -> Prop) a : R a -> post Q R (mret a).
Proof. intros H w. exact H. Qed.

Lemma post_exit {A} Q (R : A -> Prop) c : Q c -> post Q R (exit_with c).
Proof. intros H w. exact H. Qed.

Lemma post_true {A} (Q : Z -> Prop) (m : P A) :
  (forall w, match m w with Exit _ _ => False | _ => True end) -> post Q (fun _ => True) m.
Proof. intros H w. specialize (H w). by destruct (m w). Qed.

Lemma post_top Q : post Q (fun _ => True) top.
Proof. apply post_true. intros w. unfold top. by destruct (stack w). Qed.
Lemma post_get Q : post Q (fun _ => True) get_st.
Proof. by apply post_true. Qed.
Lemma post_modify Q f : post Q (fun _ => True) (modify f).
Proof. by apply post_true. Qed.
Lemma post_malloc Q : post Q (fun _ => True) malloc.
Proof. apply post_true. intros w. unfold malloc. by destruct (mallocs w). Qed.
Lemma post_pop Q : post Q (fun _ => True) cidr_pop.
Proof. apply post_true. intros w. unfold cidr_pop. by destruct (stack w). Qed.
Lemma post_defined {A} Q (o : option A) : post Q (fun _ => True) (defined o).
Proof. apply post_true. intros w. unfold defined. by destruct o. Qed.
Lemma post_undef {A} Q R : post Q R (undef (A:=A)).
Proof. done. Qed.
Lemma post_weaken {A} Q (R : A -> Prop) m : post Q R m -> post Q (fun _ => True) m.
Proof. intros H w. specialize (H w). by destruct (m w). Qed.

Create HintDb post.
#[export] Hint Resolve post_top post_get post_modify post_malloc post_pop post_defined
  post_undef : post.

(** Walk through a program, splitting on every case distinction. *)
Ltac post_step :=
  intros;
  match goal with
  | |- post _ _ (mbind _ _) => eapply (post_bind _ (fun _ => True))
  | |- post _ _ (mret _) => apply post_ret
  | |- post _ _ (exit_with _) => apply post_exit
  | |- post _ _ (match ?x with _ => _ end) => destruct x eqn:?
  | |- post _ _ (eprintf _) => apply post_modify
  | |- post _ _ (qprintf _) => apply post_modify
  | |- post _ _ (set_top _) => apply post_modify
  | |- post _ _ (cidr_push _) => unfold cidr_push
  | |- post _ _ separator => unfold separator
  | |- post _ _ (answer _) => unfold answer
  | |- post _ _ _ => solve [eauto with post]
  end.
Ltac post_solve := repeat post_step; auto.

Definition only_255 (c : Z) : Prop := c = 255.

Lemma post_clone a : post only_255 (fun _ => True) (cidr_clone a).
Proof. unfold cidr_clone. post_solve. done. Qed.
#[export] Hint Resolve post_clone : post.

(** Every operation only ever exits with 255, when memory runs out. *)
Definition row_ok (o : op) : Prop :=
  (forall f, f4_a1 o = Some f \/ f6_a1 o = Some f -> post only_255 (fun _ => True) f) /\
  (forall f b, f4_a2 o = Some f \/ f6_a2 o = Some f -> post only_255 (fun _ => True) (f b)).

Lemma row_unary n f4 f6 :
  (forall f, f4 = Some f \/ f6 = Some f -> post only_255 (fun _ => True) f) ->
  row_ok (unary n f4 f6).
Proof. intros H. split; [exact H|]. intros f b [|]; done. Qed.

Lemma row_binary n f4 f6 :
  (forall f b, f4 = Some f \/ f6 = Some f -> post only_255 (fun _ => True) (f b)) ->
  row_ok (binary n f4 f6).
Proof. intros H. split; [intros f [|]; done|exact H]. Qed.

Section Ops.
Context (e : endian) (ulong : Z) `{Inet} (junk : list Z).

Lemma ops_ok : Forall row_ok (ops e).
Proof.
  unfold ops. repeat apply List.Forall_cons; [..|apply List.Forall_nil].
  all: (apply row_unary; intros f Hf) || (apply row_binary; intros f b Hf).
  all: destruct Hf; simplify_eq.
  all: unfold cidr_add4, cidr_add6, cidr_sub4, cidr_sub6, cidr_next4, cidr_next6,
    cidr_prev4, cidr_prev6, cidr_network4, cidr_network6, cidr_broadcast4, cidr_prefix,
    cidr_netmask4, cidr_6to4, cidr_howmany, cidr_contains4, cidr_contains6, cidr_private4,
    cidr_linklocal4, cidr_linklocal6, cidr_ula6, cidr_quiet, cidr_print4, cidr_print6.
  all: post_solve.
Qed.

Lemma find_op_ok a o : find_op e a = Some o -> row_ok o.
Proof.
  unfold find_op. destruct (list_find _ _) as [[i o']|] eqn:E; [|done]. intros [= ->].
  apply list_find_Some in E as [Hi _]. by eapply Forall_lookup_1 in Hi; [|apply ops_ok].
Qed.

Definition exit_codes (c : Z) : Prop := c ∈ [0; 1; 4; 5; 6; 255].

Lemma post_op {A} (m : P A) R : post only_255 R m -> post exit_codes R m.
Proof.
  intros Hm w. specialize (Hm w). destruct (m w); try done. rewrite Hm. unfold exit_codes. set_solver.
Qed.

Lemma post_parse4 s : post exit_codes (fun _ => True) (cidr_parse4 e ulong junk s).
Proof. unfold cidr_parse4. post_solve. Qed.
Lemma post_parse6 s : post exit_codes (fun _ => True) (cidr_parse6 ulong s).
Proof. unfold cidr_parse6. post_solve. Qed.
Hint Resolve post_parse4 post_parse6 : post.

Lemma post_parse n s f : post exit_codes (fun _ => True) (cidr_parse e ulong junk n s f).
Proof. unfold cidr_parse. post_solve. unfold exit_codes. set_solver. Qed.
Hint Resolve post_parse : post.

(** What [runop] guarantees: it stops with arguments left or with a status
    that is a real exit code, and it consumes arguments when it goes on. *)
Definition runop_post (arg : list string) (r : bool * list string * Z) : Prop :=
  let '(continue, arg', status') := r in
  if continue : bool then (length arg' < length arg)%nat /\ (status' = 0 \/ status' = 1)
  else arg' <> [] \/ status' = 0 \/ status' = 1 \/ status' = 5.

Lemma status_of_01 r : status_of r = 0 \/ status_of r = 1.
Proof. destruct r; auto. Qed.

Lemma post_runop arg status :
  status = 0 \/ status = 1 -> post exit_codes (runop_post arg) (runop e ulong junk arg status).
Proof.
  intros Hs. unfold runop. destruct arg as [|a1 rest]; [apply post_ret; cbn; tauto|].
  destruct (find_op e a1) as [o|] eqn:Ho; [|apply post_ret; cbn; by left].
  apply find_op_ok in Ho as [H1 H2].
  destruct (is_some (f4_a2 o) || is_some (f6_a2 o)).
  - destruct rest as [|a2 rest2].
    { eapply post_bind; [apply post_modify|]. intros. apply post_ret. cbn. by left. }
    eapply post_bind; [apply post_top|]. intros a _.
    eapply post_bind; [apply post_parse|]. intros [b|] _.
    2: { eapply post_bind; [apply post_modify|]. intros. apply post_ret. cbn. by left. }
    destruct (if bool_decide _ then f4_a2 o else f6_a2 o) as [f|] eqn:Hf.
    + eapply post_bind; [apply post_op, (H2 f b); case_bool_decide; auto|].
      intros r _. apply post_ret. split; [cbn; lia|apply status_of_01].
    + eapply post_bind; [apply post_modify|]. intros. apply post_ret. cbn. tauto.
  - eapply post_bind; [apply post_top|]. intros a _.
    destruct (if bool_decide _ then f4_a1 o else f6_a1 o) as [f|] eqn:Hf.
    + eapply post_bind; [apply post_op, (H1 f); case_bool_decide; auto|].
      intros r _. apply post_ret. split; [cbn; lia|apply status_of_01].
    + eapply post_bind; [apply post_modify|]. intros. apply post_ret. cbn. tauto.
Qed.

Definition run_ops_post (r : option (list string * Z)) : Prop :=
  match r with
  | None => False
  | Some (arg, status) => arg <> [] \/ status = 0 \/ status = 1 \/ status = 5
  end.

Lemma post_run_ops n arg status :
  status = 0 \/ status = 1 -> (length arg < n)%nat ->
  post exit_codes run_ops_post (run_ops e ulong junk n arg status).
Proof.
  revert arg status. induction n as [|n IH]; intros arg status Hs Hn; [lia|].
  cbn [run_ops]. eapply post_bind; [by apply post_runop|].
  intros [[[] arg'] status'] Hr; cbn in Hr.
  - apply IH; [tauto|lia].
  - by apply post_ret.
Qed.

(** The operation loop always ends within one iteration per argument and
    one more: with that much fuel it never runs out, whatever the arguments
    and the state. *)
Theorem run_ops_terminates n arg status w :
  status = 0 \/ status = 1 -> (length arg < n)%nat ->
  match run_ops e ulong junk n arg status w with Ret None _ => False | _ => True end.
Proof.
  intros Hs Hn. pose proof (post_run_ops n arg status Hs Hn w) as Hp.
  destruct (run_ops _ _ _ _ _ _ w) as [[|]| |]; auto.
Qed.

(** Whatever the command line, the program only ever exits with one of 0,
    1, 4, 5, 6 and 255. The status 2 (a missing argument) and the status 3 (an
    invalid argument) that [runop] sets are always overridden: the argument
    is still there, so it is reported as an unknown operation, with exit code 6. *)
Theorem main_exit_codes argv w :
  match main e ulong junk argv w with
  | Ret _ _ => False
  | Exit c _ => c ∈ [0; 1; 4; 5; 6; 255]
  | Undef => True
  end.
Proof.
  enough (post exit_codes (fun _ : Z => False) (main e ulong junk argv)) as Hp by exact (Hp w).
  assert (Husage : post exit_codes (fun _ : Z => False) usage)
    by (apply post_exit; unfold exit_codes; set_solver).
  unfold main. eapply post_bind; [apply post_modify|]. intros _ _.
  destruct argv as [|base [|a1 arg]]; [exact Husage|exact Husage|].
  eapply post_bind; [destruct (has_char ":" base); eauto with post|].
  intros [a|] _; [|exact Husage].
  eapply post_bind; [apply post_modify|]. intros _ _.
  eapply post_bind; [apply post_run_ops; [by left|lia]|].
  intros [[[|u rest] status]|] Hr; [| |done].
  - eapply post_bind; [apply post_get|]. intros w0 _.
    eapply (post_bind _ (fun _ => True)); [unfold cidr_print4, cidr_print6; post_solve|]. intros _ _.
    eapply post_bind; [apply post_modify|]. intros _ _.
    apply post_exit. unfold exit_codes. destruct Hr as [|[-> | [-> | ->]]]; [done|set_solver..].
  - eapply post_bind; [apply post_modify|]. intros _ _.
    apply post_exit. unfold exit_codes. set_solver.
Qed.
End Ops.

(** A dotted-quad text form for the witnesses (IPv6 text is left empty). *)
Definition octet (s : string) : option Z :=
  let '(v, r) := strtoul 32 s 10 in
  if bool_decide (r = ""%string) && negb (bool_decide (s = ""%string)) && (v <? 256)
  then Some v else None.

Definition dotted_pton (s : string) : option (list Z) :=
  '(s0, r) ← cut "." s; '(s1, r) ← cut "." r; '(s2, s3) ← cut "." r;
  b0 ← octet s0; b1 ← octet s1; b2 ← octet s2; b3 ← octet s3;
  Some [b0; b1; b2; b3].

Definition dotted_ntop (l : list Z) : string :=
  match l with
  | b :: r => foldl (fun s b => s +:+ "." +:+ print_u b) (print_u b) r
  | [] => ""
  end.

Definition dotted_inet : Inet :=
  {| inet_pton4 := dotted_pton; inet_ntop4 := dotted_ntop;
     inet_pton6 := fun _ => None; inet_ntop6 := fun _ => "" |}.

Lemma run_ops_terminates_witness :
  match run_ops LE 64 (H := dotted_inet) (replicate 12 0) 3 ["add"; "1"]%string 0
          (ex_world (ex4 10 0 0 1 32)) with
  | Ret None _ => False
  | _ => True
  end.
Proof.
  apply (run_ops_terminates LE 64 (H := dotted_inet) (replicate 12 0) 3 ["add"; "1"]%string 0
           (ex_world (ex4 10 0 0 1 32))); [by left|cbn; lia].
Defined.

Section RoundTrip.
Context (e : endian) (ulong : Z) `{Inet} (junk : list Z).

Lemma strto_print_u p :
  0 <= p <= 32 -> strto_parse (print_u p) 10 = Some (false, p, ""%string) /\
    has_char "." (print_u p) = false /\ (strlen (print_u p) <= 2) /\ print_u p <> ""%string.
Proof.
  intros Hp. assert (exists n, p = Z.of_nat n /\ (n <= 32)%nat) as (n & -> & Hn)
    by (exists (Z.to_nat p); lia).
  do 33 (destruct n as [|n]; [repeat split; [vm_compute; reflexivity..|vm_compute; discriminate|vm_compute; discriminate]|]).
  lia.
Qed.

Lemma parse_plen4_print p :
  32 <= ulong -> 0 <= p <= 32 -> parse_plen4 e ulong (print_u p) = Some p.
Proof.
  intros Hu Hp. destruct (strto_print_u p Hp) as (Hs & Hd & _ & Hne).
  unfold parse_plen4, strtoul. rewrite Hd, Hs.
  assert (2 ^ 32 <= 2 ^ ulong) by (apply Z.pow_le_mono_r; lia).
  destruct (Z.leb_spec (2 ^ ulong) p); [lia|].
  rewrite wrap_small by lia. rewrite bool_decide_eq_false_2 by congruence.
  rewrite bool_decide_eq_true_2 by done. cbn. destruct (Z.ltb_spec 32 p); [lia|done].
Qed.

(** What [cidr_print4] prints for a valid prefix is read back by
    [cidr_parse4] as the same address and the same prefix length, when the
    socket library reads back the address text it wrote. *)
Theorem print4_parse4_roundtrip a st w :
  stack w = a :: st -> quiet w = false -> printed w = false -> stdout w = ""%string ->
  wf a -> family a = AF_INET -> prefix a <= 32 -> 32 <= ulong ->
  inet_pton4 (inet_ntop4 (take 4 (addr a))) = Some (take 4 (addr a)) ->
  has_char "/" (inet_ntop4 (take 4 (addr a))) = false ->
  inet_ntop4 (take 4 (addr a)) <> ""%string -> strlen (inet_ntop4 (take 4 (addr a))) <= 15 ->
  exists w', cidr_print4 w = Ret true w' /\ stack w' = st /\
    parse4_text e ulong junk (stdout w')
    = Some (Cidr AF_INET (prefix a) (take 4 (addr a) ++ junk)).
Proof.
  intros Hst Hq Hpr Hout [_ _ Hp0] Hf Hp Hu Hrt Hslash Hne Hlen.
  set (t := inet_ntop4 (take 4 (addr a))) in *.
  unfold cidr_print4, separator. unfold mbind, prog_bind, get_st. cbn beta iota.
  rewrite Hst. cbn beta iota. rewrite bool_decide_eq_true_2 by done.
  cbn -[inet_ntop4 take]. rewrite Hpr.
  cbn -[inet_ntop4 take]. rewrite Hq, Hout. fold t.
  destruct (Z.ltb_spec (prefix a) 32); cbn; rewrite ?Hq, ?Hst; eexists; (split; [reflexivity|]);
    (split; [reflexivity|]); cbn; change (""%string +:+ t) with t; unfold parse4_text.
  - destruct (strto_print_u (prefix a) ltac:(lia)) as (_ & _ & Hl2 & _).
    change ("/" +:+ print_u (prefix a)) with (String "/" (print_u (prefix a))).
    change (t +:+ String "/" (print_u (prefix a))) with (t +:+ ("/" +:+ print_u (prefix a))).
    rewrite strlen_app, strlen_app. change (strlen "/") with 1.
    destruct (Z.leb_spec 33 (strlen t + (1 + strlen (print_u (prefix a))))); [lia|].
    change ("/" +:+ print_u (prefix a)) with (String "/" (print_u (prefix a))).
    rewrite cut_app by done. rewrite parse_plen4_print by lia. cbn.
    rewrite bool_decide_eq_false_2 by done. by rewrite Hrt.
  - destruct (Z.leb_spec 33 (strlen t)); [lia|].
    unfold has_char in Hslash. destruct (cut "/" t) as [[? ?]|]; [done|].
    rewrite Hrt. cbn. do 2 f_equal. lia.
Qed.
End RoundTrip.

Lemma print4_parse4_roundtrip_witness :
  exists w', cidr_print4 (H := dotted_inet) (ex_world (ex4 192 168 1 0 24)) = Ret true w' /\
    stdout w' = "192.168.1.0/24"%string /\
    parse4_text LE 64 (H := dotted_inet) (replicate 12 0) (stdout w') = Some (ex4 192 168 1 0 24).
Proof.
  destruct (print4_parse4_roundtrip LE 64 (H := dotted_inet) (replicate 12 0)
    (ex4 192 168 1 0 24) [] (ex_world (ex4 192 168 1 0 24))) as (w' & Hw & _ & Hparse);
    [done|done|done|done|check_wf|done|cbv; done|lia|vm_compute; reflexivity|vm_compute; reflexivity
    |vm_compute; discriminate|vm_compute; discriminate|].
  exists w'. split; [exact Hw|]. split; [|exact Hparse].
  vm_compute in Hw. injection Hw as <-. reflexivity.
Defined.
