(* ===== verification/Blocks.v ===== *)
(** * Absorbing a message in 64-byte blocks

    The part MD5 and SHA-256 share: a compression function is folded over the
    64-byte blocks of a message, and the bytes behind the last full block wait
    in a buffer. The lemmas say how that state evolves when a message grows. *)

From Stdlib Require Import ZArith Lia.
From stdpp Require Import base list numbers.
From S2P Require Import Prelude.

#[local] Open Scope nat_scope.

(** What a hash function promises to the block buffer. *)
Class Compression (St : Type) := compress : St -> list Z -> St.

Section Absorb.
Context {St : Type} `{Compression St}.

(** Fold [compress] over the first [n] blocks of [m]. *)
Fixpoint absorb (n : nat) (st : St) (m : list Z) : St :=
  match n with
  | O => st
  | S n => absorb n (compress st (take 64 m)) (drop 64 m)
  end.

(** Number of full blocks, and the bytes behind them. *)
Definition full (m : list Z) : nat := length m / 64.
Definition leftover (m : list Z) : list Z := drop (64 * full m) m.

(** [absorbed st0 m st rest]: having started from [st0] and read [m], the state
    is [st] and [rest] is waiting. *)
Definition absorbed (st0 : St) (m : list Z) (st : St) (rest : list Z) : Prop :=
  st = absorb (full m) st0 m /\ rest = leftover m.

Lemma absorb_add n1 n2 st m :
  absorb (n1 + n2) st m = absorb n2 (absorb n1 st m) (drop (64 * n1) m).
Proof.
  revert st m. induction n1 as [|n1 IH]; intros st m; cbn [absorb Nat.add]; [done|].
  rewrite IH, drop_drop. do 2 f_equal. lia.
Qed.

Lemma absorb_app n st m k : 64 * n <= length m -> absorb n st (m ++ k) = absorb n st m.
Proof.
  revert st m. induction n as [|n IH]; intros st m Hl; cbn [absorb]; [done|].
  rewrite take_app_le, drop_app_le by lia. apply IH. rewrite length_drop. lia.
Qed.

Lemma full_bounds m : 64 * full m <= length m < 64 * full m + 64.
Proof.
  unfold full. pose proof (Nat.div_mod_eq (length m) 64).
  pose proof (Nat.mod_upper_bound (length m) 64). lia.
Qed.

Lemma leftover_length m : length (leftover m) = length m mod 64.
Proof.
  unfold leftover, full. rewrite length_drop. pose proof (Nat.div_mod_eq (length m) 64). lia.
Qed.

Lemma leftover_short m : length (leftover m) < 64.
Proof. rewrite leftover_length. apply Nat.mod_upper_bound. lia. Qed.

Lemma full_unique m n : 64 * n <= length m < 64 * n + 64 -> full m = n.
Proof. intros. unfold full. symmetry. apply Nat.div_unique with (length m - 64 * n); lia. Qed.

Lemma absorbed_nil st : absorbed st [] st [].
Proof. by split. Qed.

(** The waiting bytes and the new bytes decide the new state. *)
Lemma absorbed_app st0 m st rest d :
  absorbed st0 m st rest ->
  absorbed st0 (m ++ d) (absorb (full (rest ++ d)) st (rest ++ d)) (leftover (rest ++ d)).
Proof.
  intros [-> ->]. pose proof (full_bounds m). unfold leftover.
  assert (Hd : drop (64 * full m) (m ++ d) = drop (64 * full m) m ++ d)
    by (by rewrite drop_app_le by lia).
  assert (Hf : full (m ++ d) = full m + full (drop (64 * full m) m ++ d)).
  { apply full_unique. pose proof (full_bounds (drop (64 * full m) m ++ d)) as Hb.
    rewrite !length_app, length_drop in *. lia. }
  split.
  - rewrite Hf, absorb_add, Hd. by rewrite (absorb_app (full m) st0 m d) by lia.
  - unfold leftover. rewrite Hf, Nat.mul_add_distr_l, <- drop_drop, Hd. done.
Qed.

(** Completing the first block separately. *)
Lemma absorb_first rest d st :
  length rest <= 64 -> 64 <= length (rest ++ d) ->
  let d' := drop (64 - length rest) d in
  absorb (full (rest ++ d)) st (rest ++ d)
  = absorb (full d') (compress st (rest ++ take (64 - length rest) d)) d'
  /\ leftover (rest ++ d) = leftover d'.
Proof.
  intros Hr Hl. cbv zeta. set (d' := drop (64 - length rest) d).
  assert (Hdrop : drop 64 (rest ++ d) = d').
  { rewrite drop_app_ge by lia. done. }
  assert (Htake : take 64 (rest ++ d) = rest ++ take (64 - length rest) d).
  { rewrite take_app_ge by lia. done. }
  assert (Hf : full (rest ++ d) = S (full d')).
  { apply full_unique. pose proof (full_bounds d') as Hb. unfold d' in *.
    rewrite length_drop in Hb. rewrite length_app in *. lia. }
  rewrite Hf. cbn [absorb]. rewrite Hdrop, Htake. split; [done|].
  unfold leftover. rewrite Hf. replace (64 * S (full d')) with (64 + 64 * full d') by lia.
  by rewrite <- drop_drop, Hdrop.
Qed.

Lemma full_short d : length d < 64 -> full d = 0 /\ leftover d = d.
Proof.
  intros. assert (full d = 0) as E by (apply full_unique; lia).
  unfold leftover. by rewrite E.
Qed.

(** ** The buffer in memory *)

(** [holds st0 m st buf]: having read [m], the state is [st] and the 64-byte
    buffer starts with the bytes that wait. *)
Definition holds (st0 : St) (m : list Z) (st : St) (buf : list Z) : Prop :=
  length buf = 64 /\ absorbed st0 m st (take (length m mod 64) buf).

Lemma holds_nil st buf : length buf = 64 -> holds st [] st buf.
Proof. intros. by split. Qed.

Lemma write_after used d buf :
  write used d buf = take used buf ++ d ++ drop (used + length d) buf.
Proof. done. Qed.

Lemma take_write_0 d buf : take (length d) (write 0 d buf) = d.
Proof. apply (take_app_length d). Qed.

Lemma holds_used st0 m st buf :
  holds st0 m st buf -> length (take (length m mod 64) buf) = length m mod 64.
Proof.
  intros [Hl _]. rewrite length_take, Hl.
  pose proof (Nat.mod_upper_bound (length m) 64). lia.
Qed.

Lemma holds_intro st0 m st rest buf :
  length buf = 64 -> absorbed st0 m st rest -> take (length rest) buf = rest ->
  holds st0 m st buf.
Proof.
  intros Hl Ha Ht. split; [done|]. destruct Ha as [Hst Hr].
  assert (length rest = length m mod 64) as E by (subst rest; apply leftover_length).
  rewrite <- E, Ht. by split.
Qed.

(** Bytes that do not complete a block are appended to the buffer. *)
Lemma holds_short st0 m st buf d :
  holds st0 m st buf -> length m mod 64 + length d < 64 ->
  holds st0 (m ++ d) st (write (length m mod 64) d buf).
Proof.
  intros Hh Hd. pose proof (holds_used _ _ _ _ Hh) as Hu. destruct Hh as [Hl Ha].
  set (u := length m mod 64) in *. apply (absorbed_app _ _ _ _ d) in Ha.
  destruct (full_short (take u buf ++ d)) as [Ef El]; [rewrite length_app; lia|].
  rewrite Ef, El in Ha. cbn [absorb] in Ha. eapply holds_intro; [|exact Ha|].
  - rewrite length_write; lia.
  - rewrite write_after, app_assoc. apply take_app_length.
Qed.

(** Bytes that complete it: the buffer is compressed, then the full blocks of
    the rest, and what remains is copied to the front. *)
Lemma holds_long st0 m st buf d :
  let u := length m mod 64 in
  let b := write u (take (64 - u) d) buf in
  let d' := drop (64 - u) d in
  holds st0 m st buf -> 64 <= u + length d ->
  holds st0 (m ++ d) (absorb (length d' / 64) (compress st b) d')
    (write 0 (drop (64 * (length d' / 64)) d') b).
Proof.
  intros u b d' Hh Hd. pose proof (holds_used _ _ _ _ Hh) as Hu. destruct Hh as [Hl Ha].
  fold u in Hu, Ha. apply (absorbed_app _ _ _ _ d) in Ha.
  pose proof (Nat.mod_upper_bound (length m) 64).
  destruct (absorb_first (take u buf) d st) as [Ef El]; [lia|rewrite length_app; lia|].
  rewrite Ef, El, Hu in Ha. fold d' in Ha.
  assert (Hb : b = take u buf ++ take (64 - u) d).
  { unfold b. rewrite write_after, drop_ge, app_nil_r; [done|].
    rewrite length_take. lia. }
  rewrite <- Hb in Ha.
  assert (length b = 64) as Hlb.
  { rewrite Hb, length_app, Hu, length_take. lia. }
  pose proof (leftover_short d').
  eapply holds_intro; [|exact Ha|].
  - rewrite length_write; [done|]. change (drop _ d') with (leftover d'). lia.
  - apply take_write_0.
Qed.

(** On a block boundary the full blocks are compressed where they are. *)
Lemma holds_boundary st0 m st buf d :
  holds st0 m st buf -> length m mod 64 = 0 ->
  holds st0 (m ++ d) (absorb (full d) st d) (write 0 (leftover d) buf).
Proof.
  intros [Hl Ha] H0. rewrite H0 in Ha. apply (absorbed_app _ _ _ _ d) in Ha. cbn in Ha.
  pose proof (leftover_short d). eapply holds_intro; [|exact Ha|].
  - rewrite length_write; lia.
  - apply take_write_0.
Qed.

(** ** The last blocks *)

Lemma absorb_one st b : length b = 64 -> absorb 1 st b = compress st b.
Proof. intros. cbn. by rewrite take_ge by lia. Qed.

(** A padding [p] that ends the block the buffer holds. *)
Lemma holds_last st0 m st buf p :
  let u := length m mod 64 in
  holds st0 m st buf -> u + length p = 64 ->
  absorb (full (m ++ p)) st0 (m ++ p) = compress st (take u buf ++ p).
Proof.
  intros u Hh Hp. pose proof (holds_used _ _ _ _ Hh) as Hu. destruct Hh as [Hl Ha].
  fold u in Hu, Ha. apply (absorbed_app _ _ _ _ p) in Ha as [Hst _]. rewrite <- Hst.
  assert (length (take u buf ++ p) = 64) by (rewrite length_app; lia).
  replace (full (take u buf ++ p)) with 1 by (symmetry; apply full_unique; lia).
  by apply absorb_one.
Qed.

(** A padding [p ++ q] that needs one more block, [q]. *)
Lemma holds_last2 st0 m st buf p q :
  let u := length m mod 64 in
  holds st0 m st buf -> u + length p = 64 -> length q = 64 ->
  absorb (full (m ++ p ++ q)) st0 (m ++ p ++ q)
  = compress (compress st (take u buf ++ p)) q.
Proof.
  intros u Hh Hp Hq. pose proof (holds_used _ _ _ _ Hh) as Hu. destruct Hh as [Hl Ha].
  fold u in Hu, Ha. apply (absorbed_app _ _ _ _ (p ++ q)) in Ha as [Hst _]. rewrite <- Hst.
  assert (length (take u buf ++ p) = 64) as H64 by (rewrite length_app; lia).
  replace (full (take u buf ++ p ++ q)) with 2
    by (symmetry; apply full_unique; rewrite !length_app in *; lia).
  rewrite app_assoc. cbn [absorb]. rewrite take_app_le, take_ge by lia.
  rewrite drop_app_ge by lia. by rewrite H64, Nat.sub_diag, drop_0, (take_ge q) by lia.
Qed.
End Absorb.

(** Compression functions that agree on blocks of bytes, under an invariant of
    the state and up to a change of representation, agree on messages. *)
Lemma absorb_map {St1 St2} (c1 : Compression St1) (c2 : Compression St2)
    (inv : St1 -> Prop) (f : St1 -> St2) n st m :
  (forall st b, inv st -> length b = 64 -> bytes_ok b ->
     inv (c1 st b) /\ f (c1 st b) = c2 (f st) b) ->
  inv st -> bytes_ok m -> 64 * n <= length m ->
  f (@absorb St1 c1 n st m) = @absorb St2 c2 n (f st) m.
Proof.
  intros Hc. revert st m. induction n as [|n IH]; intros st m Hi Hm Hl; cbn [absorb]; [done|].
  unfold compress. destruct (Hc st (take 64 m)) as [Hi' Hf];
    [done|rewrite length_take; lia|by apply Forall_take|].
  rewrite <- Hf. apply IH; [done|by apply Forall_drop|rewrite length_drop; lia].
Qed.

(** ** Merkle-Damgard padding: one bit, zeros, and eight bytes of length *)
Definition padding (len : nat) (tail : list Z) : list Z :=
  0x80%Z :: replicate ((119 - len mod 64) mod 64) 0%Z ++ tail.

Lemma padding_short len tail :
  len mod 64 < 56 -> padding len tail = 0x80%Z :: replicate (55 - len mod 64) 0%Z ++ tail.
Proof.
  intros. unfold padding. do 3 f_equal.
  replace (119 - len mod 64) with (55 - len mod 64 + 1 * 64) by lia.
  rewrite Nat.Div0.mod_add. apply Nat.mod_small. lia.
Qed.

Lemma padding_long len tail :
  56 <= len mod 64 ->
  padding len tail = (0x80%Z :: replicate (63 - len mod 64) 0%Z) ++ replicate 56 0%Z ++ tail.
Proof.
  intros. unfold padding. pose proof (Nat.mod_upper_bound len 64).
  rewrite Nat.mod_small by lia. cbn [app]. f_equal.
  rewrite app_assoc, <- replicate_add. do 2 f_equal. lia.
Qed.
