(* ===== verification/Md5.v ===== *)
(** * MD5 as mkhash.c computes it

    Models the MD5 half of [scripts/mkhash.c]: the basic functions and [STEP],
    the 64 steps of [MD5_body], and the buffering of [MD5_begin], [MD5_hash] and
    [MD5_end]. 32-bit words are integers below 2^32, memory is a list of bytes. *)

From Stdlib Require Import ZArith Lia.
From stdpp Require Import base list numbers.
From S2P Require Import Prelude Blocks.

(** The chaining variables of [MD5_CTX], and the whole context. *)
Record md5_regs := Md5Regs { ra : Z; rb : Z; rc : Z; rd : Z }.
Record MD5_CTX := Md5Ctx { lo : Z; hi : Z; regs : md5_regs; buffer : list Z }.

Definition F (x y z : Z) : Z := Z.lxor z (Z.land x (Z.lxor y z)).
Definition G (x y z : Z) : Z := Z.lxor y (Z.land z (Z.lxor x y)).
Definition H (x y z : Z) : Z := Z.lxor (Z.lxor x y) z.
Definition H2 (x y z : Z) : Z := Z.lxor x (Z.lxor y z).
Definition I (x y z : Z) : Z := Z.lxor y (Z.lor x (not_w 32 z)).

(** [STEP(f, a, b, c, d, x, t, s)]: the new value of [a]. *)
Definition STEP (f : Z -> Z -> Z -> Z) (a b c d x t s : Z) : Z :=
  let a := u32 (a + u32 (u32 (f b c d + x) + t)) in
  let a := Z.lor (u32 (Z.shiftl a s)) (Z.shiftr (Z.land a 0xffffffff) (32 - s)) in
  u32 (a + b).

(** [SET(n)], which [GET(n)] repeats: the [n]-th word of the block, loaded on a
    little-endian host and put together from its bytes on a big-endian one. *)
Definition SET (e : endian) (ptr : list Z) (n : nat) : Z :=
  match e with
  | LE => load LE (slice (n * 4) 4 ptr)
  | BE =>
      let byte k := ptr !!! (n * 4 + k)%nat in
      Z.lor (Z.lor (Z.lor (byte 0%nat) (u32 (Z.shiftl (byte 1%nat) 8)))
        (u32 (Z.shiftl (byte 2%nat) 16))) (u32 (Z.shiftl (byte 3%nat) 24))
  end.

(** The steps of the four rounds: function, word, constant, rotation. The
    registers rotate by one place from each step to the next. *)
Definition md5_steps : list ((Z -> Z -> Z -> Z) * nat * Z * Z) :=
  [(F, 0%nat, 0xd76aa478, 7); (F, 1%nat, 0xe8c7b756, 12);
   (F, 2%nat, 0x242070db, 17); (F, 3%nat, 0xc1bdceee, 22);
   (F, 4%nat, 0xf57c0faf, 7); (F, 5%nat, 0x4787c62a, 12);
   (F, 6%nat, 0xa8304613, 17); (F, 7%nat, 0xfd469501, 22);
   (F, 8%nat, 0x698098d8, 7); (F, 9%nat, 0x8b44f7af, 12);
   (F, 10%nat, 0xffff5bb1, 17); (F, 11%nat, 0x895cd7be, 22);
   (F, 12%nat, 0x6b901122, 7); (F, 13%nat, 0xfd987193, 12);
   (F, 14%nat, 0xa679438e, 17); (F, 15%nat, 0x49b40821, 22);

   (G, 1%nat, 0xf61e2562, 5); (G, 6%nat, 0xc040b340, 9);
   (G, 11%nat, 0x265e5a51, 14); (G, 0%nat, 0xe9b6c7aa, 20);
   (G, 5%nat, 0xd62f105d, 5); (G, 10%nat, 0x02441453, 9);
   (G, 15%nat, 0xd8a1e681, 14); (G, 4%nat, 0xe7d3fbc8, 20);
   (G, 9%nat, 0x21e1cde6, 5); (G, 14%nat, 0xc33707d6, 9);
   (G, 3%nat, 0xf4d50d87, 14); (G, 8%nat, 0x455a14ed, 20);
   (G, 13%nat, 0xa9e3e905, 5); (G, 2%nat, 0xfcefa3f8, 9);
   (G, 7%nat, 0x676f02d9, 14); (G, 12%nat, 0x8d2a4c8a, 20);

   (H, 5%nat, 0xfffa3942, 4); (H2, 8%nat, 0x8771f681, 11);
   (H, 11%nat, 0x6d9d6122, 16); (H2, 14%nat, 0xfde5380c, 23);
   (H, 1%nat, 0xa4beea44, 4); (H2, 4%nat, 0x4bdecfa9, 11);
   (H, 7%nat, 0xf6bb4b60, 16); (H2, 10%nat, 0xbebfbc70, 23);
   (H, 13%nat, 0x289b7ec6, 4); (H2, 0%nat, 0xeaa127fa, 11);
   (H, 3%nat, 0xd4ef3085, 16); (H2, 6%nat, 0x04881d05, 23);
   (H, 9%nat, 0xd9d4d039, 4); (H2, 12%nat, 0xe6db99e5, 11);
   (H, 15%nat, 0x1fa27cf8, 16); (H2, 2%nat, 0xc4ac5665, 23);

   (I, 0%nat, 0xf4292244, 6); (I, 7%nat, 0x432aff97, 10);
   (I, 14%nat, 0xab9423a7, 15); (I, 5%nat, 0xfc93a039, 21);
   (I, 12%nat, 0x655b59c3, 6); (I, 3%nat, 0x8f0ccc92, 10);
   (I, 10%nat, 0xffeff47d, 15); (I, 1%nat, 0x85845dd1, 21);
   (I, 8%nat, 0x6fa87e4f, 6); (I, 15%nat, 0xfe2ce6e0, 10);
   (I, 6%nat, 0xa3014314, 15); (I, 13%nat, 0x4e0811a1, 21);
   (I, 4%nat, 0xf7537e82, 6); (I, 11%nat, 0xbd3af235, 10);
   (I, 2%nat, 0x2ad7d2bb, 15); (I, 9%nat, 0xeb86d391, 21)].

Section Host.
Context (e : endian).

(** One step on the registers in the order the macro names them. *)
Definition md5_step (ptr : list Z) (r : md5_regs) (row : (Z -> Z -> Z -> Z) * nat * Z * Z)
    : md5_regs :=
  let '(f, n, t, s) := row in
  Md5Regs (rd r) (STEP f (ra r) (rb r) (rc r) (rd r) (SET e ptr n) t s) (rb r) (rc r).

(** One iteration of the loop of [MD5_body]. *)
Definition md5_block (r : md5_regs) (ptr : list Z) : md5_regs :=
  let r' := foldl (md5_step ptr) r md5_steps in
  Md5Regs (u32 (ra r' + ra r)) (u32 (rb r' + rb r)) (u32 (rc r' + rc r)) (u32 (rd r' + rd r)).

#[local] Instance md5_compression : Compression md5_regs := md5_block.

Definition with_regs (r : md5_regs) (c : MD5_CTX) : MD5_CTX := Md5Ctx (lo c) (hi c) r (buffer c).
Definition with_buffer (b : list Z) (c : MD5_CTX) : MD5_CTX := Md5Ctx (lo c) (hi c) (regs c) b.

(** [do ... while (size -= 64)], for the positive multiples of 64 it is called
    with: the new context and the pointer behind the data. *)
Definition MD5_body (ctx : MD5_CTX) (data : list Z) (size : nat) : MD5_CTX * list Z :=
  (with_regs (absorb (size / 64) (regs ctx) data) ctx, drop size data).

(** The buffer of a fresh context is indeterminate. *)
Definition MD5_begin (garbage : list Z) : MD5_CTX :=
  Md5Ctx 0 0 (Md5Regs 0x67452301 0xefcdab89 0x98badcfe 0x10325476) garbage.

(** The two length words after [size] more bytes. *)
Definition md5_count (saved_lo saved_hi size : Z) : Z * Z :=
  let lo' := Z.land (saved_lo + size) 0x1fffffff in
  let hi' := if lo' <? saved_lo then u32 (saved_hi + 1) else saved_hi in
  (lo', u32 (hi' + Z.shiftr size 29)).

Definition MD5_hash (data : list Z) (ctx : MD5_CTX) : MD5_CTX :=
  let size := length data in
  let saved_lo := lo ctx in
  let '(lo', hi') := md5_count saved_lo (hi ctx) (Z.of_nat size) in
  let ctx := Md5Ctx lo' hi' (regs ctx) (buffer ctx) in
  let used := Z.to_nat (Z.land saved_lo 0x3f) in
  let available := (64 - used)%nat in
  if negb (used =? 0)%nat && (size <? available)%nat then
    with_buffer (write used data (buffer ctx)) ctx
  else
    let '(ctx, data) :=
      if (used =? 0)%nat then (ctx, data)
      else
        let ctx := with_buffer (write used (take available data) (buffer ctx)) ctx in
        (fst (MD5_body ctx (buffer ctx) 64), drop available data) in
    let size := length data in
    let '(ctx, data) :=
      if (64 <=? size)%nat then MD5_body ctx data (size / 64 * 64) else (ctx, data) in
    with_buffer (write 0 data (buffer ctx)) ctx.

(** The 16 result bytes. *)
Definition md5_result (r : md5_regs) : list Z :=
  le_bytes 4 (ra r) ++ le_bytes 4 (rb r) ++ le_bytes 4 (rc r) ++ le_bytes 4 (rd r).

(** The digest; the context is wiped and not used again. *)
Definition MD5_end (ctx : MD5_CTX) : list Z :=
  let used := Z.to_nat (Z.land (lo ctx) 0x3f) in
  let ctx := with_buffer (write used [0x80] (buffer ctx)) ctx in
  let used := S used in
  let available := (64 - used)%nat in
  let '(ctx, used, available) :=
    if (available <? 8)%nat then
      let ctx := with_buffer (write used (replicate available 0) (buffer ctx)) ctx in
      (fst (MD5_body ctx (buffer ctx) 64), 0%nat, 64%nat)
    else (ctx, used, available) in
  let b := write used (replicate (available - 8) 0) (buffer ctx) in
  let lo3 := u32 (Z.shiftl (lo ctx) 3) in
  let b := write 56 (le_bytes 4 lo3) b in
  let b := write 60 (le_bytes 4 (hi ctx)) b in
  let ctx := with_buffer b ctx in
  md5_result (regs (fst (MD5_body ctx (buffer ctx) 64))).
End Host.
