(* ===== verification/Sha256.v ===== *)
(** * SHA-256 as mkhash.c computes it

    Models the SHA-256 half of [scripts/mkhash.c]: the byte-order helpers, the
    compression function [SHA256_Transform] on its rotating array of working
    variables, and the buffering of [SHA256_Init], [SHA256_Update], [SHA256_Pad]
    and [SHA256_Final]. *)

From Stdlib Require Import ZArith Lia.
From stdpp Require Import base list numbers.
From S2P Require Import Prelude Blocks.

(** ** Byte order *)

Definition be32enc (u : Z) : list Z :=
  [Z.land (Z.shiftr u 24) 0xff; Z.land (Z.shiftr u 16) 0xff;
   Z.land (Z.shiftr u 8) 0xff; Z.land u 0xff].

Definition be64enc (u : Z) : list Z :=
  be32enc (u32 (Z.shiftr u 32)) ++ be32enc (Z.land u 0xffffffff).

Definition be16dec (p : list Z) : Z := Z.lor (Z.shiftl (p !!! 0%nat) 8) (p !!! 1%nat).

Definition be32dec (p : list Z) : Z :=
  Z.lor (u32 (Z.shiftl (be16dec p) 16)) (be16dec (drop 2 p)).

(** The vectors of words: [memcpy] on a big-endian host, a loop otherwise. *)
Definition be32enc_vect (e : endian) (src : list Z) (len : nat) : list Z :=
  match e with
  | BE => concat (map (store BE 4) (take (len / 4) src))
  | LE => concat (map (fun i => be32enc (src !!! i)) (seq 0 (len / 4)))
  end.

Definition be32dec_vect (e : endian) (src : list Z) (len : nat) : list Z :=
  match e with
  | BE => map (fun i => load BE (slice (i * 4) 4 src)) (seq 0 (len / 4))
  | LE => map (fun i => be32dec (drop (i * 4) src)) (seq 0 (len / 4))
  end.

(** ** The compression function *)

Definition Ch (x y z : Z) : Z := Z.lxor (Z.land x (Z.lxor y z)) z.
Definition Maj (x y z : Z) : Z := Z.lor (Z.land x (Z.lor y z)) (Z.land y z).
Definition ROTR (x n : Z) : Z := Z.lor (Z.shiftr x n) (u32 (Z.shiftl x (32 - n))).

Definition S0 (x : Z) : Z := Z.lxor (Z.lxor (ROTR x 2) (ROTR x 13)) (ROTR x 22).
Definition S1 (x : Z) : Z := Z.lxor (Z.lxor (ROTR x 6) (ROTR x 11)) (ROTR x 25).
Definition s0 (x : Z) : Z := Z.lxor (Z.lxor (ROTR x 7) (ROTR x 18)) (Z.shiftr x 3).
Definition s1 (x : Z) : Z := Z.lxor (Z.lxor (ROTR x 17) (ROTR x 19)) (Z.shiftr x 10).

(** One line of the table. *)
Definition k4 (a b c d : Z) : list Z := [a; b; c; d].

Definition K : list Z :=
  k4 0x428a2f98 0x71374491 0xb5c0fbcf 0xe9b5dba5
  ++ k4 0x3956c25b 0x59f111f1 0x923f82a4 0xab1c5ed5
  ++ k4 0xd807aa98 0x12835b01 0x243185be 0x550c7dc3
  ++ k4 0x72be5d74 0x80deb1fe 0x9bdc06a7 0xc19bf174
  ++ k4 0xe49b69c1 0xefbe4786 0x0fc19dc6 0x240ca1cc
  ++ k4 0x2de92c6f 0x4a7484aa 0x5cb0a9dc 0x76f988da
  ++ k4 0x983e5152 0xa831c66d 0xb00327c8 0xbf597fc7
  ++ k4 0xc6e00bf3 0xd5a79147 0x06ca6351 0x14292967
  ++ k4 0x27b70a85 0x2e1b2138 0x4d2c6dfc 0x53380d13
  ++ k4 0x650a7354 0x766a0abb 0x81c2c92e 0x92722c85
  ++ k4 0xa2bfe8a1 0xa81a664b 0xc24b8b70 0xc76c51a3
  ++ k4 0xd192e819 0xd6990624 0xf40e3585 0x106aa070
  ++ k4 0x19a4c116 0x1e376c08 0x2748774c 0x34b0bcb5
  ++ k4 0x391c0cb3 0x4ed8aa4a 0x5b9cca4f 0x682e6ff3
  ++ k4 0x748f82ee 0x78a5636f 0x84c87814 0x8cc70208
  ++ k4 0x90befffa 0xa4506ceb 0xbef9a3f7 0xc67178f2.

(** [RND] on the array [S], whose entries [a] ... [h] are given by their index. *)
Definition RND (S : list Z) (a b c d e f g h : nat) (k : Z) : list Z :=
  let hv := u32 (S !!! h + u32 (u32 (S1 (S !!! e) + Ch (S !!! e) (S !!! f) (S !!! g)) + k)) in
  let S := <[h := hv]> S in
  let S := <[d := u32 (S !!! d + S !!! h)]> S in
  <[h := u32 (S !!! h + u32 (S0 (S !!! a) + Maj (S !!! a) (S !!! b) (S !!! c)))]> S.

Definition RNDr (S W : list Z) (i ii : nat) : list Z :=
  RND S ((64 - i) mod 8) ((65 - i) mod 8) ((66 - i) mod 8) ((67 - i) mod 8)
    ((68 - i) mod 8) ((69 - i) mod 8) ((70 - i) mod 8) ((71 - i) mod 8)
    (u32 (W !!! (i + ii)%nat + K !!! (i + ii)%nat)).

Definition MSCH (W : list Z) (ii i : nat) : list Z :=
  <[(i + ii + 16)%nat :=
      u32 (u32 (u32 (s1 (W !!! (i + ii + 14)%nat) + W !!! (i + ii + 9)%nat)
        + s0 (W !!! (i + ii + 1)%nat)) + W !!! (i + ii)%nat)]> W.

(** One iteration of the mixing loop; the last one breaks out before it extends
    the schedule. *)
Definition mix16 (SW : list Z * list Z) (ii : nat) : list Z * list Z :=
  let W := snd SW in
  let S := foldl (fun S i => RNDr S W i ii) (fst SW) (seq 0 16) in
  if (ii =? 48)%nat then (S, W) else (S, foldl (fun W i => MSCH W ii i) W (seq 0 16)).

Definition PAD : list Z := 0x80 :: replicate 63 0.

Record SHA256_CTX := Sha256Ctx { state : list Z; count : Z; buf : list Z }.

Definition SHA256_Init (garbage : list Z) : SHA256_CTX :=
  Sha256Ctx [0x6A09E667; 0xBB67AE85; 0x3C6EF372; 0xA54FF53A;
             0x510E527F; 0x9B05688C; 0x1F83D9AB; 0x5BE0CD19] 0 garbage.

(** A host: its byte order, and what the local array [W] holds before it is
    written. *)
Section Host.
Context (e : endian) (W0 : list Z).

Definition SHA256_Transform (state block : list Z) : list Z :=
  let W := be32dec_vect e block 64 ++ drop 16 W0 in
  let S := fst (foldl mix16 (state, W) [0; 16; 32; 48]%nat) in
  zip_with (fun x y => u32 (x + y)) state S.

#[local] Instance sha256_compression : Compression (list Z) := SHA256_Transform.

Definition buffered (ctx : SHA256_CTX) : nat := Z.to_nat (Z.land (Z.shiftr (count ctx) 3) 0x3f).

(** The length in bits is [len << 3] on [size_t], here of 64 bits; where [size_t] has 32, it
    wraps for calls with 512 megabytes or more. *)
Definition SHA256_Update (data : list Z) (ctx : SHA256_CTX) : SHA256_CTX :=
  let r := buffered ctx in
  let bitlen := u64 (Z.shiftl (Z.of_nat (length data)) 3) in
  let count := u64 (count ctx + bitlen) in
  if (length data <? 64 - r)%nat then
    Sha256Ctx (state ctx) count (write r data (buf ctx))
  else
    let buf := write r (take (64 - r) data) (buf ctx) in
    let state := SHA256_Transform (state ctx) buf in
    let src := drop (64 - r) data in
    let n := (length src / 64)%nat in
    Sha256Ctx (absorb n state src) count (write 0 (drop (64 * n) src) buf).

Definition SHA256_Pad (ctx : SHA256_CTX) : SHA256_CTX :=
  let r := buffered ctx in
  let '(state, buf) :=
    if (r <? 56)%nat then (state ctx, write r (take (56 - r) PAD) (buf ctx))
    else
      let buf := write r (take (64 - r) PAD) (buf ctx) in
      (SHA256_Transform (state ctx) buf, write 0 (replicate 56 0) buf) in
  let buf := write 56 (be64enc (count ctx)) buf in
  Sha256Ctx (SHA256_Transform state buf) (count ctx) buf.

(** The digest; the context is wiped and not used again. *)
Definition SHA256_Final (ctx : SHA256_CTX) : list Z :=
  be32enc_vect e (state (SHA256_Pad ctx)) 32.
End Host.
