(* ===== verification/HashSpec.v ===== *)
(** * MD5 and SHA-256 by the book

    Reference definitions on whole messages, written from RFC 1321 and FIPS 180-4
    and not from the C: the round functions on the complement [~x], the word and
    rotation schedules by their formulas, the message schedule as a growing list,
    and the padding as a suffix of the message. *)

From Stdlib Require Import ZArith Lia.
From stdpp Require Import base list numbers.
From S2P Require Import Prelude Blocks.

(** [x <<< n] on 32-bit words. *)
Definition rotl (x n : Z) : Z := Z.lor (u32 (Z.shiftl x n)) (Z.shiftr x (32 - n)).

(** [~x & y] is [Z.ldiff y x]. *)

(** ** RFC 1321 *)
Module Rfc1321.
Definition F (x y z : Z) : Z := Z.lor (Z.land x y) (Z.ldiff z x).
Definition G (x y z : Z) : Z := Z.lor (Z.land x z) (Z.ldiff y z).
Definition H (x y z : Z) : Z := Z.lxor (Z.lxor x y) z.
Definition I (x y z : Z) : Z := Z.lxor y (Z.lor x (not_w 32 z)).

(** [floor (2^32 * abs (sin (i + 1)))]. *)
Definition T : list Z :=
  [0xd76aa478; 0xe8c7b756; 0x242070db; 0xc1bdceee; 0xf57c0faf; 0x4787c62a; 0xa8304613;
   0xfd469501; 0x698098d8; 0x8b44f7af; 0xffff5bb1; 0x895cd7be; 0x6b901122; 0xfd987193;
   0xa679438e; 0x49b40821; 0xf61e2562; 0xc040b340; 0x265e5a51; 0xe9b6c7aa; 0xd62f105d;
   0x02441453; 0xd8a1e681; 0xe7d3fbc8; 0x21e1cde6; 0xc33707d6; 0xf4d50d87; 0x455a14ed;
   0xa9e3e905; 0xfcefa3f8; 0x676f02d9; 0x8d2a4c8a; 0xfffa3942; 0x8771f681; 0x6d9d6122;
   0xfde5380c; 0xa4beea44; 0x4bdecfa9; 0xf6bb4b60; 0xbebfbc70; 0x289b7ec6; 0xeaa127fa;
   0xd4ef3085; 0x04881d05; 0xd9d4d039; 0xe6db99e5; 0x1fa27cf8; 0xc4ac5665; 0xf4292244;
   0x432aff97; 0xab9423a7; 0xfc93a039; 0x655b59c3; 0x8f0ccc92; 0xffeff47d; 0x85845dd1;
   0x6fa87e4f; 0xfe2ce6e0; 0xa3014314; 0x4e0811a1; 0xf7537e82; 0xbd3af235; 0x2ad7d2bb;
   0xeb86d391].

Definition round_fn (i : nat) : Z -> Z -> Z -> Z :=
  match (i / 16)%nat with 0%nat => F | 1%nat => G | 2%nat => H | _ => I end.

Definition word_index (i : nat) : nat :=
  match (i / 16)%nat with
  | 0%nat => i
  | 1%nat => (5 * i + 1) mod 16
  | 2%nat => (3 * i + 5) mod 16
  | _ => (7 * i) mod 16
  end.

Definition rotation (i : nat) : Z :=
  ([[7; 12; 17; 22]; [5; 9; 14; 20]; [4; 11; 16; 23]; [6; 10; 15; 21]]
     !!! (i / 16)%nat) !!! (i mod 4)%nat.

Definition regs : Type := Z * Z * Z * Z.

Definition operation (X : list Z) (r : regs) (i : nat) : regs :=
  let '(a, b, c, d) := r in
  let t := u32 (a + round_fn i b c d + X !!! word_index i + T !!! i) in
  (d, u32 (b + rotl t (rotation i)), b, c).

(** The 16 little-endian words of a block. *)
Definition words (block : list Z) : list Z :=
  map (fun n => le_val (slice (n * 4) 4 block)) (seq 0 16).

Definition compression (r : regs) (block : list Z) : regs :=
  let '(a', b', c', d') := foldl (operation (words block)) r (seq 0 64) in
  let '(a, b, c, d) := r in (u32 (a + a'), u32 (b + b'), u32 (c + c'), u32 (d + d')).

Definition initial : regs := (0x67452301, 0xefcdab89, 0x98badcfe, 0x10325476).

(** The length is counted in bits, modulo 2^64. *)
Definition pad (m : list Z) : list Z :=
  m ++ padding (length m) (le_bytes 8 (8 * Z.of_nat (length m))).

Definition md5 (m : list Z) : list Z :=
  let '(a, b, c, d) := @absorb _ compression (full (pad m)) initial (pad m) in
  le_bytes 4 a ++ le_bytes 4 b ++ le_bytes 4 c ++ le_bytes 4 d.
End Rfc1321.

(** ** FIPS 180-4 *)
Module Fips180.
Definition rotr (x n : Z) : Z := rotl x (32 - n).

Definition Ch (x y z : Z) : Z := Z.lxor (Z.land x y) (Z.ldiff z x).
Definition Maj (x y z : Z) : Z := Z.lxor (Z.lxor (Z.land x y) (Z.land x z)) (Z.land y z).
Definition Sigma0 (x : Z) : Z := Z.lxor (Z.lxor (rotr x 2) (rotr x 13)) (rotr x 22).
Definition Sigma1 (x : Z) : Z := Z.lxor (Z.lxor (rotr x 6) (rotr x 11)) (rotr x 25).
Definition sigma0 (x : Z) : Z := Z.lxor (Z.lxor (rotr x 7) (rotr x 18)) (Z.shiftr x 3).
Definition sigma1 (x : Z) : Z := Z.lxor (Z.lxor (rotr x 17) (rotr x 19)) (Z.shiftr x 10).

(** The first [n] primes from [k] on. *)
Definition is_prime (k : Z) : bool :=
  forallb (fun d => negb (k mod d =? 0)) (map Z.of_nat (seq 2 (Z.to_nat k - 2))).

Definition primes : list Z :=
  take 64 (List.filter is_prime (map Z.of_nat (seq 2 310))).

(** Greatest [r] below [2 ^ bits] with [r ^ e <= x], bit by bit. *)
Fixpoint root (e x : Z) (bits : nat) (r : Z) : Z :=
  match bits with
  | O => r
  | S b => let r' := r + 2 ^ Z.of_nat b in root e x b (if r' ^ e <=? x then r' else r)
  end.

(** First 32 bits of the fractional part of the [e]-th root of [p]. *)
Definition root_fraction (e p : Z) : Z := root e (p * 2 ^ (32 * e)) 40 0 mod 2 ^ 32.

Definition K : list Z := map (root_fraction 3) primes.
Definition initial : list Z := map (root_fraction 2) (take 8 primes).

(** The 16 big-endian words of a block, and the schedule they start. *)
Definition words (block : list Z) : list Z :=
  map (fun n => be_val (slice (n * 4) 4 block)) (seq 0 16).

Definition extend (w : list Z) : list Z :=
  let t := length w in
  w ++ [u32 (sigma1 (w !!! (t - 2)%nat) + w !!! (t - 7)%nat
             + sigma0 (w !!! (t - 15)%nat) + w !!! (t - 16)%nat)].

Definition schedule (block : list Z) : list Z := Nat.iter 48 extend (words block).

(** Working variables [a] to [h]; one round with its word plus constant. *)
Definition round (v : list Z) (wk : Z) : list Z :=
  match v with
  | [a; b; c; d; e; f; g; h] =>
      let T1 := h + Sigma1 e + Ch e f g + wk in
      let T2 := Sigma0 a + Maj a b c in
      [u32 (T1 + T2); a; b; c; u32 (d + T1); e; f; g]
  | _ => v
  end.

Definition compression (h : list Z) (block : list Z) : list Z :=
  zip_with (fun x y => u32 (x + y)) h
    (foldl round h (zip_with Z.add (schedule block) K)).

Definition pad (m : list Z) : list Z :=
  m ++ padding (length m) (be_bytes 8 (8 * Z.of_nat (length m))).

Definition sha256 (m : list Z) : list Z :=
  concat (map (be_bytes 4) (@absorb _ compression (full (pad m)) initial (pad m))).
End Fips180.
