(* ===== verification/Md5Proofs.v ===== *)
(** * The MD5 of mkhash.c is RFC 1321

    The optimised round functions and the word order of the unrolled rounds
    against their formulas, then the buffering: however a message is cut into
    calls of [MD5_hash], [MD5_end] gives the digest of the whole. *)

From Stdlib Require Import ZArith Lia.
From stdpp Require Import base list numbers.
From S2P Require Import Prelude Bits Blocks Md5 HashSpec.

(** ** The basic functions *)

Ltac bitblast :=
  apply Z.bits_inj'; intros ? ?;
  rewrite ?Z.lxor_spec, ?Z.lor_spec, ?Z.land_spec, ?Z.ldiff_spec,
    ?Z.lxor_spec, ?Z.lor_spec, ?Z.land_spec;
  repeat match goal with |- context [Z.testbit ?x ?i] => destruct (Z.testbit x i) end;
  reflexivity.

Lemma F_rfc x y z : F x y z = Rfc1321.F x y z.
Proof. unfold F, Rfc1321.F. bitblast. Qed.

Lemma G_rfc x y z : G x y z = Rfc1321.G x y z.
Proof. unfold G, Rfc1321.G. bitblast. Qed.

Lemma H2_rfc x y z : H2 x y z = Rfc1321.H x y z.
Proof. unfold H2, Rfc1321.H. bitblast. Qed.

(** ** Words *)

Lemma lor_shift_add lo hi k n :
  0 <= lo < 2 ^ k -> 0 <= hi -> n = k -> 0 <= k -> Z.lor lo (Z.shiftl hi n) = lo + 2 ^ k * hi.
Proof.
  intros Hl Hh -> Hk. rewrite Z.shiftl_mul_pow2, Z.mul_comm by done. symmetry.
  assert (Z.land lo (2 ^ k * hi) = 0) as E.
  { apply Z.bits_inj'. intros i Hi. rewrite Z.land_spec, Z.bits_0.
    destruct (Z.ltb_spec i k).
    - by rewrite Z.mul_comm, Z.mul_pow2_bits_low, andb_false_r.
    - by rewrite (testbit_out_of_range lo k). }
  rewrite Z.add_nocarry_lxor by done. by apply Z.lxor_lor.
Qed.

Lemma slice_bytes n l : (4 * n + 4 <= length l)%nat ->
  slice (n * 4) 4 l = map (fun k => l !!! (n * 4 + k)%nat) [0; 1; 2; 3]%nat.
Proof.
  intros Hl. unfold slice.
  assert (forall k (r : list Z), length r = (4 + k)%nat ->
    take 4 r = map (fun i => r !!! i) [0; 1; 2; 3]%nat) as E.
  { intros k r Hr. destruct r as [|? [|? [|? [|? ?]]]]; cbn in Hr; try lia. done. }
  rewrite (E (length l - n * 4 - 4)%nat) by (rewrite length_drop; lia).
  cbn [map]. by rewrite !lookup_total_drop.
Qed.

(** Both ways of reading a word of the block give the little-endian word. *)
Lemma SET_le e ptr n :
  bytes_ok ptr -> (4 * n + 4 <= length ptr)%nat -> SET e ptr n = le_val (slice (n * 4) 4 ptr).
Proof.
  intros Hp Hl. destruct e; [done|]. unfold SET. rewrite slice_bytes by done.
  assert (forall k, (k < 4)%nat -> is_byte (ptr !!! (n * 4 + k)%nat)) as Hb.
  { intros k Hk. rewrite Forall_lookup in Hp.
    eapply Hp. apply list_lookup_lookup_total_lt. lia. }
  pose proof (Hb 0%nat) as H0. pose proof (Hb 1%nat) as H1.
  pose proof (Hb 2%nat) as H2. pose proof (Hb 3%nat) as H3. clear Hb.
  cbn [map le_val]. unfold is_byte in *.
  assert (forall x s, 0 <= x < 256 -> 0 <= s <= 24 -> u32 (Z.shiftl x s) = Z.shiftl x s) as E.
  { intros x s Hx Hs. apply wrap_small. rewrite Z.shiftl_mul_pow2 by lia.
    assert (2 ^ s <= 2 ^ 24) by (apply Z.pow_le_mono_r; lia).
    change (2 ^ 32) with (256 * 2 ^ 24). nia. }
  rewrite !E by lia.
  rewrite (lor_shift_add _ _ 8 8) by lia.
  rewrite (lor_shift_add _ _ 16 16) by lia.
  rewrite (lor_shift_add _ _ 24 24) by lia. lia.
Qed.

(** ** One block *)

Definition tuple (r : md5_regs) : Rfc1321.regs := (ra r, rb r, rc r, rd r).

Lemma STEP_rfc f b c d a x t s :
  u32 (b + rotl (u32 (a + f b c d + x + t)) s) = STEP f a b c d x t s.
Proof.
  unfold STEP, rotl. change 0xffffffff with (Z.ones 32). rewrite Z.land_ones by lia.
  fold (wrap 32 (u32 (a + u32 (u32 (f b c d + x) + t)))).
  rewrite wrap_wrap by lia. rewrite wrap_add_l, wrap_add_r, !Z.add_assoc.
  by rewrite (Z.add_comm b).
Qed.

(** A row of [md5_steps] is operation [i] of the RFC. *)
Definition row_ok (row : (Z -> Z -> Z -> Z) * nat * Z * Z) (i : nat) : Prop :=
  let '(f, n, t, s) := row in
  (forall x y z, Rfc1321.round_fn i x y z = f x y z) /\ n = Rfc1321.word_index i /\
  (n < 16)%nat /\ t = Rfc1321.T !!! i /\ s = Rfc1321.rotation i.

Lemma md5_rows_ok : Forall2 row_ok md5_steps (seq 0 64).
Proof.
  unfold md5_steps. cbn [seq].
  repeat constructor; intros; cbn; unfold I, H, Rfc1321.I, Rfc1321.H;
    auto using eq_sym, F_rfc, G_rfc, H2_rfc.
Qed.

Lemma words_lookup block n : (n < 16)%nat ->
  Rfc1321.words block !!! n = le_val (slice (n * 4) 4 block).
Proof.
  intros Hn. unfold Rfc1321.words. rewrite list_lookup_total_alt, list_lookup_fmap.
  by rewrite lookup_seq_lt by lia.
Qed.

Lemma md5_step_rfc e ptr r row i :
  bytes_ok ptr -> length ptr = 64%nat -> row_ok row i ->
  tuple (md5_step e ptr r row) = Rfc1321.operation (Rfc1321.words ptr) (tuple r) i.
Proof.
  destruct row as [[[f n] t] s]. intros Hp Hl (Hf & -> & Hn & -> & ->).
  destruct r as [a b c d]. unfold tuple, md5_step, Rfc1321.operation. cbn [ra rb rc rd].
  rewrite words_lookup, SET_le by (auto; lia). rewrite <- STEP_rfc, Hf. done.
Qed.

Lemma foldl_rel {A1 A2 B1 B2} (R : A1 -> A2 -> Prop) (P : B1 -> B2 -> Prop) f g l1 l2 a1 a2 :
  (forall a1 a2 b1 b2, R a1 a2 -> P b1 b2 -> R (f a1 b1) (g a2 b2)) ->
  Forall2 P l1 l2 -> R a1 a2 -> R (foldl f a1 l1) (foldl g a2 l2).
Proof. intros Hfg Hl. revert a1 a2. induction Hl; intros; cbn; eauto. Qed.

Lemma md5_block_rfc e r block :
  bytes_ok block -> length block = 64%nat ->
  tuple (md5_block e r block) = Rfc1321.compression (tuple r) block.
Proof.
  intros Hb Hl.
  assert (tuple (foldl (md5_step e block) r md5_steps)
          = foldl (Rfc1321.operation (Rfc1321.words block)) (tuple r) (seq 0 64)) as E.
  { apply (foldl_rel (fun x y => tuple x = y) row_ok);
      [|apply md5_rows_ok|done].
    intros a1 ? b1 b2 <- Hrow. by apply md5_step_rfc. }
  unfold md5_block, Rfc1321.compression. rewrite <- E.
  generalize (foldl (md5_step e block) r md5_steps). intros r'. clear E.
  unfold tuple. cbn [ra rb rc rd]. by rewrite (Z.add_comm (ra r)), (Z.add_comm (rb r)), (Z.add_comm (rc r)), (Z.add_comm (rd r)).
Qed.

(** ** Buffering *)

(** The representation invariant of a context that has read [m]. *)
Definition md5_inv (e : endian) (m : list Z) (c : MD5_CTX) : Prop :=
  @holds _ (md5_block e) (regs (MD5_begin [])) m (regs c) (buffer c) /\
  lo c = Z.of_nat (length m) mod 2 ^ 29 /\
  hi c = (Z.of_nat (length m) / 2 ^ 29) mod 2 ^ 32.

Lemma md5_begin_inv e g : length g = 64%nat -> md5_inv e [] (MD5_begin g).
Proof. intros. by split; [apply holds_nil|]. Qed.

(** The two length words count bytes modulo [2 ^ 61]. *)
Lemma md5_count_spec n k :
  0 <= n -> 0 <= k ->
  md5_count (n mod 2 ^ 29) ((n / 2 ^ 29) mod 2 ^ 32) k
  = ((n + k) mod 2 ^ 29, ((n + k) / 2 ^ 29) mod 2 ^ 32).
Proof.
  intros Hn Hk. unfold md5_count. change 0x1fffffff with (Z.ones 29).
  rewrite Z.land_ones, Z.shiftr_div_pow2 by lia.
  rewrite Z.add_mod_idemp_l by lia.
  f_equal.
  assert ((n + k) / 2 ^ 29 = n / 2 ^ 29 + k / 2 ^ 29
          + (if (n + k) mod 2 ^ 29 <? n mod 2 ^ 29 then 1 else 0)) as ->.
  { case_bool; Z.to_euclidean_division_equations; lia. }
  set (carry := _ <? _).
  replace (if carry then u32 ((n / 2 ^ 29) mod 2 ^ 32 + 1) else (n / 2 ^ 29) mod 2 ^ 32)
    with (u32 (n / 2 ^ 29 + (if carry then 1 else 0))).
  - rewrite wrap_add_l. unfold wrap. f_equal. lia.
  - destruct carry; [by rewrite <- (wrap_add_l 32 (n / 2 ^ 29))|by rewrite Z.add_0_r].
Qed.

Lemma used_spec n : Z.to_nat (Z.land (Z.of_nat n mod 2 ^ 29) 0x3f) = (n mod 64)%nat.
Proof.
  change 0x3f with (Z.ones 6). rewrite Z.land_ones by lia.
  change (2 ^ 6) with (Z.of_nat 64). change (2 ^ 29) with (Z.of_nat 64 * 2 ^ 23).
  rewrite Z.rem_mul_r, (Z.mul_comm (Z.of_nat 64)), Z.mod_add, Z.mod_mod by lia.
  by rewrite <- Nat2Z.inj_mod, Nat2Z.id.
Qed.

(** The end of [MD5_hash]: the full blocks in place, then the rest to the front. *)
Lemma md5_bulk e c d :
  (let '(ctx, data) :=
     if (64 <=? length d)%nat then MD5_body e c d (length d / 64 * 64) else (c, d) in
   with_buffer (write 0 data (buffer ctx)) ctx)
  = Md5Ctx (lo c) (hi c) (@absorb _ (md5_block e) (full d) (regs c) d)
      (write 0 (leftover d) (buffer c)).
Proof.
  destruct (Nat.leb_spec 64 (length d)) as [Hd|Hd].
  - unfold MD5_body, leftover, full. rewrite Nat.div_mul, Nat.mul_comm by lia. done.
  - destruct (full_short d Hd) as [-> ->]. by destruct c.
Qed.

Lemma md5_hash_inv e m c d :
  md5_inv e m c -> md5_inv e (m ++ d) (MD5_hash e d c).
Proof.
  intros (Hh & Hlo & Hhi). unfold MD5_hash.
  rewrite Hlo, Hhi, md5_count_spec, used_spec by lia.
  rewrite <- Nat2Z.inj_add, <- length_app.
  set (u := (length m mod 64)%nat).
  assert (u < 64)%nat by (apply Nat.mod_upper_bound; lia).
  destruct (Nat.eqb_spec u 0) as [Hu|Hu]; cbn [negb andb].
  - rewrite md5_bulk. split; [|done]. by apply holds_boundary.
  - destruct (Nat.ltb_spec (length d) (64 - u)).
    + split; [|done]. apply holds_short; [done|]. fold u. lia.
    + pose proof (holds_long _ _ _ _ d Hh) as Hd. fold u in Hd. cbv zeta in Hd.
      specialize (Hd ltac:(lia)).
      rewrite md5_bulk. split; [|done]. cbn [with_regs with_buffer regs buffer fst MD5_body].
      change (64 / 64)%nat with 1%nat. rewrite absorb_one; [exact Hd|].
      rewrite length_write; [by apply Hh|]. destruct Hh as [-> _]. rewrite length_take. lia.
Qed.

(** ** The digest *)

Lemma hi_lo_bytes n :
  le_bytes 4 (u32 (Z.shiftl (n mod 2 ^ 29) 3)) ++ le_bytes 4 ((n / 2 ^ 29) mod 2 ^ 32)
  = le_bytes 8 (8 * n).
Proof.
  assert (forall z, le_bytes 8 z = le_bytes 4 z ++ le_bytes 4 (z / 2 ^ 32)) as ->.
  { intros. cbn [le_bytes app]. by rewrite !Z.div_div by done. }
  change (le_bytes 4) with (store LE 4).
  rewrite <- (store_mod LE 4 (8 * n)), <- (store_mod LE 4 (8 * n / 2 ^ 32)).
  change (256 ^ Z.of_nat 4) with (2 ^ 32).
  f_equal; f_equal.
  - rewrite Z.shiftl_mul_pow2 by lia. unfold wrap.
    change (2 ^ 32) with (2 ^ 29 * 2 ^ 3). rewrite Z.mul_mod_distr_r by done.
    rewrite Z.mod_mod by done. change (2 ^ 29 * 2 ^ 3) with (2 ^ 3 * 2 ^ 29).
    change 8 with (2 ^ 3). rewrite Z.mul_mod_distr_l by done. lia.
  - f_equal. change (2 ^ 32) with (8 * 2 ^ 29). by rewrite Z.div_mul_cancel_l.
Qed.

Lemma md5_end_spec e m c :
  md5_inv e m c ->
  MD5_end e c = md5_result (@absorb _ (md5_block e) (full (Rfc1321.pad m))
                  (regs (MD5_begin [])) (Rfc1321.pad m)).
Proof.
  intros (Hh & Hlo & Hhi). pose proof (proj1 Hh) as Hl. unfold MD5_end, Rfc1321.pad.
  rewrite Hlo, used_spec. set (u := (length m mod 64)%nat).
  assert (u < 64)%nat by (apply Nat.mod_upper_bound; lia).
  set (b1 := write u [0x80] (buffer c)).
  assert (length b1 = 64%nat) as Hb1 by (unfold b1; rewrite length_write; cbn; lia).
  assert (take (S u) b1 = take u (buffer c) ++ [0x80]) as Ht1.
  { unfold b1. replace (S u) with (u + length [0x80%Z])%nat by (cbn; lia).
    apply take_write_end. lia. }
  destruct (Nat.ltb_spec (64 - S u) 8) as [Hu|Hu].
  - rewrite padding_long by (fold u; lia). fold u.
    rewrite (holds_last2 _ _ _ _ _ _ Hh)
      by (cbn [length app]; rewrite ?length_app, ?length_replicate, ?le_bytes_length;
          fold u; lia).
    fold u. set (b2 := write (S u) (replicate (64 - S u) 0) b1).
    assert (b2 = take u (buffer c) ++ 0x80 :: replicate (63 - u) 0) as Hb2.
    { unfold b2. rewrite write_full by (rewrite length_replicate; lia).
      by rewrite Ht1, <- app_assoc. }
    assert (length b2 = 64%nat) as Hlb2 by (unfold b2; rewrite length_write; [done|];
      rewrite length_replicate; lia).
    cbn [MD5_body with_regs with_buffer regs buffer lo hi fst].
    fold b2. change (64 - 8)%nat with 56%nat. change (64 / 64)%nat with 1%nat.
    rewrite (write_tail 0) by (rewrite ?length_replicate, ?le_bytes_length; lia).
    rewrite Hlo, Hhi, hi_lo_bytes, !absorb_one, <- Hb2; [done|done|].
    by rewrite !length_app, length_replicate, le_bytes_length.
  - rewrite padding_short by (fold u; lia). fold u.
    rewrite (holds_last _ _ _ _ _ Hh)
      by (cbn [length app]; rewrite ?length_app, ?length_replicate, ?le_bytes_length;
          fold u; lia).
    fold u. cbn [MD5_body with_regs with_buffer regs buffer lo hi fst].
    change (64 / 64)%nat with 1%nat.
    rewrite (write_tail (S u)) by (rewrite ?length_replicate, ?le_bytes_length; lia).
    rewrite Hlo, Hhi, hi_lo_bytes, Ht1, <- app_assoc. cbn [app].
    replace (64 - S u - 8)%nat with (55 - u)%nat by lia.
    rewrite absorb_one; [done|].
    rewrite length_app, length_take. cbn [length].
    rewrite length_app, length_replicate, le_bytes_length. lia.
Qed.

Lemma bytes_ok_padding n tail : bytes_ok tail -> bytes_ok (padding n tail).
Proof.
  intros. unfold padding. constructor; [unfold is_byte; lia|].
  apply Forall_app; split; [|done]. apply Forall_replicate. unfold is_byte. lia.
Qed.

(** From the words of the C to the digest of the RFC. *)
Lemma md5_result_rfc e m :
  bytes_ok m ->
  md5_result (@absorb _ (md5_block e) (full (Rfc1321.pad m)) (regs (MD5_begin []))
    (Rfc1321.pad m)) = Rfc1321.md5 m.
Proof.
  intros Hm. unfold Rfc1321.md5.
  change Rfc1321.initial with (tuple (regs (MD5_begin []))).
  rewrite <- (absorb_map (md5_block e) Rfc1321.compression (fun _ => True) tuple).
  - done.
  - intros st b _ Hl Hb. split; [done|]. by apply md5_block_rfc.
  - done.
  - apply Forall_app; split; [done|]. apply bytes_ok_padding, le_bytes_ok.
  - apply full_bounds.
Qed.

Lemma md5_stream_inv e g ds :
  length g = 64%nat ->
  md5_inv e (concat ds) (foldl (fun c d => MD5_hash e d c) (MD5_begin g) ds).
Proof.
  intros Hg. rewrite <- (app_nil_l (concat ds)).
  pose proof (md5_begin_inv e g Hg) as Hi. revert Hi.
  generalize (MD5_begin g) as c, (@nil Z) as m. induction ds as [|d ds IH]; intros c m Hi; cbn.
  - by rewrite app_nil_r.
  - rewrite app_assoc. by apply IH, md5_hash_inv.
Qed.

(** C13. However a message is cut into calls of [MD5_hash], on a host of either
    byte order and whatever the buffer of the fresh context contains, [MD5_end]
    gives the digest RFC 1321 defines for the whole message. *)
Theorem md5_stream_rfc1321 (e : endian) (g : list Z) (ds : list (list Z))
    (Hg : length g = 64%nat) (Hds : bytes_ok (concat ds)) :
  MD5_end e (foldl (fun c d => MD5_hash e d c) (MD5_begin g) ds) = Rfc1321.md5 (concat ds).
Proof.
  rewrite (md5_end_spec e (concat ds)) by by apply md5_stream_inv.
  by apply md5_result_rfc.
Qed.

Lemma md5_stream_rfc1321_witness :
  MD5_end BE (foldl (fun c d => MD5_hash BE d c) (MD5_begin (replicate 64 0xAA))
    [replicate 60 0x61; []; replicate 70 0x62])
  = Rfc1321.md5 (replicate 60 0x61 ++ replicate 70 0x62).
Proof.
  apply (md5_stream_rfc1321 BE (replicate 64 0xAA)
    [replicate 60 0x61; []; replicate 70 0x62]); [reflexivity|].
  unfold is_byte. cbn. repeat constructor; lia.
Defined.

(** The context invariant: after any calls of [MD5_hash] the chaining
    variables are those of the full blocks read, the buffer starts with the bytes
    that wait, and the two length words are the byte count modulo 2^61. *)
Theorem md5_hash_invariant (e : endian) (m : list Z) (c : MD5_CTX) (d : list Z)
    (Hc : md5_inv e m c) : md5_inv e (m ++ d) (MD5_hash e d c).
Proof. by apply md5_hash_inv. Qed.

Lemma md5_hash_invariant_witness :
  md5_inv LE ([] ++ [1; 2; 3]) (MD5_hash LE [1; 2; 3] (MD5_begin (replicate 64 7))).
Proof. apply (md5_hash_invariant LE [] (MD5_begin (replicate 64 7))). by apply md5_begin_inv. Defined.

(** One pass over the unrolled rounds of [MD5_body], with the optimised [F],
    [G] and [H2] and either way of reading the words of the block, is the RFC 1321
    compression with its formulas for words and rotations. *)
Theorem md5_block_rfc1321 (e : endian) (r : md5_regs) (block : list Z)
    (Hb : bytes_ok block) (Hl : length block = 64%nat) :
  tuple (md5_block e r block) = Rfc1321.compression (tuple r) block.
Proof. by apply md5_block_rfc. Qed.

Lemma md5_block_rfc1321_witness :
  tuple (md5_block BE (regs (MD5_begin [])) (replicate 64 1))
  = Rfc1321.compression Rfc1321.initial (replicate 64 1).
Proof.
  apply (md5_block_rfc1321 BE (regs (MD5_begin []))); [|reflexivity].
  unfold is_byte. cbn. repeat constructor; lia.
Defined.
