(* ===== verification/Sha256Proofs.v ===== *)
(** * The SHA-256 of mkhash.c is FIPS 180-4

    The constants against the roots they come from, the rotating working array and
    the interleaved message schedule against one round and one recurrence, then the
    buffering: however a message is cut, [SHA256_Final] gives the standard digest. *)

From Stdlib Require Import ZArith Lia.
From stdpp Require Import base list numbers.
From S2P Require Import Prelude Bits Blocks Md5Proofs Sha256 HashSpec.

(** ** Words *)

Lemma land_255 x : Z.land x 0xff = x mod 256.
Proof. change 0xff with (Z.ones 8). by rewrite Z.land_ones by lia. Qed.

Lemma be32enc_bytes u : be32enc u = be_bytes 4 u.
Proof.
  unfold be32enc, be_bytes. cbn [le_bytes reverse]. rewrite !land_255, !Z.shiftr_div_pow2 by lia.
  change (2 ^ 24) with (256 * (256 * 256)). change (2 ^ 16) with (256 * 256).
  change (2 ^ 8) with 256. by rewrite <- !Z.div_div by lia.
Qed.

Lemma be_bytes_app n1 n2 z :
  be_bytes (n1 + n2) z = be_bytes n1 (z / 256 ^ Z.of_nat n2) ++ be_bytes n2 z.
Proof.
  unfold be_bytes. rewrite <- reverse_app. f_equal. revert z.
  induction n2 as [|n2 IH]; intros z.
  - by rewrite Nat.add_0_r, Z.div_1_r.
  - rewrite Nat.add_succ_r. cbn [le_bytes app]. f_equal.
    rewrite IH, pow256, Z.div_div by lia. done.
Qed.

Lemma be64enc_bytes u : be64enc u = be_bytes 8 u.
Proof.
  unfold be64enc. rewrite !be32enc_bytes. change 0xffffffff with (Z.ones 32).
  rewrite Z.land_ones, Z.shiftr_div_pow2 by lia. unfold wrap.
  change (2 ^ 32) with (256 ^ Z.of_nat 4). change (be_bytes 4) with (store BE 4).
  rewrite !store_mod. symmetry. apply (be_bytes_app 4 4).
Qed.

Lemma be_val_2 a b : be_val [a; b] = 256 * a + b.
Proof. change (be_val [a; b]) with (b + 256 * (a + 256 * 0)). lia. Qed.

Lemma be_val_4 a b c d :
  be_val [a; b; c; d] = 65536 * (256 * a + b) + (256 * c + d).
Proof.
  change (be_val _) with (d + 256 * (c + 256 * (b + 256 * (a + 256 * 0)))). lia.
Qed.

Lemma be16dec_val a b r : is_byte a -> is_byte b -> be16dec (a :: b :: r) = be_val [a; b].
Proof.
  unfold is_byte. intros. unfold be16dec.
  change (Z.lor (Z.shiftl a 8) b = be_val [a; b]). rewrite be_val_2, Z.lor_comm.
  rewrite (lor_shift_add _ _ 8 8) by lia. lia.
Qed.

Lemma be32dec_val p : bytes_ok p -> (4 <= length p)%nat -> be32dec p = be_val (take 4 p).
Proof.
  intros Hp Hl. destruct p as [|a [|b [|c [|d r]]]]; cbn in Hl; try lia.
  rewrite !Forall_cons_iff in Hp. destruct Hp as (Ha & Hb & Hc & Hd & _).
  unfold be32dec. cbn [drop]. rewrite !be16dec_val by done.
  unfold is_byte in *. cbn [take firstn]. rewrite be_val_4, !be_val_2, Z.lor_comm.
  rewrite wrap_small.
  - rewrite (lor_shift_add _ _ 16 16) by lia. lia.
  - rewrite Z.shiftl_mul_pow2 by lia. lia.
Qed.

Lemma be32dec_vect_words e block :
  bytes_ok block -> length block = 64%nat -> be32dec_vect e block 64 = Fips180.words block.
Proof.
  intros Hb Hl. unfold be32dec_vect, Fips180.words. change (64 / 4)%nat with 16%nat.
  destruct e; [|done]. apply map_ext_in. intros i [_ Hi]%in_seq.
  rewrite be32dec_val; [done|by apply Forall_drop|rewrite length_drop; lia].
Qed.

Lemma be32enc_vect_bytes e ws :
  length ws = 8%nat -> be32enc_vect e ws 32 = concat (map (be_bytes 4) ws).
Proof.
  intros Hl. unfold be32enc_vect. change (32 / 4)%nat with 8%nat.
  destruct e; [|by rewrite take_ge by lia]. f_equal.
  destruct ws as [|? [|? [|? [|? [|? [|? [|? [|? [|]]]]]]]]]; try discriminate Hl.
  cbn [seq map]. by rewrite !be32enc_bytes.
Qed.

(** ** The functions *)

Lemma Ch_fips x y z : Ch x y z = Fips180.Ch x y z.
Proof. unfold Ch, Fips180.Ch. bitblast. Qed.

Lemma Maj_fips x y z : Maj x y z = Fips180.Maj x y z.
Proof. unfold Maj, Fips180.Maj. bitblast. Qed.

Lemma ROTR_fips x n : ROTR x n = Fips180.rotr x n.
Proof.
  unfold ROTR, Fips180.rotr, rotl. rewrite Z.lor_comm. do 2 f_equal. lia.
Qed.

Lemma S0_fips x : S0 x = Fips180.Sigma0 x.
Proof. unfold S0, Fips180.Sigma0. by rewrite !ROTR_fips. Qed.
Lemma S1_fips x : S1 x = Fips180.Sigma1 x.
Proof. unfold S1, Fips180.Sigma1. by rewrite !ROTR_fips. Qed.
Lemma s0_fips x : s0 x = Fips180.sigma0 x.
Proof. unfold s0, Fips180.sigma0. by rewrite !ROTR_fips. Qed.
Lemma s1_fips x : s1 x = Fips180.sigma1 x.
Proof. unfold s1, Fips180.sigma1. by rewrite !ROTR_fips. Qed.

Lemma K_fips : K = Fips180.K.
Proof. by vm_compute. Qed.

Lemma initial_fips g : state (SHA256_Init g) = Fips180.initial.
Proof. by vm_compute. Qed.

(** ** The rotating array *)

(** The array when round [i] starts: variable [j] is entry [(64 - i + j) mod 8]. *)
Definition layout (i : nat) (v : list Z) : list Z :=
  map (fun p => v !!! ((p + i) mod 8)%nat) (seq 0 8).

(** The scalar content of [RND]. *)
Lemma rnd_T1 e f g h wk :
  u32 (h + u32 (u32 (S1 e + Ch e f g) + u32 wk))
  = u32 (h + Fips180.Sigma1 e + Fips180.Ch e f g + wk).
Proof.
  rewrite wrap_add_r, Z.add_assoc, wrap_add_r, S1_fips, Ch_fips.
  rewrite (Z.add_comm h), <- Z.add_assoc, wrap_add_l. f_equal. lia.
Qed.

Lemma rnd_T2 T1 a b c :
  u32 (u32 T1 + u32 (S0 a + Maj a b c))
  = u32 (T1 + (Fips180.Sigma0 a + Fips180.Maj a b c)).
Proof. by rewrite wrap_add_r, wrap_add_l, S0_fips, Maj_fips. Qed.

Lemma RNDr_round v W i ii :
  length v = 8%nat -> (i < 16)%nat ->
  RNDr (layout i v) W i ii
  = layout (S i) (Fips180.round v (W !!! (i + ii)%nat + K !!! (i + ii)%nat)).
Proof.
  intros Hv Hi. unfold RNDr. generalize (W !!! (i + ii)%nat + K !!! (i + ii)%nat). intros wk.
  destruct v as [|a [|b [|c [|d [|e [|f [|g [|h [|]]]]]]]]]; try discriminate Hv.
  unfold Fips180.round. cbv zeta. rewrite <- rnd_T2, <- (wrap_add_r 32 d), <- !rnd_T1.
  do 16 (destruct i as [|i]; [reflexivity|]). lia.
Qed.

Lemma layout_0 v : length v = 8%nat -> layout 0 v = v.
Proof.
  destruct v as [|? [|? [|? [|? [|? [|? [|? [|? [|]]]]]]]]]; try discriminate; reflexivity.
Qed.

Lemma layout_16 v : layout 16 v = layout 0 v.
Proof. done. Qed.

Lemma round_length v wk : length v = 8%nat -> length (Fips180.round v wk) = 8%nat.
Proof.
  destruct v as [|? [|? [|? [|? [|? [|? [|? [|? [|]]]]]]]]]; try discriminate; reflexivity.
Qed.

(** Round [i] of the standard on schedule [ws]. *)
Definition step (ws : list Z) (v : list Z) (i : nat) : list Z :=
  Fips180.round v (ws !!! i + K !!! i).

Lemma steps_length ws v l : length v = 8%nat -> length (foldl (step ws) v l) = 8%nat.
Proof.
  revert v. induction l as [|i l IH]; intros v Hv; cbn; [done|].
  by apply IH, round_length.
Qed.

Lemma rounds_from W ii n i v :
  length v = 8%nat -> (i + n <= 16)%nat ->
  foldl (fun S i => RNDr S W i ii) (layout i v) (seq i n)
  = layout (i + n) (foldl (step W) v (seq (i + ii) n)).
Proof.
  revert i v. induction n as [|n IH]; intros i v Hv Hn; cbn [seq foldl].
  - by rewrite Nat.add_0_r.
  - rewrite RNDr_round by lia. change (S (i + ii)) with (S i + ii)%nat.
    rewrite IH by (auto using round_length; lia). f_equal. lia.
Qed.

Lemma steps_ext W1 W2 v l :
  (forall i, In i l -> W1 !!! i = W2 !!! i) -> foldl (step W1) v l = foldl (step W2) v l.
Proof.
  revert v. induction l as [|i l IH]; intros v Hl; cbn [foldl]; [done|].
  unfold step at 2 4. rewrite (Hl i) by by left. apply IH. intros j Hj. apply Hl. by right.
Qed.

(** ** The message schedule *)

Lemma extend_length k w : length (Nat.iter k Fips180.extend w) = (k + length w)%nat.
Proof.
  induction k as [|k IH]; [done|]. rewrite Nat.iter_succ.
  unfold Fips180.extend at 1. cbv zeta. rewrite length_app, IH. cbn. lia.
Qed.

Lemma extend_prefix k w n : (n < k + length w)%nat ->
  Nat.iter (S k) Fips180.extend w !!! n = Nat.iter k Fips180.extend w !!! n.
Proof.
  intros Hn. rewrite Nat.iter_succ. unfold Fips180.extend at 1. cbv zeta.
  apply lookup_total_app_l. by rewrite extend_length.
Qed.

Lemma extend_prefix_add j k w n : (n < k + length w)%nat ->
  Nat.iter (j + k) Fips180.extend w !!! n = Nat.iter k Fips180.extend w !!! n.
Proof.
  intros Hn. induction j as [|j IH]; [done|]. rewrite <- IH.
  apply extend_prefix. lia.
Qed.

Lemma words_length block : length (Fips180.words block) = 16%nat.
Proof. done. Qed.

Lemma schedule_length block : length (Fips180.schedule block) = 64%nat.
Proof. unfold Fips180.schedule. by rewrite extend_length. Qed.

Lemma schedule_words block n : (n < 16)%nat ->
  Fips180.schedule block !!! n = Fips180.words block !!! n.
Proof. intros. apply (extend_prefix_add 48 0). rewrite words_length. lia. Qed.

(** The recurrence of the standard. *)
Lemma schedule_next block n : (n < 48)%nat ->
  let w k := Fips180.schedule block !!! k in
  w (n + 16)%nat = u32 (Fips180.sigma1 (w (n + 14)%nat) + w (n + 9)%nat
                        + Fips180.sigma0 (w (n + 1)%nat) + w n).
Proof.
  intros Hn w. set (p := Nat.iter n Fips180.extend (Fips180.words block)).
  assert (length p = n + 16)%nat as Hp by (unfold p; rewrite extend_length, words_length; lia).
  assert (forall k, (k < n + 16)%nat -> w k = p !!! k) as E.
  { intros k Hk. unfold w, Fips180.schedule. replace 48%nat with (48 - n + n)%nat by lia.
    apply extend_prefix_add. rewrite words_length. lia. }
  rewrite (E (n + 14)%nat), (E (n + 9)%nat), (E (n + 1)%nat), (E n) by lia. unfold w, Fips180.schedule.
  replace 48%nat with (47 - n + S n)%nat by lia.
  rewrite extend_prefix_add by (rewrite words_length; lia). rewrite Nat.iter_succ. fold p.
  unfold Fips180.extend. rewrite Hp, lookup_total_app_r, Hp, Nat.sub_diag by lia. cbn.
  replace (n + 16 - 2)%nat with (n + 14)%nat by lia.
  replace (n + 16 - 7)%nat with (n + 9)%nat by lia.
  replace (n + 16 - 15)%nat with (n + 1)%nat by lia.
  by replace (n + 16 - 16)%nat with n by lia.
Qed.

(** [known block n W]: the first [n] entries of the array [W] are the schedule. *)
Definition known (block : list Z) (n : nat) (W : list Z) : Prop :=
  length W = 64%nat /\ forall k, (k < n)%nat -> W !!! k = Fips180.schedule block !!! k.

Lemma MSCH_known block W i ii :
  (i + ii < 48)%nat -> known block (i + ii + 16) W -> known block (S (i + ii + 16)) (MSCH W ii i).
Proof.
  intros Hn [Hl HW]. split; [unfold MSCH; by rewrite length_insert|]. intros k Hk.
  unfold MSCH. destruct (decide (k = i + ii + 16)%nat) as [->|Hne].
  - rewrite list_lookup_total_insert by lia. rewrite !HW by lia.
    rewrite (schedule_next block (i + ii)) by lia.
    rewrite decide_True, wrap_add_l by lia.
    by rewrite <- (Z.add_assoc (u32 _)), wrap_add_l, Z.add_assoc, s1_fips, s0_fips.
  - rewrite list_lookup_total_insert_ne by congruence. apply HW. lia.
Qed.

Lemma MSCH_known_all block ii n i W :
  (i + n + ii <= 48)%nat -> known block (i + ii + 16) W ->
  known block (i + n + ii + 16) (foldl (fun W i => MSCH W ii i) W (seq i n)).
Proof.
  revert i W. induction n as [|n IH]; intros i W Hn HW; cbn [seq foldl].
  - by rewrite Nat.add_0_r.
  - replace (i + S n + ii + 16)%nat with (S i + n + ii + 16)%nat by lia.
    apply IH; [lia|]. apply MSCH_known; [lia|done].
Qed.

(** One iteration of the loop: 16 rounds, and 16 more words while they last. *)
Lemma mix16_spec block v W ii :
  (ii <= 48)%nat -> length v = 8%nat -> known block (ii + 16) W ->
  fst (mix16 (v, W) ii) = foldl (step (Fips180.schedule block)) v (seq ii 16) /\
  (ii + 16 <= 48 -> known block (ii + 32) (snd (mix16 (v, W) ii)))%nat.
Proof.
  intros Hii Hv HW. unfold mix16. cbn [fst snd].
  assert (foldl (fun S i => RNDr S W i ii) v (seq 0 16)
    = foldl (step (Fips180.schedule block)) v (seq ii 16)) as E.
  { rewrite <- (layout_0 v Hv) at 1. rewrite (rounds_from W ii 16 0 v Hv) by lia.
    rewrite layout_16, layout_0 by by apply steps_length.
    apply steps_ext. intros i Hi%in_seq. apply HW. lia. }
  destruct (Nat.eqb_spec ii 48); cbn [fst snd];
    (split; [exact E|]); intros; [lia|].
  replace (ii + 32)%nat with (0 + 16 + ii + 16)%nat by lia.
  apply MSCH_known_all; [lia|exact HW].
Qed.

Lemma foldl_zip_steps W v n k :
  (n + k <= length W)%nat -> (n + k <= 64)%nat ->
  foldl (step W) v (seq n k)
  = foldl Fips180.round v (take k (zip_with Z.add (drop n W) (drop n K))).
Proof.
  revert n v. induction k as [|k IH]; intros n v HW HK; [done|].
  destruct (lookup_lt_is_Some_2 W n) as [w Hw]; [lia|].
  destruct (lookup_lt_is_Some_2 K n) as [c Hc]; [cbn; lia|].
  rewrite (drop_S _ _ _ Hw), (drop_S _ _ _ Hc). cbn [seq foldl zip_with take].
  rewrite IH by lia. unfold step at 1.
  by rewrite (list_lookup_total_correct _ _ _ Hw), (list_lookup_total_correct _ _ _ Hc).
Qed.

(** ** One block *)

Lemma transform_spec e W0 st block :
  length W0 = 64%nat -> length st = 8%nat -> bytes_ok block -> length block = 64%nat ->
  SHA256_Transform e W0 st block = Fips180.compression st block.
Proof.
  intros HW0 Hst Hb Hl. unfold SHA256_Transform, Fips180.compression. f_equal.
  set (ws := Fips180.schedule block).
  assert (known block 16 (be32dec_vect e block 64 ++ drop 16 W0)) as H0.
  { rewrite be32dec_vect_words by done. split.
    - by rewrite length_app, words_length, length_drop, HW0.
    - intros k Hk. rewrite lookup_total_app_l by (rewrite words_length; lia).
      by rewrite schedule_words. }
  revert H0. generalize (be32dec_vect e block 64 ++ drop 16 W0). intros W H0.
  cbn [foldl].
  destruct (mix16_spec block st W 0) as [E1 K1]; [lia|done|done|].
  destruct (mix16 (st, W) 0) as [v1 W1]. cbn [fst snd] in *. specialize (K1 ltac:(lia)).
  destruct (mix16_spec block v1 W1 16) as [E2 K2]; [lia|subst; by apply steps_length|done|].
  destruct (mix16 (v1, W1) 16) as [v2 W2]. cbn [fst snd] in *. specialize (K2 ltac:(lia)).
  destruct (mix16_spec block v2 W2 32) as [E3 K3];
    [lia|subst; repeat apply steps_length; done|done|].
  destruct (mix16 (v2, W2) 32) as [v3 W3]. cbn [fst snd] in *. specialize (K3 ltac:(lia)).
  destruct (mix16_spec block v3 W3 48) as [E4 _];
    [lia|subst; repeat apply steps_length; done|done|].
  rewrite E4. subst v1 v2 v3. rewrite <- !foldl_app, <- !seq_app.
  fold ws. rewrite foldl_zip_steps by (unfold ws; rewrite ?schedule_length; lia).
  rewrite !drop_0, <- K_fips, take_ge; [reflexivity|].
  rewrite length_zip_with. unfold ws. rewrite schedule_length. cbn. lia.
Qed.

Lemma rounds_length v l :
  length v = 8%nat -> length (foldl Fips180.round v l) = 8%nat.
Proof. revert v. induction l; intros; cbn [foldl]; auto using round_length. Qed.

Lemma compression_length st block :
  length st = 8%nat -> length (Fips180.compression st block) = 8%nat.
Proof.
  intros Hst. unfold Fips180.compression. rewrite length_zip_with, rounds_length by done. lia.
Qed.

(** ** Buffering *)

(** The representation invariant of a context that has read [m]. *)
Definition sha_inv (e : endian) (W0 m : list Z) (c : SHA256_CTX) : Prop :=
  @holds _ (SHA256_Transform e W0) (state (SHA256_Init [])) m (state c) (buf c) /\
  count c = (8 * Z.of_nat (length m)) mod 2 ^ 64.

Lemma sha_init_inv e W0 g : length g = 64%nat -> sha_inv e W0 [] (SHA256_Init g).
Proof. intros. by split; [apply holds_nil|]. Qed.

Lemma buffered_spec (m : list Z) c :
  count c = (8 * Z.of_nat (length m)) mod 2 ^ 64 -> buffered c = (length m mod 64)%nat.
Proof.
  intros Hc. unfold buffered. rewrite Hc. change 0x3f with (Z.ones 6).
  rewrite Z.land_ones, Z.shiftr_div_pow2 by lia. change (2 ^ 64) with (8 * 2 ^ 61).
  rewrite Z.mul_mod_distr_l by lia. change (2 ^ 3) with 8.
  rewrite Z.mul_comm, Z.div_mul by lia.
  change (2 ^ 61) with (2 ^ 6 * 2 ^ 55). rewrite Z.rem_mul_r by lia.
  rewrite (Z.mul_comm (2 ^ 6)), Z.mod_add, Z.mod_mod by lia.
  change (2 ^ 6) with (Z.of_nat 64). by rewrite <- Nat2Z.inj_mod, Nat2Z.id.
Qed.

Lemma sha_update_inv e W0 m c d :
  sha_inv e W0 m c -> sha_inv e W0 (m ++ d) (SHA256_Update e W0 d c).
Proof.
  intros (Hh & Hc). pose proof (proj1 Hh) as Hl. unfold SHA256_Update.
  rewrite (buffered_spec m) by done. set (u := (length m mod 64)%nat).
  assert (u < 64)%nat by (apply Nat.mod_upper_bound; lia).
  assert (u64 (count c + u64 (Z.shiftl (Z.of_nat (length d)) 3))
    = (8 * Z.of_nat (length (m ++ d))) mod 2 ^ 64) as Ec.
  { rewrite wrap_add_r, Hc, Z.shiftl_mul_pow2 by lia.
    fold (wrap 64 (8 * Z.of_nat (length m))). rewrite wrap_add_l, length_app.
    unfold wrap. f_equal. lia. }
  destruct (Nat.ltb_spec (length d) (64 - u)).
  - split; [|exact Ec]. apply holds_short; [done|]. fold u. lia.
  - split; [|exact Ec]. cbn [state buf].
    apply (holds_long _ _ _ _ d Hh). fold u. lia.
Qed.

Lemma sha_stream_inv e W0 g ds :
  length g = 64%nat ->
  sha_inv e W0 (concat ds) (foldl (fun c d => SHA256_Update e W0 d c) (SHA256_Init g) ds).
Proof.
  intros Hg. rewrite <- (app_nil_l (concat ds)).
  pose proof (sha_init_inv e W0 g Hg) as Hi. revert Hi.
  generalize (SHA256_Init g) as c, (@nil Z) as m.
  induction ds as [|d ds IH]; intros c m Hi; cbn.
  - by rewrite app_nil_r.
  - rewrite app_assoc. by apply IH, sha_update_inv.
Qed.

(** ** The digest *)

Lemma take_PAD k : (0 < k <= 64)%nat -> take k PAD = 0x80 :: replicate (k - 1) 0.
Proof.
  intros Hk. destruct k as [|k]; [lia|]. unfold PAD.
  change (take (S k) (0x80 :: replicate 63 0)) with (0x80 :: take k (replicate 63 0)).
  rewrite take_replicate. do 2 f_equal. lia.
Qed.

Lemma length_bytes n z : be_bytes n z = store BE n z.
Proof. done. Qed.

Lemma pad_count n : be64enc ((8 * n) mod 2 ^ 64) = be_bytes 8 (8 * n).
Proof.
  rewrite be64enc_bytes. change (2 ^ 64) with (256 ^ Z.of_nat 8).
  change (be_bytes 8) with (store BE 8). apply store_mod.
Qed.

Lemma sha_pad_spec e W0 m c :
  sha_inv e W0 m c ->
  state (SHA256_Pad e W0 c)
  = @absorb _ (SHA256_Transform e W0) (full (Fips180.pad m)) (state (SHA256_Init []))
      (Fips180.pad m).
Proof.
  intros (Hh & Hc). pose proof (proj1 Hh) as Hl. unfold SHA256_Pad, Fips180.pad.
  rewrite (buffered_spec m) by done. set (u := (length m mod 64)%nat).
  assert (u < 64)%nat by (apply Nat.mod_upper_bound; lia).
  rewrite Hc, pad_count. set (tail := be_bytes 8 _).
  assert (length tail = 8%nat) as Ht by done.
  destruct (Nat.ltb_spec u 56) as [Hu|Hu].
  - rewrite padding_short by done. fold u.
    rewrite (holds_last _ _ _ _ _ Hh)
      by (cbn [length]; rewrite length_app, length_replicate; fold u; lia).
    fold u. cbn [state]. unfold compress. apply (f_equal (SHA256_Transform e W0 (state c))).
    rewrite take_PAD by lia. set (z := 0x80 :: replicate (56 - u - 1) 0).
    assert (length z = 56 - u)%nat as Hz by (unfold z; cbn [length]; rewrite length_replicate; lia).
    replace 56%nat with (u + length z)%nat by lia.
    rewrite write_write, write_full by (rewrite ?length_app; lia). unfold z.
    by replace (56 - u - 1)%nat with (55 - u)%nat by lia.
  - rewrite padding_long by done. fold u.
    rewrite (holds_last2 _ _ _ _ _ _ Hh)
      by (cbn [length]; rewrite ?length_app, ?length_replicate; fold u; lia).
    fold u. cbn [state]. unfold compress.
    assert (write u (take (64 - u) PAD) (buf c)
      = take u (buf c) ++ 0x80 :: replicate (63 - u) 0) as Eb.
    { rewrite take_PAD by lia. rewrite write_full by (cbn [length]; rewrite length_replicate; lia).
      by replace (64 - u - 1)%nat with (63 - u)%nat by lia. }
    rewrite Eb. apply (f_equal (SHA256_Transform e W0 _)).
    change 56%nat with (0 + length (replicate 56 0%Z))%nat at 1.
    rewrite write_write by lia. rewrite write_full; [done|].
    rewrite !length_app, length_take, Ht. cbn [length]. rewrite !length_replicate. lia.
Qed.

Lemma sha_final_spec e W0 m c :
  length W0 = 64%nat -> bytes_ok m -> sha_inv e W0 m c ->
  SHA256_Final e W0 c = Fips180.sha256 m.
Proof.
  intros HW Hm Hc. unfold SHA256_Final, Fips180.sha256.
  assert (state (SHA256_Pad e W0 c)
    = @absorb _ Fips180.compression (full (Fips180.pad m)) Fips180.initial (Fips180.pad m))
    as E.
  { rewrite (sha_pad_spec e W0 m c Hc). rewrite <- (initial_fips []).
    apply (absorb_map (SHA256_Transform e W0) Fips180.compression
      (fun st => length st = 8%nat) (fun st => st)); [|done| |apply full_bounds].
    - intros st b Hst Hl Hb. rewrite transform_spec by done.
      split; [by apply compression_length|done].
    - apply Forall_app; split; [done|]. apply bytes_ok_padding, be_bytes_ok. }
  rewrite E. apply be32enc_vect_bytes.
  assert (forall n st q, length st = 8%nat ->
    length (@absorb _ Fips180.compression n st q) = 8%nat) as Hlen.
  { induction n as [|n IH]; intros st q Hst; cbn [absorb]; [done|].
    by apply IH, compression_length. }
  apply Hlen. by rewrite <- (initial_fips []).
Qed.

(** C14. However a message is cut into calls of [SHA256_Update], on a host of
    either byte order and whatever the buffer of the fresh context and the local
    array [W] contain, [SHA256_Final] gives the digest FIPS 180-4 defines for the
    whole message, with the constants computed from the primes. *)
Theorem sha256_stream_fips180 (e : endian) (W0 g : list Z) (ds : list (list Z))
    (HW : length W0 = 64%nat) (Hg : length g = 64%nat) (Hds : bytes_ok (concat ds)) :
  SHA256_Final e W0 (foldl (fun c d => SHA256_Update e W0 d c) (SHA256_Init g) ds)
  = Fips180.sha256 (concat ds).
Proof. apply sha_final_spec; [done|done|]. by apply sha_stream_inv. Qed.

Lemma sha256_stream_fips180_witness :
  SHA256_Final BE (replicate 64 1)
    (foldl (fun c d => SHA256_Update BE (replicate 64 1) d c) (SHA256_Init (replicate 64 2))
      [replicate 50 0x61; []; replicate 80 0x62])
  = Fips180.sha256 (replicate 50 0x61 ++ replicate 80 0x62).
Proof.
  apply (sha256_stream_fips180 BE (replicate 64 1) (replicate 64 2)
    [replicate 50 0x61; []; replicate 80 0x62]); [reflexivity|reflexivity|].
  unfold is_byte. cbn. repeat constructor; lia.
Defined.

(** One call of [SHA256_Transform] — rotating array, interleaved schedule,
    local array with arbitrary contents — is the FIPS 180-4 compression function. *)
Theorem sha256_transform_fips180 (e : endian) (W0 st block : list Z)
    (HW : length W0 = 64%nat) (Hst : length st = 8%nat)
    (Hb : bytes_ok block) (Hl : length block = 64%nat) :
  SHA256_Transform e W0 st block = Fips180.compression st block.
Proof. by apply transform_spec. Qed.

Lemma sha256_transform_fips180_witness :
  SHA256_Transform LE (replicate 64 9) Fips180.initial (replicate 64 1)
  = Fips180.compression Fips180.initial (replicate 64 1).
Proof.
  apply sha256_transform_fips180; try reflexivity.
  unfold is_byte. cbn. repeat constructor; lia.
Defined.
