(* ===== verification/Mkhash.v ===== *)
(** * The mkhash program

    Models the rest of [scripts/mkhash.c]: reading a stream in 1024-byte pieces,
    the hexadecimal digest, the table of hash types, [hash_file] and [main]. A
    [FILE] is the bytes left to read. Read errors, which the program does not
    tell from the end of the file, are not modelled. *)

From Stdlib Require Import ZArith Lia String Ascii.
From stdpp Require Import base list strings numbers option.
From S2P Require Import Prelude CString Md5 Sha256.

Definition MD5_DIGEST_LENGTH : Z := 16.
Definition SHA256_DIGEST_LENGTH : Z := 32.

(** One [fread] into the static buffer: the bytes and what is left; an empty
    piece is the [NULL] that ends the loops. *)
Definition hash_buf (f : list Z) : list Z * list Z := (take 1024 f, drop 1024 f).

(** [while ((buf = hash_buf(f, &len)) != NULL) update(buf, len)]; [None] when
    [fuel] iterations are not enough. *)
Fixpoint hash_loop {C} (update : list Z -> C -> C) (fuel : nat) (f : list Z) (ctx : C)
    : option C :=
  match fuel with
  | O => None
  | S fuel =>
      let '(b, f) := hash_buf f in
      match b with
      | [] => Some ctx
      | _ => hash_loop update fuel f (update b ctx)
      end
  end.

(** [None] is the null pointer. *)
Definition hash_string (buf : list Z) (len : Z) : option string :=
  if SHA256_DIGEST_LENGTH * 2 + 1 <? len * 2 + 1 then None
  else Some (foldr (fun b s => hex_fixed false 2 b +:+ s) EmptyString (take (Z.to_nat len) buf)).

(** What the program sees of its surroundings: a directory, a file with its
    contents, something [fopen] refuses, or nothing. *)
Inductive node := Directory | File (contents : list Z) | Unreadable | Missing.

Record io := Io { stdin : list Z; stdout : string; stderr : string }.

Definition printf (s : string) : prog io unit :=
  modify (fun w => Io (stdin w) (stdout w +:+ s) (stderr w)).
Definition eprintf (s : string) : prog io unit :=
  modify (fun w => Io (stdin w) (stdout w) (stderr w +:+ s)).

Record hash_type := HashType {
  name : string;
  func : list Z -> option (option string);
  len : Z
}.

(** The surroundings: byte order, the indeterminate contents of the contexts and
    of [W], the file system, and what an [st_mode] that [stat] did not write
    says of [S_ISDIR]. *)
Section Host.
Context (e : endian) (md5_garbage sha_garbage W0 : list Z).
Context (fs : string -> node) (junk_isdir : bool).

(** The loop reads at least one byte per iteration: [S (length f)] are enough. *)
Definition md5_hash (f : list Z) : option (option string) :=
  ctx ← hash_loop (MD5_hash e) (S (length f)) f (MD5_begin md5_garbage);
  Some (hash_string (MD5_end e ctx) MD5_DIGEST_LENGTH).

Definition sha256_hash (f : list Z) : option (option string) :=
  ctx ← hash_loop (SHA256_Update e W0) (S (length f)) f (SHA256_Init sha_garbage);
  Some (hash_string (SHA256_Final e W0 ctx) SHA256_DIGEST_LENGTH).

Definition types : list hash_type := [
  HashType "md5" md5_hash MD5_DIGEST_LENGTH;
  HashType "sha256" sha256_hash SHA256_DIGEST_LENGTH
].

Definition usage (progname : string) : prog io Z :=
  eprintf ("Usage: " +:+ progname +:+ " <hash type> [options] [<file>...]" +:+ newline
    +:+ "Options:" +:+ newline
    +:+ "	-n		Print filename(s)" +:+ newline
    +:+ "	-N		Suppress trailing newline" +:+ newline
    +:+ newline
    +:+ "Supported hash types:");;
  eprintf (foldr (fun it s => let '(i, t) := it in
             (if (i =? 0)%nat then "" else ",") +:+ " " +:+ name t +:+ s) EmptyString
             (zip (seq 0 (length types)) types));;
  eprintf newline;;
  mret 1.

Definition get_hash_type (n : string) : option hash_type :=
  List.find (fun t => bool_decide (name t = n)) types.

(** [t->func(f)] on standard input, which it reads to its end. *)
Definition hash_stdin (t : hash_type) : prog io (option string) :=
  w ← get_st;
  r ← defined (func t (stdin w));
  modify (fun w => Io [] (stdout w) (stderr w));;
  mret r.

(** The part behind the choice of the stream. *)
Definition print_hash (str : option string) (filename : option string)
    (add_filename no_newline : bool) : prog io Z :=
  match str with
  | None => eprintf ("Failed to generate hash" +:+ newline);; mret 1
  | Some str =>
      let nl := if no_newline then EmptyString else newline in
      (if add_filename then
         printf (str +:+ " " +:+ default "-" filename +:+ nl)
       else printf (str +:+ nl));;
      mret 0
  end.

Definition hash_file (t : hash_type) (filename : option string)
    (add_filename no_newline : bool) : prog io Z :=
  match filename with
  | None =>
      str ← hash_stdin t;
      print_hash str filename add_filename no_newline
  | Some n =>
      if bool_decide (n = "-"%string) then
        str ← hash_stdin t;
        print_hash str filename add_filename no_newline
      else
        let isdir := match fs n with Directory => true | Missing => junk_isdir | _ => false end in
        if isdir then
          eprintf ("Failed to open '" +:+ n +:+ "': Is a directory" +:+ newline);; mret 1
        else
          match fs n with
          | File f =>
              str ← defined (func t f);
              print_hash str filename add_filename no_newline
          | _ => eprintf ("Failed to open '" +:+ n +:+ "'" +:+ newline);; mret 1
          end
  end.

(** The loop over the remaining arguments stops at the first failure. *)
Fixpoint hash_files (t : hash_type) (files : list string) (add_filename no_newline : bool)
    : prog io Z :=
  match files with
  | [] => mret 0
  | f :: rest =>
      ret ← hash_file t (Some f) add_filename no_newline;
      if negb (ret =? 0) then mret ret else hash_files t rest add_filename no_newline
  end.

(** The [getopt] loop: [opts] is the sequence of characters it returns;
    [None] when one of them is not an option of the program. *)
Fixpoint options (opts : list ascii) (add_filename no_newline : bool) : option (bool * bool) :=
  match opts with
  | [] => Some (add_filename, no_newline)
  | c :: r =>
      if bool_decide (c = "n"%char) then options r true no_newline
      else if bool_decide (c = "N"%char) then options r add_filename true
      else None
  end.

(** [main], on what [getopt] returns and the operands it leaves in [argv]. *)
Definition main (progname : string) (opts : list ascii) (argv : list string) : prog io Z :=
  match options opts false false with
  | None => usage progname
  | Some (add_filename, no_newline) =>
      match argv with
      | [] => usage progname
      | n :: files =>
          match get_hash_type n with
          | None => usage progname
          | Some t =>
              match files with
              | [] => hash_file t None add_filename no_newline
              | _ => hash_files t files add_filename no_newline
              end
          end
      end
  end.
End Host.
