(* ===== verification/MkhashProofs.v ===== *)
(** * mkhash: from the command line to the digest

    The reading loops end and feed the whole stream to the hash; the digest is
    printed in hexadecimal; the files of the command line are hashed in order up
    to the first that cannot be read. *)

From Stdlib Require Import ZArith Lia String Ascii.
From stdpp Require Import base list strings numbers option.
From S2P Require Import Prelude CString Blocks Md5 Sha256 HashSpec Md5Proofs Sha256Proofs Mkhash.

(** ** The reading loop *)

Lemma hash_loop_chunks {C} (update : list Z -> C -> C) fuel f ctx :
  (length f < fuel)%nat ->
  exists ds, concat ds = f /\
    hash_loop update fuel f ctx = Some (foldl (fun c d => update d c) ctx ds).
Proof.
  revert f ctx. induction fuel as [|fuel IH]; intros f ctx Hf; [lia|].
  cbn [hash_loop hash_buf]. destruct (take 1024 f) as [|b bs] eqn:Ht.
  - exists []. destruct f; [done|]. discriminate Ht.
  - destruct (IH (drop 1024 f) (update (b :: bs) ctx)) as (ds & Hc & Hr).
    { rewrite length_drop. destruct f; [discriminate Ht|]. cbn in *. lia. }
    exists ((b :: bs) :: ds). split; [|done].
    cbn [concat]. rewrite Hc, <- Ht. apply take_drop.
Qed.

Definition hex (l : list Z) : string :=
  foldr (fun b s => hex_fixed false 2 b +:+ s) EmptyString l.

Lemma hash_string_hex l n :
  Z.of_nat (length l) = n -> n <= SHA256_DIGEST_LENGTH -> hash_string l n = Some (hex l).
Proof.
  intros <- Hn. unfold hash_string. case_bool; [lia|]. by rewrite take_ge by lia.
Qed.

Lemma md5_length m : length (Rfc1321.md5 m) = 16%nat.
Proof. unfold Rfc1321.md5. by destruct (absorb _ _ _) as [[[? ?] ?] ?]. Qed.

Lemma concat_be_length l : length (concat (map (be_bytes 4) l)) = (4 * length l)%nat.
Proof.
  induction l as [|x l IH]; [done|]. cbn [map concat]. rewrite length_app, IH, be_bytes_length.
  cbn [length]. lia.
Qed.

Lemma absorb_compression_length n st q : length st = 8%nat ->
  length (@absorb _ Fips180.compression n st q) = 8%nat.
Proof.
  revert st q. induction n as [|n IH]; intros st q Hst; cbn [absorb]; [done|].
  by apply IH, compression_length.
Qed.

Lemma sha256_length m : length (Fips180.sha256 m) = 32%nat.
Proof.
  unfold Fips180.sha256. rewrite concat_be_length, absorb_compression_length; [done|].
  by rewrite <- (initial_fips []).
Qed.

Lemma md5_hash_spec e g f :
  length g = 64%nat -> bytes_ok f -> md5_hash e g f = Some (Some (hex (Rfc1321.md5 f))).
Proof.
  intros Hg Hf. unfold md5_hash.
  destruct (hash_loop_chunks (MD5_hash e) (S (length f)) f (MD5_begin g)) as (ds & Hc & ->);
    [lia|]. cbn. do 2 f_equal.
  rewrite (md5_end_spec e f) by (rewrite <- Hc; by apply md5_stream_inv).
  rewrite md5_result_rfc by done. apply hash_string_hex; [by rewrite md5_length|done].
Qed.

Lemma sha256_hash_spec e g W0 f :
  length g = 64%nat -> length W0 = 64%nat -> bytes_ok f ->
  sha256_hash e g W0 f = Some (Some (hex (Fips180.sha256 f))).
Proof.
  intros Hg HW Hf. unfold sha256_hash.
  destruct (hash_loop_chunks (SHA256_Update e W0) (S (length f)) f (SHA256_Init g))
    as (ds & Hc & ->); [lia|]. cbn [option_bind mbind]. do 2 f_equal.
  rewrite (sha_final_spec e W0 f) by (try done; rewrite <- Hc; by apply sha_stream_inv).
  apply hash_string_hex; [by rewrite sha256_length|done].
Qed.

(** [md5_hash] reads the stream in pieces to its end, terminates, and returns
    the hexadecimal RFC 1321 digest of all of it. *)
Theorem md5_hash_digest (e : endian) (g f : list Z)
    (Hg : length g = 64%nat) (Hf : bytes_ok f) :
  md5_hash e g f = Some (Some (hex (Rfc1321.md5 f))).
Proof. by apply md5_hash_spec. Qed.

Lemma md5_hash_digest_witness :
  md5_hash LE (replicate 64 5) (bytes_of "message digest")
  = Some (Some "f96b697d7cb7938d525a2f31aaf161d0"%string).
Proof.
  rewrite (md5_hash_digest LE); [by vm_compute|done|apply bytes_of_ok].
Defined.

(** [sha256_hash] reads the stream in pieces to its end, terminates, and
    returns the hexadecimal FIPS 180-4 digest of all of it. *)
Theorem sha256_hash_digest (e : endian) (g W0 f : list Z)
    (Hg : length g = 64%nat) (HW : length W0 = 64%nat) (Hf : bytes_ok f) :
  sha256_hash e g W0 f = Some (Some (hex (Fips180.sha256 f))).
Proof. by apply sha256_hash_spec. Qed.

Lemma sha256_hash_digest_witness :
  sha256_hash BE (replicate 64 5) (replicate 64 6) (bytes_of "abc")
  = Some (Some "ba7816bf8f01cfea414140de5dae2223b00361a396177a9cb410ff61f20015ad"%string).
Proof.
  rewrite (sha256_hash_digest BE); [by vm_compute|done|done|apply bytes_of_ok].
Defined.

(** ** The command line *)

Section Files.
Context (fs : string -> node) (junk : bool) (add_filename no_newline : bool).
Context (t : hash_type) (D : list Z -> list Z).
(** The row hashes streams of bytes to [D]. *)
Context (Ht : forall f, bytes_ok f -> func t f = Some (Some (hex (D f)))).

(** What one file contributes to standard output. *)
Definition line (nf : string * list Z) : string :=
  hex (D (nf.2)) +:+ (if add_filename then " " +:+ nf.1 else "")
  +:+ (if no_newline then "" else newline).

Definition lines (l : list (string * list Z)) : string :=
  foldr (fun nf s => line nf +:+ s) EmptyString l.

(** A list of names the file system knows, with their contents. *)
Definition readable (nf : string * list Z) : Prop :=
  nf.1 <> "-"%string /\ fs nf.1 = File (nf.2) /\ bytes_ok (nf.2).

Definition out (s : string) (w : io) : io := Io (stdin w) (stdout w +:+ s) (stderr w).

Lemma hash_file_readable nf w :
  readable nf ->
  hash_file fs junk t (Some nf.1) add_filename no_newline w = Ret 0 (out (line nf) w).
Proof.
  intros (Hn & Hfs & Hb). destruct nf as [n f]. cbn in *. unfold hash_file.
  rewrite bool_decide_eq_false_2 by done. rewrite Hfs.
  unfold mbind, prog_bind, defined. rewrite Ht by done. unfold print_hash, out, line. cbn.
  destruct add_filename, no_newline; cbn; by rewrite ?string_app_assoc, ?string_app_nil.
Qed.

Lemma hash_files_readable l rest w :
  Forall readable l ->
  hash_files fs junk t (map fst l ++ rest) add_filename no_newline w
  = hash_files fs junk t rest add_filename no_newline (out (lines l) w).
Proof.
  intros Hl. revert w. induction Hl as [|nf l Hnf Hl IH]; intros w; cbn [map app].
  - unfold out, lines. cbn. rewrite string_app_nil. by destruct w.
  - cbn [hash_files]. unfold mbind at 1, prog_bind at 1.
    rewrite hash_file_readable by done. cbn. rewrite IH. unfold out, lines. cbn.
    by rewrite string_app_assoc.
Qed.

Lemma hash_file_blocked n w :
  n <> "-"%string -> (forall f, fs n <> File f) ->
  exists err, hash_file fs junk t (Some n) add_filename no_newline w
              = Ret 1 (Io (stdin w) (stdout w) (stderr w +:+ err)) /\ err <> ""%string.
Proof.
  intros Hn Hf. unfold hash_file. rewrite bool_decide_eq_false_2 by done.
  destruct (fs n) as [|f| |] eqn:E; [| |destruct junk|destruct junk];
    try (by destruct (Hf f)); eexists; split; try reflexivity; discriminate.
Qed.

(** What [hash_files] does on a list of names: all can be read, or the first that
    cannot stops it. *)
Lemma hash_files_all l w :
  Forall readable l ->
  hash_files fs junk t (map fst l) add_filename no_newline w = Ret 0 (out (lines l) w).
Proof.
  intros Hl. rewrite <- (app_nil_r (map fst l)). by rewrite hash_files_readable.
Qed.

Lemma hash_files_stop l n rest w :
  Forall readable l -> n <> "-"%string -> (forall f, fs n <> File f) ->
  exists err, err <> ""%string /\
    hash_files fs junk t (map fst l ++ n :: rest) add_filename no_newline w
    = Ret 1 (Io (stdin w) (stdout w +:+ lines l) (stderr w +:+ err)).
Proof.
  intros Hl Hn Hf. rewrite hash_files_readable by done. cbn [hash_files].
  destruct (hash_file_blocked n (out (lines l) w) Hn Hf) as (err & E & Herr).
  exists err. split; [done|]. unfold mbind, prog_bind. by rewrite E.
Qed.
End Files.

(** The rows of [types], with the digest each one computes. *)
Definition digest_of (sha : bool) : list Z -> list Z :=
  if sha then Fips180.sha256 else Rfc1321.md5.
Definition type_name (sha : bool) : string := if sha then "sha256" else "md5".

(** Contents of the indeterminate arrays have their size. *)
Record sizes (mg sg W0 : list Z) : Prop := Sizes {
  mg_len : length mg = 64%nat; sg_len : length sg = 64%nat; W0_len : length W0 = 64%nat
}.

Lemma get_hash_type_row e mg sg W0 sha :
  sizes mg sg W0 ->
  exists t, get_hash_type e mg sg W0 (type_name sha) = Some t /\
    forall f, bytes_ok f -> func t f = Some (Some (hex (digest_of sha f))).
Proof.
  intros [? ? ?]. unfold get_hash_type, types.
  destruct sha; cbn [type_name List.find name bool_decide].
  - exists (HashType "sha256" (sha256_hash e sg W0) SHA256_DIGEST_LENGTH).
    split; [done|]. intros. by apply sha256_hash_spec.
  - exists (HashType "md5" (md5_hash e mg) MD5_DIGEST_LENGTH).
    split; [done|]. intros. by apply md5_hash_spec.
Qed.

(** [mkhash <type> file...] on files that can all be read prints, for each
    file in order, the digest the standard defines for its contents, with the name
    and the line feed as the options say, writes nothing to standard error, leaves
    standard input alone and exits with 0. *)
Theorem main_files (e : endian) (mg sg W0 : list Z) (fs : string -> node) (junk sha : bool)
    (prog_name : string) (opts : list ascii) (an nn : bool) (nf : string * list Z)
    (l : list (string * list Z)) (w : io)
    (Hs : sizes mg sg W0) (Ho : options opts false false = Some (an, nn))
    (Hl : Forall (readable fs) (nf :: l)) :
  main e mg sg W0 fs junk prog_name opts (type_name sha :: map fst (nf :: l)) w
  = Ret 0 (out (lines an nn (digest_of sha) (nf :: l)) w).
Proof.
  destruct (get_hash_type_row e mg sg W0 sha Hs) as (t & Ht & Hd).
  unfold main. rewrite Ho, Ht. cbn [map].
  by rewrite <- (hash_files_all fs junk an nn t (digest_of sha) Hd (nf :: l) w Hl).
Qed.

Lemma main_files_witness :
  main LE (replicate 64 1) (replicate 64 2) (replicate 64 3)
    (fun n => if bool_decide (n = "a"%string) then File (bytes_of "abc") else Missing) true
    "mkhash" ["n"%char] ["md5"%string; "a"%string] (Io [] "" "")
  = Ret 0 (Io [] ("900150983cd24fb0d6963f7d28e17f72 a" +:+ newline) "").
Proof.
  refine (eq_trans (main_files LE (replicate 64 1) (replicate 64 2) (replicate 64 3) _ true false
    "mkhash" ["n"%char] true false ("a"%string, bytes_of "abc") [] (Io [] "" "") _ _ _) _).
  - by split.
  - reflexivity.
  - constructor; [|constructor]. split; [discriminate|split; [reflexivity|apply bytes_of_ok]].
  - vm_compute. reflexivity.
Defined.

(** The first operand that is a directory, cannot be opened or does not exist
    stops the program with status 1: the digests of the files before it are
    printed, nothing behind it is read, and standard error gets a message. For a
    missing file this holds whatever the structure that [stat] did not fill says. *)
Theorem main_first_failure (e : endian) (mg sg W0 : list Z) (fs : string -> node)
    (junk sha : bool) (prog_name : string) (opts : list ascii) (an nn : bool)
    (l : list (string * list Z)) (n : string) (rest : list string) (w : io)
    (Hs : sizes mg sg W0) (Ho : options opts false false = Some (an, nn))
    (Hl : Forall (readable fs) l) (Hn : n <> "-"%string) (Hf : forall f, fs n <> File f) :
  exists err, err <> ""%string /\
    main e mg sg W0 fs junk prog_name opts (type_name sha :: map fst l ++ n :: rest) w
    = Ret 1 (Io (stdin w) (stdout w +:+ lines an nn (digest_of sha) l) (stderr w +:+ err)).
Proof.
  destruct (get_hash_type_row e mg sg W0 sha Hs) as (t & Ht & Hd).
  destruct (hash_files_stop fs junk an nn t (digest_of sha) Hd l n rest w Hl Hn Hf)
    as (err & Herr & E).
  exists err. split; [done|]. rewrite <- E. unfold main. rewrite Ho, Ht.
  by destruct (map fst l).
Qed.

Lemma main_first_failure_witness :
  exists err, err <> ""%string /\
  main BE (replicate 64 1) (replicate 64 2) (replicate 64 3)
    (fun n => if bool_decide (n = "a"%string) then File [] else Missing) true
    "mkhash" [] ["sha256"%string; "a"%string; "b"%string; "a"%string] (Io [] "" "")
  = Ret 1 (Io [] ("e3b0c44298fc1c149afbf4c8996fb92427ae41e4649b934ca495991b7852b855"
                  +:+ newline) ("" +:+ err)).
Proof.
  edestruct (main_first_failure BE (replicate 64 1) (replicate 64 2) (replicate 64 3)
    (fun n => if bool_decide (n = "a"%string) then File [] else Missing) true true
    "mkhash" [] false false [("a"%string, [])] "b" ["a"%string] (Io [] "" ""))
    as (err & Herr & E).
  - by split.
  - reflexivity.
  - constructor; [|constructor]. split; [discriminate|split; [reflexivity|constructor]].
  - discriminate.
  - intros f. discriminate.
  - exists err. split; [exact Herr|]. refine (eq_trans E _). vm_compute. reflexivity.
Defined.

(** ** The hexadecimal digest *)

Lemma digit_val_hex d : 0 <= d < 16 -> digit_val (hex_digit false d) = Some d.
Proof.
  intros Hd.
  assert (forallb (fun d => bool_decide (digit_val (hex_digit false d) = Some d))
    (map Z.of_nat (seq 0 16)) = true) as Hall by reflexivity.
  rewrite forallb_forall in Hall. apply (bool_decide_eq_true_1 _), Hall.
  rewrite <- (Z2Nat.id d) by lia. apply in_map, in_seq. lia.
Qed.

Lemma hex_fixed_2 b :
  is_byte b -> hex_fixed false 2 b
  = String (hex_digit false (b / 16)) (String (hex_digit false (b mod 16)) "").
Proof.
  unfold is_byte. intros Hb. unfold hex_fixed. change (16 ^ Z.of_nat 1) with 16.
  change (16 ^ Z.of_nat 0) with 1. rewrite Z.div_1_r, (Z.mod_small (b / 16)); [done|].
  Z.to_euclidean_division_equations; lia.
Qed.

Lemma take_digits_hex l acc :
  bytes_ok l ->
  take_digits 16 (hex l) acc = (acc * 256 ^ Z.of_nat (length l) + be_val l, ""%string).
Proof.
  intros Hl. revert acc. induction Hl as [|b l Hb Hl IH]; intros acc.
  - cbn. f_equal. lia.
  - cbn [hex foldr]. fold (hex l). rewrite hex_fixed_2 by done.
    change (String ?x (String ?y "") +:+ ?z) with (String x (String y z)).
    unfold is_byte in Hb.
    assert (0 <= b / 16 < 16 /\ 0 <= b mod 16 < 16 /\ b = 16 * (b / 16) + b mod 16) as
      (H1 & H2 & Hsum) by (Z.to_euclidean_division_equations; lia).
    cbn [take_digits]. rewrite !digit_val_hex by done.
    do 2 (case_bool; try lia). rewrite IH, be_val_cons. f_equal. cbn [length].
    rewrite pow256. set (Pw := 256 ^ Z.of_nat (length l)).
    assert (Pw * b = Pw * (16 * (b / 16) + b mod 16)) as -> by (f_equal; exact Hsum). ring.
Qed.

Lemma strlen_hex l : bytes_ok l -> strlen (hex l) = 2 * Z.of_nat (length l).
Proof.
  induction 1 as [|b l Hb _ IH]; [done|]. cbn [hex foldr]. fold (hex l).
  rewrite strlen_app, IH, hex_fixed_2 by done. cbn [length]. unfold strlen at 1. cbn. lia.
Qed.

(** The hexadecimal form of [hash_string]: two digits per byte, from which
    the bytes can be read back; the null pointer exactly when the digest does not
    fit the static string. *)
Theorem hash_string_roundtrip (l : list Z) (Hl : bytes_ok l) :
  match hash_string l (Z.of_nat (length l)) with
  | None => (32 < length l)%nat
  | Some s => (length l <= 32)%nat /\ strlen s = 2 * Z.of_nat (length l) /\
              be_bytes (length l) (fst (take_digits 16 s 0)) = l
  end.
Proof.
  unfold hash_string, SHA256_DIGEST_LENGTH. case_bool; [lia|].
  rewrite take_ge by lia. fold (hex l). split; [lia|]. split; [by apply strlen_hex|].
  rewrite take_digits_hex by done. cbn. by apply be_bytes_val.
Qed.

Lemma hash_string_roundtrip_witness :
  hash_string [0x0a; 0xf0; 0x3c] 3 = Some "0af03c"%string /\
  match hash_string [0x0a; 0xf0; 0x3c] 3 with
  | None => (32 < 3)%nat
  | Some s => (3 <= 32)%nat /\ strlen s = 6 /\
              be_bytes 3 (fst (take_digits 16 s 0)) = [0x0a; 0xf0; 0x3c]
  end.
Proof.
  split; [reflexivity|]. apply (hash_string_roundtrip [0x0a; 0xf0; 0x3c]).
  unfold is_byte. repeat constructor; lia.
Defined.
