(* ===== verification/Nvram.v ===== *)
(** * The nvram library and command

    Models [package/utils/nvram/src]: the CRC of [crc.c], and the tuple table and
    the memory image of [nvram.c] with its header, [nvram_set], [nvram_get],
    [nvram_unset], [nvram_getall], [nvram_commit], [_nvram_rehash] and the checks
    of [nvram_open]. A C string is the list of its bytes before the NUL.

    Then [cli.c]: the sub-commands on an open handle and the loop of [main] over the
    arguments. Opening, the staging file and the copy back to the device are outside:
    [main] gets the handle (or its failure) and reports whether the staging file is to
    be copied. Of [do_info] the checksum and the integer fields are modelled, not the
    percentage in floating point. *)

From Stdlib Require Import ZArith Lia String Ascii.
From stdpp Require Import base list strings numbers option.
From S2P Require Import Prelude CString.

(** ** crc.c *)

Definition crc8_table : list Z :=
  [0x00; 0xF7; 0xB9; 0x4E; 0x25; 0xD2; 0x9C; 0x6B;
   0x4A; 0xBD; 0xF3; 0x04; 0x6F; 0x98; 0xD6; 0x21;
   0x94; 0x63; 0x2D; 0xDA; 0xB1; 0x46; 0x08; 0xFF;
   0xDE; 0x29; 0x67; 0x90; 0xFB; 0x0C; 0x42; 0xB5;
   0x7F; 0x88; 0xC6; 0x31; 0x5A; 0xAD; 0xE3; 0x14;
   0x35; 0xC2; 0x8C; 0x7B; 0x10; 0xE7; 0xA9; 0x5E;
   0xEB; 0x1C; 0x52; 0xA5; 0xCE; 0x39; 0x77; 0x80;
   0xA1; 0x56; 0x18; 0xEF; 0x84; 0x73; 0x3D; 0xCA;
   0xFE; 0x09; 0x47; 0xB0; 0xDB; 0x2C; 0x62; 0x95;
   0xB4; 0x43; 0x0D; 0xFA; 0x91; 0x66; 0x28; 0xDF;
   0x6A; 0x9D; 0xD3; 0x24; 0x4F; 0xB8; 0xF6; 0x01;
   0x20; 0xD7; 0x99; 0x6E; 0x05; 0xF2; 0xBC; 0x4B;
   0x81; 0x76; 0x38; 0xCF; 0xA4; 0x53; 0x1D; 0xEA;
   0xCB; 0x3C; 0x72; 0x85; 0xEE; 0x19; 0x57; 0xA0;
   0x15; 0xE2; 0xAC; 0x5B; 0x30; 0xC7; 0x89; 0x7E;
   0x5F; 0xA8; 0xE6; 0x11; 0x7A; 0x8D; 0xC3; 0x34;
   0xAB; 0x5C; 0x12; 0xE5; 0x8E; 0x79; 0x37; 0xC0;
   0xE1; 0x16; 0x58; 0xAF; 0xC4; 0x33; 0x7D; 0x8A;
   0x3F; 0xC8; 0x86; 0x71; 0x1A; 0xED; 0xA3; 0x54;
   0x75; 0x82; 0xCC; 0x3B; 0x50; 0xA7; 0xE9; 0x1E;
   0xD4; 0x23; 0x6D; 0x9A; 0xF1; 0x06; 0x48; 0xBF;
   0x9E; 0x69; 0x27; 0xD0; 0xBB; 0x4C; 0x02; 0xF5;
   0x40; 0xB7; 0xF9; 0x0E; 0x65; 0x92; 0xDC; 0x2B;
   0x0A; 0xFD; 0xB3; 0x44; 0x2F; 0xD8; 0x96; 0x61;
   0x55; 0xA2; 0xEC; 0x1B; 0x70; 0x87; 0xC9; 0x3E;
   0x1F; 0xE8; 0xA6; 0x51; 0x3A; 0xCD; 0x83; 0x74;
   0xC1; 0x36; 0x78; 0x8F; 0xE4; 0x13; 0x5D; 0xAA;
   0x8B; 0x7C; 0x32; 0xC5; 0xAE; 0x59; 0x17; 0xE0;
   0x2A; 0xDD; 0x93; 0x64; 0x0F; 0xF8; 0xB6; 0x41;
   0x60; 0x97; 0xD9; 0x2E; 0x45; 0xB2; 0xFC; 0x0B;
   0xBE; 0x49; 0x07; 0xF0; 0x9B; 0x6C; 0x22; 0xD5;
   0xF4; 0x03; 0x4D; 0xBA; 0xD1; 0x26; 0x68; 0x9F].

Fixpoint hndcrc8 (pdata : list Z) (crc : Z) : Z :=
  match pdata with
  | [] => crc
  | b :: r => hndcrc8 r (crc8_table !!! Z.to_nat (Z.land (Z.lxor crc b) 0xff))
  end.

(** ** Constants of nvram.h and sdinitvals.h *)

Definition NVRAM_MIN_SPACE : Z := 0x8000.
Definition NVRAM_MAGIC : Z := 0x48534C46.
Definition NVRAM_VERSION : Z := 1.
Definition NVRAM_CRC_START_POSITION : nat := 9.
Definition NVRAM_ROUNDUP (x y : Z) : Z := Z.quot (x + (y - 1)) y * y.
Definition SDRAM_REF_EN : Z := 0x8000.
Definition SDRAM_REF (p : Z) : Z := Z.lor (Z.land p 0xff) SDRAM_REF_EN.
Definition SDRAM_INIT : Z := 0x419.
Definition SDRAM_CONFIG : Z := 0.
Definition SDRAM_REFRESH : Z := SDRAM_REF 0x40.

(** Entries of [nvram_hash], and [sizeof(nvram_header_t)]. *)
Definition buckets : nat := 257.
Definition header_size : nat := 20.

(** ** Data *)

Abbreviation cstr := (list Z).

(** [struct nvram_tuple]; the [next] pointers are the order of the lists. *)
Record nvram_tuple := Tuple { tname : cstr; tvalue : option cstr }.

(** [struct nvram_handle], and what the next calls of the allocator answer
    ([true] is success, as is an exhausted list). The descriptor is left out. *)
Record nvram_handle := Handle {
  mmap : list Z;
  length : Z;
  offset : Z;
  nvram_hash : list (list nvram_tuple);
  nvram_dead : list nvram_tuple;
  allocs : list bool
}.

(** [-ENOMEM]. *)
Definition ENOMEM : Z := -12.

Definition with_table (t : list (list nvram_tuple)) (h : nvram_handle) : nvram_handle :=
  Handle (mmap h) (length h) (offset h) t (nvram_dead h) (allocs h).
Definition with_mmap (m : list Z) (h : nvram_handle) : nvram_handle :=
  Handle m (length h) (offset h) (nvram_hash h) (nvram_dead h) (allocs h).

Definition alloc (h : nvram_handle) : bool * nvram_handle :=
  match allocs h with
  | [] => (true, h)
  | b :: r => (b, Handle (mmap h) (length h) (offset h) (nvram_hash h) (nvram_dead h) r)
  end.

Definition slen (s : cstr) : Z := Z.of_nat (List.length s).

(** The bytes of a string in memory up to the NUL; [None] when there is none. *)
Fixpoint c_string (m : list Z) : option cstr :=
  match m with
  | [] => None
  | b :: r => if b =? 0 then Some [] else s ← c_string r; Some (b :: s)
  end.

(** [strchr(s, '=')]: what precedes it and what follows. *)
Fixpoint split_eq (s : cstr) : option (cstr * cstr) :=
  match s with
  | [] => None
  | b :: r => if b =? 61 then Some ([], r) else '(n, v) ← split_eq r; Some (b :: n, v)
  end.

(** Writes and reads in the mapping; outside of it they are undefined. *)
Definition put (off : nat) (bs m : list Z) : option (list Z) :=
  if (off + List.length bs <=? List.length m)%nat then Some (write off bs m) else None.

(** The first tuple called [name], with what precedes and what follows it. *)
Fixpoint find_tuple (name : cstr) (l : list nvram_tuple)
    : option (list nvram_tuple * nvram_tuple * list nvram_tuple) :=
  match l with
  | [] => None
  | t :: r =>
      if bool_decide (tname t = name) then Some ([], t, r)
      else match find_tuple name r with
           | Some (p, u, q) => Some (t :: p, u, q)
           | None => None
           end
  end.

(** What [_nvram_realloc] returns: the null pointer, the tuple it was given, or a
    new one; in the first two cases with the tuple as it left it. *)
Inductive realloc_result :=
  | Failed (t : option nvram_tuple)
  | Same (u : nvram_tuple)
  | New (u : nvram_tuple).

(** The platform: byte order, signedness of [char], width of [unsigned long], and
    the address the partition is mapped at. *)
Section Platform.
Context (e : endian) (schar : bool) (ulong : Z) (addr : Z).

Definition char_value (b : Z) : Z := if schar then swrap 8 b else b.

Definition hash (s : cstr) : Z :=
  foldl (fun hash c => u32 (31 * hash + char_value c)) 0 s.

Definition bucket_of (name : cstr) : nat := Z.to_nat (hash name mod Z.of_nat buckets).

(** Frees the tuples; their memory is not modelled. *)
Definition _nvram_free (h : nvram_handle) : nvram_handle :=
  Handle (mmap h) (length h) (offset h) (replicate buckets []) [] (allocs h).

Definition _nvram_realloc (h : nvram_handle) (t : option nvram_tuple) (name value : cstr)
    : realloc_result * nvram_handle :=
  if u32 (length h - offset h) <? slen value + 1 then (Failed t, h)
  else
    let '(ok, h) := match t with None => alloc h | Some _ => (true, h) end in
    if negb ok then (Failed None, h)
    else
      let u := default (Tuple name None) t in
      let ret u := match t with None => New u | Some _ => Same u end in
      if bool_decide (tvalue u = Some value) then (ret u, h)
      else
        let '(ok, h) := alloc h in
        if ok then (ret (Tuple (tname u) (Some value)), h)
        else (Failed (match t with None => None | Some t => Some (Tuple (tname t) None) end), h).

Definition bucket (h : nvram_handle) (i : nat) : list nvram_tuple := nvram_hash h !!! i.

Definition set_bucket (i : nat) (l : list nvram_tuple) (h : nvram_handle) : nvram_handle :=
  with_table (<[i := l]> (nvram_hash h)) h.

Definition nvram_get (h : nvram_handle) (name : option cstr) : option cstr :=
  match name with
  | None => None
  | Some name =>
      match find_tuple name (bucket h (bucket_of name)) with
      | Some (_, t, _) => tvalue t
      | None => None
      end
  end.

Definition nvram_set (h : nvram_handle) (name value : cstr) : Z * nvram_handle :=
  let i := bucket_of name in
  match find_tuple name (bucket h i) with
  | Some (pre, t, post) =>
      match _nvram_realloc h (Some t) name value with
      | (Failed t', h) => (ENOMEM, set_bucket i (pre ++ default t t' :: post) h)
      | (Same u, h) => (0, set_bucket i (pre ++ u :: post) h)
      | (New u, h) =>
          let h := set_bucket i (u :: pre ++ post) h in
          (0, Handle (mmap h) (length h) (offset h) (nvram_hash h) (t :: nvram_dead h) (allocs h))
      end
  | None =>
      match _nvram_realloc h None name value with
      | (Failed _, h) => (ENOMEM, h)
      | (Same u, h) | (New u, h) => (0, set_bucket i (u :: bucket h i) h)
      end
  end.

Definition nvram_unset (h : nvram_handle) (name : option cstr) : Z * nvram_handle :=
  match name with
  | None => (0, h)
  | Some name =>
      let i := bucket_of name in
      match find_tuple name (bucket h i) with
      | Some (pre, t, post) =>
          let h := set_bucket i (pre ++ post) h in
          (0, Handle (mmap h) (length h) (offset h) (nvram_hash h) (t :: nvram_dead h) (allocs h))
      | None => (0, h)
      end
  end.

(** The copies of one bucket are put in front of [l]; a failed allocation ends
    the bucket, not the outer loop. *)
Fixpoint getall_bucket (ts : list nvram_tuple) (l : list nvram_tuple) (h : nvram_handle)
    : list nvram_tuple * nvram_handle :=
  match ts with
  | [] => (l, h)
  | t :: r =>
      let '(ok, h) := alloc h in
      if ok : bool then getall_bucket r (t :: l) h else (l, h)
  end.

Definition nvram_getall (h : nvram_handle) : list nvram_tuple * nvram_handle :=
  foldl (fun '(l, h) ts => getall_bucket ts l h) ([], h) (nvram_hash h).

(** ** The memory image *)

(** A word of the header, by its byte offset. *)
Definition header_word (h : nvram_handle) (k : nat) : Z :=
  load e (slice (Z.to_nat (offset h) + k) 4 (mmap h)).
Definition magic (h : nvram_handle) : Z := header_word h 0.
Definition len (h : nvram_handle) : Z := header_word h 4.
Definition crc_ver_init (h : nvram_handle) : Z := header_word h 8.
Definition config_refresh (h : nvram_handle) : Z := header_word h 12.
Definition config_ncdl (h : nvram_handle) : Z := header_word h 16.

Definition put_header (k : nat) (z : Z) (h : nvram_handle) : option nvram_handle :=
  m ← put (Z.to_nat (offset h) + k) (store e 4 z) (mmap h); Some (with_mmap m h).

(** The parsing loop of [_nvram_rehash] from position [p]; [None] is a read
    outside the mapping, or not enough fuel. *)
Fixpoint parse (fuel : nat) (p : nat) (h : nvram_handle) : option nvram_handle :=
  match fuel with
  | O => None
  | S fuel =>
      s ← c_string (drop p (mmap h));
      match s with
      | [] => Some h
      | _ =>
          match split_eq s with
          | None => Some h
          | Some (name, value) =>
              parse fuel (p + List.length s + 1) (snd (nvram_set h name value))
          end
      end
  end.

(** [sprintf(buf, "0x%04X", ...)] and its 8-digit form. *)
Definition hex_buf (digits : nat) (z : Z) : cstr := bytes_of ("0x" +:+ hex_fixed true digits z).

(** [if (!nvram_get(h, name)) { sprintf(buf, ...); nvram_set(h, name, buf); }] *)
Definition set_default (name : string) (digits : nat) (z : Z) (h : nvram_handle) : nvram_handle :=
  match nvram_get h (Some (bytes_of name)) with
  | Some _ => h
  | None => snd (nvram_set h (bytes_of name) (hex_buf digits z))
  end.

(** Each round of the loop moves [p] on: the length of the mapping is enough. *)
Definition _nvram_rehash (h : nvram_handle) : option (Z * nvram_handle) :=
  h ← parse (List.length (mmap h)) (Z.to_nat (offset h) + header_size) (_nvram_free h);
  let h := set_default "sdram_init" 4 (u16 (Z.shiftr (crc_ver_init h) 16)) h in
  let h := set_default "sdram_config" 4 (u16 (Z.land (config_refresh h) 0xffff)) h in
  let h := set_default "sdram_refresh" 4
             (u16 (Z.land (Z.shiftr (config_refresh h) 16) 0xffff)) h in
  let h := set_default "sdram_ncdl" 8 (config_ncdl h) h in
  Some (0, h).

(** ** nvram_commit *)

(** [strtoul(s, NULL, 0)]. *)
Definition number (s : cstr) : Z := fst (strtoul ulong (string_of s) 0).

(** [header->crc_ver_init], [config_refresh] and [config_ncdl] before the CRC. The
    shift of [SDRAM_REFRESH] reaches the sign bit of [int] and wraps as GCC does. *)
Definition commit_words (h : nvram_handle) : option (Z * Z * Z) :=
  let get n := nvram_get h (Some (bytes_of n)) in
  let version := Z.shiftl NVRAM_VERSION 8 in
  match get "sdram_init", get "sdram_config", get "sdram_refresh", get "sdram_ncdl" with
  | Some init, Some config, Some refresh, Some ncdl =>
      let hi s := wrap ulong (Z.shiftl (Z.land (number s) 0xffff) 16) in
      Some (u32 (Z.lor version (hi init)),
            u32 (Z.lor (u32 (Z.land (number config) 0xffff)) (hi refresh)),
            u32 (number ncdl))
  | _, _, _, _ =>
      init ← int_shl SDRAM_INIT 16;
      refresh ← int_shl SDRAM_REFRESH 16;
      Some (Z.lor version (u32 init), Z.lor SDRAM_CONFIG (u32 refresh), 0)
  end.

(** [sprintf(ptr, "%s=%s", name, value)] with its NUL. *)
Definition entry (name value : cstr) : list Z := name ++ 61 :: value ++ [0].

(** The inner loop: it ends at the first tuple that does not fit. [ptr] and [end_]
    are positions in the mapping; [None]: a null value, or a write outside. *)
Fixpoint write_bucket (ts : list nvram_tuple) (end_ : Z) (ptr : nat) (m : list Z)
    : option (nat * list Z) :=
  match ts with
  | [] => Some (ptr, m)
  | t :: r =>
      value ← tvalue t;
      if end_ <? Z.of_nat ptr + slen (tname t) + 1 + slen value + 1 then Some (ptr, m)
      else
        m ← put ptr (entry (tname t) value) m;
        write_bucket r end_ (ptr + List.length (entry (tname t) value)) m
  end.

Fixpoint write_table (tbl : list (list nvram_tuple)) (end_ : Z) (ptr : nat) (m : list Z)
    : option (nat * list Z) :=
  match tbl with
  | [] => Some (ptr, m)
  | ts :: r => '(ptr, m) ← write_bucket ts end_ ptr m; write_table r end_ ptr m
  end.

(** How many zeros [memset(ptr, 0, 4 - ((int)ptr % 4))] writes. *)
Definition pad_zeros (ptr : nat) : nat :=
  let r := Z.rem (s32 (addr + Z.of_nat ptr)) 4 in
  if r =? 0 then 0%nat else Z.to_nat (4 - r).

(** "Regenerate header": the words without length and checksum. *)
Definition commit_header (h : nvram_handle) : option (Z * Z * Z * nvram_handle) :=
  h ← put_header 0 NVRAM_MAGIC h;
  '(cvi, cr, ncdl) ← commit_words h;
  h ← put_header 8 cvi h;
  h ← put_header 12 cr h;
  h ← put_header 16 ncdl h;
  Some (cvi, cr, ncdl, h).

(** "Clear data area" to "Set new length". *)
Definition commit_data (part_size : Z) (h : nvram_handle) : option nvram_handle :=
  let start := Z.to_nat (offset h) in
  let ptr := (start + header_size)%nat in
  let area := part_size - offset h - Z.of_nat header_size in
  if area <? 0 then None
  else
    m ← put ptr (replicate (Z.to_nat area) 0xFF) (mmap h);
    '(ptr, m) ← write_table (nvram_hash h) (part_size - 2) ptr m;
    m ← put ptr [0] m;
    let ptr := S ptr in
    m ← put ptr (replicate (pad_zeros ptr) 0) m;
    let ptr := S ptr in
    put_header 4 (NVRAM_ROUNDUP (Z.of_nat ptr - Z.of_nat start) 4) (with_mmap m h).

(** The two calls of [hndcrc8] and "Set new CRC8". *)
Definition commit_crc (cvi cr ncdl : Z) (h : nvram_handle) : option nvram_handle :=
  let data := (Z.to_nat (offset h) + header_size)%nat in
  let tmp := replicate 8 0 ++ store e 4 cvi ++ store e 4 cr ++ store e 4 ncdl in
  let crc := hndcrc8 (drop NVRAM_CRC_START_POSITION tmp) 0xff in
  let n := Z.to_nat (u32 (len h - Z.of_nat header_size)) in
  if (List.length (mmap h) <? data + n)%nat then None
  else
    let crc := hndcrc8 (slice data n (mmap h)) crc in
    put_header 8 (Z.lor (crc_ver_init h) crc) h.

Definition nvram_commit (part_size : Z) (h : nvram_handle) : option (Z * nvram_handle) :=
  '(cvi, cr, ncdl, h) ← commit_header h;
  h ← commit_data part_size h;
  h ← commit_crc cvi cr ncdl h;
  _nvram_rehash h.

(** ** nvram_open *)

(** The search for [NVRAM_MAGIC] in the mapped area: word [i] onwards, [n] words. *)
Fixpoint find_magic (n i : nat) (area : list Z) : option nat :=
  match n with
  | O => None
  | S n =>
      if load e (slice (i * 4) 4 area) =? NVRAM_MAGIC then Some (i * 4)%nat
      else find_magic n (S i) area
  end.

(** Behind [mmap]: [None] is undefined behaviour (a partition below the minimal
    size makes the bound of the search wrap around), [Some None] the null pointer. *)
Definition nvram_open_area (area : list Z) (rdonly : bool) (al : list bool)
    : option (option nvram_handle) :=
  let part_size := Z.of_nat (List.length area) in
  if part_size <? NVRAM_MIN_SPACE then None
  else
    match find_magic (S (Z.to_nat ((part_size - NVRAM_MIN_SPACE) / 4))) 0 area with
    | None => Some None
    | Some off =>
        let h := Handle area part_size (Z.of_nat off) (replicate buckets []) [] al in
        let '(ok, h) := alloc h in
        if negb ok then Some None
        else if (magic h =? NVRAM_MAGIC) && (rdonly || (len h <? u32 (length h - offset h))) then
          '(_, h) ← _nvram_rehash h; Some (Some h)
        else Some None
    end.
End Platform.

Section Platform.
Context (e : endian) (schar : bool) (ulong : Z) (addr : Z).

(** [printf("%s=%s\n", ...)] down the list; a null value is undefined. *)
Fixpoint show_tuples (l : list nvram_tuple) : option (list Z) :=
  match l with
  | [] => Some []
  | t :: r => v ← tvalue t; s ← show_tuples r; Some (tname t ++ 61 :: v ++ 10 :: s)
  end.

(** Status, output and handle of a sub-command. *)
Definition do_show (h : nvram_handle) : option (Z * list Z * nvram_handle) :=
  let '(l, h) := nvram_getall h in
  match l with
  | [] => Some (1, [], h)
  | _ => out ← show_tuples l; Some (0, out, h)
  end.

Definition do_get (h : nvram_handle) (var : cstr) : Z * list Z * nvram_handle :=
  match nvram_get schar h (Some var) with
  | Some val => (0, val ++ [10], h)
  | None => (1, [], h)
  end.

Definition do_unset (h : nvram_handle) (var : cstr) : Z * list Z * nvram_handle :=
  let '(stat, h) := nvram_unset schar h (Some var) in (stat, [], h).

Definition do_set (h : nvram_handle) (pair : cstr) : Z * list Z * nvram_handle :=
  match split_eq pair with
  | Some (var, val) => let '(stat, h) := nvram_set schar h var val in (stat, [], h)
  | None => (1, [], h)
  end.

(** The checksum [do_info] calculates, and the one it shows next to it; [None] is
    a read outside the mapping. *)
Definition do_info (h : nvram_handle) : option (Z * Z) :=
  let start := (Z.to_nat (offset h) + NVRAM_CRC_START_POSITION)%nat in
  let n := Z.to_nat (u32 (len e h - Z.of_nat NVRAM_CRC_START_POSITION)) in
  if (List.length (mmap h) <? start + n)%nat then None
  else Some (Z.land (crc_ver_init e h) 0xFF, hndcrc8 (slice start n (mmap h)) 0xff).

(** State of the argument loop. *)
Record run := Run { stat : Z; commit : bool; done : Z; out : list Z; hdl : nvram_handle }.

Definition after (r : run) (res : Z * list Z * nvram_handle) : run :=
  let '(s, o, h) := res in Run s (commit r) (done r + 1) (out r ++ o) h.

Definition arg_is (a : cstr) (s : string) : bool := bool_decide (a = bytes_of s).

(** The loop over [argv + 1]; the messages on standard error are left out. *)
Fixpoint run_args (args : list cstr) (r : run) : option run :=
  match args with
  | [] => Some r
  | a :: rest =>
      if arg_is a "show" then res ← do_show (hdl r); run_args rest (after r res)
      else if arg_is a "info" then
        _ ← do_info (hdl r); run_args rest (after r (0, [], hdl r))
      else if arg_is a "get" || arg_is a "unset" || arg_is a "set" then
        match rest with
        | v :: rest =>
            run_args rest (after r
              (if arg_is a "get" then do_get (hdl r) v
               else if arg_is a "unset" then do_unset (hdl r) v
               else do_set (hdl r) v))
        | [] => Some (Run (stat r) (commit r) 0 (out r) (hdl r))
        end
      else if arg_is a "commit" then run_args rest (Run (stat r) true (done r + 1) (out r) (hdl r))
      else Some (Run (stat r) (commit r) 0 (out r) (hdl r))
  end.

(** Does [main] open the staging file for writing? *)
Definition expects_write (args : list cstr) : bool :=
  match args with
  | [] => false
  | a :: rest =>
      (arg_is a "set" || arg_is a "unset") && negb (bool_decide (rest = [])) || arg_is a "commit"
  end.

(** [main] from the handle [nvram_open_staging] or [nvram_open_rdonly] gave:
    status, output, the committed handle and whether [staging_to_nvram] is called,
    whose status [staged] then is the result. *)
Definition main (part_size : Z) (args : list cstr) (h : option nvram_handle) (staged : Z)
    : option (Z * list Z * option (nvram_handle * bool)) :=
  match args, h with
  | [], _ => Some (1, [], None)
  | _, None => Some (1, [], None)
  | _, Some h =>
      r ← run_args args (Run 1 false 0 [] h);
      '(st, h') ← (if expects_write args then nvram_commit e schar ulong addr part_size (hdl r)
                   else Some (stat r, hdl r));
      let st := if commit r then staged else st in
      Some ((if done r =? 0 then 1 else st), out r, Some (h', commit r))
  end.
End Platform.
