(* ===== verification/NvramTable.v ===== *)
(** * The tuple table as a finite map

    The chained hash table of nvram.c against a map from names to values: which
    table represents which map, and that [nvram_get], [nvram_set] and
    [nvram_unset] are lookup, insertion and deletion, with every failure of the
    allocator accounted for. *)

From Stdlib Require Import ZArith Lia.
From stdpp Require Import base list numbers option gmap.
From S2P Require Import Prelude Nvram.

(** ** One chain *)

(** The value a chain gives to a name. *)
Definition chain_value (l : list nvram_tuple) (n : cstr) : option cstr :=
  match find_tuple n l with Some (_, t, _) => tvalue t | None => None end.

Lemma find_tuple_Some n l p t q :
  find_tuple n l = Some (p, t, q) -> l = p ++ t :: q /\ tname t = n /\ n ∉ map tname p.
Proof.
  revert p t q. induction l as [|u l IH]; intros p t q; cbn; [done|].
  case_bool_decide as Hu.
  - intros [= <- <- <-]. repeat split; [done|]. apply not_elem_of_nil.
  - destruct (find_tuple n l) as [[[p' t'] q']|]; [|done].
    intros [= <- <- <-]. destruct (IH p' t' q' eq_refl) as (-> & Ht & Hp).
    repeat split; [done|]. cbn. rewrite not_elem_of_cons. by split; [congruence|].
Qed.

Lemma find_tuple_None n l : find_tuple n l = None -> n ∉ map tname l.
Proof.
  induction l as [|u l IH]; cbn; [intros _; apply not_elem_of_nil|].
  case_bool_decide as Hu; [done|].
  destruct (find_tuple n l) as [[[? ?] ?]|]; [done|]. intros _.
  rewrite not_elem_of_cons. split; [congruence|auto].
Qed.

Lemma chain_value_cons t l n :
  chain_value (t :: l) n = if decide (tname t = n) then tvalue t else chain_value l n.
Proof.
  unfold chain_value. cbn. case_bool_decide; destruct (decide _); try done.
  by destruct (find_tuple n l) as [[[? ?] ?]|].
Qed.

Lemma chain_value_not_in l n : n ∉ map tname l -> chain_value l n = None.
Proof.
  induction l as [|t l IH]; [done|]. cbn [map]. rewrite not_elem_of_cons. intros [Hn Hl].
  rewrite chain_value_cons. rewrite decide_False by congruence. auto.
Qed.

(** Changing the value of one tuple, or taking it out. *)
Lemma chain_value_at p t q n :
  tname t ∉ map tname p -> chain_value (p ++ t :: q) n
  = if decide (tname t = n) then tvalue t else chain_value (p ++ q) n.
Proof.
  intros Ht. induction p as [|u p IH]; cbn [app].
  - by rewrite chain_value_cons.
  - cbn [map] in Ht. rewrite not_elem_of_cons in Ht. destruct Ht as [Hu Ht].
    rewrite !chain_value_cons, IH by done.
    destruct (decide (tname u = n)), (decide (tname t = n)); congruence.
Qed.

Section Platform.
Context (schar : bool).

(** ** The table *)

(** Every tuple is in the chain its name hashes to, once. *)
Definition chain_ok (i : nat) (l : list nvram_tuple) : Prop :=
  Forall (fun t => bucket_of schar (tname t) = i) l /\ NoDup (map tname l).

Definition table_ok (h : nvram_handle) : Prop :=
  List.length (nvram_hash h) = buckets /\
  forall i, (i < buckets)%nat -> chain_ok i (bucket h i).

(** [repr h m]: the table of [h] is a hash table of the map [m]. A tuple whose
    value was lost counts as absent. *)
Definition repr (h : nvram_handle) (m : gmap cstr cstr) : Prop :=
  table_ok h /\ forall n, nvram_get schar h (Some n) = m !! n.

Lemma bucket_of_lt n : (bucket_of schar n < buckets)%nat.
Proof.
  unfold bucket_of. pose proof (Z.mod_pos_bound (hash schar n) (Z.of_nat buckets)).
  unfold buckets in *. lia.
Qed.

Lemma get_chain h n :
  nvram_get schar h (Some n) = chain_value (bucket h (bucket_of schar n)) n.
Proof. done. Qed.

Lemma bucket_set h i l j :
  table_ok h -> (i < buckets)%nat ->
  bucket (set_bucket i l h) j = if decide (i = j) then l else bucket h j.
Proof.
  intros [Hlen _] Hi. unfold bucket, set_bucket, with_table. cbn [nvram_hash].
  destruct (decide (i = j)) as [<-|Hij].
  - rewrite list_lookup_total_insert. rewrite decide_True; [done|]. split; [done|lia].
  - by rewrite list_lookup_total_insert_ne.
Qed.

Lemma table_ok_set h i l :
  table_ok h -> (i < buckets)%nat -> chain_ok i l -> table_ok (set_bucket i l h).
Proof.
  intros Hh Hi Hl. split.
  - unfold set_bucket, with_table. cbn. rewrite length_insert. apply Hh.
  - intros j Hj. rewrite bucket_set by done. destruct (decide (i = j)) as [<-|]; [done|].
    by apply Hh.
Qed.

(** Only the table matters. *)
Lemma table_ok_ext h h' : nvram_hash h = nvram_hash h' -> table_ok h -> table_ok h'.
Proof. unfold table_ok, bucket. by intros ->. Qed.

Lemma get_ext h h' n : nvram_hash h = nvram_hash h' ->
  nvram_get schar h n = nvram_get schar h' n.
Proof. unfold nvram_get, bucket. by intros ->. Qed.

Lemma repr_ext h h' m : nvram_hash h = nvram_hash h' -> repr h m -> repr h' m.
Proof.
  intros E [Hok Hg]. split; [by eapply table_ok_ext|]. intros n.
  by rewrite <- (get_ext h h').
Qed.

(** Replacing the chain of [n] by one that gives [n] the value [v]. *)
Lemma repr_set_chain h m n l v :
  repr h m -> chain_ok (bucket_of schar n) l ->
  (forall n', chain_value l n' =
     if decide (n = n') then v else chain_value (bucket h (bucket_of schar n)) n') ->
  repr (set_bucket (bucket_of schar n) l h) (partial_alter (fun _ => v) n m).
Proof.
  intros [Hok Hg] Hl Hv. pose proof (bucket_of_lt n) as Hi.
  split; [by apply table_ok_set|]. intros n'. rewrite get_chain, bucket_set by done.
  destruct (decide (n = n')) as [<-|Hne].
  - rewrite decide_True, lookup_partial_alter_eq by done. rewrite Hv. by rewrite decide_True.
  - rewrite lookup_partial_alter_ne by done. rewrite <- Hg, get_chain.
    destruct (decide (_ = _)) as [E|]; [|done]. rewrite Hv, decide_False by done. by rewrite E.
Qed.

Lemma repr_empty mm l o d al : repr (Handle mm l o (replicate buckets []) d al) ∅.
Proof.
  assert (forall i, bucket (Handle mm l o (replicate buckets []) d al) i = []) as Hb.
  { intros i. unfold bucket. cbn [nvram_hash]. rewrite list_lookup_total_alt.
    destruct (replicate buckets [] !! i) as [x|] eqn:E; [|done].
    by apply lookup_replicate in E as [-> _]. }
  split.
  - split; [apply length_replicate|]. intros i _. rewrite Hb. split; constructor.
  - intros n. rewrite get_chain, Hb. by rewrite lookup_empty.
Qed.

(** ** The operations *)

Lemma find_chain h n p t q :
  table_ok h -> find_tuple n (bucket h (bucket_of schar n)) = Some (p, t, q) ->
  bucket h (bucket_of schar n) = p ++ t :: q /\ tname t = n /\ n ∉ map tname p /\
  chain_ok (bucket_of schar n) (p ++ t :: q).
Proof.
  intros [_ Hok] Hf. destruct (find_tuple_Some _ _ _ _ _ Hf) as (E & Ht & Hp).
  rewrite <- E. repeat split; try done; by apply Hok, bucket_of_lt.
Qed.

Lemma chain_ok_replace i p t u q :
  tname u = tname t -> chain_ok i (p ++ t :: q) -> chain_ok i (p ++ u :: q).
Proof.
  intros Hu [Hf Hd]. split.
  - rewrite !Forall_app, !Forall_cons in *. by rewrite Hu.
  - rewrite !map_app in *. cbn [map] in *. by rewrite Hu.
Qed.

Lemma chain_ok_remove i p t q : chain_ok i (p ++ t :: q) -> chain_ok i (p ++ q).
Proof.
  intros [Hf Hd]. split.
  - rewrite !Forall_app, !Forall_cons in *. naive_solver.
  - rewrite !map_app in *. cbn [map] in *. rewrite NoDup_app, NoDup_cons in *. set_solver.
Qed.

Lemma chain_ok_cons n l v :
  chain_ok (bucket_of schar n) l -> n ∉ map tname l ->
  chain_ok (bucket_of schar n) (Tuple n v :: l).
Proof. intros [Hf Hd] Hn. split; [by constructor|]. cbn. by constructor. Qed.

(** What a tuple of name [n] in the middle of the chain of [n] contributes. *)
Lemma repr_mid h m n p t q v :
  repr h m -> find_tuple n (bucket h (bucket_of schar n)) = Some (p, t, q) ->
  repr (set_bucket (bucket_of schar n) (p ++ Tuple n v :: q) h)
    (partial_alter (fun _ => v) n m).
Proof.
  intros Hr Hf. destruct (find_chain h n p t q (proj1 Hr) Hf) as (E & Ht & Hp & Hok).
  apply repr_set_chain; [done|by eapply chain_ok_replace|].
  intros n'. rewrite E, !chain_value_at by (cbn; congruence). cbn. rewrite Ht.
  by destruct (decide _).
Qed.

(** Whether a value fits into the partition, with its NUL, *)
Definition fits (h : nvram_handle) (v : cstr) : bool := slen v + 1 <=? u32 (length h - offset h).

(** how many allocations setting it takes, *)
Definition needed (h : nvram_handle) (n v : cstr) : nat :=
  match find_tuple n (bucket h (bucket_of schar n)) with
  | Some (_, t, _) => if bool_decide (tvalue t = Some v) then 0 else 1
  | None => 2
  end.

(** and whether the next [k] ones are answered. *)
Definition answered (k : nat) (h : nvram_handle) : bool := forallb id (take k (allocs h)).

(** [nvram_set] sets the value when it fits and all allocations it takes are answered. A
    value that does not fit is refused and changes nothing; with a refused allocation the
    name is left without a value, the one it had included. *)
Lemma nvram_set_exact h m n v r h' :
  repr h m -> nvram_set schar h n v = (r, h') ->
  if fits h v && answered (needed h n v) h
  then r = 0 /\ repr h' (<[n := v]> m)
  else r = ENOMEM /\ repr h' (if fits h v then delete n m else m).
Proof.
  intros Hr. unfold nvram_set, needed, answered, fits.
  destruct (find_tuple n _) as [[[p t] q]|] eqn:Hf.
  - pose proof (find_chain h n p t q (proj1 Hr) Hf) as (E & Ht & Hp & Hok).
    destruct t as [tn tv]. cbn in Ht. subst tn.
    pose proof (fun v => repr_mid h m n p _ q v Hr Hf) as Hmid.
    assert (repr (set_bucket (bucket_of schar n) (p ++ Tuple n tv :: q) h) m) as Hsame.
    { replace m with (partial_alter (fun _ => tv) n m); [apply Hmid|].
      apply map_eq. intros n'. destruct (decide (n = n')) as [<-|Hne].
      - rewrite lookup_partial_alter_eq, <- (proj2 Hr), get_chain, E, chain_value_at by done.
        by rewrite decide_True.
      - by rewrite lookup_partial_alter_ne. }
    unfold _nvram_realloc. rewrite Z.leb_antisym. destruct (_ <? _); cbn [negb andb].
    { by intros [= <- <-]. }
    cbn. case_bool_decide as Hv; cbn.
    { intros [= <- <-]. split; [done|]. subst tv. apply (Hmid (Some v)). }
    unfold alloc. destruct (allocs h) as [|[] al] eqn:Ha; cbn; intros [= <- <-]; (split; [done|]).
    + apply (Hmid (Some v)).
    + eapply repr_ext; [|apply (Hmid (Some v))]. done.
    + eapply repr_ext; [|apply (Hmid None)]. done.
  - pose proof (find_tuple_None _ _ Hf) as Hn.
    assert (forall h0, nvram_hash h0 = nvram_hash h ->
      repr (set_bucket (bucket_of schar n)
              (Tuple n (Some v) :: bucket h0 (bucket_of schar n)) h0) (<[n := v]> m)) as Hnew.
    { intros h0 E0. eapply repr_ext, repr_set_chain.
      - done.
      - by eapply repr_ext.
      - unfold bucket in *. rewrite E0. apply chain_ok_cons; [|done].
        by apply Hr, bucket_of_lt.
      - intros n'. rewrite chain_value_cons. done. }
    assert (delete n m = m) as Hdel.
    { apply delete_id. rewrite <- (proj2 Hr), get_chain. by apply chain_value_not_in. }
    unfold _nvram_realloc. rewrite Z.leb_antisym. destruct (_ <? _); cbn [negb andb].
    { by intros [= <- <-]. }
    unfold alloc. destruct (allocs h) as [|[] [|[] al]] eqn:Ha; cbn; rewrite ?Ha; cbn;
      intros [= <- <-]; rewrite ?Hdel; (split; [done|]); first [by apply Hnew|by eapply repr_ext].
Qed.

(** With a value that fits and an allocator that answers, [nvram_set] succeeds. *)
Lemma nvram_set_fits h n v :
  allocs h = [] -> slen v + 1 <= u32 (length h - offset h) ->
  fst (nvram_set schar h n v) = 0 /\ allocs (snd (nvram_set schar h n v)) = [] /\
  mmap (snd (nvram_set schar h n v)) = mmap h /\
  length (snd (nvram_set schar h n v)) = length h /\
  offset (snd (nvram_set schar h n v)) = offset h.
Proof.
  intros Ha Hv. unfold nvram_set, _nvram_realloc, alloc. rewrite Ha.
  rewrite (proj2 (Z.ltb_ge _ _)) by lia. cbn. rewrite Ha.
  destruct (find_tuple n _) as [[[p t] q]|]; case_bool_decide; cbn; done.
Qed.

Lemma nvram_unset_repr h m n r h' :
  repr h m -> nvram_unset schar h (Some n) = (r, h') -> r = 0 /\ repr h' (delete n m).
Proof.
  intros Hr. unfold nvram_unset.
  destruct (find_tuple n _) as [[[p t] q]|] eqn:Hf; intros [= <- <-]; (split; [done|]).
  - destruct (find_chain h n p t q (proj1 Hr) Hf) as (E & Ht & Hp & Hok).
    eapply repr_ext; [|eapply (repr_set_chain h m n (p ++ q) None)]; [done|done|..].
    + by eapply chain_ok_remove.
    + intros n'. rewrite E, chain_value_at by congruence. rewrite Ht.
      destruct (decide (n = n')) as [<-|]; [|done].
      apply chain_value_not_in. destruct Hok as [_ Hd].
      rewrite map_app in *. cbn [map] in Hd. rewrite Ht in Hd.
      rewrite NoDup_app, NoDup_cons in Hd. set_solver.
  - assert (m !! n = None) as Hn.
    { rewrite <- (proj2 Hr), get_chain. by apply chain_value_not_in, find_tuple_None. }
    by rewrite delete_id.
Qed.

(** What the operations leave alone. *)
Lemma nvram_set_frame h n v :
  mmap (snd (nvram_set schar h n v)) = mmap h /\
  length (snd (nvram_set schar h n v)) = length h /\
  offset (snd (nvram_set schar h n v)) = offset h.
Proof.
  unfold nvram_set, _nvram_realloc, alloc.
  destruct (find_tuple n _) as [[[p t] q]|], (_ <? _), (allocs h) as [|[] [|[] al]] eqn:Ha;
    cbn; rewrite ?Ha; cbn; repeat (case_bool_decide; cbn; rewrite ?Ha; cbn); done.
Qed.

(** ** All tuples *)

(** Names and values, where the value is there. *)
Definition pairs (l : list nvram_tuple) : list (cstr * cstr) :=
  omap (fun t => v ← tvalue t; Some (tname t, v)) l.

Definition all_set (l : list nvram_tuple) : Prop := Forall (fun t => is_Some (tvalue t)) l.

Lemma concat_ok tbl k :
  (forall i l, tbl !! i = Some l -> chain_ok (k + i) l) ->
  NoDup (map tname (concat tbl)) /\
  Forall (fun t => (k <= bucket_of schar (tname t))%nat) (concat tbl).
Proof.
  revert k. induction tbl as [|l tbl IH]; intros k Hok; cbn; [split; constructor|].
  destruct (IH (S k)) as [Hd Hf].
  { intros i l' Hl. rewrite Nat.add_succ_comm. by apply Hok. }
  destruct (Hok 0%nat l eq_refl) as [Hl Hdl]. rewrite Nat.add_0_r in Hl. split.
  - rewrite map_app, NoDup_app. split; [done|]. split; [|done].
    intros n Hn1 Hn2. rewrite Forall_forall in Hl, Hf.
    apply list_elem_of_fmap in Hn1 as (t1 & -> & H1), Hn2 as (t2 & E & H2).
    apply Hl in H1. apply Hf in H2. rewrite <- E in H2. lia.
  - rewrite Forall_app. split.
    + eapply Forall_impl; [exact Hl|]. cbn. lia.
    + eapply Forall_impl; [exact Hf|]. cbn. lia.
Qed.

Lemma table_concat h :
  table_ok h -> NoDup (map tname (concat (nvram_hash h))).
Proof.
  intros [Hl Hok]. apply (concat_ok _ 0). intros i l Hi.
  assert (i < buckets)%nat as Hlt by (rewrite <- Hl; by eapply lookup_lt_Some).
  specialize (Hok i Hlt). unfold bucket in Hok.
  by rewrite (list_lookup_total_correct _ _ _ Hi) in Hok.
Qed.

Lemma pairs_app l1 l2 : pairs (l1 ++ l2) = pairs l1 ++ pairs l2.
Proof. apply omap_app. Qed.

Lemma pairs_names l : all_set l -> map fst (pairs l) = map tname l.
Proof.
  induction 1 as [|t l [v Hv] _ IH]; [done|]. unfold pairs. cbn. rewrite Hv. cbn.
  f_equal. exact IH.
Qed.

Lemma chain_pairs l n v :
  NoDup (map tname l) -> ((n, v) ∈ pairs l <-> chain_value l n = Some v).
Proof.
  induction l as [|t l IH]; cbn [map]; intros Hd.
  - unfold pairs. cbn. rewrite elem_of_nil. done.
  - apply NoDup_cons in Hd as [Hn Hd]. rewrite chain_value_cons.
    assert ((n, v) ∈ pairs (t :: l) <-> (tname t = n /\ tvalue t = Some v) \/ (n, v) ∈ pairs l)
      as ->.
    { unfold pairs. cbn. destruct (tvalue t) as [w|]; cbn.
      - rewrite elem_of_cons. naive_solver.
      - naive_solver. }
    destruct (decide (tname t = n)) as [<-|]; [|rewrite IH by done; naive_solver].
    split; [|auto]. intros [[_ ?]|Hin]; [done|]. exfalso. apply Hn.
    apply IH in Hin; [|done]. destruct (decide (tname t ∈ map tname l)); [done|].
    by rewrite chain_value_not_in in Hin.
Qed.

Lemma elem_of_pairs l n v :
  ((n, v) ∈ pairs l) <-> exists t, t ∈ l /\ tname t = n /\ tvalue t = Some v.
Proof.
  unfold pairs. rewrite list_elem_of_omap. split.
  - intros (t & Hin & Ht). exists t. destruct (tvalue t); cbn in Ht; [|done].
    by injection Ht as <- <-.
  - intros (t & Hin & <- & Hv). exists t. split; [done|]. by rewrite Hv.
Qed.

(** The tuples of the whole table are the bindings of the map. *)
Lemma table_pairs h m n v :
  repr h m -> ((n, v) ∈ pairs (concat (nvram_hash h)) <-> m !! n = Some v).
Proof.
  intros [[Hlen Hok] Hg]. pose proof (bucket_of_lt n) as Hi.
  rewrite <- Hg, get_chain, <- chain_pairs by by apply Hok. rewrite !elem_of_pairs.
  split; intros (t & Hin & Ht & Hv); exists t; (split; [|done]).
  - apply list_elem_of_In, in_concat in Hin as (l & Hl & Hin).
    apply list_elem_of_In, list_elem_of_lookup_1 in Hl as (i & Hl).
    assert (i < buckets)%nat as Hlt by (rewrite <- Hlen; by eapply lookup_lt_Some).
    destruct (Hok i Hlt) as [Hf _]. unfold bucket in *.
    rewrite (list_lookup_total_correct _ _ _ Hl) in Hf.
    rewrite Forall_forall in Hf. apply list_elem_of_In in Hin.
    assert (bucket_of schar n = i) as -> by (rewrite <- Ht; by apply Hf).
    by rewrite (list_lookup_total_correct _ _ _ Hl).
  - apply list_elem_of_In, in_concat. exists (bucket h (bucket_of schar n)).
    split; [|by apply list_elem_of_In]. apply list_elem_of_In. unfold bucket.
    apply list_elem_of_lookup_2 with (bucket_of schar n), list_lookup_lookup_total_lt. lia.
Qed.

(** ** Setting a list of pairs *)

Definition set_all (l : list (cstr * cstr)) (h : nvram_handle) : nvram_handle :=
  foldl (fun h p => snd (nvram_set schar h (fst p) (snd p))) h l.

Definition map_all (l : list (cstr * cstr)) (m : gmap cstr cstr) : gmap cstr cstr :=
  foldl (fun m p => <[fst p := snd p]> m) m l.

Lemma nvram_set_repr h m n v :
  repr h m -> allocs h = [] -> slen v + 1 <= u32 (length h - offset h) ->
  repr (snd (nvram_set schar h n v)) (<[n := v]> m).
Proof.
  intros Hr Ha Hv. destruct (nvram_set schar h n v) as [r h'] eqn:E.
  pose proof (nvram_set_exact h m n v r h' Hr E) as Hs. unfold fits, answered in Hs.
  rewrite (proj2 (Z.leb_le _ _) Hv), Ha, take_nil in Hs. apply Hs.
Qed.

Lemma set_all_spec l h m :
  repr h m -> allocs h = [] ->
  Forall (fun p => slen (snd p) + 1 <= u32 (length h - offset h)) l ->
  repr (set_all l h) (map_all l m) /\ allocs (set_all l h) = [] /\
  mmap (set_all l h) = mmap h /\ length (set_all l h) = length h /\
  offset (set_all l h) = offset h.
Proof.
  revert h m. induction l as [|[n v] l IH]; intros h m Hr Ha Hl; [done|].
  apply Forall_cons in Hl as [Hv Hl]. cbn in Hv.
  destruct (nvram_set_fits h n v Ha Hv) as (_ & Ha' & Hm & Hlen & Ho).
  cbn [set_all map_all foldl fst snd].
  destruct (IH (snd (nvram_set schar h n v)) (<[n := v]> m)) as (Hr' & Ha2 & Hm2 & Hl2 & Ho2);
    [by apply nvram_set_repr|done|by rewrite Hlen, Ho|].
  unfold set_all, map_all in *. repeat split; try apply Hr'; congruence.
Qed.

Lemma map_all_lookup l m n v :
  NoDup (map fst l) ->
  (map_all l m !! n = Some v) <-> ((n, v) ∈ l \/ (n ∉ map fst l /\ m !! n = Some v)).
Proof.
  revert m. induction l as [|[n' v'] l IH]; intros m Hd; cbn [map_all foldl map fst snd].
  - rewrite elem_of_nil. pose proof (not_elem_of_nil n). naive_solver.
  - apply NoDup_cons in Hd as [Hn Hd]. fold (map_all l (<[n' := v']> m)).
    rewrite IH, elem_of_cons, not_elem_of_cons by done.
    destruct (decide (n = n')) as [->|Hne].
    + rewrite lookup_insert_eq. split.
      * intros [Hin|[_ [= ->]]]; [|by left; left].
        destruct Hn. apply list_elem_of_fmap. by exists (n', v).
      * intros [[[= ->]|Hin]|[[? _] _]]; [|by left|done]. right. by split.
    + rewrite lookup_insert_ne by done. naive_solver.
Qed.

(** Setting the tuples of a table again gives the map it represents. *)
Lemma map_all_table h m :
  repr h m -> all_set (concat (nvram_hash h)) ->
  map_all (pairs (concat (nvram_hash h))) ∅ = m.
Proof.
  intros Hr Hs. apply map_eq. intros n. apply option_eq. intros v.
  rewrite map_all_lookup, (table_pairs h m n v Hr), lookup_empty; [naive_solver|].
  rewrite pairs_names by done. apply table_concat, Hr.
Qed.
End Platform.
