(* ===== verification/NvramCommit.v ===== *)
(** * nvram_commit, byte for byte

    The loops of [nvram_commit] and [_nvram_rehash] on the bytes of the mapping: what the
    write loop leaves there, that every write stays inside, and that the parsing loop
    reads it back. Then the whole image [nvram_commit] leaves, and what [_nvram_rehash]
    makes of it. *)

From Stdlib Require Import ZArith Lia String.
From stdpp Require Import base list numbers option gmap strings.
From S2P Require Import Prelude CString Nvram NvramTable.

(** ** Strings in memory *)

(** A C string that can be written and read back as name or value. *)
Definition no_nul (s : cstr) : Prop := Forall (fun b => b <> 0) s.
Definition name_ok (n : cstr) : Prop := no_nul n /\ Forall (fun b => b <> 61) n.

Lemma c_string_app s r : no_nul s -> c_string (s ++ 0 :: r) = Some s.
Proof.
  induction 1 as [|b s Hb _ IH]; [done|]. cbn. rewrite (proj2 (Z.eqb_neq _ _)) by done.
  by rewrite IH.
Qed.

Lemma split_eq_app n v : Forall (fun b => b <> 61) n -> split_eq (n ++ 61 :: v) = Some (n, v).
Proof.
  induction 1 as [|b s Hb _ IH]; [done|]. cbn. rewrite (proj2 (Z.eqb_neq _ _)) by done.
  by rewrite IH.
Qed.

(** The data area that holds a list of variables. *)
Definition image (l : list (cstr * cstr)) : list Z :=
  concat (map (fun p => entry (fst p) (snd p)) l).

Lemma image_cons p l : image (p :: l) = entry (fst p) (snd p) ++ image l.
Proof. done. Qed.

Lemma image_app l1 l2 : image (l1 ++ l2) = image l1 ++ image l2.
Proof. unfold image. by rewrite map_app, concat_app. Qed.

Lemma entry_length n v :
  List.length (entry n v) = (List.length n + 1 + List.length v + 1)%nat.
Proof. unfold entry. rewrite length_app. cbn. rewrite length_app. cbn. lia. Qed.

Lemma image_value_fits l p :
  p ∈ l -> (List.length (snd p) + 2 <= List.length (image l))%nat.
Proof.
  induction l as [|q l IH]; [by rewrite elem_of_nil|].
  rewrite elem_of_cons, image_cons, length_app, entry_length. intros [->|Hp]; [lia|].
  specialize (IH Hp). lia.
Qed.

Lemma image_count l : (List.length l <= List.length (image l))%nat.
Proof.
  induction l as [|p l IH]; [done|]. rewrite image_cons, length_app, entry_length. cbn. lia.
Qed.

Section Platform.
Context (schar : bool).

(** ** The parsing loop *)

(** Started on an image that ends with a NUL, the loop sets its variables. *)
Lemma parse_image fuel l p h rest :
  Forall (fun q => name_ok (fst q) /\ no_nul (snd q)) l ->
  drop p (mmap h) = image l ++ 0 :: rest -> (List.length l < fuel)%nat ->
  parse schar fuel p h = Some (set_all schar l h).
Proof.
  revert fuel p h. induction l as [|[n v] l IH]; intros fuel p h Hl Hm Hf;
    (destruct fuel as [|fuel]; [lia|]); cbn [parse].
  - by rewrite Hm.
  - apply Forall_cons in Hl as [[[Hn Heq] Hv] Hl]. cbn [fst snd] in *.
    assert (drop p (mmap h) = (n ++ 61 :: v) ++ 0 :: image l ++ 0 :: rest) as Hm'.
    { rewrite Hm, image_cons. unfold entry. cbn [fst snd].
      rewrite <- !app_assoc. cbn. by rewrite <- !app_assoc. }
    rewrite Hm', c_string_app.
    2:{ unfold no_nul in *. rewrite Forall_app, Forall_cons. done. }
    cbn [option_bind mbind]. rewrite split_eq_app by done.
    destruct (n ++ 61 :: v) as [|b s] eqn:Es; [by destruct n|]. rewrite <- Es in *. clear b s Es.
    destruct (nvram_set_frame schar h n v) as (Hmm & _).
    rewrite (IH fuel _ (snd (nvram_set schar h n v))); [done|done| |cbn in Hf; lia].
    rewrite Hmm, <- Nat.add_assoc, <- drop_drop, Hm'.
    rewrite drop_app_ge by lia.
    replace (_ + 1 - _)%nat with 1%nat by lia. done.
Qed.

(** ** The writing loop *)

Lemma put_mid A B C bs :
  List.length B = List.length bs -> put (List.length A) bs (A ++ B ++ C) = Some (A ++ bs ++ C).
Proof.
  intros Hl. unfold put. rewrite (proj2 (Nat.leb_le _ _)) by (rewrite !length_app; lia).
  unfold write. rewrite take_app_length, drop_app_ge by lia.
  replace (_ + _ - _)%nat with (List.length B) by lia. by rewrite drop_app_length.
Qed.

Lemma put_front A B bs :
  (List.length bs <= List.length B)%nat ->
  put (List.length A) bs (A ++ B) = Some (A ++ bs ++ drop (List.length bs) B).
Proof.
  intros Hl. rewrite <- (take_drop (List.length bs) B) at 1. apply put_mid.
  rewrite length_take. lia.
Qed.

(** [wrote l l' end_ P R res]: from position [length P] of [P ++ R] the variables
    [l'], a part of [l], were written and nothing else, none of them beyond
    [end_]; all of [l], if there was room. *)
Definition wrote (l l' : list (cstr * cstr)) (end_ : Z) (P R : list Z)
    (res : option (nat * list Z)) : Prop :=
  l' `sublist_of` l /\
  res = Some ((List.length P + List.length (image l'))%nat,
              P ++ image l' ++ drop (List.length (image l')) R) /\
  (List.length (image l') <= List.length R)%nat /\
  (l' = [] \/ Z.of_nat (List.length P + List.length (image l')) <= end_) /\
  (Z.of_nat (List.length P + List.length (image l)) <= end_ -> l' = l).

Lemma write_bucket_spec ts end_ P R :
  all_set ts -> end_ <= Z.of_nat (List.length P + List.length R) ->
  exists l', wrote (pairs ts) l' end_ P R (write_bucket ts end_ (List.length P) (P ++ R)).
Proof.
  intros Hs. revert P R. induction Hs as [|t ts [v Hv] Hs IH]; intros P R He.
  - exists []. unfold wrote. cbn. rewrite Nat.add_0_r. repeat split; auto with lia.
  - assert (pairs (t :: ts) = (tname t, v) :: pairs ts) as -> by (unfold pairs; cbn; by rewrite Hv).
    cbn [write_bucket]. rewrite Hv. cbn [option_bind mbind].
    pose proof (entry_length (tname t) v) as Hlen.
    unfold slen. destruct (Z.ltb_spec end_ (Z.of_nat (List.length P)
      + Z.of_nat (List.length (tname t)) + 1 + Z.of_nat (List.length v) + 1)) as [Hfull|Hfits].
    + exists []. unfold wrote. change (image []) with (@nil Z). cbn [app List.length drop]. rewrite Nat.add_0_r.
      split; [apply sublist_nil_l|]. split; [done|]. split; [lia|]. split; [by left|].
      rewrite image_cons, length_app. cbn [fst snd]. rewrite Hlen. lia.
    + rewrite put_front by lia. cbn [option_bind mbind].
      rewrite app_assoc, <- length_app.
      destruct (IH (P ++ entry (tname t) v) (drop (List.length (entry (tname t) v)) R))
        as (l' & Hsub & E & Hr & He' & Hall); [rewrite length_app, length_drop; lia|].
      exists ((tname t, v) :: l'). rewrite E. unfold wrote.
      rewrite image_cons, !length_app in *. cbn [fst snd]. rewrite length_drop in *.
      split; [by apply sublist_skip|]. split; [|split; [lia|split]].
      * rewrite drop_drop, <- !app_assoc, Nat.add_assoc. done.
      * right. destruct He' as [->|]; [change (image []) with (@nil Z); cbn [List.length]|]; lia.
      * rewrite image_cons, length_app. cbn [fst snd]. intros Hroom. rewrite Hall; [done|lia].
Qed.

Lemma write_table_spec tbl end_ P R :
  all_set (concat tbl) -> end_ <= Z.of_nat (List.length P + List.length R) ->
  exists l', wrote (pairs (concat tbl)) l' end_ P R
               (write_table tbl end_ (List.length P) (P ++ R)).
Proof.
  revert P R. induction tbl as [|ts tbl IH]; intros P R Hs He.
  - exists []. unfold wrote. cbn. rewrite Nat.add_0_r. repeat split; auto with lia.
  - cbn [concat] in *. unfold all_set in Hs. apply Forall_app in Hs as [Hts Htbl].
    destruct (write_bucket_spec ts end_ P R Hts He) as (l1 & Hs1 & E1 & Hr1 & He1 & Ha1).
    cbn [write_table]. rewrite E1. cbn [option_bind mbind].
    rewrite app_assoc, <- length_app.
    destruct (IH (P ++ image l1) (drop (List.length (image l1)) R) Htbl)
      as (l2 & Hs2 & E2 & Hr2 & He2 & Ha2); [rewrite length_app, length_drop; lia|].
    exists (l1 ++ l2). rewrite E2. unfold wrote. rewrite pairs_app, !image_app, !length_app.
    rewrite length_drop, length_app in *.
    split; [by apply sublist_app|]. split; [|split; [lia|split]].
    + rewrite drop_drop, <- !app_assoc, Nat.add_assoc. done.
    + destruct He2 as [->|]; [|by right; lia]. destruct He1 as [->|]; [by left|].
      right. cbn. lia.
    + intros Hroom. rewrite Ha1 by lia. rewrite Ha1, Ha2 in * by lia. done.
Qed.
End Platform.

(** ** The parts of the mapping *)

(** The bytes before the header, its five words, the data area. *)
Definition layout (pre w0 w1 w2 w3 w4 body : list Z) : list Z :=
  pre ++ w0 ++ w1 ++ w2 ++ w3 ++ w4 ++ body.

Definition word (w : list Z) : Prop := List.length w = 4%nat.

Section Layout.
Context (pre w0 w1 w2 w3 w4 body : list Z).
Context (H0 : word w0) (H1 : word w1) (H2 : word w2) (H3 : word w3) (H4 : word w4).

Lemma layout_length :
  List.length (layout pre w0 w1 w2 w3 w4 body)
  = (List.length pre + 20 + List.length body)%nat.
Proof. unfold layout, word in *. rewrite !length_app. lia. Qed.

(** The header and the area behind it. *)
Lemma layout_head : layout pre w0 w1 w2 w3 w4 body
  = (pre ++ w0 ++ w1 ++ w2 ++ w3 ++ w4) ++ body.
Proof. unfold layout. by rewrite <- !app_assoc. Qed.

Lemma head_length :
  List.length (pre ++ w0 ++ w1 ++ w2 ++ w3 ++ w4) = (List.length pre + 20)%nat.
Proof. unfold word in *. rewrite !length_app. lia. Qed.

Lemma put_at A B C bs off m :
  m = A ++ B ++ C -> List.length A = off -> List.length B = List.length bs ->
  put off bs m = Some (A ++ bs ++ C).
Proof. intros -> <- Hl. by apply put_mid. Qed.

Lemma put_word0 w : word w ->
  put (List.length pre + 0) w (layout pre w0 w1 w2 w3 w4 body)
  = Some (layout pre w w1 w2 w3 w4 body).
Proof.
  intros Hw. unfold word in *. apply (put_at pre w0); [done|lia|congruence].
Qed.

Lemma put_word1 w : word w ->
  put (List.length pre + 4) w (layout pre w0 w1 w2 w3 w4 body)
  = Some (layout pre w0 w w2 w3 w4 body).
Proof.
  intros Hw. unfold word, layout in *.
  rewrite (put_at (pre ++ w0) w1 (w2 ++ w3 ++ w4 ++ body));
    [by rewrite <- !app_assoc|by rewrite <- !app_assoc|rewrite length_app; lia|congruence].
Qed.

Lemma put_word2 w : word w ->
  put (List.length pre + 8) w (layout pre w0 w1 w2 w3 w4 body)
  = Some (layout pre w0 w1 w w3 w4 body).
Proof.
  intros Hw. unfold word, layout in *.
  rewrite (put_at (pre ++ w0 ++ w1) w2 (w3 ++ w4 ++ body));
    [by rewrite <- !app_assoc|by rewrite <- !app_assoc|rewrite !length_app; lia|congruence].
Qed.

Lemma put_word3 w : word w ->
  put (List.length pre + 12) w (layout pre w0 w1 w2 w3 w4 body)
  = Some (layout pre w0 w1 w2 w w4 body).
Proof.
  intros Hw. unfold word, layout in *.
  rewrite (put_at (pre ++ w0 ++ w1 ++ w2) w3 (w4 ++ body));
    [by rewrite <- !app_assoc|by rewrite <- !app_assoc|rewrite !length_app; lia|congruence].
Qed.

Lemma put_word4 w : word w ->
  put (List.length pre + 16) w (layout pre w0 w1 w2 w3 w4 body)
  = Some (layout pre w0 w1 w2 w3 w body).
Proof.
  intros Hw. unfold word, layout in *.
  rewrite (put_at (pre ++ w0 ++ w1 ++ w2 ++ w3) w4 body);
    [by rewrite <- !app_assoc|by rewrite <- !app_assoc|rewrite !length_app; lia|congruence].
Qed.

Lemma slice_mid A B C off n :
  List.length A = off -> List.length B = n -> slice off n (A ++ B ++ C) = B.
Proof.
  intros <- <-. unfold slice. by rewrite drop_app_length, take_app_length.
Qed.

Lemma slice_word1 : slice (List.length pre + 4) 4 (layout pre w0 w1 w2 w3 w4 body) = w1.
Proof.
  unfold word, layout in *. rewrite app_assoc. apply slice_mid; rewrite ?length_app; lia.
Qed.

Lemma slice_word2 : slice (List.length pre + 8) 4 (layout pre w0 w1 w2 w3 w4 body) = w2.
Proof.
  unfold word, layout in *. rewrite (app_assoc w0), (app_assoc pre).
  apply slice_mid; rewrite ?length_app; lia.
Qed.

Lemma slice_word3 : slice (List.length pre + 12) 4 (layout pre w0 w1 w2 w3 w4 body) = w3.
Proof.
  unfold word, layout in *. rewrite (app_assoc w1), (app_assoc w0), (app_assoc pre).
  apply slice_mid; rewrite ?length_app; lia.
Qed.

Lemma slice_word4 : slice (List.length pre + 16) 4 (layout pre w0 w1 w2 w3 w4 body) = w4.
Proof.
  unfold word, layout in *.
  rewrite (app_assoc w2), (app_assoc w1), (app_assoc w0), (app_assoc pre).
  apply slice_mid; rewrite ?length_app; lia.
Qed.

Lemma drop_body : drop (List.length pre + 20) (layout pre w0 w1 w2 w3 w4 body) = body.
Proof. rewrite layout_head, <- head_length. apply drop_app_length. Qed.
End Layout.

Lemma store_word e z : word (store e 4 z).
Proof. apply store_length. Qed.

(** Any mapping with room for the header has such parts. *)
Lemma layout_split m start :
  (start + 20 <= List.length m)%nat ->
  exists pre w0 w1 w2 w3 w4 body,
    m = layout pre w0 w1 w2 w3 w4 body /\ List.length pre = start /\
    word w0 /\ word w1 /\ word w2 /\ word w3 /\ word w4.
Proof.
  intros Hm. exists (take start m), (slice start 4 m), (slice (start + 4) 4 m),
    (slice (start + 8) 4 m), (slice (start + 12) 4 m), (slice (start + 16) 4 m),
    (drop (start + 20) m).
  unfold word. rewrite !length_slice, length_take by lia.
  split; [|repeat split; lia]. unfold layout, slice.
  assert (forall k, take 4 (drop (start + k) m) ++ drop (start + (k + 4)) m = drop (start + k) m)
    as E.
  { intros k. rewrite Nat.add_assoc, <- (drop_drop m 4 (start + k)). apply take_drop. }
  pose proof (E 0%nat) as E0. pose proof (E 4%nat) as E4. pose proof (E 8%nat) as E8.
  pose proof (E 12%nat) as E12. pose proof (E 16%nat) as E16. cbn [Nat.add] in *.
  rewrite E16, E12, E8, E4. rewrite Nat.add_0_r in E0. by rewrite E0, take_drop.
Qed.

(** ** The image of [nvram_commit] *)

Lemma crc_table_bytes : bytes_ok crc8_table.
Proof. unfold is_byte. repeat constructor; lia. Qed.

Lemma crc8_byte l c : is_byte c -> is_byte (hndcrc8 l c).
Proof.
  revert c. induction l as [|b l IH]; intros c Hc; [done|]. cbn [hndcrc8]. apply IH.
  pose proof crc_table_bytes as Ht. rewrite Forall_lookup in Ht.
  eapply Ht, list_lookup_lookup_total_lt.
  change 0xff with (Z.ones 8). rewrite Z.land_ones by lia.
  pose proof (Z.mod_pos_bound (Z.lxor c b) (2 ^ 8)).
  change (List.length crc8_table) with 256%nat. lia.
Qed.

Lemma crc8_app l1 l2 c : hndcrc8 (l1 ++ l2) c = hndcrc8 l2 (hndcrc8 l1 c).
Proof. revert c. induction l1; intros; cbn; auto. Qed.

Section Platform.
Context (e : endian) (schar : bool) (ulong : Z) (addr part_size : Z).

(** A 32-bit user address, or any where the mapping lies below 2^31. *)
Definition low_address : Prop := addr mod 4 = 0 /\ 0 <= addr /\ addr + part_size < 2 ^ 31.

(** A handle [nvram_open] can have made, with no value lost. *)
Record committable (h : nvram_handle) : Prop := Committable {
  c_size : Z.of_nat (List.length (mmap h)) = part_size;
  c_length : length h = part_size;
  c_offset : 0 <= offset h /\ offset h mod 4 = 0 /\ part_size mod 4 = 0 /\ part_size < 2 ^ 31;
  c_room : offset h + 24 <= part_size;
  c_set : all_set (concat (nvram_hash h))
}.

Lemma pad_zeros_low k :
  low_address -> Z.of_nat k < part_size ->
  (pad_zeros addr k < 4)%nat /\ (Z.of_nat k + Z.of_nat (pad_zeros addr k)) mod 4 = 0.
Proof.
  intros (Ha & Hb & Hc) Hk. unfold pad_zeros.
  assert (s32 (addr + Z.of_nat k) = addr + Z.of_nat k) as ->.
  { unfold swrap. rewrite Z.mod_small by lia. lia. }
  rewrite Z.rem_mod_nonneg by lia.
  assert ((addr + Z.of_nat k) mod 4 = Z.of_nat k mod 4) as ->.
  { rewrite <- Z.add_mod_idemp_l, Ha by lia. done. }
  case_bool; [rewrite Z.add_0_r; lia|]. Z.to_euclidean_division_equations; lia.
Qed.

(** The words of the header have no bits where the checksum goes. *)
Lemma commit_words_total h :
  0 <= ulong ->
  exists cvi cr ncdl, commit_words schar ulong h = Some (cvi, cr, ncdl) /\
    Z.land cvi 0xff = 0 /\ 0 <= cvi < 2 ^ 32.
Proof.
  intros Hu. unfold commit_words.
  assert (forall s, Z.land (u32 (Z.lor (Z.shiftl NVRAM_VERSION 8)
    (wrap ulong (Z.shiftl (Z.land (number ulong s) 0xffff) 16)))) 0xff = 0) as Hlow.
  { intros s. apply Z.bits_inj'. intros i Hi. rewrite Z.bits_0, Z.land_spec.
    destruct (Z.ltb_spec i 8).
    - rewrite wrap_testbit, Z.lor_spec, wrap_testbit, !Z.shiftl_spec_low by lia.
      by rewrite !andb_false_r.
    - change 0xff with (Z.ones 8). rewrite Z.ones_spec_high by lia. by rewrite andb_false_r. }
  assert (exists cvi cr ncdl,
    (init ← int_shl SDRAM_INIT 16; refresh ← int_shl SDRAM_REFRESH 16;
     Some (Z.lor (Z.shiftl NVRAM_VERSION 8) (u32 init), Z.lor SDRAM_CONFIG (u32 refresh), 0))
    = Some (cvi, cr, ncdl) /\ Z.land cvi 0xff = 0 /\ 0 <= cvi < 2 ^ 32) as Hdef.
  { do 3 eexists. split; [reflexivity|]. split; [done|by vm_compute]. }
  destruct (nvram_get schar h (Some (bytes_of "sdram_init"))) as [i|]; [|exact Hdef].
  destruct (nvram_get schar h (Some (bytes_of "sdram_config"))) as [c|]; [|exact Hdef].
  destruct (nvram_get schar h (Some (bytes_of "sdram_refresh"))) as [r|]; [|exact Hdef].
  destruct (nvram_get schar h (Some (bytes_of "sdram_ncdl"))) as [n|]; [|exact Hdef].
  do 3 eexists. split; [reflexivity|]. split; [apply Hlow|apply wrap_range; lia].
Qed.

(** The area of [h] behind the start of the header. *)
Definition space (h : nvram_handle) : Z := part_size - offset h.

(** The data area and the length word for the variables [l]. *)
Definition total (l : list (cstr * cstr)) : Z :=
  NVRAM_ROUNDUP (Z.of_nat (List.length (image l)) + 22) 4.

Lemma roundup_4 x : 0 <= x -> x <= NVRAM_ROUNDUP x 4 < x + 4 /\ NVRAM_ROUNDUP x 4 mod 4 = 0.
Proof.
  intros. unfold NVRAM_ROUNDUP. rewrite Z.quot_div_nonneg by lia.
  Z.to_euclidean_division_equations. lia.
Qed.

Definition checksum (cvi cr ncdl : Z) (body : list Z) (total : Z) : Z :=
  hndcrc8 (take (Z.to_nat total - header_size) body)
    (hndcrc8 (drop NVRAM_CRC_START_POSITION
       (replicate 8 0 ++ store e 4 cvi ++ store e 4 cr ++ store e 4 ncdl)) 0xff).

(** What is in the mapping when [nvram_commit] calls [_nvram_rehash]: the words,
    with the checksum in place, then the variables [l] and a NUL. *)
Record committed (h : nvram_handle) (l : list (cstr * cstr)) (pre : list Z)
    (cvi cr ncdl : Z) (tail m : list Z) : Prop := Committed {
  cm_pre : pre = take (Z.to_nat (offset h)) (mmap h);
  cm_part : l `sublist_of` pairs (concat (nvram_hash h));
  cm_all : Z.of_nat (List.length (image (pairs (concat (nvram_hash h))))) + 22 <= space h ->
           l = pairs (concat (nvram_hash h));
  cm_fits : Z.of_nat (List.length (image l)) + 22 <= space h;
  cm_words : commit_words schar ulong h = Some (cvi, cr, ncdl);
  cm_low : Z.land cvi 0xff = 0 /\ 0 <= cvi < 2 ^ 32;
  cm_body : Z.of_nat (List.length (image l ++ 0 :: tail)) = space h - 20;
  cm_mem : m = layout pre (store e 4 NVRAM_MAGIC) (store e 4 (total l))
      (store e 4 (Z.lor cvi (checksum cvi cr ncdl (image l ++ 0 :: tail) (total l))))
      (store e 4 cr) (store e 4 ncdl) (image l ++ 0 :: tail)
}.

(** The data area is cleared. *)
Lemma put_clear pre w0 w1 w2 w3 w4 body bs :
  word w0 -> word w1 -> word w2 -> word w3 -> word w4 ->
  List.length body = List.length bs ->
  put (List.length pre + 20) bs (layout pre w0 w1 w2 w3 w4 body)
  = Some (layout pre w0 w1 w2 w3 w4 bs).
Proof.
  intros ? ? ? ? ? Hl. rewrite !layout_head.
  rewrite (put_at (pre ++ w0 ++ w1 ++ w2 ++ w3 ++ w4) body []);
    [by rewrite app_nil_r|by rewrite app_nil_r|by apply head_length|done].
Qed.

(** The NUL and the zeros behind the variables. *)
Lemma put_nul A R :
  (1 <= List.length R)%nat -> put (List.length A) [0] (A ++ R) = Some (A ++ 0 :: drop 1 R).
Proof. intros. by rewrite put_front. Qed.

Lemma put_zeros A z R :
  (1 + z <= List.length R)%nat ->
  put (S (List.length A)) (replicate z 0) (A ++ 0 :: drop 1 R)
  = Some (A ++ 0 :: replicate z 0 ++ drop (1 + z) R).
Proof.
  intros Hz. change (A ++ 0 :: drop 1 R) with (A ++ [0] ++ drop 1 R). rewrite app_assoc.
  replace (S (List.length A)) with (List.length (A ++ [0])) by (rewrite length_app; cbn; lia).
  rewrite put_front by (rewrite length_replicate, length_drop; lia).
  by rewrite length_replicate, drop_drop, <- app_assoc.
Qed.

(** The padding ends inside the mapping. *)
Lemma padding_fits h k :
  low_address -> offset h mod 4 = 0 -> part_size mod 4 = 0 -> Z.of_nat k < part_size ->
  Z.of_nat (k + pad_zeros addr k) <= part_size.
Proof.
  intros Hlow _ Hp Hk. destruct (pad_zeros_low k Hlow Hk) as [Hz Hm].
  Z.to_euclidean_division_equations; lia.
Qed.

(** The three parts of [nvram_commit] on a mapping in parts. *)
Lemma commit_header_layout h pre w0 w1 w2 w3 w4 body cvi cr ncdl :
  mmap h = layout pre w0 w1 w2 w3 w4 body -> List.length pre = Z.to_nat (offset h) ->
  word w0 -> word w1 -> word w2 -> word w3 -> word w4 ->
  commit_words schar ulong h = Some (cvi, cr, ncdl) ->
  commit_header e schar ulong h
  = Some (cvi, cr, ncdl,
      with_mmap (layout pre (store e 4 NVRAM_MAGIC) w1 (store e 4 cvi) (store e 4 cr)
                   (store e 4 ncdl) body) h).
Proof.
  intros Em Hpre ? ? ? ? ? Ew. unfold commit_header, put_header. pose proof (store_word e) as Hw.
  rewrite <- Hpre, Em, put_word0 by done. cbn [option_bind mbind].
  change (commit_words schar ulong (with_mmap _ h)) with (commit_words schar ulong h).
  rewrite Ew. cbn [option_bind mbind mmap with_mmap offset].
  rewrite <- Hpre, put_word2 by done. cbn [option_bind mbind mmap with_mmap offset].
  rewrite <- Hpre, put_word3 by done. cbn [option_bind mbind mmap with_mmap offset].
  rewrite <- Hpre, put_word4 by done. reflexivity.
Qed.

Lemma commit_data_layout h pre w0 w1 w2 w3 w4 body :
  mmap h = layout pre w0 w1 w2 w3 w4 body -> List.length pre = Z.to_nat (offset h) ->
  word w0 -> word w1 -> word w2 -> word w3 -> word w4 ->
  low_address -> committable h ->
  exists l tail,
    l `sublist_of` pairs (concat (nvram_hash h)) /\
    (Z.of_nat (List.length (image (pairs (concat (nvram_hash h))))) + 22 <= space h ->
       l = pairs (concat (nvram_hash h))) /\
    Z.of_nat (List.length (image l)) + 22 <= space h /\
    Z.of_nat (List.length (image l ++ 0 :: tail)) = space h - 20 /\
    commit_data e addr part_size h
    = Some (with_mmap (layout pre w0 (store e 4 (total l)) w2 w3 w4 (image l ++ 0 :: tail)) h).
Proof.
  intros Em Hpre ? H1 ? ? ? Hlow [Hsize Hlen (Ho & Ho4 & Hp4 & Hp) Hroom Hset].
  assert (List.length body = Z.to_nat (part_size - offset h - 20))%nat as Hbody.
  { rewrite Em, layout_length in Hsize by done. lia. }
  unfold commit_data. rewrite Em, <- Hpre.
  change (Z.of_nat header_size) with 20. change header_size with 20%nat.
  rewrite (proj2 (Z.ltb_ge _ _)) by lia.
  set (FF := replicate (Z.to_nat (part_size - offset h - 20)) 0xFF).
  assert (List.length FF = List.length body) as HFF
    by (unfold FF; rewrite length_replicate; lia).
  rewrite put_clear by done. cbn [option_bind mbind]. rewrite layout_head.
  set (P := pre ++ w0 ++ w1 ++ w2 ++ w3 ++ w4).
  assert (List.length P = List.length pre + 20)%nat as HP by (by apply head_length).
  rewrite <- HP.
  destruct (write_table_spec (nvram_hash h) (part_size - 2) P FF Hset) as
    (l & Hsub & Ewt & Hr & He & Hall); [lia|].
  rewrite Ewt. cbn [option_bind mbind].
  assert (Z.of_nat (List.length (image l)) + 22 <= space h) as Hfits.
  { unfold space. destruct He as [->|]; [change (image []) with (@nil Z); cbn; lia|lia]. }
  unfold space in *. set (n := List.length (image l)) in *.
  set (R := drop n FF).
  assert (Z.of_nat (List.length R) = part_size - offset h - 20 - Z.of_nat n) as HR
    by (unfold R; rewrite length_drop; lia).
  set (A := P ++ image l).
  assert (List.length A = List.length P + n)%nat as HA by (unfold A; rewrite length_app; lia).
  rewrite app_assoc, <- HA. fold A. rewrite put_nul by lia. cbn [option_bind mbind].
  set (z := pad_zeros addr (S (List.length A))).
  assert (1 + z <= List.length R)%nat as Hz.
  { pose proof (padding_fits h (S (List.length A)) Hlow Ho4 Hp4) as Hpad. fold z in Hpad. lia. }
  rewrite put_zeros by done. cbn [option_bind mbind].
  exists l, (replicate z 0 ++ drop (1 + z) R).
  split; [done|]. split; [intros; apply Hall; rewrite HP; lia|]. split; [done|]. split.
  { rewrite length_app. cbn [List.length]. rewrite length_app, length_replicate, length_drop.
    fold n. lia. }
  unfold put_header. cbn [mmap with_mmap offset]. unfold A, P.
  rewrite <- (app_assoc _ (image l)), <- layout_head, <- Hpre.
  rewrite put_word1 by (done || apply store_word).
  cbn [option_bind mbind]. unfold total, with_mmap. cbn [mmap]. fold n.
  fold P. fold A. replace (Z.of_nat (S (S (List.length A))) - Z.of_nat (List.length pre))
    with (Z.of_nat n + 22) by lia. done.
Qed.

(** Reading the words back. *)
Lemma load_store_4 z : 0 <= z < 2 ^ 32 -> load e (store e 4 z) = z.
Proof.
  intros. rewrite load_store. change (256 ^ Z.of_nat 4) with (2 ^ 32). by apply Z.mod_small.
Qed.

Lemma commit_crc_layout h pre w0 w3 w4 body tot cvi cr ncdl :
  mmap h = layout pre w0 (store e 4 tot) (store e 4 cvi) w3 w4 body ->
  List.length pre = Z.to_nat (offset h) -> word w0 -> word w3 -> word w4 ->
  0 <= cvi < 2 ^ 32 -> 20 <= tot <= 20 + Z.of_nat (List.length body) -> tot < 2 ^ 32 ->
  commit_crc e cvi cr ncdl h
  = Some (with_mmap (layout pre w0 (store e 4 tot)
            (store e 4 (Z.lor cvi (checksum cvi cr ncdl body tot))) w3 w4 body) h).
Proof.
  intros Em Hpre H0 H3 H4 Hcvi Htot Htot2. pose proof (store_word e) as Hw.
  unfold commit_crc, put_header.
  assert (len e h = tot) as ->.
  { unfold len, header_word. rewrite <- Hpre, Em, slice_word1 by done.
    apply load_store_4. lia. }
  assert (crc_ver_init e h = cvi) as ->.
  { unfold crc_ver_init, header_word. rewrite <- Hpre, Em, slice_word2 by done.
    by apply load_store_4. }
  change (Z.of_nat header_size) with 20. unfold wrap. rewrite Z.mod_small by lia.
  rewrite <- Hpre, Em. rewrite (proj2 (Nat.ltb_ge _ _)).
  2:{ rewrite layout_length by done. change header_size with 20%nat. lia. }
  unfold slice. change header_size with 20%nat. rewrite drop_body by done.
  replace (Z.to_nat (tot - 20)) with (Z.to_nat tot - 20)%nat by lia.
  by rewrite put_word2 by done.
Qed.

Lemma commit_spec h :
  0 <= ulong -> low_address -> committable h ->
  exists l pre cvi cr ncdl tail m,
    committed h l pre cvi cr ncdl tail m /\
    nvram_commit e schar ulong addr part_size h = _nvram_rehash e schar (with_mmap m h).
Proof.
  intros Hu Hlow Hc. pose proof Hc as [Hsize Hlen (Ho & Ho4 & Hp4 & Hp) Hroom Hset].
  destruct (layout_split (mmap h) (Z.to_nat (offset h))) as (pre & w0 & w1 & w2 & w3 & w4 & body
    & Em & Hpre & H0 & H1 & H2 & H3 & H4); [lia|].
  destruct (commit_words_total h Hu) as (cvi & cr & ncdl & Ew & Hcvi & Hcr).
  unfold nvram_commit.
  rewrite (commit_header_layout h pre w0 w1 w2 w3 w4 body cvi cr ncdl) by done.
  cbn [option_bind mbind].
  set (h1 := with_mmap _ h). pose proof (store_word e) as Hw.
  destruct (commit_data_layout h1 pre (store e 4 NVRAM_MAGIC) w1 (store e 4 cvi) (store e 4 cr)
    (store e 4 ncdl) body) as (l & tail & Hsub & Hall & Hfits & Hbody & ->); try done.
  { split; try done. unfold h1. cbn [mmap with_mmap].
    rewrite layout_length by done. rewrite Em, layout_length in Hsize by done. done. }
  cbn [option_bind mbind].
  assert (0 <= Z.of_nat (List.length (image l))) by lia.
  destruct (roundup_4 (Z.of_nat (List.length (image l)) + 22)) as [Hr1 Hr2]; [lia|].
  fold (total l) in Hr1, Hr2. change (space h1) with (space h) in *.
  assert (total l <= space h) as Htot.
  { unfold space in *. Z.to_euclidean_division_equations; lia. }
  rewrite (commit_crc_layout (with_mmap _ h1) pre (store e 4 NVRAM_MAGIC) (store e 4 cr)
    (store e 4 ncdl) (image l ++ 0 :: tail) (total l) cvi cr ncdl);
    try done; try (unfold space in *; lia).
  exists l, pre, cvi, cr, ncdl, tail. eexists. split; [|reflexivity].
  split; try done. rewrite Em, <- Hpre. unfold layout. by rewrite take_app_length.
Qed.

(** ** What [_nvram_rehash] reads back *)

(** One of the four variables it adds when they are missing. *)
Definition default_var (n v : cstr) (m : gmap cstr cstr) : gmap cstr cstr :=
  match m !! n with Some _ => m | None => <[n := v]> m end.

Lemma set_default_spec h m n d z :
  repr schar h m -> allocs h = [] -> slen (hex_buf d z) + 1 <= u32 (length h - offset h) ->
  repr schar (set_default schar n d z h) (default_var (bytes_of n) (hex_buf d z) m) /\
  allocs (set_default schar n d z h) = [] /\
  mmap (set_default schar n d z h) = mmap h /\
  length (set_default schar n d z h) = length h /\
  offset (set_default schar n d z h) = offset h.
Proof.
  intros Hr Ha Hv. unfold set_default, default_var. rewrite <- (proj2 Hr).
  destruct (nvram_get schar h (Some (bytes_of n))); [done|].
  destruct (nvram_set_fits schar h (bytes_of n) (hex_buf d z) Ha Hv) as (_ & ? & ? & ? & ?).
  split; [by apply nvram_set_repr|done].
Qed.

Lemma slen_hex_buf d z : slen (hex_buf d z) = Z.of_nat d + 2.
Proof.
  unfold slen, hex_buf. rewrite bytes_of_app, length_app, !bytes_of_length.
  assert (forall d, String.length (hex_fixed true d z) = d) as -> by (induction d0; cbn; auto).
  cbn. lia.
Qed.

(** The map with the words of the header as defaults. *)
Definition with_defaults (cvi cr ncdl : Z) (m : gmap cstr cstr) : gmap cstr cstr :=
  default_var (bytes_of "sdram_ncdl") (hex_buf 8 ncdl)
    (default_var (bytes_of "sdram_refresh") (hex_buf 4 (u16 (Z.land (Z.shiftr cr 16) 0xffff)))
      (default_var (bytes_of "sdram_config") (hex_buf 4 (u16 (Z.land cr 0xffff)))
        (default_var (bytes_of "sdram_init") (hex_buf 4 (u16 (Z.shiftr cvi 16))) m))).

Lemma rehash_spec h pre w0 w1 w2 w3 w4 l tail :
  mmap h = layout pre w0 w1 w2 w3 w4 (image l ++ 0 :: tail) ->
  List.length pre = Z.to_nat (offset h) ->
  word w0 -> word w1 -> word w2 -> word w3 -> word w4 ->
  allocs h = [] -> 24 <= u32 (length h - offset h) ->
  Z.of_nat (List.length (image l)) + 22 <= u32 (length h - offset h) ->
  Forall (fun q => name_ok (fst q) /\ no_nul (snd q)) l ->
  exists h', _nvram_rehash e schar h = Some (0, h') /\
    repr schar h' (with_defaults (load e w2) (load e w3) (load e w4) (map_all l ∅)) /\
    mmap h' = mmap h /\ length h' = length h /\ offset h' = offset h.
Proof.
  intros Em Hpre ? ? ? ? ? Ha Hroom Hfits Hl. unfold _nvram_rehash.
  change header_size with 20%nat.
  rewrite (parse_image schar _ l _ _ tail).
  2:{ done. }
  2:{ cbn [mmap _nvram_free]. by rewrite Em, <- Hpre, drop_body. }
  2:{ rewrite Em, layout_length, length_app by done. pose proof (image_count l). cbn. lia. }
  cbn [option_bind mbind].
  destruct (set_all_spec schar l (_nvram_free h) ∅) as (Hr & Ha1 & Hm & Hlen & Ho);
    [apply repr_empty|done| |].
  { apply Forall_forall. intros p Hp. pose proof (image_value_fits l p Hp).
    unfold slen. cbn [length offset _nvram_free]. lia. }
  set (h0 := set_all schar l (_nvram_free h)) in *.
  cbn [mmap length offset _nvram_free] in Hm, Hlen, Ho.
  assert (forall k w, slice (Z.to_nat (offset h) + k) 4 (mmap h) = w ->
    forall h1, mmap h1 = mmap h -> offset h1 = offset h -> header_word e h1 k = load e w) as Hw.
  { intros k w <- h1 E1 E2. unfold header_word. by rewrite E1, E2. }
  assert (forall h1, mmap h1 = mmap h -> offset h1 = offset h -> crc_ver_init e h1 = load e w2)
    as Hw2 by (apply Hw; by rewrite Em, <- Hpre, slice_word2).
  assert (forall h1, mmap h1 = mmap h -> offset h1 = offset h -> config_refresh e h1 = load e w3)
    as Hw3 by (apply Hw; by rewrite Em, <- Hpre, slice_word3).
  assert (forall h1, mmap h1 = mmap h -> offset h1 = offset h -> config_ncdl e h1 = load e w4)
    as Hw4 by (apply Hw; by rewrite Em, <- Hpre, slice_word4).
  rewrite (Hw2 h0) by done.
  destruct (set_default_spec h0 _ "sdram_init" 4 (u16 (Z.shiftr (load e w2) 16)) Hr Ha1)
    as (Hr1 & Ha2 & Hm1 & Hl1 & Ho1); [rewrite slen_hex_buf, Hlen, Ho; lia|].
  set (h1 := set_default _ _ _ _ h0) in *. rewrite (Hw3 h1) by congruence.
  destruct (set_default_spec h1 _ "sdram_config" 4 (u16 (Z.land (load e w3) 0xffff)) Hr1 Ha2)
    as (Hr2 & Ha3 & Hm2 & Hl2 & Ho2); [rewrite slen_hex_buf, Hl1, Ho1, Hlen, Ho; lia|].
  set (h2 := set_default _ _ _ _ h1) in *. rewrite (Hw3 h2) by congruence.
  destruct (set_default_spec h2 _ "sdram_refresh" 4
    (u16 (Z.land (Z.shiftr (load e w3) 16) 0xffff)) Hr2 Ha3)
    as (Hr3 & Ha4 & Hm3 & Hl3 & Ho3); [rewrite slen_hex_buf, Hl2, Ho2, Hl1, Ho1, Hlen, Ho; lia|].
  set (h3 := set_default _ _ _ _ h2) in *. rewrite (Hw4 h3) by congruence.
  destruct (set_default_spec h3 _ "sdram_ncdl" 8 (load e w4) Hr3 Ha4)
    as (Hr4 & Ha5 & Hm4 & Hl4 & Ho4);
    [rewrite slen_hex_buf, Hl3, Ho3, Hl2, Ho2, Hl1, Ho1, Hlen, Ho; lia|].
  eexists. split; [reflexivity|]. split; [exact Hr4|]. repeat split; congruence.
Qed.
End Platform.
