(* ===== verification/NvramProofs.v ===== *)
(** * The nvram library: what it promises

    The operations refine a finite map; a commit stays inside the partition, can be
    read back, and carries a checksum that [nvram info] recomputes. *)

From Stdlib Require Import ZArith Lia String.
From stdpp Require Import base list strings numbers option gmap.
From S2P Require Import Prelude CString Nvram NvramTable NvramCommit.


Definition empty_handle (mm : list Z) (al : list bool) : nvram_handle :=
  Handle mm (Z.of_nat (List.length mm)) 0 (replicate buckets []) [] al.


(** ** Commit *)

(** The variables [_nvram_rehash] adds to an image whose header has the default
    words. *)
Definition sdram_defaults (m : gmap cstr cstr) : gmap cstr cstr :=
  default_var (bytes_of "sdram_ncdl") (bytes_of "0x00000000")
    (default_var (bytes_of "sdram_refresh") (bytes_of "0x8040")
      (default_var (bytes_of "sdram_config") (bytes_of "0x0000")
        (default_var (bytes_of "sdram_init") (bytes_of "0x0419") m))).

Lemma default_var_present n v m : is_Some (m !! n) -> default_var n v m = m.
Proof. unfold default_var. by intros [? ->]. Qed.

Lemma high_half_of_init c : is_byte c -> Z.shiftr (Z.lor 0x04190100 c) 16 = 0x0419.
Proof.
  intros Hc. rewrite Z.shiftr_lor. unfold is_byte in Hc.
  rewrite (Z.shiftr_div_pow2 c), (Z.div_small c) by lia. done.
Qed.

Lemma init_word_range c : is_byte c -> 0 <= Z.lor 0x04190100 c < 2 ^ 32.
Proof.
  unfold is_byte. intros Hc. split; [apply Z.lor_nonneg; lia|].
  apply Z.log2_lt_cancel. rewrite Z.log2_lor by lia.
  assert (Z.log2 c <= Z.log2 255) by (apply Z.log2_le_mono; lia).
  change (Z.log2 255) with 7 in *. change (Z.log2 0x04190100) with 26.
  change (Z.log2 (2 ^ 32)) with 32. lia.
Qed.

Lemma with_defaults_sdram e schar ulong h m cvi cr ncdl c :
  repr schar h m -> commit_words schar ulong h = Some (cvi, cr, ncdl) -> is_byte c ->
  0 <= cvi < 2 ^ 32 ->
  with_defaults (load e (store e 4 (Z.lor cvi c))) (load e (store e 4 cr))
    (load e (store e 4 ncdl)) m = sdram_defaults m.
Proof.
  intros [_ Hg] Hw Hc Hcvi.
  assert (forall n, nvram_get schar h (Some n) = m !! n) as Hg' by done.
  unfold commit_words in Hw. rewrite !Hg' in Hw.
  assert (Hdef : Some (0x04190100, 0x80400000, 0) = Some (cvi, cr, ncdl) ->
    with_defaults (load e (store e 4 (Z.lor cvi c))) (load e (store e 4 cr))
      (load e (store e 4 ncdl)) m = sdram_defaults m).
  { intros [= <- <- <-]. unfold with_defaults.
    rewrite !load_store_4 by (try apply init_word_range; done || lia).
    rewrite high_half_of_init by done. reflexivity. }
  destruct (m !! bytes_of "sdram_init") as [i|] eqn:Ei; [|exact (Hdef Hw)].
  destruct (m !! bytes_of "sdram_config") as [k|] eqn:Ek; [|exact (Hdef Hw)].
  destruct (m !! bytes_of "sdram_refresh") as [r|] eqn:Er; [|exact (Hdef Hw)].
  destruct (m !! bytes_of "sdram_ncdl") as [d|] eqn:Ed; [|exact (Hdef Hw)].
  unfold with_defaults, sdram_defaults.
  by rewrite !(default_var_present _ _ m) by (rewrite ?Ei, ?Ek, ?Er, ?Ed; by eexists).
Qed.

(** What a committed handle is: the image was written, and read back. *)
Lemma commit_result e schar ulong addr part_size h :
  0 <= ulong -> low_address addr part_size -> committable part_size h -> allocs h = [] ->
  Forall (fun q => name_ok (fst q) /\ no_nul (snd q)) (pairs (concat (nvram_hash h))) ->
  exists l pre cvi cr ncdl tail h',
    committed e schar ulong part_size h l pre cvi cr ncdl tail (mmap h') /\
    List.length pre = Z.to_nat (offset h) /\
    nvram_commit e schar ulong addr part_size h = Some (0, h') /\
    is_byte (checksum e cvi cr ncdl (image l ++ 0 :: tail) (total l)) /\
    repr schar h' (with_defaults
      (load e (store e 4 (Z.lor cvi (checksum e cvi cr ncdl (image l ++ 0 :: tail) (total l)))))
      (load e (store e 4 cr)) (load e (store e 4 ncdl)) (map_all l ∅)) /\
    length h' = length h /\ offset h' = offset h.
Proof.
  intros Hu Hlow Hc Ha Hn.
  destruct (commit_spec e schar ulong addr part_size h Hu Hlow Hc)
    as (l & pre & cvi & cr & ncdl & tail & m & Hm & E).
  pose proof Hm as [Hpre Hsub Hall Hfits Hw Hcvi Hbody Hmem].
  destruct Hc as [Hsize Hlen (Ho & Ho4 & Hp4 & Hp) Hroom Hset].
  assert (List.length pre = Z.to_nat (offset h)) as Hlp
    by (rewrite Hpre, length_take; lia).
  pose proof (store_word e) as Hwd.
  assert (u32 (length h - offset h) = part_size - offset h) as Hsp
    by (rewrite Hlen; apply wrap_small; lia).
  edestruct (rehash_spec e schar (with_mmap m h) pre) as (h' & E' & Hr & Hmm & Hl & Hoff);
    [exact Hmem|exact Hlp|apply Hwd..|exact Ha| | | |].
  - cbn [length offset with_mmap]. lia.
  - cbn [length offset with_mmap]. unfold space in Hfits. lia.
  - rewrite Forall_forall in *. intros q Hq. apply Hn. by eapply elem_of_sublist.
  - exists l, pre, cvi, cr, ncdl, tail, h'. cbn [mmap with_mmap] in Hmm. rewrite Hmm.
    split; [done|]. split; [done|]. split; [by rewrite E|]. split; [|by split].
    unfold checksum. do 2 apply crc8_byte. unfold is_byte. lia.
Qed.

Lemma names_ok_pairs schar h m :
  repr schar h m -> map_Forall (fun n v => name_ok n /\ no_nul v) m ->
  Forall (fun q => name_ok (fst q) /\ no_nul (snd q)) (pairs (concat (nvram_hash h))).
Proof.
  intros Hr Hm. apply Forall_forall. intros [n v] Hin.
  apply (table_pairs schar h m n v Hr) in Hin. by apply (Hm n v).
Qed.


(** A partition of 128 bytes with one variable. *)
Definition small : nvram_handle :=
  snd (nvram_set true (empty_handle (replicate 128 0) []) (bytes_of "et0mac") (bytes_of "0:1")).

Lemma small_repr : repr true small {[bytes_of "et0mac" := bytes_of "0:1"]}.
Proof. apply nvram_set_repr; [apply repr_empty|done|by vm_compute]. Qed.

Lemma small_committable : committable 128 small.
Proof.
  split; [by vm_compute..|]. unfold all_set. vm_compute. repeat constructor. by eexists.
Qed.

Lemma small_names :
  map_Forall (fun n v => name_ok n /\ no_nul v)
    ({[bytes_of "et0mac" := bytes_of "0:1"]} : gmap cstr cstr).
Proof.
  apply map_Forall_singleton. unfold name_ok, no_nul.
  split; [split|]; apply (bool_decide_eq_true_1 _); by vm_compute.
Qed.




(** ** The checksum *)

(** On a little-endian host the bytes behind the checksum are those it covers. *)
Lemma covered_bytes cvi cr ncdl c body pre w0 w1 :
  is_byte c -> word w0 -> word w1 ->
  drop (List.length pre + 9)
    (layout pre w0 w1 (store LE 4 (Z.lor cvi c)) (store LE 4 cr) (store LE 4 ncdl) body)
  = drop 9 (replicate 8 0 ++ store LE 4 cvi ++ store LE 4 cr ++ store LE 4 ncdl) ++ body.
Proof.
  intros Hc H0 H1. unfold layout, word in *.
  rewrite (app_assoc w0), (app_assoc pre), drop_app_ge by (rewrite !length_app; lia).
  replace (_ - _)%nat with 1%nat by (rewrite !length_app; lia).
  cbn [store le_bytes drop app replicate].
  assert (Z.lor cvi c / 256 = cvi / 256) as E.
  { change 256 with (2 ^ 8). rewrite <- !Z.shiftr_div_pow2, Z.shiftr_lor by lia.
    unfold is_byte in Hc. rewrite (Z.shiftr_div_pow2 c), (Z.div_small c), Z.lor_0_r by lia. done. }
  by rewrite E.
Qed.

(** On a little-endian host the checksum [nvram info] calculates over a
    committed partition is the one [nvram_commit] stored in its header. *)
Theorem nvram_info_checksum (schar : bool) (ulong addr part_size : Z)
    (h : nvram_handle) (m : gmap cstr cstr)
    (Hu : 0 <= ulong) (Hlow : low_address addr part_size) (Hc : committable part_size h)
    (Hr : repr schar h m) (Ha : allocs h = [])
    (Hm : map_Forall (fun n v => name_ok n /\ no_nul v) m) :
  exists h' c, nvram_commit LE schar ulong addr part_size h = Some (0, h') /\
    do_info LE h' = Some (c, c).
Proof.
  destruct (commit_result LE schar ulong addr part_size h Hu Hlow Hc Ha
    (names_ok_pairs schar h m Hr Hm))
    as (l & pre & cvi & cr & ncdl & tail & h' & Hcm & Hlp & E & Hb & _ & Hl' & Ho').
  destruct Hcm as [_ _ _ Hfits _ [Hlow8 Hcvi] Hbody Hmem]. pose proof (store_word LE) as Hw.
  destruct Hc as [Hsize Hlen (Ho & Ho4 & Hp4 & Hp) Hroom Hset]. unfold space in *.
  destruct (roundup_4 (Z.of_nat (List.length (image l)) + 22)) as [Hr1 Hr2]; [lia|].
  fold (total l) in *.
  assert (total l <= part_size - offset h) by (Z.to_euclidean_division_equations; lia).
  set (body := image l ++ 0 :: tail) in *.
  set (c := checksum LE cvi cr ncdl body (total l)) in *.
  exists h', c. split; [done|]. unfold do_info.
  assert (len LE h' = total l) as ->.
  { unfold len, header_word. rewrite Ho', Hmem, <- Hlp, slice_word1 by done.
    apply load_store_4. lia. }
  assert (Z.land (crc_ver_init LE h') 0xFF = c) as ->.
  { unfold crc_ver_init, header_word. rewrite Ho', Hmem, <- Hlp, slice_word2 by done.
    rewrite load_store. change 0xff with (Z.ones 8). change (256 ^ Z.of_nat 4) with (2 ^ 32).
    rewrite Z.land_ones by lia. change (2 ^ 32) with (2 ^ 8 * 2 ^ 24).
    rewrite Z.rem_mul_r, (Z.mul_comm (2 ^ 8)), Z.mod_add, Z.mod_mod by lia.
    rewrite <- Z.land_ones, Z.land_lor_distr_l by lia. change (Z.ones 8) with 0xff.
    rewrite Hlow8, Z.lor_0_l. change 0xff with (Z.ones 8). rewrite Z.land_ones by lia.
    by apply Z.mod_small. }
  unfold NVRAM_CRC_START_POSITION. unfold wrap. rewrite Z.mod_small by lia.
  rewrite Ho', Hmem, <- Hlp. rewrite (proj2 (Nat.ltb_ge _ _)) by
    (rewrite layout_length by done; lia).
  do 2 f_equal. unfold slice. rewrite covered_bytes by done.
  set (hd := drop 9 _). assert (List.length hd = 11%nat) as Hhd by done.
  rewrite take_app_ge, crc8_app by lia. unfold c, checksum. fold hd. do 2 f_equal.
  change header_size with 20%nat. lia.
Qed.

Lemma nvram_info_checksum_witness :
  exists h' c, nvram_commit LE true 64 0x10000 128 small = Some (0, h') /\
    do_info LE h' = Some (c, c).
Proof.
  apply (nvram_info_checksum true 64 0x10000 128 small
    {[bytes_of "et0mac" := bytes_of "0:1"]}).
  - lia.
  - unfold low_address. by vm_compute.
  - apply small_committable.
  - apply small_repr.
  - reflexivity.
  - apply small_names.
Defined.

(** One bit of the CRC with the polynomial x^8 + x^7 + x^6 + x^4 + x^2 + 1, lowest
    bit first. *)
Definition crc_bit (c : Z) : Z :=
  if Z.odd c then Z.lxor (Z.shiftr c 1) 0xAB else Z.shiftr c 1.

Definition crc_bits (l : list Z) (c : Z) : Z :=
  foldl (fun c b => Nat.iter 8 crc_bit (Z.lxor c b)) c l.

Lemma crc_table_bits x : is_byte x -> crc8_table !!! Z.to_nat x = Nat.iter 8 crc_bit x.
Proof.
  intros Hx.
  assert (forallb (fun x => crc8_table !!! Z.to_nat x =? Nat.iter 8 crc_bit x)
    (map Z.of_nat (seq 0 256)) = true) as Hall by (by vm_compute).
  rewrite forallb_forall in Hall. apply Z.eqb_eq, Hall.
  unfold is_byte in Hx. rewrite <- (Z2Nat.id x) by lia. apply in_map, in_seq. lia.
Qed.

Lemma lxor_byte a b : is_byte a -> is_byte b -> is_byte (Z.lxor a b).
Proof.
  unfold is_byte. intros Ha Hb.
  assert (Z.lxor a b = Z.lxor a b mod 2 ^ 8) as ->.
  { symmetry. apply Z.bits_inj'. intros i Hi. destruct (Z.ltb_spec i 8).
    - by rewrite Z.mod_pow2_bits_low.
    - rewrite Z.mod_pow2_bits_high, Z.lxor_spec, (testbit_out_of_range a 8),
        (testbit_out_of_range b 8) by lia. done. }
  apply (Z.mod_pos_bound _ (2 ^ 8)). lia.
Qed.

(** The entries of the table are pairwise different: a position for each byte. *)
Definition crc8_inverse (c : Z) : Z :=
  default 0 (head (List.filter (fun x => crc8_table !!! Z.to_nat x =? c)
    (map Z.of_nat (seq 0 256)))).

Lemma crc_table_inj x y : is_byte x -> is_byte y ->
  crc8_table !!! Z.to_nat x = crc8_table !!! Z.to_nat y -> x = y.
Proof.
  assert (forall x, is_byte x -> crc8_inverse (crc8_table !!! Z.to_nat x) = x) as Hinv.
  { clear. intros x Hx.
    assert (forallb (fun x => crc8_inverse (crc8_table !!! Z.to_nat x) =? x)
      (map Z.of_nat (seq 0 256)) = true) as Hall by (by vm_compute).
    rewrite forallb_forall in Hall. apply Z.eqb_eq, Hall.
    unfold is_byte in Hx. rewrite <- (Z2Nat.id x) by lia. apply in_map, in_seq. lia. }
  intros Hx Hy E. by rewrite <- (Hinv x), <- (Hinv y), E.
Qed.

Lemma crc_index c b : is_byte c -> is_byte b -> Z.land (Z.lxor c b) 0xff = Z.lxor c b.
Proof.
  intros Hc Hb. pose proof (lxor_byte c b Hc Hb) as Hx. unfold is_byte in Hx.
  change 0xff with (Z.ones 8). rewrite Z.land_ones by lia. by apply Z.mod_small.
Qed.

Lemma crc_step c b : is_byte c -> is_byte b ->
  crc8_table !!! Z.to_nat (Z.land (Z.lxor c b) 0xff) = Nat.iter 8 crc_bit (Z.lxor c b).
Proof.
  intros Hc Hb. rewrite crc_index by done. by apply crc_table_bits, lxor_byte.
Qed.

(** Reading on from different values gives different values. *)
Lemma crc8_inj l c c' : bytes_ok l -> is_byte c -> is_byte c' ->
  hndcrc8 l c = hndcrc8 l c' -> c = c'.
Proof.
  intros Hl. revert c c'. induction Hl as [|b l Hb Hl IH]; intros c c' Hc Hc'; [done|].
  cbn [hndcrc8]. intros E. apply IH in E;
    [|by apply (crc8_byte [b])..].
  rewrite !crc_index in E by done. apply crc_table_inj in E; [|by apply lxor_byte..].
  apply (f_equal (fun x => Z.lxor x b)) in E.
  by rewrite !Z.lxor_assoc, Z.lxor_nilpotent, !Z.lxor_0_r in E.
Qed.

(** The table-driven CRC is the bit-by-bit CRC of the polynomial its comment
    names, and changing one byte of the data always changes it. *)
Theorem hndcrc8_polynomial (l1 l2 : list Z) (b b' c : Z)
    (H1 : bytes_ok l1) (H2 : bytes_ok l2) (Hb : is_byte b) (Hb' : is_byte b')
    (Hc : is_byte c) (Hne : b <> b') :
  hndcrc8 (l1 ++ b :: l2) c = crc_bits (l1 ++ b :: l2) c /\
  hndcrc8 (l1 ++ b :: l2) c <> hndcrc8 (l1 ++ b' :: l2) c.
Proof.
  split.
  - assert (forall l c, bytes_ok l -> is_byte c -> hndcrc8 l c = crc_bits l c) as E.
    { intros l c0 Hl. revert c0. induction Hl as [|x l Hx Hl IH]; intros c0 Hc0; [done|].
      cbn [hndcrc8]. rewrite IH by by apply (crc8_byte [x]).
      unfold crc_bits. cbn [foldl]. by rewrite crc_step. }
    apply E; [|done]. apply Forall_app. by split; [|constructor].
  - rewrite !crc8_app. cbn [hndcrc8]. intros E.
    pose proof (crc8_byte l1 c Hc) as Hk. set (k := hndcrc8 l1 c) in *.
    apply crc8_inj in E; [|done|by apply (crc8_byte [b])|by apply (crc8_byte [b'])].
    rewrite !crc_index in E by done. apply crc_table_inj in E; [|by apply lxor_byte..].
    apply (f_equal (Z.lxor k)) in E.
    by rewrite <- !Z.lxor_assoc, Z.lxor_nilpotent, !Z.lxor_0_l in E.
Qed.

Lemma hndcrc8_polynomial_witness :
  hndcrc8 ([1; 2] ++ 3 :: [4]) 0xff = crc_bits ([1; 2] ++ 3 :: [4]) 0xff /\
  hndcrc8 ([1; 2] ++ 3 :: [4]) 0xff <> hndcrc8 ([1; 2] ++ 7 :: [4]) 0xff.
Proof.
  apply hndcrc8_polynomial; unfold is_byte; repeat constructor; lia.
Defined.

(** ** What the code allows *)

(** A commit that fills the partition sets a length [nvram_open] does not accept
    for writing: the length word equals the space behind the header, and the test
    there is strict. Reading is still possible. *)
Definition full_partition : nvram_handle :=
  snd (nvram_set true (empty_handle (replicate (Z.to_nat 0x8000) 0) []) (bytes_of "a")
         (replicate (Z.to_nat 32743) 120)).

Example full_commit_not_writable :
  match nvram_commit LE true 64 0x10000 0x8000 full_partition with
  | Some (0, h) =>
      nvram_open_area LE true (mmap h) false [] = Some None /\
      match nvram_open_area LE true (mmap h) true [] with Some (Some _) => True | _ => False end /\
      len LE h = 0x8000
  | _ => False
  end.
Proof. vm_compute. repeat split. Qed.

(** Where [(int)ptr] is negative, [%] is too, and up to seven zeros are written
    instead of three: past the end of the mapping when it is nearly full. *)
Definition nearly_full : nvram_handle :=
  snd (nvram_set true (empty_handle (replicate 128 0) []) (bytes_of "a") (replicate 103 120)).

Example high_address_overrun :
  nvram_commit LE true 64 0x80000000 128 nearly_full = None /\
  match nvram_commit LE true 64 0x10000 128 nearly_full with Some (0, _) => True | _ => False end.
Proof. vm_compute. repeat split. Qed.

(** When the allocator refuses to resize a value, [nvram_set] reports [-ENOMEM]
    but leaves a tuple without value in the table, which [nvram_commit] reads. *)
Definition lost_value : Z * nvram_handle :=
  nvram_set true
    (snd (nvram_set true (empty_handle (replicate 128 0) [true; true; false])
            (bytes_of "a") (bytes_of "b"))) (bytes_of "a") (bytes_of "c").

Example lost_value_commit :
  fst lost_value = ENOMEM /\ nvram_get true (snd lost_value) (Some (bytes_of "a")) = None /\
  nvram_commit LE true 64 0x10000 128 (snd lost_value) = None.
Proof. vm_compute. repeat split. Qed.

(** On a big-endian host the bytes from offset 9 include the checksum itself: the
    value [nvram info] calculates differs from the stored one. *)
Example big_endian_checksum :
  match nvram_commit BE true 64 0x10000 128 small with
  | Some (_, h) => match do_info BE h with Some (stored, calc) => stored <> calc | None => False end
  | None => False
  end.
Proof. vm_compute. discriminate. Qed.
