(* ===== verification/KExpr.v ===== *)
(** * Kconfig dependency expressions

    Models [scripts/config/expr.c]: the expressions of the configuration language,
    their value in an environment of symbol values, and the operations that copy,
    compare, simplify, transform and print them. Choice lists and ranges
    ([E_LIST], [E_RANGE]) only stand at the root of the properties of a symbol and
    are left out; so is the reclaiming of memory. Nodes are owned by one parent, so
    in-place rewriting is a function from trees to trees; the one operation whose
    two pointers are into the same tree, [expr_eliminate_dups1], works on the list
    of the operands those pointers walk over. *)

From Stdlib Require Import ZArith Lia String Ascii.
From stdpp Require Import base list strings numbers option.
From S2P Require Import Prelude CString.

(** ** Data *)

Inductive tristate := no | mod_ | yes.

Inductive symbol_type := S_UNKNOWN | S_BOOLEAN | S_TRISTATE | S_INT | S_HEX | S_STRING.

(** Pointers to symbols: the three constants every configuration has, and others. *)
Inductive symbol := symbol_yes | symbol_mod | symbol_no | Sym (id : nat).

(** The comparisons of [enum expr_type], and its two connectives. *)
Inductive relation := E_EQUAL | E_UNEQUAL | E_LTH | E_LEQ | E_GTH | E_GEQ.
Inductive connective := E_OR | E_AND.

(** [struct expr]; the null pointer is [None] of [option expr]. *)
Inductive expr :=
  | E_SYMBOL (s : symbol)
  | E_NOT (e : expr)
  | E_BIN (op : connective) (l r : expr)
  | E_COMP (rel : relation) (s1 s2 : symbol).

#[export] Instance tristate_eq_dec : EqDecision tristate.
Proof. solve_decision. Defined.
#[export] Instance symbol_type_eq_dec : EqDecision symbol_type.
Proof. solve_decision. Defined.
#[export] Instance symbol_eq_dec : EqDecision symbol.
Proof. solve_decision. Defined.
#[export] Instance relation_eq_dec : EqDecision relation.
Proof. solve_decision. Defined.
#[export] Instance connective_eq_dec : EqDecision connective.
Proof. solve_decision. Defined.

(** What the operations read of a [struct symbol] whose value is up to date. *)
Record symbol_data := SymbolData {
  name : option string;
  type : symbol_type;
  is_const : bool;
  curr_tri : tristate;
  curr_val : string
}.

Definition tri_num (t : tristate) : Z := match t with no => 0 | mod_ => 1 | yes => 2 end.

Definition EXPR_OR (a b : tristate) : tristate := if tri_num b <? tri_num a then a else b.
Definition EXPR_AND (a b : tristate) : tristate := if tri_num a <? tri_num b then a else b.
Definition EXPR_NOT (a : tristate) : tristate :=
  match a with no => yes | mod_ => mod_ | yes => no end.

Definition apply_op (op : connective) : tristate -> tristate -> tristate :=
  match op with E_OR => EXPR_OR | E_AND => EXPR_AND end.

(** ** Allocation *)

Definition expr_alloc_symbol (sym : symbol) : expr := E_SYMBOL sym.
Definition expr_alloc_one (ce : expr) : expr := E_NOT ce.
Definition expr_alloc_two (op : connective) (e1 e2 : expr) : expr := E_BIN op e1 e2.
Definition expr_alloc_comp (rel : relation) (s1 s2 : symbol) : expr := E_COMP rel s1 s2.

Definition expr_alloc_and (e1 e2 : option expr) : option expr :=
  match e1, e2 with
  | None, _ => e2
  | Some a, Some b => Some (expr_alloc_two E_AND a b)
  | Some _, None => e1
  end.

Definition expr_alloc_or (e1 e2 : option expr) : option expr :=
  match e1, e2 with
  | None, _ => e2
  | Some a, Some b => Some (expr_alloc_two E_OR a b)
  | Some _, None => e1
  end.

Fixpoint expr_copy (org : expr) : expr :=
  match org with
  | E_SYMBOL s => E_SYMBOL s
  | E_NOT e => E_NOT (expr_copy e)
  | E_COMP rel s1 s2 => E_COMP rel s1 s2
  | E_BIN op l r => E_BIN op (expr_copy l) (expr_copy r)
  end.

Definition expr_is_yes (e : option expr) : bool :=
  match e with
  | None => true
  | Some (E_SYMBOL s) => bool_decide (s = symbol_yes)
  | _ => false
  end.

Definition expr_is_no (e : option expr) : bool :=
  match e with Some (E_SYMBOL s) => bool_decide (s = symbol_no) | _ => false end.

(** Number of nodes. *)
Fixpoint size (e : expr) : nat :=
  match e with
  | E_SYMBOL _ | E_COMP _ _ _ => 1
  | E_NOT e => S (size e)
  | E_BIN _ l r => S (size l + size r)
  end.

(** ** Constants in operands *)

(** The symbol an operand is replaced by that is no longer needed. *)
Definition unit_of (op : connective) : symbol :=
  match op with E_OR => symbol_no | E_AND => symbol_yes end.
Definition zero_of (op : connective) : symbol :=
  match op with E_OR => symbol_yes | E_AND => symbol_no end.

Definition is_symbol (e : expr) (s : symbol) : bool :=
  match e with E_SYMBOL t => bool_decide (t = s) | _ => false end.

(** The two cases of the C, one for each connective, have the same shape: the left
    operand decides, then the right one. *)
Fixpoint expr_eliminate_yn (e : expr) : expr :=
  match e with
  | E_BIN op l r =>
      let l := expr_eliminate_yn l in
      let r := expr_eliminate_yn r in
      if is_symbol l (zero_of op) then E_SYMBOL (zero_of op)
      else if is_symbol l (unit_of op) then r
      else if is_symbol r (zero_of op) then E_SYMBOL (zero_of op)
      else if is_symbol r (unit_of op) then l
      else E_BIN op l r
  | _ => e
  end.

(** ** Equality *)

Section Eliminate.
(** The comparison of leaves. *)
Context (eq : expr -> expr -> bool).

(** [__expr_eliminate_eq] once [e1] is a leaf of the level. *)
Fixpoint eliminate_eq_leaf (op : connective) (e1 e2 : expr) : expr * expr :=
  match e2 with
  | E_BIN op2 l r =>
      if bool_decide (op2 = op) then
        let '(e1, l) := eliminate_eq_leaf op e1 l in
        let '(e1, r) := eliminate_eq_leaf op e1 r in
        (e1, E_BIN op2 l r)
      else if eq e1 e2 then (E_SYMBOL (unit_of op), E_SYMBOL (unit_of op)) else (e1, e2)
  | _ =>
      if (is_symbol e1 symbol_yes && is_symbol e2 symbol_yes)
         || (is_symbol e1 symbol_no && is_symbol e2 symbol_no) then (e1, e2)
      else if eq e1 e2 then (E_SYMBOL (unit_of op), E_SYMBOL (unit_of op)) else (e1, e2)
  end.

Fixpoint eliminate_eq_ (op : connective) (e1 e2 : expr) : expr * expr :=
  match e1 with
  | E_BIN op1 l r =>
      if bool_decide (op1 = op) then
        let '(l, e2) := eliminate_eq_ op l e2 in
        let '(r, e2) := eliminate_eq_ op r e2 in
        (E_BIN op1 l r, e2)
      else eliminate_eq_leaf op e1 e2
  | _ => eliminate_eq_leaf op e1 e2
  end.

(** The connective at the root. *)
Definition root (e : expr) : option connective :=
  match e with E_BIN op _ _ => Some op | _ => None end.

Definition same_type (e1 e2 : expr) : bool :=
  match e1, e2 with
  | E_SYMBOL _, E_SYMBOL _ | E_NOT _, E_NOT _ => true
  | E_BIN o1 _ _, E_BIN o2 _ _ => bool_decide (o1 = o2)
  | E_COMP r1 _ _, E_COMP r2 _ _ => bool_decide (r1 = r2)
  | _, _ => false
  end.

Definition eliminate_eq (e1 e2 : expr) : expr * expr :=
  let '(e1, e2) := match root e1 with Some op => eliminate_eq_ op e1 e2 | None => (e1, e2) end in
  let '(e1, e2) :=
    if same_type e1 e2 then (e1, e2)
    else match root e2 with Some op => eliminate_eq_ op e1 e2 | None => (e1, e2) end in
  (expr_eliminate_yn e1, expr_eliminate_yn e2).
End Eliminate.

(** [expr_eq] on two nodes, with at most [fuel] nested comparisons. *)
Fixpoint eq_fuel (fuel : nat) (e1 e2 : expr) : bool :=
  match fuel with
  | O => false
  | S fuel =>
      match e1, e2 with
      | E_COMP r1 a1 b1, E_COMP r2 a2 b2 =>
          bool_decide (r1 = r2) && bool_decide (a1 = a2) && bool_decide (b1 = b2)
      | E_SYMBOL s1, E_SYMBOL s2 => bool_decide (s1 = s2)
      | E_NOT x, E_NOT y => eq_fuel fuel x y
      | E_BIN o1 _ _, E_BIN o2 _ _ =>
          bool_decide (o1 = o2) &&
          match eliminate_eq (eq_fuel fuel) (expr_copy e1) (expr_copy e2) with
          | (E_SYMBOL s1, E_SYMBOL s2) => bool_decide (s1 = s2)
          | _ => false
          end
      | _, _ => false
      end
  end.

(** Comparisons nest at most as deep as there are nodes. *)
Definition node_eq (e1 e2 : expr) : bool := eq_fuel (size e1 + size e2) e1 e2.

Definition expr_eq (e1 e2 : option expr) : bool :=
  match e1, e2 with
  | Some e1, Some e2 => node_eq e1 e2
  | _, _ => expr_is_yes e1 && expr_is_yes e2
  end.

Definition expr_eliminate_eq (e1 e2 : option expr) : option expr * option expr :=
  match e1, e2 with
  | Some e1, Some e2 =>
      let '(e1, e2) := eliminate_eq node_eq e1 e2 in (Some e1, Some e2)
  | _, _ => (e1, e2)
  end.

(** ** Operations that look at the type of symbols *)

Section Symbols.
Context (sym : symbol -> symbol_data).

Definition type_of (s : symbol) : symbol_type := type (sym s).

Fixpoint expr_trans_bool (e : expr) : expr :=
  match e with
  | E_BIN op l r => E_BIN op (expr_trans_bool l) (expr_trans_bool r)
  | E_NOT e => E_NOT (expr_trans_bool e)
  | E_COMP E_UNEQUAL s1 s2 =>
      if bool_decide (type_of s1 = S_TRISTATE) && bool_decide (s2 = symbol_no)
      then E_SYMBOL s1 else e
  | _ => e
  end.

(** [sym1] of the join functions, where they do not give up before. *)
Definition join_sym1 (e1 : expr) : option symbol :=
  match e1 with
  | E_COMP E_EQUAL s _ | E_COMP E_UNEQUAL s _ | E_SYMBOL s => Some s
  | E_NOT (E_COMP E_EQUAL s _) | E_NOT (E_COMP E_UNEQUAL s _) | E_NOT (E_SYMBOL s) => Some s
  | _ => None
  end.

Definition join_sym2 (e2 : expr) : option symbol :=
  match e2 with
  | E_COMP E_EQUAL s _ | E_COMP E_UNEQUAL s _ | E_SYMBOL s | E_NOT (E_SYMBOL s) => Some s
  | _ => None
  end.

(** The common symbol, when it is boolean or tristate. *)
Definition join_sym (e1 e2 : expr) : option symbol :=
  s1 ← join_sym1 e1; s2 ← join_sym2 e2;
  if bool_decide (s1 = s2) &&
     (bool_decide (type_of s1 = S_BOOLEAN) || bool_decide (type_of s1 = S_TRISTATE))
  then Some s1 else None.

(** Right-hand side of a comparison of the given type. *)
Definition comp_rhs (rel : relation) (e : expr) : option symbol :=
  match e with
  | E_COMP r _ s2 => if bool_decide (r = rel) then Some s2 else None
  | _ => None
  end.

(** Both are comparisons [rel], with the two right-hand sides in either order. *)
Definition both (rel : relation) (x y : symbol) (e1 e2 : expr) : bool :=
  (bool_decide (comp_rhs rel e1 = Some x) && bool_decide (comp_rhs rel e2 = Some y)) ||
  (bool_decide (comp_rhs rel e1 = Some y) && bool_decide (comp_rhs rel e2 = Some x)).

Definition is_sym (e : expr) : bool := match e with E_SYMBOL _ => true | _ => false end.
Definition is_not_sym (e : expr) : bool := match e with E_NOT (E_SYMBOL _) => true | _ => false end.

(** One is a plain symbol, the other the comparison [rel] with [x]. *)
Definition sym_and_comp (rel : relation) (x : symbol) (e1 e2 : expr) : bool :=
  (is_sym e1 && bool_decide (comp_rhs rel e2 = Some x)) ||
  (is_sym e2 && bool_decide (comp_rhs rel e1 = Some x)).

Definition expr_join_or (e1 e2 : expr) : option expr :=
  if node_eq e1 e2 then Some (expr_copy e1)
  else
    s ← join_sym e1 e2;
    if bool_decide (type_of s = S_TRISTATE) && both E_EQUAL symbol_yes symbol_mod e1 e2
    then Some (expr_alloc_comp E_UNEQUAL s symbol_no)
    else if bool_decide (type_of s = S_TRISTATE) && both E_EQUAL symbol_yes symbol_no e1 e2
    then Some (expr_alloc_comp E_UNEQUAL s symbol_mod)
    else if bool_decide (type_of s = S_TRISTATE) && both E_EQUAL symbol_mod symbol_no e1 e2
    then Some (expr_alloc_comp E_UNEQUAL s symbol_yes)
    else if bool_decide (type_of s = S_BOOLEAN) &&
            ((is_not_sym e1 && is_sym e2) || (is_not_sym e2 && is_sym e1))
    then Some (expr_alloc_symbol symbol_yes)
    else None.

(** [(a='b') && (a!='c') -> 'b'='c' ? 'n' : a='b'], for constants. *)
Definition join_equal_unequal (s : symbol) (e1 e2 : expr) : option expr :=
  match comp_rhs E_EQUAL e1, comp_rhs E_UNEQUAL e2 with
  | Some b, Some c =>
      if is_const (sym c) && is_const (sym b)
      then Some (if bool_decide (b = c) then expr_alloc_symbol symbol_no
                 else expr_alloc_comp E_EQUAL s b)
      else None
  | _, _ => None
  end.

Definition expr_join_and (e1 e2 : expr) : option expr :=
  if node_eq e1 e2 then Some (expr_copy e1)
  else
    s ← join_sym e1 e2;
    if sym_and_comp E_EQUAL symbol_yes e1 e2
    then Some (expr_alloc_comp E_EQUAL s symbol_yes)
    else if sym_and_comp E_UNEQUAL symbol_no e1 e2
    then Some (expr_alloc_symbol s)
    else if sym_and_comp E_UNEQUAL symbol_mod e1 e2
    then Some (expr_alloc_comp E_EQUAL s symbol_yes)
    else if negb (bool_decide (type_of s = S_TRISTATE)) then None
    else
      match join_equal_unequal s e1 e2 with
      | Some e => Some e
      | None =>
          match join_equal_unequal s e2 e1 with
          | Some e => Some e
          | None =>
              if both E_UNEQUAL symbol_yes symbol_no e1 e2
              then Some (expr_alloc_comp E_EQUAL s symbol_mod)
              else if both E_UNEQUAL symbol_yes symbol_mod e1 e2
              then Some (expr_alloc_comp E_EQUAL s symbol_no)
              else if both E_UNEQUAL symbol_mod symbol_no e1 e2
              then Some (expr_alloc_comp E_EQUAL s symbol_yes)
              else None
          end
      end.

Definition expr_join (op : connective) : expr -> expr -> option expr :=
  match op with E_OR => expr_join_or | E_AND => expr_join_and end.

(** ** Duplicates *)

(** The operands of a level, from left to right, and putting others in their
    place. *)
Fixpoint operands (op : connective) (e : expr) : list expr :=
  match e with
  | E_BIN o l r => if bool_decide (o = op) then operands op l ++ operands op r else [e]
  | _ => [e]
  end.

Fixpoint rebuild (op : connective) (e : expr) (ls : list expr) : expr :=
  match e with
  | E_BIN o l r =>
      if bool_decide (o = op) then
        let k := length (operands op l) in
        E_BIN o (rebuild op l (take k ls)) (rebuild op r (drop k ls))
      else default e (head ls)
  | _ => default e (head ls)
  end.

(** [expr_eliminate_dups1(op, &e, &e)]. The recursion over [ep1], and for each of
    its leaves over [ep2], visits the pairs of operands in this order; the nodes of
    the level stay, only operands are replaced, and by operands. [i] and [j] are
    the positions [ep1] and [ep2] point to; the second component counts
    [trans_count]. *)
Section Dups1.
Context (inner : connective -> expr -> nat -> option (expr * nat)).

Definition dups_pair (op : connective) (i j : nat) (st : list expr * nat)
    : option (list expr * nat) :=
  let '(ls, count) := st in
  if bool_decide (i = j) then Some (ls, count)
  else
    e1 ← ls !! i;
    e2 ← ls !! j;
    '(e1, count) ← (match e1 with
                    | E_BIN o _ _ => inner o e1 count
                    | _ => Some (e1, count)
                    end);
    let ls := <[i := e1]> ls in
    match expr_join op e1 e2 with
    | Some tmp => Some (<[j := tmp]> (<[i := expr_alloc_symbol (unit_of op)]> ls), S count)
    | None => Some (ls, count)
    end.

Fixpoint dups_row (op : connective) (i : nat) (js : list nat) (st : list expr * nat)
    : option (list expr * nat) :=
  match js with
  | [] => Some st
  | j :: js => st ← dups_pair op i j st; dups_row op i js st
  end.

Fixpoint dups_rows (op : connective) (n : nat) (rows : list nat) (st : list expr * nat)
    : option (list expr * nat) :=
  match rows with
  | [] => Some st
  | i :: rows => st ← dups_row op i (seq 0 n) st; dups_rows op n rows st
  end.
End Dups1.

Fixpoint expr_eliminate_dups1 (fuel : nat) (op : connective) (e : expr) (count : nat)
    : option (expr * nat) :=
  match fuel with
  | O => None
  | S fuel =>
      let ls := operands op e in
      let n := length ls in
      '(ls, count) ← dups_rows (expr_eliminate_dups1 fuel) op n (seq 0 n) (ls, count);
      Some (rebuild op e ls, count)
  end.

(** The loop of [expr_eliminate_dups]: each further pass is on a smaller tree. *)
Fixpoint dups_loop (fuel : nat) (e : expr) : option expr :=
  match fuel with
  | O => None
  | S fuel =>
      '(e, count) ← (match e with
                     | E_BIN o _ _ => expr_eliminate_dups1 (size e) o e 0
                     | _ => Some (e, 0%nat)
                     end);
      if (count =? 0)%nat then Some e else dups_loop fuel (expr_eliminate_yn e)
  end.

Definition expr_eliminate_dups (e : option expr) : option (option expr) :=
  match e with
  | None => Some None
  | Some e => e ← dups_loop (size e) e; Some (Some e)
  end.
End Symbols.
