(* ===== verification/KExprOps.v ===== *)
(** * Kconfig expressions: transformation, value and printing

    The second half of [scripts/config/expr.c]: [expr_transform], the questions
    which symbols an expression mentions, [expr_trans_compare], the value of an
    expression, and [expr_print] with its bracketing. *)

From Stdlib Require Import ZArith Lia String Ascii.
From stdpp Require Import base list strings numbers option.
From S2P Require Import Prelude CString KExpr.

(** A relation negated. *)
Definition negate_rel (r : relation) : relation :=
  match r with
  | E_EQUAL => E_UNEQUAL
  | E_UNEQUAL => E_EQUAL
  | E_LEQ => E_GTH
  | E_GEQ => E_LTH
  | E_LTH => E_GEQ
  | E_GTH => E_LEQ
  end.

Definition swap_op (op : connective) : connective :=
  match op with E_OR => E_AND | E_AND => E_OR end.

(** Bound on the calls of [expr_transform] nested in each other: it goes down with
    every one of them, and taking a negation inside lowers it. *)
Fixpoint weight (e : expr) : nat :=
  match e with
  | E_SYMBOL _ => 1
  | E_COMP _ _ _ => 2
  | E_NOT e => 2 * weight e
  | E_BIN _ l r => S (weight l + weight r)
  end.

Section Symbols.
Context (sym : symbol -> symbol_data).

(** The cases of [expr_transform] for a comparison of a boolean symbol. *)
Definition transform_comp (e : expr) : expr :=
  match e with
  | E_COMP E_EQUAL s1 s2 =>
      if negb (bool_decide (type_of sym s1 = S_BOOLEAN)) then e
      else if bool_decide (s2 = symbol_no) then E_NOT (expr_alloc_symbol s1)
      else if bool_decide (s2 = symbol_mod) then E_SYMBOL symbol_no
      else if bool_decide (s2 = symbol_yes) then E_SYMBOL s1
      else e
  | E_COMP E_UNEQUAL s1 s2 =>
      if negb (bool_decide (type_of sym s1 = S_BOOLEAN)) then e
      else if bool_decide (s2 = symbol_no) then E_SYMBOL s1
      else if bool_decide (s2 = symbol_mod) then E_SYMBOL symbol_yes
      else if bool_decide (s2 = symbol_yes) then E_NOT (expr_alloc_symbol s1)
      else e
  | _ => e
  end.

Fixpoint transform (fuel : nat) (e : expr) : option expr :=
  match fuel with
  | O => None
  | S fuel =>
      match e with
      | E_SYMBOL _ | E_COMP _ _ _ => Some (transform_comp e)
      | E_BIN op l r => l ← transform fuel l; r ← transform fuel r; Some (E_BIN op l r)
      | E_NOT x =>
          x ← transform fuel x;
          match x with
          | E_NOT y => transform fuel y
          | E_COMP r s1 s2 => Some (E_COMP (negate_rel r) s1 s2)
          | E_BIN op a b =>
              transform fuel (E_BIN (swap_op op) (E_NOT a) (expr_alloc_one b))
          | E_SYMBOL s =>
              if bool_decide (s = symbol_yes) then Some (E_SYMBOL symbol_no)
              else if bool_decide (s = symbol_mod) then Some (E_SYMBOL symbol_mod)
              else if bool_decide (s = symbol_no) then Some (E_SYMBOL symbol_yes)
              else Some (E_NOT x)
          end
      end
  end.

Definition expr_transform (e : option expr) : option (option expr) :=
  match e with
  | None => Some None
  | Some e => e ← transform (weight e) e; Some (Some e)
  end.

(** ** Symbols in expressions *)

Fixpoint expr_contains_symbol (dep : expr) (s : symbol) : bool :=
  match dep with
  | E_BIN _ l r => expr_contains_symbol l s || expr_contains_symbol r s
  | E_SYMBOL t => bool_decide (t = s)
  | E_COMP _ s1 s2 => bool_decide (s1 = s) || bool_decide (s2 = s)
  | E_NOT e => expr_contains_symbol e s
  end.

Fixpoint expr_depends_symbol (dep : expr) (s : symbol) : bool :=
  match dep with
  | E_BIN E_AND l r => expr_depends_symbol l s || expr_depends_symbol r s
  | E_SYMBOL t => bool_decide (t = s)
  | E_COMP E_EQUAL s1 s2 =>
      bool_decide (s1 = s) && (bool_decide (s2 = symbol_yes) || bool_decide (s2 = symbol_mod))
  | E_COMP E_UNEQUAL s1 s2 => bool_decide (s1 = s) && bool_decide (s2 = symbol_no)
  | _ => false
  end.

(** [type] is [E_EQUAL] or [E_UNEQUAL]: [unequal] tells which. *)
Definition negate_if (unequal : bool) (e : expr) : expr :=
  if unequal then expr_alloc_one e else e.

Fixpoint trans_compare (e : expr) (unequal : bool) (s : symbol) : option expr :=
  match e with
  | E_BIN op l r =>
      let e1 := trans_compare l false s in
      let e2 := trans_compare r false s in
      e ← (if bool_decide (s = symbol_yes) then e1 ← e1; e2 ← e2; Some (expr_alloc_two op e1 e2)
           else if bool_decide (s = symbol_no) then e1 ← e1; e2 ← e2; Some (expr_alloc_two (swap_op op) e1 e2)
           else Some e);
      Some (negate_if unequal e)
  | E_NOT x => trans_compare x (negb unequal) s
  | E_COMP _ _ _ =>
      if bool_decide (s = symbol_yes) then Some (negate_if unequal (expr_copy e))
      else if bool_decide (s = symbol_mod) then
        Some (expr_alloc_symbol (if unequal then symbol_yes else symbol_no))
      else if bool_decide (s = symbol_no) then Some (negate_if (negb unequal) (expr_copy e))
      else None
  | E_SYMBOL t => Some (expr_alloc_comp (if unequal then E_UNEQUAL else E_EQUAL) t s)
  end.

(** The null pointer is the result for a comparison and a symbol that is none of the
    three constants; every call passes [symbol_yes], [symbol_mod] or [symbol_no], so
    that the operands [e1] and [e2] above are there when they are used. *)
Definition expr_trans_compare (e : option expr) (unequal : bool) (s : symbol) : option expr :=
  match e with
  | None => Some (negate_if unequal (expr_alloc_symbol s))
  | Some e => trans_compare e unequal s
  end.

(** ** The value of an expression *)

(** What [sym_calc_value(modules_sym)] gives. *)
Context (modules : tristate).

Definition tri_string (t : tristate) : string :=
  match t with no => "n" | mod_ => "m" | yes => "y" end.

Definition sym_get_string_value (s : symbol) : string :=
  match type_of sym s with
  | S_BOOLEAN | S_TRISTATE =>
      match curr_tri (sym s) with
      | mod_ => if bool_decide (modules = no) then "n" else "m"
      | t => tri_string t
      end
  | _ => curr_val (sym s)
  end.

Inductive string_value_kind := k_string | k_signed | k_unsigned.

#[export] Instance kind_eq_dec : EqDecision string_value_kind.
Proof. solve_decision. Defined.

(** [tail > str && isxdigit(tail[-1])], for a suffix [tail] of [str]. *)
Definition last_hex (str tail : string) : bool :=
  match rev (take (String.length str - String.length tail) (list_ascii_of_string str)) with
  | c :: _ => isxdigit c
  | [] => false
  end.

(** The kind, and the bits of [val] as a signed number. *)
Definition expr_parse_string (str : string) (t : symbol_type) : string_value_kind * Z :=
  let finish kind (r : Z * bool * string) :=
    let '(v, erange, tail) := r in
    (if negb erange && bool_decide (tail = EmptyString) && last_hex str tail then kind
     else k_string, v) in
  match t with
  | S_BOOLEAN | S_TRISTATE =>
      (k_signed, if bool_decide (str = "n"%string) then 0
                 else if bool_decide (str = "m"%string) then 1
                 else if bool_decide (str = "y"%string) then 2 else -1)
  | S_INT => finish k_signed (strtoll str 10)
  | S_HEX => finish k_unsigned (strtoull str 16)
  | _ => finish k_signed (strtoll str 0)
  end.

(** [(a > b) - (a < b)]. *)
Definition sign_of (a b : Z) : Z := (if b <? a then 1 else 0) - (if a <? b then 1 else 0).

(** Sign of [strcmp]. *)
Fixpoint bytes_cmp (a b : list Z) : Z :=
  match a, b with
  | [], [] => 0
  | [], _ => -1
  | _, [] => 1
  | x :: a, y :: b => if x =? y then bytes_cmp a b else sign_of x y
  end.

Definition strcmp (a b : string) : Z := bytes_cmp (bytes_of a) (bytes_of b).

(** The comparison of two texts, as the types of their symbols say. *)
Definition compare_strings (str1 : string) (type1 : symbol_type) (str2 : string) (type2 : symbol_type) : Z :=
  let '((k1, lval), (k2, rval)) :=
    if negb (bool_decide (type1 = S_STRING)) || negb (bool_decide (type2 = S_STRING))
    then (expr_parse_string str1 type1, expr_parse_string str2 type2)
    else ((k_string, 0), (k_string, 0)) in
  if bool_decide (k1 = k_string) || bool_decide (k2 = k_string) then strcmp str1 str2
  else if bool_decide (k1 = k_unsigned) || bool_decide (k2 = k_unsigned)
  then sign_of (u64 lval) (u64 rval)
  else sign_of lval rval.

Definition compare_values (s1 s2 : symbol) : Z :=
  compare_strings (sym_get_string_value s1) (type_of sym s1) (sym_get_string_value s2) (type_of sym s2).

Definition relation_holds (r : relation) (res : Z) : bool :=
  match r with
  | E_EQUAL => res =? 0
  | E_GEQ => 0 <=? res
  | E_GTH => 0 <? res
  | E_LEQ => res <=? 0
  | E_LTH => res <? 0
  | E_UNEQUAL => negb (res =? 0)
  end.

Fixpoint calc (e : expr) : tristate :=
  match e with
  | E_SYMBOL s => curr_tri (sym s)
  | E_BIN op l r => apply_op op (calc l) (calc r)
  | E_NOT e => EXPR_NOT (calc e)
  | E_COMP r s1 s2 => if relation_holds r (compare_values s1 s2) then yes else no
  end.

Definition expr_calc_value (e : option expr) : tristate :=
  match e with None => yes | Some e => calc e end.

(** ** Printing *)

(** The types that take part in bracketing; [P_NONE] is [E_NONE]. *)
Inductive token := P_NONE | P_OR | P_AND | P_NOT | P_REL (r : relation) | P_SYMBOL.

#[export] Instance token_eq_dec : EqDecision token.
Proof. solve_decision. Defined.

Definition token_of (e : expr) : token :=
  match e with
  | E_SYMBOL _ => P_SYMBOL
  | E_NOT _ => P_NOT
  | E_BIN E_OR _ _ => P_OR
  | E_BIN E_AND _ _ => P_AND
  | E_COMP r _ _ => P_REL r
  end.

(** [expr_compare_type] with its fall-through cases. *)
Definition expr_compare_type (t1 t2 : token) : Z :=
  if bool_decide (t1 = t2) then 0
  else
    let is_eq := match t2 with P_REL E_EQUAL | P_REL E_UNEQUAL => true | _ => false end in
    let below_or := bool_decide (t2 = P_NONE) in
    let below_and := bool_decide (t2 = P_OR) || below_or in
    let below_not := bool_decide (t2 = P_AND) || below_and in
    let below_rel := bool_decide (t2 = P_NOT) || below_not in
    let gt (b : bool) := if b then 1 else -1 in
    match t1 with
    | P_REL E_LEQ | P_REL E_LTH | P_REL E_GEQ | P_REL E_GTH => gt (is_eq || below_rel)
    | P_REL _ => gt below_rel
    | P_NOT => gt below_not
    | P_AND => gt below_and
    | P_OR => gt below_or
    | P_NONE | P_SYMBOL => -1
    end.

(** The calls of [fn]: the symbol, if one is passed, and the text. *)
Definition piece : Type := option symbol * string.

Definition text (s : string) : list piece := [(None, s)].

Definition left_name (s : symbol) : list piece :=
  match name (sym s) with
  | Some n => [(Some s, n)]
  | None => text "<choice>"
  end.

(** The right-hand side of a comparison has a name. *)
Definition right_name (s : symbol) : list piece := [(Some s, default "" (name (sym s)))].

Definition relation_text (r : relation) : string :=
  match r with
  | E_EQUAL => "="
  | E_UNEQUAL => "!="
  | E_LTH => "<"
  | E_LEQ => "<="
  | E_GTH => ">"
  | E_GEQ => ">="
  end.

Fixpoint print_node (e : expr) (prevtoken : token) : list piece :=
  let body :=
    match e with
    | E_SYMBOL s => left_name s
    | E_NOT x => text "!" ++ print_node x P_NOT
    | E_COMP r s1 s2 => left_name s1 ++ text (relation_text r) ++ right_name s2
    | E_BIN E_OR l r => print_node l P_OR ++ text " || " ++ print_node r P_OR
    | E_BIN E_AND l r => print_node l P_AND ++ text " && " ++ print_node r P_AND
    end in
  if 0 <? expr_compare_type prevtoken (token_of e) then text "(" ++ body ++ text ")" else body.

Definition expr_print (e : option expr) (prevtoken : token) : list piece :=
  match e with None => text "y" | Some e => print_node e prevtoken end.

(** [expr_print_revdep]: the pieces, and whether the title is still to come. *)
Fixpoint expr_print_revdep (e : expr) (pr_type : tristate) (title : option string)
    : list piece * option string :=
  let leaf :=
    if bool_decide (calc e = pr_type) then
      ((match title with Some t => text t | None => [] end)
         ++ text "  - " ++ print_node e P_NONE ++ text newline, None)
    else ([], title) in
  match e with
  | E_BIN E_OR l r =>
      let '(p1, title) := expr_print_revdep l pr_type title in
      let '(p2, title) := expr_print_revdep r pr_type title in
      (p1 ++ p2, title)
  | _ => leaf
  end.
End Symbols.
