(* ===== verification/KExprProofs.v ===== *)
(** * Kconfig expressions: transformation and comparison

    The environments the theorems are about, comparisons with the constants, and the
    simplification of constant operands. [expr_transform] ends in a normal form of the
    same value, [expr_eq] only calls expressions equal that have the same value, and the
    operations menu.c builds on them do what their comments say, with the conditions
    they need. *)

From Stdlib Require Import ZArith Lia String.
From stdpp Require Import base list strings numbers option.
From S2P Require Import Prelude CString KExpr KExprOps.

(** ** Tristate logic *)

Lemma op_comm op a b : apply_op op a b = apply_op op b a.
Proof. by destruct op, a, b. Qed.
Lemma op_assoc op a b c : apply_op op a (apply_op op b c) = apply_op op (apply_op op a b) c.
Proof. by destruct op, a, b, c. Qed.
Lemma op_idemp op a : apply_op op a a = a.
Proof. by destruct op, a. Qed.
Lemma op_not op a b :
  EXPR_NOT (apply_op op a b) = apply_op (swap_op op) (EXPR_NOT a) (EXPR_NOT b).
Proof. by destruct op, a, b. Qed.
Lemma not_not a : EXPR_NOT (EXPR_NOT a) = a.
Proof. by destruct a. Qed.

(** The value of the unit and of the zero of a connective. *)
Definition unit_val (op : connective) : tristate := match op with E_OR => no | E_AND => yes end.
Definition zero_val (op : connective) : tristate := match op with E_OR => yes | E_AND => no end.

Lemma op_unit_l op a : apply_op op (unit_val op) a = a.
Proof. by destruct op, a. Qed.
Lemma op_unit_r op a : apply_op op a (unit_val op) = a.
Proof. by destruct op, a. Qed.
Lemma op_zero_l op a : apply_op op (zero_val op) a = zero_val op.
Proof. by destruct op, a. Qed.
Lemma op_zero_r op a : apply_op op a (zero_val op) = zero_val op.
Proof. by destruct op, a. Qed.

Lemma relation_negate r z : relation_holds (negate_rel r) z = negb (relation_holds r z).
Proof.
  destruct r; cbn [negate_rel relation_holds]; rewrite ?negb_involutive; try done;
    case_bool; cbn; try done; lia.
Qed.

(** ** Environments *)

(** What [sym_calc_value] guarantees: the constants are as symbol.c declares them,
    a boolean symbol is never [mod], and a tristate one only with modules on. *)
Record env_ok (sym : symbol -> symbol_data) (modules : tristate) : Prop := EnvOk {
  ok_yes : sym symbol_yes = SymbolData (Some "y"%string) S_UNKNOWN true yes "y";
  ok_mod : sym symbol_mod = SymbolData (Some "m"%string) S_UNKNOWN true mod_ "m";
  ok_no : sym symbol_no = SymbolData (Some "n"%string) S_UNKNOWN true no "n";
  ok_bool : forall s, type_of sym s = S_BOOLEAN -> curr_tri (sym s) <> mod_;
  ok_tristate : forall s, type_of sym s = S_TRISTATE -> curr_tri (sym s) = mod_ -> modules <> no
}.

(** A symbol whose string value is its tristate value. *)
Definition logical (sym : symbol -> symbol_data) (s : symbol) : Prop :=
  type_of sym s = S_BOOLEAN \/ type_of sym s = S_TRISTATE.

(** The constant symbols, by value. *)
Definition const_symbol (t : tristate) : symbol :=
  match t with no => symbol_no | mod_ => symbol_mod | yes => symbol_yes end.

Section Env.
Context (sym : symbol -> symbol_data) (modules : tristate) (Hok : env_ok sym modules).

Abbreviation calc := (calc sym modules).

Lemma tri_const t : curr_tri (sym (const_symbol t)) = t.
Proof. destruct t; cbn; [by rewrite (ok_no _ _ Hok)|by rewrite (ok_mod _ _ Hok)|by rewrite (ok_yes _ _ Hok)]. Qed.

Lemma tri_unit op : curr_tri (sym (unit_of op)) = unit_val op.
Proof. destruct op; [apply (tri_const no)|apply (tri_const yes)]. Qed.

Lemma tri_zero op : curr_tri (sym (zero_of op)) = zero_val op.
Proof. destruct op; [apply (tri_const yes)|apply (tri_const no)]. Qed.

Lemma string_const t : sym_get_string_value sym modules (const_symbol t) = tri_string t.
Proof.
  unfold sym_get_string_value, type_of.
  destruct t; cbn; [rewrite (ok_no _ _ Hok)|rewrite (ok_mod _ _ Hok)|rewrite (ok_yes _ _ Hok)]; done.
Qed.

Lemma type_const t : type_of sym (const_symbol t) = S_UNKNOWN.
Proof.
  unfold type_of.
  destruct t; cbn; [rewrite (ok_no _ _ Hok)|rewrite (ok_mod _ _ Hok)|rewrite (ok_yes _ _ Hok)]; done.
Qed.

Lemma string_logical s :
  logical sym s -> sym_get_string_value sym modules s = tri_string (curr_tri (sym s)).
Proof.
  intros Hs. unfold sym_get_string_value.
  destruct Hs as [Ht|Ht]; rewrite Ht; destruct (curr_tri (sym s)) eqn:E; try done.
  - by destruct (ok_bool _ _ Hok s Ht).
  - rewrite bool_decide_eq_false_2; [done|]. by apply (ok_tristate _ _ Hok s).
Qed.

(** Symbols that stand for a tristate value: logical ones and the constants. *)
Definition plain (s : symbol) : Prop := logical sym s \/ exists t, s = const_symbol t.

(** Comparing such a symbol with a constant compares values. *)
Lemma compare_const s t :
  plain s -> (compare_values sym modules s (const_symbol t) =? 0)
             = bool_decide (curr_tri (sym s) = t).
Proof.
  intros Hs. unfold compare_values, compare_strings. rewrite string_const, type_const.
  destruct Hs as [Hs|[u ->]].
  - rewrite string_logical by done.
    destruct Hs as [Ht|Ht]; rewrite Ht; destruct (curr_tri (sym s)), t; reflexivity.
  - rewrite string_const, type_const, tri_const. destruct u, t; reflexivity.
Qed.

Lemma calc_equal s t :
  plain s ->
  calc (E_COMP E_EQUAL s (const_symbol t))
  = if bool_decide (curr_tri (sym s) = t) then yes else no.
Proof. intros Hs. cbn. by rewrite compare_const. Qed.

Lemma calc_unequal s t :
  plain s ->
  calc (E_COMP E_UNEQUAL s (const_symbol t))
  = if bool_decide (curr_tri (sym s) = t) then no else yes.
Proof.
  intros Hs. cbn. rewrite compare_const by done. by destruct (bool_decide _).
Qed.

(** The same with the constants by name. *)
Lemma calc_relations s : plain s ->
  let v := curr_tri (sym s) in
  calc (E_COMP E_EQUAL s symbol_no) = (if bool_decide (v = no) then yes else no) /\
  calc (E_COMP E_EQUAL s symbol_mod) = (if bool_decide (v = mod_) then yes else no) /\
  calc (E_COMP E_EQUAL s symbol_yes) = (if bool_decide (v = yes) then yes else no) /\
  calc (E_COMP E_UNEQUAL s symbol_no) = (if bool_decide (v = no) then no else yes) /\
  calc (E_COMP E_UNEQUAL s symbol_mod) = (if bool_decide (v = mod_) then no else yes) /\
  calc (E_COMP E_UNEQUAL s symbol_yes) = (if bool_decide (v = yes) then no else yes).
Proof.
  intros Hs v. repeat split; first [by apply (calc_equal s no)|by apply (calc_equal s mod_)
    |by apply (calc_equal s yes)|by apply (calc_unequal s no)|by apply (calc_unequal s mod_)
    |by apply (calc_unequal s yes)].
Qed.

Lemma calc_constants :
  calc (E_SYMBOL symbol_no) = no /\ calc (E_SYMBOL symbol_mod) = mod_ /\
  calc (E_SYMBOL symbol_yes) = yes.
Proof. repeat split; [apply (tri_const no)|apply (tri_const mod_)|apply (tri_const yes)]. Qed.

Lemma calc_symbol_const t : calc (E_SYMBOL (const_symbol t)) = t.
Proof. apply tri_const. Qed.

Lemma calc_copy e : calc (expr_copy e) = calc e.
Proof. induction e; cbn; congruence. Qed.

(** ** Constant operands *)

Lemma is_symbol_true e s : is_symbol e s = true -> e = E_SYMBOL s.
Proof. destruct e; cbn; try done. intros ->%bool_decide_eq_true_1. done. Qed.

Lemma eliminate_yn_calc e : calc (expr_eliminate_yn e) = calc e.
Proof.
  induction e as [s|e IH|op l IHl r IHr|r s1 s2]; try done. cbn [expr_eliminate_yn KExprOps.calc].
  rewrite <- IHl, <- IHr. clear IHl IHr.
  set (l' := expr_eliminate_yn l). set (r' := expr_eliminate_yn r). clearbody l' r'.
  repeat match goal with
  | |- context [if is_symbol ?e ?s then _ else _] =>
      let E := fresh in destruct (is_symbol e s) eqn:E; [apply is_symbol_true in E; subst e|]
  end; cbn [KExprOps.calc];
    by rewrite ?tri_unit, ?tri_zero, ?op_unit_l, ?op_unit_r, ?op_zero_l, ?op_zero_r.
Qed.
End Env.

(** ** expr_transform *)

Lemma weight_pos e : (1 <= weight e)%nat.
Proof. induction e; cbn; lia. Qed.

Lemma transform_comp_weight sym e : (weight (transform_comp sym e) <= weight e)%nat.
Proof.
  destruct e as [s|e|op l r|[] s1 s2]; cbn [transform_comp]; try done;
    repeat (case_bool_decide; cbn [negb]); cbn; lia.
Qed.

Lemma transform_total sym n e :
  (weight e <= n)%nat ->
  exists e', transform sym n e = Some e' /\ (weight e' <= weight e)%nat.
Proof.
  revert e. induction n as [|n IH]; intros e Hn; [pose proof (weight_pos e); lia|].
  destruct e as [s|x|op l r|r s1 s2]; cbn [transform].
  - eexists. split; [done|]. apply transform_comp_weight.
  - cbn in Hn. pose proof (weight_pos x).
    destruct (IH x) as (x' & -> & Hx); [lia|]. cbn [option_bind mbind].
    destruct x' as [s|y|op a b|r s1 s2]; cbn in Hx |- *.
    + repeat case_bool_decide; eexists; (split; [done|]); cbn; lia.
    + destruct (IH y) as (e' & -> & ?); [lia|]. eexists. split; [done|]. cbn. lia.
    + destruct (IH (E_BIN (swap_op op) (E_NOT a) (expr_alloc_one b))) as (e' & -> & He);
        [cbn; lia|]. eexists. split; [done|]. cbn in *. lia.
    + eexists. split; [done|]. cbn. lia.
  - cbn in Hn. destruct (IH l) as (l' & -> & Hl); [lia|]. cbn [option_bind mbind].
    destruct (IH r) as (r' & -> & Hr); [lia|]. cbn [option_bind mbind].
    eexists. split; [done|]. cbn. lia.
  - eexists. split; [done|]. apply transform_comp_weight.
Qed.

(** The normal form: negation only of symbols that are not constants, and no
    boolean symbol compared with a constant. *)
Definition constant (s : symbol) : bool := match s with Sym _ => false | _ => true end.

Definition reducible_comp (sym : symbol -> symbol_data) (r : relation) (s1 s2 : symbol) : bool :=
  bool_decide (type_of sym s1 = S_BOOLEAN) && constant s2
  && (bool_decide (r = E_EQUAL) || bool_decide (r = E_UNEQUAL)).

Fixpoint normal (sym : symbol -> symbol_data) (e : expr) : bool :=
  match e with
  | E_SYMBOL _ => true
  | E_NOT (E_SYMBOL s) => negb (constant s)
  | E_NOT _ => false
  | E_BIN _ l r => normal sym l && normal sym r
  | E_COMP r s1 s2 => negb (reducible_comp sym r s1 s2)
  end.

Section Env.
Context (sym : symbol -> symbol_data) (modules : tristate) (Hok : env_ok sym modules).

Abbreviation calc := (calc sym modules).

Lemma boolean_not_constant s : type_of sym s = S_BOOLEAN -> constant s = false.
Proof.
  intros Ht. destruct s as [| | |i]; [| | |done];
    [pose proof (type_const sym modules Hok yes) as E|pose proof (type_const sym modules Hok mod_) as E
    |pose proof (type_const sym modules Hok no) as E]; cbn in E; congruence.
Qed.

Lemma transform_comp_calc e : calc (transform_comp sym e) = calc e.
Proof.
  destruct e as [s|e|op l r|[] s1 s2]; cbn [transform_comp]; try done.
  all: case_bool_decide as Ht; cbn [negb]; [|done].
  all: assert (plain sym s1) as Hp by (left; by left).
  all: pose proof (ok_bool _ _ Hok s1 Ht) as Hb.
  all: repeat (case_bool_decide; [subst s2|]); try done.
  all: destruct (calc_relations sym modules Hok s1 Hp) as (E1 & E2 & E3 & E4 & E5 & E6).
  all: destruct (calc_constants sym modules Hok) as (C1 & C2 & C3).
  all: rewrite ?E1, ?E2, ?E3, ?E4, ?E5, ?E6, ?C1, ?C2, ?C3.
  all: cbn [KExprOps.calc expr_alloc_symbol]; revert Hb; by destruct (curr_tri (sym s1)).
Qed.

Lemma transform_comp_normal e :
  (forall x, e <> E_NOT x) -> (forall o l r, e <> E_BIN o l r) -> normal sym (transform_comp sym e) = true.
Proof.
  intros Hn Hb. destruct e as [s|e|op l r|rel s1 s2]; [done|by destruct (Hn e)|by destruct (Hb op l r)|].
  destruct rel; cbn [transform_comp]; try (cbn; unfold reducible_comp; by rewrite andb_false_r).
  all: case_bool_decide as Ht; cbn [negb];
    [|cbn; unfold reducible_comp; by rewrite bool_decide_eq_false_2].
  all: repeat (case_bool_decide; [cbn; rewrite ?boolean_not_constant by done; done|]).
  all: cbn; unfold reducible_comp; destruct s2; try done; by rewrite andb_false_r.
Qed.

Lemma transform_sound n e e' :
  transform sym n e = Some e' -> calc e' = calc e /\ normal sym e' = true.
Proof.
  revert e e'. induction n as [|n IH]; intros e e'; [done|].
  destruct e as [s|x|op l r|r s1 s2]; cbn [transform].
  - by intros [= <-].
  - destruct (transform sym n x) as [x'|] eqn:Ex; cbn [option_bind mbind]; [|done].
    destruct (IH _ _ Ex) as [Hv Hn]. cbn [KExprOps.calc]. rewrite <- Hv.
    destruct (calc_constants sym modules Hok) as (C1 & C2 & C3).
    destruct x' as [s|y|op a b|r s1 s2].
    + repeat case_bool_decide; subst; intros [= <-]; rewrite ?C1, ?C2, ?C3; [done..|].
      split; [done|]. by destruct s.
    + intros Hy. destruct (IH _ _ Hy) as [-> ?]. cbn [KExprOps.calc]. by rewrite not_not.
    + intros Hy. destruct (IH _ _ Hy) as [-> ?]. cbn [KExprOps.calc expr_alloc_one].
      by rewrite op_not.
    + intros [= <-]. cbn [KExprOps.calc]. rewrite relation_negate.
      split; [by destruct (relation_holds _ _)|]. revert Hn. cbn. unfold reducible_comp.
      by destruct r.
  - destruct (transform sym n l) as [l'|] eqn:El; cbn [option_bind mbind]; [|done].
    destruct (transform sym n r) as [r'|] eqn:Er; cbn [option_bind mbind]; [|done].
    intros [= <-]. destruct (IH _ _ El) as [Hl Nl], (IH _ _ Er) as [Hr Nr].
    cbn. by rewrite Hl, Hr, Nl, Nr.
  - intros [= <-]. split; [apply (transform_comp_calc (E_COMP r s1 s2))|].
    by apply (transform_comp_normal (E_COMP r s1 s2)).
Qed.

(** ** Equality *)

Lemma expr_copy_id e : expr_copy e = e.
Proof. induction e; cbn; congruence. Qed.

(** What a pair of expressions lost: the same value [v] on both sides. *)
Definition lost (op : connective) (e1 e2 : expr) (p : expr * expr) : Prop :=
  exists v, calc e1 = apply_op op (calc (fst p)) v /\ calc e2 = apply_op op (calc (snd p)) v.

Lemma lost_nothing op e1 e2 : lost op e1 e2 (e1, e2).
Proof. exists (unit_val op). by rewrite !op_unit_r. Qed.

Section Eq.
Context (eq : expr -> expr -> bool).
Context (Heq : forall a b, eq a b = true -> calc a = calc b).

Lemma lost_equal op e1 e2 :
  eq e1 e2 = true -> lost op e1 e2 (E_SYMBOL (unit_of op), E_SYMBOL (unit_of op)).
Proof.
  intros E. exists (calc e1). cbn. rewrite (tri_unit sym modules Hok), !op_unit_l.
  split; [done|]. symmetry. by apply Heq.
Qed.

Lemma eliminate_leaf_lost op e1 e2 : lost op e1 e2 (eliminate_eq_leaf eq op e1 e2).
Proof.
  revert e1. induction e2 as [s|x IH|op2 l IHl r IHr|rel s1 s2]; intros e1; cbn [eliminate_eq_leaf].
  3: case_bool_decide as Hop; [subst op2|].
  3: { specialize (IHl e1). destruct (eliminate_eq_leaf eq op e1 l) as [e1' l'].
       specialize (IHr e1'). destruct (eliminate_eq_leaf eq op e1' r) as [e1'' r'].
       destruct IHl as (v1 & H1 & H2), IHr as (v2 & H3 & H4). cbn [fst snd] in *.
       exists (apply_op op v2 v1). cbn [fst snd KExprOps.calc].
       rewrite H1, H3, H2, H4. clear.
       split; [by rewrite op_assoc|]. by destruct op, (calc l'), (calc r'), v1, v2. }
  all: repeat match goal with |- context [if ?b then _ else _] =>
    let E := fresh in destruct b eqn:E end;
    first [apply lost_nothing|by apply lost_equal].
Qed.

Lemma eliminate_lost op e1 e2 : lost op e1 e2 (eliminate_eq_ eq op e1 e2).
Proof.
  revert e2. induction e1 as [s|x IH|op1 l IHl r IHr|rel s1 s2]; intros e2;
    try apply eliminate_leaf_lost.
  cbn [eliminate_eq_]. case_bool_decide as Hop; [subst op1|apply eliminate_leaf_lost].
  specialize (IHl e2). destruct (eliminate_eq_ eq op l e2) as [l' e2'].
  specialize (IHr e2'). destruct (eliminate_eq_ eq op r e2') as [r' e2''].
  destruct IHl as (v1 & H1 & H2), IHr as (v2 & H3 & H4). cbn [fst snd] in *.
  exists (apply_op op v2 v1). cbn [fst snd KExprOps.calc].
  rewrite H1, H3, H2, H4. clear.
  split; [|by rewrite op_assoc]. by destruct op, (calc l'), (calc r'), v1, v2.
Qed.

(** If what is left is equal, so was what there was. *)
Lemma eliminate_sound e1 e2 :
  calc (fst (eliminate_eq eq e1 e2)) = calc (snd (eliminate_eq eq e1 e2)) -> calc e1 = calc e2.
Proof.
  assert (forall o e1 e2 e1' e2', match o with Some op => eliminate_eq_ eq op e1 e2
    | None => (e1, e2) end = (e1', e2') -> calc e1' = calc e2' -> calc e1 = calc e2) as Hround.
  { clear e1 e2. intros [op|] e1 e2 e1' e2'; [|by intros [= <- <-]]. intros E Hc.
    destruct (eliminate_lost op e1 e2) as (v & H1 & H2). rewrite E in H1, H2.
    cbn in H1, H2. by rewrite H1, H2, Hc. }
  unfold eliminate_eq.
  destruct (match root e1 with Some op => _ | None => _ end) as [a b] eqn:E1.
  destruct (same_type a b).
  - cbn. rewrite !(eliminate_yn_calc sym modules Hok). by apply (Hround (root e1)).
  - destruct (match root b with Some op => _ | None => _ end) as [a' b'] eqn:E2. cbn.
    rewrite !(eliminate_yn_calc sym modules Hok). intros Hc.
    apply (Hround (root e1) _ _ _ _ E1). by apply (Hround (root b) _ _ _ _ E2).
Qed.
End Eq.

Lemma eq_fuel_sound n e1 e2 : eq_fuel n e1 e2 = true -> calc e1 = calc e2.
Proof.
  revert e1 e2. induction n as [|n IH]; intros e1 e2; [done|]. cbn [eq_fuel].
  destruct e1 as [s1|x1|o1 l1 r1|rel1 a1 b1], e2 as [s2|x2|o2 l2 r2|rel2 a2 b2]; try done.
  - by intros ->%bool_decide_eq_true_1.
  - intros E%IH. cbn. by rewrite E.
  - intros [_ E]%andb_true_iff. rewrite !expr_copy_id in E.
    apply (eliminate_sound (eq_fuel n) IH).
    destruct (eliminate_eq _ _ _) as [[| | |] [| | |]]; try done.
    by apply bool_decide_eq_true_1 in E as ->.
  - intros [[->%bool_decide_eq_true_1 ->%bool_decide_eq_true_1]%andb_true_iff
      ->%bool_decide_eq_true_1]%andb_true_iff. done.
Qed.

Lemma node_eq_sound e1 e2 : node_eq e1 e2 = true -> calc e1 = calc e2.
Proof. apply eq_fuel_sound. Qed.
End Env.

(** ** Enough fuel for the comparison *)

Lemma size_pos e : (1 <= size e)%nat.
Proof. induction e; cbn; lia. Qed.

Section Fuel.
Context (eq eq' : expr -> expr -> bool) (n1 n2 : nat).
Context (Hext : forall a b, (size a <= n1)%nat -> (size b <= n2)%nat -> eq a b = eq' a b).
Context (H1 : (1 <= n1)%nat).

(** Within the bounds the two comparisons eliminate the same, and the left
    expression stays within its bound. *)
Lemma eliminate_leaf_ext op e1 e2 :
  (size e1 <= n1)%nat -> (size e2 <= n2)%nat ->
  eliminate_eq_leaf eq op e1 e2 = eliminate_eq_leaf eq' op e1 e2 /\
  (size (fst (eliminate_eq_leaf eq op e1 e2)) <= n1)%nat /\
  (size (snd (eliminate_eq_leaf eq op e1 e2)) <= size e2)%nat.
Proof.
  revert e1. induction e2 as [s|x IH|op2 l IHl r IHr|rel s1 s2]; intros e1 He1 He2;
    cbn [eliminate_eq_leaf].
  3: case_bool_decide as Hop; [subst op2|].
  3: { cbn in He2. destruct (IHl e1) as (El & Sl & Tl); [lia|lia|]. rewrite El in *.
       destruct (eliminate_eq_leaf eq' op e1 l) as [e1' l']. cbn in Sl, Tl.
       destruct (IHr e1') as (Er & Sr & Tr); [lia|lia|]. rewrite Er in *.
       destruct (eliminate_eq_leaf eq' op e1' r) as [e1'' r']. cbn in *.
       split; [done|lia]. }
  all: rewrite <- Hext by done.
  all: repeat match goal with |- context [if ?b then _ else _] => destruct b end;
    cbn; repeat split; try done; cbn in *; lia.
Qed.

Lemma eliminate_ext op e1 e2 :
  (size e1 <= n1)%nat -> (size e2 <= n2)%nat ->
  eliminate_eq_ eq op e1 e2 = eliminate_eq_ eq' op e1 e2 /\
  (size (snd (eliminate_eq_ eq op e1 e2)) <= size e2)%nat.
Proof.
  revert e2. induction e1 as [s|x IH|op1 l IHl r IHr|rel s1 s2]; intros e2 He1 He2.
  1,2,4: cbn [eliminate_eq_]; by edestruct eliminate_leaf_ext as (? & ? & ?).
  cbn [eliminate_eq_]. case_bool_decide as Hop; [subst op1|].
  - cbn in He1. destruct (IHl e2) as (El & Tl); [lia|lia|]. rewrite El in *.
    destruct (eliminate_eq_ eq' op l e2) as [l' e2']. cbn in Tl.
    destruct (IHr e2') as (Er & Tr); [lia|lia|]. rewrite Er in *.
    destruct (eliminate_eq_ eq' op r e2') as [r' e2'']. cbn in *. split; [done|lia].
  - by edestruct eliminate_leaf_ext as (? & ? & ?).
Qed.

(** From a level on, with a smaller bound for its operands. *)
Lemma eliminate_ext_level op l r e2 :
  (size l <= n1)%nat -> (size r <= n1)%nat -> (size e2 <= n2)%nat ->
  eliminate_eq_ eq op (E_BIN op l r) e2 = eliminate_eq_ eq' op (E_BIN op l r) e2.
Proof.
  intros Hl Hr He2. cbn [eliminate_eq_]. rewrite bool_decide_eq_true_2 by done.
  destruct (eliminate_ext op l e2) as [-> Tl]; [done|done|].
  destruct (eliminate_eq_ eq' op l e2) as [l' e2'] eqn:E. 
  destruct (eliminate_ext op l e2) as [El Tl']; [done|done|]. rewrite El, E in Tl'. cbn in Tl'.
  by destruct (eliminate_ext op r e2') as [-> _]; [done|lia|].
Qed.
End Fuel.

(** A level stays a level. *)
Lemma eliminate_leaf_root eq op e1 e2 :
  root e2 = Some op -> root (snd (eliminate_eq_leaf eq op e1 e2)) = Some op.
Proof.
  destruct e2 as [| |o l r|]; try done. intros [= ->]. cbn.
  rewrite bool_decide_eq_true_2 by done.
  destruct (eliminate_eq_leaf eq op e1 l) as [a b].
  by destruct (eliminate_eq_leaf eq op a r) as [c d].
Qed.

Lemma eliminate_root eq op e1 e2 :
  root e2 = Some op -> root (snd (eliminate_eq_ eq op e1 e2)) = Some op.
Proof.
  revert e2. induction e1 as [s|x IH|o l IHl r IHr|rel s1 s2]; intros e2 Hr;
    try by apply eliminate_leaf_root.
  cbn. case_bool_decide; [|by apply eliminate_leaf_root].
  specialize (IHl e2 Hr). destruct (eliminate_eq_ eq op l e2) as [l' e2'].
  specialize (IHr e2' IHl). by destruct (eliminate_eq_ eq op r e2') as [r' e2''].
Qed.

(** Two levels of the same connective: there is no second round. *)
Lemma eliminate_same eq op l r e2 :
  root e2 = Some op ->
  eliminate_eq eq (E_BIN op l r) e2
  = let p := eliminate_eq_ eq op (E_BIN op l r) e2 in
    (expr_eliminate_yn (fst p), expr_eliminate_yn (snd p)).
Proof.
  intros Hr. unfold eliminate_eq. cbn [root].
  pose proof (eliminate_root eq op (E_BIN op l r) e2 Hr) as Hr'. revert Hr'.
  cbn [eliminate_eq_]. rewrite bool_decide_eq_true_2 by done.
  destruct (eliminate_eq_ eq op l e2) as [l' e2'].
  destruct (eliminate_eq_ eq op r e2') as [r' e2'']. cbn.
  destruct e2'' as [| |o l2 r2|]; try done. intros [= ->]. cbn.
  by rewrite bool_decide_eq_true_2.
Qed.

Lemma eq_fuel_enough n m e1 e2 :
  (size e1 + size e2 <= n)%nat -> (size e1 + size e2 <= m)%nat ->
  eq_fuel n e1 e2 = eq_fuel m e1 e2.
Proof.
  revert m e1 e2. induction n as [|n IH]; intros m e1 e2 Hn Hm;
    [pose proof (size_pos e1); lia|].
  destruct m as [|m]; [pose proof (size_pos e1); lia|]. cbn [eq_fuel].
  destruct e1 as [s1|x1|o1 l1 r1|rel1 a1 b1], e2 as [s2|x2|o2 l2 r2|rel2 a2 b2]; try done.
  - cbn in Hn, Hm. apply IH; lia.
  - case_bool_decide as Ho; [subst o2|done]. rewrite !expr_copy_id, !eliminate_same by done.
    rewrite (eliminate_ext_level (eq_fuel n) (eq_fuel m) (size l1 + size r1)
      (size (E_BIN o1 l2 r2))); try lia; [done| |].
    + intros a b Ha Hb. cbn in *. apply IH; lia.
    + pose proof (size_pos l1). lia.
Qed.

(** ** The theorems *)

(** A configuration with a tristate symbol built as a module, a boolean one and a
    string. *)
Definition demo (s : symbol) : symbol_data :=
  match s with
  | symbol_yes => SymbolData (Some "y"%string) S_UNKNOWN true yes "y"
  | symbol_mod => SymbolData (Some "m"%string) S_UNKNOWN true mod_ "m"
  | symbol_no => SymbolData (Some "n"%string) S_UNKNOWN true no "n"
  | Sym 0 => SymbolData (Some "FOO"%string) S_TRISTATE false mod_ ""
  | Sym 1 => SymbolData (Some "BAR"%string) S_BOOLEAN false yes ""
  | Sym _ => SymbolData (Some "NAME"%string) S_STRING false no "abc"
  end.

Lemma demo_ok : env_ok demo yes.
Proof.
  split; try done. intros [| | |[|[|i]]]; done.
Qed.

(** C21. [expr_transform] ends on every expression and preserves its value, in
    every environment [sym_calc_value] can produce. *)
Theorem expr_transform_value (sym : symbol -> symbol_data) (modules : tristate)
    (Hok : env_ok sym modules) (e : option expr) :
  exists e', expr_transform sym e = Some e' /\
    expr_calc_value sym modules e' = expr_calc_value sym modules e.
Proof.
  destruct e as [e|]; cbn; [|by eexists].
  destruct (transform_total sym (weight e) e) as (e' & E & _); [lia|]. rewrite E.
  exists (Some e'). split; [done|]. cbn. by apply (transform_sound sym modules Hok _ _ _ E).
Qed.

Lemma expr_transform_value_witness :
  exists e', expr_transform demo (Some (E_NOT (E_BIN E_AND (E_SYMBOL (Sym 0))
      (E_COMP E_EQUAL (Sym 1) symbol_no)))) = Some e' /\
    expr_calc_value demo yes e' = expr_calc_value demo yes
      (Some (E_NOT (E_BIN E_AND (E_SYMBOL (Sym 0)) (E_COMP E_EQUAL (Sym 1) symbol_no)))).
Proof. apply (expr_transform_value demo yes demo_ok). Defined.

(** What [expr_transform] returns is in normal form: negation stands only in
    front of symbols that are not constants, and no boolean symbol is compared
    with a constant. Transforming it again changes nothing. *)
Theorem expr_transform_normal (sym : symbol -> symbol_data) (modules : tristate)
    (Hok : env_ok sym modules) (e e' : expr) (He : expr_transform sym (Some e) = Some (Some e')) :
  normal sym e' = true /\ expr_transform sym (Some e') = Some (Some e').
Proof.
  cbn in He. destruct (transform sym (weight e) e) as [e1|] eqn:E; [|done].
  injection He as <-. destruct (transform_sound sym modules Hok _ _ _ E) as [_ Hn].
  split; [done|]. clear E. cbn.
  cut (forall n, (weight e1 <= n)%nat -> transform sym n e1 = Some e1);
    [intros H; by rewrite H|].
  induction e1 as [s|x IH|op l IHl r IHr|rel s1 s2]; intros n Hw;
    (destruct n as [|n]; [match type of Hw with (weight ?e <= 0)%nat =>
       pose proof (weight_pos e); lia end|]); cbn [transform].
  - done.
  - destruct x as [s| | |]; try done. cbn in Hw. destruct n; [lia|]. cbn.
    by destruct s.
  - cbn in Hn. apply andb_true_iff in Hn as [Hl Hr]. cbn in Hw.
    rewrite (IHl Hl), (IHr Hr) by lia. done.
  - cbn in Hn. unfold reducible_comp in Hn. destruct rel; cbn; try done;
      (destruct (bool_decide (type_of sym s1 = S_BOOLEAN)); cbn in *; [|done];
       by destruct s2).
Qed.

Lemma expr_transform_normal_witness :
  normal demo (E_BIN E_OR (E_NOT (E_SYMBOL (Sym 0))) (E_SYMBOL (Sym 1))) = true /\
  expr_transform demo (Some (E_BIN E_OR (E_NOT (E_SYMBOL (Sym 0))) (E_SYMBOL (Sym 1))))
  = Some (Some (E_BIN E_OR (E_NOT (E_SYMBOL (Sym 0))) (E_SYMBOL (Sym 1)))).
Proof.
  apply (expr_transform_normal demo yes demo_ok
    (E_NOT (E_BIN E_AND (E_SYMBOL (Sym 0)) (E_COMP E_EQUAL (Sym 1) symbol_no)))).
  reflexivity.
Defined.

(** Expressions [expr_eq] calls equal have the same value in every
    environment; and the fuel of the model does not matter: it satisfies the
    recursion of the C for levels, comparing operands with [expr_eq] itself. *)
Theorem expr_eq_sound (sym : symbol -> symbol_data) (modules : tristate)
    (Hok : env_ok sym modules) (e1 e2 : option expr) (He : expr_eq e1 e2 = true) :
  expr_calc_value sym modules e1 = expr_calc_value sym modules e2 /\
  (forall op l1 r1 l2 r2,
     node_eq (E_BIN op l1 r1) (E_BIN op l2 r2) =
     match eliminate_eq node_eq (E_BIN op l1 r1) (E_BIN op l2 r2) with
     | (E_SYMBOL s1, E_SYMBOL s2) => bool_decide (s1 = s2)
     | _ => false
     end).
Proof.
  split.
  - assert (forall e, expr_is_yes e = true -> expr_calc_value sym modules e = yes) as Hy.
    { intros [[s| | |]|]; cbn; try done. intros ->%bool_decide_eq_true_1.
      apply (tri_const sym modules Hok yes). }
    destruct e1 as [e1|], e2 as [e2|]; cbn [expr_eq] in He.
    + by apply (node_eq_sound sym modules Hok).
    + apply andb_true_iff in He as [H1 H2]. by rewrite (Hy _ H1), (Hy _ H2).
    + apply andb_true_iff in He as [H1 H2]. by rewrite (Hy _ H1), (Hy _ H2).
    + done.
  - intros op l1 r1 l2 r2. unfold node_eq at 1. cbn [size Nat.add eq_fuel].
    rewrite bool_decide_eq_true_2 by done. cbn [andb].
    rewrite !expr_copy_id, !eliminate_same by done.
    set (n := (size l1 + size r1 + S (size l2 + size r2))%nat).
    rewrite (eliminate_ext_level (eq_fuel n) node_eq (size l1 + size r1)
      (size (E_BIN op l2 r2))); try lia; [done| |].
    + intros a b Ha Hb. cbn in *. apply eq_fuel_enough; unfold n; lia.
    + pose proof (size_pos l1). lia.
Qed.

Lemma expr_eq_sound_witness :
  let e1 := E_BIN E_AND (E_SYMBOL (Sym 0)) (E_BIN E_OR (E_SYMBOL (Sym 1)) (E_SYMBOL (Sym 2))) in
  let e2 := E_BIN E_AND (E_BIN E_OR (E_SYMBOL (Sym 2)) (E_SYMBOL (Sym 1))) (E_SYMBOL (Sym 0)) in
  expr_calc_value demo yes (Some e1) = expr_calc_value demo yes (Some e2) /\
  (forall op l1 r1 l2 r2,
     node_eq (E_BIN op l1 r1) (E_BIN op l2 r2) =
     match eliminate_eq node_eq (E_BIN op l1 r1) (E_BIN op l2 r2) with
     | (E_SYMBOL s1, E_SYMBOL s2) => bool_decide (s1 = s2)
     | _ => false
     end).
Proof. intros e1 e2. apply (expr_eq_sound demo yes demo_ok). reflexivity. Defined.
