(* ===== verification/KExprDups.v ===== *)
(** * Kconfig expressions: duplicates, comparisons, dependencies

    [expr_eliminate_dups] ends and preserves the value, provided different constants
    mean different values; [expr_trans_compare] on expressions without modules; what
    [expr_depends_symbol] and [expr_contains_symbol] say. *)

From Stdlib Require Import ZArith Lia String.
From stdpp Require Import base list strings numbers option.
From S2P Require Import Prelude CString KExpr KExprOps KExprProofs.

(** ** Joining two operands *)

(** Two constants a tristate symbol equals are the same. (A constant such as ['0']
    compares as a number and equals what ['n'] does.) *)
Definition constants_apart (sym : symbol -> symbol_data) (modules : tristate) : Prop :=
  forall s b c, type_of sym s = S_TRISTATE -> is_const (sym b) = true ->
    is_const (sym c) = true -> compare_values sym modules s b = 0 ->
    compare_values sym modules s c = 0 -> b = c.

Section Env.
Context (sym : symbol -> symbol_data) (modules : tristate) (Hok : env_ok sym modules).
Context (Hapart : constants_apart sym modules).

Abbreviation calc := (calc sym modules).

Lemma join_sym_plain e1 e2 s :
  join_sym sym e1 e2 = Some s ->
  plain sym s /\ join_sym1 e1 = Some s /\ join_sym2 e2 = Some s.
Proof.
  unfold join_sym. destruct (join_sym1 e1) as [s1|]; cbn [option_bind mbind]; [|done].
  destruct (join_sym2 e2) as [s2|]; cbn [option_bind mbind]; [|done].
  destruct (bool_decide (s1 = s2) && _) eqn:E; [|done]. intros [= <-].
  apply andb_true_iff in E as [->%bool_decide_eq_true_1 E]. split; [|done]. left.
  apply orb_true_iff in E as [E|E]; apply bool_decide_eq_true_1 in E; [by left|by right].
Qed.

Lemma comp_rhs_inv r e x : comp_rhs r e = Some x -> exists s, e = E_COMP r s x.
Proof.
  destruct e as [| | |r' s y]; try done. cbn. case_bool_decide; [|done]. intros [= <-].
  subst. by exists s.
Qed.

(** A comparison that passed [join_sym] compares its symbol. *)
Lemma join_sym1_comp r s x t : r = E_EQUAL \/ r = E_UNEQUAL ->
  join_sym1 (E_COMP r s x) = Some t -> s = t.
Proof. intros [-> | ->]; by intros [= ->]. Qed.
Lemma join_sym2_comp r s x t : r = E_EQUAL \/ r = E_UNEQUAL ->
  join_sym2 (E_COMP r s x) = Some t -> s = t.
Proof. intros [-> | ->]; by intros [= ->]. Qed.

Lemma both_inv r x y e1 e2 s :
  r = E_EQUAL \/ r = E_UNEQUAL -> join_sym1 e1 = Some s -> join_sym2 e2 = Some s ->
  both r x y e1 e2 = true ->
  (e1 = E_COMP r s x /\ e2 = E_COMP r s y) \/ (e1 = E_COMP r s y /\ e2 = E_COMP r s x).
Proof.
  intros Hr H1 H2. unfold both. intros [E|E]%orb_true_iff;
    apply andb_true_iff in E as [E1%bool_decide_eq_true_1 E2%bool_decide_eq_true_1];
    apply comp_rhs_inv in E1 as [s1 ->], E2 as [s2 ->];
    apply join_sym1_comp in H1; apply join_sym2_comp in H2; try done; subst; auto.
Qed.

Lemma sym_and_comp_inv r x e1 e2 s :
  r = E_EQUAL \/ r = E_UNEQUAL -> join_sym1 e1 = Some s -> join_sym2 e2 = Some s ->
  sym_and_comp r x e1 e2 = true ->
  (e1 = E_SYMBOL s /\ e2 = E_COMP r s x) \/ (e1 = E_COMP r s x /\ e2 = E_SYMBOL s).
Proof.
  intros Hr H1 H2. unfold sym_and_comp. intros [E|E]%orb_true_iff;
    apply andb_true_iff in E as [E1 E2%bool_decide_eq_true_1];
    apply comp_rhs_inv in E2 as [s2 ->].
  - destruct e1; try done. injection H1 as ->.
    apply join_sym2_comp in H2; [|done]. subst. auto.
  - destruct e2; try done. injection H2 as ->.
    apply join_sym1_comp in H1; [|done]. subst. auto.
Qed.

Lemma join_or_calc e1 e2 e :
  expr_join_or sym e1 e2 = Some e -> EXPR_OR (calc e1) (calc e2) = calc e.
Proof.
  unfold expr_join_or. destruct (node_eq e1 e2) eqn:He.
  { intros [= <-]. rewrite expr_copy_id, (node_eq_sound sym modules Hok _ _ He).
    apply (op_idemp E_OR). }
  destruct (join_sym sym e1 e2) as [s|] eqn:Hs; cbn [option_bind mbind]; [|done].
  destruct (join_sym_plain _ _ _ Hs) as (Hp & H1 & H2).
  destruct (calc_relations sym modules Hok s Hp) as (E1 & E2 & E3 & E4 & E5 & E6).
  destruct (calc_constants sym modules Hok) as (C1 & C2 & C3).
  destruct (_ && both _ symbol_yes symbol_mod _ _) eqn:B1; [|
    destruct (_ && both _ symbol_yes symbol_no _ _) eqn:B2; [|
    destruct (_ && both _ symbol_mod symbol_no _ _) eqn:B3; [|
    destruct (_ && (_ || _)) eqn:B4; [|done]]]]; intros [= <-].
  1: apply andb_true_iff in B1 as [_ B].
  2: apply andb_true_iff in B2 as [_ B].
  3: apply andb_true_iff in B3 as [_ B].
  1-3: apply (both_inv _ _ _ _ _ s) in B as [[-> ->]|[-> ->]]; auto;
    unfold expr_alloc_comp; rewrite ?E1, ?E2, ?E3, ?E4, ?E5, ?E6;
    by destruct (curr_tri (sym s)).
  apply andb_true_iff in B4 as [Hb%bool_decide_eq_true_1 B].
  pose proof (ok_bool _ _ Hok s Hb) as Hm. unfold expr_alloc_symbol. rewrite C3.
  assert (EXPR_OR (EXPR_NOT (curr_tri (sym s))) (curr_tri (sym s)) = yes) as Ho
    by (revert Hm; by destruct (curr_tri (sym s))).
  apply orb_true_iff in B as [B|B]; apply andb_true_iff in B as [B1' B2'].
  - destruct e1 as [|[]| |]; try done. destruct e2; try done.
    injection H1 as ->. injection H2 as ->. exact Ho.
  - destruct e2 as [|[]| |]; try done. destruct e1; try done.
    injection H1 as ->. injection H2 as ->. by rewrite (op_comm E_OR).
Qed.

Lemma join_equal_unequal_calc s e1 e2 e :
  type_of sym s = S_TRISTATE -> plain sym s ->
  (forall x, e1 = E_COMP E_EQUAL x (default symbol_no (comp_rhs E_EQUAL e1)) -> x = s) ->
  (forall x, e2 = E_COMP E_UNEQUAL x (default symbol_no (comp_rhs E_UNEQUAL e2)) -> x = s) ->
  join_equal_unequal sym s e1 e2 = Some e -> EXPR_AND (calc e1) (calc e2) = calc e.
Proof.
  intros Ht Hp H1 H2. unfold join_equal_unequal.
  destruct (comp_rhs E_EQUAL e1) as [b|] eqn:R1; [|done].
  destruct (comp_rhs E_UNEQUAL e2) as [c|] eqn:R2; [|done].
  apply comp_rhs_inv in R1 as [x ->]. apply comp_rhs_inv in R2 as [y ->].
  rewrite (H1 x eq_refl), (H2 y eq_refl). clear H1 H2.
  destruct (is_const (sym c) && is_const (sym b)) eqn:Hc; [|done].
  apply andb_true_iff in Hc as [Hc Hb].
  destruct (calc_constants sym modules Hok) as (C1 & C2 & C3).
  case_bool_decide as Hbc; intros [= <-].
  - subst c. unfold expr_alloc_symbol. rewrite C1. cbn.
    by destruct (compare_values sym modules s b =? 0).
  - cbn. destruct (Z.eqb_spec (compare_values sym modules s b) 0) as [Eb|];
      [|by destruct (compare_values sym modules s c =? 0)].
    destruct (Z.eqb_spec (compare_values sym modules s c) 0) as [Ec|]; [|done].
    by destruct Hbc; apply (Hapart s).
Qed.

Lemma join_and_calc e1 e2 e :
  expr_join_and sym e1 e2 = Some e -> EXPR_AND (calc e1) (calc e2) = calc e.
Proof.
  unfold expr_join_and. destruct (node_eq e1 e2) eqn:He.
  { intros [= <-]. rewrite expr_copy_id, (node_eq_sound sym modules Hok _ _ He).
    apply (op_idemp E_AND). }
  destruct (join_sym sym e1 e2) as [s|] eqn:Hs; cbn [option_bind mbind]; [|done].
  destruct (join_sym_plain _ _ _ Hs) as (Hp & H1 & H2).
  destruct (calc_relations sym modules Hok s Hp) as (E1 & E2 & E3 & E4 & E5 & E6).
  destruct (sym_and_comp E_EQUAL symbol_yes e1 e2) eqn:B1; [|
    destruct (sym_and_comp E_UNEQUAL symbol_no e1 e2) eqn:B2; [|
    destruct (sym_and_comp E_UNEQUAL symbol_mod e1 e2) eqn:B3]].
  1: apply (sym_and_comp_inv _ _ _ _ s) in B1 as [[-> ->]|[-> ->]]; auto; intros [= <-].
  3: apply (sym_and_comp_inv _ _ _ _ s) in B2 as [[-> ->]|[-> ->]]; auto; intros [= <-].
  5: apply (sym_and_comp_inv _ _ _ _ s) in B3 as [[-> ->]|[-> ->]]; auto; intros [= <-].
  1-6: unfold expr_alloc_comp, expr_alloc_symbol; rewrite ?E1, ?E2, ?E3, ?E4, ?E5, ?E6; cbn;
    by destruct (curr_tri (sym s)).
  destruct (bool_decide (type_of sym s = S_TRISTATE)) eqn:Ht; cbn [negb]; [|done].
  apply bool_decide_eq_true_1 in Ht.
  assert (forall r x y, r = E_EQUAL \/ r = E_UNEQUAL -> e1 = E_COMP r x y -> x = s) as J1.
  { intros r x y Hr ->. by apply (join_sym1_comp r x y). }
  assert (forall r x y, r = E_EQUAL \/ r = E_UNEQUAL -> e2 = E_COMP r x y -> x = s) as J2.
  { intros r x y Hr ->. by apply (join_sym2_comp r x y). }
  destruct (join_equal_unequal sym s e1 e2) as [e'|] eqn:Q1.
  { intros [= ->]. apply (join_equal_unequal_calc s e1 e2); eauto. }
  destruct (join_equal_unequal sym s e2 e1) as [e'|] eqn:Q2.
  { intros [= ->]. rewrite (op_comm E_AND : forall a b, EXPR_AND a b = EXPR_AND b a).
    apply (join_equal_unequal_calc s e2 e1); eauto. }
  destruct (both _ symbol_yes symbol_no _ _) eqn:D1; [|
    destruct (both _ symbol_yes symbol_mod _ _) eqn:D2; [|
    destruct (both _ symbol_mod symbol_no _ _) eqn:D3; [|done]]]; intros [= <-].
  1: rename D1 into D. 2: rename D2 into D. 3: rename D3 into D.
  all: apply (both_inv _ _ _ _ _ s) in D as [[-> ->]|[-> ->]]; auto;
    unfold expr_alloc_comp; rewrite ?E1, ?E2, ?E3, ?E4, ?E5, ?E6;
    by destruct (curr_tri (sym s)).
Qed.

Lemma join_calc op e1 e2 e :
  expr_join sym op e1 e2 = Some e -> apply_op op (calc e1) (calc e2) = calc e.
Proof. destruct op; [apply join_or_calc|apply join_and_calc]. Qed.

(** ** A level as the list of its operands *)

Definition level_value (op : connective) (ls : list expr) : tristate :=
  foldr (fun e v => apply_op op (calc e) v) (unit_val op) ls.

Lemma level_value_app op l1 l2 :
  level_value op (l1 ++ l2) = apply_op op (level_value op l1) (level_value op l2).
Proof.
  induction l1 as [|e l1 IH]; cbn [level_value app foldr].
  - by rewrite op_unit_l.
  - fold (level_value op (l1 ++ l2)). fold (level_value op l1). by rewrite IH, op_assoc.
Qed.

Lemma level_value_one op e : level_value op [e] = calc e.
Proof. cbn. apply op_unit_r. Qed.

(** One operand against all the others together. *)
Lemma level_value_insert op ls i x :
  ls !! i = Some x ->
  exists R, level_value op ls = apply_op op (calc x) R /\
    forall a, level_value op (<[i := a]> ls) = apply_op op (calc a) R.
Proof.
  intros Hi. exists (apply_op op (level_value op (take i ls)) (level_value op (drop (S i) ls))).
  assert (forall a, level_value op (take i ls ++ a :: drop (S i) ls)
    = apply_op op (calc a)
        (apply_op op (level_value op (take i ls)) (level_value op (drop (S i) ls)))) as E.
  { intros a. rewrite level_value_app. cbn [level_value foldr].
    fold (level_value op (drop (S i) ls)).
    rewrite !op_assoc. f_equal. apply op_comm. }
  split.
  - rewrite <- E. by rewrite take_drop_middle.
  - intros a. rewrite insert_take_drop by by eapply lookup_lt_Some. apply E.
Qed.

(** Joining operand [i] into operand [j] keeps the value of the level. *)
Lemma level_value_join op ls i j x y t :
  i <> j -> ls !! i = Some x -> ls !! j = Some y ->
  apply_op op (calc x) (calc y) = calc t ->
  level_value op (<[j := t]> (<[i := E_SYMBOL (unit_of op)]> ls)) = level_value op ls.
Proof.
  intros Hij Hi Hj Ht.
  destruct (level_value_insert op ls i x Hi) as (R & -> & HR).
  destruct (level_value_insert op (<[i := E_SYMBOL (unit_of op)]> ls) j y) as (Q & HQ & HQ').
  { by rewrite list_lookup_insert_ne. }
  rewrite HQ', <- Ht. rewrite HR in HQ. cbn in HQ.
  rewrite (tri_unit sym modules Hok), op_unit_l in HQ. by rewrite HQ, op_assoc.
Qed.

Lemma level_value_same op ls i x a :
  ls !! i = Some x -> calc a = calc x -> level_value op (<[i := a]> ls) = level_value op ls.
Proof.
  intros Hi Ha. destruct (level_value_insert op ls i x Hi) as (R & -> & HR).
  by rewrite HR, Ha.
Qed.

Lemma operands_value op e : level_value op (operands op e) = calc e.
Proof.
  induction e as [s|e IH|o l IHl r IHr|rel s1 s2]; try apply level_value_one.
  cbn [operands]. case_bool_decide as Ho; [subst o|apply level_value_one].
  by rewrite level_value_app, IHl, IHr.
Qed.

Lemma rebuild_value op e ls :
  length ls = length (operands op e) -> calc (rebuild op e ls) = level_value op ls.
Proof.
  revert ls. induction e as [s|e IH|o l IHl r IHr|rel s1 s2]; intros ls Hl.
  3: cbn [operands rebuild] in *; case_bool_decide as Ho; [subst o|].
  3: { rewrite length_app in Hl. cbn [KExprOps.calc].
       rewrite IHl, IHr by (rewrite ?length_take, ?length_drop; lia).
       by rewrite <- level_value_app, take_drop. }
  all: destruct ls as [|x [|]]; try discriminate Hl; by rewrite level_value_one.
Qed.
End Env.

Lemma rebuild_operands op e : rebuild op e (operands op e) = e.
Proof.
  induction e as [s|e IH|o l IHl r IHr|rel s1 s2]; try done. cbn [operands rebuild].
  case_bool_decide as Ho; [|done].
  by rewrite take_app_length, drop_app_length, IHl, IHr.
Qed.

(** ** Sizes *)

Definition total_size (ls : list expr) : nat := sum_list_with size ls.

Lemma total_app l1 l2 : total_size (l1 ++ l2) = (total_size l1 + total_size l2)%nat.
Proof. apply sum_list_with_app. Qed.

Lemma operands_size op e :
  (size e = total_size (operands op e) + length (operands op e) - 1)%nat /\
  (1 <= length (operands op e))%nat.
Proof.
  induction e as [s|e IH|o l IHl r IHr|rel s1 s2]; try (cbn; lia). cbn [operands].
  case_bool_decide as Ho; [|cbn; lia]. rewrite total_app, length_app. cbn [size]. lia.
Qed.

Lemma rebuild_size op e ls :
  length ls = length (operands op e) ->
  (size (rebuild op e ls) = total_size ls + length ls - 1)%nat.
Proof.
  revert ls. induction e as [s|e IH|o l IHl r IHr|rel s1 s2]; intros ls Hl.
  3: cbn [operands rebuild] in *; case_bool_decide as Ho; [subst o|].
  3: { rewrite length_app in Hl. cbn [size].
       rewrite IHl, IHr by (rewrite ?length_take, ?length_drop; lia).
       pose proof (proj2 (operands_size op l)). pose proof (proj2 (operands_size op r)).
       rewrite length_take, length_drop.
       assert (total_size ls = total_size (take (length (operands op l)) ls)
         + total_size (drop (length (operands op l)) ls))%nat as ->
         by (by rewrite <- total_app, take_drop). lia. }
  all: destruct ls as [|x [|]]; try discriminate Hl; cbn; lia.
Qed.

Lemma total_insert ls i x a :
  ls !! i = Some x -> (total_size (<[i := a]> ls) + size x = total_size ls + size a)%nat.
Proof.
  intros Hi. rewrite insert_take_drop by by eapply lookup_lt_Some.
  rewrite <- (take_drop_middle ls i x Hi) at 3. rewrite !total_app. cbn. lia.
Qed.

Lemma total_one ls i x : ls !! i = Some x -> (size x <= total_size ls)%nat.
Proof.
  intros Hi. rewrite <- (take_drop_middle ls i x Hi), total_app. cbn. lia.
Qed.

Lemma total_two ls i j x y :
  i <> j -> ls !! i = Some x -> ls !! j = Some y -> (size x + size y <= total_size ls)%nat.
Proof.
  revert i j. induction ls as [|z l IH]; intros i j Hij Hi Hj; [done|].
  unfold total_size in *. cbn [sum_list_with]. fold (total_size l) in *.
  destruct i as [|i], j as [|j]; [done|..]; cbn in Hi, Hj.
  - injection Hi as ->. pose proof (total_one l j y Hj). lia.
  - injection Hj as ->. pose proof (total_one l i x Hi). lia.
  - assert (i <> j) as Hne by congruence. pose proof (IH i j Hne Hi Hj). lia.
Qed.

Lemma join_equal_unequal_size sym s e1 e2 e :
  join_equal_unequal sym s e1 e2 = Some e -> size e = 1%nat.
Proof.
  unfold join_equal_unequal. destruct (comp_rhs E_EQUAL e1), (comp_rhs E_UNEQUAL e2); try done.
  destruct (_ && _); [|done]. intros [= <-]. by destruct (bool_decide _).
Qed.

Lemma join_size sym op e1 e2 e :
  expr_join sym op e1 e2 = Some e -> (size e + 1 <= size e1 + size e2)%nat.
Proof.
  pose proof (size_pos e1). pose proof (size_pos e2).
  assert (forall e, size (expr_copy e) = size e) as Hcopy by (intros; by rewrite expr_copy_id).
  destruct op; cbn; unfold expr_join_or, expr_join_and;
    (destruct (node_eq e1 e2); [intros [= <-]; rewrite Hcopy; lia|]);
    (destruct (join_sym sym e1 e2) as [s|]; cbn [option_bind mbind]; [|done]).
  - repeat match goal with |- context [if ?b then _ else _] => destruct b end;
      try done; intros [= <-]; cbn; lia.
  - destruct (join_equal_unequal sym s e1 e2) as [x|] eqn:Q1,
      (join_equal_unequal sym s e2 e1) as [y|] eqn:Q2;
      try apply join_equal_unequal_size in Q1; try apply join_equal_unequal_size in Q2;
      repeat match goal with |- context [if ?b then _ else _] => destruct b end;
      try done; intros [= <-]; cbn; lia.
Qed.

(** ** Progress *)

(** [expr_eliminate_yn] makes the expression smaller. *)
Definition shrinks (e : expr) : Prop := (size (expr_eliminate_yn e) < size e)%nat.

Lemma yn_size e : (size (expr_eliminate_yn e) <= size e)%nat.
Proof.
  induction e as [s|e IH|op l IHl r IHr|rel s1 s2]; cbn; try lia.
  repeat match goal with |- context [if ?b then _ else _] => destruct b end; cbn; lia.
Qed.

Lemma shrinks_bin op l r :
  shrinks l \/ shrinks r \/ l = E_SYMBOL (unit_of op) \/ r = E_SYMBOL (unit_of op) ->
  shrinks (E_BIN op l r).
Proof.
  unfold shrinks. pose proof (yn_size l) as Hl. pose proof (yn_size r) as Hr.
  cbn [expr_eliminate_yn size]. intros [H|[H|[-> | ->]]].
  - repeat match goal with |- context [if ?b then _ else _] => destruct b end; cbn; lia.
  - repeat match goal with |- context [if ?b then _ else _] => destruct b end; cbn; lia.
  - cbn [expr_eliminate_yn is_symbol]. rewrite (bool_decide_eq_true_2 (unit_of op = unit_of op)) by done.
    destruct (bool_decide _); cbn; lia.
  - cbn [expr_eliminate_yn]. cbn [is_symbol]. rewrite (bool_decide_eq_true_2 (unit_of op = unit_of op)) by done.
    repeat match goal with |- context [if ?b then _ else _] => destruct b end; cbn; lia.
Qed.

Lemma rebuild_shrinks op e ls k x :
  length ls = length (operands op e) -> ls !! k = Some x ->
  x = E_SYMBOL (unit_of op) \/ shrinks x ->
  rebuild op e ls = E_SYMBOL (unit_of op) /\ length ls = 1%nat \/ shrinks (rebuild op e ls).
Proof.
  revert ls k. induction e as [s|e IH|o l IHl r IHr|rel s1 s2]; intros ls k Hl Hk Hx.
  3: cbn [operands rebuild] in *; case_bool_decide as Ho; [subst o|].
  3: { right. rewrite length_app in Hl. apply shrinks_bin.
       set (n := length (operands op l)) in *.
       rewrite <- (take_drop n ls) in Hk. apply lookup_app_Some in Hk as [Hk|[Hk1 Hk]].
       - destruct (IHl (take n ls) k) as [[-> _]|]; auto. rewrite length_take. lia.
       - destruct (IHr (drop n ls) (k - length (take n ls))%nat) as [[-> _]|]; auto.
         rewrite length_drop. lia. }
  all: destruct ls as [|z [|]]; try discriminate Hl; destruct k; try done;
    injection Hk as ->; cbn; destruct Hx as [->|]; auto.
Qed.

(** ** One pass *)

Section Pass.
Context (sym : symbol -> symbol_data) (modules : tristate) (Hok : env_ok sym modules).
Context (Hapart : constants_apart sym modules).

Abbreviation calc := (calc sym modules).

(** What a pass over [e] returns: no larger, of the same value, and unchanged or
    counted and ready to be made smaller. *)
Definition passed (e : expr) (c : nat) (r : option (expr * nat)) : Prop :=
  exists e' c', r = Some (e', c') /\ (size e' <= size e)%nat /\ calc e' = calc e /\
    (c' = c /\ e' = e \/ (c < c')%nat /\ shrinks e').

(** The same for the operands of a level. *)
Record level_passed (op : connective) (ls0 : list expr) (c0 : nat) (st : list expr * nat) : Prop :=
  LevelPassed {
    lp_length : length (fst st) = length ls0;
    lp_size : (total_size (fst st) <= total_size ls0)%nat;
    lp_value : level_value sym modules op (fst st) = level_value sym modules op ls0;
    lp_progress : snd st = c0 /\ fst st = ls0 \/
      (c0 < snd st)%nat /\ exists k x, fst st !! k = Some x /\
        (x = E_SYMBOL (unit_of op) \/ shrinks x)
  }.

Section Inner.
Context (inner : connective -> expr -> nat -> option (expr * nat)) (bound : nat).
Context (Hinner : forall o e c, (size e <= bound)%nat -> root e = Some o -> passed e c (inner o e c)).

(** Simplifying operand [i] itself. *)
Lemma inner_operand e c :
  (size e <= bound)%nat ->
  passed e c (match e with E_BIN o _ _ => inner o e c | _ => Some (e, c) end).
Proof.
  intros He. destruct e as [s|x|o l r|rel s1 s2]; [..|by apply Hinner|];
    (eexists _, _; split; [reflexivity|]; auto).
Qed.

Lemma dups_pair_passed op ls0 c0 i j st :
  (total_size ls0 <= S bound)%nat -> (i < length ls0)%nat -> (j < length ls0)%nat ->
  level_passed op ls0 c0 st ->
  exists st', dups_pair sym inner op i j st = Some st' /\ level_passed op ls0 c0 st'.
Proof.
  intros Hb Hi Hj [Hlen Hsize Hval Hprog]. destruct st as [ls c]. cbn [fst snd] in *. unfold dups_pair.
  case_bool_decide as Hij; [eexists; split; [done|by split]|].
  destruct (lookup_lt_is_Some_2 ls i) as [x Hx]; [lia|].
  destruct (lookup_lt_is_Some_2 ls j) as [y Hy]; [lia|].
  rewrite Hx, Hy. cbn [option_bind mbind].
  pose proof (total_two ls i j x y Hij Hx Hy) as Htwo. pose proof (size_pos y).
  destruct (inner_operand x c) as (x' & c' & -> & Sx & Vx & Px); [lia|]. cbn [option_bind mbind].
  set (ls1 := <[i := x']> ls).
  assert (length ls1 = length ls) as L1 by apply length_insert.
  assert (ls1 !! i = Some x') as H1i by (apply list_lookup_insert_eq; lia).
  assert (ls1 !! j = Some y) as H1j by (by unfold ls1; rewrite list_lookup_insert_ne).
  assert (level_value sym modules op ls1 = level_value sym modules op ls) as V1
    by (by eapply level_value_same).
  pose proof (total_insert ls i x x' Hx) as T1. fold ls1 in T1.
  destruct (expr_join sym op x' y) as [t|] eqn:Hjoin.
  - eexists. split; [done|].
    pose proof (join_calc sym modules Hok Hapart _ _ _ _ Hjoin) as Hv.
    pose proof (join_size _ _ _ _ _ Hjoin) as Hs.
    set (u := expr_alloc_symbol (unit_of op)).
    pose proof (total_insert ls1 i x' u H1i) as T2.
    pose proof (total_insert (<[i := u]> ls1) j y t) as T3.
    rewrite list_lookup_insert_ne in T3 by done. specialize (T3 H1j). cbn [size u] in T2.
    split; cbn [fst snd].
    + rewrite !length_insert. lia.
    + change (size u) with 1%nat in T2. lia.
    + rewrite <- Hval, <- V1. by apply (level_value_join sym modules Hok op ls1 i j x' y t).
    + right. split; [destruct Hprog as [[-> _]|[? _]], Px as [[-> _]|[? _]]; lia|].
      exists i, u. rewrite list_lookup_insert_ne by done. split; [|by left].
      apply list_lookup_insert_eq. lia.
  - eexists. split; [done|]. split; cbn [fst snd]; [lia|lia|congruence|].
    destruct Px as [[-> ->]|[Hc Hs]].
    + unfold ls1. by rewrite list_insert_id.
    + right. split; [destruct Hprog as [[-> _]|[? _]]; lia|]. exists i, x'. auto.
Qed.

Lemma dups_row_passed op ls0 c0 i js st :
  (total_size ls0 <= S bound)%nat -> (i < length ls0)%nat ->
  (forall j, In j js -> (j < length ls0)%nat) -> level_passed op ls0 c0 st ->
  exists st', dups_row sym inner op i js st = Some st' /\ level_passed op ls0 c0 st'.
Proof.
  intros Hb Hi. revert st. induction js as [|j js IH]; intros st Hjs Hst; cbn; [by eexists|].
  destruct (dups_pair_passed op ls0 c0 i j st Hb Hi) as (st1 & -> & H1);
    [by apply Hjs; left|done|]. cbn [option_bind mbind].
  apply IH; [|done]. intros k Hk. apply Hjs. by right.
Qed.

Lemma dups_rows_passed op ls0 c0 rows st :
  (total_size ls0 <= S bound)%nat -> (forall i, In i rows -> (i < length ls0)%nat) ->
  level_passed op ls0 c0 st ->
  exists st', dups_rows sym inner op (length ls0) rows st = Some st' /\ level_passed op ls0 c0 st'.
Proof.
  intros Hb. revert st. induction rows as [|i rows IH]; intros st Hr Hst; cbn; [by eexists|].
  destruct (dups_row_passed op ls0 c0 i (seq 0 (length ls0)) st Hb) as (st1 & -> & H1);
    [by apply Hr; left|by intros j [_ ?]%in_seq|done|]. cbn [option_bind mbind].
  apply IH; [|done]. intros k Hk. apply Hr. by right.
Qed.
End Inner.

Lemma dups1_passed fuel op e c :
  (size e <= fuel)%nat -> root e = Some op -> passed e c (expr_eliminate_dups1 sym fuel op e c).
Proof.
  revert op e c. induction fuel as [|fuel IH]; intros op e c Hf Hroot;
    [pose proof (size_pos e); lia|]. cbn [expr_eliminate_dups1].
  destruct (operands_size op e) as [Hsize Hlen].
  assert (2 <= length (operands op e))%nat as Htwo.
  { destruct e as [| |o l r|]; try done. injection Hroot as ->. cbn [operands].
    rewrite bool_decide_eq_true_2, length_app by done.
    pose proof (proj2 (operands_size op l)). pose proof (proj2 (operands_size op r)). lia. }
  destruct (dups_rows_passed (expr_eliminate_dups1 sym fuel) fuel IH op (operands op e) c
    (seq 0 (length (operands op e))) (operands op e, c))
    as ([ls c'] & E & [Hl Hs Hv Hp]).
  - lia.
  - by intros i [_ ?]%in_seq.
  - split; auto.
  - rewrite E. cbn [option_bind mbind]. cbn [fst snd] in *.
    exists (rebuild op e ls), c'. split; [done|].
    split; [rewrite rebuild_size by done; lia|].
    split; [by rewrite (rebuild_value sym modules), Hv, operands_value by done|].
    destruct Hp as [[-> ->]|[Hc (k & x & Hk & Hx)]]; [left|right].
    + by rewrite rebuild_operands.
    + split; [done|]. destruct (rebuild_shrinks op e ls k x Hl Hk Hx) as [[_ ?]|]; [lia|done].
Qed.

(** ** The loop *)

Lemma dups_loop_spec fuel e :
  (size e <= fuel)%nat ->
  exists e', dups_loop sym fuel e = Some e' /\ calc e' = calc e /\ (size e' <= size e)%nat.
Proof.
  revert e. induction fuel as [|fuel IH]; intros e Hf; [pose proof (size_pos e); lia|].
  cbn [dups_loop].
  assert (passed e 0 (match e with E_BIN o _ _ => expr_eliminate_dups1 sym (size e) o e 0
                      | _ => Some (e, 0%nat) end)) as (e' & c & -> & Hs & Hv & Hp).
  { destruct e as [s|x|o l r|rel s1 s2];
      [..|by apply dups1_passed|]; (eexists _, _; split; [reflexivity|]; auto). }
  cbn [option_bind mbind]. destruct (Nat.eqb_spec c 0) as [->|Hc].
  - exists e'. auto.
  - destruct Hp as [[? _]|[_ Hshrink]]; [done|]. unfold shrinks in Hshrink.
    destruct (IH (expr_eliminate_yn e')) as (e2 & -> & Hv2 & Hs2); [lia|].
    exists e2. rewrite (eliminate_yn_calc sym modules Hok) in Hv2.
    split; [done|]. split; [congruence|lia].
Qed.
End Pass.

Lemma demo_apart : constants_apart demo yes.
Proof.
  intros s b c Ht Hb Hc. 
  assert (s = Sym 0) as -> by (destruct s as [| | |[|[|]]]; done).
  destruct b as [| | |[|[|]]], c as [| | |[|[|]]]; try done.
Qed.

(** C22. [expr_eliminate_dups] ends on every expression and never makes it larger. In an
    environment where no tristate equals two different constants ([constants_apart];
    [numeric_constant_join] is what happens otherwise) it preserves the value. *)
Theorem expr_eliminate_dups_value (sym : symbol -> symbol_data) (modules : tristate)
    (Hok : env_ok sym modules) (Hapart : constants_apart sym modules) (e : expr) :
  exists e', expr_eliminate_dups sym (Some e) = Some (Some e') /\
    expr_calc_value sym modules (Some e') = expr_calc_value sym modules (Some e) /\
    (size e' <= size e)%nat.
Proof.
  cbn. destruct (dups_loop_spec sym modules Hok Hapart (size e) e) as (e' & -> & Hv & Hs); [lia|].
  by exists e'.
Qed.

Lemma expr_eliminate_dups_value_witness :
  let e := E_BIN E_AND (E_BIN E_AND (E_SYMBOL (Sym 0)) (E_SYMBOL (Sym 1)))
             (E_COMP E_EQUAL (Sym 0) symbol_yes) in
  exists e', expr_eliminate_dups demo (Some e) = Some (Some e') /\
    expr_calc_value demo yes (Some e') = expr_calc_value demo yes (Some e) /\
    (size e' <= size e)%nat.
Proof. intros e. apply (expr_eliminate_dups_value demo yes demo_ok demo_apart). Defined.

(** The condition on constants is needed: with a constant ['0'], which compares as
    a number and so equals the value of ['n'], the rule [(a='b') && (a!='c') -> a='b']
    turns an unsatisfied condition into a satisfied one. *)
Definition with_zero (s : symbol) : symbol_data :=
  match s with
  | Sym 0 => SymbolData (Some "FOO"%string) S_TRISTATE false no ""
  | Sym 2 => SymbolData (Some "0"%string) S_UNKNOWN true no "0"
  | _ => demo s
  end.

Example numeric_constant_join :
  let e := E_BIN E_AND (E_COMP E_EQUAL (Sym 0) (Sym 2)) (E_COMP E_UNEQUAL (Sym 0) symbol_no) in
  expr_calc_value with_zero yes (Some e) = no /\
  match expr_eliminate_dups with_zero (Some e) with
  | Some e' => expr_calc_value with_zero yes e' = yes
  | None => False
  end.
Proof. by vm_compute. Qed.

(** ** Comparisons inserted *)

Section Compare.
Context (sym : symbol -> symbol_data) (modules : tristate) (Hok : env_ok sym modules).

Abbreviation calc := (calc sym modules).

(** Every symbol that stands for itself has a logical value other than [mod]. *)
Fixpoint two_valued (e : expr) : Prop :=
  match e with
  | E_SYMBOL s => plain sym s /\ curr_tri (sym s) <> mod_
  | E_NOT e => two_valued e
  | E_BIN _ l r => two_valued l /\ two_valued r
  | E_COMP _ _ _ => True
  end.

(** The truth value of a comparison with the constant of value [t]. *)
Definition compared (unequal : bool) (v t : tristate) : tristate :=
  if xorb unequal (bool_decide (v = t)) then yes else no.

Lemma two_valued_calc e : two_valued e -> calc e <> mod_.
Proof.
  induction e as [s|e IH|op l IHl r IHr|rel s1 s2]; cbn.
  - by intros [_ ?].
  - intros H%IH. by destruct (calc e).
  - intros [H1%IHl H2%IHr]. by destruct op, (calc l), (calc r).
  - intros _. by destruct (relation_holds _ _).
Qed.

Lemma trans_compare_calc e unequal t :
  t <> mod_ -> two_valued e ->
  exists e', trans_compare e unequal (const_symbol t) = Some e' /\
    calc e' = compared unequal (calc e) t.
Proof.
  intros Ht. revert unequal. induction e as [s|e IH|op l IHl r IHr|rel s1 s2]; intros unequal He.
  - destruct He as [Hp Hm]. eexists. split; [reflexivity|]. unfold expr_alloc_comp, compared.
    destruct unequal; [rewrite (calc_unequal sym modules Hok) by done
                      |rewrite (calc_equal sym modules Hok) by done]; cbn [KExprOps.calc];
      by destruct (curr_tri (sym s)), t.
  - destruct (IH (negb unequal) He) as (e' & E & V). exists e'. split; [done|]. rewrite V.
    pose proof (two_valued_calc e He) as Hm. unfold compared. cbn. revert Hm.
    by destruct (calc e), t, unequal.
  - destruct He as [Hl Hr].
    apply two_valued_calc in Hl as Vl. apply two_valued_calc in Hr as Vr.
    destruct (IHl false Hl) as (l' & El & Cl). destruct (IHr false Hr) as (r' & Er & Cr).
    destruct t; [|done|]; cbn [trans_compare const_symbol] in *; rewrite El, Er;
      cbn; (eexists; split; [reflexivity|]); unfold negate_if, expr_alloc_two, expr_alloc_one;
      destruct unequal; cbn; rewrite Cl, Cr; unfold compared;
      revert Vl Vr; by destruct op, (calc l), (calc r).
  - destruct t; [|done|]; (eexists; split; [reflexivity|]);
      unfold negate_if, expr_alloc_one, compared;
      destruct unequal; cbn; by destruct (relation_holds _ _).
Qed.
End Compare.

(** On an expression no symbol of which is [mod], [expr_trans_compare] gives
    an expression that is [yes] when the value of the given one is (is not) the
    constant it was asked to compare with, and [no] otherwise; for the null
    expression too. *)
Theorem expr_trans_compare_value (sym : symbol -> symbol_data) (modules : tristate)
    (Hok : env_ok sym modules) (e : option expr) (unequal : bool) (t : tristate)
    (Ht : t <> mod_) (He : match e with Some e => two_valued sym e | None => True end) :
  exists e', expr_trans_compare e unequal (const_symbol t) = Some e' /\
    expr_calc_value sym modules (Some e') = compared unequal (expr_calc_value sym modules e) t.
Proof.
  destruct e as [e|]; cbn [expr_trans_compare expr_calc_value].
  - by apply trans_compare_calc.
  - eexists. split; [reflexivity|]. unfold negate_if, expr_alloc_symbol, expr_alloc_one, compared.
    destruct unequal; cbn; rewrite (tri_const sym modules Hok); by destruct t.
Qed.

Lemma expr_trans_compare_value_witness :
  let e := Some (E_NOT (E_BIN E_AND (E_SYMBOL (Sym 1)) (E_COMP E_LTH (Sym 2) (Sym 3)))) in
  exists e', expr_trans_compare e true (const_symbol no) = Some e' /\
    expr_calc_value demo yes (Some e') = compared true (expr_calc_value demo yes e) no.
Proof.
  intros e. apply (expr_trans_compare_value demo yes demo_ok).
  - discriminate.
  - cbn. split; [|exact Logic.I]. split; [left; by left|discriminate].
Defined.

(** With a module the comparison of a negation is wrong: [!FOO!=n] becomes
    [FOO=n], which is [no] although [!FOO] is [m]. *)
Example trans_compare_module :
  expr_calc_value demo yes (Some (E_NOT (E_SYMBOL (Sym 0)))) = mod_ /\
  expr_calc_value demo yes
    (expr_trans_compare (Some (E_NOT (E_SYMBOL (Sym 0)))) true symbol_no) = no.
Proof. by vm_compute. Qed.

(** ** Dependencies *)

Lemma contains_frame sym sym' modules e :
  (forall s, expr_contains_symbol e s = true -> sym s = sym' s) ->
  calc sym modules e = calc sym' modules e.
Proof.
  induction e as [s|e IH|op l IHl r IHr|rel s1 s2]; cbn; intros Hs.
  - rewrite Hs; [done|]. by apply bool_decide_eq_true_2.
  - by rewrite IH.
  - rewrite IHl, IHr; [done|..]; intros s Hc; apply Hs; rewrite Hc; [by rewrite orb_true_r|done].
  - assert (sym s1 = sym' s1) as E1 by (apply Hs; by rewrite bool_decide_eq_true_2).
    assert (sym s2 = sym' s2) as E2
      by (apply Hs; by rewrite (bool_decide_eq_true_2 (s2 = s2)), orb_true_r).
    unfold compare_values, compare_strings, sym_get_string_value, type_of. by rewrite E1, E2.
Qed.

Lemma depends_contains e s : expr_depends_symbol e s = true -> expr_contains_symbol e s = true.
Proof.
  induction e as [t|e IH|[] l IHl r IHr|[] s1 s2]; cbn; try done.
  - intros [H%IHl|H%IHr]%orb_true_iff; rewrite H; [done|]. by rewrite orb_true_r.
  - intros [H _]%andb_true_iff. by rewrite H.
  - intros [H _]%andb_true_iff. by rewrite H.
Qed.

(** An expression [expr_depends_symbol] says to depend on a symbol is [no]
    while the symbol is, and contains it; and its value depends on the symbols
    [expr_contains_symbol] finds and on nothing else. *)
Theorem expr_depends_symbol_value (sym sym' : symbol -> symbol_data) (modules : tristate)
    (Hok : env_ok sym modules) (e : expr) (s : symbol)
    (Hs : logical sym s) (Hd : expr_depends_symbol e s = true) (Hno : curr_tri (sym s) = no)
    (Hframe : forall t, expr_contains_symbol e t = true -> sym t = sym' t) :
  expr_calc_value sym modules (Some e) = no /\ expr_contains_symbol e s = true /\
  expr_calc_value sym' modules (Some e) = expr_calc_value sym modules (Some e).
Proof.
  split; [|split; [by apply depends_contains|cbn; symmetry; by apply contains_frame]].
  clear Hframe. cbn. assert (plain sym s) as Hp by by left.
  destruct (calc_relations sym modules Hok s Hp) as (E1 & E2 & E3 & E4 & E5 & E6).
  rewrite Hno in E2, E3, E4.
  induction e as [t|e IH|[] l IHl r IHr|[] s1 s2]; cbn [expr_depends_symbol] in Hd; try done.
  - apply bool_decide_eq_true_1 in Hd as ->. done.
  - cbn. apply orb_true_iff in Hd as [H|H]; [rewrite (IHl H)|rewrite (IHr H)];
      [by destruct (calc _ _ r)|by destruct (calc _ _ l)].
  - apply andb_true_iff in Hd as [->%bool_decide_eq_true_1 Hd].
    by apply orb_true_iff in Hd as [->%bool_decide_eq_true_1| ->%bool_decide_eq_true_1].
  - apply andb_true_iff in Hd as [->%bool_decide_eq_true_1 ->%bool_decide_eq_true_1]. done.
Qed.

Lemma expr_depends_symbol_value_witness :
  let e := E_BIN E_AND (E_COMP E_UNEQUAL (Sym 0) symbol_no) (E_SYMBOL (Sym 1)) in
  expr_calc_value with_zero yes (Some e) = no /\ expr_contains_symbol e (Sym 0) = true /\
  expr_calc_value with_zero yes (Some e) = expr_calc_value with_zero yes (Some e).
Proof.
  intros e. apply (expr_depends_symbol_value with_zero with_zero yes); try done.
  - split; try done. intros [| | |[|[|[|i]]]]; done.
  - by right.
Defined.

(** ** Boolean contexts *)

(** [a] is as good as [b] where only [no] matters, and no larger. *)
Definition lowers (a b : tristate) : Prop := (a = no <-> b = no) /\ tri_num a <= tri_num b.

Lemma apply_op_lowers op a b c d :
  lowers a b -> lowers c d -> lowers (apply_op op a c) (apply_op op b d).
Proof.
  intros [[H1 H1'] H2] [[H3 H3'] H4]. unfold lowers.
  destruct a, b; try discriminate (H1 eq_refl); try discriminate (H1' eq_refl); try (cbn in H2; lia);
    destruct c, d; try discriminate (H3 eq_refl); try discriminate (H3' eq_refl);
    try (cbn in H4; lia); destruct op; cbn; (split; [done|lia]).
Qed.

(** [expr_trans_bool] keeps what a boolean context sees: on expressions in the
    normal form of [expr_transform] the result is [no] exactly when the expression
    is, and it never exceeds it. *)
Theorem expr_trans_bool_value (sym : symbol -> symbol_data) (modules : tristate)
    (Hok : env_ok sym modules) (e : expr) (Hn : normal sym e = true) :
  let v := expr_calc_value sym modules (Some e) in
  let v' := expr_calc_value sym modules (Some (expr_trans_bool sym e)) in
  (v' = no <-> v = no) /\ tri_num v' <= tri_num v.
Proof.
  cbn. change (lowers (calc sym modules (expr_trans_bool sym e)) (calc sym modules e)). induction e as [s|e IH|op l IHl r IHr|rel s1 s2].
  - by split.
  - destruct e as [s| | |]; done.
  - cbn in Hn. apply andb_true_iff in Hn as [Hl Hr]. by apply apply_op_lowers; [apply IHl|apply IHr].
  - destruct rel; cbn [expr_trans_bool]; try (split; [reflexivity|lia]).
    destruct (bool_decide _ && bool_decide _) eqn:E; [|split; [reflexivity|lia]].
    apply andb_true_iff in E as [Ht%bool_decide_eq_true_1 ->%bool_decide_eq_true_1].
    assert (plain sym s1) as Hp by (left; by right).
    destruct (calc_relations sym modules Hok s1 Hp) as (_ & _ & _ & -> & _).
    cbn. unfold lowers. by destruct (curr_tri (sym s1)).
Qed.

Lemma expr_trans_bool_value_witness :
  let e := E_BIN E_OR (E_COMP E_UNEQUAL (Sym 0) symbol_no) (E_NOT (E_SYMBOL (Sym 1))) in
  let v := expr_calc_value demo yes (Some e) in
  let v' := expr_calc_value demo yes (Some (expr_trans_bool demo e)) in
  (v' = no <-> v = no) /\ tri_num v' <= tri_num v.
Proof. intros e. apply (expr_trans_bool_value demo yes demo_ok). reflexivity. Defined.
