(* ===== verification/KSym.v ===== *)
(** * Kconfig symbols: values

    Models the first part of [scripts/config/symbol.c] (and [set_all_choice_values] of
    [confdata.c]): how the value of a symbol is calculated from its properties, its
    dependencies and what the user set. What the parser builds is fixed while values
    are calculated and is an argument, [decl]; the fields that change are the [cells]
    of the state. [sym_calc_value] and [expr_calc_value] call each other, so the
    functions below take [sym_calc_value] as an argument, which is then tied with
    fuel. *)

From Stdlib Require Import ZArith Lia String Ascii.
From stdpp Require Import base list strings numbers option.
From S2P Require Import Prelude CString KExpr KExprOps.

(** ** Data *)

Definition SYMBOL_CONST : Z := 0x0001.
Definition SYMBOL_CHECK : Z := 0x0008.
Definition SYMBOL_CHOICE : Z := 0x0010.
Definition SYMBOL_CHOICEVAL : Z := 0x0020.
Definition SYMBOL_VALID : Z := 0x0080.
Definition SYMBOL_WRITE : Z := 0x0200.
Definition SYMBOL_CHANGED : Z := 0x0400.
Definition SYMBOL_WRITTEN : Z := 0x0800.
Definition SYMBOL_NO_WRITE : Z := 0x1000.
Definition SYMBOL_CHECKED : Z := 0x2000.
Definition SYMBOL_DEF_USER : Z := 0x10000.
Definition SYMBOL_NEED_SET_CHOICE_VALUES : Z := 0x100000.
Definition MENU_CHANGED : Z := 0x0001.

(** [flags & m], [flags | m] and [flags & ~m]. *)
Definition has (m flags : Z) : bool := negb (Z.land flags m =? 0).
Definition with_flag (m flags : Z) : Z := Z.lor flags m.
Definition without_flag (m flags : Z) : Z := Z.ldiff flags m.

(** The [void *] of a [struct symbol_value]: a string, or the value of a choice. *)
Inductive pointer := NULL | P_string (s : string) | P_symbol (s : symbol).

#[export] Instance pointer_eq_dec : EqDecision pointer.
Proof. solve_decision. Defined.

Record symbol_value := SymbolValue { val : pointer; tri : tristate }.

Inductive prop_type :=
  P_UNKNOWN | P_PROMPT | P_COMMENT | P_MENU | P_DEFAULT | P_CHOICE | P_SELECT | P_IMPLY
| P_RANGE | P_SYMBOL | P_RESET.

#[export] Instance prop_type_eq_dec : EqDecision prop_type.
Proof. solve_decision. Defined.

(** The expression of a property: a tree, the values of a choice, or a range. *)
Inductive prop_expr :=
  PE_EXPR (e : expr) | PE_LIST (l : list symbol) | PE_RANGE (left right : symbol).

(** [struct property], but for [visible.tri]. *)
Record property := Property {
  ptype : prop_type;
  ptext : option string;
  pvisible : option expr;
  pexpr : option prop_expr;
  pmenu : option nat;
  pfile : string;
  plineno : Z
}.

(** The fields of a [struct symbol] that only the parser writes. *)
Record declaration := Declaration {
  sname : option string;
  stype : symbol_type;
  sprop : list property;
  dir_dep : option expr;
  rev_dep : option expr;
  implied : option expr
}.

(** The other fields, with [visible.tri] of the symbol's properties. *)
Record cell := Cell {
  curr : symbol_value;
  def_user : symbol_value;
  visible : tristate;
  flags : Z;
  dir_tri : tristate;
  rev_tri : tristate;
  implied_tri : tristate;
  prop_tri : nat -> tristate
}.

(** [modules_val], the flags of the menus, and what [conf_set_changed] sets. *)
Record kworld := KWorld {
  cells : symbol -> cell;
  modules_val : tristate;
  menu_flags : nat -> Z;
  conf_changed : bool
}.

(** ** Reading and writing the cells *)

Definition update {A B} `{EqDecision A} (a : A) (f : B -> B) (g : A -> B) : A -> B :=
  fun x => if decide (x = a) then f (g a) else g x.

Definition change (s : symbol) (f : cell -> cell) : prog kworld unit :=
  modify (fun w => KWorld (update s f (cells w)) (modules_val w) (menu_flags w) (conf_changed w)).

Definition look {A} (s : symbol) (f : cell -> A) : prog kworld A :=
  w ← get_st; mret (f (cells w s)).

Definition put_curr (v : symbol_value) (c : cell) : cell :=
  Cell v (def_user c) (visible c) (flags c) (dir_tri c) (rev_tri c) (implied_tri c) (prop_tri c).
Definition put_user (v : symbol_value) (c : cell) : cell :=
  Cell (curr c) v (visible c) (flags c) (dir_tri c) (rev_tri c) (implied_tri c) (prop_tri c).
Definition put_visible (t : tristate) (c : cell) : cell :=
  Cell (curr c) (def_user c) t (flags c) (dir_tri c) (rev_tri c) (implied_tri c) (prop_tri c).
Definition put_flags (f : Z -> Z) (c : cell) : cell :=
  Cell (curr c) (def_user c) (visible c) (f (flags c)) (dir_tri c) (rev_tri c) (implied_tri c) (prop_tri c).
Definition put_dir (t : tristate) (c : cell) : cell :=
  Cell (curr c) (def_user c) (visible c) (flags c) t (rev_tri c) (implied_tri c) (prop_tri c).
Definition put_rev (t : tristate) (c : cell) : cell :=
  Cell (curr c) (def_user c) (visible c) (flags c) (dir_tri c) t (implied_tri c) (prop_tri c).
Definition put_implied (t : tristate) (c : cell) : cell :=
  Cell (curr c) (def_user c) (visible c) (flags c) (dir_tri c) (rev_tri c) t (prop_tri c).
Definition put_prop (i : nat) (t : tristate) (c : cell) : cell :=
  Cell (curr c) (def_user c) (visible c) (flags c) (dir_tri c) (rev_tri c) (implied_tri c)
    (update i (fun _ => t) (prop_tri c)).

Definition set_flag (m : Z) (s : symbol) : prog kworld unit := change s (put_flags (with_flag m)).
Definition clear_flag (m : Z) (s : symbol) : prog kworld unit := change s (put_flags (without_flag m)).
Definition test_flag (m : Z) (s : symbol) : prog kworld bool := look s (fun c => has m (flags c)).

(** [if (c) p] *)
Definition when (c : bool) (p : prog kworld unit) : prog kworld unit := if c then p else mret tt.

Fixpoint each {A} (l : list A) (f : A -> prog kworld unit) : prog kworld unit :=
  match l with [] => mret tt | a :: l => f a;; each l f end.

Definition sym_is_choice : symbol -> prog kworld bool := test_flag SYMBOL_CHOICE.
Definition sym_is_choice_value : symbol -> prog kworld bool := test_flag SYMBOL_CHOICEVAL.
Definition sym_has_value : symbol -> prog kworld bool := test_flag SYMBOL_DEF_USER.
Definition sym_get_tristate_value (s : symbol) : prog kworld tristate := look s (fun c => tri (curr c)).

(** The string a [void *] points to. *)
Definition c_string (p : pointer) : prog kworld string :=
  match p with P_string s => mret s | _ => undef end.

Section Config.
(** What the parser built: the symbols, those in the hash table, and [modules_sym];
    whether [memcmp] finds two values equal (it compares pointers and padding). *)
Context (decl : symbol -> declaration) (all_symbols : list symbol) (modules_sym : symbol)
  (memcmp_value : symbol_value -> symbol_value -> bool).

Definition sym_get_type (s : symbol) : prog kworld symbol_type :=
  match stype (decl s) with
  | S_TRISTATE =>
      cv ← sym_is_choice_value s;
      v ← look s visible;
      w ← get_st;
      mret (if (cv : bool) && bool_decide (v = yes) then S_BOOLEAN
            else if bool_decide (modules_val w = no) then S_BOOLEAN else S_TRISTATE)
  | t => mret t
  end.

Definition sym_get_choice_prop (s : symbol) : option property :=
  head (filter (fun p => ptype p = P_CHOICE) (sprop (decl s))).

(** [None] where the C reads a pointer that is not one to a symbol. *)
Definition prop_get_symbol (p : property) : option (option symbol) :=
  match pexpr p with
  | Some (PE_EXPR (E_SYMBOL s)) => Some (Some s)
  | Some (PE_LIST (_ :: _)) => None
  | _ => Some None
  end.

(** [prop_get_symbol(sym_get_choice_prop(sym))], of a value of a choice. *)
Definition choice_of {W} (s : symbol) : prog W (option symbol) :=
  p ← defined (sym_get_choice_prop s); defined (prop_get_symbol p).

(** The values of a choice: [prop->expr] as [expr_list_for_each_sym] walks it. *)
Definition choice_values {W} (s : symbol) : prog W (list symbol) :=
  p ← defined (sym_get_choice_prop s);
  match pexpr p with
  | Some (PE_LIST l) => mret l
  | None => mret []
  | _ => undef
  end.

Definition sym_set_changed (s : symbol) : prog kworld unit :=
  set_flag SYMBOL_CHANGED s;;
  each (sprop (decl s)) (fun p =>
    match pmenu p with
    | Some m => modify (fun w => KWorld (cells w) (modules_val w)
                  (update m (with_flag MENU_CHANGED) (menu_flags w)) (conf_changed w))
    | None => mret tt
    end).

Definition sym_set_all_changed : prog kworld unit := each all_symbols sym_set_changed.

Definition set_all_choice_values (csym : symbol) : prog kworld unit :=
  l ← choice_values csym;
  each l (fun s =>
    h ← sym_has_value s;
    when (negb h) (change s (fun c => put_user (SymbolValue (val (def_user c)) no) c)));;
  set_flag SYMBOL_DEF_USER csym;;
  change csym (put_flags (without_flag (Z.lor SYMBOL_VALID SYMBOL_NEED_SET_CHOICE_VALUES))).

Section Nested.
Context (sym_calc_value : symbol -> prog kworld unit).

(** ** Values of expressions *)

Definition sym_get_string_value (s : symbol) : prog kworld string :=
  match stype (decl s) with
  | S_BOOLEAN | S_TRISTATE =>
      t ← sym_get_tristate_value s;
      match t with
      | no => mret "n"%string
      | mod_ =>
          sym_calc_value modules_sym;;
          m ← sym_get_tristate_value modules_sym;
          mret (if bool_decide (m = no) then "n" else "m")%string
      | yes => mret "y"%string
      end
  | _ => v ← look s (fun c => val (curr c)); c_string v
  end.

Fixpoint calc_expr (e : expr) : prog kworld tristate :=
  match e with
  | E_SYMBOL s => sym_calc_value s;; sym_get_tristate_value s
  | E_BIN op l r => a ← calc_expr l; b ← calc_expr r; mret (apply_op op a b)
  | E_NOT e => a ← calc_expr e; mret (EXPR_NOT a)
  | E_COMP rel s1 s2 =>
      sym_calc_value s1;;
      sym_calc_value s2;;
      str1 ← sym_get_string_value s1;
      str2 ← sym_get_string_value s2;
      mret (if relation_holds rel (compare_strings str1 (stype (decl s1)) str2 (stype (decl s2)))
            then yes else no)
  end.

Definition expr_calc_value (e : option expr) : prog kworld tristate :=
  match e with None => mret yes | Some e => calc_expr e end.

(** Of the expression of a property; for lists and ranges the C prints a message. *)
Definition prop_calc_value (p : property) : prog kworld tristate :=
  match pexpr p with
  | None => mret yes
  | Some (PE_EXPR e) => calc_expr e
  | Some _ => mret no
  end.

(** ** Properties *)

(** The first property of a type that is visible, with its number. *)
Fixpoint first_visible (t : prop_type) (s : symbol) (i : nat) (l : list property)
    : prog kworld (option (nat * property)) :=
  match l with
  | [] => mret None
  | p :: l =>
      if bool_decide (ptype p = t) then
        v ← expr_calc_value (pvisible p);
        change s (put_prop i v);;
        if bool_decide (v = no) then first_visible t s (S i) l else mret (Some (i, p))
      else first_visible t s (S i) l
  end.

Definition sym_get_default_prop (s : symbol) : prog kworld (option (nat * property)) :=
  first_visible P_DEFAULT s 0 (sprop (decl s)).
Definition sym_get_range_prop (s : symbol) : prog kworld (option (nat * property)) :=
  first_visible P_RANGE s 0 (sprop (decl s)).

Definition range_base (s : symbol) (base : Z) : Z :=
  match stype (decl s) with S_INT => 10 | S_HEX => 16 | _ => base end.

Definition sym_get_range_val (s : symbol) (base : Z) : prog kworld Z :=
  sym_calc_value s;;
  v ← look s (fun c => val (curr c));
  str ← c_string v;
  mret (strtoll str (range_base s base)).1.1.

(** [prop->expr->left.sym] and [right.sym] of a range. *)
Definition range_syms (p : property) : prog kworld (symbol * symbol) :=
  match pexpr p with Some (PE_RANGE l r) => mret (l, r) | _ => undef end.

Definition is_number (t : symbol_type) : bool :=
  match t with S_INT | S_HEX => true | _ => false end.

(** [sym->curr.val = range_sym->curr.val] *)
Definition copy_val (s from : symbol) : prog kworld unit :=
  v ← look from (fun c => val (curr c));
  change s (fun c => put_curr (SymbolValue v (tri (curr c))) c).

Definition sym_validate_range (s : symbol) : prog kworld unit :=
  if negb (is_number (stype (decl s))) then mret tt
  else
    let base := range_base s 0 in
    prop ← sym_get_range_prop s;
    match prop with
    | None => mret tt
    | Some (_, p) =>
        v ← look s (fun c => val (curr c));
        str ← c_string v;
        let value := (strtoll str base).1.1 in
        '(l, r) ← range_syms p;
        val2 ← sym_get_range_val l base;
        if val2 <=? value then
          val2 ← sym_get_range_val r base;
          if value <=? val2 then mret tt else copy_val s r
        else copy_val s l
    end.

(** ** Visibility *)

(** The loop over the prompts. *)
Fixpoint prompts (s : symbol) (choice_sym : option symbol) (i : nat) (l : list property) (t : tristate)
    : prog kworld tristate :=
  match l with
  | [] => mret t
  | p :: l =>
      match ptext p with
      | None => prompts s choice_sym (S i) l t
      | Some _ =>
          v ← expr_calc_value (pvisible p);
          hidden ← match choice_sym with
                   | Some c =>
                       if bool_decide (stype (decl s) = S_TRISTATE) && bool_decide (v = mod_) then
                         ct ← sym_get_tristate_value c; mret (bool_decide (ct = yes))
                       else mret false
                   | None => mret false
                   end;
          let v := if hidden : bool then no else v in
          change s (put_prop i v);;
          prompts s choice_sym (S i) l (EXPR_OR t v)
      end
  end.

(** [if (sym->f != t) { sym->f = t; sym_set_changed(sym); }] *)
Definition renew (s : symbol) (get : cell -> tristate) (put : tristate -> cell -> cell) (t : tristate)
    : prog kworld unit :=
  old ← look s get;
  when (negb (bool_decide (old = t))) (change s (put t);; sym_set_changed s).

(** One of the three dependencies: [none] when the symbol has no such expression. *)
Definition calc_dep (s : symbol) (e : option expr) (none : tristate) (get : cell -> tristate)
    (put : tristate -> cell -> cell) : prog kworld unit :=
  t ← match e with None => mret none | Some e => calc_expr e end;
  ty ← sym_get_type s;
  renew s get put (if bool_decide (t = mod_) && bool_decide (ty = S_BOOLEAN) then yes else t).

Definition sym_calc_visibility (s : symbol) : prog kworld unit :=
  cv ← sym_is_choice_value s;
  choice_sym ← (if cv : bool then choice_of s else mret None);
  t ← prompts s choice_sym 0 (sprop (decl s)) no;
  w ← get_st;
  renew s visible put_visible
    (if bool_decide (t = mod_) &&
        (negb (bool_decide (stype (decl s) = S_TRISTATE)) || bool_decide (modules_val w = no))
     then yes else t);;
  when (negb cv)
    (calc_dep s (dir_dep (decl s)) yes dir_tri put_dir;;
     calc_dep s (rev_dep (decl s)) no rev_tri put_rev;;
     calc_dep s (implied (decl s)) no implied_tri put_implied).

(** ** Choices *)

Fixpoint first_shown (l : list symbol) : prog kworld (option symbol) :=
  match l with
  | [] => mret None
  | d :: l => v ← look d visible; if bool_decide (v = no) then first_shown l else mret (Some d)
  end.

(** The loop over the defaults of a choice; a default without a symbol is a null
    pointer that is read. *)
Fixpoint default_value (s : symbol) (i : nat) (l : list property) : prog kworld (option symbol) :=
  match l with
  | [] => mret None
  | p :: l =>
      if bool_decide (ptype p = P_DEFAULT) then
        v ← expr_calc_value (pvisible p);
        change s (put_prop i v);;
        if bool_decide (v = no) then default_value s (S i) l
        else
          o ← defined (prop_get_symbol p);
          d ← defined o;
          dv ← look d visible;
          if bool_decide (dv = no) then default_value s (S i) l else mret (Some d)
      else default_value s (S i) l
  end.

Definition sym_choice_default (s : symbol) : prog kworld (option symbol) :=
  d ← default_value s 0 (sprop (decl s));
  match d with
  | Some d => mret (Some d)
  | None => l ← choice_values s; first_shown l
  end.

(** The first loop of [sym_calc_choice]: do all visible values have a user value? *)
Fixpoint shown_flags (l : list symbol) (fl : Z) : prog kworld Z :=
  match l with
  | [] => mret fl
  | d :: l =>
      sym_calc_visibility d;;
      v ← look d visible;
      f ← look d flags;
      shown_flags l (if bool_decide (v = no) then fl else Z.land fl f)
  end.

Definition sym_calc_choice (s : symbol) : prog kworld (option symbol) :=
  fl ← look s flags;
  l ← choice_values s;
  fl ← shown_flags l fl;
  change s (put_flags (fun f => Z.land f (Z.lor fl (Z.lnot SYMBOL_DEF_USER))));;
  user ← look s (fun c => val (def_user c));
  chosen ← match user with
           | NULL => mret None
           | P_symbol d => v ← look d visible; mret (if bool_decide (v = no) then None else Some d)
           | P_string _ => undef
           end;
  match chosen with
  | Some d => mret (Some d)
  | None =>
      d ← sym_choice_default s;
      when (bool_decide (d = None)) (change s (fun c => put_curr (SymbolValue (val (curr c)) no) c));;
      mret d
  end.

(** ** The value of a symbol *)

(** [EXPR_AND(expr_calc_value(prop->expr), prop->visible.tri)]: the macro evaluates its
    smaller argument twice. *)
Definition default_tri (s : symbol) (i : nat) (p : property) : prog kworld tristate :=
  a ← prop_calc_value p;
  b ← look s (fun c => prop_tri c i);
  if tri_num a <? tri_num b then prop_calc_value p else mret b.

(** Without a user value: the default, then what implies the symbol. *)
Definition tri_default (s : symbol) : prog kworld tristate :=
  rev ← look s rev_tri;
  when (negb (bool_decide (rev = no))) (set_flag SYMBOL_WRITE s);;
  choice ← sym_is_choice s;
  if choice : bool then mret no
  else
    prop ← sym_get_default_prop s;
    t ← match prop with
        | Some (i, p) => set_flag SYMBOL_WRITE s;; default_tri s i p
        | None => mret no
        end;
    imp ← look s implied_tri;
    dir ← look s dir_tri;
    if bool_decide (imp = no) then mret t
    else set_flag SYMBOL_WRITE s;; mret (EXPR_AND (EXPR_OR t imp) dir).

(** [calc_newval] and the conversion for booleans. *)
Definition tri_value (s : symbol) : prog kworld tristate :=
  cv ← sym_is_choice_value s;
  v ← look s visible;
  t ← (if (cv : bool) && bool_decide (v = yes) then
         o ← choice_of s;
         c ← defined o;
         chosen ← look c (fun c => val (curr c));
         mret (if bool_decide (chosen = P_symbol s) then yes else no)
       else
         user ← sym_has_value s;
         t ← (if negb (bool_decide (v = no)) && user
              then u ← look s (fun c => tri (def_user c)); mret (EXPR_AND u v)
              else tri_default s);
         dir ← look s dir_tri;
         rev ← look s rev_tri;
         mret (if bool_decide (dir = no) && negb (bool_decide (rev = no)) then no else EXPR_OR t rev));
  ty ← sym_get_type s;
  mret (if bool_decide (t = mod_) && bool_decide (ty = S_BOOLEAN) then yes else t).

Definition string_default (s : symbol) : prog kworld pointer :=
  v ← look s visible;
  user ← sym_has_value s;
  if negb (bool_decide (v = no)) && user then look s (fun c => val (def_user c))
  else
    prop ← sym_get_default_prop s;
    match prop with
    | None => mret (P_string "")
    | Some (_, p) =>
        o ← defined (prop_get_symbol p);
        match o with
        | None => mret (P_string "")
        | Some ds =>
            set_flag SYMBOL_WRITE s;;
            sym_calc_value ds;;
            look ds (fun c => val (curr c))
        end
    end.

(** [newval]: what the symbol has while it is calculated. *)
Definition initial_value (t : symbol_type) : symbol_value :=
  match t with
  | S_BOOLEAN | S_TRISTATE => SymbolValue (P_string "n") no
  | _ => SymbolValue (P_string "") no
  end.

Definition new_value (s : symbol) : prog kworld symbol_value :=
  match stype (decl s) with
  | S_BOOLEAN | S_TRISTATE => t ← tri_value s; mret (SymbolValue (P_string "n") t)
  | _ => p ← string_default s; mret (SymbolValue p no)
  end.

(** What a changed value sets off. *)
Definition note_change (s : symbol) (old : symbol_value) : prog kworld unit :=
  new ← look s curr;
  when (negb (memcmp_value old new))
    (sym_set_changed s;;
     when (bool_decide (modules_sym = s))
       (sym_set_all_changed;;
        t ← sym_get_tristate_value s;
        modify (fun w => KWorld (cells w) t (menu_flags w) (conf_changed w)))).

(** The flags the values of a choice get from it. *)
Definition pass_flags (s : symbol) : prog kworld unit :=
  l ← choice_values s;
  each l (fun c =>
    wr ← test_flag SYMBOL_WRITE s;
    v ← look c visible;
    when ((wr : bool) && negb (bool_decide (v = no))) (set_flag SYMBOL_WRITE c);;
    ch ← test_flag SYMBOL_CHANGED s;
    when ch (sym_set_changed c)).

(** [sym_calc_value] behind its two guards. *)
Definition calc_known (s : symbol) : prog kworld unit :=
  old ← look s curr;
  clear_flag SYMBOL_WRITE s;;
  sym_calc_visibility s;;
  v ← look s visible;
  when (negb (bool_decide (v = no))) (set_flag SYMBOL_WRITE s);;
  change s (put_curr (initial_value (stype (decl s))));;
  new ← new_value s;
  change s (put_curr new);;
  choice ← sym_is_choice s;
  when ((choice : bool) && bool_decide (tri new = yes))
    (d ← sym_calc_choice s;
     change s (fun c => put_curr (SymbolValue (from_option P_symbol NULL d) (tri (curr c))) c));;
  sym_validate_range s;;
  note_change s old;;
  choice ← sym_is_choice s;
  when choice (pass_flags s);;
  nw ← test_flag SYMBOL_NO_WRITE s;
  when nw (clear_flag SYMBOL_WRITE s);;
  need ← test_flag SYMBOL_NEED_SET_CHOICE_VALUES s;
  when need (set_all_choice_values s).

Definition calc_body (s : symbol) : prog kworld unit :=
  valid ← test_flag SYMBOL_VALID s;
  if valid : bool then mret tt
  else
    cv ← sym_is_choice_value s;
    need ← test_flag SYMBOL_NEED_SET_CHOICE_VALUES s;
    when ((cv : bool) && need)
      (clear_flag SYMBOL_NEED_SET_CHOICE_VALUES s;;
       o ← choice_of s;
       match o with Some c => sym_calc_value c | None => mret tt end);;
    set_flag SYMBOL_VALID s;;
    match stype (decl s) with
    | S_UNKNOWN =>
        change s (put_curr (SymbolValue (from_option P_string NULL (sname (decl s))) no))
    | _ => calc_known s
    end.
End Nested.

Fixpoint sym_calc_value (fuel : nat) (s : symbol) : prog kworld unit :=
  match fuel with
  | O => undef
  | S fuel => calc_body (sym_calc_value fuel) s
  end.

(** ** Setting values *)

Section Set_.
(** A fuel that is enough: see [sym_calc_value_solves]. *)
Context (fuel : nat).

Definition conf_set_changed (b : bool) : prog kworld unit :=
  modify (fun w => KWorld (cells w) (modules_val w) (menu_flags w) b).

Definition sym_clear_all_valid : prog kworld unit :=
  each all_symbols (clear_flag SYMBOL_VALID);;
  conf_set_changed true;;
  sym_calc_value fuel modules_sym.

Definition sym_tristate_within_range (s : symbol) (value : tristate) : prog kworld bool :=
  ty ← sym_get_type s;
  v ← look s visible;
  rev ← look s rev_tri;
  cv ← sym_is_choice_value s;
  mret (if bool_decide (v = no) then false
        else if negb (bool_decide (ty = S_BOOLEAN)) && negb (bool_decide (ty = S_TRISTATE)) then false
        else if bool_decide (ty = S_BOOLEAN) && bool_decide (value = mod_) then false
        else if tri_num v <=? tri_num rev then false
        else if (cv : bool) && bool_decide (v = yes) then bool_decide (value = yes)
        else (tri_num rev <=? tri_num value) && (tri_num value <=? tri_num v)).

(** A choice takes its new value, and its visible values count as set by the user. *)
Definition set_choice (s : symbol) : prog kworld unit :=
  o ← choice_of s;
  cs ← defined o;
  change cs (fun c => put_user (SymbolValue (P_symbol s) (tri (def_user c))) c);;
  set_flag SYMBOL_DEF_USER cs;;
  l ← choice_values cs;
  each l (fun v =>
    vis ← look v visible;
    when (negb (bool_decide (vis = no))) (set_flag SYMBOL_DEF_USER v)).

Definition mark_user (s : symbol) : prog kworld unit :=
  user ← sym_has_value s;
  when (negb user) (set_flag SYMBOL_DEF_USER s;; sym_set_changed s).

Definition sym_set_tristate_value (s : symbol) (value : tristate) : prog kworld bool :=
  old ← sym_get_tristate_value s;
  ok ← (if bool_decide (old = value) then mret true else sym_tristate_within_range s value);
  if negb ok then mret false
  else
    mark_user s;;
    cv ← sym_is_choice_value s;
    when ((cv : bool) && bool_decide (value = yes)) (set_choice s);;
    change s (fun c => put_user (SymbolValue (val (def_user c)) value) c);;
    when (negb (bool_decide (old = value))) sym_clear_all_valid;;
    mret true.

Definition next_tristate (t : tristate) : tristate :=
  match t with no => mod_ | mod_ => yes | yes => no end.

(** The loop of [sym_toggle_tristate_value], three rounds of which are enough. *)
Fixpoint toggle (rounds : nat) (s : symbol) (old new : tristate) : prog kworld tristate :=
  match rounds with
  | O => undef
  | S rounds =>
      let new := next_tristate new in
      ok ← sym_set_tristate_value s new;
      if (ok : bool) || bool_decide (old = new) then mret new else toggle rounds s old new
  end.

Definition sym_toggle_tristate_value (s : symbol) : prog kworld tristate :=
  old ← sym_get_tristate_value s; toggle 3 s old old.

Definition isdigit (c : ascii) : bool := is_digit 10 c.

(** [while ((ch = *str++)) if (!f(ch)) return false;] *)
Fixpoint all_chars (f : ascii -> bool) (str : string) : bool :=
  match str with EmptyString => true | String c r => f c && all_chars f r end.

(** The value a text for a boolean or a tristate starts with. *)
Definition tri_of_text (str : string) : option tristate :=
  match str with
  | String "y" _ | String "Y" _ => Some yes
  | String "m" _ | String "M" _ => Some mod_
  | String "n" _ | String "N" _ => Some no
  | _ => None
  end.

Definition has_0x (str : string) : bool :=
  match str with String "0" (String "x" _) | String "0" (String "X" _) => true | _ => false end.

Definition drop_chars (n : nat) (str : string) : string :=
  string_of_list_ascii (skipn n (list_ascii_of_string str)).

Definition sym_string_valid (s : symbol) (str : string) : bool :=
  match stype (decl s) with
  | S_STRING => true
  | S_INT =>
      let str := match str with String "-" r => r | _ => str end in
      match str with
      | EmptyString => false
      | String c r => isdigit c && negb (bool_decide (c = "0"%char) && negb (bool_decide (r = EmptyString)))
                      && all_chars isdigit r
      end
  | S_HEX =>
      let str := if has_0x str then drop_chars 2 str else str in
      negb (bool_decide (str = EmptyString)) && all_chars isxdigit str
  | S_BOOLEAN | S_TRISTATE => match tri_of_text str with Some _ => true | None => false end
  | S_UNKNOWN => false
  end.

(** The cases of numbers in [sym_string_within_range]. *)
Definition number_within_range (s : symbol) (str : string) (base : Z) : prog kworld bool :=
  if negb (sym_string_valid s str) then mret false
  else
    prop ← sym_get_range_prop (sym_calc_value fuel) s;
    match prop with
    | None => mret true
    | Some (_, p) =>
        let value := (strtoll str base).1.1 in
        '(l, r) ← range_syms p;
        low ← sym_get_range_val (sym_calc_value fuel) l base;
        if low <=? value then
          high ← sym_get_range_val (sym_calc_value fuel) r base;
          mret (value <=? high)
        else mret false
    end.

Definition sym_string_within_range (s : symbol) (str : string) : prog kworld bool :=
  match stype (decl s) with
  | S_STRING => mret (sym_string_valid s str)
  | S_INT => number_within_range s str 10
  | S_HEX => number_within_range s str 16
  | S_BOOLEAN | S_TRISTATE =>
      match tri_of_text str with Some t => sym_tristate_within_range s t | None => mret false end
  | S_UNKNOWN => mret false
  end.

Definition set_text (s : symbol) (newval : string) : prog kworld unit :=
  change s (fun c => put_user (SymbolValue (P_string newval) (tri (def_user c))) c);;
  sym_clear_all_valid.

Definition sym_set_string_value (s : symbol) (newval : string) : prog kworld bool :=
  match stype (decl s) with
  | S_BOOLEAN | S_TRISTATE =>
      match tri_of_text newval with Some t => sym_set_tristate_value s t | None => mret false end
  | _ =>
      ok ← sym_string_within_range s newval;
      if negb ok then mret false
      else
        mark_user s;;
        oldval ← look s (fun c => val (def_user c));
        if bool_decide (stype (decl s) = S_HEX) && negb (has_0x newval)
        then set_text s ("0x" +:+ newval);; mret true
        else
          same ← match oldval with
                 | NULL => mret false
                 | p => o ← c_string p; mret (bool_decide (o = newval))
                 end;
          when (negb same) (set_text s newval);;
          mret true
  end.

Definition sym_is_changeable (s : symbol) : prog kworld bool :=
  v ← look s visible; rev ← look s rev_tri; mret (tri_num rev <? tri_num v).

(** [sym_get_string_default], up to the text of the result. *)
Definition default_before_select (s : symbol) : prog kworld (tristate * pointer) :=
  prop ← sym_get_default_prop (sym_calc_value fuel) s;
  match prop with
  | None => mret (no, P_string "")
  | Some (i, p) =>
      match stype (decl s) with
      | S_BOOLEAN | S_TRISTATE =>
          t ← default_tri (sym_calc_value fuel) s i p; mret (t, P_string "")
      | _ =>
          o ← defined (prop_get_symbol p);
          match o with
          | None => mret (no, P_string "")
          | Some ds => sym_calc_value fuel ds;; v ← look ds (fun c => val (curr c)); mret (no, v)
          end
      end
  end.

Definition sym_get_string_default (s : symbol) : prog kworld pointer :=
  sym_calc_visibility (sym_calc_value fuel) s;;
  sym_calc_value fuel modules_sym;;
  '(t, str) ← default_before_select s;
  rev ← look s rev_tri;
  let t := EXPR_OR t rev in
  cv ← sym_is_choice_value s;
  m ← sym_get_tristate_value modules_sym;
  let t := if bool_decide (t = mod_) && negb cv && bool_decide (m = no) then yes else t in
  let t := if bool_decide (stype (decl s) = S_BOOLEAN) && bool_decide (t = mod_) then yes else t in
  imp ← look s implied_tri;
  let t := if tri_num t <? tri_num imp then imp else t in
  mret match stype (decl s) with
       | S_BOOLEAN | S_TRISTATE => P_string (tri_string t)
       | S_INT | S_HEX | S_STRING => str
       | S_UNKNOWN => P_string ""
       end.
End Set_.
End Config.
