(* ===== verification/KSymSpec.v ===== *)
(** * What the values of Kconfig symbols mean

    The language without its implementation: for given values of the other symbols,
    what the visibility, the dependencies and the value of a symbol are. Choices and
    their values are left out here. A state in which a symbol has been calculated
    must satisfy these equations ([solves]); [used] are the symbols they mention. *)

From Stdlib Require Import ZArith Lia String Ascii.
From stdpp Require Import base list strings numbers option.
From S2P Require Import Prelude CString KExpr KExprOps KSym.

(** ** The symbols an expression and a declaration mention *)

Fixpoint expr_symbols (e : expr) : list symbol :=
  match e with
  | E_SYMBOL s => [s]
  | E_NOT e => expr_symbols e
  | E_BIN _ l r => expr_symbols l ++ expr_symbols r
  | E_COMP _ a b => [a; b]
  end.

Definition opt_symbols (e : option expr) : list symbol := from_option expr_symbols [] e.

Definition prop_symbols (p : property) : list symbol :=
  match pexpr p with
  | Some (PE_EXPR e) => expr_symbols e
  | Some (PE_RANGE l r) => [l; r]
  | _ => []
  end.

(** Is the condition of the property evaluated, and is its expression? *)
Definition conditional (p : property) : bool :=
  bool_decide (is_Some (ptext p)) || bool_decide (ptype p = P_DEFAULT) || bool_decide (ptype p = P_RANGE).
Definition valued (p : property) : bool :=
  bool_decide (ptype p = P_DEFAULT) || bool_decide (ptype p = P_RANGE).

Definition used_by (p : property) : list symbol :=
  (if conditional p then opt_symbols (pvisible p) else []) ++ (if valued p then prop_symbols p else []).

Definition used (d : declaration) : list symbol :=
  opt_symbols (dir_dep d) ++ opt_symbols (rev_dep d) ++ opt_symbols (implied d) ++
  flat_map used_by (sprop d).

(** ** The equations *)

Section Equations.
(** The other symbols, and the value of [MODULES]. *)
Context (env : symbol -> symbol_data) (m : tristate).

#[local] Abbreviation ev := (KExprOps.expr_calc_value env m).

(** The type of a tristate without modules. *)
Definition type_now (t : symbol_type) : symbol_type :=
  match t with S_TRISTATE => if bool_decide (m = no) then S_BOOLEAN else S_TRISTATE | t => t end.

Definition no_mod (t : symbol_type) (v : tristate) : tristate :=
  if bool_decide (v = mod_) && bool_decide (type_now t = S_BOOLEAN) then yes else v.

Definition spec_prompts (l : list property) (t : tristate) : tristate :=
  foldl (fun t p => match ptext p with Some _ => EXPR_OR t (ev (pvisible p)) | None => t end) t l.

Definition spec_visible (d : declaration) : tristate :=
  let t := spec_prompts (sprop d) no in
  if bool_decide (t = mod_) && (negb (bool_decide (stype d = S_TRISTATE)) || bool_decide (m = no))
  then yes else t.

Definition spec_dep (d : declaration) (e : option expr) (none : tristate) : tristate :=
  no_mod (stype d) (match e with None => none | Some e => calc env m e end).

Definition spec_dir (d : declaration) : tristate := spec_dep d (dir_dep d) yes.
Definition spec_rev (d : declaration) : tristate := spec_dep d (rev_dep d) no.
Definition spec_implied (d : declaration) : tristate := spec_dep d (implied d) no.

(** The first property of a type whose condition holds. *)
Fixpoint spec_prop (t : prop_type) (l : list property) : option property :=
  match l with
  | [] => None
  | p :: l =>
      if bool_decide (ptype p = t) && negb (bool_decide (ev (pvisible p) = no)) then Some p
      else spec_prop t l
  end.

Definition prop_value (p : property) : tristate :=
  match pexpr p with None => yes | Some (PE_EXPR e) => calc env m e | Some _ => no end.

(** Without a user value. *)
Definition spec_default (d : declaration) : tristate :=
  let t := match spec_prop P_DEFAULT (sprop d) with
           | Some p => EXPR_AND (prop_value p) (ev (pvisible p))
           | None => no
           end in
  if bool_decide (spec_implied d = no) then t
  else EXPR_AND (EXPR_OR t (spec_implied d)) (spec_dir d).

(** A boolean or a tristate: [user] is what the user set. A symbol that is selected
    although its dependencies do not hold is off. *)
Definition spec_tri (d : declaration) (user : option tristate) : tristate :=
  let t := match user with
           | Some u => if bool_decide (spec_visible d = no) then spec_default d
                       else EXPR_AND u (spec_visible d)
           | None => spec_default d
           end in
  no_mod (stype d)
    (if bool_decide (spec_dir d = no) && negb (bool_decide (spec_rev d = no)) then no
     else EXPR_OR t (spec_rev d)).

(** The text of a string or a number, before the range is applied. *)
Definition spec_text (d : declaration) (user : option string) : string :=
  let default := match spec_prop P_DEFAULT (sprop d) with
                 | Some p => match prop_get_symbol p with
                             | Some (Some ds) => curr_val (env ds)
                             | _ => EmptyString
                             end
                 | None => EmptyString
                 end in
  match user with
  | Some u => if bool_decide (spec_visible d = no) then default else u
  | None => default
  end.

Definition number (t : symbol_type) (base : Z) (str : string) : Z :=
  (strtoll str (match t with S_INT => 10 | S_HEX => 16 | _ => base end)).1.1.

(** The nearest bound of the range when the number is outside. *)
Definition spec_range (d : declaration) (str : string) : string :=
  if is_number (stype d) then
    match spec_prop P_RANGE (sprop d) with
    | Some p =>
        match pexpr p with
        | Some (PE_RANGE l r) =>
            let base := match stype d with S_INT => 10 | _ => 16 end in
            let bound s := number (type (env s)) base (curr_val (env s)) in
            let v := number (stype d) base str in
            if v <? bound l then curr_val (env l)
            else if bound r <? v then curr_val (env r) else str
        | _ => str
        end
    | None => str
    end
  else str.

(** The user value of a symbol, if it has one. *)
Definition user_tri (c : cell) : option tristate :=
  if has SYMBOL_DEF_USER (flags c) then Some (tri (def_user c)) else None.
Definition pointer_text (p : pointer) : string := match p with P_string s => s | _ => EmptyString end.
Definition user_text (c : cell) : option string :=
  if has SYMBOL_DEF_USER (flags c) then Some (pointer_text (val (def_user c))) else None.

Definition spec_value (d : declaration) (c : cell) : symbol_value :=
  match stype d with
  | S_BOOLEAN | S_TRISTATE => SymbolValue (P_string "n") (spec_tri d (user_tri c))
  | S_UNKNOWN => SymbolValue (from_option P_string NULL (sname d)) no
  | _ => SymbolValue (P_string (spec_range d (spec_text d (user_text c)))) no
  end.

(** All that is calculated of a symbol. *)
Definition solves (d : declaration) (c : cell) : Prop :=
  curr c = spec_value d c /\
  (stype d <> S_UNKNOWN ->
     visible c = spec_visible d /\ dir_tri c = spec_dir d /\ rev_tri c = spec_rev d /\
     implied_tri c = spec_implied d).
End Equations.

(** ** States *)

Section States.
Context (decl : symbol -> declaration) (modules_sym : symbol).

Definition env_of (w : kworld) (s : symbol) : symbol_data :=
  SymbolData (sname (decl s)) (stype (decl s)) (has SYMBOL_CONST (flags (cells w s)))
    (tri (curr (cells w s))) (pointer_text (val (curr (cells w s)))).

Definition modules_tri (w : kworld) : tristate := tri (curr (cells w modules_sym)).

Definition valid (w : kworld) (s : symbol) : bool := has SYMBOL_VALID (flags (cells w s)).

Definition constant (s : symbol) : bool := match s with Sym _ => false | _ => true end.

(** What the parser ensures of the symbols the theorems are about: they are no choices
    or values of choices, ranges have two bounds, and a symbol without a type (a
    literal) has a name. *)
Definition prop_ok (t : symbol_type) (p : property) : Prop :=
  (ptype p = P_RANGE -> is_number t = true -> exists l r, pexpr p = Some (PE_RANGE l r)) /\
  (ptype p = P_DEFAULT -> ptext p = None /\ prop_get_symbol p <> None).

Record plain (w : kworld) (s : symbol) : Prop := {
  plain_choice : has SYMBOL_CHOICE (flags (cells w s)) = false;
  plain_value : has SYMBOL_CHOICEVAL (flags (cells w s)) = false;
  plain_need : has SYMBOL_NEED_SET_CHOICE_VALUES (flags (cells w s)) = false;
  plain_user : is_Some (user_text (cells w s)) -> stype (decl s) <> S_BOOLEAN ->
    stype (decl s) <> S_TRISTATE -> exists str, val (def_user (cells w s)) = P_string str;
  plain_name : stype (decl s) = S_UNKNOWN -> is_Some (sname (decl s));
  plain_props : Forall (prop_ok (stype (decl s))) (sprop (decl s))
}.
End States.
