(* ===== verification/KSymFacts.v ===== *)
(** * Facts about the calculation of Kconfig symbols

    A program logic for the states of [KSym]: [runs] says what a program returns and
    leaves, [step] which symbols a calculation may have changed, [fact] what holds in
    every environment that agrees with the symbols calculated so far. *)

From Stdlib Require Import ZArith Lia String Ascii.
From stdpp Require Import base list strings numbers option.
From S2P Require Import Prelude CString KExpr KExprOps KExprProofs KSym KSymSpec.

(** ** Flags *)

Lemma has_with m k f : has m (with_flag k f) = has m f || has m k.
Proof.
  unfold has, with_flag. rewrite Z.land_lor_distr_l.
  destruct (Z.eqb_spec (Z.land f m) 0) as [->|H1]; cbn [negb orb]; [by rewrite Z.lor_0_l|].
  destruct (Z.eqb_spec (Z.lor (Z.land f m) (Z.land k m)) 0) as [E|]; [|done].
  apply Z.lor_eq_0_iff in E as [E _]. by rewrite E in H1.
Qed.

Lemma has_without m k f : Z.land m k = 0 -> has m (without_flag k f) = has m f.
Proof.
  intros Hmk. unfold has, without_flag. do 2 f_equal. apply Z.bits_inj'. intros i Hi.
  rewrite !Z.land_spec, Z.ldiff_spec.
  assert (Z.testbit (Z.land m k) i = false) as Hb by (rewrite Hmk; apply Z.bits_0).
  rewrite Z.land_spec in Hb. destruct (Z.testbit f i), (Z.testbit m i), (Z.testbit k i); done.
Qed.

(** The flags that change while values are calculated. *)
Definition volatile : Z := 0x680.

Lemma volatile_is : volatile = Z.lor SYMBOL_VALID (Z.lor SYMBOL_WRITE SYMBOL_CHANGED).
Proof. done. Qed.

Definition kept (c c' : cell) : Prop :=
  def_user c' = def_user c /\ Z.ldiff (flags c') volatile = Z.ldiff (flags c) volatile.

Lemma kept_refl c : kept c c.
Proof. done. Qed.

Lemma kept_trans a b c : kept a b -> kept b c -> kept a c.
Proof. intros [E1 E2] [E3 E4]. split; congruence. Qed.

Lemma kept_has m c c' : Z.land m volatile = 0 -> kept c c' -> has m (flags c') = has m (flags c).
Proof.
  intros Hm [_ E]. rewrite <- (has_without m volatile (flags c')), <- (has_without m volatile (flags c)) by done.
  unfold without_flag. by rewrite E.
Qed.

Lemma ldiff_with k f : Z.land k volatile = k -> Z.ldiff (with_flag k f) volatile = Z.ldiff f volatile.
Proof.
  intros Hk. apply Z.bits_inj'. intros i Hi. unfold with_flag. rewrite !Z.ldiff_spec, Z.lor_spec.
  rewrite <- Hk, Z.land_spec. destruct (Z.testbit f i), (Z.testbit k i), (Z.testbit volatile i); done.
Qed.

Lemma ldiff_without k f : Z.land k volatile = k -> Z.ldiff (without_flag k f) volatile = Z.ldiff f volatile.
Proof.
  intros Hk. apply Z.bits_inj'. intros i Hi. unfold without_flag. rewrite !Z.ldiff_spec.
  rewrite <- Hk, Z.land_spec. destruct (Z.testbit f i), (Z.testbit k i), (Z.testbit volatile i); done.
Qed.

(** ** Running programs *)

Lemma runs_look {A} s (f : cell -> A) w (Q : A -> kworld -> Prop) : Q (f (cells w s)) w -> runs (look s f) w Q.
Proof. done. Qed.

(** The state after [change]. *)
Definition changed (s : symbol) (f : cell -> cell) (w : kworld) : kworld :=
  KWorld (update s f (cells w)) (modules_val w) (menu_flags w) (conf_changed w).

Lemma runs_change s f w (Q : unit -> kworld -> Prop) : Q tt (changed s f w) -> runs (change s f) w Q.
Proof. done. Qed.

Lemma runs_when c p w (Q : unit -> kworld -> Prop) :
  (c = true -> runs p w Q) -> (c = false -> Q tt w) -> runs (when c p) w Q.
Proof. destruct c; cbn; auto. Qed.

Lemma cells_changed s f w : cells (changed s f w) s = f (cells w s).
Proof. cbn. unfold update. by rewrite decide_True. Qed.

Lemma cells_changed_ne s f w t : t <> s -> cells (changed s f w) t = cells w t.
Proof. intros. cbn. unfold update. by rewrite decide_False. Qed.

(** ** Values in environments that agree on the symbols used *)

Lemma calc_ext env env' m e :
  (forall t, t ∈ expr_symbols e -> env' t = env t) -> calc env' m e = calc env m e.
Proof.
  induction e as [s|e IH|op l IHl r IHr|rel a b]; cbn [expr_symbols calc]; intros H.
  - by rewrite H by by left.
  - by rewrite IH.
  - rewrite IHl, IHr; [done|..]; intros t Ht; apply H; rewrite elem_of_app; auto.
  - assert (env' a = env a) as Ea by (apply H; by left).
    assert (env' b = env b) as Eb by (apply H; right; by left).
    unfold compare_values, KExprOps.sym_get_string_value, type_of. by rewrite Ea, Eb.
Qed.

(** ** What a calculation changes *)

Section Relations.
Context (decl : symbol -> declaration) (modules_sym : symbol).
(** The symbols the theorems are about, in an order in which a symbol comes after
    those it uses; the value of [MODULES]. *)
Context (D : symbol -> Prop) (rank : symbol -> nat) (m : tristate).

Definition operand (r : nat) (t : symbol) : Prop := constant t = true \/ (D t /\ (rank t < r)%nat).

(** An environment agrees with the values calculated so far of lower symbols. *)
Definition agree (r : nat) (w : kworld) (env : symbol -> symbol_data) : Prop :=
  forall u, operand r u -> valid w u = true -> env u = env_of decl w u.

Definition fact (r : nat) (w : kworld) (P : (symbol -> symbol_data) -> Prop) : Prop :=
  forall env, agree r w env -> P env.

(** The value of the symbol is calculated, and no symbol calculated later changes what
    it should be. *)
Definition settled (w : kworld) (t : symbol) : Prop :=
  valid w t = true /\ fact (rank t) w (fun env => solves env m (decl t) (cells w t)).

Definition calculated (r : nat) (w w' : kworld) (t : symbol) : Prop :=
  valid w t = false /\ D t /\ (rank t < r)%nat /\ settled w' t /\ kept (cells w t) (cells w' t).

(** Calculating symbols of rank below [r]. *)
Definition step (r : nat) (w w' : kworld) : Prop :=
  modules_val w' = modules_val w /\
  forall t, cells w' t = cells w t \/ calculated r w w' t.

(** Calculating [s], whose own cell may change. *)
Definition own (s : symbol) (w w' : kworld) : Prop :=
  modules_val w' = modules_val w /\ kept (cells w s) (cells w' s) /\
  (valid w s = true -> valid w' s = true) /\
  forall t, t <> s -> cells w' t = cells w t \/ calculated (rank s) w w' t.

(** The states the calculation runs in. *)
Record good (w : kworld) : Prop := {
  good_constant : forall t, constant t = true ->
    valid w t = true /\ exists str, val (curr (cells w t)) = P_string str;
  good_modules : modules_val w = m;
  good_plain : forall t, D t -> plain decl w t
}.

(** [MODULES] has rank 0: it is calculated before all others. *)
Record inv (r : nat) (w : kworld) : Prop := {
  inv_good : good w;
  inv_modules : (0 < r)%nat -> valid w modules_sym = true /\ modules_tri modules_sym w = m;
  inv_settled : forall t, D t -> (rank t < r)%nat -> valid w t = true -> settled w t
}.

Context (D_constant : forall s, D s -> constant s = false)
  (closed : forall s, D s -> Forall (operand (rank s)) (used (decl s))).

Lemma operand_mono r r' t : (r <= r')%nat -> operand r t -> operand r' t.
Proof. intros Hr [Hc|[Hd Ht]]; [by left|right]. split; [done|lia]. Qed.

Lemma step_refl r w : step r w w.
Proof. split; [done|]. by left. Qed.

Lemma own_refl s w : own s w w.
Proof. split; [done|]. split; [done|]. split; [done|]. by left. Qed.

Lemma step_valid r w w' t : step r w w' -> valid w t = true -> valid w' t = true /\ cells w' t = cells w t.
Proof.
  intros [_ H] Hv. destruct (H t) as [E|(Hn & _)]; [|by rewrite Hv in Hn].
  split; [|done]. unfold valid in *. by rewrite E.
Qed.

Lemma own_valid s w w' t :
  own s w w' -> t <> s -> valid w t = true -> valid w' t = true /\ cells w' t = cells w t.
Proof.
  intros (_ & _ & _ & H) Hne Hv. destruct (H t Hne) as [E|(Hn & _)]; [|by rewrite Hv in Hn].
  split; [|done]. unfold valid in *. by rewrite E.
Qed.

(** Nothing that was calculated changes. *)
Lemma agree_step r r' w w' env : step r' w w' -> agree r w' env -> agree r w env.
Proof.
  intros Hs Ha u Hu Hv. destruct (step_valid _ _ _ _ Hs Hv) as [Hv' E].
  rewrite (Ha u Hu Hv'). unfold env_of. by rewrite E.
Qed.

Lemma operand_ne s t : D s -> operand (rank s) t -> t <> s.
Proof. intros Hs [Hc|[_ Hr]] ->; [|lia]. by rewrite (D_constant s Hs) in Hc. Qed.

Lemma agree_own s w w' env : D s -> own s w w' -> agree (rank s) w' env -> agree (rank s) w env.
Proof.
  intros Hd Ho Ha u Hu Hv. destruct (own_valid _ _ _ _ Ho (operand_ne s u Hd Hu) Hv) as [Hv' E].
  rewrite (Ha u Hu Hv'). unfold env_of. by rewrite E.
Qed.

Lemma fact_own s w w' P : D s -> own s w w' -> fact (rank s) w P -> fact (rank s) w' P.
Proof. intros Hd Ho Hf env Ha. apply Hf. by apply (agree_own s w w'). Qed.

Lemma fact_step r r' w w' P : step r' w w' -> fact r w P -> fact r w' P.
Proof. intros Hs Hf env Ha. apply Hf. by apply (agree_step r r' w w'). Qed.

Lemma settled_step r w w' t : step r w w' -> settled w t -> settled w' t.
Proof.
  intros Hs [Hv Hf]. destruct (step_valid _ _ _ _ Hs Hv) as [Hv' E]. split; [done|].
  rewrite E. by apply (fact_step _ r w w').
Qed.

Lemma settled_own s w w' t :
  D s -> own s w w' -> D t -> (rank t < rank s)%nat -> settled w t -> settled w' t.
Proof.
  intros Hd Ho Ht Hr [Hv Hf]. assert (t <> s) as Hne by (intros ->; lia).
  destruct (own_valid _ _ _ _ Ho Hne Hv) as [Hv' E]. split; [done|]. rewrite E.
  intros env Ha. apply Hf. intros u Hu Hvu.
  assert (u <> s) as Hus by (intros ->; destruct Hu as [Hc|[_ Hu]]; [by rewrite (D_constant s Hd) in Hc|lia]).
  destruct (own_valid _ _ _ _ Ho Hus Hvu) as [Hvu' Eu]. rewrite (Ha u Hu Hvu'). unfold env_of. by rewrite Eu.
Qed.

Lemma step_trans r w1 w2 w3 : step r w1 w2 -> step r w2 w3 -> step r w1 w3.
Proof.
  intros [M1 H1] H23. pose proof H23 as [M2 H2]. split; [congruence|]. intros t.
  destruct (H2 t) as [E2|(Hv2 & Hd & Hr & Hs & Hk)].
  - destruct (H1 t) as [E1|(Hv & Hd & Hr & Hs & Hk)]; [left; congruence|right].
    do 3 (split; [done|]). split; [by apply (settled_step r w2)|by rewrite E2].
  - right. destruct (H1 t) as [E1|(Hv & _ & _ & [Hs1 _] & _)].
    + split; [by unfold valid in *; rewrite <- E1|]. do 3 (split; [done|]). by rewrite <- E1.
    + by rewrite Hs1 in Hv2.
Qed.

Lemma own_trans s w1 w2 w3 : D s -> own s w1 w2 -> own s w2 w3 -> own s w1 w3.
Proof.
  intros Hd (M1 & K1 & V1 & H1) H23. pose proof H23 as (M2 & K2 & V2 & H2). split; [congruence|].
  split; [by apply (kept_trans _ (cells w2 s))|]. split; [auto|]. intros t Hne.
  destruct (H2 t Hne) as [E2|(Hv2 & Ht & Hr & Hs & Hk)].
  - destruct (H1 t Hne) as [E1|(Hv & Ht & Hr & Hs & Hk)]; [left; congruence|right].
    do 3 (split; [done|]). split; [by apply (settled_own s w2)|by rewrite E2].
  - right. destruct (H1 t Hne) as [E1|(Hv & _ & _ & [Hs1 _] & _)].
    + split; [by unfold valid in *; rewrite <- E1|]. do 3 (split; [done|]). by rewrite <- E1.
    + by rewrite Hs1 in Hv2.
Qed.

(** Nested calculations, seen from a symbol that is in progress. *)
Lemma step_own s w w' :
  valid w s = true -> step (rank s) w w' -> own s w w' /\ cells w' s = cells w s.
Proof.
  intros Hv Hst. destruct (step_valid _ _ _ _ Hst Hv) as [Hv' E]. destruct Hst as [M H].
  split; [|done]. split; [done|]. split; [by rewrite E|]. split; [done|]. intros t _. apply H.
Qed.

Lemma step_mono r r' w w' : (r <= r')%nat -> step r w w' -> step r' w w'.
Proof.
  intros Hr [M H]. split; [done|]. intros t. destruct (H t) as [?|(? & ? & ? & ?)]; [by left|right].
  split; [done|]. split; [done|]. split; [lia|done].
Qed.
End Relations.
