(* ===== verification/KSymCalc.v ===== *)
(** * The calculation of Kconfig symbols solves the equations

    Each part of [sym_calc_value] is related to its equation in [KSymSpec], for a
    symbol [s] that is in progress and nested calculations of lower symbols. *)

From Stdlib Require Import ZArith Lia String Ascii.
From stdpp Require Import base list strings numbers option.
From S2P Require Import Prelude CString KExpr KExprOps KExprProofs KSym KSymSpec KSymFacts.

Section Calc.
Context (decl : symbol -> declaration) (all_symbols : list symbol) (modules_sym : symbol)
  (memcmp_value : symbol_value -> symbol_value -> bool).
Context (D : symbol -> Prop) (rank : symbol -> nat) (m : tristate).
Context (D_constant : forall s, D s -> constant s = false)
  (closed : forall s, D s -> Forall (operand D rank (rank s)) (used (decl s)))
  (constant_type : forall t, constant t = true -> stype (decl t) = S_UNKNOWN)
  (rank_modules : rank modules_sym = 0%nat).

#[local] Abbreviation inv := (inv decl modules_sym D rank m).
#[local] Abbreviation step := (step decl D rank m).
#[local] Abbreviation own := (own decl D rank m).
#[local] Abbreviation fact := (fact decl D rank).
#[local] Abbreviation settled := (settled decl D rank m).
#[local] Abbreviation operand := (operand D rank).

(** ** The states stay good *)

Lemma plain_kept w w' t : kept (cells w t) (cells w' t) -> plain decl w t -> plain decl w' t.
Proof.
  intros Hk [H1 H2 H3 H4 H5 H6]. split; [..|done|done].
  - by rewrite (kept_has SYMBOL_CHOICE _ _ eq_refl Hk).
  - by rewrite (kept_has SYMBOL_CHOICEVAL _ _ eq_refl Hk).
  - by rewrite (kept_has SYMBOL_NEED_SET_CHOICE_VALUES _ _ eq_refl Hk).
  - unfold user_text. rewrite (kept_has SYMBOL_DEF_USER _ _ eq_refl Hk), (proj1 Hk). exact H4.
Qed.

Lemma good_preserved w w' :
  modules_val w' = modules_val w ->
  (forall t, constant t = true -> valid w t = true -> cells w' t = cells w t) ->
  (forall t, D t -> kept (cells w t) (cells w' t)) ->
  good decl D m w -> good decl D m w'.
Proof.
  intros Em Hsame Hk [Hc Hm Hp]. split.
  - intros t Htc. destruct (Hc t Htc) as [Hv' Hs]. unfold valid. by rewrite (Hsame t Htc Hv').
  - congruence.
  - intros t Htd. apply (plain_kept w); auto.
Qed.

Lemma modules_same w w' :
  cells w' modules_sym = cells w modules_sym ->
  valid w modules_sym = true /\ modules_tri modules_sym w = m ->
  valid w' modules_sym = true /\ modules_tri modules_sym w' = m.
Proof. unfold valid, modules_tri. by intros ->. Qed.

Lemma inv_step r r' w w' : step r' w w' -> inv r w -> inv r w'.
Proof.
  intros Hst [Hg Hm Hset]. split.
  - apply (good_preserved w); [apply Hst| | |done].
    + intros t _ Hv. by apply (step_valid _ _ _ _ _ _ _ _ Hst Hv).
    + intros t _. destruct (proj2 Hst t) as [E|(_ & _ & _ & _ & Hk)]; [by rewrite E|done].
  - intros Hr. apply (modules_same w); [|by apply Hm].
    by apply (step_valid _ _ _ _ _ _ _ _ Hst (proj1 (Hm Hr))).
  - intros t Ht Hr Hv. destruct (valid w t) eqn:Ew.
    + apply (settled_step _ _ _ _ r' w w'); auto.
    + destruct (proj2 Hst t) as [E|(_ & _ & _ & Hs & _)]; [|done].
      unfold valid in *. by rewrite E, Ew in Hv.
Qed.

Lemma inv_own s w w' : D s -> own s w w' -> inv (rank s) w -> inv (rank s) w'.
Proof.
  intros Hd Ho [Hg Hm Hset]. split.
  - apply (good_preserved w); [apply Ho| | |done].
    + intros t Htc Hv. assert (t <> s) as Hts by (intros ->; by rewrite (D_constant s Hd) in Htc).
      by apply (own_valid _ _ _ _ _ _ _ _ Ho Hts Hv).
    + intros t Ht. destruct (decide (t = s)) as [->|Hts]; [apply Ho|].
      destruct (proj2 (proj2 (proj2 Ho)) t Hts) as [E|(_ & _ & _ & _ & Hk)]; [by rewrite E|done].
  - intros Hr. assert (modules_sym <> s) as Hms by (intros <-; lia). apply (modules_same w); [|by apply Hm].
    by apply (own_valid _ _ _ _ _ _ _ _ Ho Hms (proj1 (Hm Hr))).
  - intros t Ht Hr Hv. assert (t <> s) as Hts by (intros ->; lia). destruct (valid w t) eqn:Ew.
    + apply (settled_own _ _ _ _ D_constant s w w'); auto.
    + destruct (proj2 (proj2 (proj2 Ho)) t Hts) as [E|(_ & _ & _ & Hs & _)]; [|done].
      unfold valid in *. by rewrite E, Ew in Hv.
Qed.

(** ** Texts *)

Lemma operand_text r w t :
  inv r w -> operand r t -> valid w t = true -> exists str, val (curr (cells w t)) = P_string str.
Proof.
  intros [Hg _ Hset] [Hc|[Hd Hr]] Hv; [by apply (good_constant _ _ _ _ Hg)|].
  destruct (Hset t Hd Hr Hv) as [_ Hf]. destruct (Hf (env_of decl w)) as [E _]; [by intros u _ _|].
  rewrite E. unfold spec_value. destruct (stype (decl t)) eqn:Et; cbn; try by eexists.
  destruct (plain_name _ _ _ (good_plain _ _ _ _ Hg t Hd) Et) as [n ->]. by exists n.
Qed.

Lemma inv_below r r' w : (r' <= r)%nat -> (0 < r)%nat \/ r' = 0%nat -> inv r w -> inv r' w.
Proof.
  intros Hr H0 [Hg Hm Hset]. split; [done|intros; apply Hm; lia|].
  intros t Ht Hrt. apply Hset; [done|lia].
Qed.

Section Nested.
(** The nested calls, of symbols below a rank. *)
Context (f : symbol -> prog kworld unit) (r : nat).
Context (f_valid : forall t w, valid w t = true -> f t w = Ret tt w)
  (f_calls : forall t w, D t -> (rank t < r)%nat -> inv (S (rank t)) w ->
     runs (f t) w (fun _ w' => step (S (rank t)) w w' /\ valid w' t = true)).

Lemma runs_operand w t :
  inv r w -> operand r t -> runs (f t) w (fun _ w' => step r w w' /\ valid w' t = true).
Proof.
  intros Hi Ho. destruct (valid w t) eqn:Ev.
  { unfold runs. rewrite f_valid by done. split; [apply step_refl|done]. }
  destruct Ho as [Hc|[Hd Hr]].
  { destruct (good_constant _ _ _ _ (inv_good _ _ _ _ _ _ _ Hi) t Hc) as [Hv _]. by rewrite Hv in Ev. }
  eapply runs_mono; [apply f_calls; [done|done|]|].
  - apply (inv_below r); [lia|lia|done].
  - intros [] w' [Hst Hv]. split; [|done]. by apply (step_mono _ _ _ _ (S (rank t))).
Qed.

(** [v] is the value of [s] that every environment that agrees gives. *)
Lemma fact_tri w t :
  operand r t -> valid w t = true -> fact r w (fun env => tri (curr (cells w t)) = curr_tri (env t)).
Proof. intros Ho Hv env Ha. by rewrite (Ha t Ho Hv). Qed.

(** The text of a boolean or a tristate. *)
Lemma runs_tri_text w t :
  inv r w -> (0 < r)%nat ->
  runs (t0 ← sym_get_tristate_value t;
        match t0 with
        | no => mret "n"%string
        | mod_ =>
            f modules_sym;;
            q ← sym_get_tristate_value modules_sym;
            mret (if bool_decide (q = no) then "n" else "m")%string
        | yes => mret "y"%string
        end) w (fun str w' => w' = w /\
    str = match tri (curr (cells w t)) with
          | mod_ => (if bool_decide (m = no) then "n" else "m")%string
          | t0 => tri_string t0
          end).
Proof.
  intros Hi Hr. destruct (inv_modules _ _ _ _ _ _ _ Hi Hr) as [Hmv Hm].
  apply runs_bind, runs_look. destruct (tri (curr (cells w t))); [done| |done].
  apply runs_bind. unfold runs at 1. rewrite f_valid by done.
  apply runs_bind, runs_look. split; [done|]. unfold modules_tri in Hm. by rewrite Hm.
Qed.

Lemma runs_string w t :
  inv r w -> operand r t -> valid w t = true ->
  runs (sym_get_string_value decl modules_sym f t) w (fun str w' => w' = w /\
    fact r w (fun env => str = KExprOps.sym_get_string_value env m t)).
Proof.
  intros Hi Ho Hv. destruct (operand_text r w t Hi Ho Hv) as [str Estr].
  assert (fact r w (fun env => env t = env_of decl w t)) as Henv by (intros env Ha; by apply Ha).
  unfold sym_get_string_value, KExprOps.sym_get_string_value, type_of.
  assert (runs (v ← look t (fun c => val (curr c)); c_string v) w (fun q w' => w' = w /\ q = str)) as Htext
    by (apply runs_bind, runs_look; by rewrite Estr).
  assert (stype (decl t) = S_UNKNOWN \/ (0 < r)%nat) as Hty
    by (destruct Ho as [Hc|[_ Hr]]; [left; by apply constant_type|right; lia]).
  destruct (stype (decl t)) eqn:Et;
    (eapply runs_mono; [first [exact Htext|apply runs_tri_text; [done|by destruct Hty]]|]); intros q w' [-> ->];
    (split; [done|]); intros env Ha; rewrite (Henv env Ha); cbn; rewrite Et; try rewrite Estr; done.
Qed.

(** ** Expressions *)

Lemma runs_calc e w :
  inv r w -> Forall (operand r) (expr_symbols e) ->
  runs (calc_expr decl modules_sym f e) w (fun v w' => step r w w' /\
    fact r w' (fun env => v = calc env m e)).
Proof.
  revert w. induction e as [t|e IH|op e1 IH1 e2 IH2|rel a b]; intros w Hi Ho; cbn [calc_expr expr_symbols] in *.
  - apply Forall_cons_1 in Ho as [Ho _]. eapply runs_step; [by apply runs_operand|]. intros [] w' [Hst Hv].
    apply runs_look. split; [done|]. intros env Ha. by apply (fact_tri w').
  - eapply runs_step; [by apply IH|]. intros v w' [Hst Hf]. apply runs_ret. split; [done|].
    intros env Ha. cbn. by rewrite (Hf env Ha).
  - apply Forall_app in Ho as [Ho1 Ho2]. eapply runs_step; [by apply IH1|]. intros v1 w1 [Hst1 Hf1].
    eapply runs_step; [apply IH2; [by apply (inv_step r r w)|done]|]. intros v2 w2 [Hst2 Hf2].
    apply runs_ret. split; [by apply (step_trans _ _ _ _ _ w w1)|]. intros env Ha. cbn.
    rewrite (Hf2 env Ha). by rewrite (fact_step _ _ _ _ r r w1 w2 _ Hst2 Hf1 env Ha).
  - apply Forall_cons_1 in Ho as [Hoa Hob]. apply Forall_cons_1 in Hob as [Hob _].
    eapply runs_step; [by apply (runs_operand w a)|]. intros [] w1 [Hst1 Hva].
    assert (inv r w1) as Hi1 by by apply (inv_step r r w).
    eapply runs_step; [by apply (runs_operand w1 b)|]. intros [] w2 [Hst2 Hvb].
    assert (inv r w2) as Hi2 by by apply (inv_step r r w1).
    destruct (step_valid _ _ _ _ _ _ _ _ Hst2 Hva) as [Hva2 _].
    eapply runs_step; [by apply runs_string|]. intros str1 w' [-> Hf1].
    eapply runs_step; [by apply runs_string|]. intros str2 w' [-> Hf2].
    apply runs_ret. split; [by apply (step_trans _ _ _ _ _ w w1)|]. intros env Ha. cbn.
    unfold compare_values, type_of. rewrite (Hf1 env Ha), (Hf2 env Ha), (Ha a Hoa Hva2), (Ha b Hob Hvb). done.
Qed.

End Nested.

(** ** States in which [s] is in progress *)

Section Owner.
(** The nested calls, and the symbol that is calculated. *)
Context (f : symbol -> prog kworld unit) (s : symbol) (Hs : D s).
Context (f_valid : forall t w, valid w t = true -> f t w = Ret tt w)
  (f_calls : forall t w, D t -> (rank t < rank s)%nat -> inv (S (rank t)) w ->
     runs (f t) w (fun _ w' => step (S (rank t)) w w' /\ valid w' t = true)).

#[local] Abbreviation r := (rank s).

Definition busy (w : kworld) : Prop := valid w s = true /\ inv r w.

(** The calculated fields of [s]. *)
Definition core (c : cell) : symbol_value * (tristate * tristate * tristate * tristate) :=
  (curr c, (visible c, dir_tri c, rev_tri c, implied_tri c)).

(** [s] is in progress before and after, and only [core] and [volatile] of its cell
    may differ. *)
Definition goes (w w' : kworld) : Prop := own s w w' /\ busy w'.
Definition frame (w w' : kworld) : Prop := goes w w' /\ core (cells w' s) = core (cells w s).

Lemma goes_trans w1 w2 w3 : goes w1 w2 -> goes w2 w3 -> goes w1 w3.
Proof. intros [O1 _] [O2 B]. split; [|done]. by apply (own_trans _ _ _ _ D_constant s w1 w2). Qed.

Lemma frame_trans w1 w2 w3 : frame w1 w2 -> frame w2 w3 -> frame w1 w3.
Proof. intros [G1 E1] [G2 E2]. split; [by apply (goes_trans w1 w2)|congruence]. Qed.

Lemma frame_refl w : busy w -> frame w w.
Proof. intros Hb. split; [split; [apply own_refl|done]|done]. Qed.

Lemma goes_own w w' : busy w -> own s w w' -> goes w w'.
Proof.
  intros [Hv Hi] Ho. split; [done|]. split; [|by apply (inv_own s w)].
  by apply (proj1 (proj2 (proj2 Ho))).
Qed.

Lemma frame_step w w' : busy w -> step r w w' -> frame w w' /\ cells w' s = cells w s.
Proof.
  intros [Hv Hi] Hst. destruct (step_own _ _ _ _ s w w' Hv Hst) as [Ho E]. split; [|done].
  split; [by apply goes_own|by rewrite E].
Qed.

Lemma fact_goes w w' P : goes w w' -> fact r w P -> fact r w' P.
Proof. intros [Ho _]. by eapply fact_own. Qed.

Lemma fact_frame w w' P : frame w w' -> fact r w P -> fact r w' P.
Proof. intros [Hg _]. by apply fact_goes. Qed.

Lemma goes_change g w :
  busy w -> kept (cells w s) (g (cells w s)) -> has SYMBOL_VALID (flags (g (cells w s))) = true ->
  goes w (changed s g w).
Proof.
  intros Hb Hk Hv. apply goes_own; [done|]. split; [done|]. unfold valid. rewrite cells_changed.
  split; [done|]. split; [done|]. intros t Ht. left. by apply cells_changed_ne.
Qed.

Lemma frame_change g w :
  busy w -> kept (cells w s) (g (cells w s)) -> has SYMBOL_VALID (flags (g (cells w s))) = true ->
  core (g (cells w s)) = core (cells w s) -> frame w (changed s g w).
Proof. intros Hb Hk Hv Hc. split; [by apply goes_change|by rewrite cells_changed]. Qed.

(** The nested evaluation of an expression. *)
Lemma runs_expr e w (Hb : busy w) :
  Forall (operand r) (expr_symbols e) ->
  runs (calc_expr decl modules_sym f e) w (fun v w' => frame w w' /\ cells w' s = cells w s /\
    fact r w' (fun env => v = calc env m e)).
Proof.
  intros Ho. eapply runs_mono; [by apply runs_calc; [..|apply Hb|]|]. intros v w' [Hst Hf].
  by destruct (frame_step w w' Hb Hst).
Qed.

Lemma runs_condition e w (Hb : busy w) :
  Forall (operand r) (opt_symbols e) ->
  runs (expr_calc_value decl modules_sym f e) w (fun v w' => frame w w' /\ cells w' s = cells w s /\
    fact r w' (fun env => v = KExprOps.expr_calc_value env m e)).
Proof.
  destruct e as [e|]; cbn; intros Ho; [by apply runs_expr|].
  split; [by apply frame_refl|]. split; [done|]. by intros env _.
Qed.

Lemma runs_prop_value p w (Hb : busy w) :
  Forall (operand r) (prop_symbols p) ->
  runs (prop_calc_value decl modules_sym f p) w (fun v w' => frame w w' /\ cells w' s = cells w s /\
    fact r w' (fun env => v = prop_value env m p)).
Proof.
  unfold prop_symbols, prop_calc_value, prop_value. destruct (pexpr p) as [[e| |]|]; intros Ho;
    [by apply runs_expr|..]; (split; [by apply frame_refl|]; split; [done|]; by intros env _).
Qed.

(** ** Properties *)

Lemma used_condition p :
  conditional p = true -> Forall (operand r) (used_by p) -> Forall (operand r) (opt_symbols (pvisible p)).
Proof. unfold used_by. intros -> [Ho _]%Forall_app. done. Qed.

Lemma used_value p :
  valued p = true -> Forall (operand r) (used_by p) -> Forall (operand r) (prop_symbols p).
Proof. unfold used_by. intros -> [_ Ho]%Forall_app. done. Qed.

Lemma valued_conditional p : valued p = true -> conditional p = true.
Proof.
  unfold valued, conditional. rewrite !orb_true_iff. intros [H|H]; [left; by right|by right].
Qed.

Lemma frame_prop i v w : busy w -> frame w (changed s (put_prop i v) w).
Proof. intros Hb. apply frame_change; [done|done|exact (proj1 Hb)|done]. Qed.

Lemma prop_written i v w : prop_tri (cells (changed s (put_prop i v) w) s) i = v.
Proof. rewrite cells_changed. cbn. unfold update. by rewrite decide_True. Qed.

Lemma runs_first t i l w :
  busy w -> (forall p, p ∈ l -> ptype p = t -> valued p = true) ->
  Forall (fun p => Forall (operand r) (used_by p)) l ->
  runs (first_visible decl modules_sym f t s i l) w (fun o w' => frame w w' /\
    fact r w' (fun env => option_map snd o = spec_prop env m t l) /\
    match o with
    | Some (j, p) => (p ∈ l /\ ptype p = t) /\
        fact r w' (fun env => prop_tri (cells w' s) j = KExprOps.expr_calc_value env m (pvisible p))
    | None => True
    end).
Proof.
  revert i w. induction l as [|p l IH]; intros i w Hb Ht Hl; cbn [first_visible].
  { split; [by apply frame_refl|]. split; [by intros env _|done]. }
  apply Forall_cons_1 in Hl as [Hp Hl].
  assert (forall q, q ∈ l -> ptype q = t -> valued q = true) as Ht' by (intros q Hq; apply Ht; by right).
  case_bool_decide as Et.
  - assert (valued p = true) as Hv by (apply Ht; [by left|done]).
    eapply runs_step; [by apply runs_condition; [|apply used_condition; [apply valued_conditional|]]|].
    intros v w1 (Hf1 & _ & Hv1). eapply runs_bind, runs_change.
    set (w2 := changed s (put_prop i v) w1).
    assert (frame w w2) as Hf2 by (apply (frame_trans w w1); [done|apply frame_prop, Hf1]).
    assert (fact r w2 (fun env => v = KExprOps.expr_calc_value env m (pvisible p))) as Hv2
      by (eapply fact_frame; [apply frame_prop, Hf1|exact Hv1]).
    case_bool_decide as Eno.
    + eapply runs_mono; [by apply IH; [apply Hf2|..]|]. intros o w3 (Hf3 & Ho & Hj).
      split; [by apply (frame_trans w w2)|]. split; [|destruct o as [[j q]|]; [|done]].
      * intros env Ha. rewrite (Ho env Ha). cbn. rewrite <- (fact_frame _ _ _ Hf3 Hv2 env Ha), Eno.
        by rewrite (bool_decide_eq_true_2 (no = no)), andb_false_r.
      * destruct Hj as [[Hq ?] Hj]. split; [|done]. split; [by right|done].
    + apply runs_ret. split; [done|]. split; [|split; [split; [by left|done]|]].
      * intros env Ha. cbn. rewrite <- (Hv2 env Ha). by rewrite (bool_decide_eq_true_2 _ Et), (bool_decide_eq_false_2 _ Eno).
      * intros env Ha. unfold w2. rewrite prop_written. by apply Hv2.
  - eapply runs_mono; [by apply IH|]. intros o w' (Hf & Ho & Hj). split; [done|]. split.
    + intros env Ha. rewrite (Ho env Ha). cbn. by rewrite bool_decide_eq_false_2.
    + destruct o as [[j q]|]; [|done]. destruct Hj as [[Hq ?] Hj]. split; [|done]. split; [by right|done].
Qed.

Lemma runs_prompts i l t w :
  busy w -> Forall (fun p => Forall (operand r) (used_by p)) l ->
  runs (prompts decl modules_sym f s None i l t) w (fun v w' => frame w w' /\
    fact r w' (fun env => v = spec_prompts env m l t)).
Proof.
  revert i t w. induction l as [|p l IH]; intros i t w Hb Hl; cbn [prompts].
  { split; [by apply frame_refl|]. by intros env _. }
  apply Forall_cons_1 in Hl as [Hp Hl]. unfold spec_prompts. cbn [foldl].
  destruct (ptext p) as [txt|] eqn:Et; [|by apply IH].
  eapply runs_step; [apply runs_condition; [done|apply used_condition; [|done]]|].
  { unfold conditional. by rewrite Et, bool_decide_eq_true_2 by by eexists. }
  intros v w1 (Hf1 & _ & Hv1). apply runs_bind, runs_ret. apply runs_bind, runs_change.
  set (w2 := changed s (put_prop i v) w1).
  assert (frame w w2) as Hf2 by (apply (frame_trans w w1); [done|apply frame_prop, Hf1]).
  eapply runs_mono; [by apply IH; [apply Hf2|]|]. intros u w3 [Hf3 Hu].
  split; [by apply (frame_trans w w2)|]. intros env Ha. rewrite (Hu env Ha). unfold spec_prompts.
  do 2 f_equal. assert (frame w1 w2) as Hf12 by apply frame_prop, Hf1.
  exact (fact_frame _ _ _ Hf3 (fact_frame _ _ _ Hf12 Hv1) env Ha).
Qed.

(** ** Visibility and dependencies *)

Lemma busy_plain w : busy w -> plain decl w s.
Proof. intros [_ [Hg _ _]]. by apply (good_plain _ _ _ _ Hg). Qed.

Lemma busy_modules w : busy w -> modules_val w = m.
Proof. intros [_ [Hg _ _]]. apply (good_modules _ _ _ _ Hg). Qed.

Lemma runs_type w : busy w -> runs (sym_get_type decl s) w (fun ty w' => w' = w /\ ty = type_now m (stype (decl s))).
Proof.
  intros Hb. pose proof (plain_value _ _ _ (busy_plain w Hb)) as Hp. pose proof (busy_modules w Hb) as Hm.
  unfold sym_get_type, type_now. destruct (stype (decl s)); try done.
  apply runs_bind, runs_look. rewrite Hp. apply runs_bind, runs_look. apply runs_bind.
  change (w = w /\ (if bool_decide (modules_val w = no) then S_BOOLEAN else S_TRISTATE) =
                   (if bool_decide (m = no) then S_BOOLEAN else S_TRISTATE)).
  by rewrite Hm.
Qed.

Lemma frame_set k w : busy w -> Z.land k volatile = k -> frame w (changed s (put_flags (with_flag k)) w).
Proof.
  intros Hb Hk. apply frame_change; [done| | |done].
  - split; [done|]. by apply ldiff_with.
  - cbn. rewrite has_with. destruct Hb as [Hv _]. unfold valid in Hv. by rewrite Hv.
Qed.

Lemma frame_clear k w :
  busy w -> Z.land k volatile = k -> Z.land SYMBOL_VALID k = 0 ->
  frame w (changed s (put_flags (without_flag k)) w).
Proof.
  intros Hb Hk Hkv. apply frame_change; [done| | |done].
  - split; [done|]. by apply ldiff_without.
  - cbn. rewrite has_without by done. exact (proj1 Hb).
Qed.

(** The flags of the menus are no concern of the symbols. *)
Lemma frame_menus w mf cc : busy w -> frame w (KWorld (cells w) (modules_val w) mf cc).
Proof.
  intros Hb. assert (own s w (KWorld (cells w) (modules_val w) mf cc)) as Ho
    by (split; [done|]; split; [done|]; split; [done|]; by left).
  split; [by apply goes_own|done].
Qed.

Lemma runs_set_changed w : busy w -> runs (sym_set_changed decl s) w (fun _ w' => frame w w').
Proof.
  intros Hb. apply runs_bind, runs_change. set (w1 := changed s _ w).
  assert (frame w w1) as Hf by by apply frame_set.
  clearbody w1. revert w1 Hf. induction (sprop (decl s)) as [|p l IH]; intros w1 Hf; cbn [each]; [done|].
  apply runs_bind. destruct (pmenu p) as [k|]; [|by apply IH].
  apply IH. apply (frame_trans w w1); [done|]. apply frame_menus, Hf.
Qed.

Lemma runs_renew get put t w :
  busy w -> (forall c, flags (put t c) = flags c /\ def_user (put t c) = def_user c) ->
  (forall c, get c = t -> core (put t c) = core c) ->
  (forall c c', core c' = core c -> core (put t c') = core (put t c)) ->
  runs (renew decl s get put t) w (fun _ w' => goes w w' /\ core (cells w' s) = core (put t (cells w s))).
Proof.
  intros Hb Hput Hsame Hcore. apply runs_bind, runs_look. apply runs_when.
  - intros _. apply runs_bind, runs_change. set (w1 := changed s (put t) w).
    assert (goes w w1) as Hg.
    { apply goes_change; [done|..]; destruct (Hput (cells w s)) as [Ef Eu].
      - split; [done|by rewrite Ef].
      - rewrite Ef. exact (proj1 Hb). }
    eapply runs_mono; [apply runs_set_changed, Hg|]. intros _ w' [Hg' E].
    split; [by apply (goes_trans w w1)|]. rewrite E. unfold w1. by rewrite cells_changed.
  - intros E%negb_false_iff%bool_decide_eq_true. split; [by apply frame_refl|]. by rewrite Hsame.
Qed.

Lemma runs_dep e none get put w :
  busy w -> Forall (operand r) (opt_symbols e) ->
  (forall t c, flags (put t c) = flags c /\ def_user (put t c) = def_user c) ->
  (forall c, core (put (get c) c) = core c) ->
  (forall t c c', core c' = core c -> core (put t c') = core (put t c)) ->
  runs (calc_dep decl modules_sym f s e none get put) w (fun _ w' => goes w w' /\
    exists t, core (cells w' s) = core (put t (cells w s)) /\
      fact r w' (fun env => t = spec_dep env m (decl s) e none)).
Proof.
  intros Hb Ho Hput Hsame Hcore.
  assert (runs (match e with None => mret none | Some e => calc_expr decl modules_sym f e end) w
            (fun v w' => frame w w' /\ cells w' s = cells w s /\
               fact r w' (fun env => v = match e with None => none | Some e => calc env m e end))) as He.
  { destruct e as [e|]; [by apply runs_expr|]. split; [by apply frame_refl|]. split; [done|]. by intros env _. }
  eapply runs_step; [exact He|]. intros v w1 (Hf1 & Ec & Hv).
  eapply runs_step; [apply runs_type, Hf1|]. intros ty w' [-> ->].
  set (t := if bool_decide (v = mod_) && _ then yes else v).
  eapply runs_mono; [apply (runs_renew get put t); [apply Hf1|apply Hput| |apply Hcore]|].
  { by intros c <-. }
  intros _ w2 [Hg2 E2]. split; [by apply (goes_trans w w1); [apply Hf1|]|]. exists t.
  split; [by rewrite E2, Ec|]. intros env Ha. unfold t, spec_dep, no_mod.
  by rewrite <- (fact_goes _ _ _ Hg2 Hv env Ha).
Qed.

Lemma used_parts :
  Forall (operand r) (opt_symbols (dir_dep (decl s))) /\
  Forall (operand r) (opt_symbols (rev_dep (decl s))) /\
  Forall (operand r) (opt_symbols (implied (decl s))) /\
  Forall (fun p => Forall (operand r) (used_by p)) (sprop (decl s)).
Proof.
  pose proof (closed s Hs) as H. unfold used in H. rewrite !Forall_app in H.
  destruct H as (H1 & H2 & H3 & H4). do 3 (split; [done|]). clear H1 H2 H3.
  induction (sprop (decl s)) as [|p l IH]; [done|]. cbn in H4. apply Forall_app in H4 as [H4 H5].
  constructor; auto.
Qed.

(** What [sym_calc_visibility] leaves. *)
Definition shown (env : symbol -> symbol_data) (c : cell) : Prop :=
  visible c = spec_visible env m (decl s) /\ dir_tri c = spec_dir env m (decl s) /\
  rev_tri c = spec_rev env m (decl s) /\ implied_tri c = spec_implied env m (decl s).

Lemma core_shown env c c' : core c' = core c -> shown env c -> shown env c'.
Proof. unfold core, shown. intros E. injection E as _ E1 E2 E3 E4. by rewrite E1, E2, E3, E4. Qed.

#[local] Ltac core_eq := unfold core; cbn; intros; match goal with E : _ = _ |- _ => injection E; congruence end.

(** The dependencies, in the order the code calculates them. *)
Definition calc_deps : prog kworld unit :=
  calc_dep decl modules_sym f s (dir_dep (decl s)) yes dir_tri put_dir;;
  calc_dep decl modules_sym f s (rev_dep (decl s)) no rev_tri put_rev;;
  calc_dep decl modules_sym f s (implied (decl s)) no implied_tri put_implied.

Lemma runs_deps w :
  busy w ->
  runs calc_deps w (fun _ w' => goes w w' /\ curr (cells w' s) = curr (cells w s) /\
    visible (cells w' s) = visible (cells w s) /\
    fact r w' (fun env => dir_tri (cells w' s) = spec_dir env m (decl s) /\
      rev_tri (cells w' s) = spec_rev env m (decl s) /\ implied_tri (cells w' s) = spec_implied env m (decl s))).
Proof.
  intros Hb. destruct used_parts as (U1 & U2 & U3 & _). unfold calc_deps.
  eapply runs_step; [apply runs_dep; [done|done|done|done|core_eq]|]. intros _ w3 (Hg3 & d & E3 & Hd).
  eapply runs_step; [apply runs_dep; [apply Hg3|done|done|done|core_eq]|]. intros _ w4 (Hg4 & rv & E4 & Hr).
  eapply runs_mono; [apply runs_dep; [apply Hg4|done|done|done|core_eq]|]. intros _ w5 (Hg5 & i & E5 & Hi).
  pose proof (goes_trans _ _ _ Hg4 Hg5) as Hg45. split; [by apply (goes_trans w w3)|].
  unfold core in *. cbn in *.
  injection E3 as H1 H2 H3 H4 H5. injection E4 as I1 I2 I3 I4 I5. injection E5 as J1 J2 J3 J4 J5.
  split; [congruence|]. split; [congruence|]. intros env Ha.
  assert (dir_tri (cells w5 s) = d) as -> by congruence. assert (rev_tri (cells w5 s) = rv) as -> by congruence.
  rewrite J5. split; [exact (fact_goes _ _ _ Hg45 Hd env Ha)|].
  split; [exact (fact_goes _ _ _ Hg5 Hr env Ha)|by apply Hi].
Qed.

Lemma runs_visibility w :
  busy w ->
  runs (sym_calc_visibility decl modules_sym f s) w (fun _ w' => goes w w' /\
    curr (cells w' s) = curr (cells w s) /\ fact r w' (fun env => shown env (cells w' s))).
Proof.
  intros Hb. destruct used_parts as (_ & _ & _ & U4).
  apply runs_bind, runs_look. rewrite (plain_value _ _ _ (busy_plain w Hb)). apply runs_bind, runs_ret.
  eapply runs_step; [by apply runs_prompts|]. intros t w1 [Hf1 Ht]. apply runs_bind.
  change (runs (renew decl s visible put_visible
    (if bool_decide (t = mod_) &&
        (negb (bool_decide (stype (decl s) = S_TRISTATE)) || bool_decide (modules_val w1 = no))
     then yes else t);; calc_deps) w1 (fun _ w' => goes w w' /\
    curr (cells w' s) = curr (cells w s) /\ fact r w' (fun env => shown env (cells w' s)))).
  rewrite (busy_modules w1) by apply Hf1. set (v := if _ && _ then yes else t).
  eapply runs_step; [apply runs_renew; [apply Hf1|done|by intros c <-|core_eq]|]. intros _ w2 [Hg2 E2].
  eapply runs_mono; [apply runs_deps, Hg2|]. intros _ w3 (Hg3 & Ec & Ev & Hd).
  destruct Hf1 as [Hg1 E1]. pose proof (goes_trans _ _ _ Hg2 Hg3) as Hg23.
  split; [by apply (goes_trans w w1)|]. unfold core in *. cbn in *.
  injection E1 as F1 F2 F3 F4 F5. injection E2 as G1 G2 G3 G4 G5.
  split; [congruence|]. intros env Ha. unfold shown. split; [|by apply Hd].
  rewrite Ev, G2. unfold v, spec_visible. by rewrite <- (fact_goes _ _ _ Hg23 Ht env Ha).
Qed.

(** ** The value of a boolean or a tristate *)

Lemma frame_shown w w' env : frame w w' -> shown env (cells w s) -> shown env (cells w' s).
Proof. intros [_ E]. by apply core_shown. Qed.

Lemma fact_shown w w' :
  frame w w' -> fact r w (fun env => shown env (cells w s)) -> fact r w' (fun env => shown env (cells w' s)).
Proof.
  intros Hf Hs' env Ha. apply (frame_shown w w'); [done|]. exact (fact_frame _ _ _ Hf Hs' env Ha).
Qed.

Lemma goes_user w w' :
  goes w w' -> user_tri (cells w' s) = user_tri (cells w s) /\ user_text (cells w' s) = user_text (cells w s).
Proof.
  intros [(_ & Hk & _) _]. unfold user_tri, user_text.
  by rewrite (kept_has SYMBOL_DEF_USER _ _ eq_refl Hk), (proj1 Hk).
Qed.

Lemma runs_default_tri i p w :
  busy w -> Forall (operand r) (prop_symbols p) ->
  fact r w (fun env => prop_tri (cells w s) i = KExprOps.expr_calc_value env m (pvisible p)) ->
  runs (default_tri decl modules_sym f s i p) w (fun v w' => frame w w' /\
    fact r w' (fun env => v = EXPR_AND (prop_value env m p) (KExprOps.expr_calc_value env m (pvisible p)))).
Proof.
  intros Hb Ho Hi. eapply runs_step; [by apply runs_prop_value|]. intros a w1 (Hf1 & Ec & Ha).
  apply runs_bind, runs_look. rewrite Ec. set (b := prop_tri (cells w s) i) in *.
  destruct (tri_num a <? tri_num b) eqn:El.
  - eapply runs_mono; [apply runs_prop_value; [apply Hf1|done]|]. intros a' w2 (Hf2 & _ & Ha').
    split; [by apply (frame_trans w w1)|]. intros env Hag. unfold EXPR_AND.
    rewrite <- (fact_frame _ _ _ Hf2 Ha env Hag), <- (fact_frame _ _ _ Hf2 (fact_frame _ _ _ Hf1 Hi) env Hag).
    rewrite El, (Ha' env Hag). symmetry. exact (fact_frame _ _ _ Hf2 Ha env Hag).
  - apply runs_ret. split; [done|]. intros env Hag. unfold EXPR_AND.
    by rewrite <- (Ha env Hag), <- (fact_frame _ _ _ Hf1 Hi env Hag), El.
Qed.

Lemma runs_default_prop w :
  busy w ->
  runs (sym_get_default_prop decl modules_sym f s) w (fun o w' => frame w w' /\
    fact r w' (fun env => option_map snd o = spec_prop env m P_DEFAULT (sprop (decl s))) /\
    match o with
    | Some (j, p) => Forall (operand r) (prop_symbols p) /\ prop_ok (stype (decl s)) p /\ ptype p = P_DEFAULT /\
        fact r w' (fun env => prop_tri (cells w' s) j = KExprOps.expr_calc_value env m (pvisible p))
    | None => True
    end).
Proof.
  intros Hb. destruct used_parts as (_ & _ & _ & U4).
  eapply runs_mono; [apply runs_first; [done| |done]|].
  { intros p _ E. unfold valued. by rewrite E. }
  intros o w' (Hf & Ho & Hj). split; [done|]. split; [done|]. destruct o as [[j p]|]; [|done].
  destruct Hj as [[Hin Et] Hj]. split; [|split; [|done]].
  - rewrite Forall_forall in U4. apply used_value; [unfold valued; by rewrite Et|by apply U4, list_elem_of_In].
  - pose proof (plain_props _ _ _ (busy_plain w Hb)) as Hp. rewrite Forall_forall in Hp. by apply Hp, list_elem_of_In.
Qed.

(** The value of the default that was found. *)
Lemma runs_given_default o w :
  busy w -> fact r w (fun env => option_map snd o = spec_prop env m P_DEFAULT (sprop (decl s))) ->
  match o with
  | Some (j, p) => Forall (operand r) (prop_symbols p) /\ prop_ok (stype (decl s)) p /\ ptype p = P_DEFAULT /\
      fact r w (fun env => prop_tri (cells w s) j = KExprOps.expr_calc_value env m (pvisible p))
  | None => True
  end ->
  runs (match o with
        | Some (i, p) => set_flag SYMBOL_WRITE s;; default_tri decl modules_sym f s i p
        | None => mret no
        end) w (fun t w' => frame w w' /\ fact r w' (fun env => t =
    match spec_prop env m P_DEFAULT (sprop (decl s)) with
    | Some p => EXPR_AND (prop_value env m p) (KExprOps.expr_calc_value env m (pvisible p))
    | None => no
    end)).
Proof.
  intros Hb Ho Hj. destruct o as [[j p]|].
  - destruct Hj as (Hop & _ & _ & Hj). apply runs_bind, runs_change. set (w3 := changed s _ w).
    assert (frame w w3) as Hf3 by by apply frame_set.
    eapply runs_mono; [apply (runs_default_tri j p); [apply Hf3|done|]|].
    { intros env Ha. unfold w3. rewrite cells_changed. exact (fact_frame _ _ _ Hf3 Hj env Ha). }
    intros v w4 [Hf4 Hv]. pose proof (frame_trans _ _ _ Hf3 Hf4) as Hf34. split; [done|].
    intros env Ha. rewrite (Hv env Ha). by rewrite <- (fact_frame _ _ _ Hf34 Ho env Ha).
  - apply runs_ret. split; [by apply frame_refl|]. intros env Ha. by rewrite <- (Ho env Ha).
Qed.

Lemma runs_tri_default w :
  busy w -> fact r w (fun env => shown env (cells w s)) ->
  runs (tri_default decl modules_sym f s) w (fun v w' => frame w w' /\
    fact r w' (fun env => v = spec_default env m (decl s))).
Proof.
  intros Hb Hsh. apply runs_bind, runs_look.
  eapply (runs_step _ _ _ (fun _ w' => frame w w')).
  { apply runs_when; [intros _; by apply frame_set|intros _; by apply frame_refl]. }
  intros _ w1 Hf1. assert (busy w1) as Hb1 by apply Hf1. apply runs_bind, runs_look.
  rewrite (plain_choice _ _ _ (busy_plain w1 Hb1)).
  eapply runs_step; [by apply runs_default_prop|]. intros o w2 (Hf2 & Ho & Hj).
  eapply runs_step; [by apply (runs_given_default o); [apply Hf2|..]|].
  intros t w3 [Hf3 Ht]. pose proof (frame_trans _ _ _ Hf1 (frame_trans _ _ _ Hf2 Hf3)) as Hf.
  pose proof (fact_shown _ _ Hf Hsh) as Hsh3.
  apply runs_bind, runs_look. apply runs_bind, runs_look.
  set (im := implied_tri (cells w3 s)) in *. set (di := dir_tri (cells w3 s)) in *. case_bool_decide as Ei.
  - apply runs_ret. split; [done|]. intros env Ha. destruct (Hsh3 env Ha) as (_ & _ & _ & E).
    fold im in E. rewrite (Ht env Ha). unfold spec_default. by rewrite <- E, bool_decide_eq_true_2.
  - apply runs_bind, runs_change. set (w4 := changed s _ w3). apply runs_ret.
    assert (frame w3 w4) as Hf4 by by apply frame_set; [apply Hf3|].
    split; [by apply (frame_trans w w3)|]. intros env Ha.
    destruct (fact_frame _ _ _ Hf4 Hsh3 env Ha) as (_ & Ed & _ & E). fold im in E. fold di in Ed.
    rewrite (fact_frame _ _ _ Hf4 Ht env Ha). unfold spec_default.
    by rewrite <- E, <- Ed, bool_decide_eq_false_2.
Qed.

Lemma runs_tri_value w :
  busy w -> fact r w (fun env => shown env (cells w s)) ->
  runs (tri_value decl modules_sym f s) w (fun v w' => frame w w' /\
    fact r w' (fun env => v = spec_tri env m (decl s) (user_tri (cells w' s)))).
Proof.
  intros Hb Hsh. apply runs_bind, runs_look. rewrite (plain_value _ _ _ (busy_plain w Hb)).
  apply runs_bind, runs_look. set (v := visible (cells w s)) in *. rewrite andb_false_l.
  eapply (runs_step _ _ _ (fun q w' => frame w w' /\ fact r w' (fun env => q =
    if bool_decide (spec_dir env m (decl s) = no) && negb (bool_decide (spec_rev env m (decl s) = no)) then no
    else EXPR_OR match user_tri (cells w s) with
                 | Some u => if bool_decide (spec_visible env m (decl s) = no) then spec_default env m (decl s)
                             else EXPR_AND u (spec_visible env m (decl s))
                 | None => spec_default env m (decl s)
                 end (spec_rev env m (decl s))))).
  - apply runs_bind, runs_look. eapply (runs_step _ _ _ (fun t w' => frame w w' /\ fact r w' (fun env => t =
      match user_tri (cells w s) with
      | Some u => if bool_decide (v = no) then spec_default env m (decl s) else EXPR_AND u v
      | None => spec_default env m (decl s)
      end))).
    { unfold user_tri. case_bool_decide as Ev; cbn [negb andb].
      - eapply runs_mono; [by apply runs_tri_default|]. intros t w1 [Hf Ht]. split; [done|].
        by destruct (has SYMBOL_DEF_USER (flags (cells w s))).
      - destruct (has SYMBOL_DEF_USER (flags (cells w s))).
        + apply runs_bind, runs_look, runs_ret. split; [by apply frame_refl|]. by intros env _.
        + eapply runs_mono; [by apply runs_tri_default|]. intros t w1 [Hf Ht]. by split. }
    intros t w1 [Hf1 Ht]. apply runs_bind, runs_look. apply runs_bind, runs_look. apply runs_ret.
    split; [done|]. intros env Ha. destruct (fact_shown _ _ Hf1 Hsh env Ha) as (_ & Ed & Er & _).
    destruct (fact_frame _ _ _ Hf1 Hsh env Ha) as (Ev & _). fold v in Ev.
    by rewrite Ed, Er, (Ht env Ha), Ev.
  - intros q w1 [Hf1 Hq]. eapply runs_step; [apply runs_type, Hf1|]. intros ty w' [-> ->].
    apply runs_ret. split; [done|]. intros env Ha. unfold spec_tri, no_mod.
    rewrite (proj1 (goes_user _ _ (proj1 Hf1))). by rewrite <- (Hq env Ha).
Qed.

(** ** The value of a string or a number *)

(** A default that names a symbol. *)
Lemma runs_named_default p w :
  busy w -> Forall (operand r) (prop_symbols p) -> prop_get_symbol p <> None ->
  runs (o ← defined (prop_get_symbol p);
        match o with
        | None => mret (P_string "")
        | Some ds => set_flag SYMBOL_WRITE s;; f ds;; look ds (fun c => val (curr c))
        end) w (fun v w' => frame w w' /\ exists str, v = P_string str /\
    fact r w' (fun env => str = match prop_get_symbol p with
                                | Some (Some ds) => curr_val (env ds)
                                | _ => EmptyString
                                end)).
Proof.
  intros Hb Ho Hp. destruct (prop_get_symbol p) as [o|] eqn:Eg; [|done]. apply runs_bind.
  change (runs match o with
        | None => mret (P_string "")
        | Some ds => set_flag SYMBOL_WRITE s;; f ds;; look ds (fun c => val (curr c))
        end w (fun v w' => frame w w' /\ exists str, v = P_string str /\
    fact r w' (fun env => str = match o with Some ds => curr_val (env ds) | _ => EmptyString end))).
  destruct o as [ds|].
  - assert (operand r ds) as Hds.
    { unfold prop_get_symbol in Eg. unfold prop_symbols in Ho.
      destruct (pexpr p) as [[[]|[]|]|]; try discriminate. injection Eg as ->. by apply Forall_cons_1 in Ho as [? _]. }
    apply runs_bind, runs_change. set (w1 := changed s _ w).
    assert (frame w w1) as Hf1 by by apply frame_set. assert (busy w1) as Hb1 by apply Hf1.
    eapply runs_step; [by apply runs_operand; [..|apply Hb1|]|]. intros [] w2 [Hst Hv].
    destruct (frame_step w1 w2 Hb1 Hst) as [Hf2 _]. apply runs_look.
    destruct (operand_text r w2 ds (proj2 (proj2 (proj1 Hf2))) Hds Hv) as [str E].
    split; [by apply (frame_trans w w1)|]. exists str. split; [done|]. intros env Ha.
    rewrite (Ha ds Hds Hv). cbn. by rewrite E.
  - apply runs_ret. split; [by apply frame_refl|]. exists EmptyString. split; [done|]. by intros env _.
Qed.

Lemma runs_string_default w :
  busy w -> stype (decl s) <> S_BOOLEAN -> stype (decl s) <> S_TRISTATE ->
  fact r w (fun env => shown env (cells w s)) ->
  runs (string_default decl modules_sym f s) w (fun v w' => frame w w' /\ exists str, v = P_string str /\
    fact r w' (fun env => str = spec_text env m (decl s) (user_text (cells w' s)))).
Proof.
  intros Hb Hn1 Hn2 Hsh. apply runs_bind, runs_look. set (v := visible (cells w s)) in *.
  apply runs_bind, runs_look. destruct (negb (bool_decide (v = no)) && has SYMBOL_DEF_USER (flags (cells w s))) eqn:Eu.
  - apply andb_true_iff in Eu as [Ev Eu]. apply runs_look. split; [by apply frame_refl|].
    assert (user_text (cells w s) = Some (pointer_text (val (def_user (cells w s))))) as Ex
      by (unfold user_text; by rewrite Eu).
    destruct (plain_user _ _ _ (busy_plain w Hb)) as [str Estr]; [by rewrite Ex|done|done|].
    exists str. split; [done|]. intros env Ha. unfold spec_text. rewrite Ex, Estr. cbn.
    destruct (Hsh env Ha) as (<- & _). fold v. by destruct (bool_decide (v = no)).
  - eapply runs_step; [by apply runs_default_prop|]. intros o w1 (Hf1 & Ho & Hj).
    eapply (runs_mono _ _ (fun q w' => frame w1 w' /\ exists str, q = P_string str /\ fact r w' (fun env =>
      str = match spec_prop env m P_DEFAULT (sprop (decl s)) with
            | Some p => match prop_get_symbol p with
                        | Some (Some ds) => curr_val (env ds)
                        | _ => EmptyString
                        end
            | None => EmptyString
            end))).
    { destruct o as [[j p]|].
      - destruct Hj as (Hop & (_ & Hok) & Et & _). eapply runs_mono.
        { apply (runs_named_default p w1); [apply Hf1|done|by apply Hok]. }
        intros q w2 (Hf2 & str & Eq & Hq). split; [done|]. exists str. split; [done|]. intros env Ha.
        rewrite (Hq env Ha). by rewrite <- (fact_frame _ _ _ Hf2 Ho env Ha).
      - apply runs_ret. split; [apply frame_refl, Hf1|]. exists EmptyString. split; [done|].
        intros env Ha. by rewrite <- (Ho env Ha). }
    intros q w2 (Hf2 & str & Eq & Hq). pose proof (frame_trans _ _ _ Hf1 Hf2) as Hf.
    split; [done|]. exists str. split; [done|]. intros env Ha. rewrite (Hq env Ha). unfold spec_text.
    rewrite (proj2 (goes_user _ _ (proj1 Hf))). destruct (fact_frame _ _ _ Hf Hsh env Ha) as (<- & _). fold v.
    unfold user_text. destruct (bool_decide (v = no)), (has SYMBOL_DEF_USER (flags (cells w s))); done.
Qed.

(** A bound of a range. *)
Lemma runs_bound w t base :
  busy w -> operand r t ->
  runs (sym_get_range_val decl f t base) w (fun v w' => frame w w' /\ cells w' s = cells w s /\
    valid w' t = true /\ fact r w' (fun env => v = number (type (env t)) base (curr_val (env t)))).
Proof.
  intros Hb Ho. eapply runs_step; [by apply runs_operand; [..|apply Hb|]|]. intros [] w1 [Hst Hv].
  destruct (frame_step w w1 Hb Hst) as [Hf Ec]. apply runs_bind, runs_look.
  destruct (operand_text r w1 t (proj2 (proj2 (proj1 Hf))) Ho Hv) as [str E]. rewrite E.
  apply runs_bind. change (runs (mret (strtoll str (range_base decl t base)).1.1) w1 (fun v w' =>
    frame w w' /\ cells w' s = cells w s /\ valid w' t = true /\
    fact r w' (fun env => v = number (type (env t)) base (curr_val (env t))))).
  apply runs_ret. do 3 (split; [done|]). intros env Ha. rewrite (Ha t Ho Hv). cbn. by rewrite E.
Qed.

(** The new text of the symbol. *)
Definition retext (str : string) (c : cell) : cell := put_curr (SymbolValue (P_string str) (tri (curr c))) c.

Lemma goes_retext str w : busy w -> goes w (changed s (retext str) w).
Proof. intros Hb. by apply goes_change; [|..|exact (proj1 Hb)]. Qed.

Lemma runs_copy w t :
  busy w -> operand r t -> valid w t = true ->
  runs (copy_val s t) w (fun _ w' => goes w w' /\ exists str,
    core (cells w' s) = core (retext str (cells w s)) /\ fact r w' (fun env => str = curr_val (env t))).
Proof.
  intros Hb Ho Hv. destruct (operand_text r w t (proj2 Hb) Ho Hv) as [str E].
  apply runs_bind, runs_look. rewrite E. apply runs_change. fold (retext str).
  pose proof (goes_retext str w Hb) as Hg. split; [done|]. exists str. rewrite cells_changed.
  split; [done|]. apply (fact_goes w); [done|]. intros env Ha. rewrite (Ha t Ho Hv). cbn. by rewrite E.
Qed.

Lemma retext_same str c : val (curr c) = P_string str -> core (retext str c) = core c.
Proof. unfold core, retext. cbn. intros <-. by destruct (curr c). Qed.

(** A number against the two bounds. *)
Definition clamp (env : symbol -> symbol_data) (base : Z) (lo hi : symbol) (str : string) : string :=
  let bound t := number (type (env t)) base (curr_val (env t)) in
  let v := (strtoll str base).1.1 in
  if v <? bound lo then curr_val (env lo) else if bound hi <? v then curr_val (env hi) else str.

Lemma runs_clamp w str lo hi base :
  busy w -> val (curr (cells w s)) = P_string str -> operand r lo -> operand r hi ->
  runs (val2 ← sym_get_range_val decl f lo base;
        if val2 <=? (strtoll str base).1.1 then
          val2 ← sym_get_range_val decl f hi base;
          if (strtoll str base).1.1 <=? val2 then mret tt else copy_val s hi
        else copy_val s lo) w (fun _ w' => goes w w' /\ exists str',
    core (cells w' s) = core (retext str' (cells w s)) /\
    fact r w' (fun env => str' = clamp env base lo hi str)).
Proof.
  intros Hb Hstr Hlo Hhi. set (v := (strtoll str base).1.1).
  eapply runs_step; [by apply runs_bound|]. intros a w1 (Hf1 & E1 & Hv1 & Ha1).
  destruct (Z.leb_spec a v) as [Hle|Hlt].
  - eapply runs_step; [apply runs_bound; [apply Hf1|exact Hhi]|]. intros b w2 (Hf2 & E2 & Hv2 & Ha2).
    pose proof (frame_trans _ _ _ Hf1 Hf2) as Hf.
    assert (forall w' env, goes w2 w' -> agree decl D rank r w' env ->
              (v <? number (type (env lo)) base (curr_val (env lo))) = false /\
              (number (type (env hi)) base (curr_val (env hi)) <? v) = negb (v <=? b)) as Hcmp.
    { intros w' env Hg Ha. rewrite <- (fact_goes _ _ _ Hg Ha2 env Ha).
      rewrite <- (fact_goes _ _ _ Hg (fact_frame _ _ _ Hf2 Ha1) env Ha). lia. }
    destruct (v <=? b) eqn:Eb.
    + apply runs_ret. split; [apply Hf|]. exists str. rewrite E2, E1. split; [by rewrite retext_same|].
      intros env Ha. unfold clamp. fold v.
      destruct (Hcmp w2 env) as [-> ->]; [split; [apply own_refl|apply Hf2]|done|done].
    + eapply runs_mono; [apply runs_copy; [apply Hf2|done|done]|]. intros [] w3 (Hg3 & str' & Ec & Hc).
      split; [by apply (goes_trans w w2); [apply Hf|]|]. exists str'. split; [by rewrite Ec, E2, E1|].
      intros env Ha. unfold clamp. fold v. destruct (Hcmp w3 env Hg3 Ha) as [-> ->]. by apply Hc.
  - eapply runs_mono; [apply runs_copy; [apply Hf1|done|done]|]. intros [] w3 (Hg3 & str' & Ec & Hc).
    split; [by apply (goes_trans w w1); [apply Hf1|]|]. exists str'. split; [by rewrite Ec, E1|].
    intros env Ha. unfold clamp. fold v. rewrite <- (fact_goes _ _ _ Hg3 Ha1 env Ha).
    destruct (Z.ltb_spec v a); [by apply Hc|lia].
Qed.

Lemma runs_validate w str :
  busy w -> val (curr (cells w s)) = P_string str ->
  runs (sym_validate_range decl modules_sym f s) w (fun _ w' => goes w w' /\ exists str',
    core (cells w' s) = core (retext str' (cells w s)) /\
    fact r w' (fun env => str' = spec_range env m (decl s) str)).
Proof.
  intros Hb Hstr. unfold sym_validate_range, spec_range.
  destruct (is_number (stype (decl s))) eqn:En; cbn [negb];
    [|split; [by apply frame_refl|]; exists str; split; [by rewrite retext_same|by intros env _]].
  destruct used_parts as (_ & _ & _ & U4).
  eapply runs_step; [apply runs_first; [done| |done]|].
  { intros p _ E. unfold valued. rewrite E. by rewrite orb_true_r. }
  intros o w1 (Hf1 & Ho & Hj). assert (core (cells w1 s) = core (cells w s)) as E1 by apply Hf1.
  assert (val (curr (cells w1 s)) = P_string str) as Hstr1 by (unfold core in E1; injection E1 as ->; done).
  destruct o as [[j p]|].
  2:{ split; [apply Hf1|]. exists str. split; [by rewrite retext_same|].
      intros env Ha. by rewrite <- (Ho env Ha). }
  destruct Hj as [[Hin Et] _]. apply list_elem_of_In in Hin.
  pose proof (plain_props _ _ _ (busy_plain w Hb)) as Hpr. rewrite Forall_forall in Hpr, U4.
  destruct (proj1 (Hpr p Hin) Et En) as (lo & hi & Ep).
  assert (Forall (operand r) [lo; hi]) as [Hlo [Hhi _]%Forall_cons_1]%Forall_cons_1.
  { assert (Forall (operand r) (prop_symbols p)) as H; [|unfold prop_symbols in H; by rewrite Ep in H].
    apply used_value; [unfold valued; by rewrite Et, orb_true_r|by apply U4]. }
  apply runs_bind, runs_look. rewrite Hstr1. unfold range_syms. rewrite Ep.
  eapply runs_mono; [apply (runs_clamp w1 str lo hi (range_base decl s 0)); [apply Hf1|done..]|].
  intros [] w2 (Hg2 & str' & Ec & Hc). split; [by apply (goes_trans w w1); [apply Hf1|]|]. exists str'.
  split.
  - rewrite Ec. unfold core, retext in *. cbn. injection E1 as -> -> -> -> ->. done.
  - intros env Ha. rewrite (Hc env Ha). rewrite <- (fact_goes _ _ _ Hg2 Ho env Ha). cbn. rewrite Ep.
    unfold clamp, number, range_base. by destruct (stype (decl s)).
Qed.

(** ** The whole calculation *)

(** The new value, before the range is applied. *)
Definition raw_value (env : symbol -> symbol_data) (c : cell) : symbol_value :=
  match stype (decl s) with
  | S_BOOLEAN | S_TRISTATE => SymbolValue (P_string "n") (spec_tri env m (decl s) (user_tri c))
  | _ => SymbolValue (P_string (spec_text env m (decl s) (user_text c))) no
  end.

Lemma runs_new_value w :
  busy w -> fact r w (fun env => shown env (cells w s)) ->
  runs (new_value decl modules_sym f s) w (fun v w' => frame w w' /\
    (exists str, val v = P_string str) /\ fact r w' (fun env => v = raw_value env (cells w' s))).
Proof.
  intros Hb Hsh. unfold new_value, raw_value.
  assert (stype (decl s) <> S_BOOLEAN -> stype (decl s) <> S_TRISTATE ->
          runs (p ← string_default decl modules_sym f s; mret (SymbolValue p no)) w (fun v w' => frame w w' /\
            (exists str, val v = P_string str) /\
            fact r w' (fun env => v = SymbolValue (P_string (spec_text env m (decl s) (user_text (cells w' s)))) no)))
    as Htext.
  { intros Hn1 Hn2. eapply runs_step; [by apply runs_string_default|]. intros q w1 (Hf & str & -> & Hq).
    apply runs_ret. split; [done|]. split; [by exists str|]. intros env Ha. by rewrite <- (Hq env Ha). }
  assert (runs (t ← tri_value decl modules_sym f s; mret (SymbolValue (P_string "n") t)) w (fun v w' => frame w w' /\
            (exists str, val v = P_string str) /\
            fact r w' (fun env => v = SymbolValue (P_string "n") (spec_tri env m (decl s) (user_tri (cells w' s))))))
    as Htri.
  { eapply runs_step; [by apply runs_tri_value|]. intros q w1 (Hf & Hq).
    apply runs_ret. split; [done|]. split; [by eexists|]. intros env Ha. by rewrite <- (Hq env Ha). }
  destruct (stype (decl s)); try exact Htri; by apply Htext.
Qed.

Lemma runs_note old w :
  s <> modules_sym -> busy w -> runs (note_change decl all_symbols modules_sym memcmp_value s old) w (fun _ w' => frame w w').
Proof.
  intros Hmod Hb. apply runs_bind, runs_look. apply runs_when; [|intros _; by apply frame_refl]. intros _.
  eapply runs_step; [by apply runs_set_changed|]. intros [] w1 Hf. rewrite bool_decide_eq_false_2; done.
Qed.

Lemma core_solves env d c c' : kept c c' -> core c' = core c -> solves env m d c -> solves env m d c'.
Proof.
  intros Hk E. unfold solves, spec_value, user_tri, user_text.
  rewrite (kept_has SYMBOL_DEF_USER _ _ eq_refl Hk), (proj1 Hk).
  unfold core in E. by injection E as -> -> -> -> ->.
Qed.

Lemma frame_solves w w' env :
  frame w w' -> solves env m (decl s) (cells w s) -> solves env m (decl s) (cells w' s).
Proof. intros [Hg E]. apply core_solves; [apply Hg|done]. Qed.

(** The end of [calc_known]. *)
Definition finish (old : symbol_value) : prog kworld unit :=
  note_change decl all_symbols modules_sym memcmp_value s old;;
  choice ← sym_is_choice s;
  when choice (pass_flags decl s);;
  nw ← test_flag SYMBOL_NO_WRITE s;
  when nw (clear_flag SYMBOL_WRITE s);;
  need ← test_flag SYMBOL_NEED_SET_CHOICE_VALUES s;
  when need (set_all_choice_values decl s).

Lemma runs_finish old w : s <> modules_sym -> busy w -> runs (finish old) w (fun _ w' => frame w w').
Proof.
  intros Hmod Hb. eapply runs_step; [by apply runs_note|]. intros [] w2 Hf2. assert (busy w2) as Hb2 by apply Hf2.
  apply runs_bind, runs_look. rewrite (plain_choice _ _ _ (busy_plain w2 Hb2)). apply runs_bind.
  apply runs_when; [done|]. intros _. apply runs_bind, runs_look.
  eapply (runs_step _ _ _ (fun _ w' => frame w2 w')).
  { apply runs_when; intros _; [by apply frame_clear|by apply frame_refl]. }
  intros [] w3 Hf3. assert (busy w3) as Hb3 by apply Hf3. apply runs_bind, runs_look.
  rewrite (plain_need _ _ _ (busy_plain w3 Hb3)). apply runs_when; [done|]. intros _.
  by apply (frame_trans w w2).
Qed.

Lemma raw_range env c v str :
  v = raw_value env c -> val v = P_string str ->
  SymbolValue (P_string (spec_range env m (decl s) str)) (tri v) = spec_value env m (decl s) c \/
  stype (decl s) = S_UNKNOWN.
Proof.
  unfold raw_value, spec_value, spec_range, is_number. intros -> E. destruct (stype (decl s)); cbn in *; auto;
    injection E as <-; by left.
Qed.

(** All of [calc_known] but its end. *)
Lemma runs_known w Q :
  busy w -> stype (decl s) <> S_UNKNOWN ->
  (forall w', goes w w' -> fact r w' (fun env => solves env m (decl s) (cells w' s)) ->
     runs (finish (curr (cells w s))) w' Q) ->
  runs (calc_known decl all_symbols modules_sym memcmp_value f s) w Q.
Proof.
  intros Hb Hty HQ. apply runs_bind, runs_look. apply runs_bind, runs_change. set (w1 := changed s _ w).
  assert (frame w w1) as Hf1 by by apply frame_clear. assert (busy w1) as Hb1 by apply Hf1.
  eapply runs_step; [by apply runs_visibility|]. intros [] w2 (Hg2 & _ & Hsh2).
  apply runs_bind, runs_look. assert (busy w2) as Hb2 by apply Hg2.
  eapply (runs_step _ _ _ (fun _ w' => frame w2 w')).
  { apply runs_when; intros _; [by apply frame_set|by apply frame_refl]. }
  intros [] w3 Hf3. assert (busy w3) as Hb3 by apply Hf3. pose proof (fact_shown _ _ Hf3 Hsh2) as Hsh3.
  apply runs_bind, runs_change. set (w4 := changed s _ w3).
  assert (goes w3 w4) as Hg4 by (apply goes_change; [done|done|exact (proj1 Hb3)]).
  assert (fact r w4 (fun env => shown env (cells w4 s))) as Hsh4
    by (unfold w4 at 2; rewrite cells_changed; by apply (fact_goes w3)).
  eapply runs_step; [apply runs_new_value; [apply Hg4|done]|]. intros v w5 (Hf5 & [str Estr] & Hv).
  apply runs_bind, runs_change. set (w6 := changed s (put_curr v) w5). assert (busy w5) as Hb5 by apply Hf5.
  assert (goes w5 w6) as Hg6 by (apply goes_change; [done|done|exact (proj1 Hb5)]).
  apply runs_bind, runs_look. rewrite (plain_choice _ _ _ (busy_plain w6 (proj2 Hg6))), andb_false_l.
  apply runs_bind. apply runs_when; [done|]. intros _.
  eapply runs_step; [apply (runs_validate w6 str); [apply Hg6|unfold w6; by rewrite cells_changed]|].
  intros [] w7 (Hg7 & str' & E7 & H7).
  pose proof (goes_trans _ _ _ Hg6 Hg7) as Hg67. pose proof (goes_trans _ _ _ (proj1 Hf5) Hg67) as Hg57.
  apply HQ.
  { apply (goes_trans w w1); [apply Hf1|]. apply (goes_trans w1 w2); [done|].
    apply (goes_trans w2 w3); [apply Hf3|]. by apply (goes_trans w3 w4). }
  intros env Ha. unfold w6 in E7. rewrite cells_changed in E7. unfold core, retext in E7. cbn in E7.
  injection E7 as Ec Evis Edir Erev Eimp. unfold solves. split.
  - rewrite Ec, (H7 env Ha).
    destruct (raw_range env (cells w5 s) v str (fact_goes _ _ _ Hg67 Hv env Ha) Estr) as [E|]; [|done].
    rewrite E. unfold spec_value. destruct (goes_user _ _ Hg67) as [-> ->]. done.
  - intros _. pose proof (fact_shown _ _ Hf5 Hsh4) as Hsh5.
    rewrite Evis, Edir, Erev, Eimp. exact (fact_goes _ _ _ Hg67 Hsh5 env Ha).
Qed.

(** The guards of [sym_calc_value]. *)
Lemma runs_guards w Q :
  valid w s = false -> inv r w ->
  (forall w1, own s w w1 -> busy w1 -> curr (cells w1 s) = curr (cells w s) ->
     runs match stype (decl s) with
          | S_UNKNOWN =>
              change s (put_curr (SymbolValue (from_option P_string NULL (sname (decl s))) no))
          | _ => calc_known decl all_symbols modules_sym memcmp_value f s
          end w1 Q) ->
  runs (calc_body decl all_symbols modules_sym memcmp_value f s) w Q.
Proof.
  intros Hv Hi HQ. pose proof (good_plain _ _ _ _ (inv_good _ _ _ _ _ _ _ Hi) s Hs) as Hp.
  apply runs_bind, runs_look. unfold valid in Hv. rewrite Hv.
  apply runs_bind, runs_look. rewrite (plain_value _ _ _ Hp). apply runs_bind, runs_look. rewrite andb_false_l.
  apply runs_bind. apply runs_when; [done|]. intros _. apply runs_bind, runs_change.
  set (w1 := changed s _ w).
  assert (own s w w1) as Ho1.
  { split; [done|]. unfold w1, valid. rewrite cells_changed. split; [split; [done|by apply ldiff_with]|].
    split; [intros _; cbn; by rewrite has_with, orb_true_r|].
    intros t Ht. left. by apply cells_changed_ne. }
  apply HQ; [done| |unfold w1; by rewrite cells_changed].
  split; [|by apply (inv_own s w)]. unfold valid, w1. rewrite cells_changed. cbn.
  by rewrite has_with, orb_true_r.
Qed.

Lemma runs_body w :
  s <> modules_sym -> valid w s = false -> inv r w ->
  runs (calc_body decl all_symbols modules_sym memcmp_value f s) w (fun _ w' =>
    step (S r) w w' /\ valid w' s = true).
Proof.
  intros Hmod Hv Hi. apply runs_guards; [done|done|]. intros w1 Ho1 Hb1 _.
  eapply (runs_mono _ _ (fun _ w' => goes w1 w' /\ fact r w' (fun env => solves env m (decl s) (cells w' s)))).
  { assert (stype (decl s) <> S_UNKNOWN ->
            runs (calc_known decl all_symbols modules_sym memcmp_value f s) w1 (fun _ w' =>
              goes w1 w' /\ fact r w' (fun env => solves env m (decl s) (cells w' s)))) as Hk.
    { intros Hty. apply runs_known; [done|done|]. intros w2 Hg2 Hsol.
      eapply runs_mono; [apply runs_finish; [done|apply Hg2]|]. intros [] w3 Hf3.
      split; [by apply (goes_trans w1 w2); [|apply Hf3]|]. intros env Ha.
      exact (frame_solves w2 w3 env Hf3 (fact_frame _ _ _ Hf3 Hsol env Ha)). }
    destruct (stype (decl s)) eqn:Et; try (by apply Hk).
    apply runs_change. set (w2 := changed s _ w1).
    assert (goes w1 w2) as Hg2 by (apply goes_change; [done|done|exact (proj1 Hb1)]).
    split; [done|]. intros env _. unfold solves, spec_value, w2. rewrite cells_changed, Et. cbn. done. }
  intros [] w2 [[Ho2 [Hv2 Hi2]] Hsol]. split; [|done].
  pose proof (own_trans _ _ _ _ D_constant s w w1 w2 Hs Ho1 Ho2) as (Em & Hk & _ & Ht).
  split; [done|]. intros t. destruct (decide (t = s)) as [->|Hne].
  - right. split; [exact Hv|]. split; [done|]. split; [lia|]. split; [by split|done].
  - destruct (Ht t Hne) as [E|(Hvt & Hd & Hr & Hset & Hkt)]; [by left|right].
    split; [done|]. split; [done|]. split; [lia|done].
Qed.
End Owner.

Lemma calc_valid n t w :
  (0 < n)%nat -> valid w t = true -> sym_calc_value decl all_symbols modules_sym memcmp_value n t w = Ret tt w.
Proof.
  clear D_constant closed constant_type rank_modules. intros Hn Hv. destruct n as [|n]; [lia|]. cbn [sym_calc_value]. unfold valid in Hv.
  unfold calc_body, test_flag, look, mbind, prog_bind, get_st. cbn. by rewrite Hv.
Qed.

(** The fixpoint, with a fuel above the rank. *)
Lemma runs_value n t w :
  D t -> (S (rank t) < n)%nat -> inv (S (rank t)) w ->
  runs (sym_calc_value decl all_symbols modules_sym memcmp_value n t) w (fun _ w' =>
    step (S (rank t)) w w' /\ valid w' t = true).
Proof.
  revert t w. induction n as [|n IH]; intros t w Ht Hn Hi; [lia|]. cbn [sym_calc_value].
  destruct (valid w t) eqn:Ev.
  { apply runs_bind, runs_look. unfold valid in Ev. rewrite Ev. split; [apply step_refl|done]. }
  apply runs_body; [done| | | |done|].
  - intros u w' Hv. apply calc_valid; [lia|done].
  - intros u w' Hu Hr Hiu. apply IH; [done|lia|done].
  - intros ->. destruct (inv_modules _ _ _ _ _ _ _ Hi) as [Hv _]; [lia|]. by rewrite Hv in Ev.
  - destruct (decide (rank t = 0%nat)) as [E|]; apply (inv_below (S (rank t))); try lia; done.
Qed.
End Calc.
