(* ===== verification/KSymOrder.v ===== *)
(** * The values of Kconfig symbols are well defined

    Symbols that are ordered by what they use have one value each, which
    [sym_calc_value] finds, in whatever order the symbols are calculated. *)

From Stdlib Require Import ZArith Lia String Ascii.
From stdpp Require Import base list strings numbers option.
From S2P Require Import Prelude CString KExpr KExprOps KExprProofs KSym KSymSpec KSymFacts KSymCalc.

(** ** Ordered configurations and consistent states *)

Section Definitions.
Context (decl : symbol -> declaration) (modules_sym : symbol) (D : symbol -> Prop) (rank : symbol -> nat).

(** What [sym_check_deps] is for: a symbol comes after those it uses; [MODULES] is a
    boolean that uses constants only. *)
Record ordered : Prop := {
  ordered_constant : forall s, D s -> constant s = false;
  ordered_used : forall s, D s -> Forall (operand D rank (rank s)) (used (decl s));
  ordered_type : forall s, constant s = true -> stype (decl s) = S_UNKNOWN;
  ordered_modules : D modules_sym /\ rank modules_sym = 0%nat /\ stype (decl modules_sym) = S_BOOLEAN
}.

(** Everything that counts as calculated is what it should be. *)
Record consistent (m : tristate) (w : kworld) : Prop := {
  consistent_good : good decl D m w;
  consistent_modules : valid w modules_sym = true /\ modules_tri modules_sym w = m;
  consistent_settled : forall t, D t -> valid w t = true -> settled decl D rank m w t
}.

(** The same input from the user. *)
Definition same_input (w w' : kworld) (t : symbol) : Prop := kept (cells w t) (cells w' t).

(** The same result. *)
Definition same_value (c c' : cell) : Prop :=
  curr c' = curr c /\ visible c' = visible c /\ dir_tri c' = dir_tri c /\ rev_tri c' = rev_tri c /\
  implied_tri c' = implied_tri c.
End Definitions.

Section Order.
Context (decl : symbol -> declaration) (all_symbols : list symbol) (modules_sym : symbol)
  (memcmp_value : symbol_value -> symbol_value -> bool).
Context (D : symbol -> Prop) (rank : symbol -> nat) (m : tristate).
Context (ok : ordered decl modules_sym D rank).

#[local] Abbreviation inv := (inv decl modules_sym D rank m).
#[local] Abbreviation consistent := (consistent decl modules_sym D rank m).
#[local] Abbreviation settled := (settled decl D rank m).
#[local] Abbreviation calc := (sym_calc_value decl all_symbols modules_sym memcmp_value).

Lemma consistent_inv w : consistent w <-> forall r, inv r w.
Proof.
  split.
  - intros [H1 H2 H3] r. split; [done|by intros _|]. intros t Ht _. by apply H3.
  - intros H. split; [apply (H 0%nat)|by apply (H 1%nat); lia|].
    intros t Ht Hv. apply (H (S (rank t))); [done|lia|done].
Qed.

(** A calculated symbol solves its equations in the state itself. *)
Lemma settled_solves w t : settled w t -> solves (env_of decl w) m (decl t) (cells w t).
Proof. intros [_ H]. apply H. by intros u _ _. Qed.

(** What one calculation does. *)
Lemma runs_calc_value n s w :
  consistent w -> D s -> (S (rank s) < n)%nat ->
  runs (calc n s) w (fun _ w' => consistent w' /\ valid w' s = true /\
    (forall t, valid w t = true -> valid w' t = true /\ cells w' t = cells w t) /\
    (forall t, same_input w w' t)).
Proof.
  intros Hc Hs Hn. eapply runs_mono.
  - destruct ok as [H1 H2 H3 (H4 & H5 & H6)].
    apply (runs_value decl all_symbols modules_sym memcmp_value D rank m); auto. by apply consistent_inv.
  - intros [] w' [Hst Hv]. split.
    { apply consistent_inv. intros r.
      apply (inv_step _ _ _ _ _ r (S (rank s)) w); [done|]. by apply consistent_inv. }
    split; [done|]. split.
    + intros t Ht. by apply (step_valid _ _ _ _ _ _ _ _ Hst).
    + intros t. destruct (proj2 Hst t) as [E|(_ & _ & _ & _ & Hk)]; [by red; rewrite E|done].
Qed.

(** Several calculations. *)
Lemma runs_calc_values n l w :
  consistent w -> Forall (fun s => D s /\ (S (rank s) < n)%nat) l ->
  runs (each l (calc n)) w (fun _ w' => consistent w' /\ Forall (fun s => valid w' s = true) l /\
    (forall t, valid w t = true -> valid w' t = true /\ cells w' t = cells w t) /\
    (forall t, same_input w w' t)).
Proof.
  intros Hc Hl. revert w Hc. induction Hl as [|s l [Hs Hn] Hl IH]; intros w Hc; cbn [each].
  { split; [done|]. split; [constructor|]. split; [by auto|]. intros t. apply kept_refl. }
  eapply runs_step; [by apply runs_calc_value|]. intros [] w1 (Hc1 & Hv1 & Hs1 & Hk1).
  eapply runs_mono; [by apply IH|]. intros [] w2 (Hc2 & Hv2 & Hs2 & Hk2).
  split; [done|]. split; [constructor; [by apply Hs2|done]|]. split.
  - intros t Ht. destruct (Hs1 t Ht) as [Ht1 <-]. by apply Hs2.
  - intros t. apply (kept_trans _ (cells w1 t)); [apply Hk1|apply Hk2].
Qed.

(** ** Uniqueness *)

(** Where a symbol is calculated in the first state, its value there. *)
Definition both (w1 w2 : kworld) (u : symbol) : symbol_data :=
  if valid w1 u then env_of decl w1 u else env_of decl w2 u.

Lemma env_same w1 w2 u : same_input w1 w2 u -> curr (cells w2 u) = curr (cells w1 u) -> env_of decl w2 u = env_of decl w1 u.
Proof. intros Hk E. unfold env_of. by rewrite E, (kept_has SYMBOL_CONST _ _ eq_refl Hk). Qed.

Lemma solves_same env d w1 w2 t :
  stype d <> S_UNKNOWN -> same_input w1 w2 t ->
  solves env m d (cells w1 t) -> solves env m d (cells w2 t) -> same_value (cells w1 t) (cells w2 t).
Proof.
  intros Hty Hk [E1 H1] [E2 H2]. destruct (H1 Hty) as (? & ? & ? & ?), (H2 Hty) as (? & ? & ? & ?).
  split; [|by split_and!; congruence]. rewrite E1, E2. unfold spec_value, user_tri, user_text.
  by rewrite (kept_has SYMBOL_DEF_USER _ _ eq_refl Hk), (proj1 Hk).
Qed.

Lemma curr_same env d w1 w2 t :
  same_input w1 w2 t -> solves env m d (cells w1 t) -> solves env m d (cells w2 t) ->
  curr (cells w2 t) = curr (cells w1 t).
Proof.
  intros Hk [-> _] [-> _]. unfold spec_value, user_tri, user_text.
  by rewrite (kept_has SYMBOL_DEF_USER _ _ eq_refl Hk), (proj1 Hk).
Qed.

Context (w1 w2 : kworld).
Context (C1 : consistent w1) (C2 : consistent w2)
  (constants : forall t, constant t = true -> cells w2 t = cells w1 t).

Lemma agree_first r : agree decl D rank r w1 (both w1 w2).
Proof. intros u _ Hv. unfold both. by rewrite Hv. Qed.

(** Symbols below [r] have the same input; those calculated in both states agree. *)
Lemma agree_second r :
  (forall u, D u -> (rank u < r)%nat -> valid w1 u = true -> valid w2 u = true ->
     env_of decl w2 u = env_of decl w1 u) ->
  agree decl D rank r w2 (both w1 w2).
Proof.
  intros H u Ho Hv2. unfold both. destruct (valid w1 u) eqn:Hv1; [|done].
  destruct Ho as [Hc|[Hd Hr]]; [unfold env_of; by rewrite (constants u Hc)|]. symmetry. by apply H.
Qed.

Lemma below_same r :
  (forall u, D u -> (rank u < r)%nat -> same_input w1 w2 u) ->
  forall u, D u -> (rank u < r)%nat -> valid w1 u = true -> valid w2 u = true ->
    env_of decl w2 u = env_of decl w1 u.
Proof.
  induction r as [|r IH]; intros Hk u Hu Hr Hv1 Hv2; [lia|].
  assert (agree decl D rank (rank u) w2 (both w1 w2)) as Ha2.
  { apply agree_second. intros v Hv Hrv. apply IH; [|done|lia]. intros x Hx Hxr. apply Hk; [done|lia]. }
  apply env_same; [by apply Hk|]. apply (curr_same (both w1 w2) (decl u)); [by apply Hk|..].
  - apply (consistent_settled _ _ _ _ _ _ C1 u Hu Hv1). apply agree_first.
  - by apply (consistent_settled _ _ _ _ _ _ C2 u Hu Hv2).
Qed.

(** One environment for a symbol in both states. *)
Lemma common s :
  (forall u, D u -> (rank u < rank s)%nat -> same_input w1 w2 u) -> D s -> valid w1 s = true ->
  solves (both w1 w2) m (decl s) (cells w1 s) /\
  (valid w2 s = true -> solves (both w1 w2) m (decl s) (cells w2 s)).
Proof.
  intros Hk Hs Hv1. split.
  - apply (consistent_settled _ _ _ _ _ _ C1 s Hs Hv1). apply agree_first.
  - intros Hv2. apply (consistent_settled _ _ _ _ _ _ C2 s Hs Hv2). apply agree_second. by apply below_same.
Qed.
End Order.

(** Two runs from one state. *)
Lemma calculated_same decl modules_sym D rank m w w1 w2 l1 l2 s :
  consistent decl modules_sym D rank m w ->
  consistent decl modules_sym D rank m w1 /\ Forall (fun s => valid w1 s = true) l1 /\
    (forall t, valid w t = true -> valid w1 t = true /\ cells w1 t = cells w t) /\ (forall t, same_input w w1 t) ->
  consistent decl modules_sym D rank m w2 /\ Forall (fun s => valid w2 s = true) l2 /\
    (forall t, valid w t = true -> valid w2 t = true /\ cells w2 t = cells w t) /\ (forall t, same_input w w2 t) ->
  Forall D l1 -> s ∈ l1 -> s ∈ l2 -> stype (decl s) <> S_UNKNOWN -> same_value (cells w1 s) (cells w2 s).
Proof.
  intros Hw (C1 & V1 & U1 & K1) (C2 & V2 & U2 & K2) Hl1 Hs1 Hs2 Hty. rewrite Forall_forall in V1, V2, Hl1.
  assert (forall t, same_input w1 w2 t) as Hk.
  { intros t. destruct (K1 t) as [E1 F1], (K2 t) as [E2 F2]. split; congruence. }
  assert (forall t, constant t = true -> cells w2 t = cells w1 t) as Hconst.
  { intros t Ht. destruct (good_constant _ _ _ _ (consistent_good _ _ _ _ _ _ Hw) t Ht) as [Hv _].
    destruct (U1 t Hv) as [_ ->], (U2 t Hv) as [_ ->]. done. }
  apply list_elem_of_In in Hs1, Hs2. pose proof (V1 s Hs1) as Hv1. pose proof (V2 s Hs2) as Hv2.
  destruct (common decl modules_sym D rank m w1 w2 C1 C2 Hconst s) as [S1 S2]; [by auto|by apply Hl1|done|].
  apply (solves_same m (both decl w1 w2) (decl s)); auto.
Qed.
