(* ===== verification/KSymSet.v ===== *)
(** * Setting the values of Kconfig symbols

    [sym_clear_all_valid] makes a state consistent, whatever was set before;
    [sym_set_tristate_value] gives a symbol the value it is asked for or changes
    nothing; [sym_toggle_tristate_value] finds the next value that can be set. *)

From Stdlib Require Import ZArith Lia String Ascii.
From stdpp Require Import base list strings numbers option.
From S2P Require Import Prelude CString KExpr KExprOps KExprProofs KSym KSymSpec KSymFacts KSymCalc KSymOrder.

(** ** Flags of many symbols *)

(** Only [volatile] flags of the symbols in [l] differ. *)
Definition refreshed (l : list symbol) (w w' : kworld) : Prop :=
  (forall t, kept (cells w t) (cells w' t) /\ core (cells w' t) = core (cells w t)) /\
  (forall t, t ∉ l -> cells w' t = cells w t).

Definition flagged (l : list symbol) (w w' : kworld) : Prop :=
  modules_val w' = modules_val w /\ refreshed l w w'.

Lemma flagged_refl l w : flagged l w w.
Proof. split; [done|]. split; [|done]. intros t. split; [apply kept_refl|done]. Qed.

Lemma flagged_trans l w1 w2 w3 : flagged l w1 w2 -> flagged l w2 w3 -> flagged l w1 w3.
Proof.
  intros (M1 & K1 & S1) (M2 & K2 & S2). split; [congruence|]. split.
  - intros t. destruct (K1 t), (K2 t). split; [by apply (kept_trans _ (cells w2 t))|congruence].
  - intros t Ht. by rewrite S2, S1.
Qed.

Lemma flagged_weaken l l' w w' : (forall t, t ∈ l -> t ∈ l') -> flagged l w w' -> flagged l' w w'.
Proof. intros H (M & K & S). split; [done|]. split; [done|]. intros t Ht. apply S. auto. Qed.

(** One change of flags. *)
Lemma flagged_change g s w :
  Z.ldiff (g (flags (cells w s))) volatile = Z.ldiff (flags (cells w s)) volatile ->
  flagged [s] w (changed s (put_flags g) w).
Proof.
  intros Hg. split; [done|]. split; intros t; destruct (decide (t = s)) as [->|Hne].
  - rewrite cells_changed. done.
  - rewrite cells_changed_ne by done. split; [apply kept_refl|done].
  - intros []. by left.
  - intros _. by apply cells_changed_ne.
Qed.

(** A loop whose passes change flags. *)
Lemma runs_each_flagged l (p : symbol -> prog kworld unit) w (P : symbol -> kworld -> kworld -> Prop) :
  (forall s w, s ∈ l -> runs (p s) w (fun _ w' => flagged [s] w w' /\ forall t, P t w w')) ->
  (forall t w, P t w w) -> (forall t w1 w2 w3, P t w1 w2 -> P t w2 w3 -> P t w1 w3) ->
  runs (each l p) w (fun _ w' => flagged l w w' /\ forall t, P t w w').
Proof.
  intros Hp Hr Ht. revert w. induction l as [|s l IH]; intros w; cbn [each].
  { split; [apply flagged_refl|]. intros t. apply Hr. }
  eapply runs_step; [apply Hp; by left|]. intros [] w1 [F1 P1].
  eapply runs_mono; [apply IH; intros; apply Hp; by right|]. intros [] w2 [F2 P2]. split.
  - apply (flagged_trans _ w w1); (eapply flagged_weaken; [|eassumption]).
    + intros t Ht'%list_elem_of_singleton. subst t. by left.
    + intros t Ht'. by right.
  - intros t. by apply (Ht t w w1).
Qed.

Lemma flagged_menus w mf cc : flagged [] w (KWorld (cells w) (modules_val w) mf cc).
Proof. split; [done|]. split; [|done]. intros t. split; [apply kept_refl|done]. Qed.

(** Nothing that the calculation reads from elsewhere differs. *)
Definition same_inputs (w w' : kworld) : Prop :=
  (forall t, same_input w w' t) /\ forall t, constant t = true -> cells w' t = cells w t.

Lemma same_inputs_trans w1 w2 w3 : same_inputs w1 w2 -> same_inputs w2 w3 -> same_inputs w1 w3.
Proof.
  intros [K1 S1] [K2 S2]. split; intros t; [apply (kept_trans _ (cells w2 t)); [apply K1|apply K2]|].
  intros Ht. by rewrite S2, S1.
Qed.

Section Set_.
Context (decl : symbol -> declaration) (all_symbols : list symbol) (modules_sym : symbol)
  (memcmp_value : symbol_value -> symbol_value -> bool).
Context (D : symbol -> Prop) (rank : symbol -> nat) (fuel : nat).
(** The symbols with values to calculate are in the hash table, the constants are not;
    equal bytes are equal values. *)
Context (ok : ordered decl modules_sym D rank)
  (all_in : forall t, D t -> t ∈ all_symbols)
  (all_variable : forall t, t ∈ all_symbols -> constant t = false)
  (memcmp_equal : forall a b, memcmp_value a b = true -> tri a = tri b)
  (enough : forall t, D t -> (S (rank t) < fuel)%nat).

#[local] Abbreviation consistent := (consistent decl modules_sym D rank).
#[local] Abbreviation calc_value := (sym_calc_value decl all_symbols modules_sym memcmp_value fuel).

Lemma runs_mark s w :
  runs (sym_set_changed decl s) w (fun _ w' => flagged [s] w w' /\ forall t, valid w' t = valid w t).
Proof.
  apply runs_bind, runs_change. set (w1 := changed s _ w).
  assert (flagged [s] w w1 /\ forall t, valid w1 t = valid w t) as H.
  { split; [by apply flagged_change, ldiff_with|]. intros t. unfold valid, w1.
    destruct (decide (t = s)) as [->|Hne]; [|by rewrite cells_changed_ne].
    rewrite cells_changed. cbn. rewrite has_with. apply orb_false_r. }
  clearbody w1. revert w1 H. induction (sprop (decl s)) as [|p l IH]; intros w1 [F V]; cbn [each]; [done|].
  apply runs_bind. destruct (pmenu p) as [k|]; [|by apply IH]. apply IH. split; [|done].
  apply (flagged_trans _ w w1); [done|]. eapply flagged_weaken; [|apply flagged_menus]. by intros t Ht%not_elem_of_nil.
Qed.

Lemma runs_mark_all w :
  runs (sym_set_all_changed decl all_symbols) w (fun _ w' =>
    flagged all_symbols w w' /\ forall t, valid w' t = valid w t).
Proof.
  apply (runs_each_flagged all_symbols _ w (fun t w w' => valid w' t = valid w t)).
  - intros s w' _. apply runs_mark.
  - done.
  - intros. congruence.
Qed.

Lemma runs_clear_valid w :
  runs (each all_symbols (clear_flag SYMBOL_VALID)) w (fun _ w' => flagged all_symbols w w' /\
    forall t, t ∈ all_symbols -> valid w' t = false).
Proof.
  assert (forall l w, runs (each l (clear_flag SYMBOL_VALID)) w (fun _ w' => flagged l w w' /\
    forall t, valid w' t = true -> t ∉ l)) as H.
  { clear. intros l. induction l as [|s l IH]; intros w; cbn [each].
    { split; [apply flagged_refl|]. intros t _. apply not_elem_of_nil. }
    apply runs_bind, runs_change. set (w1 := changed s _ w).
    assert (flagged [s] w w1) as F1 by by apply flagged_change, ldiff_without.
    assert (forall w l, flagged l w1 w -> valid w s = true -> s ∈ l) as Hs.
    { intros w2 l' (_ & _ & Hsame) Hv. destruct (decide (s ∈ l')) as [|Hn]; [done|].
      unfold valid, w1 in *. rewrite (Hsame s Hn), cells_changed in Hv. cbn in Hv. unfold has, without_flag in Hv.
      apply negb_true_iff, Z.eqb_neq in Hv. destruct Hv. apply Z.bits_inj'. intros i Hi.
      rewrite Z.land_spec, Z.ldiff_spec, Z.bits_0. destruct (Z.testbit _ _), (Z.testbit _ _); done. }
    eapply runs_mono; [apply IH|]. intros [] w2 [F2 V2]. split.
    - apply (flagged_trans _ w w1); (eapply flagged_weaken; [|eassumption]).
      + intros t Ht%list_elem_of_singleton. subst t. by left.
      + intros t Ht. by right.
    - intros t Hv. apply not_elem_of_cons. split; [|by apply V2]. intros ->.
      apply (V2 s Hv). by apply (Hs w2). }
  eapply runs_mono; [apply H|]. intros [] w' [F V]. split; [done|]. intros t Ht.
  destruct (valid w' t) eqn:E; [|done]. by destruct (V t E).
Qed.

(** ** A boolean that uses constants only does not depend on modules *)

Lemma calc_modules env m m' e :
  Forall (fun t => type (env t) = S_UNKNOWN) (expr_symbols e) -> calc env m e = calc env m' e.
Proof.
  induction e as [s|e IH|op l IHl r IHr|rel a b]; cbn [expr_symbols calc]; intros H; [done|by rewrite IH| |].
  - apply Forall_app in H as [H1 H2]. by rewrite IHl, IHr.
  - apply Forall_cons_1 in H as [Ha Hb]. apply Forall_cons_1 in Hb as [Hb _].
    unfold compare_values, KExprOps.sym_get_string_value, type_of. by rewrite Ha, Hb.
Qed.

Lemma condition_modules env m m' e :
  Forall (fun t => type (env t) = S_UNKNOWN) (opt_symbols e) ->
  KExprOps.expr_calc_value env m e = KExprOps.expr_calc_value env m' e.
Proof. destruct e; [apply calc_modules|done]. Qed.

Lemma prompts_modules env m m' l t :
  Forall (fun t => type (env t) = S_UNKNOWN) (flat_map used_by l) ->
  spec_prompts env m l t = spec_prompts env m' l t.
Proof.
  unfold spec_prompts. revert t. induction l as [|p l IH]; intros t H; [done|]. cbn in *.
  apply Forall_app in H as [H1 H2]. rewrite IH by done. destruct (ptext p) as [txt|] eqn:E; [|done].
  do 2 f_equal. apply condition_modules. unfold used_by, conditional in H1.
  rewrite E, bool_decide_eq_true_2 in H1 by by eexists. by apply Forall_app in H1 as [H1 _].
Qed.

Lemma default_modules env m m' l :
  Forall (fun t => type (env t) = S_UNKNOWN) (flat_map used_by l) ->
  let value m := match spec_prop env m P_DEFAULT l with
                 | Some p => EXPR_AND (prop_value env m p) (KExprOps.expr_calc_value env m (pvisible p))
                 | None => no
                 end in value m = value m'.
Proof.
  induction l as [|p l IH]; intros H; [done|]. cbn in *. apply Forall_app in H as [H1 H2].
  case_bool_decide as Et; [|by apply IH]. cbn [andb].
  unfold used_by, conditional, valued in H1. rewrite Et in H1.
  rewrite !(bool_decide_eq_true_2 (P_DEFAULT = P_DEFAULT)) in H1 by done. rewrite orb_true_r in H1. cbn in H1.
  apply Forall_app in H1 as [Hc Hv]. rewrite (condition_modules env m m') by done.
  destruct (negb _); [|by apply IH]. f_equal; [|by apply condition_modules].
  unfold prop_value, prop_symbols in *. destruct (pexpr p) as [[]|]; try done. by apply calc_modules.
Qed.

Lemma solves_modules env m m' d c :
  stype d = S_BOOLEAN -> Forall (fun t => type (env t) = S_UNKNOWN) (used d) ->
  solves env m d c -> solves env m' d c.
Proof.
  intros Et. unfold used. rewrite !Forall_app. intros (H1 & H2 & H3 & H4).
  assert (forall e none, Forall (fun t => type (env t) = S_UNKNOWN) (opt_symbols e) ->
            spec_dep env m d e none = spec_dep env m' d e none) as Hdep.
  { intros e none He. unfold spec_dep, no_mod, type_now. rewrite Et. destruct e; [|done].
    by rewrite (calc_modules env m m'). }
  assert (spec_visible env m d = spec_visible env m' d) as Evis.
  { unfold spec_visible. rewrite (prompts_modules env m m') by done.
    rewrite Et. by change (bool_decide (S_BOOLEAN = S_TRISTATE)) with false. }
  assert (spec_default env m d = spec_default env m' d) as Edef.
  { unfold spec_default, spec_implied, spec_dir. rewrite !Hdep by done.
    pose proof (default_modules env m m' _ H4) as E. cbn in E. by rewrite E. }
  unfold solves, spec_value, spec_tri, spec_dir, spec_rev, spec_implied, no_mod, type_now. rewrite Et.
  by rewrite Evis, Edef, !Hdep.
Qed.

(** ** The calculation of [MODULES] *)

Lemma good_refreshed m w w' :
  modules_val w' = m -> refreshed all_symbols w w' -> good decl D (modules_val w) w -> good decl D m w'.
Proof.
  intros Em [K S] [Hc _ Hp]. split; [|done|].
  - intros t Ht. assert (t ∉ all_symbols) as Hn by (intros Hin; by rewrite (all_variable t Hin) in Ht).
    unfold valid. rewrite (S t Hn). by apply Hc.
  - intros t Ht. apply (plain_kept _ w); [apply K|by apply Hp].
Qed.

Lemma refreshed_inputs w w' : refreshed all_symbols w w' -> same_inputs w w'.
Proof.
  intros [K S]. split; [apply K|]. intros t Ht. apply S. intros Hin. by rewrite (all_variable t Hin) in Ht.
Qed.

(** [MODULES] at the end of its calculation. *)
Lemma runs_finish_modules old w :
  modules_sym ∈ all_symbols -> plain decl w modules_sym ->
  runs (finish decl all_symbols modules_sym memcmp_value modules_sym old) w (fun _ w' =>
    refreshed all_symbols w w' /\ (forall t, valid w' t = valid w t) /\
    modules_val w' = if memcmp_value old (curr (cells w modules_sym)) then modules_val w
                     else tri (curr (cells w modules_sym))).
Proof.
  intros Hin Hp. set (new := curr (cells w modules_sym)).
  assert (forall t, t ∈ [modules_sym] -> t ∈ all_symbols) as Hsub by by intros t ->%list_elem_of_singleton.
  eapply (runs_step _ _ _ (fun _ w' => refreshed all_symbols w w' /\ (forall t, valid w' t = valid w t) /\
    modules_val w' = if memcmp_value old new then modules_val w else tri new)).
  { apply runs_bind, runs_look. fold new. destruct (memcmp_value old new); cbn [negb].
    { split; [apply (flagged_refl all_symbols w)|done]. }
    eapply runs_step; [apply runs_mark|]. intros [] w1 [F1 V1].
    rewrite bool_decide_eq_true_2 by done. eapply runs_step; [apply runs_mark_all|]. intros [] w2 [F2 V2].
    apply runs_bind, runs_look. pose proof (flagged_trans _ _ _ _ (flagged_weaken _ _ _ _ Hsub F1) F2) as (_ & K & S).
    split; [by split|]. split; [intros t; cbn; change (valid w2 t = valid w t); by rewrite V2|].
    cbn. destruct (K modules_sym) as [_ E]. unfold core in E. by injection E as -> _ _ _ _. }
  intros [] w1 (R1 & V1 & M1). pose proof (plain_kept _ _ _ _ (proj1 (proj1 R1 modules_sym)) Hp) as Hp1.
  apply runs_bind, runs_look. rewrite (plain_choice _ _ _ Hp1). apply runs_bind, runs_when; [done|]. intros _.
  apply runs_bind, runs_look.
  eapply (runs_step _ _ _ (fun _ w' => flagged [modules_sym] w1 w' /\ forall t, valid w' t = valid w1 t)).
  { apply runs_when; intros _; [|split; [apply flagged_refl|done]]. apply runs_change.
    split; [by apply flagged_change, ldiff_without|]. intros t. unfold valid.
    destruct (decide (t = modules_sym)) as [->|Hne]; [|by rewrite cells_changed_ne].
    rewrite cells_changed. by apply has_without. }
  intros [] w2 [F2 V2]. apply runs_bind, runs_look.
  pose proof (plain_kept _ _ _ _ (proj1 (proj1 (proj2 F2) modules_sym)) Hp1) as Hp2.
  rewrite (plain_need _ _ _ Hp2). apply runs_when; [done|]. intros _.
  assert (flagged all_symbols w1 w2) as F2' by by eapply flagged_weaken.
  split; [|split; [intros t; by rewrite V2|by rewrite (proj1 F2)]].
  destruct R1 as [K1 S1], F2' as (_ & K2 & S2). split.
  - intros t. destruct (K1 t), (K2 t). split; [by apply (kept_trans _ (cells w1 t))|congruence].
  - intros t Ht. by rewrite S2, S1.
Qed.

(** A symbol of rank 0 is calculated without others. *)
Lemma alone m s w w' : rank s = 0%nat -> own decl D rank m s w w' -> forall t, t <> s -> cells w' t = cells w t.
Proof. intros Hr (_ & _ & _ & H) t Ht. destruct (H t Ht) as [E|(_ & _ & Hlt & _)]; [done|lia]. Qed.

Lemma unknown_at w env t : agree decl D rank 0 w env -> good decl D (modules_val w) w ->
  operand D rank 0 t -> type (env t) = S_UNKNOWN.
Proof.
  intros Ha Hg [Hc|[_ Hr]]; [|lia]. rewrite (Ha t).
  - cbn. by apply (ordered_type _ _ _ _ ok).
  - by left.
  - apply (good_constant _ _ _ _ Hg t Hc).
Qed.

Lemma settled_modules m m' w :
  good decl D (modules_val w) w -> settled decl D rank m w modules_sym -> settled decl D rank m' w modules_sym.
Proof.
  destruct (ordered_modules _ _ _ _ ok) as (Hd & Hr & Ht). intros Hg [Hv Hf]. split; [done|].
  rewrite Hr in *. intros env Ha. apply (solves_modules env m); [done| |by apply Hf].
  pose proof (ordered_used _ _ _ _ ok modules_sym Hd) as Hu. rewrite Hr in Hu.
  apply (List.Forall_impl _ (fun t => unknown_at w env t Ha Hg)), Hu.
Qed.

(** All values are forgotten. *)
Record forgotten (w : kworld) : Prop := {
  forgotten_good : good decl D (modules_val w) w;
  forgotten_valid : forall t, D t -> valid w t = false;
  forgotten_modules : modules_val w = tri (curr (cells w modules_sym))
}.

(** [MODULES] is calculated, and [modules_val] follows. *)
Lemma modules_calculated m w w2 w3 :
  forgotten w -> modules_val w = m -> own decl D rank m modules_sym w w2 -> valid w2 modules_sym = true ->
  fact decl D rank 0 w2 (fun env => solves env m (decl modules_sym) (cells w2 modules_sym)) ->
  refreshed all_symbols w2 w3 -> (forall t, valid w3 t = valid w2 t) ->
  modules_val w3 = tri (curr (cells w2 modules_sym)) ->
  consistent (modules_val w3) w3 /\ same_inputs w w3 /\
  forall t, D t -> t <> modules_sym -> valid w3 t = false.
Proof.
  intros [Hg Hv _] Hm Ho Hv2 Hf R3 V3 M3. pose proof ok as [Oc _ _ (Hd & Hr & _)].
  pose proof (alone _ _ _ _ Hr Ho) as Hal.
  assert (good decl D (modules_val w2) w2) as Hg2.
  { rewrite (proj1 Ho). apply (good_preserved _ _ _ w); [apply Ho| | |done].
    - intros t Ht _. apply Hal. intros ->. by rewrite (Oc _ Hd) in Ht.
    - intros t _. destruct (decide (t = modules_sym)) as [->|Hne]; [apply Ho|by rewrite Hal]. }
  pose proof (good_refreshed _ _ _ eq_refl R3 Hg2) as Hg3.
  assert (forall t, D t -> t <> modules_sym -> valid w3 t = false) as Hnv.
  { intros t Ht Hne. rewrite V3. unfold valid. rewrite Hal by done. by apply Hv. }
  split; [|split; [|done]].
  - destruct R3 as [K3 S3]. destruct (K3 modules_sym) as [Hk Hc]. split; [done| |].
    + split; [by rewrite V3|]. rewrite M3. unfold modules_tri, core in *. by injection Hc as -> _.
    + intros t Ht Hvt. destruct (decide (t = modules_sym)) as [->|Hne]; [|by rewrite Hnv in Hvt].
      apply (settled_modules m); [done|]. split; [done|]. rewrite Hr. intros env Ha.
      apply (core_solves m env _ (cells w2 modules_sym)); [done|done|]. apply Hf.
      intros u [Hu|[_ Hu]] Hvu; [|lia]. rewrite (Ha u); [|by left|by rewrite V3].
      unfold env_of. by rewrite S3 by (intros Hin; by rewrite (all_variable u Hin) in Hu).
  - apply (same_inputs_trans _ w2); [|by apply refreshed_inputs]. split; intros t.
    + destruct (decide (t = modules_sym)) as [->|Hne]; [apply Ho|by red; rewrite Hal; [apply kept_refl|]].
    + intros Ht. apply Hal. intros ->. by rewrite (Oc _ Hd) in Ht.
Qed.

Lemma runs_modules w :
  forgotten w ->
  runs (calc_value modules_sym) w (fun _ w' => consistent (modules_val w') w' /\
    same_inputs w w' /\ forall t, D t -> t <> modules_sym -> valid w' t = false).
Proof.
  intros [Hg Hv Hm]. pose proof ok as [Oc Ou Ot (Hd & Hr & Hty)]. set (m := modules_val w) in *.
  destruct fuel as [|n] eqn:En; [pose proof (enough modules_sym Hd); lia|]. cbn [sym_calc_value].
  assert (inv decl modules_sym D rank m (rank modules_sym) w) as Hi.
  { rewrite Hr. split; [done|lia|]. intros t _ Hlt. lia. }
  apply (runs_guards decl all_symbols modules_sym memcmp_value D rank m); auto.
  intros w1 Ho1 Hb1 E1. rewrite Hty.
  apply (runs_known decl all_symbols modules_sym memcmp_value D rank m); auto.
  { intros t w0 Hvt. apply calc_valid; [|done]. pose proof (enough modules_sym Hd). lia. }
  { intros t w0 _ Hlt. lia. }
  { by rewrite Hty. }
  intros w2 Hg2 Hf2.
  assert (plain decl w2 modules_sym) as Hp2 by (eapply busy_plain; [exact Hd|apply Hg2]).
  assert (modules_val w2 = m) as Hm2 by (eapply busy_modules, Hg2).
  eapply runs_mono; [apply runs_finish_modules; auto|]. intros [] w3 (R3 & V3 & M3).
  rewrite Hr in Hf2. apply (modules_calculated m w w2 w3); [done|done| |exact (proj1 (proj2 Hg2))|done|done|done|].
  - apply (own_trans _ _ _ _ Oc _ w w1); [done|done|apply Hg2].
  - rewrite M3, Hm2. destruct (memcmp_value _ _) eqn:E; [|done].
    rewrite Hm, <- E1. by apply memcmp_equal.
Qed.

(** ** Clearing and setting *)

Lemma runs_clear w :
  good decl D (modules_val w) w -> modules_val w = tri (curr (cells w modules_sym)) ->
  runs (sym_clear_all_valid decl all_symbols modules_sym memcmp_value fuel) w (fun _ w' =>
    consistent (modules_val w') w' /\ same_inputs w w' /\
    forall t, D t -> t <> modules_sym -> valid w' t = false).
Proof.
  intros Hg Hm. eapply runs_step; [apply runs_clear_valid|]. intros [] w1 [[M1 R1] V1].
  apply runs_bind. unfold conf_set_changed, modify, runs at 1. set (w2 := KWorld _ _ _ true).
  assert (refreshed all_symbols w w2) as R2 by exact R1.
  eapply runs_mono; [apply runs_modules|].
  - split; [apply (good_refreshed _ w); done| |].
    + intros t Ht. apply V1, all_in, Ht.
    + destruct (proj1 R1 modules_sym) as [_ E]. unfold core in E. cbn. injection E as -> _ _ _ _. congruence.
  - intros [] w3 (C3 & K3 & V3). split; [done|]. split; [|done].
    apply (same_inputs_trans _ w2); [by apply refreshed_inputs|done].
Qed.

(** What [sym_tristate_within_range] computes. *)
Definition in_range (m : tristate) (d : declaration) (c : cell) (v : tristate) : bool :=
  negb (bool_decide (visible c = no)) &&
  (bool_decide (stype d = S_BOOLEAN) || bool_decide (stype d = S_TRISTATE)) &&
  negb (bool_decide (type_now m (stype d) = S_BOOLEAN) && bool_decide (v = mod_)) &&
  (tri_num (rev_tri c) <? tri_num (visible c)) &&
  (tri_num (rev_tri c) <=? tri_num v) && (tri_num v <=? tri_num (visible c)).

Lemma runs_within m s v w :
  plain decl w s -> modules_val w = m ->
  runs (sym_tristate_within_range decl s v) w (fun b w' => w' = w /\ b = in_range m (decl s) (cells w s) v).
Proof.
  intros Hp <-. pose proof (plain_value _ _ _ Hp) as Hv.
  assert (runs (sym_get_type decl s) w (fun ty w' => w' = w /\ ty = type_now (modules_val w) (stype (decl s)))) as Hty.
  { unfold sym_get_type, type_now. destruct (stype (decl s)); try done.
    apply runs_bind, runs_look. rewrite Hv. by apply runs_bind. }
  eapply runs_step; [exact Hty|]. intros ty w' [-> ->].
  do 3 apply runs_bind, runs_look. rewrite Hv. split; [done|]. unfold in_range, type_now.
  destruct (stype (decl s)), (modules_val w), (visible (cells w s)), (rev_tri (cells w s)), v; done.
Qed.

(** The other flags of a symbol that gets a user value. *)
Definition marked (c c' : cell) : Prop :=
  core c' = core c /\ def_user c' = def_user c /\ has SYMBOL_DEF_USER (flags c') = true /\
  forall k, Z.land k (Z.lor SYMBOL_DEF_USER volatile) = 0 -> has k (flags c') = has k (flags c).

Lemma runs_mark_user s w :
  runs (mark_user decl s) w (fun _ w' => modules_val w' = modules_val w /\
    (forall t, t <> s -> cells w' t = cells w t) /\ marked (cells w s) (cells w' s)).
Proof.
  apply runs_bind, runs_look. apply runs_when.
  - intros _. apply runs_bind, runs_change. set (w1 := changed s _ w).
    eapply runs_mono; [apply runs_mark|]. intros [] w2 [(M2 & K2 & S2) _]. split; [done|]. split.
    + intros t Ht. rewrite S2 by by intros ->%list_elem_of_singleton. by apply cells_changed_ne.
    + destruct (K2 s) as [Hk Hc]. unfold w1 in *. rewrite cells_changed in *. split; [done|]. split; [apply Hk|].
      split; [rewrite (kept_has SYMBOL_DEF_USER _ _ eq_refl Hk); cbn; by rewrite has_with, orb_true_r|].
      intros k Ek. assert (Z.land k SYMBOL_DEF_USER = 0 /\ Z.land k volatile = 0) as [E1 E2].
      { rewrite Z.land_lor_distr_r in Ek. by apply Z.lor_eq_0_iff in Ek. }
      rewrite (kept_has k _ _ E2 Hk). cbn. rewrite has_with. unfold has at 2.
      by rewrite Z.land_comm, E1, orb_false_r.
  - intros E%negb_false_iff. by split.
Qed.

(** The user sets [s]; everything else is as before. *)
Record user_set (s : symbol) (v : tristate) (w w' : kworld) : Prop := {
  set_consistent : consistent (modules_val w') w';
  set_others : forall t, t <> s -> same_input w w' t;
  set_constants : forall t, constant t = true -> cells w' t = cells w t;
  set_value : user_tri (cells w' s) = Some v
}.

Lemma plain_marked w w' s :
  stype (decl s) = S_BOOLEAN \/ stype (decl s) = S_TRISTATE ->
  (forall k, Z.land k (Z.lor SYMBOL_DEF_USER volatile) = 0 -> has k (flags (cells w' s)) = has k (flags (cells w s))) ->
  plain decl w s -> plain decl w' s.
Proof.
  intros Hty H [P1 P2 P3 _ P5 P6]. split; [by rewrite H..| |done|done]. intros _ H1 H2. by destruct Hty.
Qed.

Lemma runs_set_tristate m s v w :
  consistent m w -> D s -> stype (decl s) = S_BOOLEAN \/ stype (decl s) = S_TRISTATE ->
  tri (curr (cells w s)) <> v -> in_range m (decl s) (cells w s) v = true ->
  runs (sym_set_tristate_value decl all_symbols modules_sym memcmp_value fuel s v) w (fun b w' =>
    b = true /\ user_set s v w w').
Proof.
  intros [Hg Hmod _] Hs Hty Hne Hin. pose proof (good_plain _ _ _ _ Hg s Hs) as Hp.
  pose proof (good_modules _ _ _ _ Hg) as Hm.
  apply runs_bind, runs_look. rewrite bool_decide_eq_false_2 by done.
  eapply runs_step; [by apply (runs_within m)|]. intros b w' [-> ->]. rewrite Hin. cbn [negb].
  eapply runs_step; [apply runs_mark_user|]. intros [] w1 (M1 & S1 & (C1 & U1 & F1 & K1)).
  assert (plain decl w1 s) as Hp1 by by apply (plain_marked w).
  apply runs_bind, runs_look. rewrite (plain_value _ _ _ Hp1), andb_false_l. apply runs_bind, runs_when; [done|].
  intros _. apply runs_bind, runs_change. set (w2 := changed s _ w1).
  assert (forall t, t <> s -> cells w2 t = cells w t) as S2.
  { intros t Ht. unfold w2. rewrite cells_changed_ne by done. by apply S1. }
  assert (core (cells w2 s) = core (cells w s)) as C2 by (unfold w2; by rewrite cells_changed).
  assert (forall t, constant t = true -> t <> s) as Hcs.
  { intros t Ht ->. by rewrite (ordered_constant _ _ _ _ ok s Hs) in Ht. }
  assert (good decl D (modules_val w2) w2) as Hg2.
  { split; [|done|].
    - intros t Ht. unfold valid. rewrite (S2 t (Hcs t Ht)). apply (good_constant _ _ _ _ Hg t Ht).
    - intros t Ht. destruct (decide (t = s)) as [->|Hts].
      + apply (plain_marked w); [done| |done]. unfold w2. by rewrite cells_changed.
      + destruct (good_plain _ _ _ _ Hg t Ht) as [P1 P2 P3 P4 P5 P6]. rewrite <- (S2 t Hts) in P1, P2, P3, P4.
        by split. }
  assert (modules_val w2 = tri (curr (cells w2 modules_sym))) as Hm2.
  { change (modules_val w1 = tri (curr (cells w2 modules_sym))). rewrite M1, Hm, <- (proj2 Hmod). unfold modules_tri.
    destruct (decide (modules_sym = s)) as [->|]; [|by rewrite S2].
    pose proof (f_equal fst C2) as E. cbn [fst core] in E. by rewrite E. }
  eapply runs_step.
  { apply runs_when; [intros _; by apply runs_clear|]. done. }
  intros [] w3 (C3 & [K3 S3] & _). apply runs_ret. split; [done|].
  split; [done| | |].
  - intros t Ht. specialize (K3 t). unfold same_input in *. by rewrite (S2 t Ht) in K3.
  - intros t Ht. by rewrite S3, S2 by auto.
  - unfold user_tri. rewrite (kept_has SYMBOL_DEF_USER _ _ eq_refl (K3 s)), (proj1 (K3 s)). unfold w2.
    rewrite cells_changed. cbn -[has]. by rewrite F1.
Qed.

(** ** Calculating again *)

Lemma consistent_val m w : consistent m w -> good decl D (modules_val w) w.
Proof. intros [Hg _ _]. by rewrite (good_modules _ _ _ _ Hg). Qed.

Lemma modules_kept m m' w w' :
  consistent m w -> consistent m' w' -> same_input w w' modules_sym ->
  (forall t, constant t = true -> cells w' t = cells w t) -> m' = m.
Proof.
  intros C C' Hk Hc. destruct (ordered_modules _ _ _ _ ok) as (Hd & Hr & _).
  destruct (consistent_modules _ _ _ _ _ _ C) as [Hv Em]. destruct (consistent_modules _ _ _ _ _ _ C') as [Hv' Em'].
  rewrite <- Em, <- Em'. unfold modules_tri. f_equal.
  assert (settled decl D rank m w' modules_sym) as [_ Hf'].
  { apply (settled_modules m' _ w' (consistent_val _ _ C')). by apply (consistent_settled _ _ _ _ _ _ C'). }
  destruct (consistent_settled _ _ _ _ _ _ C modules_sym Hd Hv) as [_ Hf].
  apply (curr_same m (env_of decl w) (decl modules_sym)); [done|apply Hf; by intros u _ _|apply Hf'].
  intros u Hu Hvu. rewrite Hr in Hu. destruct Hu as [Hu|[_ Hu]]; [|lia]. unfold env_of. by rewrite Hc.
Qed.

(** The value a symbol gets from its dependencies and the user. *)
Lemma user_value m env d c v :
  stype d = S_BOOLEAN \/ stype d = S_TRISTATE ->
  user_tri c = Some v -> solves env m d c -> in_range m d c v = true ->
  tri (curr c) = if bool_decide (dir_tri c = no) && negb (bool_decide (rev_tri c = no)) then no else v.
Proof.
  intros Hty Hu [Ec Hs] Hin. destruct Hs as (Evis & Edir & Erev & _); [by destruct Hty as [-> | ->]|].
  assert (tri (curr c) = spec_tri env m d (Some v)) as ->.
  { rewrite Ec. unfold spec_value. rewrite Hu. by destruct Hty as [-> | ->]. }
  unfold spec_tri, in_range, no_mod in *. rewrite Evis, Edir, Erev in *.
  destruct (bool_decide (spec_dir env m d = no)), (spec_visible env m d), (spec_rev env m d), v,
    Hty as [Ht | Ht]; rewrite Ht in *; cbn in *; try done; by destruct (bool_decide (m = no)).
Qed.

Lemma same_shown m env d c c' :
  stype d <> S_UNKNOWN -> solves env m d c -> solves env m d c' ->
  visible c' = visible c /\ dir_tri c' = dir_tri c /\ rev_tri c' = rev_tri c.
Proof.
  intros Hty [_ H] [_ H']. destruct (H Hty) as (-> & -> & -> & _), (H' Hty) as (-> & -> & -> & _). done.
Qed.

Lemma runs_recalculated m s v w w' :
  consistent m w -> D s -> s <> modules_sym -> valid w s = true ->
  stype (decl s) = S_BOOLEAN \/ stype (decl s) = S_TRISTATE -> in_range m (decl s) (cells w s) v = true ->
  user_set s v w w' ->
  runs (calc_value s) w' (fun _ w2 => consistent m w2 /\
    tri (curr (cells w2 s)) =
      if bool_decide (dir_tri (cells w s) = no) && negb (bool_decide (rev_tri (cells w s) = no)) then no else v).
Proof.
  intros C Hs Hne Hv Hty Hin [C' Ho Hc Hu].
  assert (modules_val w' = m) as Em by (apply (modules_kept m _ w w'); auto). rewrite Em in C'.
  eapply runs_mono; [by apply (runs_calc_value decl all_symbols modules_sym memcmp_value D rank m ok); auto|].
  intros [] w2 (C2 & V2 & S2 & K2). split; [done|].
  assert (forall t, constant t = true -> cells w2 t = cells w t) as Hc2.
  { intros t Ht. destruct (good_constant _ _ _ _ (consistent_good _ _ _ _ _ _ C') t Ht) as [Hvt _].
    destruct (S2 t Hvt) as [_ ->]. by apply Hc. }
  destruct (common decl modules_sym D rank m w w2 C C2 Hc2 s) as [S1 S3]; [|done|done|].
  { intros u _ Hr. apply (kept_trans _ (cells w' u)); [|apply K2]. apply Ho. intros ->. lia. }
  specialize (S3 V2). assert (stype (decl s) <> S_UNKNOWN) as Hun by by destruct Hty as [-> | ->].
  destruct (same_shown m _ _ _ _ Hun S1 S3) as (E1 & E2 & E3). rewrite <- E2, <- E3.
  apply (user_value m (both decl w w2) (decl s)); [done| |done|].
  - unfold user_tri. rewrite (kept_has SYMBOL_DEF_USER _ _ eq_refl (K2 s)), (proj1 (K2 s)). exact Hu.
  - unfold in_range. by rewrite E1, E3.
Qed.

(** ** Values that cannot be set, and toggling *)

Lemma runs_refused m s v w :
  plain decl w s -> modules_val w = m -> tri (curr (cells w s)) <> v -> in_range m (decl s) (cells w s) v = false ->
  runs (sym_set_tristate_value decl all_symbols modules_sym memcmp_value fuel s v) w (fun b w' =>
    b = false /\ w' = w).
Proof.
  intros Hp Hm Hne Hin. apply runs_bind, runs_look. rewrite bool_decide_eq_false_2 by done.
  eapply runs_step; [by apply (runs_within m)|]. intros b w' [-> ->]. by rewrite Hin.
Qed.

(** The value is noted as the user's, and nothing is calculated anew. *)
Definition noted (s : symbol) (v : tristate) (w w' : kworld) : Prop :=
  user_tri (cells w' s) = Some v /\ core (cells w' s) = core (cells w s) /\
  forall t, t <> s -> cells w' t = cells w t.

Lemma runs_set_same s v w :
  plain decl w s -> stype (decl s) = S_BOOLEAN \/ stype (decl s) = S_TRISTATE -> tri (curr (cells w s)) = v ->
  runs (sym_set_tristate_value decl all_symbols modules_sym memcmp_value fuel s v) w (fun b w' =>
    b = true /\ noted s v w w').
Proof.
  intros Hp Hty Hv. apply runs_bind, runs_look. rewrite bool_decide_eq_true_2 by done. apply runs_bind, runs_ret.
  cbn [negb]. eapply runs_step; [apply runs_mark_user|]. intros [] w1 (_ & S1 & (C1 & _ & F1 & K1)).
  apply runs_bind, runs_look. rewrite (plain_value _ _ _ (plain_marked w w1 s Hty K1 Hp)), andb_false_l.
  apply runs_bind, runs_when; [done|]. intros _. apply runs_bind, runs_change. apply runs_bind, runs_ret, runs_ret.
  split; [done|]. split; [|split].
  - unfold user_tri. rewrite cells_changed. cbn -[has]. by rewrite F1.
  - by rewrite cells_changed.
  - intros t Ht. rewrite cells_changed_ne by done. by apply S1.
Qed.

(** The next value that can be set, in the order of [next_tristate]. *)
Definition toggled (m : tristate) (d : declaration) (c : cell) : tristate :=
  let a := next_tristate (tri (curr c)) in
  let b := next_tristate a in
  if in_range m d c a then a else if in_range m d c b then b else tri (curr c).

Lemma next_ne t : t <> next_tristate t /\ t <> next_tristate (next_tristate t) /\
  next_tristate (next_tristate (next_tristate t)) = t.
Proof. by destruct t. Qed.

Lemma toggled_none m d c :
  toggled m d c = tri (curr c) -> forall v, v <> tri (curr c) -> in_range m d c v = false.
Proof.
  unfold toggled. destruct (next_ne (tri (curr c))) as (N1 & N2 & _).
  destruct (in_range m d c (next_tristate (tri (curr c)))) eqn:E1; [intros E; by rewrite E in N1|].
  destruct (in_range m d c (next_tristate (next_tristate (tri (curr c))))) eqn:E2; [intros E; by rewrite E in N2|].
  intros _ v Hv. destruct (tri (curr c)), v; done.
Qed.

Lemma runs_toggle m s w :
  consistent m w -> D s -> stype (decl s) = S_BOOLEAN \/ stype (decl s) = S_TRISTATE ->
  runs (sym_toggle_tristate_value decl all_symbols modules_sym memcmp_value fuel s) w (fun t w' =>
    t = toggled m (decl s) (cells w s) /\ (t <> tri (curr (cells w s)) -> user_set s t w w')).
Proof.
  intros C Hs Hty. pose proof (consistent_good _ _ _ _ _ _ C) as Hg. pose proof (good_plain _ _ _ _ Hg s Hs) as Hp.
  pose proof (good_modules _ _ _ _ Hg) as Hm.
  apply runs_bind, runs_look. unfold toggled. set (t := tri (curr (cells w s))).
  destruct (next_ne t) as (N1 & N2 & N3). cbn [toggle].
  destruct (in_range m (decl s) (cells w s) (next_tristate t)) eqn:E1.
  { eapply runs_step; [by apply (runs_set_tristate m)|]. intros b w1 [-> Hu]. cbn [orb]. by split. }
  eapply runs_step; [by apply (runs_refused m)|]. intros b w1 [-> ->]. rewrite bool_decide_eq_false_2 by done. cbn [orb].
  destruct (in_range m (decl s) (cells w s) (next_tristate (next_tristate t))) eqn:E2.
  { eapply runs_step; [by apply (runs_set_tristate m)|]. intros b w1 [-> Hu]. cbn [orb]. by split. }
  eapply runs_step; [by apply (runs_refused m)|]. intros b w1 [-> ->]. rewrite bool_decide_eq_false_2 by done. cbn [orb].
  eapply runs_step; [apply runs_set_same; [done|done|by rewrite N3]|]. intros b w1 [-> _]. cbn [orb]. rewrite N3. by split.
Qed.
End Set_.
