(* ===== verification/KSymProofs.v ===== *)
(** * Theorems about the values of Kconfig symbols

    For configurations whose symbols are ordered by what they use: the values that
    [sym_calc_value] calculates, and what setting a value does to them. The example at
    the end has modules, a tristate, a boolean that is selected, and a number with a
    range. *)

From Stdlib Require Import ZArith Lia String Ascii.
From stdpp Require Import base list strings numbers option.
From S2P Require Import Prelude CString KExpr KExprOps KSym KSymSpec KSymFacts KSymCalc KSymOrder KSymSet.

(** The configurations the theorems are about: the symbols [D] are in the hash table and
    ordered, and there is fuel for the longest chain of dependencies. [memcmp] finds
    only equal values equal. *)
Record configuration (decl : symbol -> declaration) (all_symbols : list symbol) (modules_sym : symbol)
    (memcmp_value : symbol_value -> symbol_value -> bool) (D : symbol -> Prop) (rank : symbol -> nat)
    (fuel : nat) : Prop := {
  conf_ordered : ordered decl modules_sym D rank;
  conf_listed : forall t, D t -> t ∈ all_symbols;
  conf_variable : forall t, t ∈ all_symbols -> constant t = false;
  conf_memcmp : forall a b, memcmp_value a b = true -> tri a = tri b;
  conf_fuel : forall t, D t -> (S (rank t) < fuel)%nat
}.

(** ** An example *)

Module Example_.

Definition MODULES := Sym 0.
Definition NET := Sym 1.
Definition USB := Sym 2.
Definition PORT := Sym 3.
Definition LOW := Sym 4.
Definition HIGH := Sym 5.
Definition START := Sym 6.

Definition prompt (v : option expr) : property := Property P_PROMPT (Some "?"%string) v None (Some 0%nat) "Config.in" 1.
Definition default (e : expr) : property := Property P_DEFAULT None None (Some (PE_EXPR e)) None "Config.in" 2.
Definition range (l r : symbol) : property := Property P_RANGE None None (Some (PE_RANGE l r)) None "Config.in" 3.
Definition literal (n : string) : declaration := Declaration (Some n) S_UNKNOWN [] None None None.

(** [USB] is a tristate; it selects [NET]; [PORT] is a number from 1024 to 4096 that
    depends on [NET]. *)
Definition decl (s : symbol) : declaration :=
  match s with
  | Sym 0 => Declaration (Some "MODULES"%string) S_BOOLEAN [prompt None; default (E_SYMBOL symbol_yes)] None None None
  | Sym 1 => Declaration (Some "NET"%string) S_BOOLEAN [prompt None] None (Some (E_SYMBOL USB)) None
  | Sym 2 => Declaration (Some "USB"%string) S_TRISTATE [prompt None; default (E_SYMBOL symbol_mod)] None None None
  | Sym 3 => Declaration (Some "PORT"%string) S_INT
      [prompt (Some (E_SYMBOL NET)); default (E_SYMBOL START); range LOW HIGH] (Some (E_SYMBOL NET)) None None
  | Sym 4 => literal "1024"
  | Sym 5 => literal "4096"
  | Sym 6 => literal "80"
  | symbol_yes => literal "y"
  | symbol_mod => literal "m"
  | symbol_no => literal "n"
  | Sym _ => literal "?"
  end.

Definition all_symbols : list symbol := [MODULES; NET; USB; PORT; LOW; HIGH; START].

Definition memcmp_value (a b : symbol_value) : bool :=
  bool_decide (val a = val b) && bool_decide (tri a = tri b).

Definition rank (s : symbol) : nat := match s with Sym 1 => 2 | Sym 2 => 1 | Sym 3 => 3 | _ => 0 end.

Definition empty_cell (f : Z) (v : symbol_value) : cell :=
  Cell v (SymbolValue NULL no) no f no no no (fun _ => no).

(** Nothing is calculated yet. *)
Definition start : kworld :=
  KWorld (fun s => match s with
                   | symbol_yes => empty_cell (Z.lor SYMBOL_CONST SYMBOL_VALID) (SymbolValue (P_string "y") yes)
                   | symbol_mod => empty_cell (Z.lor SYMBOL_CONST SYMBOL_VALID) (SymbolValue (P_string "m") mod_)
                   | symbol_no => empty_cell (Z.lor SYMBOL_CONST SYMBOL_VALID) (SymbolValue (P_string "n") no)
                   | Sym _ => empty_cell 0 (SymbolValue NULL no)
                   end) no (fun _ => 0) false.

Definition state_of {A} (o : outcome kworld A) : kworld := match o with Ret _ w => w | _ => start end.

(** After [sym_clear_all_valid]. *)
Definition cleared : kworld := state_of (sym_clear_all_valid decl all_symbols MODULES memcmp_value 9 start).

(** And with [USB] calculated. *)
Definition with_usb : kworld := state_of (sym_calc_value decl all_symbols MODULES memcmp_value 9 USB cleared).

Lemma in_all (P : symbol -> Prop) : Forall P all_symbols -> forall s, s ∈ all_symbols -> P s.
Proof. intros H s Hs%list_elem_of_In. rewrite Forall_forall in H. by apply H. Qed.

Lemma conf : configuration decl all_symbols MODULES memcmp_value (fun s => s ∈ all_symbols) rank 9.
Proof.
  split; [split| | | |].
  - by apply in_all; repeat constructor.
  - apply in_all. repeat apply Forall_cons_2; cbn; repeat apply Forall_cons_2; try apply Forall_nil_2;
      first [by left|right; split; [by repeat (first [by left|right])|cbn; lia]].
  - by intros [].
  - split; [by left|done].
  - done.
  - by apply in_all; repeat constructor.
  - intros a b [_ E%bool_decide_eq_true]%andb_prop. done.
  - apply in_all. repeat apply Forall_cons_2; cbn; try lia. by apply Forall_nil_2.
Qed.

Lemma good_start : good decl (fun s => s ∈ all_symbols) (modules_val start) start.
Proof.
  split; [|done|].
  - intros [] Hc; try done; (split; [done|eexists; reflexivity]).
  - apply in_all. repeat apply Forall_cons_2; try apply Forall_nil_2; split; try done;
      try (eexists; reflexivity); try (intros [? E]; vm_compute in E; discriminate E);
      cbn; repeat apply Forall_cons_2; try apply Forall_nil_2; split; intros; try done;
      by repeat eexists.
Qed.

Lemma runs_state {A} (p : prog kworld A) w (Q : kworld -> Prop) :
  runs p w (fun _ w' => Q w') -> Q (state_of (p w)).
Proof. unfold runs. by destruct (p w). Qed.

Lemma modules_cleared : modules_val cleared = yes.
Proof. by vm_compute. Qed.

(** [sym_clear_all_valid] makes the first state consistent. *)
Lemma consistent_cleared : consistent decl MODULES (fun s => s ∈ all_symbols) rank yes cleared.
Proof.
  destruct conf as [C1 C2 C3 C4 C5]. rewrite <- modules_cleared.
  apply (runs_state _ start (fun w => consistent decl MODULES (fun s => s ∈ all_symbols) rank (modules_val w) w)).
  eapply runs_mono; [exact (runs_clear _ _ _ _ _ _ 9 C1 C2 C3 C4 C5 start good_start eq_refl)|].
  intros a w H. apply H.
Qed.

(** And a calculation keeps it so. *)
Lemma consistent_usb : consistent decl MODULES (fun s => s ∈ all_symbols) rank yes with_usb.
Proof.
  apply (runs_state _ cleared (fun w => consistent decl MODULES (fun s => s ∈ all_symbols) rank yes w)).
  eapply runs_mono; [apply (runs_calc_value decl _ MODULES _ _ rank yes (conf_ordered _ _ _ _ _ _ _ conf));
    [exact consistent_cleared| |]|].
  - by repeat (first [by left|right]).
  - cbn. lia.
  - intros a w H. apply H.
Qed.

End Example_.

(** ** Theorems *)

(** C1. In an ordered configuration and a consistent state, [sym_calc_value] returns with
    a fuel above the rank of the symbol, for all the recursion through dependencies,
    defaults and ranges. The symbol then solves the equations of [KSymSpec] for the
    values the other symbols have in the resulting state, which is consistent. Values
    that were known, and what the user has set, stay as they are. *)
Theorem sym_calc_value_solves decl all_symbols modules_sym memcmp_value D rank fuel m s w
    (Hconf : configuration decl all_symbols modules_sym memcmp_value D rank fuel)
    (Hw : consistent decl modules_sym D rank m w) (Hs : D s) :
  exists w', sym_calc_value decl all_symbols modules_sym memcmp_value fuel s w = Ret tt w' /\
    consistent decl modules_sym D rank m w' /\
    solves (env_of decl w') m (decl s) (cells w' s) /\
    (forall t, valid w t = true -> valid w' t = true /\ cells w' t = cells w t) /\
    (forall t, same_input w w' t).
Proof.
  destruct Hconf as [C1 C2 C3 C4 C5].
  pose proof (runs_calc_value decl all_symbols modules_sym memcmp_value D rank m C1 fuel s w Hw Hs (C5 s Hs)) as H.
  unfold runs in H. destruct (sym_calc_value _ _ _ _ fuel s w) as [[] w'| |] eqn:E; try done.
  exists w'. destruct H as (Hc & Hv & H1 & H2). split; [done|]. split; [done|]. split; [|done].
  apply (settled_solves decl D rank), (consistent_settled _ _ _ _ _ _ Hc s Hs Hv).
Qed.

(** The port is 80 by default, and 1024 by its range; [NET] is selected as a module, so
    it is [y]. *)
Lemma sym_calc_value_solves_witness :
  (exists w', sym_calc_value Example_.decl Example_.all_symbols Example_.MODULES Example_.memcmp_value 9
     Example_.PORT Example_.cleared = Ret tt w' /\
     solves (env_of Example_.decl w') yes (Example_.decl Example_.PORT) (cells w' Example_.PORT)) /\
  match sym_calc_value Example_.decl Example_.all_symbols Example_.MODULES Example_.memcmp_value 9
    Example_.PORT Example_.cleared with
  | Ret _ w' => curr (cells w' Example_.PORT) = SymbolValue (P_string "1024") no /\
      tri (curr (cells w' Example_.NET)) = yes /\ tri (curr (cells w' Example_.USB)) = mod_
  | _ => False
  end.
Proof.
  split; [|vm_compute; done].
  destruct (sym_calc_value_solves Example_.decl Example_.all_symbols Example_.MODULES Example_.memcmp_value
    (fun s => s ∈ Example_.all_symbols) Example_.rank 9 yes Example_.PORT Example_.cleared
    Example_.conf Example_.consistent_cleared) as (w' & E & _ & H & _).
  - do 3 right. by left.
  - exists w'. split; [exact E|exact H].
Defined.



(** C35. Whatever values are set and whatever was calculated before, [sym_clear_all_valid]
    returns in a consistent state: [MODULES] is calculated, [modules_val] is its value,
    and every other symbol is to be calculated again. What the user has set, and the
    constants, are untouched. *)
Theorem sym_clear_all_valid_consistent decl all_symbols modules_sym memcmp_value D rank fuel w
    (Hconf : configuration decl all_symbols modules_sym memcmp_value D rank fuel)
    (Hgood : good decl D (modules_val w) w) (Hmod : modules_val w = tri (curr (cells w modules_sym))) :
  exists w', sym_clear_all_valid decl all_symbols modules_sym memcmp_value fuel w = Ret tt w' /\
    consistent decl modules_sym D rank (modules_val w') w' /\ same_inputs w w' /\
    forall t, D t -> t <> modules_sym -> valid w' t = false.
Proof.
  destruct Hconf as [C1 C2 C3 C4 C5].
  pose proof (runs_clear decl all_symbols modules_sym memcmp_value D rank fuel C1 C2 C3 C4 C5 w Hgood Hmod) as H.
  unfold runs in H. destruct (sym_clear_all_valid _ _ _ _ _ w) as [[] w'| |]; try done. by exists w'.
Qed.

Lemma sym_clear_all_valid_consistent_witness :
  exists w', sym_clear_all_valid Example_.decl Example_.all_symbols Example_.MODULES Example_.memcmp_value 9
    Example_.start = Ret tt w' /\ valid w' Example_.PORT = false.
Proof.
  destruct (sym_clear_all_valid_consistent Example_.decl Example_.all_symbols Example_.MODULES
    Example_.memcmp_value (fun s => s ∈ Example_.all_symbols) Example_.rank 9 Example_.start
    Example_.conf Example_.good_start eq_refl) as (w' & E & _ & _ & H).
  exists w'. split; [exact E|]. apply H; [by repeat (first [by left|right])|discriminate].
Defined.

(** C29. Setting a boolean or a tristate, and calculating it again. The value the symbol
    has is accepted, in range or not: it is noted as the user's, and nothing else changes
    (so that an out of range default is lost with the next calculation). Another value that
    is in range is accepted, and is the value afterwards, except for a symbol that is
    selected while its dependencies do not hold, which is off; the state is consistent.
    Another value that is out of range is refused, and nothing has changed. *)
Theorem sym_set_tristate_value_get decl all_symbols modules_sym memcmp_value D rank fuel m s v w
    (Hconf : configuration decl all_symbols modules_sym memcmp_value D rank fuel)
    (Hw : consistent decl modules_sym D rank m w) (Hs : D s) (Hne : s <> modules_sym) (Hv : valid w s = true)
    (Hty : stype (decl s) = S_BOOLEAN \/ stype (decl s) = S_TRISTATE) :
  let set := sym_set_tristate_value decl all_symbols modules_sym memcmp_value fuel s v w in
  if bool_decide (tri (curr (cells w s)) = v) then exists w', set = Ret true w' /\ noted s v w w'
  else if in_range m (decl s) (cells w s) v then
    exists w' w2, set = Ret true w' /\
      sym_calc_value decl all_symbols modules_sym memcmp_value fuel s w' = Ret tt w2 /\
      consistent decl modules_sym D rank m w2 /\
      tri (curr (cells w2 s)) =
        if bool_decide (dir_tri (cells w s) = no) && negb (bool_decide (rev_tri (cells w s) = no)) then no else v
  else set = Ret false w.
Proof.
  destruct Hconf as [C1 C2 C3 C4 C5]. cbn zeta.
  destruct (decide (tri (curr (cells w s)) = v)) as [Hold|Hnew].
  { rewrite bool_decide_eq_true_2 by done. pose proof (consistent_good _ _ _ _ _ _ Hw) as Hg.
    pose proof (runs_set_same decl all_symbols modules_sym memcmp_value fuel s v w (good_plain _ _ _ _ Hg s Hs) Hty Hold) as H.
    unfold runs in H. destruct (sym_set_tristate_value _ _ _ _ _ s v w) as [b w'| |]; try done.
    destruct H as [-> Hn]. by exists w'. }
  rewrite bool_decide_eq_false_2 by done. destruct (in_range m (decl s) (cells w s) v) eqn:Hin.
  - pose proof (runs_set_tristate decl all_symbols modules_sym memcmp_value D rank fuel C1 C2 C3 C4 C5
      m s v w Hw Hs Hty Hnew Hin) as H.
    unfold runs in H. destruct (sym_set_tristate_value _ _ _ _ _ s v w) as [b w'| |]; try done.
    destruct H as [-> Hset].
    pose proof (runs_recalculated decl all_symbols modules_sym memcmp_value D rank fuel C1 C5
      m s v w w' Hw Hs Hne Hv Hty Hin Hset) as H.
    unfold runs in H. destruct (sym_calc_value _ _ _ _ _ s w') as [[] w2| |] eqn:E2; try done. by exists w', w2.
  - pose proof (consistent_good _ _ _ _ _ _ Hw) as Hg.
    pose proof (runs_refused decl all_symbols modules_sym memcmp_value fuel m s v w
      (good_plain _ _ _ _ Hg s Hs) (good_modules _ _ _ _ Hg) Hnew Hin) as H.
    unfold runs in H. destruct (sym_set_tristate_value _ _ _ _ _ s v w) as [b w'| |]; try done.
    by destruct H as [-> ->].
Qed.

(** [USB] from [m] to [y]. *)
Lemma sym_set_tristate_value_get_witness :
  in_range yes (Example_.decl Example_.USB) (cells Example_.with_usb Example_.USB) yes = true /\
  exists w' w2,
    sym_set_tristate_value Example_.decl Example_.all_symbols Example_.MODULES Example_.memcmp_value 9
      Example_.USB yes Example_.with_usb = Ret true w' /\
    sym_calc_value Example_.decl Example_.all_symbols Example_.MODULES Example_.memcmp_value 9
      Example_.USB w' = Ret tt w2 /\ tri (curr (cells w2 Example_.USB)) = yes.
Proof.
  assert (in_range yes (Example_.decl Example_.USB) (cells Example_.with_usb Example_.USB) yes = true) as Hin
    by by vm_compute.
  split; [exact Hin|].
  assert (Example_.USB ∈ Example_.all_symbols) as Hs by (right; right; by left).
  assert (valid Example_.with_usb Example_.USB = true) as Hv by by vm_compute.
  assert (tri (curr (cells Example_.with_usb Example_.USB)) <> yes) as Hne by by vm_compute.
  pose proof (sym_set_tristate_value_get Example_.decl Example_.all_symbols Example_.MODULES Example_.memcmp_value
    (fun s => s ∈ Example_.all_symbols) Example_.rank 9 yes Example_.USB yes Example_.with_usb
    Example_.conf Example_.consistent_usb Hs ltac:(discriminate) Hv (or_intror eq_refl)) as H.
  cbn zeta in H. rewrite bool_decide_eq_false_2, Hin in H by exact Hne. destruct H as (w' & w2 & E1 & E2 & _ & E3).
  exists w', w2. split; [exact E1|]. split; [exact E2|]. rewrite E3. by vm_compute.
Defined.

(** [sym_toggle_tristate_value] returns: in the order [n], [m], [y] and around, it
    sets the next value that is in range, and tells which; when there is none, the
    answer is the value the symbol has. *)
Theorem sym_toggle_tristate_value_next decl all_symbols modules_sym memcmp_value D rank fuel m s w
    (Hconf : configuration decl all_symbols modules_sym memcmp_value D rank fuel)
    (Hw : consistent decl modules_sym D rank m w) (Hs : D s)
    (Hty : stype (decl s) = S_BOOLEAN \/ stype (decl s) = S_TRISTATE) :
  let old := tri (curr (cells w s)) in
  let t := toggled m (decl s) (cells w s) in
  exists w', sym_toggle_tristate_value decl all_symbols modules_sym memcmp_value fuel s w = Ret t w' /\
    (t <> old -> consistent decl modules_sym D rank (modules_val w') w' /\ user_tri (cells w' s) = Some t /\
       forall u, u <> s -> same_input w w' u) /\
    (t = old -> forall v, v <> old -> in_range m (decl s) (cells w s) v = false).
Proof.
  destruct Hconf as [C1 C2 C3 C4 C5]. cbn zeta.
  pose proof (runs_toggle decl all_symbols modules_sym memcmp_value D rank fuel C1 C2 C3 C4 C5 m s w Hw Hs Hty) as H.
  unfold runs in H. destruct (sym_toggle_tristate_value _ _ _ _ _ s w) as [t w'| |]; try done.
  destruct H as [-> Hset]. exists w'. split; [done|]. split.
  - intros Hne. destruct (Hset Hne) as [H1 H2 _ H4]. done.
  - apply toggled_none.
Qed.

Lemma sym_toggle_tristate_value_next_witness :
  toggled yes (Example_.decl Example_.USB) (cells Example_.with_usb Example_.USB) = yes /\
  exists w', sym_toggle_tristate_value Example_.decl Example_.all_symbols Example_.MODULES Example_.memcmp_value 9
    Example_.USB Example_.with_usb = Ret yes w' /\ user_tri (cells w' Example_.USB) = Some yes.
Proof.
  split; [by vm_compute|].
  pose proof (sym_toggle_tristate_value_next Example_.decl Example_.all_symbols Example_.MODULES
    Example_.memcmp_value (fun s => s ∈ Example_.all_symbols) Example_.rank 9 yes Example_.USB Example_.with_usb
    Example_.conf Example_.consistent_usb) as H.
  destruct H as (w' & E1 & H & _); [right; right; by left|by right|].
  replace (toggled yes (Example_.decl Example_.USB) (cells Example_.with_usb Example_.USB)) with yes in *
    by (by vm_compute).
  exists w'. split; [exact E1|]. apply H. by vm_compute.
Defined.
