(* ===== verification/KSymCheck.v ===== *)
(** * Kconfig symbols: the check for recursive dependencies

    Models [sym_check_deps] of [scripts/config/symbol.c] and the functions it shares its
    recursion with. The stack of records on the C stack, which [check_top] links, is a
    list with its top first; what is printed are lines. *)

From Stdlib Require Import ZArith Lia String Ascii.
From stdpp Require Import base list strings numbers option pretty.
From S2P Require Import Prelude CString KExpr KExprOps KSym.

(** What [stack->expr] points to: one of the three expressions of the symbol, or that of
    a property. *)
Inductive checked_expr := AT_NONE | AT_DIR_DEP | AT_REV_DEP | AT_IMPLIED | AT_PROP.

#[export] Instance checked_expr_eq_dec : EqDecision checked_expr.
Proof. solve_decision. Defined.

Record dep_stack := DepStack { ssym : symbol; sprops : option property; sexpr : checked_expr }.

(** The flags of the symbols, [check_top], and the lines printed so far, the last one
    first. *)
Record check_world := CheckWorld {
  cflags : symbol -> Z;
  check_top : list dep_stack;
  printed : list string
}.

Definition dep_stack_insert (s : symbol) : prog check_world unit :=
  modify (fun w => CheckWorld (cflags w) (DepStack s None AT_NONE :: check_top w) (printed w)).

Definition dep_stack_remove : prog check_world unit :=
  modify (fun w => CheckWorld (cflags w) (tail (check_top w)) (printed w)).

(** [stack.expr = e] and [stack.prop = p], where [stack] is the top. *)
Definition on_top (f : dep_stack -> dep_stack) : prog check_world unit :=
  modify (fun w => CheckWorld (cflags w)
    (match check_top w with d :: l => f d :: l | [] => [] end) (printed w)).
Definition top_expr (e : checked_expr) : prog check_world unit :=
  on_top (fun d => DepStack (ssym d) (sprops d) e).
Definition top_prop (p : property) : prog check_world unit :=
  on_top (fun d => DepStack (ssym d) (Some p) (sexpr d)).

Definition flag_on (m : Z) (s : symbol) : prog check_world unit :=
  modify (fun w => CheckWorld (update s (with_flag m) (cflags w)) (check_top w) (printed w)).
Definition flag_off (m : Z) (s : symbol) : prog check_world unit :=
  modify (fun w => CheckWorld (update s (without_flag m) (cflags w)) (check_top w) (printed w)).
Definition flag_of (m : Z) (s : symbol) : prog check_world bool :=
  w ← get_st; mret (has m (cflags w s)).

Definition print_line (l : string) : prog check_world unit :=
  modify (fun w => CheckWorld (cflags w) (check_top w) (l :: printed w)).

Fixpoint each_symbol (l : list symbol) (f : symbol -> prog check_world unit) : prog check_world unit :=
  match l with [] => mret tt | s :: l => f s;; each_symbol l f end.

Definition prop_get_type_name (t : prop_type) : string :=
  match t with
  | P_PROMPT => "prompt"
  | P_COMMENT => "comment"
  | P_MENU => "menu"
  | P_DEFAULT => "default"
  | P_CHOICE => "choice"
  | P_SELECT => "select"
  | P_IMPLY => "imply"
  | P_RANGE => "range"
  | P_SYMBOL => "symbol"
  | P_RESET => "reset"
  | P_UNKNOWN => "unknown"
  end.

Definition tab : string := String (ascii_of_nat 9) EmptyString.

Definition quote : string := String (ascii_of_nat 34) EmptyString.

(** The number of an expression that is a list or a range in [enum expr_type]. *)
Definition oops (k : Z) : string := "Oops! How to check " +:+ pretty k +:+ "?".
Definition E_LIST : Z := 10.
Definition E_RANGE : Z := 12.

Section Check_.
(** [menu->file->name] and [menu->lineno]; [recursive_is_error]. *)
Context (decl : symbol -> declaration) (menu_at : nat -> string * Z) (recursive_is_error : bool).

Definition shown_name (s : symbol) : string := default "<choice>"%string (sname (decl s)).

Definition at_line (file : string) (lineno : Z) : string := file +:+ ":" +:+ pretty lineno +:+ ":".

(** [for (prop = sym->prop; prop; prop = prop->next) { menu = prop->menu; if (prop->menu) break; }] *)
Fixpoint menu_entry (l : list property) (menu : option nat) : option property * option nat :=
  match l with
  | [] => (None, menu)
  | p :: l => match pmenu p with Some m => (Some p, Some m) | None => menu_entry l None end
  end.

(** What a line says about a symbol and the next one, for a symbol that has nothing to
    do with a choice. *)
Definition relation_text (e : checked_expr) (t : prop_type) : string :=
  match e with
  | AT_DIR_DEP => " depends on "
  | AT_REV_DEP => " is selected by "
  | AT_IMPLIED => " is implied by "
  | AT_PROP => " " +:+ prop_get_type_name t +:+ " value contains "
  | AT_NONE => " " +:+ prop_get_type_name t +:+ " is visible depending on "
  end.

(** The loop that prints; [l] is the rest of the stack, upwards. The pointer [menu] is
    kept from one symbol to the next. *)
Fixpoint print_stack (last : symbol) (l : list dep_stack) (menu : option nat) : prog check_world unit :=
  match l with
  | [] => mret tt
  | d :: rest =>
      let next := match rest with n :: _ => ssym n | [] => last end in
      let prop := match sprops d with Some p => Some p | None => head (sprop (decl (ssym d))) end in
      choice ← flag_of SYMBOL_CHOICE (ssym d);
      cv ← flag_of SYMBOL_CHOICEVAL (ssym d);
      let '(prop, menu) := if (choice : bool) || cv then menu_entry (sprop (decl (ssym d))) menu else (prop, menu) in
      (if bool_decide (ssym d = last) then
         p ← defined prop;
         print_line (at_line (pfile p) (plineno p) +:+ "error: recursive dependency detected!")
       else mret tt);;
      (if (choice : bool) || cv then
         m ← defined menu;
         let '(file, line) := menu_at m in
         print_line (at_line file line +:+ tab +:+
           (if choice : bool then "choice " +:+ shown_name (ssym d) +:+ " contains symbol "
            else "symbol " +:+ shown_name (ssym d) +:+ " is part of choice ") +:+ shown_name next)
       else
         p ← defined prop;
         print_line (at_line (pfile p) (plineno p) +:+ tab +:+ "symbol " +:+ shown_name (ssym d) +:+
           relation_text (sexpr d) (ptype p) +:+ shown_name next));;
      print_stack last rest menu
  end.

(** From the last symbol's record upwards to the top: [Some] of the list, bottom first. *)
Fixpoint stack_from (last : symbol) (l above : list dep_stack) : option (list dep_stack) :=
  match l with
  | [] => None
  | d :: l => if bool_decide (ssym d = last) then Some (d :: above) else stack_from last l (d :: above)
  end.

Definition print_from (last : option symbol) : prog check_world bool :=
  w ← get_st;
  match last with
  | Some last =>
      match stack_from last (check_top w) [] with
      | Some l =>
          print_stack last l None;;
          print_line "For a resolution refer to Documentation/kbuild/kconfig-language.rst";;
          print_line ("subsection " +:+ quote +:+ "Kconfig recursive dependency limitations" +:+ quote);;
          print_line "";;
          mret true
      | None => print_line "unexpected recursive dependency error";; mret false
      end
  | None => print_line "unexpected recursive dependency error";; mret false
  end.

(** For a value of a choice, the report is about the choice. The C leaves [check_top] at
    a record of its own call, which the callers then read, when the choice is not on the
    stack. *)
Definition sym_check_print_recursive (last_sym : symbol) : prog check_world unit :=
  cv ← flag_of SYMBOL_CHOICEVAL last_sym;
  if cv : bool then
    dep_stack_insert last_sym;;
    o ← choice_of decl last_sym;
    found ← print_from o;
    if found : bool then dep_stack_remove else undef
  else found ← print_from (Some last_sym); mret tt.

Section Nested.
Context (sym_check_deps : symbol -> prog check_world (option symbol)).

(** [if (sym) return sym; return p] *)
Definition or_else (o : option symbol) (p : prog check_world (option symbol)) : prog check_world (option symbol) :=
  match o with Some s => mret (Some s) | None => p end.

Fixpoint check_expr (e : expr) : prog check_world (option symbol) :=
  match e with
  | E_BIN _ l r => o ← check_expr l; or_else o (check_expr r)
  | E_NOT e => check_expr e
  | E_COMP _ a b => o ← sym_check_deps a; or_else o (sym_check_deps b)
  | E_SYMBOL s => sym_check_deps s
  end.

Definition sym_check_expr_deps (e : option expr) : prog check_world (option symbol) :=
  match e with Some e => check_expr e | None => mret None end.

(** Of the expression of a property. *)
Definition check_prop_expr (e : option prop_expr) : prog check_world (option symbol) :=
  match e with
  | None => mret None
  | Some (PE_EXPR e) => check_expr e
  | Some (PE_LIST _) => print_line (oops E_LIST);; mret None
  | Some (PE_RANGE _ _) => print_line (oops E_RANGE);; mret None
  end.

(** The loop over the properties. *)
Fixpoint check_props (s : symbol) (l : list property) : prog check_world (option symbol) :=
  match l with
  | [] => mret None
  | p :: l =>
      if bool_decide (ptype p = P_CHOICE) || bool_decide (ptype p = P_SELECT) || bool_decide (ptype p = P_IMPLY)
      then check_props s l
      else
        top_prop p;;
        o ← sym_check_expr_deps (pvisible p);
        or_else o
          (choice ← flag_of SYMBOL_CHOICE s;
           if negb (bool_decide (ptype p = P_DEFAULT)) || choice then check_props s l
           else
             top_expr AT_PROP;;
             o ← check_prop_expr (pexpr p);
             or_else o (top_expr AT_NONE;; check_props s l))
  end.

(** [stack.expr = e] and the check of that expression. *)
Definition check_at (at_ : checked_expr) (e : option expr) : prog check_world (option symbol) :=
  top_expr at_;; sym_check_expr_deps e.

(** Everything up to the label [out]. *)
Definition check_parts (s : symbol) : prog check_world (option symbol) :=
  o ← check_at AT_DIR_DEP (dir_dep (decl s));
  or_else o
    (o ← check_at AT_REV_DEP (rev_dep (decl s));
     or_else o
       (o ← check_at AT_IMPLIED (implied (decl s));
        or_else o (top_expr AT_NONE;; check_props s (sprop (decl s))))).

Definition sym_check_sym_deps (s : symbol) : prog check_world (option symbol) :=
  dep_stack_insert s;;
  o ← check_parts s;
  dep_stack_remove;;
  mret o.

(** The values of a choice, until one has a recursive dependency. *)
Fixpoint check_values (l : list symbol) : prog check_world (option symbol) :=
  match l with
  | [] => mret None
  | s :: l => o ← sym_check_sym_deps s; or_else o (check_values l)
  end.

Definition sym_check_choice_deps (choice : symbol) : prog check_world (option symbol) :=
  dep_stack_insert choice;;
  l ← choice_values decl choice;
  each_symbol l (flag_on (Z.lor SYMBOL_CHECK SYMBOL_CHECKED));;
  flag_on (Z.lor SYMBOL_CHECK SYMBOL_CHECKED) choice;;
  o ← sym_check_sym_deps choice;
  flag_off SYMBOL_CHECK choice;;
  o ← or_else o (check_values l);
  each_symbol l (flag_off SYMBOL_CHECK);;
  o ← match o with
      | Some s2 =>
          cv ← flag_of SYMBOL_CHOICEVAL s2;
          if cv : bool then c ← choice_of decl s2; mret (if bool_decide (c = Some choice) then Some choice else Some s2)
          else mret (Some s2)
      | None => mret None
      end;
  dep_stack_remove;;
  mret o.

(** The three kinds of symbols. *)
Definition check_unchecked (s : symbol) : prog check_world (option symbol) :=
  cv ← flag_of SYMBOL_CHOICEVAL s;
  choice ← flag_of SYMBOL_CHOICE s;
  if cv : bool then
    dep_stack_insert s;;
    c ← choice_of decl s;
    c ← defined c;
    o ← sym_check_deps c;
    dep_stack_remove;;
    mret o
  else if choice : bool then sym_check_choice_deps s
  else
    flag_on (Z.lor SYMBOL_CHECK SYMBOL_CHECKED) s;;
    o ← sym_check_sym_deps s;
    flag_off SYMBOL_CHECK s;;
    mret o.

Definition check_body (s : symbol) : prog check_world (option symbol) :=
  check ← flag_of SYMBOL_CHECK s;
  checked ← flag_of SYMBOL_CHECKED s;
  if check : bool then sym_check_print_recursive s;; mret (Some s)
  else if checked : bool then mret None
  else
    o ← check_unchecked s;
    mret (if negb recursive_is_error && bool_decide (o = Some s) then None else o).
End Nested.

Fixpoint sym_check_deps (fuel : nat) (s : symbol) : prog check_world (option symbol) :=
  match fuel with
  | O => undef
  | S fuel => check_body (sym_check_deps fuel) s
  end.

(** The loop of [conf_parse]: the number of symbols with recursive dependencies. *)
Fixpoint check_all (fuel : nat) (l : list symbol) : prog check_world Z :=
  match l with
  | [] => mret 0
  | s :: l => o ← sym_check_deps fuel s; n ← check_all fuel l; mret (n + if bool_decide (o = None) then 0 else 1)
  end.
End Check_.
