(* ===== verification/KSymCheckFacts.v ===== *)
(** * The check for recursive dependencies is a depth-first search

    For configurations without choices: [SYMBOL_CHECK] marks the symbols on the stack,
    [SYMBOL_CHECKED] those that were reached; those that are finished can be listed with
    every symbol before what it uses, unless a cycle was reported. *)

From Stdlib Require Import ZArith Lia String Ascii.
From stdpp Require Import base list strings numbers option relations.
From S2P Require Import Prelude CString KExpr KExprOps KSym KSymSpec KSymFacts KSymCheck.

(** ** What the check follows *)

(** The expressions of a property that are checked. *)
Definition checked_prop (p : property) : list symbol :=
  if bool_decide (ptype p = P_CHOICE) || bool_decide (ptype p = P_SELECT) || bool_decide (ptype p = P_IMPLY) then []
  else opt_symbols (pvisible p) ++
       (if bool_decide (ptype p = P_DEFAULT) then
          match pexpr p with Some (PE_EXPR e) => expr_symbols e | _ => [] end
        else []).

Definition checked_uses (d : declaration) : list symbol :=
  opt_symbols (dir_dep d) ++ opt_symbols (rev_dep d) ++ opt_symbols (implied d) ++ flat_map checked_prop (sprop d).

(** ** Counting *)

Lemma count_le {A} (f g : A -> bool) l :
  (forall a, a ∈ l -> f a = true -> g a = true) -> (length (List.filter f l) <= length (List.filter g l))%nat.
Proof.
  induction l as [|a l IH]; intros H; cbn; [lia|].
  assert (length (List.filter f l) <= length (List.filter g l))%nat by (apply IH; intros b Hb; apply H; by right).
  specialize (H a ltac:(by left)). destruct (f a), (g a); cbn; lia || by specialize (H eq_refl).
Qed.

Lemma count_lt {A} (f g : A -> bool) l a :
  (forall a, a ∈ l -> f a = true -> g a = true) -> a ∈ l -> f a = false -> g a = true ->
  (length (List.filter f l) < length (List.filter g l))%nat.
Proof.
  intros H Ha Hf Hg. induction l as [|b l IH]; [by apply not_elem_of_nil in Ha|]. cbn.
  apply elem_of_cons in Ha as [<-|Ha].
  - rewrite Hf, Hg. cbn. enough (length (List.filter f l) <= length (List.filter g l))%nat by lia.
    apply count_le. intros b Hb. apply H. by right.
  - assert (length (List.filter f l) < length (List.filter g l))%nat by (apply IH; [intros c Hc; apply H; by right|done]).
    specialize (H b ltac:(by left)). destruct (f b), (g b); cbn; lia || by specialize (H eq_refl).
Qed.

Section Search.
Context (decl : symbol -> declaration) (menu_at : nat -> string * Z) (recursive_is_error : bool).
(** The symbols that can be reached. A symbol that uses others has a property: the
    report reads it. *)
Context (nodes : list symbol)
  (closed : forall s, s ∈ nodes -> Forall (fun t => t ∈ nodes) (checked_uses (decl s)))
  (has_prop : forall s, s ∈ nodes -> checked_uses (decl s) <> [] -> sprop (decl s) <> []).

Definition uses (s t : symbol) : Prop := s ∈ nodes /\ t ∈ checked_uses (decl s).
Definition cyclic : Prop := exists s, tc uses s s.

(** ** States *)

Definition stack (w : check_world) : list symbol := map ssym (check_top w).
Definition checked (w : check_world) (s : symbol) : bool := has SYMBOL_CHECKED (cflags w s).

(** Each symbol of the stack is used by the one below it. *)
Fixpoint chain (l : list symbol) : Prop :=
  match l with
  | s :: l' => match l' with t :: _ => uses t s | [] => True end /\ chain l'
  | [] => True
  end.

(** Without choices, in the middle of the search. *)
Record searching (w : check_world) : Prop := {
  no_choice : forall t, t ∈ nodes -> has SYMBOL_CHOICE (cflags w t) = false;
  no_value : forall t, t ∈ nodes -> has SYMBOL_CHOICEVAL (cflags w t) = false;
  check_is_stack : forall t, t ∈ nodes -> has SYMBOL_CHECK (cflags w t) = bool_decide (t ∈ stack w);
  stack_checked : forall t, t ∈ stack w -> checked w t = true;
  stack_chain : chain (stack w);
  stack_nodes : forall t, t ∈ stack w -> t ∈ nodes
}.

(** Every symbol of the list comes before those it uses. *)
Fixpoint sorted (l : list symbol) : Prop :=
  match l with [] => True | s :: l => (s ∉ l) /\ Forall (fun t => t ∈ l) (checked_uses (decl s)) /\ sorted l end.

(** Nothing was reported, and the finished symbols are sorted. *)
Definition clean (w : check_world) : Prop :=
  printed w = [] /\ exists l, sorted l /\
    forall t, t ∈ l <-> t ∈ nodes /\ checked w t = true /\ t ∉ stack w.

Definition fine (w : check_world) : Prop := clean w \/ (cyclic /\ printed w <> []).

Lemma clean_printed w : clean w -> printed w = [].
Proof. by intros []. Qed.

(** What a part of the search does that looks at the symbols [l]. *)
Record found (l : list symbol) (o : option symbol) (w w' : check_world) : Prop := {
  found_stack : stack w' = stack w;
  found_searching : searching w';
  found_fine : fine w';
  found_checked : forall t, checked w t = true -> checked w' t = true;
  found_printed : printed w <> [] -> printed w' <> [];
  found_clean : clean w' -> o = None /\ Forall (fun t => checked w' t = true /\ t ∉ stack w) l;
  found_cyclic : o <> None -> cyclic;
  found_error : recursive_is_error = true -> clean w -> o = None -> clean w'
}.

Definition unchecked (w : check_world) : nat := length (List.filter (fun t => negb (checked w t)) nodes).

Lemma unchecked_le w w' :
  (forall t, checked w t = true -> checked w' t = true) -> (unchecked w' <= unchecked w)%nat.
Proof.
  intros H. apply count_le. intros t _ Ht. specialize (H t). destruct (checked w t), (checked w' t); try done.
  by specialize (H eq_refl).
Qed.

Lemma found_nil w : searching w -> fine w -> found [] None w w.
Proof. intros Hs Hf. split; auto; done. Qed.

(** One part after another: the second is left out when the first found something. *)
Lemma found_app l1 l2 o w w1 w2 :
  found l1 None w w1 -> found l2 o w1 w2 -> found (l1 ++ l2) o w w2.
Proof.
  intros [E1 S1 F1 K1 P1 C1 Y1 R1] [E2 S2 F2 K2 P2 C2 Y2 R2]. split; auto; try congruence.
  - intros Hc. destruct (C2 Hc) as [-> H2]. split; [done|]. apply Forall_app. split.
    + assert (clean w1) as Hc1.
      { destruct F1 as [|[_ Hp]]; [done|]. destruct (P2 Hp). by apply clean_printed. }
      destruct (C1 Hc1) as [_ H1]. revert H1. apply List.Forall_impl. intros t [Ht Hn]. auto.
    + by rewrite <- E1.
Qed.

Lemma found_stop l1 l2 s w w' : found l1 (Some s) w w' -> found (l1 ++ l2) (Some s) w w'.
Proof.
  intros [E1 S1 F1 K1 P1 C1 Y1 R1]. split; auto. intros Hc. by destruct (C1 Hc).
Qed.

Lemma runs_flag k s w (Q : bool -> check_world -> Prop) : Q (has k (cflags w s)) w -> runs (flag_of k s) w Q.
Proof. done. Qed.

(** States that differ only in what the records of the stack say. *)
Definition same_search (w w' : check_world) : Prop :=
  stack w' = stack w /\ cflags w' = cflags w /\ printed w' = printed w.

Lemma same_searching w w' : same_search w w' -> searching w -> searching w'.
Proof.
  intros (Es & Ef & Ep) [H1 H2 H3 H4 H5 H6].
  split; unfold checked in *; rewrite ?Ef, ?Es; auto.
Qed.

Lemma same_clean w w' : same_search w w' -> clean w -> clean w'.
Proof. intros (Es & Ef & Ep) H. unfold clean, checked in *. by rewrite Es, Ef, Ep. Qed.

Lemma same_fine w w' : same_search w w' -> fine w -> fine w'.
Proof.
  intros Hs [H|[Hc Hp]]; [left; by apply (same_clean w)|right]. split; [done|]. by rewrite (proj2 (proj2 Hs)).
Qed.

Lemma same_unchecked w w' : same_search w w' -> unchecked w' = unchecked w.
Proof. intros (_ & Ef & _). unfold unchecked, checked. by rewrite Ef. Qed.

Lemma found_same l o w w1 w' : same_search w w1 -> found l o w1 w' -> found l o w w'.
Proof.
  intros Hs [E1 S1 F1 K1 P1 C1 Y1 R1]. pose proof Hs as (Es & Ef & Ep). split; auto.
  - congruence.
  - intros t Ht. apply K1. unfold checked in *. by rewrite Ef.
  - by rewrite <- Ep.
  - by rewrite <- Es.
  - intros Hr Hc. apply R1; [done|by apply (same_clean w)].
Qed.

(** ** The parts of the search below one symbol *)

Section Below.
Context (f : symbol -> prog check_world (option symbol)) (n : nat) (s : symbol) (Hs : s ∈ nodes).
Context (f_ok : forall t w, t ∈ nodes -> searching w -> fine w -> (unchecked w < n)%nat ->
  match stack w with s :: _ => uses s t | [] => True end -> runs (f t) w (fun o w' => found [t] o w w')).

(** A program that looks at [l], with the record of [s] on top of the stack. *)
Definition seeks (l : list symbol) (p : prog check_world (option symbol)) : Prop :=
  forall w, searching w -> fine w -> head (stack w) = Some s -> (unchecked w < n)%nat ->
    runs p w (fun o w' => found l o w w').

Lemma seeks_nil : seeks [] (mret None).
Proof. intros w Hw Hf _ _. by apply found_nil. Qed.

Lemma seeks_one t : uses s t -> seeks [t] (f t).
Proof.
  intros Ht w Hw Hf Hh Hn. apply f_ok; auto.
  - pose proof (closed s Hs) as H. rewrite List.Forall_forall in H. apply H, list_elem_of_In, Ht.
  - destruct (stack w); [done|]. by injection Hh as ->.
Qed.

Lemma seeks_or l1 l2 p q : seeks l1 p -> seeks l2 q -> seeks (l1 ++ l2) (o ← p; or_else o q).
Proof.
  intros Hp Hq w Hw Hf Hh Hn. eapply runs_step; [by apply Hp|]. intros [t|] w1 H1; cbn [or_else].
  - by apply found_stop.
  - pose proof H1 as [E1 S1 F1 K1 _ _ _ _].
    eapply runs_mono; [apply Hq; [done|done|by rewrite E1|pose proof (unchecked_le w w1 K1); lia]|].
    intros o w2 H2. by apply (found_app _ _ _ _ w1).
Qed.

Lemma seeks_top l p g : (forall d, ssym (g d) = ssym d) -> seeks l p -> seeks l (on_top g;; p).
Proof.
  intros Hg Hp w Hw Hf Hh Hn. apply runs_bind, runs_modify. set (w1 := CheckWorld _ _ _).
  assert (same_search w w1) as Hsame.
  { split; [|done]. unfold w1, stack. cbn. destruct (check_top w) as [|d l']; [done|]. cbn. by rewrite Hg. }
  eapply runs_mono; [apply Hp|].
  - by apply (same_searching w).
  - by apply (same_fine w).
  - by rewrite (proj1 Hsame).
  - by rewrite (same_unchecked w).
  - intros o w2. by apply found_same.
Qed.

Lemma seeks_expr e : (forall t, t ∈ expr_symbols e -> uses s t) -> seeks (expr_symbols e) (check_expr f e).
Proof.
  induction e as [t|e IH|op l IHl r IHr|rel a b]; cbn [expr_symbols check_expr]; intros H.
  - apply seeks_one, H. by left.
  - by apply IH.
  - apply seeks_or; [apply IHl|apply IHr]; intros t Ht; apply H, elem_of_app; auto.
  - apply (seeks_or [a] [b]); apply seeks_one, H; [by left|right; by left].
Qed.

Lemma seeks_opt e :
  (forall t, t ∈ opt_symbols e -> uses s t) -> seeks (opt_symbols e) (sym_check_expr_deps f e).
Proof. destruct e; [apply seeks_expr|intros _; apply seeks_nil]. Qed.

Lemma seeks_flag l k : seeks l (k false) -> seeks l (c ← flag_of SYMBOL_CHOICE s; k c).
Proof.
  intros Hk w Hw Hf Hh Hn. apply runs_bind, runs_flag. rewrite (no_choice _ Hw s Hs). by apply Hk.
Qed.

Lemma seeks_props l :
  (forall p, p ∈ l -> ptype p = P_DEFAULT ->
     match pexpr p with Some (PE_LIST _) | Some (PE_RANGE _ _) => False | _ => True end) ->
  (forall t, t ∈ flat_map checked_prop l -> uses s t) ->
  seeks (flat_map checked_prop l) (check_props f s l).
Proof.
  induction l as [|p l IH]; intros Hd Hu; cbn [flat_map check_props]; [apply seeks_nil|].
  assert (seeks (flat_map checked_prop l) (check_props f s l)) as Hl.
  { apply IH; [intros q Hq; apply Hd; by right|]. intros t Ht. apply Hu. cbn. apply elem_of_app. by right. }
  assert (forall t, t ∈ checked_prop p -> uses s t) as Hp.
  { intros t Ht. apply Hu. cbn. apply elem_of_app. by left. }
  unfold checked_prop in *. destruct (_ || _); [done|]. rewrite <- app_assoc.
  apply seeks_top; [done|]. apply seeks_or; [apply seeks_opt; intros t Ht; apply Hp, elem_of_app; by left|].
  apply seeks_flag. rewrite orb_false_r. destruct (bool_decide (ptype p = P_DEFAULT)) eqn:Et; cbn [negb]; [|done].
  apply bool_decide_eq_true in Et. specialize (Hd p ltac:(by left) Et).
  apply seeks_top; [done|]. apply seeks_or; [|by apply seeks_top].
  unfold check_prop_expr. destruct (pexpr p) as [[e| |]|]; [|done|done|apply seeks_nil].
  apply seeks_expr. intros t Ht. apply Hp, elem_of_app. by right.
Qed.

Lemma seeks_all :
  (forall p, p ∈ sprop (decl s) -> ptype p = P_DEFAULT ->
     match pexpr p with Some (PE_LIST _) | Some (PE_RANGE _ _) => False | _ => True end) ->
  seeks (checked_uses (decl s)) (check_parts decl f s).
Proof.
  intros Hd. assert (forall t, t ∈ checked_uses (decl s) -> uses s t) as H by by split.
  unfold checked_uses, check_parts in *. setoid_rewrite elem_of_app in H.
  apply seeks_or; [apply seeks_top; [done|apply seeks_opt; auto]|].
  setoid_rewrite elem_of_app in H. apply seeks_or; [apply seeks_top; [done|apply seeks_opt; auto]|].
  setoid_rewrite elem_of_app in H. apply seeks_or; [apply seeks_top; [done|apply seeks_opt; auto]|].
  apply seeks_top; [done|]. apply seeks_props; auto.
Qed.
End Below.

(** ** The report *)

Lemma chain_path s st u : chain (s :: st) -> u ∈ s :: st -> rtc uses u s.
Proof.
  revert s. induction st as [|t st IH]; intros s Hc Hu.
  { apply list_elem_of_singleton in Hu as ->. by apply rtc_refl. }
  apply elem_of_cons in Hu as [->|Hu]; [by apply rtc_refl|].
  destruct Hc as [Hts Hc]. eapply rtc_r; [by apply (IH t)|done].
Qed.

Lemma chain_uses s st u t : chain (s :: st) -> uses s u -> t ∈ s :: st -> exists v, uses t v.
Proof.
  revert s u. induction st as [|t' st IH]; intros s u Hc Hu Ht.
  { apply list_elem_of_singleton in Ht as ->. by exists u. }
  apply elem_of_cons in Ht as [->|Ht]; [by exists u|]. destruct Hc as [Hts Hc]. by apply (IH t' s).
Qed.

Lemma stack_from_found u l above :
  u ∈ map ssym l -> exists l', stack_from u l above = Some l' /\ forall d, d ∈ l' -> d ∈ l \/ d ∈ above.
Proof.
  revert above. induction l as [|d l IH]; intros above Hu; [by apply not_elem_of_nil in Hu|]. cbn in *.
  case_bool_decide as E.
  { eexists. split; [done|]. intros d' [->|Hd]%elem_of_cons; [left; by left|by right]. }
  apply elem_of_cons in Hu as [->|Hu]; [done|]. destruct (IH (d :: above) Hu) as (l' & -> & H). exists l'.
  split; [done|]. intros d' Hd'. destruct (H d' Hd') as [?|[->|?]%elem_of_cons];
    [left; by right|left; by left|by right].
Qed.

(** Lines are printed, nothing else changes. *)
Definition prints (w w' : check_world) : Prop := check_top w' = check_top w /\ cflags w' = cflags w.

Lemma runs_print_stack u l menu w :
  (forall d, d ∈ l -> has SYMBOL_CHOICE (cflags w (ssym d)) = false /\
     has SYMBOL_CHOICEVAL (cflags w (ssym d)) = false /\ sprop (decl (ssym d)) <> []) ->
  runs (print_stack decl menu_at u l menu) w (fun _ w' => prints w w').
Proof.
  revert menu w. induction l as [|d l IH]; intros menu w H; cbn [print_stack]; [done|].
  destruct (H d ltac:(by left)) as (H1 & H2 & H3).
  assert (exists p, match sprops d with Some p => Some p | None => head (sprop (decl (ssym d))) end = Some p) as [p Ep].
  { destruct (sprops d) as [p|]; [by exists p|]. destruct (sprop (decl (ssym d))) as [|p ?]; [done|]. by exists p. }
  rewrite Ep. apply runs_bind, runs_flag. rewrite H1. apply runs_bind, runs_flag. rewrite H2. cbn [orb].
  set (k := fun _ : unit => _). assert (forall w', prints w w' -> runs (k tt) w' (fun _ w'' => prints w w'')) as Hk.
  { intros w' [Et Ef]. apply runs_bind, runs_bind, runs_defined, runs_modify.
    eapply runs_mono; [apply IH|].
    - cbn. rewrite Ef. intros d' Hd'. apply H. by right.
    - intros _ w'' [Et' Ef']. cbn in *. split; congruence. }
  case_bool_decide; apply runs_bind.
  - apply runs_bind, runs_defined, runs_modify. by apply Hk.
  - by apply runs_ret, Hk.
Qed.

Lemma runs_report u w :
  searching w -> u ∈ stack w -> match stack w with s :: _ => uses s u | [] => True end ->
  runs (sym_check_print_recursive decl menu_at u) w (fun _ w' => prints w w' /\ printed w' <> []).
Proof.
  intros Hw Hu Hh. apply runs_bind, runs_flag.
  rewrite (no_value _ Hw u) by by apply (stack_nodes _ Hw).
  apply runs_bind, runs_bind, runs_get.
  destruct (stack_from_found u (check_top w) []) as (l & -> & Hl); [done|].
  eapply runs_step; [apply runs_print_stack|].
  - intros d Hd. destruct (Hl d Hd) as [Hin|Hin]; [|by apply not_elem_of_nil in Hin].
    assert (ssym d ∈ stack w) as Hst by (apply list_elem_of_In, in_map, list_elem_of_In, Hin).
    pose proof (stack_nodes _ Hw _ Hst) as Hn. split; [by apply (no_choice _ Hw)|]. split; [by apply (no_value _ Hw)|].
    apply has_prop; [done|]. pose proof (stack_chain _ Hw) as Hc. destruct (stack w) as [|s st] eqn:Es; [by apply not_elem_of_nil in Hst|].
    destruct (chain_uses s st u (ssym d) Hc Hh Hst) as (v & _ & Hv). intros E. rewrite E in Hv. by apply not_elem_of_nil in Hv.
  - intros _ w1 [Et Ef]. do 3 (apply runs_bind, runs_modify). by repeat split.
Qed.

(** ** One symbol *)

#[local] Abbreviation body := (check_body decl menu_at recursive_is_error).

Lemma found_report u w w1 :
  searching w -> u ∈ stack w -> match stack w with s :: _ => uses s u | [] => True end ->
  prints w w1 -> printed w1 <> [] -> found [u] (Some u) w w1.
Proof.
  intros Hw Hu Hh [Et Ef] Hp. assert (stack w1 = stack w) as Es by (unfold stack; by rewrite Et).
  assert (cyclic) as Hc.
  { exists u. pose proof (stack_chain _ Hw) as Hch. destruct (stack w) as [|s st]; [by apply not_elem_of_nil in Hu|].
    eapply tc_rtc_l; [by apply (chain_path s st u)|by apply tc_once]. }
  split; auto; try done.
  - destruct Hw as [H1 H2 H3 H4 H5 H6]. split; unfold checked in *; rewrite ?Ef, ?Es; auto.
  - by right.
  - intros t. unfold checked. by rewrite Ef.
  - intros Hcl. by rewrite (clean_printed _ Hcl) in Hp.
Qed.

(** The state in which the uses of [u] are checked. *)
Definition entered (u : symbol) (w : check_world) : check_world :=
  CheckWorld (update u (with_flag (Z.lor SYMBOL_CHECK SYMBOL_CHECKED)) (cflags w))
    (DepStack u None AT_NONE :: check_top w) (printed w).

Lemma entered_flag u w k t :
  has k (cflags (entered u w) t) =
  has k (cflags w t) || bool_decide (t = u) && has k (Z.lor SYMBOL_CHECK SYMBOL_CHECKED).
Proof.
  cbn. unfold update. destruct (decide (t = u)) as [->|Hne].
  - rewrite bool_decide_eq_true_2 by done. apply has_with.
  - rewrite bool_decide_eq_false_2 by done. by rewrite orb_false_r.
Qed.

Section Entering.
Context (u : symbol) (w : check_world) (Hu : u ∈ nodes) (Hw : searching w) (Hn : u ∉ stack w)
  (Hk : checked w u = false).

Lemma entered_searching :
  match stack w with s :: _ => uses s u | [] => True end -> searching (entered u w).
Proof.
  intros Hh. pose proof Hw as [H1 H2 H3 H4 H5 H6]. split.
  - intros t Ht. rewrite entered_flag, H1 by done. by rewrite andb_false_r.
  - intros t Ht. rewrite entered_flag, H2 by done. by rewrite andb_false_r.
  - intros t Ht. rewrite entered_flag, H3, andb_true_r by done. apply eq_bool_prop_intro.
    rewrite orb_True, !bool_decide_spec. cbn. rewrite elem_of_cons. tauto.
  - intros t. cbn. unfold checked. rewrite entered_flag, andb_true_r.
    intros [->|Ht]%elem_of_cons; [by rewrite bool_decide_eq_true_2, orb_true_r|].
    specialize (H4 t Ht). unfold checked in H4. by rewrite H4.
  - split; [exact Hh|exact H5].
  - cbn. intros t [->|Ht]%elem_of_cons; auto.
Qed.

Lemma entered_checked t : checked (entered u w) t = checked w t || bool_decide (t = u).
Proof. unfold checked. rewrite entered_flag. by rewrite andb_true_r. Qed.

Lemma entered_clean : clean w -> clean (entered u w).
Proof.
  intros [Hp (l & Hl & H)]. split; [done|]. exists l. split; [done|]. intros t. rewrite (H t).
  apply and_iff_compat_l. rewrite entered_checked. cbn. rewrite not_elem_of_cons, orb_true_iff, bool_decide_eq_true.
  split; [|by intros [[?|?] [? ?]]]. intros [Hc Hs]. split; [by left|]. split; [|done]. intros ->. by rewrite Hk in Hc.
Qed.

Lemma entered_fine : fine w -> fine (entered u w).
Proof. intros [H|H]; [left; by apply entered_clean|by right]. Qed.

Lemma entered_unchecked : (unchecked (entered u w) < unchecked w)%nat.
Proof.
  apply (count_lt _ _ _ u); [|done|by rewrite entered_checked, bool_decide_eq_true_2, orb_true_r|by rewrite Hk].
  intros t _. rewrite entered_checked. by destruct (checked w t).
Qed.

(** And back. *)
Definition left_ (w3 : check_world) : check_world :=
  CheckWorld (update u (without_flag SYMBOL_CHECK) (cflags w3)) (tail (check_top w3)) (printed w3).

Lemma left_flag w3 k t :
  Z.land k SYMBOL_CHECK = 0 -> has k (cflags (left_ w3) t) = has k (cflags w3 t).
Proof.
  intros E. cbn. unfold update. destruct (decide (t = u)) as [->|Hne]; [by apply has_without|done].
Qed.

Lemma left_stack w3 : stack w3 = u :: stack w -> stack (left_ w3) = stack w.
Proof. unfold stack. cbn. destruct (check_top w3); cbn; [done|]. by intros [=]. Qed.

Lemma left_searching w3 : stack w3 = u :: stack w -> searching w3 -> searching (left_ w3).
Proof.
  intros Es [H1 H2 H3 H4 H5 H6]. pose proof (left_stack w3 Es) as El. rewrite Es in *. split; rewrite ?El.
  - intros t Ht. rewrite left_flag by done. auto.
  - intros t Ht. rewrite left_flag by done. auto.
  - intros t Ht. destruct (decide (t = u)) as [->|Hne].
    + rewrite bool_decide_eq_false_2 by done. cbn. unfold update. rewrite decide_True by done.
      unfold has, without_flag. apply negb_false_iff, Z.eqb_eq, Z.bits_inj'. intros i Hi.
      rewrite Z.land_spec, Z.ldiff_spec, Z.bits_0. by destruct (Z.testbit _ _), (Z.testbit SYMBOL_CHECK _).
    + cbn. unfold update. rewrite decide_False by done. rewrite H3 by done. apply bool_decide_ext.
      rewrite elem_of_cons. tauto.
  - intros t Ht. unfold checked. rewrite left_flag by done. apply H4. by right.
  - by destruct H5.
  - intros t Ht. apply H6. by right.
Qed.

Lemma left_clean w3 :
  stack w3 = u :: stack w -> checked w3 u = true ->
  Forall (fun t => checked w3 t = true /\ t ∉ u :: stack w) (checked_uses (decl u)) ->
  clean w3 -> clean (left_ w3).
Proof.
  intros Es Hc Huses [Hp (l & Hl & H)]. split; [done|]. exists (u :: l). split.
  - split; [|split; [|done]].
    + rewrite (H u), Es. intros (_ & _ & Hnot). by destruct Hnot; left.
    + pose proof (closed u Hu) as Hcl. rewrite Forall_forall in *. intros t Ht.
      apply (H t). rewrite Es. split; [by apply Hcl|by apply Huses].
  - intros t. rewrite elem_of_cons, (H t), Es, (left_stack w3 Es). unfold checked. rewrite left_flag by done.
    rewrite not_elem_of_cons. destruct (decide (t = u)) as [->|Hne]; [|tauto].
    split; [by intros _|by left].
Qed.
End Entering.

Context (defaults : forall s p, s ∈ nodes -> p ∈ sprop (decl s) -> ptype p = P_DEFAULT ->
  match pexpr p with Some (PE_LIST _) | Some (PE_RANGE _ _) => False | _ => True end).

(** Leaving a symbol whose uses were searched. *)
Lemma found_leave u w w3 o :
  u ∈ nodes -> searching w -> u ∉ stack w -> checked w u = false ->
  found (checked_uses (decl u)) o (entered u w) w3 ->
  found [u] (if negb recursive_is_error && bool_decide (o = Some u) then None else o) w (left_ u w3).
Proof.
  intros Hu Hw Hn Hk [Es Sw F K P C Y R]. change (stack (entered u w)) with (u :: stack w) in *.
  assert (checked w3 u = true) as Hc3 by (apply K; rewrite entered_checked; by rewrite bool_decide_eq_true_2, orb_true_r).
  assert (clean w3 -> o = None /\ clean (left_ u w3)) as Hclean.
  { intros Hc. destruct (C Hc) as [-> Huses]. split; [done|]. by apply (left_clean u w). }
  assert (clean (left_ u w3) -> clean w3) as Hback.
  { intros [Hp _]. destruct F as [|[_ H]]; [done|by destruct H]. }
  assert (forall t, checked (left_ u w3) t = checked w3 t) as Hck by (intros t; by apply left_flag).
  split.
  - by apply left_stack.
  - by apply (left_searching u w).
  - destruct F as [Hc|H]; [left; by apply Hclean|by right].
  - intros t Ht. rewrite Hck. apply K. by rewrite entered_checked, Ht.
  - exact P.
  - intros Hc. destruct (Hclean (Hback Hc)) as [-> _]. split; [by destruct recursive_is_error|].
    apply Forall_cons_2; [|apply Forall_nil_2]. by rewrite Hck.
  - intros Ho. apply Y. intros ->. by destruct recursive_is_error.
  - intros Hr Hc. rewrite Hr. cbn [negb andb]. intros ->. apply Hclean, R; [done| |done]. by apply entered_clean.
Qed.

Lemma runs_check_body f n u w :
  (forall t w, t ∈ nodes -> searching w -> fine w -> (unchecked w < n)%nat ->
     match stack w with s :: _ => uses s t | [] => True end -> runs (f t) w (fun o w' => found [t] o w w')) ->
  u ∈ nodes -> searching w -> fine w -> (unchecked w < S n)%nat ->
  match stack w with s :: _ => uses s u | [] => True end ->
  runs (body f u) w (fun o w' => found [u] o w w').
Proof.
  intros Hf Hu Hw Hfine Hn Hh. apply runs_bind, runs_flag, runs_bind, runs_flag.
  rewrite (check_is_stack _ Hw u Hu). case_bool_decide as Hst.
  { eapply runs_step; [by apply runs_report|]. intros _ w1 [Hp H]. by apply found_report. }
  change (has SYMBOL_CHECKED (cflags w u)) with (checked w u). destruct (checked w u) eqn:Hk.
  { by split; auto. }
  apply runs_bind, runs_bind, runs_flag, runs_bind, runs_flag. rewrite (no_value _ Hw u Hu), (no_choice _ Hw u Hu).
  apply runs_bind, runs_modify, runs_bind, runs_bind, runs_modify.
  change (CheckWorld (cflags _) _ _) with (entered u w). apply (runs_bind (check_parts decl f u)).
  pose proof (entered_unchecked u w Hu Hk) as Hlt.
  eapply runs_mono; [apply (seeks_all f n u Hu Hf); [by intros p; apply defaults|..]|].
  - by apply entered_searching.
  - by apply entered_fine.
  - done.
  - lia.
  - intros o w3 H. apply runs_bind, runs_modify, runs_ret, runs_bind, runs_modify, runs_ret, runs_ret.
    exact (found_leave u w w3 o Hu Hw Hst Hk H).
Qed.

Lemma runs_check n u w :
  u ∈ nodes -> searching w -> fine w -> (unchecked w < n)%nat ->
  match stack w with s :: _ => uses s u | [] => True end ->
  runs (sym_check_deps decl menu_at recursive_is_error n u) w (fun o w' => found [u] o w w').
Proof.
  revert u w. induction n as [|n IH]; intros u w Hu Hw Hf Hn Hh; [lia|].
  by apply (runs_check_body _ n).
Qed.

(** ** All symbols *)

Lemma runs_check_all n l w :
  (forall t, t ∈ l -> t ∈ nodes) -> searching w -> fine w -> stack w = [] -> (unchecked w < n)%nat ->
  runs (check_all decl menu_at recursive_is_error n l) w (fun k w' =>
    searching w' /\ fine w' /\ stack w' = [] /\ 0 <= k /\ (clean w' -> k = 0) /\ (k <> 0 -> cyclic) /\
    (printed w <> [] -> printed w' <> []) /\
    (forall t, checked w t = true -> checked w' t = true) /\
    (clean w' -> Forall (fun t => checked w' t = true) l) /\
    (recursive_is_error = true -> clean w -> k = 0 -> clean w')).
Proof.
  revert w. induction l as [|u l IH]; intros w Hl Hw Hf Hst Hn; cbn [check_all].
  { assert (0 <> 0 -> cyclic) by done. assert (0 <= 0) by lia. by split_and!; auto. }
  eapply runs_step; [apply runs_check; [apply Hl; by left|done|done|exact Hn|by rewrite Hst]|].
  intros o w1 [Es Sw F K P C Y R].
  eapply runs_step.
  { apply IH; [intros t Ht; apply Hl; by right|done|done|congruence|]. pose proof (unchecked_le w w1 K). lia. }
  intros k w2 (S2 & F2 & E2 & K0 & C2 & Y2 & P2 & K2 & A2 & R2). apply runs_ret.
  assert (clean w2 -> clean w1) as Hback.
  { intros Hc. destruct F as [|[_ H]]; [done|]. by destruct (P2 H (clean_printed _ Hc)). }
  split_and!; auto.
  - case_bool_decide; lia.
  - intros Hc. rewrite (C2 Hc). destruct (C (Hback Hc)) as [-> _]. done.
  - case_bool_decide as Ho; [|by intros _; apply Y]. rewrite Z.add_0_r. auto.
  - intros Hc. apply Forall_cons_2; [|auto]. destruct (C (Hback Hc)) as [_ H]. apply K2. by apply Forall_cons_1 in H as [[]].
  - intros Hr Hc Hk. case_bool_decide as Ho; [|lia]. apply R2; [done| |lia]. by apply R.
Qed.
End Search.
