(* ===== verification/KSymCheckProofs.v ===== *)
(** * What the check for recursive dependencies guarantees

    [sym_check_deps] over all symbols finds a recursive dependency exactly when there is
    one; a configuration in which nothing is reported can be ordered, as the theorems on
    the calculation of values require, if the bounds of ranges are plain numbers, which
    the check does not look at. *)

From Stdlib Require Import ZArith Lia String Ascii.
From stdpp Require Import base list strings numbers option relations pretty.
From S2P Require Import Prelude CString KExpr KExprOps KSym KSymSpec KSymFacts KSymCalc KSymOrder KSymSet KSymProofs KSymCheck KSymCheckFacts.

(** ** Positions in a sorted list *)

Fixpoint position (l : list symbol) (t : symbol) : nat :=
  match l with [] => 0%nat | s :: l => if decide (t = s) then length l else position l t end.

Lemma position_lt l t : t ∈ l -> (position l t < length l)%nat.
Proof.
  induction l as [|s l IH]; intros Ht; [by apply not_elem_of_nil in Ht|]. cbn.
  destruct (decide (t = s)) as [->|Hne]; [lia|]. apply elem_of_cons in Ht as [->|Ht]; [done|]. specialize (IH Ht). lia.
Qed.

Lemma sorted_position decl l t u :
  sorted decl l -> t ∈ l -> u ∈ checked_uses (decl t) -> u ∈ l /\ (position l u < position l t)%nat.
Proof.
  induction l as [|s l IH]; intros Hl Ht Hu; [by apply not_elem_of_nil in Ht|].
  destruct Hl as (Hs & Huses & Hl). rewrite Forall_forall in Huses. cbn.
  assert (forall v, v ∈ l -> v <> s) as Hne by (intros v Hv ->; done).
  destruct (decide (t = s)) as [->|Hts].
  - pose proof (Huses u Hu) as Hul. split; [by right|].
    rewrite decide_False by auto. by apply position_lt.
  - apply elem_of_cons in Ht as [->|Ht]; [done|]. destruct (IH Hl Ht Hu) as [Hul Hlt].
    split; [by right|]. by rewrite decide_False by auto.
Qed.

Lemma sorted_nodup decl l : sorted decl l -> NoDup l.
Proof.
  induction l as [|s l IH]; intros Hl; [apply NoDup_nil_2|]. destruct Hl as (Hs & _ & Hl). apply NoDup_cons_2; auto.
Qed.

Lemma sorted_acyclic decl nodes l s :
  sorted decl l -> s ∈ l -> tc (uses decl nodes) s s -> False.
Proof.
  intros Hl Hs Hc.
  assert (forall a b, tc (uses decl nodes) a b -> a ∈ l -> b ∈ l /\ (position l b < position l a)%nat) as H.
  { intros a b Hab. induction Hab as [a b [_ Hu]|a b c [_ Hu] Hbc IH]; intros Ha.
    - by apply (sorted_position decl).
    - destruct (sorted_position decl l a b Hl Ha Hu) as [Hb Hlt]. destruct (IH Hb) as [Hcl Hlt2]. split; [done|lia]. }
  destruct (H s s Hc Hs) as [_ Hlt]. lia.
Qed.

(** ** Configurations as the parser leaves them *)

Section Parsed.
Context (decl : symbol -> declaration) (all_symbols : list symbol).

Definition reachable : list symbol := [symbol_yes; symbol_mod; symbol_no] ++ all_symbols.

(** No choices; the constants and the symbols of the hash table are all there is; a symbol
    with dependencies has a property, and a default is an expression. *)
Record parsed (w : check_world) : Prop := {
  parsed_plain : forall t, t ∈ reachable ->
    has (Z.lor SYMBOL_CHOICE SYMBOL_CHOICEVAL) (cflags w t) = false /\
    has (Z.lor SYMBOL_CHECK SYMBOL_CHECKED) (cflags w t) = false;
  parsed_top : check_top w = [];
  parsed_quiet : printed w = [];
  parsed_constant : forall t, constant t = true -> checked_uses (decl t) = [];
  parsed_closed : forall s, s ∈ all_symbols -> Forall (fun t => t ∈ reachable) (checked_uses (decl s));
  parsed_props : forall s, s ∈ all_symbols -> checked_uses (decl s) <> [] -> sprop (decl s) <> [];
  parsed_defaults : forall s p, s ∈ reachable -> p ∈ sprop (decl s) -> ptype p = P_DEFAULT ->
    match pexpr p with Some (PE_LIST _) | Some (PE_RANGE _ _) => False | _ => True end
}.

Lemma reachable_cases t : t ∈ reachable <-> constant t = true \/ t ∈ all_symbols.
Proof.
  unfold reachable. rewrite !elem_of_app, !elem_of_cons, elem_of_nil. split.
  - intros [[-> |[-> |[-> | []]]]|H]; auto.
  - intros [H|H]; [|by right]. left. destruct t; try done; tauto.
Qed.

Lemma has_lor a b f : has (Z.lor a b) f = has a f || has b f.
Proof.
  pose proof (has_with f b a) as H. unfold has, with_flag in *. by rewrite !(Z.land_comm f).
Qed.

Lemma parsed_searching w : parsed w -> searching decl reachable w /\ fine decl reachable w.
Proof.
  intros [H1 H2 H3 _ _ _ _]. assert (stack w = []) as Es by (unfold stack; by rewrite H2).
  assert (forall t, t ∈ reachable -> has SYMBOL_CHECK (cflags w t) = false /\ checked w t = false) as Hf.
  { intros t Ht. destruct (H1 t Ht) as [_ H]. rewrite has_lor in H. by apply orb_false_iff in H. }
  split.
  - split; rewrite ?Es; try done.
    + intros t Ht. destruct (H1 t Ht) as [H _]. rewrite has_lor in H. by apply orb_false_iff in H as [H _].
    + intros t Ht. destruct (H1 t Ht) as [H _]. rewrite has_lor in H. by apply orb_false_iff in H as [_ H].
    + intros t Ht. rewrite bool_decide_eq_false_2 by apply not_elem_of_nil. by apply Hf.
    + intros t Ht. by apply not_elem_of_nil in Ht.
    + intros t Ht. by apply not_elem_of_nil in Ht.
  - left. split; [done|]. exists []. split; [done|]. intros t. rewrite elem_of_nil. split; [done|].
    intros (Ht & Hc & _). by rewrite (proj2 (Hf t Ht)) in Hc.
Qed.

(** The run of the whole check. *)
Lemma runs_parsed menu_at recursive_is_error fuel w :
  parsed w -> (length all_symbols + 3 < fuel)%nat ->
  runs (check_all decl menu_at recursive_is_error fuel all_symbols) w (fun n w' =>
    fine decl reachable w' /\ stack w' = [] /\ 0 <= n /\ (clean decl reachable w' -> n = 0) /\
    (n <> 0 -> cyclic decl reachable) /\
    (clean decl reachable w' -> Forall (fun t => checked w' t = true) all_symbols) /\
    (recursive_is_error = true -> n = 0 -> clean decl reachable w')).
Proof.
  intros Hp Hfuel. destruct (parsed_searching w Hp) as [Hs Hf]. pose proof Hp as [_ H2 H3 H4 H5 H6 H7].
  assert (stack w = []) as Es by (unfold stack; by rewrite H2).
  eapply runs_mono; [apply (runs_check_all decl menu_at recursive_is_error reachable)|].
  - intros s [Hc|Hin]%reachable_cases; [by rewrite (H4 s Hc)|by apply H5].
  - intros s [Hc|Hin]%reachable_cases Hne; [by rewrite (H4 s Hc) in Hne|by apply H6].
  - exact H7.
  - intros t Ht. apply reachable_cases. by right.
  - done.
  - done.
  - done.
  - unfold unchecked. pose proof (count_le (fun t => negb (checked w t)) (fun _ => true) reachable) as Hle.
    rewrite filter_true in Hle. unfold reachable in *. rewrite length_app in Hle. cbn in Hle. cbn.
    specialize (Hle (fun _ _ _ => eq_refl)). lia.
  - intros n w' (_ & F & S & N & C & Y & _ & _ & A & R). split_and!; auto.
    intros Hr Hn. apply R; [done| |done]. destruct Hf as [|[_ H]]; [done|by destruct H].
Qed.

(** A clean result rules out cycles. *)
Lemma clean_acyclic w w' :
  parsed w -> stack w' = [] -> clean decl reachable w' -> Forall (fun t => checked w' t = true) all_symbols ->
  ~ cyclic decl reachable.
Proof.
  intros Hp Es [_ (l & Hl & H)] Hall [s Hs]. rewrite Forall_forall in Hall.
  assert (s ∈ l) as Hsl.
  { apply H. assert (exists t, uses decl reachable s t) as (t & Hr & Ht).
    { inversion Hs; subst; eexists; eassumption. }
    split; [done|]. split; [|rewrite Es; apply not_elem_of_nil]. apply Hall.
    apply reachable_cases in Hr as [Hc|Hin]; [|done]. rewrite (parsed_constant _ Hp s Hc) in Ht.
    by apply not_elem_of_nil in Ht. }
  by apply (sorted_acyclic decl reachable l s).
Qed.

(** ** Ranks *)

Context (modules_sym : symbol).

(** What the check does not look at: the bounds of ranges are symbols that use nothing;
    prompts are no [select]s; [MODULES] is a boolean that uses constants only. *)
Record bounded : Prop := {
  bounded_range : forall s p t, s ∈ all_symbols -> p ∈ sprop (decl s) -> ptype p = P_RANGE -> t ∈ prop_symbols p ->
    t ∈ reachable /\ used (decl t) = [];
  bounded_text : forall s p, s ∈ all_symbols -> p ∈ sprop (decl s) -> is_Some (ptext p) ->
    ptype p <> P_CHOICE /\ ptype p <> P_SELECT /\ ptype p <> P_IMPLY;
  bounded_variable : forall t, t ∈ all_symbols -> constant t = false;
  bounded_type : forall t, constant t = true -> stype (decl t) = S_UNKNOWN;
  bounded_modules : modules_sym ∈ all_symbols /\ stype (decl modules_sym) = S_BOOLEAN /\
    Forall (fun t => constant t = true) (used (decl modules_sym))
}.

Lemma used_by_checked p t :
  (is_Some (ptext p) -> ptype p <> P_CHOICE /\ ptype p <> P_SELECT /\ ptype p <> P_IMPLY) ->
  (ptype p = P_DEFAULT -> match pexpr p with Some (PE_LIST _) | Some (PE_RANGE _ _) => False | _ => True end) ->
  t ∈ used_by p -> t ∈ checked_prop p \/ (ptype p = P_RANGE /\ t ∈ prop_symbols p).
Proof.
  intros Htext Hdef. unfold used_by, checked_prop. rewrite elem_of_app. intros [Ht|Ht].
  - destruct (conditional p) eqn:Ec; [|by apply not_elem_of_nil in Ht]. left.
    assert (ptype p <> P_CHOICE /\ ptype p <> P_SELECT /\ ptype p <> P_IMPLY) as (N1 & N2 & N3).
    { unfold conditional in Ec. rewrite !orb_true_iff, !bool_decide_eq_true in Ec.
      destruct Ec as [[E|E]|E]; [auto|by rewrite E|by rewrite E]. }
    rewrite !bool_decide_eq_false_2 by done. cbn. apply elem_of_app. by left.
  - destruct (valued p) eqn:Ev; [|by apply not_elem_of_nil in Ht].
    unfold valued in Ev. rewrite orb_true_iff, !bool_decide_eq_true in Ev. destruct Ev as [E|E]; [left|by right].
    specialize (Hdef E). rewrite E. cbn. apply elem_of_app. right.
    unfold prop_symbols in Ht. by destruct (pexpr p) as [[]|].
Qed.

Lemma used_checked w s t :
  parsed w -> bounded -> s ∈ all_symbols -> t ∈ used (decl s) ->
  t ∈ checked_uses (decl s) \/ (t ∈ reachable /\ used (decl t) = []).
Proof.
  intros Hp Hb Hs. unfold used, checked_uses. rewrite !elem_of_app. intros [H|[H|[H|H]]]; [tauto..|].
  apply list_elem_of_In, in_flat_map in H as (p & Hin & Ht). apply list_elem_of_In in Hin, Ht.
  destruct (used_by_checked p t) as [H|[Er H]].
  - by apply (bounded_text Hb s).
  - apply (parsed_defaults _ Hp s); [|done]. apply reachable_cases. by right.
  - done.
  - left. do 3 right. apply list_elem_of_In, in_flat_map. exists p. by rewrite !list_elem_of_In in *.
  - right. by apply (bounded_range Hb s p).
Qed.

(** Symbols that use constants only come first, then those of the search. *)
Definition rank_in (l : list symbol) (t : symbol) : nat :=
  if forallb constant (used (decl t)) then 0%nat else S (position l t).

Lemma clean_ordered w w' :
  parsed w -> bounded -> stack w' = [] -> clean decl reachable w' ->
  Forall (fun t => checked w' t = true) all_symbols ->
  exists rank, ordered decl modules_sym (fun t => t ∈ all_symbols) rank /\
    forall t, t ∈ all_symbols -> (rank t <= length all_symbols + 3)%nat.
Proof.
  intros Hp Hb Es [_ (l & Hl & H)] Hall. rewrite Forall_forall in Hall.
  assert (forall t, t ∈ all_symbols -> t ∈ l) as Hin.
  { intros t Ht. apply H. split; [apply reachable_cases; by right|]. split; [auto|]. rewrite Es. apply not_elem_of_nil. }
  exists (rank_in l). split; [split|].
  - apply (bounded_variable Hb).
  - intros s Hs. apply Forall_forall. intros t Ht. unfold operand. destruct (constant t) eqn:Ec; [by left|right].
    assert (t ∈ reachable -> t ∈ all_symbols) as Hr by (intros [?|?]%reachable_cases; [congruence|done]).
    assert (forallb constant (used (decl s)) = false) as Ef.
    { destruct (forallb constant (used (decl s))) eqn:E; [|done]. rewrite List.forallb_forall in E.
      rewrite E in Ec; [done|by apply list_elem_of_In]. }
    unfold rank_in at 2. rewrite Ef. destruct (used_checked w s t Hp Hb Hs Ht) as [Hu|[Hu E]].
    + pose proof (parsed_closed _ Hp s Hs) as Hc. rewrite Forall_forall in Hc. split; [by apply Hr, Hc|].
      destruct (sorted_position decl l s t Hl (Hin s Hs) Hu) as [_ Hlt]. unfold rank_in.
      destruct (forallb constant (used (decl t))); lia.
    + split; [by apply Hr|]. unfold rank_in. rewrite E. cbn. lia.
  - apply (bounded_type Hb).
  - destruct (bounded_modules Hb) as (M1 & M2 & M3). split; [done|]. split; [|done]. unfold rank_in.
    replace (forallb constant (used (decl modules_sym))) with true; [done|]. symmetry. apply List.forallb_forall.
    intros t Ht. rewrite Forall_forall in M3. by apply M3, list_elem_of_In.
  - intros t Ht. assert (length l <= length reachable)%nat as Hle.
    { apply submseteq_length, NoDup_submseteq; [by apply (sorted_nodup decl)|]. intros u Hu. by apply H. }
    unfold reachable in Hle. rewrite length_app in Hle. cbn in Hle.
    pose proof (position_lt l t (Hin t Ht)). unfold rank_in. destruct (forallb constant (used (decl t))); lia.
Qed.
End Parsed.

(** ** Examples *)

Module CheckExample_.
Import Example_.

Definition menu_at (m : nat) : string * Z := ("Config.in"%string, 0).

(** The flags the parser leaves. *)
Definition unchecked_world : check_world := CheckWorld (fun s => flags (cells start s)) [] [].

(** Each of two symbols depends on the other. *)
Definition ring (s : symbol) : declaration :=
  match s with
  | Sym 0 => Declaration (Some "A"%string) S_BOOLEAN [prompt (Some (E_SYMBOL (Sym 1)))] (Some (E_SYMBOL (Sym 1))) None None
  | Sym 1 => Declaration (Some "B"%string) S_BOOLEAN [prompt (Some (E_SYMBOL (Sym 0)))] (Some (E_SYMBOL (Sym 0))) None None
  | _ => literal "?"
  end.

(** [A] selects [X], which is defined nowhere, and depends on it. *)
Definition undefined (s : symbol) : declaration :=
  match s with
  | Sym 0 => Declaration (Some "A"%string) S_BOOLEAN [prompt (Some (E_SYMBOL (Sym 1)))] (Some (E_SYMBOL (Sym 1))) None None
  | Sym 1 => Declaration (Some "X"%string) S_UNKNOWN [] None (Some (E_SYMBOL (Sym 0))) None
  | _ => literal "?"
  end.

(** The lower bound of [A] is [B], whose default is [A]. *)
Definition bounds (s : symbol) : declaration :=
  match s with
  | Sym 0 => Declaration (Some "MODULES"%string) S_BOOLEAN [prompt None; default (E_SYMBOL symbol_yes)] None None None
  | Sym 1 => Declaration (Some "A"%string) S_INT [default (E_SYMBOL (Sym 3)); range (Sym 2) (Sym 4)] None None None
  | Sym 2 => Declaration (Some "B"%string) S_INT [default (E_SYMBOL (Sym 1)); range (Sym 5) (Sym 4)] None None None
  | Sym 3 => literal "80"
  | Sym 4 => literal "200"
  | Sym 5 => literal "100"
  | _ => literal "?"
  end.

Definition bounds_symbols : list symbol := [Sym 0; Sym 1; Sym 2; Sym 3; Sym 4; Sym 5].

Lemma parsed_example : parsed decl all_symbols unchecked_world.
Proof.
  split; [|done|done|..].
  - unfold reachable. intros t Ht. repeat (apply elem_of_cons in Ht as [->|Ht]; [done|]). by apply not_elem_of_nil in Ht.
  - by intros [].
  - apply (in_all (fun s => Forall (fun t => t ∈ reachable all_symbols) (checked_uses (decl s)))).
    repeat apply Forall_cons_2; try apply Forall_nil_2; cbn;
      repeat apply Forall_cons_2; try apply Forall_nil_2; by repeat (first [by left|right]).
  - apply (in_all (fun s => checked_uses (decl s) <> [] -> sprop (decl s) <> [])).
    by repeat apply Forall_cons_2; try apply Forall_nil_2.
  - unfold reachable. intros t p Ht. repeat (apply elem_of_cons in Ht as [->|Ht]; [|]); try by apply not_elem_of_nil in Ht.
    all: cbn; intros Hp Et; repeat (apply elem_of_cons in Hp as [->|Hp]; [done|]); by apply not_elem_of_nil in Hp.
Qed.

Lemma bounded_example : bounded decl all_symbols MODULES.
Proof.
  split.
  - intros s p t Hs Hp Et Ht.
    repeat (apply elem_of_cons in Hs as [->|Hs]; [repeat (apply elem_of_cons in Hp as [->|Hp]; [try done|]);
      try by apply not_elem_of_nil in Hp|]); try by apply not_elem_of_nil in Hs.
    cbn in Ht. repeat (apply elem_of_cons in Ht as [->|Ht]; [split; [by repeat (first [by left|right])|done]|]).
    by apply not_elem_of_nil in Ht.
  - intros s p Hs Hp _.
    repeat (apply elem_of_cons in Hs as [->|Hs]; [repeat (apply elem_of_cons in Hp as [->|Hp]; [done|]);
      by apply not_elem_of_nil in Hp|]). by apply not_elem_of_nil in Hs.
  - apply in_all. by repeat apply Forall_cons_2; try apply Forall_nil_2.
  - by intros [].
  - split; [by left|]. split; [done|]. by repeat apply Forall_cons_2; try apply Forall_nil_2.
Qed.

(** The report of a ring, as it is printed. *)
Example ring_report :
  match check_all ring menu_at true 9 [Sym 0; Sym 1] unchecked_world with
  | Ret n w => n = 1 /\ reverse (printed w) =
      ["Config.in:1:error: recursive dependency detected!";
       "Config.in:1:" +:+ tab +:+ "symbol A depends on B";
       "Config.in:1:" +:+ tab +:+ "symbol B depends on A";
       "For a resolution refer to Documentation/kbuild/kconfig-language.rst";
       "subsection " +:+ quote +:+ "Kconfig recursive dependency limitations" +:+ quote;
       ""]%string
  | _ => False
  end.
Proof. by vm_compute. Qed.

(** A symbol that is selected but defined nowhere has no property: the report of a
    recursive dependency through it reads a null pointer. *)
Example undefined_select : check_all undefined menu_at true 9 [Sym 0; Sym 1] unchecked_world = Undef.
Proof. by vm_compute. Qed.

Definition first_values (l : list symbol) : list pointer :=
  match (sym_clear_all_valid bounds bounds_symbols (Sym 0) memcmp_value 12;;
         each l (sym_calc_value bounds bounds_symbols (Sym 0) memcmp_value 12)) start with
  | Ret _ w => [val (curr (cells w (Sym 1))); val (curr (cells w (Sym 2)))]
  | _ => []
  end.

(** A recursion through the bound of a range is not reported, and the values depend on
    which symbol is calculated first: [A] may be below its own range. *)
Example range_recursion :
  match check_all bounds menu_at true 12 bounds_symbols unchecked_world with
  | Ret n w => n = 0 /\ printed w = []
  | _ => False
  end /\
  first_values [Sym 1; Sym 2] = [P_string "100"; P_string "100"] /\
  first_values [Sym 2; Sym 1] = [P_string "80"; P_string "100"].
Proof. by vm_compute. Qed.

End CheckExample_.

(** ** Theorems *)

(** C4. [sym_check_deps], run over all symbols as [conf_parse] does, returns with a fuel
    above the number of symbols, and is exact: something is reported if and only if
    there are symbols that use each other in a ring, through dependencies, [select]s,
    [imply]s, prompts or defaults. With [recursive_is_error] the number of errors says
    the same. *)
Theorem sym_check_deps_exact decl all_symbols menu_at recursive_is_error fuel w
    (Hparsed : parsed decl all_symbols w) (Hfuel : (length all_symbols + 3 < fuel)%nat) :
  exists n w', check_all decl menu_at recursive_is_error fuel all_symbols w = Ret n w' /\
    (printed w' = [] <-> ~ cyclic decl (reachable all_symbols)) /\
    (recursive_is_error = true -> (n = 0 <-> ~ cyclic decl (reachable all_symbols))).
Proof.
  pose proof (runs_parsed decl all_symbols menu_at recursive_is_error fuel w Hparsed Hfuel) as H.
  unfold runs in H. destruct (check_all _ _ _ _ _ w) as [n w'| |]; try done.
  destruct H as (F & Es & Hn & C & Y & A & R). exists n, w'. split; [done|].
  pose proof (clean_acyclic decl all_symbols w w' Hparsed Es) as Hac.
  assert (~ cyclic decl (reachable all_symbols) -> clean decl (reachable all_symbols) w') as Hcl
    by (intros Hno; by destruct F as [|[]]).
  split; [split|intros Hr; split].
  - intros Hp. destruct F as [Hc|[_ Hne]]; [by apply Hac; auto|done].
  - intros Hno. by apply clean_printed with (decl := decl) (nodes := reachable all_symbols), Hcl.
  - intros E. apply Hac; auto.
  - intros Hno. apply C; auto.
Qed.

Lemma sym_check_deps_exact_witness :
  exists n w', check_all Example_.decl CheckExample_.menu_at true 12 Example_.all_symbols
    CheckExample_.unchecked_world = Ret n w' /\ n = 0 /\
    ~ cyclic Example_.decl (reachable Example_.all_symbols).
Proof.
  destruct (sym_check_deps_exact Example_.decl Example_.all_symbols CheckExample_.menu_at true 12
    CheckExample_.unchecked_world CheckExample_.parsed_example ltac:(cbn; lia)) as (n & w' & E & _ & H).
  assert (match check_all Example_.decl CheckExample_.menu_at true 12 Example_.all_symbols
    CheckExample_.unchecked_world with Ret n _ => n = 0 | _ => False end) as En by by vm_compute.
  rewrite E in En. exists n, w'. split; [exact E|]. split; [exact En|]. by apply (H eq_refl).
Defined.

(** C16. A configuration that passes the check without a report can be calculated, if what
    the check does not look at is in order ([bounded]: the bounds of ranges are constants or
    symbols that use no other, prompts belong to no [select], [MODULES] is a boolean of
    constants; [range_recursion] is what happens otherwise): there is an order in which every
    symbol comes after those it uses, no longer than there are symbols, so that the theorems
    on values apply with a fuel of the number of symbols and five. *)
Theorem checked_configuration decl all_symbols modules_sym menu_at recursive_is_error memcmp_value fuel w n w'
    (Hparsed : parsed decl all_symbols w) (Hbounded : bounded decl all_symbols modules_sym)
    (Hmem : forall a b, memcmp_value a b = true -> tri a = tri b) (Hfuel : (length all_symbols + 3 < fuel)%nat)
    (Hrun : check_all decl menu_at recursive_is_error fuel all_symbols w = Ret n w') (Hquiet : printed w' = []) :
  exists rank, configuration decl all_symbols modules_sym memcmp_value (fun t => t ∈ all_symbols) rank
    (length all_symbols + 5).
Proof.
  pose proof (runs_parsed decl all_symbols menu_at recursive_is_error fuel w Hparsed Hfuel) as H.
  unfold runs in H. rewrite Hrun in H. destruct H as (F & Es & _ & _ & _ & A & _).
  destruct F as [Hc|[_ Hne]]; [|done].
  destruct (clean_ordered decl all_symbols modules_sym w w' Hparsed Hbounded Es Hc (A Hc)) as (rank & Hord & Hle).
  exists rank. split; [done|done|apply (bounded_variable _ _ _ Hbounded)|done|].
  intros t Ht. specialize (Hle t Ht). lia.
Qed.

Lemma checked_configuration_witness :
  exists rank, configuration Example_.decl Example_.all_symbols Example_.MODULES Example_.memcmp_value
    (fun t => t ∈ Example_.all_symbols) rank 12.
Proof.
  assert (match check_all Example_.decl CheckExample_.menu_at true 12 Example_.all_symbols
    CheckExample_.unchecked_world with Ret _ w' => printed w' = [] | _ => False end) as Hq by by vm_compute.
  destruct (check_all Example_.decl CheckExample_.menu_at true 12 Example_.all_symbols
    CheckExample_.unchecked_world) as [n w'| |] eqn:E; [|destruct Hq..].
  exact (checked_configuration Example_.decl Example_.all_symbols Example_.MODULES CheckExample_.menu_at true
    Example_.memcmp_value 12 CheckExample_.unchecked_world n w' CheckExample_.parsed_example
    CheckExample_.bounded_example (conf_memcmp _ _ _ _ _ _ _ Example_.conf) ltac:(cbn; lia) E Hq).
Defined.
