(* ===== verification/KTable.v ===== *)
(** * Kconfig symbols: the table of names

    Models [strhash], [sym_lookup] and [sym_find] of [scripts/config/symbol.c]: a hash
    table of chained symbols, which [sym_lookup] extends. A symbol the allocator returns
    is one that was not used before. *)

From Stdlib Require Import ZArith Lia String Ascii.
From stdpp Require Import base list strings numbers option.
From S2P Require Import Prelude CString KExpr KSym.

Definition SYMBOL_HASHSIZE : Z := 9973.

(** The names and flags of the symbols, [symbol_hash], and the next symbol [xmalloc]
    gives. *)
Record symtab := Symtab {
  tname : symbol -> option string;
  tflags : symbol -> Z;
  symbol_hash : Z -> list symbol;
  next_id : nat
}.

Section Table.
(** The value of a [char], which is signed or not. *)
Context (char_value : ascii -> Z).

(** The 32-bit FNV hash. *)
Definition hash_step (hash : Z) (c : ascii) : Z := u32 (Z.lxor hash (u32 (char_value c)) * 0x01000193).

Definition strhash (s : string) : Z := foldl hash_step 2166136261 (list_ascii_of_string s).

(** [y], [m] and [n] alone are the three constants. *)
Definition constant_named (name : string) : option symbol :=
  match name with
  | String "y" EmptyString => Some symbol_yes
  | String "m" EmptyString => Some symbol_mod
  | String "n" EmptyString => Some symbol_no
  | _ => None
  end.

(** The loop over a chain. *)
Definition find_named (names : symbol -> option string) (flags : symbol -> Z) (ok : Z -> bool) (name : string)
    (l : list symbol) : option symbol :=
  List.find (fun s => bool_decide (names s = Some name) && ok (flags s)) l.

(** The flags a symbol must have, or must not have. *)
Definition lookup_flags (flags f : Z) : bool :=
  if flags =? 0 then negb (has (Z.lor SYMBOL_CONST SYMBOL_CHOICE) f) else has flags f.

Definition sym_find_in (names : symbol -> option string) (flags : symbol -> Z) (buckets : Z -> list symbol)
    (name : option string) : option symbol :=
  match name with
  | None => None
  | Some name =>
      match constant_named name with
      | Some s => Some s
      | None => find_named names flags (fun f => negb (has SYMBOL_CONST f)) name
                  (buckets (strhash name mod SYMBOL_HASHSIZE))
      end
  end.

Definition sym_find (name : option string) (t : symtab) : option symbol :=
  sym_find_in (tname t) (tflags t) (symbol_hash t) name.

(** A new symbol at the head of its chain. *)
Definition sym_alloc (name : option string) (flags hash : Z) (t : symtab) : symbol * symtab :=
  let s := Sym (next_id t) in
  (s, Symtab (update s (fun _ => name) (tname t)) (update s (fun _ => flags) (tflags t))
        (update hash (cons s) (symbol_hash t)) (S (next_id t))).

Definition sym_lookup (name : option string) (flags : Z) (t : symtab) : symbol * symtab :=
  match name with
  | None => sym_alloc None flags 0 t
  | Some n =>
      match constant_named n with
      | Some s => (s, t)
      | None =>
          let hash := strhash n mod SYMBOL_HASHSIZE in
          match find_named (tname t) (tflags t) (lookup_flags flags) n (symbol_hash t hash) with
          | Some s => (s, t)
          | None => sym_alloc name flags hash t
          end
      end
  end.

(** ** Well-formed tables *)

(** Symbols are chained where their name hashes, and those to come are new. *)
Record wf (t : symtab) : Prop := {
  wf_bucket : forall h s, s ∈ symbol_hash t h ->
    h = from_option (fun n => strhash n mod SYMBOL_HASHSIZE) 0 (tname t s);
  wf_old : forall h s, s ∈ symbol_hash t h -> exists k, s = Sym k /\ (k < next_id t)%nat;
  wf_name : forall h s n, s ∈ symbol_hash t h -> tname t s = Some n -> constant_named n = None
}.

Lemma find_named_some names flags ok name l s :
  find_named names flags ok name l = Some s -> s ∈ l /\ names s = Some name /\ ok (flags s) = true.
Proof.
  unfold find_named. intros [Hin H]%find_some. apply andb_true_iff in H as [H1 H2].
  apply bool_decide_eq_true in H1. by rewrite list_elem_of_In.
Qed.

Lemma find_named_none names flags ok name l s :
  find_named names flags ok name l = None -> s ∈ l -> names s = Some name -> ok (flags s) = false.
Proof.
  unfold find_named. intros H Hs Hn. apply list_elem_of_In in Hs. pose proof (find_none _ _ H s Hs) as E.
  cbn in E. by rewrite bool_decide_eq_true_2 in E.
Qed.

Lemma alloc_name name flags hash t s :
  tname (sym_alloc name flags hash t).2 s = if decide (s = Sym (next_id t)) then name else tname t s.
Proof. cbn. unfold update. by destruct (decide _). Qed.

Lemma alloc_flags name flags hash t s :
  tflags (sym_alloc name flags hash t).2 s = if decide (s = Sym (next_id t)) then flags else tflags t s.
Proof. cbn. unfold update. by destruct (decide _). Qed.

Lemma alloc_bucket name flags hash t h :
  symbol_hash (sym_alloc name flags hash t).2 h =
  if decide (h = hash) then Sym (next_id t) :: symbol_hash t hash else symbol_hash t h.
Proof. done. Qed.

Lemma wf_fresh t h : wf t -> Sym (next_id t) ∉ symbol_hash t h.
Proof. intros Ht Hin. destruct (wf_old _ Ht h _ Hin) as (k & [= ->] & Hk). lia. Qed.

Lemma alloc_wf name flags hash t :
  wf t -> hash = from_option (fun n => strhash n mod SYMBOL_HASHSIZE) 0 name ->
  (forall n, name = Some n -> constant_named n = None) -> wf (sym_alloc name flags hash t).2.
Proof.
  intros Ht Hh Hn.
  assert (forall h s, s ∈ symbol_hash (sym_alloc name flags hash t).2 h ->
    (s = Sym (next_id t) /\ h = hash) \/ (s ∈ symbol_hash t h /\ s <> Sym (next_id t))) as Hcase.
  { intros h s. rewrite alloc_bucket. destruct (decide (h = hash)) as [->|Hne].
    - intros [->|Hs]%elem_of_cons; [by left|]. right. split; [done|]. intros ->. by destruct (wf_fresh t hash Ht).
    - intros Hs. right. split; [done|]. intros ->. by destruct (wf_fresh t h Ht). }
  split; intros h s.
  - intros [[-> ->]|[Hs Hne]]%Hcase; rewrite alloc_name.
    + by rewrite decide_True.
    + rewrite decide_False by done. by apply (wf_bucket _ Ht).
  - intros [[-> ->]|[Hs Hne]]%Hcase; [exists (next_id t); split; [done|cbn; lia]|].
    destruct (wf_old _ Ht h s Hs) as (k & -> & Hk). exists k. split; [done|cbn; lia].
  - intros n [[-> ->]|[Hs Hne]]%Hcase; rewrite alloc_name.
    + rewrite decide_True by done. apply Hn.
    + rewrite decide_False by done. by apply (wf_name _ Ht h).
Qed.

Lemma sym_lookup_wf name flags t : wf t -> wf (sym_lookup name flags t).2.
Proof.
  intros Ht. unfold sym_lookup. destruct name as [n|]; [|by apply alloc_wf].
  destruct (constant_named n) eqn:Ec; [done|]. destruct (find_named _ _ _ _ _); [done|].
  apply alloc_wf; [done|done|]. by intros m [= <-].
Qed.


(** Every symbol of the table keeps its name and its flags. *)
Lemma sym_lookup_keeps name flags t h s :
  wf t -> s ∈ symbol_hash t h ->
  let t' := (sym_lookup name flags t).2 in
  tname t' s = tname t s /\ tflags t' s = tflags t s /\ s ∈ symbol_hash t' h.
Proof.
  intros Ht Hs. assert (forall k, let t' := (sym_alloc name flags k t).2 in
    tname t' s = tname t s /\ tflags t' s = tflags t s /\ s ∈ symbol_hash t' h) as Halloc.
  { intros k. cbn zeta. assert (s <> Sym (next_id t)) as Hne by (intros ->; by destruct (wf_fresh t h Ht)).
    rewrite alloc_name, alloc_flags, alloc_bucket, !decide_False by done. split; [done|]. split; [done|].
    destruct (decide (h = k)) as [->|]; [by right|done]. }
  unfold sym_lookup. destruct name as [n|]; [|apply Halloc].
  destruct (constant_named n); [done|]. destruct (find_named _ _ _ _ _); [done|apply Halloc].
Qed.

(** Looking a name up: the symbol has the name and the flags, and looking it up again
    gives it again and changes nothing. *)
Theorem sym_lookup_again n flags t (Hwf : wf t) (Hname : constant_named n = None) :
  let '(s, t') := sym_lookup (Some n) flags t in
  wf t' /\ tname t' s = Some n /\ lookup_flags flags (tflags t' s) = true /\
  s ∈ symbol_hash t' (strhash n mod SYMBOL_HASHSIZE) /\ sym_lookup (Some n) flags t' = (s, t').
Proof.
  pose proof (sym_lookup_wf (Some n) flags t Hwf) as Hwf'. destruct (sym_lookup (Some n) flags t) as [s t'] eqn:E.
  split; [done|]. clear Hwf'. unfold sym_lookup in E. rewrite Hname in E.
  destruct (find_named _ _ _ _ _) as [s0|] eqn:Ef.
  - injection E as <- <-. destruct (find_named_some _ _ _ _ _ _ Ef) as (H1 & H2 & H3).
    split; [done|]. split; [done|]. split; [done|]. unfold sym_lookup. by rewrite Hname, Ef.
  - set (h := strhash n mod SYMBOL_HASHSIZE) in *.
    assert (s = Sym (next_id t) /\ t' = (sym_alloc (Some n) flags h t).2) as [-> ->] by (by injection E as <- <-).
    assert (lookup_flags flags flags = true) as Hf.
    { unfold lookup_flags, has. destruct (Z.eqb_spec flags 0) as [->|Hne]; [done|]. rewrite Z.land_diag.
      by destruct (Z.eqb_spec flags 0). }
    rewrite alloc_name, alloc_flags, alloc_bucket, !decide_True by done.
    split; [done|]. split; [done|]. split; [by left|]. unfold sym_lookup. rewrite Hname. fold h.
    rewrite alloc_bucket, decide_True by done. unfold find_named. cbn [List.find].
    rewrite alloc_name, alloc_flags, !decide_True, bool_decide_eq_true_2, Hf by done. done.
Qed.
End Table.

(** The same name gives the same symbol, another name another one. *)
Example sym_lookup_twice :
  let empty := Symtab (fun _ => None) (fun _ => 0) (fun _ => []) 0 in
  let char_value c := Z.of_nat (nat_of_ascii c) in
  let '(a, t1) := sym_lookup char_value (Some "NET"%string) 0 empty in
  let '(b, t2) := sym_lookup char_value (Some "USB"%string) 0 t1 in
  let '(c, t3) := sym_lookup char_value (Some "NET"%string) 0 t2 in
  a <> b /\ c = a /\ sym_find char_value (Some "USB"%string) t3 = Some b.
Proof. by vm_compute. Qed.
