(* ===== verification/KConf.v ===== *)
(** * Kconfig: reading and writing configurations

    Models [scripts/config/confdata.c] as far as it works on the user's values: what
    [conf_read] makes of the lines of a file, and what [conf_write] and the other
    writers print. In this tree [conf_write_autoconf] returns at once, so nothing reads
    or writes the values of [auto.conf]. Files hold no zero bytes. *)

From Stdlib Require Import ZArith Lia String Ascii.
From stdpp Require Import base list strings numbers option pretty.
From S2P Require Import Prelude CString KExpr KExprOps KSym KTable.

(** ** State *)

(** The symbols; the files and directories; the counters of warnings; what is shown to
    the user, the last text first. *)
Record conf_world := ConfWorld {
  kw : kworld;
  files : string -> option string;
  dirs : string -> bool;
  conf_filename : string;
  conf_lineno : Z;
  conf_warnings : Z;
  shown_text : list string
}.

Definition set_kw (k : kworld) (w : conf_world) : conf_world :=
  ConfWorld k (files w) (dirs w) (conf_filename w) (conf_lineno w) (conf_warnings w) (shown_text w).
Definition set_files (f : string -> option string) (w : conf_world) : conf_world :=
  ConfWorld (kw w) f (dirs w) (conf_filename w) (conf_lineno w) (conf_warnings w) (shown_text w).
Definition set_dirs (d : string -> bool) (w : conf_world) : conf_world :=
  ConfWorld (kw w) (files w) d (conf_filename w) (conf_lineno w) (conf_warnings w) (shown_text w).
Definition set_position (name : string) (lineno warnings : Z) (w : conf_world) : conf_world :=
  ConfWorld (kw w) (files w) (dirs w) name lineno warnings (shown_text w).
Definition add_text (t : string) (w : conf_world) : conf_world :=
  ConfWorld (kw w) (files w) (dirs w) (conf_filename w) (conf_lineno w) (conf_warnings w) (t :: shown_text w).

(** A program on the symbols. *)
Definition on_symbols {A} (p : prog kworld A) : prog conf_world A := fun w =>
  match p (kw w) with
  | Ret a k => Ret a (set_kw k w)
  | Exit c k => Exit c (set_kw k w)
  | Undef => Undef
  end.

Definition show (t : string) : prog conf_world unit := modify (add_text t).

Definition conf_warning (text : string) : prog conf_world unit :=
  w ← get_st;
  show (conf_filename w +:+ ":" +:+ pretty (conf_lineno w) +:+ ":warning: " +:+ text +:+ newline);;
  modify (fun w => set_position (conf_filename w) (conf_lineno w) (conf_warnings w + 1) w).

(** [conf_default_message_callback] *)
Definition conf_message (text : string) : prog conf_world unit :=
  show ("#" +:+ newline +:+ "# " +:+ text +:+ newline +:+ "#" +:+ newline).

(** ** Text *)

Definition starts_with (p s : string) : bool := String.prefix p s.

(** [line + n] *)
Definition behind (n : nat) (s : string) : string := drop_chars n s.

(** The lines [compat_getline] returns, each with its newline. *)
Fixpoint lines (s : string) : list string :=
  match s with
  | EmptyString => []
  | String c r =>
      if bool_decide (c = ascii_of_nat 10) then String c EmptyString :: lines r
      else match lines r with
           | [] => [String c EmptyString]
           | l :: ls => String c l :: ls
           end
  end.

Definition quote_char : ascii := ascii_of_nat 34.
Definition backslash : ascii := ascii_of_nat 92.

(** [escape_string_value] between the quotes. *)
Fixpoint escaped (s : string) : string :=
  match s with
  | EmptyString => EmptyString
  | String c r =>
      if bool_decide (c = quote_char) || bool_decide (c = backslash)
      then String backslash (String c (escaped r)) else String c (escaped r)
  end.

Definition escape_string_value (s : string) : string :=
  String quote_char (escaped s) +:+ String quote_char EmptyString.

(** The loop that undoes it: up to the next quote, with every backslash removed and the
    character behind it kept; [None] when there is no such quote. *)
Fixpoint unescape (s : string) : option string :=
  match s with
  | EmptyString => None
  | String c r =>
      if bool_decide (c = quote_char) then Some EmptyString
      else if bool_decide (c = backslash) then
        match r with EmptyString => None | String d r => option_map (String d) (unescape r) end
      else option_map (String c) (unescape r)
  end.

(** The part of a line before its end, without a carriage return before a newline. *)
Definition value_of_line (p : string) : string :=
  match cut (ascii_of_nat 10) p with
  | Some (v, _) => match String.get (String.length v - 1) v with
                   | Some c => if bool_decide (c = ascii_of_nat 13) then substring 0 (String.length v - 1) v else v
                   | None => v
                   end
  | None => p
  end.

(** [%.*s] with [strcspn(line, newline and carriage return)] *)
Fixpoint without_end (s : string) : string :=
  match s with
  | EmptyString => EmptyString
  | String c r =>
      if bool_decide (c = ascii_of_nat 10) || bool_decide (c = ascii_of_nat 13) then EmptyString
      else String c (without_end r)
  end.

Section Conf.
(** What the parser built; the host's [char]; the prefix of the names in files. *)
Context (decl : symbol -> declaration) (buckets : Z -> list symbol) (all_symbols : list symbol)
  (modules_sym : symbol) (memcmp_value : symbol_value -> symbol_value -> bool) (fuel : nat)
  (char_value : ascii -> Z) (CONFIG_ : string).
(** The environment. *)
Context (warn_unknown werror : bool).

#[local] Abbreviation calc_value := (sym_calc_value decl all_symbols modules_sym memcmp_value fuel).

Definition find_symbol (name : string) : prog conf_world (option symbol) :=
  w ← get_st;
  mret (sym_find_in char_value (fun s => sname (decl s)) (fun s => flags (cells (kw w) s)) buckets (Some name)).

(** ** Reading *)

(** [sym->def[S_DEF_USER].tri = t; sym->flags |= SYMBOL_DEF_USER;] *)
Definition user_tri_value (s : symbol) (t : tristate) : prog conf_world unit :=
  on_symbols (change s (fun c => put_user (SymbolValue (val (def_user c)) t) c);; set_flag SYMBOL_DEF_USER s).

Definition name_text (s : symbol) : string := default "(null)"%string (sname (decl s)).

Definition invalid_value (p : string) (s : symbol) : prog conf_world bool :=
  conf_warning ("symbol value '" +:+ p +:+ "' invalid for " +:+ name_text s);; mret true.

(** The part for numbers, and for strings without their quotes. *)
Definition user_text_value (s : symbol) (p : string) : prog conf_world bool :=
  if sym_string_valid decl s p then
    on_symbols (change s (fun c => put_user (SymbolValue (P_string p) (tri (def_user c))) c);;
                set_flag SYMBOL_DEF_USER s);;
    mret false
  else invalid_value p s.

Definition user_bool_value (s : symbol) (p : string) : prog conf_world bool :=
  match p with
  | String "y" _ => user_tri_value s yes;; mret false
  | String "n" _ => user_tri_value s no;; mret false
  | _ => invalid_value p s
  end.

(** The result tells that the value is refused. *)
Definition conf_set_sym_val (s : symbol) (p : string) : prog conf_world bool :=
  match stype (decl s) with
  | S_TRISTATE => match p with String "m" _ => user_tri_value s mod_;; mret false | _ => user_bool_value s p end
  | S_BOOLEAN => user_bool_value s p
  | S_STRING =>
      match p with
      | String c r =>
          if bool_decide (c = quote_char) then
            match unescape r with
            | Some t => user_text_value s t
            | None => conf_warning "invalid string found";; mret true
            end
          else mret false
      | EmptyString => mret false
      end
  | S_INT | S_HEX => user_text_value s p
  | S_UNKNOWN => mret false
  end.

Definition conf_reset : prog conf_world unit :=
  on_symbols (each all_symbols (fun s =>
    set_flag SYMBOL_CHANGED s;;
    clear_flag (Z.lor SYMBOL_DEF_USER SYMBOL_VALID) s;;
    choice ← sym_is_choice s;
    when choice (set_flag SYMBOL_DEF_USER s);;
    change s (put_user (SymbolValue NULL no)))).

(** A value of a choice determines the choice. *)
Definition note_choice (s : symbol) : prog conf_world unit :=
  cv ← on_symbols (sym_is_choice_value s);
  if cv : bool then
    o ← on_symbols (choice_of decl s);
    cs ← defined o;
    t ← on_symbols (look s (fun c => tri (def_user c)));
    old ← on_symbols (look cs (fun c => tri (def_user c)));
    match t with
    | no => mret tt
    | mod_ =>
        if bool_decide (old = yes) then
          conf_warning (name_text s +:+ " creates inconsistent choice state");;
          on_symbols (clear_flag SYMBOL_DEF_USER cs)
        else mret tt
    | yes =>
        (if negb (bool_decide (old = no)) then conf_warning ("override: " +:+ name_text s +:+ " changes choice state")
         else mret tt);;
        on_symbols (change cs (fun c => put_user (SymbolValue (P_symbol s) (tri (def_user c))) c))
    end;;
    on_symbols (change cs (fun c => put_user (SymbolValue (val (def_user c)) (EXPR_OR (tri (def_user c)) t)) c))
  else mret tt.

Definition unknown_symbol (name : string) : prog conf_world (option symbol) :=
  (if warn_unknown then conf_warning ("unknown symbol: " +:+ name) else mret tt);;
  on_symbols (conf_set_changed true);;
  mret None.

(** A comment that says that a symbol is not set. *)
Definition read_comment (line : string) : prog conf_world (option symbol) :=
  let rest := behind 2 line in
  if starts_with CONFIG_ rest then
    match cut " "%char (behind (String.length CONFIG_) rest) with
    | Some (name, p) =>
        if starts_with "is not set" p then
          o ← find_symbol name;
          match o with
          | None => unknown_symbol name
          | Some s =>
              match stype (decl s) with
              | S_BOOLEAN | S_TRISTATE => user_tri_value s no
              | _ => mret tt
              end;;
              mret (Some s)
          end
        else mret None
    | None => mret None
    end
  else mret None.

Definition read_assignment (line : string) : prog conf_world (option symbol) :=
  match cut "="%char (behind (String.length CONFIG_) line) with
  | Some (name, p) =>
      o ← find_symbol name;
      match o with
      | None => unknown_symbol name
      | Some s => bad ← conf_set_sym_val s (value_of_line p); mret (if bad : bool then None else Some s)
      end
  | None => mret None
  end.

(** One line. A lone [#] at the end of a file makes the C look at what an earlier line
    left in the buffer. *)
Definition read_line (line : string) : prog conf_world unit :=
  modify (fun w => set_position (conf_filename w) (conf_lineno w + 1) (conf_warnings w) w);;
  o ← (if bool_decide (line = "#"%string) then undef
       else if starts_with "#" line then read_comment line
       else if starts_with CONFIG_ line then read_assignment line
       else
         match without_end line with
         | EmptyString => mret tt
         | l => conf_warning ("unexpected data: " +:+ l)
         end;;
         mret None);
  match o with Some s => note_choice s | None => mret tt end.

Fixpoint read_lines (l : list string) : prog conf_world unit :=
  match l with [] => mret tt | line :: l => read_line line;; read_lines l end.

(** ** Files *)

(** [KCONFIG_CONFIG] or its default, [KCONFIG_DEFCONFIG_LIST], [srctree]. *)
Context (configname : string) (defconfig_list srctree : option string).

(** [PATH_MAX] characters fit. *)
Definition path_max (s : string) : string := substring 0 4096 s.

Definition zconf_fopen (name : string) : prog conf_world (option string) :=
  w ← get_st;
  mret (match files w name with
        | Some t => Some t
        | None => match srctree with
                  | Some dir => if starts_with "/" name then None else files w (path_max (dir +:+ "/" +:+ name))
                  | None => None
                  end
        end).

(** The words of the list, by the two loops over characters. *)
Fixpoint words (word s : string) : list string :=
  match s with
  | EmptyString => match word with EmptyString => [] | _ => [word] end
  | String c r =>
      if isspace c then match word with EmptyString => words "" r | _ => word :: words "" r end
      else words (word +:+ String c EmptyString) r
  end.

Fixpoint first_default (l : list string) : prog conf_world (option string) :=
  match l with
  | [] => mret None
  | name :: l =>
      f ← zconf_fopen name;
      match f with
      | Some t => conf_message ("using defaults found in " +:+ name);; mret (Some t)
      | None => first_default l
      end
  end.

(** The text of the file that is read. *)
Definition open_config (name : option string) : prog conf_world (option string) :=
  match name with
  | Some name => zconf_fopen name
  | None =>
      f ← zconf_fopen configname;
      match f with
      | Some t => mret (Some t)
      | None =>
          on_symbols (conf_set_changed true);;
          match defconfig_list with None => mret None | Some env => first_default (words "" env) end
      end
  end.

(** With [S_DEF_USER]; the result tells that there is no file. *)
Definition conf_read_simple (name : option string) : prog conf_world bool :=
  f ← open_config name;
  match f with
  | None => mret true
  | Some text =>
      modify (set_position (default configname name) 0 0);;
      conf_reset;;
      read_lines (lines text);;
      w ← get_st;
      if negb (conf_warnings w =? 0) && werror then exit_with 1 else mret false
  end.

(** Does the calculated value differ from the one that was read? *)
Definition differs (s : symbol) : prog kworld bool :=
  choice ← sym_is_choice s;
  nw ← test_flag SYMBOL_NO_WRITE s;
  if (choice : bool) || nw then mret false
  else
    user ← sym_has_value s;
    wr ← test_flag SYMBOL_WRITE s;
    if (user : bool) && wr then
      match stype (decl s) with
      | S_BOOLEAN | S_TRISTATE =>
          u ← look s (fun c => tri (def_user c));
          t ← sym_get_tristate_value s;
          mret (negb (bool_decide (u = t)))
      | _ =>
          a ← look s (fun c => val (curr c)); a ← c_string a;
          b ← look s (fun c => val (def_user c)); b ← c_string b;
          mret (negb (bool_decide (a = b)))
      end
    else mret (user || wr).

Fixpoint count_unsaved (l : list symbol) : prog kworld Z :=
  match l with
  | [] => mret 0
  | s :: l =>
      calc_value s;;
      d ← differs s;
      n ← count_unsaved l;
      mret ((if d : bool then 1 else 0) + n)
  end.

(** The second loop of [conf_read]: user values that are not visible or out of range, which
    no string is. *)
Fixpoint reset_values (l : list symbol) (unsaved : Z) : prog kworld Z :=
  match l with
  | [] => mret unsaved
  | s :: l =>
      user ← sym_has_value s;
      cv ← sym_is_choice_value s;
      if (user : bool) && negb cv then
        v ← look s visible;
        when (bool_decide (v = no) && (unsaved =? 0)) (clear_flag SYMBOL_DEF_USER s);;
        let number := match stype (decl s) with S_INT | S_HEX => true | _ => false end in
        if number then
          t ← look s (fun c => val (def_user c)); t ← c_string t;
          ok ← sym_string_within_range decl all_symbols modules_sym memcmp_value fuel s t;
          if ok : bool then reset_values l unsaved
          else
            clear_flag (Z.lor SYMBOL_VALID SYMBOL_DEF_USER) s;;
            reset_values l (unsaved + 1)
        else reset_values l unsaved
      else reset_values l unsaved
  end.

Definition conf_read (name : option string) : prog conf_world bool :=
  on_symbols (conf_set_changed false);;
  r ← conf_read_simple name;
  on_symbols (calc_value modules_sym);;
  if r : bool then mret true
  else
    unsaved ← on_symbols (count_unsaved all_symbols);
    unsaved ← on_symbols (reset_values all_symbols unsaved);
    w ← get_st;
    (if negb (conf_warnings w =? 0) || negb (unsaved =? 0) then on_symbols (conf_set_changed true) else mret tt);;
    mret false.
End Conf.
