(* ===== verification/KConfWrite.v ===== *)
(** * Kconfig: writing configurations

    Models the writers of [scripts/config/confdata.c] and [menu_is_visible] and
    [menu_get_prompt] of [menu.c]: the walk over the menus, what is printed for a symbol,
    and how the file takes its place. *)

From Stdlib Require Import ZArith Lia String Ascii.
From stdpp Require Import base list strings numbers option pretty.
From S2P Require Import Prelude CString KExpr KExprOps KSym KTable KConf.

(** [struct menu]: its neighbours, its symbol, its prompt with the number it has among
    the properties of the symbol, and [visibility]. *)
Record menu := Menu {
  mnext : option nat;
  mparent : option nat;
  mlist : option nat;
  msym : option symbol;
  mprompt : option (nat * property);
  mvisibility : option expr
}.

Inductive output_n := OUTPUT_N | OUTPUT_N_AS_UNSET | OUTPUT_N_NONE.

#[export] Instance output_n_eq_dec : EqDecision output_n.
Proof. solve_decision. Defined.

Record comment_style := CommentStyle { decoration : string; prefix : string; postfix : string }.

Definition comment_style_pound : comment_style := CommentStyle "#" "#" "#".
Definition comment_style_c : comment_style := CommentStyle " *" "/*" " */".

Section Write.
Context (decl : symbol -> declaration) (all_symbols : list symbol) (modules_sym : symbol)
  (memcmp_value : symbol_value -> symbol_value -> bool) (fuel : nat) (CONFIG_ : string).
(** The menus, from [rootmenu]. *)
Context (menus : nat -> menu) (rootmenu : nat).

#[local] Abbreviation calc_value := (sym_calc_value decl all_symbols modules_sym memcmp_value fuel).

(** ** Symbols *)

Definition line_of (s : symbol) (val : string) : string := CONFIG_ +:+ name_text decl s +:+ "=" +:+ val +:+ newline.

(** [__print_symbol]: the text that is printed, with what [sym_get_string_value]
    returns. *)
Definition symbol_text (s : symbol) (output : output_n) (escape_string : bool) (val : string) : string :=
  match stype (decl s) with
  | S_UNKNOWN => ""
  | S_BOOLEAN | S_TRISTATE =>
      if negb (bool_decide (output = OUTPUT_N)) && starts_with "n" val then
        if bool_decide (output = OUTPUT_N_AS_UNSET)
        then "# " +:+ CONFIG_ +:+ name_text decl s +:+ " is not set" +:+ newline
        else ""
      else line_of s val
  | S_STRING => line_of s (if escape_string then escape_string_value val else val)
  | S_INT | S_HEX => line_of s val
  end.

(** [sym_get_string_value] is only called for a symbol with a type. *)
Definition value_text (s : symbol) : prog kworld string :=
  match stype (decl s) with
  | S_UNKNOWN => mret EmptyString
  | _ => sym_get_string_value decl modules_sym calc_value s
  end.

Definition print_symbol (s : symbol) (output : output_n) (escape_string : bool) : prog kworld string :=
  v ← value_text s; mret (symbol_text s output escape_string v).

Definition print_symbol_for_dotconfig (s : symbol) : prog kworld string := print_symbol s OUTPUT_N_AS_UNSET true.
Definition print_symbol_for_autoconf (s : symbol) : prog kworld string := print_symbol s OUTPUT_N_NONE false.
Definition print_symbol_for_listconfig (s : symbol) : prog kworld string := print_symbol s OUTPUT_N true.

Definition hex_prefix (val : string) : string := if has_0x val then "" else "0x".

Definition c_text (s : symbol) (val : string) : string :=
  let define suffix val := "#define " +:+ CONFIG_ +:+ name_text decl s +:+ suffix +:+ " " +:+ val +:+ newline in
  match stype (decl s) with
  | S_UNKNOWN => ""
  | S_BOOLEAN | S_TRISTATE =>
      if starts_with "n" val then "" else define (if starts_with "m" val then "_MODULE" else "") "1"
  | S_HEX => define "" (hex_prefix val +:+ val)
  | S_STRING => define "" (escape_string_value val)
  | S_INT => define "" val
  end.

Definition print_symbol_for_c (s : symbol) : prog kworld string := v ← value_text s; mret (c_text s v).

Definition rustccfg_text (s : symbol) (val : string) : string :=
  let cfg := "--cfg=" +:+ CONFIG_ +:+ name_text decl s in
  let set val := cfg +:+ "=" +:+ escape_string_value val +:+ newline in
  match stype (decl s) with
  | S_UNKNOWN => ""
  | S_BOOLEAN | S_TRISTATE => if starts_with "n" val then "" else cfg +:+ newline +:+ set val
  | S_HEX => set (hex_prefix val +:+ val)
  | S_STRING | S_INT => set val
  end.

Definition print_symbol_for_rustccfg (s : symbol) : prog kworld string := v ← value_text s; mret (rustccfg_text s v).

(** ** Menus *)

(** The prompt of [rootmenu] is read. *)
Definition conf_write_heading (cs : option comment_style) : option string :=
  match cs with
  | None => Some ""%string
  | Some cs =>
      match mprompt (menus rootmenu) with
      | None => None
      | Some (_, p) => Some (
          prefix cs +:+ newline +:+
          decoration cs +:+ " Automatically generated file; DO NOT EDIT." +:+ newline +:+
          decoration cs +:+ " " +:+ default "(null)" (ptext p) +:+ newline +:+
          postfix cs +:+ newline)%string
      end
  end.

(** [menu->prompt->visible.tri] of a menu without a symbol is not kept: it is read only
    where it was written. The children are looked at where a menu with a symbol is not
    visible. *)
Fixpoint menu_is_visible (n : nat) (m : nat) : prog kworld bool :=
  match n with
  | O => undef
  | S n =>
      match mprompt (menus m) with
      | None => mret false
      | Some (i, p) =>
          v ← expr_calc_value decl modules_sym calc_value (mvisibility (menus m));
          if bool_decide (v = no) then mret false
          else
            match msym (menus m) with
            | None =>
                v ← expr_calc_value decl modules_sym calc_value (pvisible p);
                mret (negb (bool_decide (v = no)))
            | Some s =>
                calc_value s;;
                v ← look s (fun c => prop_tri c i);
                t ← sym_get_tristate_value s;
                if negb (bool_decide (v = no)) then mret true
                else if bool_decide (t = no) then mret false
                else visible_child n s (mlist (menus m))
            end
      end
  end
with visible_child (n : nat) (s : symbol) (child : option nat) : prog kworld bool :=
  match n with
  | O => undef
  | S n =>
      match child with
      | None => mret false
      | Some c =>
          v ← menu_is_visible n c;
          if v : bool then set_flag SYMBOL_DEF_USER s;; mret true
          else visible_child n s (mnext (menus c))
      end
  end.

Definition menu_get_prompt (m : nat) : string :=
  match mprompt (menus m) with
  | Some (_, p) => default "(null)"%string (ptext p)
  | None => match msym (menus m) with Some s => name_text decl s | None => "(null)" end
  end.

(** ** The file *)

(** What was written, and whether a newline is due. *)
Definition output : Type := string * bool.

Definition comment_of (m : nat) : string :=
  newline +:+ "#" +:+ newline +:+ "# " +:+ menu_get_prompt m +:+ newline +:+ "#" +:+ newline.

(** The body of the loop, up to the label [next]. *)
Definition write_entry (m : nat) (o : output) : prog kworld output :=
  match msym (menus m) with
  | None =>
      v ← menu_is_visible fuel m;
      mret (if v : bool then (o.1 +:+ comment_of m, false) else o)
  | Some s =>
      choice ← sym_is_choice s;
      written ← test_flag SYMBOL_WRITTEN s;
      if (choice : bool) || written then mret o
      else
        calc_value s;;
        wr ← test_flag SYMBOL_WRITE s;
        if negb wr then mret o
        else
          set_flag SYMBOL_WRITTEN s;;
          t ← print_symbol_for_dotconfig s;
          mret (o.1 +:+ (if o.2 : bool then newline else "") +:+ t, false)
  end.

(** Behind the label [end_check], up to the choice of the next menu. *)
Definition write_end (m : nat) (o : output) : prog kworld output :=
  match msym (menus m) with
  | Some _ => mret o
  | None =>
      v ← menu_is_visible fuel m;
      if (v : bool) && negb (bool_decide (m = rootmenu)) &&
         match mprompt (menus m) with Some (_, p) => bool_decide (ptype p = P_MENU) | None => false end
      then mret (o.1 +:+ "# end of " +:+ menu_get_prompt m +:+ newline, true)
      else mret o
  end.

(** The loop: [at_end] is at the label [end_check]. *)
Fixpoint write_menus (n : nat) (at_end : bool) (m : option nat) (o : output) : prog kworld output :=
  match m, n with
  | None, _ => mret o
  | Some _, O => undef
  | Some m, S n =>
      if at_end then
        o ← write_end m o;
        match mnext (menus m) with
        | Some next => write_menus n false (Some next) o
        | None => write_menus n true (mparent (menus m)) o
        end
      else
        o ← write_entry m o;
        match mlist (menus m) with
        | Some child => write_menus n false (Some child) o
        | None => write_menus n true (Some m) o
        end
  end.

(** The text of a configuration: [n] bounds the steps of the loop. *)
Definition dotconfig (n : nat) : prog kworld string :=
  heading ← defined (conf_write_heading (Some comment_style_pound));
  w ← get_st;
  when (negb (conf_changed w)) (sym_clear_all_valid decl all_symbols modules_sym memcmp_value fuel);;
  o ← write_menus n false (mlist (menus rootmenu)) (heading, false);
  each all_symbols (clear_flag SYMBOL_WRITTEN);;
  mret o.1.

(** ** Replacing the file *)

(** The environment and what the system refuses: whether [KCONFIG_OVERWRITECONFIG] is
    set, the name of the configuration, the process id, files that cannot be opened for
    writing, directories that cannot be made, renames that fail. *)
Context (overwrite : bool) (configname : string) (pid : Z) (unwritable : string -> bool)
  (mkdir_fails : string -> bool) (rename_fails : string -> string -> bool).

(** The directories above a path. *)
Fixpoint parent_dirs (before s : string) (in_name : bool) : list string :=
  match s with
  | EmptyString => []
  | String c r =>
      let d := before +:+ String c EmptyString in
      if bool_decide (c = "/"%char) then
        if in_name then before :: parent_dirs d r false else parent_dirs d r false
      else parent_dirs d r true
  end.

Fixpoint make_dirs (l : list string) : prog conf_world bool :=
  match l with
  | [] => mret true
  | d :: l =>
      w ← get_st;
      if dirs w d then make_dirs l
      else if mkdir_fails d then mret false
      else modify (set_dirs (update d (fun _ => true) (dirs w)));; make_dirs l
  end.

(** Whether all of them exist afterwards. *)
Definition make_parent_dir (path : string) : prog conf_world bool := make_dirs (parent_dirs "" (path_max path) false).

(** An empty file cannot be mapped. *)
Definition is_same (f : string -> option string) (a b : string) : bool :=
  match f a, f b with
  | Some x, Some y => negb (bool_decide (x = EmptyString)) && bool_decide (x = y)
  | _, _ => false
  end.

Definition put_file (name : string) (t : option string) : prog conf_world unit :=
  modify (fun w => set_files (update name (fun _ => t) (files w)) w).

(** Nothing happens when there is no such file. *)
Definition rename (a b : string) : prog conf_world bool :=
  w ← get_st;
  match files w a with
  | Some t => if bool_decide (a = b) then mret true else if rename_fails a b then mret false else put_file b (Some t);; put_file a None;; mret true
  | None => mret false
  end.

Definition conf_write (steps : nat) (name : option string) : prog conf_world Z :=
  let name := default configname name in
  w ← get_st;
  if bool_decide (name = EmptyString) then show ("config name is empty" +:+ newline);; mret (-1)
  else if dirs w name then show (name +:+ ": Is a directory" +:+ newline);; mret (-1)
  else
    made ← make_parent_dir name;
    if negb made then mret (-1)
    else
      let tmpname := path_max (name +:+ "." +:+ pretty pid +:+ ".tmp") in
      let out := if overwrite then name else tmpname in
      if unwritable out then mret 1
      else
        text ← on_symbols (dotconfig steps);
        put_file out (Some text);;
        w ← get_st;
        if negb overwrite && is_same (files w) name tmpname then
          conf_message ("No change to " +:+ name);;
          put_file tmpname None;;
          on_symbols (conf_set_changed false);;
          mret 0
        else
          renamed ← (if overwrite then mret true
                     else rename name (path_max (name +:+ ".old"));; rename tmpname name);
          if negb renamed then mret 1
          else
            conf_message ("configuration written to " +:+ name);;
            on_symbols (conf_set_changed false);;
            mret 0.

(** Under OpenWrt. *)
Definition conf_write_autoconf : prog conf_world Z := mret 0.

(** ** Minimal configurations *)

Definition SYMBOL_OPTIONAL : Z := 0x0100.

Definition sym_is_optional (s : symbol) : prog kworld bool := test_flag SYMBOL_OPTIONAL s.

Definition string_of_pointer (p : prog kworld pointer) : prog kworld string := v ← p; c_string v.

(** A value of a choice that is the default one. *)
Definition default_choice_value (s : symbol) : prog kworld bool :=
  cv ← sym_is_choice_value s;
  if cv : bool then
    o ← choice_of decl s;
    cs ← defined o;
    ds ← sym_choice_default decl modules_sym calc_value cs;
    opt ← sym_is_optional cs;
    t ← sym_get_tristate_value s;
    mret (negb opt && bool_decide (ds = Some s) && bool_decide (stype (decl s) = S_BOOLEAN) && bool_decide (t = yes))
  else mret false.

(** The body of the loop of [conf_write_defconfig]: what is printed for a symbol. *)
Definition defconfig_entry (s : symbol) : prog kworld string :=
  choice ← sym_is_choice s;
  if choice : bool then mret EmptyString
  else
    calc_value s;;
    wr ← test_flag SYMBOL_WRITE s;
    if negb wr then mret EmptyString
    else
      clear_flag SYMBOL_WRITE s;;
      changeable ← sym_is_changeable s;
      if negb changeable then mret EmptyString
      else
        v ← sym_get_string_value decl modules_sym calc_value s;
        d ← string_of_pointer (sym_get_string_default decl all_symbols modules_sym memcmp_value fuel s);
        if bool_decide (v = d) then mret EmptyString
        else
          skip ← default_choice_value s;
          if skip : bool then mret EmptyString else print_symbol_for_dotconfig s.

(** Upwards to a menu with a neighbour. *)
Fixpoint next_above (n : nat) (m : option nat) : prog kworld (option nat) :=
  match m, n with
  | None, _ => mret None
  | Some _, O => undef
  | Some m, S n =>
      match mparent (menus m) with
      | None => mret None
      | Some p => match mnext (menus p) with Some next => mret (Some next) | None => next_above n (Some p) end
      end
  end.

Fixpoint write_defconfig (n : nat) (m : option nat) (text : string) : prog kworld string :=
  match m, n with
  | None, _ => mret text
  | Some _, O => undef
  | Some m, S n =>
      t ← match msym (menus m) with
          | None => v ← menu_is_visible fuel m; mret EmptyString
          | Some s => defconfig_entry s
          end;
      next ← match mlist (menus m), mnext (menus m) with
             | Some child, _ => mret (Some child)
             | None, Some next => mret (Some next)
             | None, None => next_above n (Some m)
             end;
      write_defconfig n next (text +:+ t)
  end.

Definition conf_write_defconfig (steps : nat) (filename : string) : prog conf_world Z :=
  if unwritable filename then mret 1
  else
    on_symbols (sym_clear_all_valid decl all_symbols modules_sym memcmp_value fuel);;
    text ← on_symbols (write_defconfig steps (mlist (menus rootmenu)) EmptyString);
    put_file filename (Some text);;
    mret 0.
End Write.
