(* ===== verification/KConfFacts.v ===== *)
(** * Facts about configuration files

    Lines and quoting, and what reading one line does to the values of the user. *)

From Stdlib Require Import ZArith Lia String Ascii.
From stdpp Require Import base list strings numbers option pretty.
From S2P Require Import Prelude CString KExpr KExprOps KSym KSymSpec KSymFacts KSymCalc KTable KConf KConfWrite.

(** Evaluates the tests on constants. *)
Ltac decided :=
  repeat match goal with
         | |- context [bool_decide (?a = ?b)] =>
             first [rewrite (bool_decide_eq_true_2 (a = b)) by done | rewrite (bool_decide_eq_false_2 (a = b)) by done]
         end; cbn.

(** ** Text *)

Lemma starts_app p s : starts_with p (p +:+ s) = true.
Proof. induction p as [|c p IH]; [by destruct s|]. rewrite cons_app. cbn. by destruct (ascii_dec c c). Qed.

Lemma behind_app p s : behind (String.length p) (p +:+ s) = s.
Proof.
  unfold behind, drop_chars. induction p as [|c p IH]; [apply string_of_list_ascii_of_string|]. rewrite cons_app. exact IH.
Qed.

Lemma lines_line l r : without (ascii_of_nat 10) l -> lines (l +:+ newline +:+ r) = (l +:+ newline) :: lines r.
Proof.
  induction l as [|c l IH]; intros H; [done|].
  apply without_cons in H as [Hc H]. rewrite !cons_app. cbn [lines]. rewrite bool_decide_eq_false_2 by done. by rewrite IH.
Qed.

(** Quoting is undone. *)
Lemma unescape_escaped s r : unescape (escaped s +:+ String quote_char r) = Some s.
Proof.
  induction s as [|c s IH]; [done|]. cbn [escaped]. destruct (_ || _) eqn:E.
  - rewrite !cons_app. cbn [unescape]. rewrite bool_decide_eq_false_2, bool_decide_eq_true_2 by done. by rewrite IH.
  - apply orb_false_iff in E as [E1 E2]. rewrite cons_app. cbn [unescape]. by rewrite E1, E2, IH.
Qed.

Lemma escaped_without c s : c <> backslash -> without c s -> without c (escaped s).
Proof.
  intros Hb. induction s as [|d s IH]; intros H; [done|]. apply without_cons in H as [Hd H]. cbn [escaped].
  destruct (_ || _); rewrite ?without_cons; auto.
Qed.

(** ** Values on a line *)

Lemma cut_none c s : without c s -> cut c s = None.
Proof.
  induction s as [|d s IH]; intros H; [done|]. apply without_cons in H as [Hd H]. cbn.
  destruct (ascii_dec d c); [done|]. by rewrite IH.
Qed.

(** The value of a line is what was printed, if it does not end in a carriage return. *)
Lemma value_line v :
  without (ascii_of_nat 10) v -> without (ascii_of_nat 13) v \/ (exists u c, v = u +:+ String c "" /\ c <> ascii_of_nat 13) ->
  value_of_line (v +:+ newline) = v.
Proof.
  intros Hn Hr. unfold value_of_line, newline. rewrite cut_at by done.
  assert (forall u c, String.get (String.length (u +:+ String c "") - 1) (u +:+ String c "") = Some c) as Hlast.
  { intros u c. induction u as [|d u IH]; [done|]. rewrite cons_app. cbn [String.length].
    replace (S (String.length (u +:+ String c "")) - 1)%nat with (S (String.length (u +:+ String c "") - 1)); [exact IH|].
    destruct u; rewrite ?nil_app, ?cons_app; cbn; lia. }
  assert (v = "" \/ exists u c, v = u +:+ String c "" /\ c <> ascii_of_nat 13) as [->|(u & c & -> & Hc)].
  { destruct Hr as [Hr|Hr]; [|by right]. clear Hn. induction v as [|d v IH]; [by left|]. right.
    apply without_cons in Hr as [Hd Hr]. destruct (IH Hr) as [->|(u & c & -> & Hc)].
    - by exists "", d.
    - by exists (String d u), c. }
  - done.
  - rewrite Hlast. by rewrite bool_decide_eq_false_2.
Qed.

Lemma all_digits_without f c str : f c = false -> all_chars f str = true -> without c str.
Proof.
  intros Hf. induction str as [|d str IH]; intros H; [apply without_nil|]. cbn in H.
  apply andb_true_iff in H as [Hd H]. apply without_cons. split; [|by apply IH]. intros ->. by rewrite Hf in Hd.
Qed.

Section Reading.
Context (decl : symbol -> declaration) (buckets : Z -> list symbol) (char_value : ascii -> Z) (CONFIG_ : string)
  (warn_unknown : bool).

#[local] Abbreviation read := (read_line decl buckets char_value CONFIG_ warn_unknown).

(** A valid number has neither a newline nor a carriage return. *)
Lemma number_without s str c :
  stype (decl s) = S_INT \/ stype (decl s) = S_HEX -> sym_string_valid decl s str = true ->
  isdigit c = false -> isxdigit c = false -> c <> "-"%char -> c <> "x"%char -> c <> "X"%char -> without c str.
Proof.
  intros Hty Hv Hd Hx N1 N2 N3. unfold sym_string_valid in Hv. destruct Hty as [Hty | Hty]; rewrite Hty in Hv.
  - assert (forall r, match r with
                      | EmptyString => false
                      | String d r' => isdigit d && negb (bool_decide (d = "0"%char) && negb (bool_decide (r' = EmptyString)))
                                       && all_chars isdigit r'
                      end = true -> without c r) as H.
    { intros [|d r] E; [done|]. rewrite !andb_true_iff in E. destruct E as [[E1 _] E2]. apply without_cons.
      split; [intros ->; by rewrite Hd in E1|]. by apply (all_digits_without isdigit). }
    destruct str as [|d r]; [done|]. destruct (ascii_dec d "-") as [->|Hne].
    + apply without_cons. split; [done|]. by apply H.
    + apply H. by destruct d as [[] [] [] [] [] [] [] []].
  - apply andb_true_iff in Hv as [_ Hv]. destruct (has_0x str) eqn:E0; [|by apply (all_digits_without isxdigit)].
    destruct str as [|a [|b r]]; [done|by destruct a as [[] [] [] [] [] [] [] []]|].
    assert (a = "0"%char /\ (b = "x"%char \/ b = "X"%char)) as [-> Hb].
    { destruct a as [[] [] [] [] [] [] [] []]; try done. destruct b as [[] [] [] [] [] [] [] []]; try done; auto. }
    apply without_cons. split; [intros <-; by vm_compute in Hd|]. apply without_cons.
    split; [by destruct Hb as [-> | ->]|]. apply (all_digits_without isxdigit); [done|].
    by replace (drop_chars 2 (String "0" (String b r))) with r in Hv
      by (symmetry; apply string_of_list_ascii_of_string).
Qed.

(** ** Symbols in files *)

(** The symbol has a name that can be written and is found again. *)
Record writable (n : string) (s : symbol) : Prop := {
  writable_name : sname (decl s) = Some n;
  writable_space : without " "%char n;
  writable_equals : without "="%char n;
  writable_newline : without (ascii_of_nat 10) (CONFIG_ +:+ n);
  writable_comment : starts_with "#" (CONFIG_ +:+ n) = false
}.

Definition findable (n : string) (s : symbol) (w : conf_world) : Prop :=
  sym_find_in char_value (fun t => sname (decl t)) (fun t => flags (cells (kw w) t)) buckets (Some n) = Some s.

(** A text that a symbol of the type can have, when it is read. *)
Definition readable (s : symbol) (text : string) : Prop :=
  match stype (decl s) with
  | S_TRISTATE => text = "y" \/ text = "m" \/ text = "n"
  | S_BOOLEAN => text = "y" \/ text = "n"
  | S_STRING => without (ascii_of_nat 10) text
  | S_INT | S_HEX => sym_string_valid decl s text = true
  | S_UNKNOWN => False
  end%string.

Definition tri_of (text : string) : tristate := default no (tri_of_text text).

(** What the file sets. *)
Definition stored (s : symbol) (text : string) (old : symbol_value) : symbol_value :=
  match stype (decl s) with
  | S_BOOLEAN | S_TRISTATE => SymbolValue (val old) (tri_of text)
  | _ => SymbolValue (P_string text) (tri old)
  end.

Record set_by (s : symbol) (text : string) (c c' : cell) : Prop := {
  set_core : core c' = core c;
  set_value : def_user c' = stored s text (def_user c);
  set_flags : flags c' = with_flag SYMBOL_DEF_USER (flags c)
}.

Record gives (s : symbol) (text : string) (k k' : kworld) : Prop := {
  gives_modules : modules_val k' = modules_val k;
  gives_changed : conf_changed k' = conf_changed k;
  gives_others : forall t, t <> s -> cells k' t = cells k t;
  gives_own : set_by s text (cells k s) (cells k' s)
}.

Lemma find_same n s w w' :
  (forall t, has SYMBOL_CONST (flags (cells (kw w') t)) = has SYMBOL_CONST (flags (cells (kw w) t))) ->
  findable n s w -> findable n s w'.
Proof.
  unfold findable, sym_find_in. intros Hf. destruct (constant_named n); [done|]. intros <-. unfold find_named.
  set (l := buckets _). induction l as [|t l IH]; [done|]. cbn. rewrite Hf. by destruct (_ && _).
Qed.

Lemma runs_on {A} (p : prog kworld A) w (Q : A -> conf_world -> Prop) :
  runs p (kw w) (fun a k => Q a (set_kw k w)) -> runs (on_symbols p) w Q.
Proof. unfold runs, on_symbols. by destruct (p (kw w)). Qed.

(** What is left when a line was read. *)
Definition read_as (s : symbol) (text : string) (w w' : conf_world) : Prop :=
  gives s text (kw w) (kw w') /\ conf_warnings w' = conf_warnings w.

Lemma runs_user_tri s t text w :
  stype (decl s) = S_BOOLEAN \/ stype (decl s) = S_TRISTATE -> tri_of text = t ->
  runs (user_tri_value s t) w (fun _ => read_as s text w).
Proof.
  intros Hty Et. apply runs_on, runs_bind, runs_change, runs_change. split; [|done]. split.
  - done.
  - done.
  - intros u Hu. cbn [kw set_kw]. by rewrite !cells_changed_ne by done.
  - cbn [kw set_kw]. rewrite !cells_changed. split; [done| |done].
    unfold stored. cbn. rewrite Et. by destruct Hty as [-> | ->].
Qed.

Lemma runs_user_text s text w :
  stype (decl s) = S_INT \/ stype (decl s) = S_HEX \/ stype (decl s) = S_STRING ->
  sym_string_valid decl s text = true ->
  runs (user_text_value decl s text) w (fun bad w' => bad = false /\ read_as s text w w').
Proof.
  intros Hty Hv. unfold user_text_value. rewrite Hv.
  apply runs_bind, runs_on, runs_bind, runs_change, runs_change, runs_ret. split; [done|]. split; [|done]. split.
  - done.
  - done.
  - intros u Hu. cbn [kw set_kw]. by rewrite !cells_changed_ne by done.
  - cbn [kw set_kw]. rewrite !cells_changed. split; [done| |done].
    unfold stored. by destruct Hty as [-> | [-> | ->]].
Qed.

(** The value as it is written behind the equals sign. *)
Definition written_value (s : symbol) (text : string) : string :=
  match stype (decl s) with S_STRING => escape_string_value text | _ => text end.

Lemma runs_set_val s text w :
  readable s text -> (stype (decl s) = S_BOOLEAN \/ stype (decl s) = S_TRISTATE -> text <> "n"%string) ->
  runs (conf_set_sym_val decl s (written_value s text)) w (fun bad w' => bad = false /\ read_as s text w w').
Proof.
  intros Hr Hn. unfold readable, conf_set_sym_val, written_value in *.
  assert (forall t, tri_of text = t -> stype (decl s) = S_BOOLEAN \/ stype (decl s) = S_TRISTATE ->
    runs (user_tri_value s t;; mret false) w (fun bad w' => bad = false /\ read_as s text w w')) as Htri.
  { intros t Et Hty. eapply runs_step; [by apply (runs_user_tri s t text)|]. intros [] w' H. by apply runs_ret. }
  destruct (stype (decl s)) eqn:Ety.
  - done.
  - destruct Hr as [-> | ->]; [|destruct (Hn (or_introl eq_refl) eq_refl)]. apply Htri; [done|by left].
  - destruct Hr as [-> | [-> | ->]]; [| |destruct (Hn (or_intror eq_refl) eq_refl)]; (apply Htri; [done|by right]).
  - apply runs_user_text; [by left|done].
  - apply runs_user_text; [by right; left|done].
  - unfold escape_string_value. rewrite cons_app, bool_decide_eq_true_2, unescape_escaped by done.
    apply runs_user_text; [by right; right|]. unfold sym_string_valid. by rewrite Ety.
Qed.

Lemma runs_no_choice s w (Q : unit -> conf_world -> Prop) :
  has SYMBOL_CHOICEVAL (flags (cells (kw w) s)) = false -> Q tt w -> runs (note_choice decl s) w Q.
Proof.
  intros Hcv HQ. apply runs_bind, runs_on, runs_look. rewrite Hcv. apply runs_ret. by destruct w.
Qed.

Lemma gives_flag s text k k' m t :
  gives s text k k' -> Z.land SYMBOL_DEF_USER m = 0 -> has m (flags (cells k' t)) = has m (flags (cells k t)).
Proof.
  intros Hg Hm. destruct (decide (t = s)) as [->|Hne]; [|by rewrite (gives_others _ _ _ _ Hg)].
  rewrite (set_flags _ _ _ _ (gives_own _ _ _ _ Hg)), has_with. unfold has at 2. by rewrite Hm, orb_false_r.
Qed.

(** ** The line of a symbol *)

(** The line without its newline. *)
Definition symbol_line (n : string) (s : symbol) (text : string) : string :=
  if (bool_decide (stype (decl s) = S_BOOLEAN) || bool_decide (stype (decl s) = S_TRISTATE)) && bool_decide (text = "n"%string)
  then "# " +:+ CONFIG_ +:+ n +:+ " is not set" else CONFIG_ +:+ n +:+ "=" +:+ written_value s text.

(** The texts of booleans and tristates. *)
Definition tri_text (s : symbol) (text : string) : Prop :=
  stype (decl s) = S_BOOLEAN \/ stype (decl s) = S_TRISTATE -> (text = "y" \/ text = "m" \/ text = "n")%string.

Lemma symbol_text_line n s text :
  sname (decl s) = Some n -> stype (decl s) <> S_UNKNOWN -> tri_text s text ->
  symbol_text decl CONFIG_ s OUTPUT_N_AS_UNSET true text = symbol_line n s text +:+ newline.
Proof.
  intros Hn Hty Hr. unfold symbol_text, symbol_line, line_of, tri_text, written_value, name_text in *. rewrite Hn. cbn [default].
  destruct (stype (decl s)) eqn:Et; [done|..]; try (destruct Hr as [-> | [-> | ->]]; [by auto|..]);
    decided; by rewrite ?string_app_assoc.
Qed.

Lemma without_text c l : forallb (fun d => negb (Ascii.eqb d c)) (list_ascii_of_string l) = true -> without c l.
Proof.
  unfold without. induction (list_ascii_of_string l) as [|d r IH]; intros H; [constructor|]. cbn in H.
  apply andb_true_iff in H as [Hd H]. constructor; [|by apply IH]. intros ->. by rewrite Ascii.eqb_refl in Hd.
Qed.

Lemma written_without s text : readable s text -> without (ascii_of_nat 10) (written_value s text).
Proof.
  unfold readable, written_value. intros Hr. destruct (stype (decl s)) eqn:Et; try done.
  - by destruct Hr as [-> | ->]; apply without_text.
  - by destruct Hr as [-> | [-> | ->]]; apply without_text.
  - by apply (number_without s); [left|..].
  - by apply (number_without s); [right|..].
  - unfold escape_string_value. rewrite cons_app. apply without_cons. split; [done|]. apply without_app.
    split; [by apply escaped_without|]. by apply without_text.
Qed.

Lemma line_without n s text : writable n s -> readable s text -> without (ascii_of_nat 10) (symbol_line n s text).
Proof.
  intros Hw Hr. pose proof (writable_newline _ _ Hw) as Hn. apply without_app in Hn as [H1 H2]. unfold symbol_line.
  destruct (_ && _); rewrite !without_app; split_and!; try done; try (by apply without_text).
  by apply written_without.
Qed.

(** Values do not end in a carriage return. *)
Lemma written_end s text :
  readable s text -> without (ascii_of_nat 13) (written_value s text) \/
  exists u c, written_value s text = u +:+ String c "" /\ c <> ascii_of_nat 13.
Proof.
  unfold readable, written_value. intros Hr. destruct (stype (decl s)) eqn:Et; try done.
  - left. destruct Hr as [-> | ->]; by apply without_text.
  - left. destruct Hr as [-> | [-> | ->]]; by apply without_text.
  - left. by apply (number_without s); [left|..].
  - left. by apply (number_without s); [right|..].
  - right. exists (String quote_char (escaped text)), quote_char. by split.
Qed.

Lemma starts_hash a b : starts_with "#" a = false -> a <> ""%string -> starts_with "#" (a +:+ b) = false.
Proof. destruct a as [|c a]; [done|]. intros H _. rewrite cons_app. unfold starts_with in *. cbn [String.prefix] in *. by destruct (ascii_dec _ c), a, b. Qed.

Lemma runs_found n s w (Q : option symbol -> conf_world -> Prop) :
  findable n s w -> Q (Some s) w -> runs (find_symbol decl buckets char_value n) w Q.
Proof. intros Hf HQ. apply runs_bind, runs_get, runs_ret. unfold findable in Hf. by rewrite Hf. Qed.

(** A symbol that is not set. *)
Lemma runs_unset n s w :
  writable n s -> findable n s w -> stype (decl s) = S_BOOLEAN \/ stype (decl s) = S_TRISTATE ->
  runs (read_comment decl buckets char_value CONFIG_ warn_unknown ("# " +:+ (CONFIG_ +:+ n +:+ " is not set") +:+ newline)) w
    (fun o w' => o = Some s /\ read_as s "n" w w').
Proof.
  intros Hw Hf Hty. unfold read_comment. change 2%nat with (String.length "# "). rewrite behind_app, !string_app_assoc.
  rewrite starts_app, behind_app. change (" is not set" +:+ newline) with (String " " ("is not set" +:+ newline)).
  rewrite (cut_at " " n) by apply Hw. rewrite starts_app.
  eapply runs_bind, (runs_found n s); [done|].
  replace (match stype (decl s) with S_BOOLEAN | S_TRISTATE => user_tri_value s no | _ => mret tt end)
    with (user_tri_value s no) by by destruct Hty as [-> | ->].
  eapply runs_step; [by apply (runs_user_tri s no "n")|]. intros [] w' H. by apply runs_ret.
Qed.

Lemma runs_set n s text w :
  writable n s -> findable n s w -> readable s text ->
  (stype (decl s) = S_BOOLEAN \/ stype (decl s) = S_TRISTATE -> text <> "n"%string) ->
  runs (read_assignment decl buckets char_value CONFIG_ warn_unknown
    ((CONFIG_ +:+ n +:+ "=" +:+ written_value s text) +:+ newline)) w
    (fun o w' => o = Some s /\ read_as s text w w').
Proof.
  intros Hw Hf Hr Hn. unfold read_assignment. rewrite !string_app_assoc, behind_app, cons_app, nil_app.
  rewrite (cut_at "=" n) by apply Hw. eapply runs_bind, (runs_found n s); [done|].
  rewrite value_line by (by apply written_without || by apply written_end).
  eapply runs_step; [by apply runs_set_val|]. intros bad w' [-> H]. by apply runs_ret.
Qed.

(** Reading the line that was printed for a symbol. *)
Lemma runs_symbol_line n s text w :
  writable n s -> findable n s w -> readable s text -> has SYMBOL_CHOICEVAL (flags (cells (kw w) s)) = false ->
  runs (read (symbol_line n s text +:+ newline)) w (fun _ => read_as s text w).
Proof.
  intros Hw Hf Hr Hcv. apply runs_bind, runs_modify. set (w1 := set_position _ _ _ w).
  assert (findable n s w1) as Hf1 by done.
  assert (forall o w', o = Some s /\ read_as s text w1 w' ->
    runs (match o with Some s => note_choice decl s | None => mret tt end) w' (fun _ => read_as s text w)) as Hend.
  { intros o w' [-> [Hg Ew]]. apply runs_no_choice; [|by split]. by rewrite (gives_flag s text _ _ _ _ Hg). }
  unfold symbol_line. destruct (_ && _) eqn:Eu.
  - apply andb_true_iff in Eu as [Ety Et]. apply bool_decide_eq_true in Et as ->.
    rewrite orb_true_iff, !bool_decide_eq_true in Ety.
    rewrite string_app_assoc, bool_decide_eq_false_2 by done. rewrite cons_app. cbn [starts_with String.prefix]. rewrite <- cons_app.
    eapply runs_step; [by apply runs_unset|done].
  - assert (starts_with "#" ((CONFIG_ +:+ n +:+ "=" +:+ written_value s text) +:+ newline) = false) as Ehash.
    { rewrite !string_app_assoc, <- string_app_assoc. destruct (CONFIG_ +:+ n) as [|c r] eqn:Ec; [done|].
      apply starts_hash; [|done]. rewrite <- Ec. apply Hw. }
    rewrite bool_decide_eq_false_2 by (intros E; by rewrite E in Ehash). rewrite Ehash.
    assert (starts_with CONFIG_ ((CONFIG_ +:+ n +:+ "=" +:+ written_value s text) +:+ newline) = true) as ->
      by (rewrite string_app_assoc; apply starts_app).
    eapply runs_step; [apply (runs_set n s text); try done|done].
    intros Hty ->. by destruct Hty as [E | E]; rewrite E in Eu.
Qed.
End Reading.
