(* ===== verification/KConfRead.v ===== *)
(** * Reading whole configurations

    What is left of the values of the user when a file of comments and settings has been
    read. *)

From Stdlib Require Import ZArith Lia String Ascii.
From stdpp Require Import base list strings numbers option pretty.
From S2P Require Import Prelude CString KExpr KExprOps KSym KSymSpec KSymFacts KSymCalc KTable KConf KConfWrite KConfFacts.

(** A line that says nothing, and one that gives the symbol of a name a value. *)
Inductive item := Comment (l : string) | Setting (n : string) (s : symbol) (text : string).

(** The symbols that get a value. *)
Definition settings (l : list item) : list symbol :=
  omap (fun i => match i with Setting _ s _ => Some s | Comment _ => None end) l.

Fixpoint given (l : list item) (t : symbol) : option string :=
  match l with
  | [] => None
  | Comment _ :: l => given l t
  | Setting _ s text :: l => if decide (t = s) then Some text else given l t
  end.

Lemma given_none l t : given l t = None <-> t ∉ settings l.
Proof.
  induction l as [|[c|n s text] l IH]; cbn; [by split; [intros _; apply not_elem_of_nil|]|done|].
  destruct (decide (t = s)) as [->|Hne]; [split; [done|intros []; by left]|].
  rewrite IH, not_elem_of_cons. split; [by intros H|by intros [_ H]].
Qed.

Lemma setting_in l s : s ∈ settings l <-> exists n text, Setting n s text ∈ l.
Proof.
  unfold settings. rewrite list_elem_of_omap. split.
  - intros ([c|n t text] & Hin & [= ->]). by exists n, text.
  - intros (n & text & Hin). by exists (Setting n s text).
Qed.

Lemma given_in l n s text : NoDup (settings l) -> Setting n s text ∈ l -> given l s = Some text.
Proof.
  induction l as [|[c|n' s' text'] l IH]; cbn; intros Hn; [by intros ?%not_elem_of_nil|..].
  - intros [?|Hin]%elem_of_cons; [done|by apply IH].
  - apply NoDup_cons in Hn as [Hn1 Hn2]. intros [[= <- <- <-]|Hin]%elem_of_cons; [by rewrite decide_True|].
    rewrite decide_False; [by apply IH|]. intros ->. destruct Hn1. unfold settings. apply list_elem_of_omap.
    by exists (Setting n s' text).
Qed.

Section Read.
Context (decl : symbol -> declaration) (buckets : Z -> list symbol) (all_symbols : list symbol)
  (char_value : ascii -> Z) (CONFIG_ : string) (warn_unknown werror : bool).

#[local] Abbreviation read_lines := (read_lines decl buckets char_value CONFIG_ warn_unknown).

Definition item_line (i : item) : string :=
  match i with Comment l => l | Setting n s text => symbol_line decl CONFIG_ n s text end.

Definition config_text (l : list item) : string := foldr (fun i r => item_line i +:+ newline +:+ r) ""%string l.

(** A comment or an empty line. *)
Definition harmless (l : string) : Prop :=
  without (ascii_of_nat 10) l /\
  if starts_with "#" l then starts_with CONFIG_ (behind 2 (l +:+ newline)) = false
  else l = ""%string /\ starts_with CONFIG_ newline = false.

(** The lines that are understood. *)
Definition item_ok (w : conf_world) (i : item) : Prop :=
  match i with
  | Comment l => harmless l
  | Setting n s text =>
      writable decl CONFIG_ n s /\ readable decl s text /\ findable decl buckets char_value n s w /\
      has SYMBOL_CHOICEVAL (flags (cells (kw w) s)) = false
  end.

Lemma item_ok_same w w' i :
  (forall m t, m = SYMBOL_CONST \/ m = SYMBOL_CHOICEVAL ->
     has m (flags (cells (kw w') t)) = has m (flags (cells (kw w) t))) ->
  item_ok w i -> item_ok w' i.
Proof.
  intros Hf. destruct i as [l|n s text]; [done|]. intros (H1 & H2 & H3 & H4). split; [done|]. split; [done|]. split.
  - apply (find_same _ _ _ n s w); [|done]. intros t. apply Hf. by left.
  - rewrite Hf; [done|by right].
Qed.

Lemma config_lines w l : Forall (item_ok w) l -> lines (config_text l) = map (fun i => item_line i +:+ newline) l.
Proof.
  induction 1 as [|i l Hi _ IH]; [done|]. cbn [config_text foldr map]. rewrite lines_line; [f_equal; exact IH|].
  destruct i as [c|n s text]; [apply Hi|]. destruct Hi as (H1 & H2 & _). by apply line_without.
Qed.

Lemma runs_harmless l w :
  harmless l ->
  runs (read_line decl buckets char_value CONFIG_ warn_unknown (l +:+ newline)) w (fun _ w' =>
    kw w' = kw w /\ conf_warnings w' = conf_warnings w).
Proof.
  intros [Hl H]. apply runs_bind, runs_modify. set (w1 := set_position _ _ _ w).
  assert (runs (mret (M := prog conf_world) (None : option symbol)) w1 (fun o w' => o = None /\
    kw w' = kw w /\ conf_warnings w' = conf_warnings w)) as Hret by by apply runs_ret.
  assert (forall o w', o = None /\ kw w' = kw w /\ conf_warnings w' = conf_warnings w ->
    runs (match o with Some s => note_choice decl s | None => mret tt end) w'
      (fun _ w' => kw w' = kw w /\ conf_warnings w' = conf_warnings w)) as Hend by (intros o w' [-> Hw]; by apply runs_ret).
  destruct (starts_with "#" l) eqn:E.
  - destruct l as [|c r]; [done|]. rewrite bool_decide_eq_false_2 by (by destruct r).
    assert (starts_with "#" (String c r +:+ newline) = true) as ->.
    { unfold starts_with in *. rewrite cons_app. cbn [String.prefix] in *. by destruct (ascii_dec _ c), (r +:+ newline). }
    unfold read_comment. rewrite H. eapply runs_step; [exact Hret|done].
  - destruct H as [-> H]. rewrite nil_app, bool_decide_eq_false_2, H by done.
    eapply runs_step; [exact Hret|done].
Qed.

(** What a file makes of a cell. *)
Definition assigned (l : list item) (t : symbol) (c c' : cell) : Prop :=
  match given l t with Some text => set_by decl t text c c' | None => c' = c end.

Lemma runs_items l w :
  Forall (item_ok w) l -> NoDup (settings l) ->
  runs (read_lines (map (fun i => item_line i +:+ newline) l)) w (fun _ w' =>
    conf_warnings w' = conf_warnings w /\ modules_val (kw w') = modules_val (kw w) /\
    conf_changed (kw w') = conf_changed (kw w) /\ forall t, assigned l t (cells (kw w) t) (cells (kw w') t)).
Proof.
  revert w. induction l as [|i l IH]; intros w Hok Hn; cbn [map KConf.read_lines]; [done|].
  apply Forall_cons_1 in Hok as [Hi Hok]. destruct i as [c|n s text].
  - eapply runs_step; [by apply (runs_harmless c)|]. intros [] w1 [E1 E2].
    eapply runs_mono; [apply IH; [|done]|].
    { eapply List.Forall_impl; [|exact Hok]. intros i. apply item_ok_same. intros m t _. by rewrite E1. }
    intros [] w2. rewrite E1, E2. done.
  - cbn in Hn. apply NoDup_cons in Hn as [Hn1 Hn2]. destruct Hi as (H1 & H2 & H3 & H4).
    eapply runs_step; [by apply (runs_symbol_line decl buckets char_value CONFIG_ warn_unknown n s text)|].
    intros [] w1 [Hg E].
    eapply runs_mono; [apply IH; [|done]|].
    { eapply List.Forall_impl; [|exact Hok]. intros i. apply item_ok_same. intros m t Hm.
      rewrite (gives_flag _ _ _ _ _ _ _ Hg); [done|by destruct Hm as [-> | ->]]. }
    intros [] w2 (E1 & E2 & E3 & Hc). destruct Hg as [G1 G2 G3 G4].
    split; [congruence|]. split; [congruence|]. split; [congruence|]. intros t. specialize (Hc t).
    unfold assigned in *. cbn [given]. destruct (decide (t = s)) as [->|Hne].
    + apply given_none in Hn1. rewrite Hn1 in Hc. by rewrite Hc.
    + by rewrite G3 in Hc by done.
Qed.

(** ** Forgetting the old values *)

(** The flags that [conf_reset] changes. *)
Definition reset_flags : Z := 0x10480.

Record was_reset (c c' : cell) : Prop := {
  reset_core : core c' = core c;
  reset_value : def_user c' = SymbolValue NULL no;
  reset_others : Z.ldiff (flags c') reset_flags = Z.ldiff (flags c) reset_flags;
  reset_user : has SYMBOL_DEF_USER (flags c') = has SYMBOL_CHOICE (flags c);
  reset_valid : has SYMBOL_VALID (flags c') = false
}.

Lemma same_flag m f f' : Z.land m reset_flags = 0 -> Z.ldiff f' reset_flags = Z.ldiff f reset_flags -> has m f' = has m f.
Proof.
  intros Hm E. rewrite <- (has_without m reset_flags f'), <- (has_without m reset_flags f) by done.
  unfold without_flag. by rewrite E.
Qed.

Lemma was_reset_trans c1 c2 c3 : was_reset c1 c2 -> was_reset c2 c3 -> was_reset c1 c3.
Proof.
  intros [A1 A2 A3 A4 A5] [B1 B2 B3 B4 B5]. split; [congruence|done|congruence| |done].
  rewrite B4. by apply same_flag.
Qed.

Lemma flag_dropped m k f : Z.land m k = m -> has m (without_flag k f) = false.
Proof.
  intros Hm. unfold has, without_flag. apply negb_false_iff, Z.eqb_eq, Z.bits_inj'. intros i Hi.
  rewrite Z.land_spec, Z.ldiff_spec, Z.bits_0, <- Hm, Z.land_spec.
  by destruct (Z.testbit f i), (Z.testbit m i), (Z.testbit k i).
Qed.

Lemma ldiff_flags k f g : Z.land k reset_flags = k -> Z.ldiff g reset_flags = Z.ldiff f reset_flags ->
  Z.ldiff (with_flag k g) reset_flags = Z.ldiff f reset_flags /\
  Z.ldiff (without_flag k g) reset_flags = Z.ldiff f reset_flags.
Proof.
  intros Hk <-. split; apply Z.bits_inj'; intros i Hi; unfold with_flag, without_flag;
    rewrite !Z.ldiff_spec, ?Z.lor_spec, ?Z.ldiff_spec, <- Hk, Z.land_spec;
    by destruct (Z.testbit g i), (Z.testbit k i), (Z.testbit reset_flags i).
Qed.

Lemma runs_reset_one s k :
  runs (set_flag SYMBOL_CHANGED s;;
        clear_flag (Z.lor SYMBOL_DEF_USER SYMBOL_VALID) s;;
        choice ← sym_is_choice s;
        when choice (set_flag SYMBOL_DEF_USER s);;
        change s (put_user (SymbolValue NULL no))) k (fun _ k' =>
    modules_val k' = modules_val k /\ conf_changed k' = conf_changed k /\
    was_reset (cells k s) (cells k' s) /\ forall t, t <> s -> cells k' t = cells k t).
Proof.
  apply runs_bind, runs_change, runs_bind, runs_change, runs_bind, runs_look. rewrite !cells_changed. cbn [flags put_flags].
  set (f := without_flag _ (with_flag _ (flags (cells k s)))).
  assert (Z.ldiff f reset_flags = Z.ldiff (flags (cells k s)) reset_flags) as Hf
    by (apply ldiff_flags; [done|]; by apply ldiff_flags).
  rewrite (same_flag SYMBOL_CHOICE (flags (cells k s)) f) by done.
  assert (has SYMBOL_DEF_USER f = false /\ has SYMBOL_VALID f = false) as [Hu Hv] by by split; apply flag_dropped.
  apply runs_bind, runs_when; intros Ec; repeat apply runs_change; repeat split;
    try (intros t Ht; by rewrite !cells_changed_ne by done); rewrite ?cells_changed; cbn; rewrite ?has_with; fold f;
    rewrite ?Hu, ?Hv, ?Ec; try done. by apply ldiff_flags.
Qed.

Lemma runs_reset w :
  runs (conf_reset all_symbols) w (fun _ w' =>
    conf_warnings w' = conf_warnings w /\ modules_val (kw w') = modules_val (kw w) /\
    conf_changed (kw w') = conf_changed (kw w) /\
    forall t, if decide (t ∈ all_symbols) then was_reset (cells (kw w) t) (cells (kw w') t)
              else cells (kw w') t = cells (kw w) t).
Proof.
  apply runs_on. cbn [set_kw kw conf_warnings]. generalize (kw w) as k. intros k.
  enough (runs (each all_symbols (fun s =>
      set_flag SYMBOL_CHANGED s;; clear_flag (Z.lor SYMBOL_DEF_USER SYMBOL_VALID) s;;
      choice ← sym_is_choice s;
      when choice (set_flag SYMBOL_DEF_USER s);; change s (put_user (SymbolValue NULL no)))) k (fun _ k' =>
    modules_val k' = modules_val k /\ conf_changed k' = conf_changed k /\
    forall t, if decide (t ∈ all_symbols) then was_reset (cells k t) (cells k' t) else cells k' t = cells k t)) as H
    by (eapply runs_mono; [exact H|]; by intros).
  revert k. induction all_symbols as [|s l IH]; intros k; cbn [each].
  { split; [done|]. split; [done|]. intros t. by rewrite decide_False by apply not_elem_of_nil. }
  eapply runs_step; [apply runs_reset_one|]. intros [] k1 (M1 & C1 & R1 & O1).
  eapply runs_mono; [apply IH|]. intros [] k2 (M2 & C2 & R2). split; [congruence|]. split; [congruence|]. intros t.
  specialize (R2 t). destruct (decide (t = s)) as [->|Hne].
  - rewrite decide_True by by left. destruct (decide (s ∈ l)); [by apply (was_reset_trans _ (cells k1 s))|by rewrite R2].
  - rewrite (O1 t Hne) in R2. destruct (decide (t ∈ l)).
    + by rewrite decide_True by by right.
    + rewrite decide_False; [done|]. by intros [?|?]%elem_of_cons.
Qed.

(** ** A whole file *)

(** What the symbols are when a file has been read. *)
Record file_read (l : list item) (k k' : kworld) : Prop := {
  read_modules : modules_val k' = modules_val k;
  read_core : forall t, core (cells k' t) = core (cells k t);
  read_const : forall t, t ∉ all_symbols -> cells k' t = cells k t;
  read_others : forall t, Z.ldiff (flags (cells k' t)) reset_flags = Z.ldiff (flags (cells k t)) reset_flags;
  read_valid : forall t, t ∈ all_symbols -> has SYMBOL_VALID (flags (cells k' t)) = false;
  read_given : forall t text, given l t = Some text ->
    has SYMBOL_DEF_USER (flags (cells k' t)) = true /\
    def_user (cells k' t) = stored decl t text (SymbolValue NULL no);
  read_absent : forall t, t ∈ all_symbols -> given l t = None ->
    has SYMBOL_DEF_USER (flags (cells k' t)) = has SYMBOL_CHOICE (flags (cells k t)) /\
    def_user (cells k' t) = SymbolValue NULL no
}.

Lemma assigned_read l k k1 k2 :
  (forall t, t ∈ settings l -> t ∈ all_symbols) ->
  modules_val k2 = modules_val k ->
  (forall t, if decide (t ∈ all_symbols) then was_reset (cells k t) (cells k1 t) else cells k1 t = cells k t) ->
  (forall t, assigned l t (cells k1 t) (cells k2 t)) -> file_read l k k2.
Proof.
  intros Hin Hm Hr Ha.
  assert (forall t text, given l t = Some text -> was_reset (cells k t) (cells k1 t) /\ set_by decl t text (cells k1 t) (cells k2 t)) as Hset.
  { intros t text Hg. specialize (Ha t). unfold assigned in Ha. rewrite Hg in Ha. split; [|done].
    specialize (Hr t). rewrite decide_True in Hr; [done|]. apply Hin. destruct (decide (t ∈ settings l)) as [|Hn]; [done|].
    apply given_none in Hn. by rewrite Hg in Hn. }
  assert (forall t, given l t = None -> cells k2 t = cells k1 t) as Hsame
    by (intros t Hg; specialize (Ha t); unfold assigned in Ha; by rewrite Hg in Ha).
  assert (forall t, t ∈ all_symbols -> was_reset (cells k t) (cells k1 t)) as Hwas
    by (intros t Ht; specialize (Hr t); by rewrite decide_True in Hr).
  assert (forall t, t ∉ all_symbols -> cells k2 t = cells k t) as Hconst.
  { intros t Ht. rewrite Hsame; [specialize (Hr t); by rewrite decide_False in Hr|]. apply given_none. auto. }
  split; [done| |done| | | |].
  - intros t. destruct (decide (t ∈ all_symbols)) as [Ht|Ht]; [|by rewrite Hconst].
    rewrite <- (reset_core _ _ (Hwas t Ht)). destruct (given l t) as [text|] eqn:Eg; [|by rewrite Hsame].
    apply (set_core _ _ _ _ _ (proj2 (Hset t text Eg))).
  - intros t. destruct (decide (t ∈ all_symbols)) as [Ht|Ht]; [|by rewrite Hconst].
    rewrite <- (reset_others _ _ (Hwas t Ht)). destruct (given l t) as [text|] eqn:Eg; [|by rewrite Hsame].
    rewrite (set_flags _ _ _ _ _ (proj2 (Hset t text Eg))). by apply ldiff_flags.
  - intros t Ht. rewrite <- (reset_valid _ _ (Hwas t Ht)). destruct (given l t) as [text|] eqn:Eg; [|by rewrite Hsame].
    rewrite (set_flags _ _ _ _ _ (proj2 (Hset t text Eg))), has_with. apply orb_false_r.
  - intros t text Eg. destruct (Hset t text Eg) as [Hw [_ S2 S3]]. rewrite S2, S3, has_with, (reset_value _ _ Hw).
    split; [apply orb_true_r|done].
  - intros t Ht Eg. rewrite Hsame by done. split; [apply (reset_user _ _ (Hwas t Ht))|apply (reset_value _ _ (Hwas t Ht))].
Qed.

Lemma runs_open configname defconfig_list srctree name text w (Q : option string -> conf_world -> Prop) :
  files w (default configname name) = Some text -> Q (Some text) w ->
  runs (open_config configname defconfig_list srctree name) w Q.
Proof.
  intros Hf HQ. destruct name as [name|]; cbn [open_config].
  - change (files w name = Some text) in Hf. apply runs_bind, runs_get, runs_ret. by rewrite Hf.
  - change (files w configname = Some text) in Hf. apply runs_bind, runs_bind, runs_get, runs_ret. by rewrite Hf.
Qed.

(** Reading a file of comments and settings: no warning, and exactly the values that
    the file gives. *)
Lemma runs_read_simple configname defconfig_list srctree name l w :
  files w (default configname name) = Some (config_text l) -> Forall (item_ok w) l -> NoDup (settings l) ->
  (forall t, t ∈ settings l -> t ∈ all_symbols) ->
  runs (conf_read_simple decl buckets all_symbols char_value CONFIG_ warn_unknown werror configname defconfig_list
    srctree name) w (fun bad w' => bad = false /\ conf_warnings w' = 0 /\
    conf_changed (kw w') = conf_changed (kw w) /\ file_read l (kw w) (kw w')).
Proof.
  intros Hf Hok Hn Hin. eapply runs_bind, runs_open; [done|]. apply runs_bind, runs_modify.
  set (w0 := set_position _ 0 0 w). eapply runs_step; [apply runs_reset|]. intros [] w1 (E1 & M1 & C1 & R1).
  rewrite (config_lines w l Hok). eapply runs_step; [apply runs_items; [|done]|].
  { eapply List.Forall_impl; [|exact Hok]. intros i. apply item_ok_same. intros m t Hm. specialize (R1 t).
    destruct (decide (t ∈ all_symbols)); [|by rewrite R1]. apply same_flag; [by destruct Hm as [-> | ->]|apply R1]. }
  intros [] w2 (E2 & M2 & C2 & A2). apply runs_bind, runs_get.
  assert (conf_warnings w2 = 0) as E by by rewrite E2, E1. rewrite E. apply runs_ret.
  split; [done|]. split; [done|]. split; [by rewrite C2, C1|]. apply (assigned_read l (kw w) (kw w1)); [done| |done|done].
  by rewrite M2, M1.
Qed.
End Read.
