(* ===== verification/KConfOut.v ===== *)
(** * What is written

    The walk along the pointers of the menus is the preorder of a forest. On the way the
    text that was printed consists of comments and of one line for each symbol that is
    marked as written, with the value it has. *)

From Stdlib Require Import ZArith Lia String Ascii.
From stdpp Require Import base list strings numbers option.
From S2P Require Import Prelude CString KExpr KExprOps KSym KSymFacts KConf KConfWrite KSymSpec KSymCalc KSymOrder KSymSet KTable KConfFacts KConfRead.

(** Menus with their children and those behind them. *)
Inductive forest := Leaf | Node (m : nat) (children rest : forest).

#[export] Instance forest_eq_dec : EqDecision forest.
Proof. solve_decision. Defined.

Inductive event := Enter (m : nat) | Leave (m : nat).

Fixpoint preorder (f : forest) : list event :=
  match f with
  | Leaf => []
  | Node m c r => Enter m :: preorder c ++ Leave m :: preorder r
  end.

Definition top (f : forest) : option nat := match f with Leaf => None | Node m _ _ => Some m end.

(** The menus that are entered. *)
Fixpoint nodes (f : forest) : list nat :=
  match f with Leaf => [] | Node m c r => m :: nodes c ++ nodes r end.

Lemma entered f : omap (fun e => match e with Enter m => Some m | Leave _ => None end) (preorder f) = nodes f.
Proof.
  induction f as [|m c IHc r IHr]; [done|]. cbn. rewrite omap_app, IHc. cbn. by rewrite IHr.
Qed.

Lemma enter_in f i : Enter i ∈ preorder f <-> i ∈ nodes f.
Proof.
  rewrite <- entered, list_elem_of_omap. split.
  - intros H. by exists (Enter i).
  - by intros ([j|j] & H & [= ->]).
Qed.

Lemma leave_in f i : Leave i ∈ preorder f -> i ∈ nodes f.
Proof.
  induction f as [|m c IHc r IHr]; cbn [preorder nodes]; [by intros ?%not_elem_of_nil|].
  intros [H|[H|[[= ->]|H]%elem_of_cons]%elem_of_app]%elem_of_cons; [done|..].
  - right. apply elem_of_app. left. by apply IHc.
  - by left.
  - right. apply elem_of_app. right. by apply IHr.
Qed.

Lemma preorder_length f : length (preorder f) = (2 * length (nodes f))%nat.
Proof. induction f as [|m c IHc r IHr]; [done|]. cbn [preorder nodes length]. rewrite !length_app. cbn [length]. lia. Qed.

Section Walk.
Context (menus : nat -> menu).

(** The pointers are those of the forest. *)
Fixpoint linked (parent : option nat) (f : forest) : Prop :=
  match f with
  | Leaf => True
  | Node m c r =>
      mparent (menus m) = parent /\ mlist (menus m) = top c /\ mnext (menus m) = top r /\
      linked (Some m) c /\ linked parent r
  end.

Lemma bind_ext {W A B} (p : prog W A) (f g : A -> prog W B) w :
  (forall a w', f a w' = g a w') -> (p ≫= f) w = (p ≫= g) w.
Proof. intros H. unfold mbind, prog_bind. destruct (p w); auto. Qed.

Lemma bind_same {W A B} (p q : prog W A) (f : A -> prog W B) w : p w = q w -> (p ≫= f) w = (q ≫= f) w.
Proof. intros H. unfold mbind, prog_bind. by rewrite H. Qed.

Lemma bind_bind {W A B C} (p : prog W A) (f : A -> prog W B) (g : B -> prog W C) w :
  ((p ≫= f) ≫= g) w = (p ≫= (fun a => f a ≫= g)) w.
Proof. unfold mbind, prog_bind. by destruct (p w). Qed.

Section Write.
Context (decl : symbol -> declaration) (all_symbols : list symbol) (modules_sym : symbol)
  (memcmp_value : symbol_value -> symbol_value -> bool) (fuel : nat) (CONFIG_ : string) (rootmenu : nat).

#[local] Abbreviation entry := (write_entry decl all_symbols modules_sym memcmp_value fuel CONFIG_ menus).
#[local] Abbreviation leave := (write_end decl all_symbols modules_sym memcmp_value fuel menus rootmenu).
#[local] Abbreviation walk := (write_menus decl all_symbols modules_sym memcmp_value fuel CONFIG_ menus rootmenu).

(** The structural visit. *)
Definition do_event (e : event) (o : output) : prog kworld output :=
  match e with Enter m => entry m o | Leave m => leave m o end.

Fixpoint visit (l : list event) (o : output) : prog kworld output :=
  match l with [] => mret o | e :: l => o ← do_event e o; visit l o end.

Lemma visit_app l1 l2 o w : visit (l1 ++ l2) o w = (o ← visit l1 o; visit l2 o) w.
Proof.
  revert o w. induction l1 as [|e l1 IH]; intros o w; [done|]. cbn [visit app]. rewrite bind_bind.
  apply bind_ext. intros. apply IH.
Qed.

(** For a forest with a first menu. *)
Lemma walk_forest f parent n o w :
  linked parent f -> f <> Leaf ->
  walk (length (preorder f) + n) false (top f) o w = (o ← visit (preorder f) o; walk n true parent o) w.
Proof.
  revert parent n o w. induction f as [|m c IHc r IHr]; intros parent n o w Hl Hne; [done|].
  destruct Hl as (Hp & Hc & Hr & Hlc & Hlr). cbn [preorder length app top].
  assert (forall o w, walk (S (length (preorder r) + n)) true (Some m) o w =
    (o ← visit (Leave m :: preorder r) o; walk n true parent o) w) as Hend.
  { intros o1 w1. cbn [write_menus visit do_event]. rewrite bind_bind. apply bind_ext. intros o2 w2. rewrite Hr.
    destruct r as [|m' c' r']; cbn [top]; [by rewrite Hp|]. by apply IHr. }
  cbn [plus write_menus visit do_event]. rewrite bind_bind. apply bind_ext. intros o1 w1. rewrite Hc.
  rewrite length_app. cbn [length]. replace (length (preorder c) + S (length (preorder r)) + n)%nat
    with (length (preorder c) + S (length (preorder r) + n))%nat by lia.
  destruct c as [|m' c' r']; [apply Hend|]. cbn [top].
  rewrite (IHc (Some m)) by done.
  rewrite (bind_same (visit (preorder _ ++ _) o1) _ _ w1 (visit_app _ _ o1 w1)), bind_bind.
  by apply bind_ext.
Qed.

(** From the first menu below [rootmenu], to the end. *)
Lemma walk_all f n o w :
  linked (Some rootmenu) f -> f <> Leaf ->
  mparent (menus rootmenu) = None -> mnext (menus rootmenu) = None ->
  walk (length (preorder f) + S n) false (top f) o w = (o ← visit (preorder f) o; leave rootmenu o) w.
Proof.
  intros Hl Hne Hp Hn. rewrite (walk_forest f (Some rootmenu)) by done. apply bind_ext. intros o1 w1.
  cbn [write_menus]. rewrite Hp, Hn. unfold mbind, prog_bind. destruct (leave rootmenu o1 w1); [|done..]. by destruct n.
Qed.
End Write.
End Walk.

(** ** The mark of written symbols *)

(** Only the mark may differ. *)
Definition alike (c c' : cell) : Prop :=
  core c' = core c /\ def_user c' = def_user c /\
  Z.ldiff (flags c') SYMBOL_WRITTEN = Z.ldiff (flags c) SYMBOL_WRITTEN.

Lemma alike_has m c c' : Z.land m SYMBOL_WRITTEN = 0 -> alike c c' -> has m (flags c') = has m (flags c).
Proof.
  intros Hm (_ & _ & E). rewrite <- (has_without m SYMBOL_WRITTEN (flags c')) by done.
  rewrite <- (has_without m SYMBOL_WRITTEN (flags c)) by done. unfold without_flag. by rewrite E.
Qed.

Lemma alike_refl c : alike c c.
Proof. done. Qed.

Lemma alike_trans a b c : alike a b -> alike b c -> alike a c.
Proof. intros (A1 & A2 & A3) (B1 & B2 & B3). split; [congruence|]. split; congruence. Qed.

Lemma alike_flags g c :
  Z.ldiff (g (flags c)) SYMBOL_WRITTEN = Z.ldiff (flags c) SYMBOL_WRITTEN -> alike c (put_flags g c).
Proof. intros H. by split. Qed.

Lemma alike_mark c : alike c (put_flags (with_flag SYMBOL_WRITTEN) c) /\ alike c (put_flags (without_flag SYMBOL_WRITTEN) c).
Proof.
  split; apply alike_flags, Z.bits_inj'; intros i Hi; unfold with_flag, without_flag;
    rewrite !Z.ldiff_spec, ?Z.lor_spec, ?Z.ldiff_spec; by destruct (Z.testbit _ i), (Z.testbit _ i).
Qed.

Section Alike.
Context (decl : symbol -> declaration) (modules_sym : symbol) (D : symbol -> Prop) (rank : symbol -> nat) (m : tristate).
Context (k k' : kworld) (Hm : modules_val k' = modules_val k) (Ha : forall t, alike (cells k t) (cells k' t)).

Lemma alike_valid t : valid k' t = valid k t.
Proof. unfold valid. by apply alike_has. Qed.

Lemma alike_curr t : curr (cells k' t) = curr (cells k t).
Proof. destruct (Ha t) as [E _]. unfold core in E. by injection E as ->. Qed.

Lemma alike_env t : env_of decl k' t = env_of decl k t.
Proof. unfold env_of. rewrite alike_curr. f_equal. by apply alike_has. Qed.

Lemma alike_solves env d t : solves env m d (cells k t) -> solves env m d (cells k' t).
Proof.
  destruct (Ha t) as (E & Eu & _). unfold core in E. injection E as E1 E2 E3 E4 E5. unfold solves.
  assert (user_tri (cells k' t) = user_tri (cells k t)) as Et
    by (unfold user_tri; rewrite Eu, (alike_has SYMBOL_DEF_USER _ _ eq_refl (Ha t)); done).
  assert (user_text (cells k' t) = user_text (cells k t)) as Ex
    by (unfold user_text; rewrite Eu, (alike_has SYMBOL_DEF_USER _ _ eq_refl (Ha t)); done).
  unfold spec_value. by rewrite E1, E2, E3, E4, E5, Et, Ex.
Qed.

Lemma alike_good : good decl D m k -> good decl D m k'.
Proof.
  intros [H1 H2 H3]. split.
  - intros t Ht. rewrite alike_valid, alike_curr. by apply H1.
  - by rewrite Hm.
  - intros t Ht. destruct (H3 t Ht) as [P1 P2 P3 P4 P5 P6]. split; [..|done|done].
    + by rewrite (alike_has SYMBOL_CHOICE _ _ eq_refl (Ha t)).
    + by rewrite (alike_has SYMBOL_CHOICEVAL _ _ eq_refl (Ha t)).
    + by rewrite (alike_has SYMBOL_NEED_SET_CHOICE_VALUES _ _ eq_refl (Ha t)).
    + unfold user_text. rewrite (alike_has SYMBOL_DEF_USER _ _ eq_refl (Ha t)).
      destruct (Ha t) as (_ & -> & _). exact P4.
Qed.

Lemma alike_consistent : consistent decl modules_sym D rank m k -> consistent decl modules_sym D rank m k'.
Proof.
  intros [H1 H2 H3]. split; [by apply alike_good|..].
  - rewrite alike_valid. unfold modules_tri. by rewrite alike_curr.
  - intros t Ht Hv. rewrite alike_valid in Hv. destruct (H3 t Ht Hv) as [_ Hf].
    split; [by rewrite alike_valid|]. intros env He. apply alike_solves, Hf. intros u Hu Hvu.
    rewrite (He u Hu) by by rewrite alike_valid. apply alike_env.
Qed.
End Alike.

(** ** Conditions and values between calculations *)

Section Out.
Context (decl : symbol -> declaration) (all_symbols : list symbol) (modules_sym : symbol)
  (memcmp_value : symbol_value -> symbol_value -> bool) (D : symbol -> Prop) (rank : symbol -> nat) (fuel : nat)
  (m : tristate).
Context (ok : ordered decl modules_sym D rank) (enough : forall t, D t -> (S (rank t) < fuel)%nat).
Context (CONFIG_ : string) (menus : nat -> menu) (rootmenu : nat).

#[local] Abbreviation consistent := (consistent decl modules_sym D rank m).
#[local] Abbreviation calc_value := (sym_calc_value decl all_symbols modules_sym memcmp_value fuel).

(** Symbols were calculated, and nothing else happened. *)
Definition onward (k k' : kworld) : Prop :=
  consistent k' /\ (forall t, valid k t = true -> valid k' t = true /\ cells k' t = cells k t) /\
  forall t, same_input k k' t.

Lemma onward_refl k : consistent k -> onward k k.
Proof. intros Hk. split; [done|]. split; [by intros t Ht|]. intros t. apply kept_refl. Qed.

Lemma onward_trans k1 k2 k3 : onward k1 k2 -> onward k2 k3 -> onward k1 k3.
Proof.
  intros (_ & V1 & K1) (C2 & V2 & K2). split; [done|]. split.
  - intros t Ht. destruct (V1 t Ht) as [Ht1 <-]. by apply V2.
  - intros t. apply (kept_trans _ (cells k2 t)); [apply K1|apply K2].
Qed.

Definition known (e : option expr) : Prop := Forall (fun t => constant t = true \/ D t) (opt_symbols e).

Lemma known_operand e : known e -> Forall (operand D rank fuel) (opt_symbols e).
Proof.
  apply List.Forall_impl. intros t [Ht|Ht]; [by left|right]. split; [done|]. specialize (enough t Ht). lia.
Qed.

Lemma fuel_positive : (0 < fuel)%nat.
Proof. pose proof (enough _ (proj1 (ordered_modules _ _ _ _ ok))). lia. Qed.

Lemma runs_known_condition e k :
  consistent k -> known e -> runs (expr_calc_value decl modules_sym calc_value e) k (fun _ => onward k).
Proof.
  intros Hk He%known_operand. destruct e as [e|]; [|by apply onward_refl].
  pose proof ok as [O1 O2 O3 (O4 & O5 & O6)]. pose proof fuel_positive as Hpos.
  assert (forall r, inv decl modules_sym D rank m r k) as Hi by by apply consistent_inv.
  eapply runs_mono; [apply (runs_calc decl modules_sym D rank m O3 O5 calc_value fuel)|].
  - intros t w Hv. by apply calc_valid.
  - intros t w Ht _ Hit. apply (runs_value decl all_symbols modules_sym memcmp_value D rank m O1 O2 O3 O5); auto.
  - apply Hi.
  - exact He.
  - intros v k' [Hst _]. split.
    + apply consistent_inv. intros r. apply (inv_step _ _ _ _ _ r fuel k); [done|apply Hi].
    + split; [intros t Ht; by apply (step_valid _ _ _ _ _ _ _ _ Hst)|].
      intros t. destruct (proj2 Hst t) as [E|(_ & _ & _ & _ & Hkt)]; [by red; rewrite E|done].
Qed.

(** What [sym_get_string_value] returns. *)
Definition text_of (k : kworld) (s : symbol) : string := KExprOps.sym_get_string_value (env_of decl k) m s.

Lemma runs_value_text s k :
  consistent k -> D s -> valid k s = true -> stype (decl s) <> S_UNKNOWN ->
  runs (value_text decl all_symbols modules_sym memcmp_value fuel s) k (fun v k' => k' = k /\ v = text_of k s).
Proof.
  intros Hk Hs Hv Hty. pose proof ok as [O1 O2 O3 (O4 & O5 & O6)]. pose proof fuel_positive as Hpos.
  assert (forall r, inv decl modules_sym D rank m r k) as Hi by by apply consistent_inv.
  assert (runs (sym_get_string_value decl modules_sym calc_value s) k (fun v k' => k' = k /\ v = text_of k s)) as H.
  { eapply runs_mono; [apply (runs_string decl modules_sym D rank m O3 O5 calc_value fuel)|].
    - intros t w Hvt. by apply calc_valid.
    - apply Hi.
    - right. split; [done|]. specialize (enough s Hs). lia.
    - done.
    - intros v k' [-> Hf]. split; [done|]. apply Hf. by intros u _ _. }
  unfold value_text. by destruct (stype (decl s)).
Qed.

(** A menu without a symbol. *)
Lemma runs_visible n i k :
  (0 < n)%nat -> consistent k -> msym (menus i) = None -> known (mvisibility (menus i)) ->
  (forall j p, mprompt (menus i) = Some (j, p) -> known (pvisible p)) ->
  runs (menu_is_visible decl all_symbols modules_sym memcmp_value fuel menus n i) k (fun _ => onward k).
Proof.
  intros Hn Hk Hs Hv Hp. destruct n as [|n]; [lia|]. cbn [menu_is_visible]. rewrite Hs.
  destruct (mprompt (menus i)) as [[j p]|] eqn:Ep; [|by apply onward_refl].
  eapply runs_step; [by apply runs_known_condition|]. intros v k1 H1.
  destruct (bool_decide (v = no)); [by apply runs_ret|].
  eapply runs_step; [apply runs_known_condition; [apply H1|by apply (Hp j)]|]. intros v2 k2 H2.
  apply runs_ret. by apply (onward_trans _ k1).
Qed.
End Out.
