(* ===== verification/KConfVisit.v ===== *)
(** * The text of a configuration

    The loop of [conf_write], menu by menu: what was printed, which symbols are marked
    and what is still to come. *)

From Stdlib Require Import ZArith Lia String Ascii.
From stdpp Require Import base list strings numbers option.
From S2P Require Import Prelude CString KExpr KExprOps KSym KSymSpec KSymFacts KSymCalc KSymOrder KSymSet KTable KConf KConfWrite KConfFacts KConfRead KConfOut.

(** What neither calculating nor marking changes. *)
Definition same_user (k k' : kworld) : Prop :=
  forall t, def_user (cells k' t) = def_user (cells k t) /\
    Z.ldiff (flags (cells k' t)) 0xe80 = Z.ldiff (flags (cells k t)) 0xe80.

Lemma same_user_trans k1 k2 k3 : same_user k1 k2 -> same_user k2 k3 -> same_user k1 k3.
Proof. intros H1 H2 t. destruct (H1 t), (H2 t). split; congruence. Qed.

Lemma same_user_has m k k' t : Z.land m 0xe80 = 0 -> same_user k k' -> has m (flags (cells k' t)) = has m (flags (cells k t)).
Proof.
  intros Hm H. destruct (H t) as [_ E]. rewrite <- (has_without m 0xe80 (flags (cells k' t))) by done.
  rewrite <- (has_without m 0xe80 (flags (cells k t))) by done. unfold without_flag. by rewrite E.
Qed.

Lemma ldiff_smaller a b f f' : Z.land a b = a -> Z.ldiff f' a = Z.ldiff f a -> Z.ldiff f' b = Z.ldiff f b.
Proof.
  intros Hab E. apply Z.bits_inj'. intros i Hi. assert (Z.testbit (Z.ldiff f' a) i = Z.testbit (Z.ldiff f a) i) as Ei
    by by rewrite E. rewrite !Z.ldiff_spec in *. rewrite <- Hab, Z.land_spec in Ei.
  by destruct (Z.testbit f' i), (Z.testbit f i), (Z.testbit a i), (Z.testbit b i).
Qed.

Lemma kept_user k k' : (forall t, kept (cells k t) (cells k' t)) -> same_user k k'.
Proof. intros H t. destruct (H t) as [E1 E2]. split; [done|]. by apply (ldiff_smaller volatile). Qed.

Lemma alike_user k k' : (forall t, alike (cells k t) (cells k' t)) -> same_user k k'.
Proof. intros H t. destruct (H t) as (_ & E1 & E2). split; [done|]. by apply (ldiff_smaller SYMBOL_WRITTEN). Qed.

Lemma settings_app l1 l2 : settings (l1 ++ l2) = settings l1 ++ settings l2.
Proof. apply omap_app. Qed.

Section Visit.
Context (decl : symbol -> declaration) (all_symbols : list symbol) (modules_sym : symbol)
  (memcmp_value : symbol_value -> symbol_value -> bool) (D : symbol -> Prop) (rank : symbol -> nat) (fuel : nat)
  (m : tristate).
Context (ok : ordered decl modules_sym D rank) (enough : forall t, D t -> (S (rank t) < fuel)%nat).
Context (CONFIG_ : string) (menus : nat -> menu) (rootmenu : nat).

#[local] Abbreviation consistent := (consistent decl modules_sym D rank m).
#[local] Abbreviation calc_value := (sym_calc_value decl all_symbols modules_sym memcmp_value fuel).
#[local] Abbreviation onward := (onward decl modules_sym D rank m).
#[local] Abbreviation text_of := (text_of decl m).
#[local] Abbreviation config_text := (config_text decl CONFIG_).
#[local] Abbreviation harmless := (harmless CONFIG_).
#[local] Abbreviation entry := (write_entry decl all_symbols modules_sym memcmp_value fuel CONFIG_ menus).
#[local] Abbreviation leave := (write_end decl all_symbols modules_sym memcmp_value fuel menus rootmenu).

Lemma config_text_app l1 l2 : config_text (l1 ++ l2) = config_text l1 +:+ config_text l2.
Proof. induction l1 as [|i l1 IH]; [done|]. cbn [config_text foldr app]. rewrite !string_app_assoc. f_equal. f_equal. exact IH. Qed.

(** Symbols that can be printed. *)
Definition printable (s : symbol) : Prop := D s /\ stype (decl s) <> S_UNKNOWN /\ is_Some (sname (decl s)).

Definition title_ok (t : string) : Prop :=
  harmless ("# " +:+ t) /\ harmless ("# end of " +:+ t).

(** A menu has a symbol, or conditions and a title. *)
Definition menu_ok (k : kworld) (i : nat) : Prop :=
  match msym (menus i) with
  | Some s => has SYMBOL_CHOICE (flags (cells k s)) = true \/ printable s
  | None =>
      known D (mvisibility (menus i)) /\ (forall j p, mprompt (menus i) = Some (j, p) -> known D (pvisible p)) /\
      title_ok (menu_get_prompt decl menus i)
  end.

Definition shape (k : kworld) (i : item) : Prop :=
  match i with
  | Comment c => harmless c
  | Setting n s text =>
      printable s /\ sname (decl s) = Some n /\ valid k s = true /\ has SYMBOL_WRITE (flags (cells k s)) = true /\
      text = text_of k s
  end.

(** After the events [l], from the state [k0]. *)
Record out_ok (k0 : kworld) (l : list event) (items : list item) (o : output) (k : kworld) : Prop := {
  out_consistent : consistent k;
  out_user : same_user k0 k;
  out_text : o.1 = config_text items;
  out_shape : Forall (shape k) items;
  out_once : NoDup (settings items);
  out_mark : forall s, printable s -> has SYMBOL_WRITTEN (flags (cells k s)) = true <-> s ∈ settings items;
  out_all : forall i s, Enter i ∈ l -> msym (menus i) = Some s ->
    has SYMBOL_CHOICE (flags (cells k s)) = true \/
    valid k s = true /\ (has SYMBOL_WRITE (flags (cells k s)) = true -> s ∈ settings items);
  out_only : forall s, s ∈ settings items -> exists i, Enter i ∈ l /\ msym (menus i) = Some s
}.

Lemma shape_kept k k' i :
  (forall t, valid k t = true -> valid k' t = true /\ cells k' t = cells k t) -> shape k i -> shape k' i.
Proof.
  intros H. destruct i as [c|n s text]; [done|]. intros (H1 & H2 & H3 & H4 & H5). destruct (H s H3) as [Hv E].
  unfold shape, text_of, KConfOut.text_of, KExprOps.sym_get_string_value, type_of, env_of in *. by rewrite E.
Qed.

Lemma out_onward k0 l items o k k' : out_ok k0 l items o k -> onward k k' -> out_ok k0 l items o k'.
Proof.
  intros [H1 H2 H3 H4 H5 H6 H7 H8] (C & V & K). split; [done| |done| |done| | |done].
  - apply (same_user_trans _ k); [done|]. apply kept_user, K.
  - eapply List.Forall_impl; [|exact H4]. intros i. by apply shape_kept.
  - intros s Hs. rewrite (kept_has SYMBOL_WRITTEN _ _ eq_refl (K s)). by apply H6.
  - intros i s Hi Hs. rewrite (kept_has SYMBOL_CHOICE _ _ eq_refl (K s)).
    destruct (H7 i s Hi Hs) as [Hc|[Hv Hw]]; [by left|right]. by destruct (V s Hv) as [Hv' ->].
Qed.

Lemma out_written k0 l items o k s :
  out_ok k0 l items o k -> s ∈ settings items -> valid k s = true /\ has SYMBOL_WRITE (flags (cells k s)) = true.
Proof.
  intros Ho (n & text & Hin%list_elem_of_In)%setting_in. pose proof (out_shape _ _ _ _ _ Ho) as Hsh.
  rewrite Forall_forall in Hsh. destruct (Hsh _ Hin) as (_ & _ & ? & ? & _). done.
Qed.

(** Comments are printed. *)
Lemma out_comments k0 l items o k cs nl :
  out_ok k0 l items o k -> Forall harmless cs ->
  out_ok k0 l (items ++ map Comment cs) (o.1 +:+ config_text (map Comment cs), nl) k.
Proof.
  intros [H1 H2 H3 H4 H5 H6 H7 H8] Hc.
  assert (settings (items ++ map Comment cs) = settings items) as E.
  { rewrite settings_app. replace (settings (map Comment cs)) with (@nil symbol); [apply app_nil_r|].
    induction cs as [|c cs IH]; [done|]. apply Forall_cons_1 in Hc as [_ Hc]. by rewrite (IH Hc). }
  split; rewrite ?E; [done|done| | |done..].
  - cbn [fst]. by rewrite config_text_app, H3.
  - apply Forall_app. split; [done|]. by apply List.Forall_map.
Qed.

(** An event that is not the first one of a symbol. *)
Lemma out_event k0 l items o k e :
  out_ok k0 l items o k ->
  (forall i s, e = Enter i -> msym (menus i) = Some s ->
    has SYMBOL_CHOICE (flags (cells k s)) = true \/
    valid k s = true /\ (has SYMBOL_WRITE (flags (cells k s)) = true -> s ∈ settings items)) ->
  out_ok k0 (l ++ [e]) items o k.
Proof.
  intros [H1 H2 H3 H4 H5 H6 H7 H8] He. split; [done..| |].
  - intros i s Hi Hs. apply elem_of_app in Hi as [Hi|Hi%list_elem_of_singleton]; [by apply (H7 i)|by apply (He i)].
  - intros s Hs. destruct (H8 s Hs) as (i & Hi & E). exists i. split; [|done]. apply elem_of_app. by left.
Qed.

(** ** A symbol is marked and printed *)

Lemma shape_alike k k' i :
  (forall t, alike (cells k t) (cells k' t)) -> shape k i -> shape k' i.
Proof.
  intros H. destruct i as [c|n s text]; [done|]. intros (H1 & H2 & H3 & H4 & H5).
  split; [done|]. split; [done|]. rewrite (alike_valid k k' H s), (alike_has SYMBOL_WRITE _ _ eq_refl (H s)).
  split; [done|]. split; [done|]. rewrite H5. unfold text_of, KConfOut.text_of, KExprOps.sym_get_string_value, type_of.
  by rewrite (alike_env decl k k' H s).
Qed.

Definition marked_as_written (s : symbol) (k : kworld) : kworld := changed s (put_flags (with_flag SYMBOL_WRITTEN)) k.

Lemma marked_alike s k t : alike (cells k t) (cells (marked_as_written s k) t).
Proof.
  destruct (decide (t = s)) as [->|Hne]; unfold marked_as_written.
  - rewrite cells_changed. apply alike_mark.
  - by rewrite cells_changed_ne.
Qed.

Lemma out_setting k0 l items o k i n s nl :
  out_ok k0 l items o k -> msym (menus i) = Some s -> printable s -> sname (decl s) = Some n ->
  valid k s = true -> has SYMBOL_WRITE (flags (cells k s)) = true -> has SYMBOL_WRITTEN (flags (cells k s)) = false ->
  let k1 := marked_as_written s k in
  let item := Setting n s (text_of k1 s) in
  out_ok k0 (l ++ [Enter i]) (items ++ [item]) (o.1 +:+ config_text [item], nl) k1.
Proof.
  intros [H1 H2 H3 H4 H5 H6 H7 H8] Hi Hs Hn Hv Hw Hm k1 item. pose proof (marked_alike s k) as Ha. fold k1 in Ha.
  assert (settings (items ++ [item]) = settings items ++ [s]) as E by apply settings_app.
  assert (s ∉ settings items) as Hnew by (rewrite <- H6, Hm by done; done).
  assert (valid k1 s = true /\ has SYMBOL_WRITE (flags (cells k1 s)) = true) as [Hv1 Hw1]
    by by rewrite (alike_valid k k1 Ha s), (alike_has SYMBOL_WRITE _ _ eq_refl (Ha s)).
  split; rewrite ?E.
  - by apply (alike_consistent decl modules_sym D rank m k k1).
  - apply (same_user_trans _ k); [done|]. by apply alike_user.
  - cbn [fst]. by rewrite config_text_app, H3.
  - apply Forall_app. split; [|by apply Forall_singleton]. eapply List.Forall_impl; [|exact H4]. intros it. by apply shape_alike.
  - apply list.NoDup_app. split; [done|]. split; [|apply NoDup_singleton]. by intros t Ht ->%list_elem_of_singleton.
  - intros t Ht. rewrite elem_of_app, list_elem_of_singleton, <- H6 by done. unfold k1, marked_as_written.
    destruct (decide (t = s)) as [->|Hne]; [|rewrite cells_changed_ne by done; split; [by left|by intros [?|?]]].
    rewrite cells_changed. cbn. rewrite has_with, orb_true_r. split; [by right|done].
  - intros j t Hj Ht. apply elem_of_app in Hj as [Hj|[= ->]%list_elem_of_singleton].
    + rewrite (alike_valid k k1 Ha t), (alike_has SYMBOL_WRITE _ _ eq_refl (Ha t)), (alike_has SYMBOL_CHOICE _ _ eq_refl (Ha t)).
      destruct (H7 j t Hj Ht) as [?|[? ?]]; [by left|right]. rewrite elem_of_app. auto.
    + assert (t = s) as -> by congruence. right. split; [done|]. intros _. apply elem_of_app. right. by left.
  - intros t [Ht|Ht%list_elem_of_singleton]%elem_of_app.
    + destruct (H8 t Ht) as (j & Hj & Ej). exists j. rewrite elem_of_app. auto.
    + subst t. exists i. rewrite elem_of_app, list_elem_of_singleton. auto.
Qed.

(** ** Events *)

(** The prefix of the names is none of a comment. *)
Context (no_comment : harmless "" /\ harmless "#").

Lemma title_comments t : title_ok t ->
  Forall harmless [""; "#"; "# " +:+ t; "#"]%string /\ Forall harmless ["# end of " +:+ t]%string.
Proof. intros [H1 H2]. destruct no_comment. split; repeat apply Forall_cons_2; by try apply Forall_nil_2. Qed.

(** The blank line that is due. *)
Lemma out_blank k0 l items o k :
  out_ok k0 l items o k ->
  out_ok k0 l (items ++ map Comment (if o.2 then [""] else [])) (o.1 +:+ (if o.2 then newline else ""), false) k.
Proof.
  intros H. destruct (o.2).
  - apply (out_comments k0 l items o k [""]%string false) in H; [exact H|]. apply Forall_cons_2; [apply no_comment|apply Forall_nil_2].
  - cbn [map]. rewrite string_app_nil, app_nil_r. by destruct H.
Qed.

Lemma text_tri k s : tri_text decl s (text_of k s).
Proof.
  intros Hty. unfold text_of, KConfOut.text_of, KExprOps.sym_get_string_value, type_of, env_of. cbn.
  destruct Hty as [-> | ->]; destruct (tri (curr (cells k s))); auto; destruct (bool_decide (m = no)); auto.
Qed.

Lemma runs_entry k0 l items o k i :
  out_ok k0 l items o k -> menu_ok k0 i ->
  runs (entry i o) k (fun o' k' => exists items', out_ok k0 (l ++ [Enter i]) items' o' k').
Proof.
  intros Ho Hi. unfold write_entry, menu_ok in *. destruct (msym (menus i)) as [s|] eqn:Es.
  - rewrite <- (same_user_has SYMBOL_CHOICE k0 k s) in Hi by (done || apply Ho).
    apply runs_bind, runs_look, runs_bind, runs_look.
    destruct (has SYMBOL_CHOICE (flags (cells k s))) eqn:Ec.
    { apply runs_ret. exists items. apply out_event; [done|]. intros j t [= <-] Et. left. congruence. }
    destruct Hi as [|Hs]; [done|]. destruct (has SYMBOL_WRITTEN (flags (cells k s))) eqn:Ew; cbn [orb].
    { apply runs_ret. exists items. apply out_event; [done|]. intros j t [= <-] Et. assert (t = s) as -> by congruence.
      apply (out_mark _ _ _ _ _ Ho s Hs) in Ew. right. split; [|done].
      apply (out_written _ _ _ _ _ _ Ho Ew). }
    eapply runs_step; [apply (runs_calc_value decl all_symbols modules_sym memcmp_value D rank m ok fuel s k);
      [apply Ho|apply Hs|apply enough, Hs]|].
    intros [] k1 (C1 & V1 & K1 & I1). apply (out_onward _ _ _ _ _ k1) in Ho; [|by split].
    assert (has SYMBOL_WRITTEN (flags (cells k1 s)) = false) as Ew1
      by (by rewrite (kept_has SYMBOL_WRITTEN _ _ eq_refl (I1 s))).
    apply runs_bind, runs_look. destruct (has SYMBOL_WRITE (flags (cells k1 s))) eqn:Ewr; cbn [negb].
    2: { apply runs_ret. exists items. apply out_event; [done|]. intros j t [= <-] Et. assert (t = s) as -> by congruence.
      right. split; [done|]. by rewrite Ewr. }
    destruct (proj2 (proj2 Hs)) as [n Hn].
    apply runs_bind, runs_change. fold (marked_as_written s k1).
    pose proof (fun nl => out_setting k0 l _ _ k1 i n s nl (out_blank _ _ _ _ _ Ho) Es Hs Hn V1 Ewr Ew1) as Hset. cbn zeta in Hset.
    set (k2 := marked_as_written s k1) in *. unfold print_symbol_for_dotconfig, print_symbol.
    eapply runs_bind, runs_step.
    { apply (runs_value_text decl all_symbols modules_sym memcmp_value D rank fuel m ok enough s k2); [apply (Hset false)|apply Hs| |apply Hs].
      by rewrite (alike_valid k1 k2 (marked_alike s k1) s). }
    intros v k3 [-> ->]. apply runs_ret, runs_ret. eexists. specialize (Hset false).
    rewrite (symbol_text_line _ _ n) by (done || apply Hs || by apply text_tri).
    cbn [config_text foldr item_line fst] in Hset. rewrite string_app_nil, string_app_assoc in Hset. exact Hset.
  - destruct Hi as (H1 & H2 & H3). eapply runs_step.
    { apply (runs_visible decl all_symbols modules_sym memcmp_value D rank fuel m ok enough); [|apply Ho|done..].
      by apply (fuel_positive decl modules_sym D rank). }
    intros v k1 Hk1. apply (out_onward _ _ _ _ _ k1) in Ho; [|done]. apply runs_ret. exists
      (items ++ map Comment (if v : bool then [""; "#"; "# " +:+ menu_get_prompt decl menus i; "#"]%string else [])).
    apply out_event; [|intros j t [= <-]; congruence].
    destruct v; [|cbn [map]; rewrite app_nil_r; done]. apply title_comments in H3 as [H3 _].
    exact (out_comments _ _ _ _ _ _ false Ho H3).
Qed.

Lemma runs_leave k0 l items o k i :
  out_ok k0 l items o k -> menu_ok k0 i ->
  runs (leave i o) k (fun o' k' => exists items', out_ok k0 (l ++ [Leave i]) items' o' k').
Proof.
  intros Ho Hi. unfold write_end, menu_ok in *. destruct (msym (menus i)) as [s|] eqn:Es.
  { apply runs_ret. exists items. by apply out_event. }
  destruct Hi as (H1 & H2 & H3). eapply runs_step.
  { apply (runs_visible decl all_symbols modules_sym memcmp_value D rank fuel m ok enough); [|apply Ho|done..].
    by apply (fuel_positive decl modules_sym D rank). }
  intros v k1 Hk1. apply (out_onward _ _ _ _ _ k1) in Ho; [|done]. destruct (_ && _).
  - apply runs_ret. eexists. apply out_event; [|done]. apply title_comments in H3 as [_ H3].
    pose proof (out_comments _ _ _ _ _ _ true Ho H3) as H. cbn [map KConfRead.config_text foldr item_line] in H.
    rewrite string_app_nil, string_app_assoc in H. exact H.
  - apply runs_ret. exists items. by apply out_event.
Qed.

(** All the menus. *)
Lemma runs_visit k0 es l items o k :
  out_ok k0 l items o k -> (forall i, Enter i ∈ es \/ Leave i ∈ es -> menu_ok k0 i) ->
  runs (visit menus decl all_symbols modules_sym memcmp_value fuel CONFIG_ rootmenu es o) k (fun o' k' =>
    exists items', out_ok k0 (l ++ es) items' o' k').
Proof.
  revert l items o k. induction es as [|e es IH]; intros l items o k Ho Hm; cbn [visit].
  { apply runs_ret. exists items. by rewrite app_nil_r. }
  assert (runs (do_event menus decl all_symbols modules_sym memcmp_value fuel CONFIG_ rootmenu e o) k (fun o' k' =>
    exists items', out_ok k0 (l ++ [e]) items' o' k')) as He.
  { destruct e as [i|i]; [apply (runs_entry k0 l items); [done|]|apply (runs_leave k0 l items); [done|]];
      apply Hm; [left|right]; by left. }
  eapply runs_step; [exact He|]. intros o1 k1 [items1 Ho1].
  rewrite (cons_middle e l es), List.app_assoc. apply (IH _ items1); [done|].
  intros i [Hi|Hi]; apply Hm; [left|right]; by right.
Qed.
End Visit.
