(* ===== verification/KConfFile.v ===== *)
(** * The whole text and the file of a configuration

    [dotconfig], the part of [conf_write] that prints, for menus that form a forest: the
    text is a list of comments and settings, with one setting for each symbol of a menu
    that has to be written, and its value. Then how [conf_write] replaces the file:
    through a temporary file, with the old one kept under another name. *)

From Stdlib Require Import ZArith Lia String Ascii.
From stdpp Require Import base list strings numbers option pretty.
From S2P Require Import Prelude CString KExpr KExprOps KSym KSymSpec KSymFacts KSymCalc KSymOrder KSymSet KTable KConf KConfWrite KConfFacts KConfRead KConfOut KConfVisit.

Lemma runs_unmark l k :
  runs (each l (clear_flag SYMBOL_WRITTEN)) k (fun _ k' => modules_val k' = modules_val k /\
    (forall t, alike (cells k t) (cells k' t)) /\
    forall t, has SYMBOL_WRITTEN (flags (cells k' t)) = true -> has SYMBOL_WRITTEN (flags (cells k t)) = true /\ t ∉ l).
Proof.
  revert k. induction l as [|s l IH]; intros k; cbn [each].
  { split; [done|]. split; [done|]. intros t Ht. split; [done|]. apply not_elem_of_nil. }
  apply runs_bind, runs_change. set (k1 := changed s _ k).
  assert (forall t, alike (cells k t) (cells k1 t)) as A1.
  { intros t. unfold k1. destruct (decide (t = s)) as [->|Hne]; [rewrite cells_changed; apply alike_mark|by rewrite cells_changed_ne]. }
  eapply runs_mono; [apply IH|]. intros [] k2 (M2 & A2 & W2). split; [done|]. split.
  - intros t. by apply (alike_trans _ (cells k1 t)).
  - intros t Ht. destruct (W2 t Ht) as [Hw Hn]. unfold k1 in Hw. destruct (decide (t = s)) as [->|Hne].
    + rewrite cells_changed in Hw. cbn in Hw. by rewrite flag_dropped in Hw.
    + rewrite cells_changed_ne in Hw by done. split; [done|]. by intros [?|?]%elem_of_cons.
Qed.

Section Text.
Context (decl : symbol -> declaration) (all_symbols : list symbol) (modules_sym : symbol)
  (memcmp_value : symbol_value -> symbol_value -> bool) (D : symbol -> Prop) (rank : symbol -> nat) (fuel : nat).
Context (ok : ordered decl modules_sym D rank) (listed : forall t, D t -> t ∈ all_symbols)
  (variable : forall t, t ∈ all_symbols -> constant t = false)
  (memcmp_equal : forall a b, memcmp_value a b = true -> tri a = tri b)
  (enough : forall t, D t -> (S (rank t) < fuel)%nat).
Context (CONFIG_ : string) (menus : nat -> menu) (rootmenu : nat) (f : forest).

#[local] Abbreviation consistent := (consistent decl modules_sym D rank).
#[local] Abbreviation config_text := (config_text decl CONFIG_).
#[local] Abbreviation harmless := (harmless CONFIG_).
#[local] Abbreviation printable := (printable decl D).

(** The menus of a configuration, from a state on. *)
Record menus_ok (k : kworld) : Prop := {
  menus_linked : linked menus (Some rootmenu) f;
  menus_top : mlist (menus rootmenu) = top f;
  menus_root : msym (menus rootmenu) = None /\ mparent (menus rootmenu) = None /\ mnext (menus rootmenu) = None;
  menus_each : forall i, i ∈ rootmenu :: nodes f -> menu_ok decl D CONFIG_ menus k i;
  menus_heading : Forall harmless (""%string :: "#"%string :: "# Automatically generated file; DO NOT EDIT."%string ::
    match mprompt (menus rootmenu) with Some (_, p) => ["# " +:+ default "(null)" (ptext p)] | None => [] end)%string;
  menus_prompt : mprompt (menus rootmenu) <> None
}.

(** The symbols of the menus. *)
Definition in_menus (s : symbol) : Prop := exists i, i ∈ nodes f /\ msym (menus i) = Some s.

(** What is written: the text [items], from [k] to [k']. *)
Record written (m : tristate) (k : kworld) (items : list item) (k' : kworld) : Prop := {
  written_consistent : consistent m k';
  written_user : same_user k k';
  written_shape : Forall (shape decl D m CONFIG_ k') items;
  written_once : NoDup (settings items);
  written_symbols : forall s, s ∈ settings items <->
    in_menus s /\ has SYMBOL_CHOICE (flags (cells k' s)) = false /\ has SYMBOL_WRITE (flags (cells k' s)) = true;
  written_values : forall s, in_menus s -> has SYMBOL_CHOICE (flags (cells k' s)) = false -> valid k' s = true;
  written_unmarked : forall s, D s -> has SYMBOL_WRITTEN (flags (cells k' s)) = false
}.

(** ** The heading *)

Definition heading : list string :=
  let title := match mprompt (menus rootmenu) with Some (_, p) => default "(null)" (ptext p) | None => "" end in
  ["#"; "# Automatically generated file; DO NOT EDIT."; "# " +:+ title; "#"]%string.

Lemma heading_text :
  mprompt (menus rootmenu) <> None ->
  conf_write_heading menus rootmenu (Some comment_style_pound) = Some (config_text (map Comment heading)).
Proof. unfold conf_write_heading, heading. by destruct (mprompt (menus rootmenu)) as [[j p]|]. Qed.

Lemma out_start m k :
  consistent m k -> menus_ok k -> (forall s, D s -> has SYMBOL_WRITTEN (flags (cells k s)) = false) ->
  out_ok decl modules_sym D rank m CONFIG_ menus k [] (map Comment heading)
    (config_text (map Comment heading), false) k.
Proof.
  intros Hk Hm Hu. assert (Forall harmless heading) as Hh.
  { pose proof (menus_heading _ Hm) as H. unfold heading. apply Forall_cons_1 in H as [_ H].
    apply Forall_cons_1 in H as [H1 H]. apply Forall_cons_1 in H as [H2 H].
    apply Forall_cons_2; [done|]. apply Forall_cons_2; [done|]. apply Forall_cons_2; [|by apply Forall_singleton].
    pose proof (menus_prompt _ Hm) as Hp.
    destruct (mprompt (menus rootmenu)) as [[j p]|]; [|done]. exact (proj1 (Forall_singleton _ _) H). }
  assert (forall l : list string, settings (map Comment l) = []) as Hno by (intros l; induction l; done).
  split; rewrite ?Hno.
  - done.
  - by intros t.
  - done.
  - by apply List.Forall_map.
  - constructor.
  - intros s Hs. rewrite (Hu s) by apply Hs. split; [done|by intros ?%not_elem_of_nil].
  - by intros i s ?%not_elem_of_nil.
  - by intros s ?%not_elem_of_nil.
Qed.

Lemma runs_print m n k :
  consistent m k -> menus_ok k -> (forall s, D s -> has SYMBOL_WRITTEN (flags (cells k s)) = false) ->
  (2 * length (nodes f) < n)%nat ->
  runs (write_menus decl all_symbols modules_sym memcmp_value fuel CONFIG_ menus rootmenu n false (mlist (menus rootmenu))
    (config_text (map Comment heading), false)) k (fun o k' =>
    exists l items, out_ok decl modules_sym D rank m CONFIG_ menus k l items o k' /\
      forall i, Enter i ∈ l <-> i ∈ nodes f).
Proof.
  intros Hk Hm Hu Hn. pose proof (out_start m k Hk Hm Hu) as Ho. rewrite (menus_top _ Hm).
  destruct (menus_root _ Hm) as (Hr1 & Hr2 & Hr3).
  assert (harmless "" /\ harmless "#") as Hnc.
  { pose proof (menus_heading _ Hm) as H. apply Forall_cons_1 in H as [H1 H]. by apply Forall_cons_1 in H as [H2 H]. }
  destruct (decide (f = Leaf)) as [E|Hne].
  { rewrite E. destruct n; (exists [], (map Comment heading); split; [exact Ho|]; intros i; split; by intros ?%not_elem_of_nil). }
  replace n with (length (preorder f) + S (n - S (length (preorder f))))%nat by (rewrite preorder_length; lia).
  unfold runs. rewrite walk_all by (done || apply Hm). change (runs (o ← visit menus decl all_symbols modules_sym
    memcmp_value fuel CONFIG_ rootmenu (preorder f) (config_text (map Comment heading), false);
    write_end decl all_symbols modules_sym memcmp_value fuel menus rootmenu rootmenu o) k (fun o k' =>
    exists l items, out_ok decl modules_sym D rank m CONFIG_ menus k l items o k' /\
      forall i, Enter i ∈ l <-> i ∈ nodes f)).
  eapply runs_step; [eapply runs_visit; [done..|exact Ho|]|].
  { intros i [Hi|Hi]; apply (menus_each _ Hm); right; [by apply enter_in|by apply leave_in]. }
  intros o k1 [items1 Ho1]. eapply runs_mono; [eapply runs_leave; [done..|exact Ho1|apply (menus_each _ Hm); by left]|].
  intros o2 k2 [items2 Ho2]. exists (preorder f ++ [Leave rootmenu]), items2. split; [exact Ho2|]. intros i. rewrite <- enter_in. cbn [app].
  rewrite elem_of_app. split; [intros [H|H%list_elem_of_singleton]; done|by left].
Qed.

(** ** The end *)

Lemma printed_unmarked m k0 l items o k1 k2 :
  out_ok decl modules_sym D rank m CONFIG_ menus k0 l items o k1 -> (forall i, Enter i ∈ l <-> i ∈ nodes f) ->
  modules_val k2 = modules_val k1 -> (forall t, alike (cells k1 t) (cells k2 t)) ->
  (forall t, has SYMBOL_WRITTEN (flags (cells k2 t)) = true -> t ∉ all_symbols) ->
  written m k0 items k2.
Proof.
  intros Ho Hl M A W.
  assert (forall s, has SYMBOL_CHOICE (flags (cells k2 s)) = has SYMBOL_CHOICE (flags (cells k1 s)) /\
    has SYMBOL_WRITE (flags (cells k2 s)) = has SYMBOL_WRITE (flags (cells k1 s)) /\ valid k2 s = valid k1 s) as Hf.
  { intros s. split; [by apply alike_has|]. split; [by apply alike_has|]. by apply alike_valid. }
  assert (forall s, in_menus s -> has SYMBOL_CHOICE (flags (cells k1 s)) = true \/
    valid k1 s = true /\ (has SYMBOL_WRITE (flags (cells k1 s)) = true -> s ∈ settings items)) as Hall.
  { intros s (i & Hi & Es). apply (out_all _ _ _ _ _ _ _ _ _ _ _ _ Ho i s); [by apply Hl|done]. }
  split.
  - apply (alike_consistent decl modules_sym D rank m k1 k2 M A), Ho.
  - apply (same_user_trans _ k1); [apply Ho|by apply alike_user].
  - eapply List.Forall_impl; [|apply Ho]. intros it. by apply shape_alike.
  - apply Ho.
  - intros s. destruct (Hf s) as (-> & -> & _). split.
    + intros Hs. destruct (out_only _ _ _ _ _ _ _ _ _ _ _ _ Ho s Hs) as (i & Hi & Es).
      destruct (out_written _ _ _ _ _ _ _ _ _ _ _ _ _ Ho Hs) as [Hv Hw].
      split; [exists i; by rewrite <- Hl|]. split; [|done]. apply setting_in in Hs as (n & text & Hin).
      pose proof (out_shape _ _ _ _ _ _ _ _ _ _ _ _ Ho) as Hsh. rewrite Forall_forall in Hsh.
      destruct (Hsh _ Hin) as ((Hd & _) & _).
      apply (plain_choice decl), (good_plain _ _ _ _ (consistent_good _ _ _ _ _ _ (out_consistent _ _ _ _ _ _ _ _ _ _ _ _ Ho)) s Hd).
    + intros (Hi & Hc & Hw). destruct (Hall s Hi) as [Hc'|[_ H]]; [by rewrite Hc in Hc'|by apply H].
  - intros s Hi. destruct (Hf s) as (-> & _ & ->). intros Hc. destruct (Hall s Hi) as [Hc'|[H _]]; [by rewrite Hc in Hc'|done].
  - intros s Hs. destruct (has SYMBOL_WRITTEN _) eqn:E; [|done]. by destruct (W s E); apply listed.
Qed.

Lemma runs_dotconfig m n k :
  consistent m k -> menus_ok k -> (forall s, D s -> has SYMBOL_WRITTEN (flags (cells k s)) = false) ->
  (2 * length (nodes f) < n)%nat ->
  runs (dotconfig decl all_symbols modules_sym memcmp_value fuel CONFIG_ menus rootmenu n) k (fun text k' =>
    exists items, text = config_text items /\ written m k items k').
Proof.
  intros Hk Hm Hu Hn. unfold dotconfig. rewrite (heading_text (menus_prompt _ Hm)).
  apply runs_bind, runs_defined, runs_bind, runs_get. eapply runs_step with (Q := fun _ k1 =>
    consistent m k1 /\ (forall t, kept (cells k t) (cells k1 t))).
  { apply runs_when; intros _; [|split; [done|intros t; apply kept_refl]].
    eapply runs_mono.
    - apply (runs_clear decl all_symbols modules_sym memcmp_value D rank fuel ok listed variable memcmp_equal enough k).
      + by apply (consistent_val decl modules_sym D rank m).
      + destruct (consistent_modules _ _ _ _ _ _ Hk) as [_ E].
        rewrite (good_modules _ _ _ _ (consistent_good _ _ _ _ _ _ Hk)). done.
    - intros [] k1 (C1 & (I1 & K1) & _). split; [|apply I1].
      by rewrite <- (modules_kept decl modules_sym D rank ok m (modules_val k1) k k1 Hk C1 (I1 modules_sym) K1). }
  intros [] k1 [C1 K1]. eapply runs_step; [apply (runs_print m); [done| | |done]|].
  { destruct Hm as [M1 M2 M3 M4 M5 M6]. split; [done..| |done|done]. intros i Hi. specialize (M4 i Hi). unfold menu_ok in *.
    destruct (msym (menus i)) as [s|]; [|done]. by rewrite (kept_has SYMBOL_CHOICE _ _ eq_refl (K1 s)). }
  { intros s Hs. rewrite (kept_has SYMBOL_WRITTEN _ _ eq_refl (K1 s)). by apply Hu. }
  intros o k2 (l & items & Ho & Hl). eapply runs_step; [apply runs_unmark|]. intros [] k3 (M3 & A3 & W3).
  apply runs_ret. exists items. split; [apply (out_text _ _ _ _ _ _ _ _ _ _ _ _ Ho)|].
  apply (printed_unmarked m k l items o k2); try done.
  - destruct Ho as [O1 O2 O3 O4 O5 O6 O7 O8]. split; try done. apply (same_user_trans _ k1); [by apply kept_user|done].
  - intros t Ht. by apply W3.
Qed.
End Text.

(** ** Names of files *)

Lemma length_app_string a b : String.length (a +:+ b) = (String.length a + String.length b)%nat.
Proof. induction a as [|c a IH]; [done|]. rewrite cons_app. cbn [String.length]. by rewrite IH. Qed.

Lemma path_max_short s : (String.length s <= 4096)%nat -> path_max s = s.
Proof.
  unfold path_max. generalize 4096%nat as n. induction s as [|c s IH]; intros n Hn; [by destruct n|].
  destruct n as [|n]; cbn in Hn; [lia|]. cbn. f_equal. apply IH. lia.
Qed.

Lemma app_inj a b c : a +:+ b = a +:+ c -> b = c.
Proof. induction a as [|x a IH]; [done|]. rewrite !cons_app. intros [= H]. by apply IH. Qed.

Definition tmpname (name : string) (pid : Z) : string := name +:+ "." +:+ pretty pid +:+ ".tmp".
Definition oldname (name : string) : string := name +:+ ".old".

Lemma names_differ name pid :
  tmpname name pid <> name /\ oldname name <> name /\ tmpname name pid <> oldname name.
Proof.
  assert (forall b, name +:+ b = name -> b = ""%string) as Hnil.
  { intros b E. apply (app_inj name). by rewrite E, string_app_nil. }
  split; [by intros E%Hnil|]. split; [by intros E%Hnil|].
  intros E%app_inj. apply (f_equal String.length) in E. rewrite !length_app_string in E. cbn in E. lia.
Qed.

Lemma put_files name t w n :
  files (set_files (update name (fun _ => t) (files w)) w) n = if decide (n = name) then t else files w n.
Proof. done. Qed.

Section File.
Context (decl : symbol -> declaration) (all_symbols : list symbol) (modules_sym : symbol)
  (memcmp_value : symbol_value -> symbol_value -> bool) (D : symbol -> Prop) (rank : symbol -> nat) (fuel : nat).
Context (ok : ordered decl modules_sym D rank) (listed : forall t, D t -> t ∈ all_symbols)
  (variable : forall t, t ∈ all_symbols -> constant t = false)
  (memcmp_equal : forall a b, memcmp_value a b = true -> tri a = tri b)
  (enough : forall t, D t -> (S (rank t) < fuel)%nat).
Context (CONFIG_ : string) (menus : nat -> menu) (rootmenu : nat) (f : forest).
Context (overwrite : bool) (configname : string) (pid : Z) (unwritable mkdir_fails : string -> bool)
  (rename_fails : string -> string -> bool).

#[local] Abbreviation written := (written decl modules_sym D rank CONFIG_ menus f).

(** The text and the marks do not depend on whether a configuration counts as changed. *)
Lemma written_cells m k items k1 k2 :
  cells k2 = cells k1 -> modules_val k2 = modules_val k1 -> written m k items k1 -> written m k items k2.
Proof.
  intros Ec Em [W1 W2 W3 W4 W5 W6 W7].
  assert (forall t, alike (cells k1 t) (cells k2 t)) as Ha by (intros t; by rewrite Ec).
  split; rewrite ?Ec; try done.
  - by apply (alike_consistent decl modules_sym D rank m k1).
  - intros t. rewrite Ec. apply W2.
  - eapply List.Forall_impl; [|exact W3]. intros it. by apply shape_alike.
  - intros s Hs Hc. unfold valid. rewrite Ec. by apply W6.
Qed.

Lemma runs_make_dirs l w :
  runs (make_dirs mkdir_fails l) w (fun _ w' => kw w' = kw w /\ files w' = files w).
Proof.
  revert w. induction l as [|d l IH]; intros w; cbn [make_dirs]; [done|].
  apply runs_bind, runs_get. destruct (dirs w d); [apply IH|]. destruct (mkdir_fails d); [done|].
  apply runs_bind, runs_modify. eapply runs_mono; [apply IH|]. done.
Qed.

(** What [conf_write] leaves of the file [name]. *)
Definition file_left (m : tristate) (name : string) (w : conf_world) (r : Z) (w' : conf_world) : Prop :=
  (forall n, n <> name -> n <> tmpname name pid -> n <> oldname name -> files w' n = files w n) /\
  ((r = 0 /\ exists items, files w' name = Some (config_text decl CONFIG_ items) /\ written m (kw w) items (kw w') /\
      conf_changed (kw w') = false) \/
   (r = 1 \/ r = -1) /\
     (files w' name = files w name \/ files w' name = None /\ files w' (oldname name) = files w name)).

(** The temporary file takes its place. *)
Lemma runs_replace name t w :
  files w (tmpname name pid) = Some t ->
  runs (rename rename_fails name (oldname name);; rename rename_fails (tmpname name pid) name) w (fun b w' =>
    kw w' = kw w /\
    (forall n, n <> name -> n <> tmpname name pid -> n <> oldname name -> files w' n = files w n) /\
    if b : bool then files w' name = Some t
    else files w' name = files w name \/ files w' name = None /\ files w' (oldname name) = files w name).
Proof.
  intros Ht. destruct (names_differ name pid) as (N1 & N2 & N3).
  assert (forall w1, files w1 (tmpname name pid) = Some t ->
    runs (rename rename_fails (tmpname name pid) name) w1 (fun b w' => kw w' = kw w1 /\
      (forall n, n <> name -> n <> tmpname name pid -> files w' n = files w1 n) /\
      if b : bool then files w' name = Some t else files w' = files w1)) as Hlast.
  { intros w1 H1. apply runs_bind, runs_get. rewrite H1, bool_decide_eq_false_2 by done.
    destruct (rename_fails _ _); [done|]. apply runs_bind, runs_modify, runs_bind, runs_modify, runs_ret.
    split; [done|]. split.
    - intros n Hn1 Hn2. by rewrite put_files, decide_False, put_files, decide_False by done.
    - by rewrite put_files, decide_False, put_files, decide_True by done. }
  apply runs_bind. unfold rename at 1. apply runs_bind, runs_get.
  destruct (files w name) as [old|] eqn:Eo.
  2: { apply runs_ret. eapply runs_mono; [by apply Hlast|]. intros b w' (K & O & H). split; [done|]. split; [auto|].
       destruct b; [done|left; by rewrite H]. }
  rewrite bool_decide_eq_false_2 by done. destruct (rename_fails name _).
  { apply runs_ret. eapply runs_mono; [by apply Hlast|]. intros b w' (K & O & H). split; [done|]. split; [auto|].
    destruct b; [done|left; by rewrite H]. }
  apply runs_bind, runs_modify, runs_bind, runs_modify, runs_ret. eapply runs_mono; [apply Hlast|].
  { by rewrite put_files, decide_False, put_files, decide_False by done. }
  intros b w' (K & O & H). split; [done|]. split.
  - intros n H1 H2 H3. rewrite O by done. by rewrite put_files, decide_False, put_files, decide_False by done.
  - destruct b; [done|right]. rewrite H. by rewrite !put_files, decide_True, decide_False, decide_True by done.
Qed.

(** Writing is over: the file holds the text. *)
Lemma left_written m name w items text w' k1 :
  (forall n, n <> name -> n <> tmpname name pid -> n <> oldname name -> files w' n = files w n) ->
  files w' name = Some text -> text = config_text decl CONFIG_ items -> written m (kw w) items k1 ->
  cells (kw w') = cells k1 -> modules_val (kw w') = modules_val k1 -> conf_changed (kw w') = false ->
  file_left m name w 0 w'.
Proof.
  intros Ho Hf -> Hw Ec Em Hc. split; [done|]. left. split; [done|]. exists items. split; [done|]. split; [|done].
  by apply (written_cells m _ items k1).
Qed.

Lemma is_same_text g a b t : is_same g a b = true -> g b = Some t -> g a = Some t.
Proof.
  unfold is_same. intros H E. rewrite E in H. destruct (g a); [|done]. apply andb_prop in H as [_ H].
  apply bool_decide_eq_true in H. by rewrite H.
Qed.

Lemma runs_conf_write m steps arg w :
  let name := default configname arg in
  (String.length name + String.length (pretty pid) + 5 <= 4096)%nat ->
  consistent decl modules_sym D rank m (kw w) -> menus_ok decl D CONFIG_ menus rootmenu f (kw w) ->
  (forall s, D s -> has SYMBOL_WRITTEN (flags (cells (kw w) s)) = false) -> (2 * length (nodes f) < steps)%nat ->
  runs (conf_write decl all_symbols modules_sym memcmp_value fuel CONFIG_ menus rootmenu overwrite configname pid
    unwritable mkdir_fails rename_fails steps arg) w (file_left m name w).
Proof.
  intros name Hlen Hk Hm Hu Hn. destruct (names_differ name pid) as (N1 & N2 & N3).
  assert (forall r w', r = 1 \/ r = -1 -> files w' = files w -> file_left m name w r w') as Hfail.
  { intros r w' Hr E. split; [by intros; rewrite E|]. right. split; [done|left]. by rewrite E. }
  apply runs_bind, runs_get. fold name. destruct (bool_decide _).
  { apply runs_bind, runs_modify, runs_ret, Hfail; [by right|done]. }
  destruct (dirs w name). { apply runs_bind, runs_modify, runs_ret, Hfail; [by right|done]. }
  eapply runs_step; [apply runs_make_dirs|]. intros made w1 [K1 F1]. destruct made; cbn [negb]; [|by apply runs_ret, Hfail; [right|]].
  assert (path_max (name +:+ "." +:+ pretty pid +:+ ".tmp") = tmpname name pid) as ->.
  { apply path_max_short. unfold tmpname, oldname. rewrite !length_app_string. cbn. lia. }
  assert (path_max (name +:+ ".old") = oldname name) as ->.
  { apply path_max_short. unfold tmpname, oldname. rewrite !length_app_string. cbn. lia. }
  destruct (unwritable _); [by apply runs_ret, Hfail; auto|]. apply runs_bind, runs_on. rewrite K1.
  eapply runs_mono.
  { by apply (runs_dotconfig decl all_symbols modules_sym memcmp_value D rank fuel ok listed variable memcmp_equal enough
      CONFIG_ menus rootmenu f m). }
  intros text k1 (items & Etext & Hw). apply runs_bind, runs_modify, runs_bind, runs_get.
  destruct overwrite; cbn [negb andb].
  { apply runs_bind, runs_ret. apply runs_bind, runs_modify, runs_bind, runs_on, runs_modify, runs_ret.
    apply (left_written m name w items text _ k1); try done; cbn [files set_kw add_text set_files].
    - intros n H1 _ _. unfold update. rewrite decide_False by done. by rewrite F1.
    - unfold update. by rewrite decide_True. }
  destruct (is_same _ _ _) eqn:Es.
  { eapply is_same_text in Es; [|unfold set_files, files, update; by rewrite decide_True].
    apply runs_bind, runs_modify, runs_bind, runs_modify, runs_bind, runs_on, runs_modify, runs_ret.
    apply (left_written m name w items text _ k1); try done; cbn [files set_kw add_text set_files] in *;
      unfold update in *.
    - intros n H1 H2 _. rewrite !decide_False by done. by rewrite F1.
    - rewrite decide_False in Es by done. by rewrite !decide_False by done. }
  eapply runs_bind, runs_mono.
  { apply (runs_replace name text). cbn [files set_kw set_files]. unfold update. by rewrite decide_True. }
  cbn [files set_kw set_files kw]. unfold update. intros b w2 (K2 & O2 & R2).
  assert (forall n, n <> name -> n <> tmpname name pid -> n <> oldname name -> files w2 n = files w n) as O3.
  { intros n H1 H2 H3. rewrite O2, decide_False by done. by rewrite F1. }
  destruct b; cbn [negb].
  - apply runs_bind, runs_modify, runs_bind, runs_on, runs_modify, runs_ret.
    apply (left_written m name w items text _ k1); try done; cbn [kw set_kw add_text cells modules_val]; by rewrite K2.
  - apply runs_ret. split; [done|]. right. split; [auto|]. rewrite decide_False, F1 in R2 by done. done.
Qed.
End File.
