(* ===== verification/KConfProofs.v ===== *)
(** * Theorems about configuration files

    Writing a configuration and reading it again; the example is the configuration of
    [KSymProofs] with a menu around one of its symbols. *)

From Stdlib Require Import ZArith Lia String Ascii.
From stdpp Require Import base list strings numbers option pretty.
From S2P Require Import Prelude CString KExpr KExprOps KSym KSymSpec KSymFacts KSymCalc KSymOrder KSymSet KSymProofs KTable KConf KConfWrite KConfFacts KConfRead KConfOut KConfVisit KConfFile.

(** ** What is saved *)

(** The value a file gives back to the user. *)
Definition saved_value (d : declaration) (c : cell) : symbol_value :=
  match stype d with
  | S_BOOLEAN | S_TRISTATE => SymbolValue NULL (tri (curr c))
  | _ => SymbolValue (val (curr c)) no
  end.

Lemma no_mod_type m t v : no_mod m t v = mod_ -> type_now m t <> S_BOOLEAN.
Proof. unfold no_mod. destruct v; try done. by destruct (bool_decide (type_now m t = S_BOOLEAN)) eqn:E; [|apply bool_decide_eq_false in E]. Qed.

Section Saved.
Context (decl : symbol -> declaration) (modules_sym : symbol) (D : symbol -> Prop) (rank : symbol -> nat) (m : tristate).
Context (k : kworld) (Hk : consistent decl modules_sym D rank m k).

Lemma settled_value s : D s -> valid k s = true -> curr (cells k s) = spec_value (env_of decl k) m (decl s) (cells k s).
Proof.
  intros Hs Hv. apply (settled_solves decl D rank), (consistent_settled _ _ _ _ _ _ Hk s Hs Hv).
Qed.

(** A boolean is never [m], and a tristate only with modules. *)
Lemma value_mod s :
  D s -> valid k s = true -> stype (decl s) = S_BOOLEAN \/ stype (decl s) = S_TRISTATE -> tri (curr (cells k s)) = mod_ ->
  stype (decl s) = S_TRISTATE /\ m <> no.
Proof.
  intros Hs Hv Hty. rewrite settled_value by done. unfold spec_value, spec_tri.
  destruct Hty as [Ht | Ht]; rewrite Ht; cbn [tri]; intros E; apply no_mod_type in E; unfold type_now in E; [done|].
  split; [done|]. by intros ->.
Qed.

(** Booleans and tristates can be read back, and give the same value. *)
Lemma text_readable s :
  D s -> valid k s = true -> stype (decl s) = S_BOOLEAN \/ stype (decl s) = S_TRISTATE ->
  readable decl s (text_of decl m k s) /\ tri_of (text_of decl m k s) = tri (curr (cells k s)).
Proof.
  intros Hs Hv Hty. pose proof (value_mod s Hs Hv Hty) as Hm.
  unfold readable, text_of, KExprOps.sym_get_string_value, type_of, env_of. cbn.
  destruct (tri (curr (cells k s))) eqn:Et.
  - destruct Hty as [-> | ->]; split; auto.
  - destruct (Hm eq_refl) as [Htt Hn]. rewrite Htt, bool_decide_eq_false_2 by done. split; auto.
  - destruct Hty as [-> | ->]; split; auto.
Qed.

Lemma text_value s :
  D s -> valid k s = true -> is_number (stype (decl s)) = true \/ stype (decl s) = S_STRING ->
  val (curr (cells k s)) = P_string (text_of decl m k s).
Proof.
  intros Hs Hv Hty. unfold text_of, KExprOps.sym_get_string_value, type_of, env_of. cbn.
  rewrite settled_value by done. unfold spec_value. by destruct Hty as [Hty | Hty], (stype (decl s)).
Qed.

Lemma stored_saved s :
  D s -> valid k s = true -> stype (decl s) <> S_UNKNOWN ->
  stored decl s (text_of decl m k s) (SymbolValue NULL no) = saved_value (decl s) (cells k s).
Proof.
  intros Hs Hv Hty. pose proof (text_readable s Hs Hv) as H1. pose proof (text_value s Hs Hv) as H2.
  unfold stored, saved_value. destruct (stype (decl s)); [done|..]; cbn [val tri].
  - by rewrite (proj2 (H1 (or_introl eq_refl))).
  - by rewrite (proj2 (H1 (or_intror eq_refl))).
  - by rewrite H2 by by left.
  - by rewrite H2 by by left.
  - by rewrite H2 by by right.
Qed.
End Saved.

(** The symbols that [k] has written. *)
Definition to_write (menus : nat -> menu) (f : forest) (k : kworld) (s : symbol) : Prop :=
  in_menus menus f s /\ has SYMBOL_CHOICE (flags (cells k s)) = false /\ has SYMBOL_WRITE (flags (cells k s)) = true.

(** They have names that can be written, and that lead to them. *)
Definition names_ok (decl : symbol -> declaration) (buckets : Z -> list symbol) (char_value : ascii -> Z)
    (CONFIG_ : string) (D : symbol -> Prop) (w : conf_world) : Prop :=
  forall s n, D s -> stype (decl s) <> S_UNKNOWN -> sname (decl s) = Some n ->
    writable decl CONFIG_ n s /\ findable decl buckets char_value n s w /\
    has SYMBOL_CHOICEVAL (flags (cells (kw w) s)) = false.

(** Numbers are valid, and strings are on one line. *)
Definition values_ok (decl : symbol -> declaration) (D : symbol -> Prop) (k : kworld) : Prop :=
  forall s, D s -> valid k s = true -> is_number (stype (decl s)) = true \/ stype (decl s) = S_STRING ->
    readable decl s (pointer_text (val (curr (cells k s)))).

(** What the user has set when the file was read. *)
Definition restored (decl : symbol -> declaration) (all_symbols : list symbol) (menus : nat -> menu) (f : forest)
    (k' k2 k3 : kworld) : Prop :=
  forall s, s ∈ all_symbols -> has SYMBOL_CHOICE (flags (cells k2 s)) = false ->
    (to_write menus f k' s -> has SYMBOL_DEF_USER (flags (cells k3 s)) = true /\
       def_user (cells k3 s) = saved_value (decl s) (cells k' s)) /\
    (~ to_write menus f k' s -> has SYMBOL_DEF_USER (flags (cells k3 s)) = false /\
       def_user (cells k3 s) = SymbolValue NULL no).

Lemma items_ok decl buckets char_value CONFIG_ modules_sym D rank m menus f k items k' w2 :
  written decl modules_sym D rank CONFIG_ menus f m k items k' ->
  names_ok decl buckets char_value CONFIG_ D w2 -> values_ok decl D k' ->
  Forall (item_ok decl buckets char_value CONFIG_ w2) items.
Proof.
  intros W Hn Hv. apply Forall_forall. intros [c|n s text] Hin;
    pose proof (written_shape _ _ _ _ _ _ _ _ _ _ _ W) as Hsh; rewrite Forall_forall in Hsh; specialize (Hsh _ Hin); [done|].
  destruct Hsh as ((Hd & Hty & _) & Hname & Hvs & _ & ->). destruct (Hn s n Hd Hty Hname) as (N1 & N2 & N3).
  split; [done|]. split; [|done]. pose proof (written_consistent _ _ _ _ _ _ _ _ _ _ _ W) as Hk.
  pose proof (text_value decl modules_sym D rank m k' Hk s Hd Hvs) as Ht. specialize (Hv s Hd Hvs).
  assert (is_number (stype (decl s)) = true \/ stype (decl s) = S_STRING ->
    readable decl s (text_of decl m k' s)) as H by (intros Hc; specialize (Hv Hc); by rewrite (Ht Hc) in Hv).
  destruct (stype (decl s)) eqn:Et; [done|..].
  - by apply (text_readable decl modules_sym D rank m k' Hk s Hd Hvs); left.
  - by apply (text_readable decl modules_sym D rank m k' Hk s Hd Hvs); right.
  - apply H. by left.
  - apply H. by left.
  - apply H. by right.
Qed.

Lemma runs_read_back decl buckets all_symbols char_value CONFIG_ warn_unknown werror configname defconfig_list srctree
    modules_sym D rank m menus f k items k' w2 arg :
  (forall t, D t -> t ∈ all_symbols) ->
  written decl modules_sym D rank CONFIG_ menus f m k items k' ->
  files w2 (default configname arg) = Some (config_text decl CONFIG_ items) ->
  names_ok decl buckets char_value CONFIG_ D w2 -> values_ok decl D k' ->
  runs (conf_read_simple decl buckets all_symbols char_value CONFIG_ warn_unknown werror configname defconfig_list
    srctree arg) w2 (fun bad w3 => bad = false /\ conf_warnings w3 = 0 /\ file_read decl all_symbols items (kw w2) (kw w3) /\
      restored decl all_symbols menus f k' (kw w2) (kw w3)).
Proof.
  intros Hin W Hf Hn Hv. pose proof (written_consistent _ _ _ _ _ _ _ _ _ _ _ W) as Hk.
  assert (forall s n text, Setting n s text ∈ items -> shape decl D m CONFIG_ k' (Setting n s text)) as Hsh.
  { intros s n text Hs. pose proof (written_shape _ _ _ _ _ _ _ _ _ _ _ W) as H. rewrite Forall_forall in H. by apply H. }
  eapply runs_mono; [apply (runs_read_simple decl buckets all_symbols char_value CONFIG_ warn_unknown werror configname
    defconfig_list srctree arg items w2 Hf)|].
  - by apply (items_ok decl buckets char_value CONFIG_ modules_sym D rank m menus f k items k').
  - apply W.
  - intros t (n & text & Ht)%setting_in. apply Hin, (Hsh _ _ _ Ht).
  - intros bad w3 (-> & E & _ & R). split; [done|]. split; [done|]. split; [done|]. intros s Hs Hc.
    pose proof (written_symbols _ _ _ _ _ _ _ _ _ _ _ W s) as Hset. split; intros Hw.
    + apply Hset in Hw as Hw'. apply setting_in in Hw' as (n & text & Hi). pose proof (Hsh _ _ _ Hi) as ((Hd & Hty & _) & _ & Hvs & _ & ->).
      destruct (read_given _ _ _ _ _ R s _ (given_in _ _ _ _ (written_once _ _ _ _ _ _ _ _ _ _ _ W) Hi)) as [H1 H2].
      split; [done|]. rewrite H2. by apply (stored_saved decl modules_sym D rank m k').
    + destruct (read_absent _ _ _ _ _ R s Hs) as [H1 H2]; [apply given_none; by rewrite Hset|].
      split; [|done]. by rewrite H1.
Qed.

(** ** An example *)

Module Example_config.

Definition char_value (c : ascii) : Z := Z.of_nat (nat_of_ascii c).

Definition buckets (h : Z) : list symbol :=
  List.filter (fun s => match sname (Example_.decl s) with
                        | Some n => strhash char_value n mod SYMBOL_HASHSIZE =? h
                        | None => false
                        end) Example_.all_symbols.

Definition prompt (t : prop_type) (text : string) : option (nat * property) :=
  Some (0%nat, Property t (Some text) None None None "Config.in" 1).

(** [USB] is in a menu of its own. *)
Definition menus (i : nat) : menu :=
  match i with
  | 0%nat => Menu None None (Some 1%nat) None (prompt P_MENU "Main menu") None
  | 1%nat => Menu (Some 2%nat) (Some 0%nat) None (Some Example_.MODULES) (prompt P_PROMPT "Modules") None
  | 2%nat => Menu (Some 3%nat) (Some 0%nat) None (Some Example_.NET) (prompt P_PROMPT "Network") None
  | 3%nat => Menu (Some 5%nat) (Some 0%nat) (Some 4%nat) None (prompt P_MENU "Devices") (Some (E_SYMBOL Example_.MODULES))
  | 4%nat => Menu None (Some 3%nat) None (Some Example_.USB) (prompt P_PROMPT "USB") None
  | 5%nat => Menu None (Some 0%nat) None (Some Example_.PORT) (prompt P_PROMPT "Port") None
  | _ => Menu None None None None None None
  end.

Definition f : forest := Node 1 Leaf (Node 2 Leaf (Node 3 (Node 4 Leaf Leaf) (Node 5 Leaf Leaf))).

Definition world : conf_world :=
  ConfWorld Example_.cleared (fun n => if bool_decide (n = ".config"%string) then Some "old"%string else None)
    (fun _ => false) "" 0 0 [].

Definition write : prog conf_world Z :=
  conf_write Example_.decl Example_.all_symbols Example_.MODULES Example_.memcmp_value 9 "CONFIG_" menus 0 false
    ".config" 42 (fun _ => false) (fun _ => false) (fun _ _ => false) 11 None.

Definition saved : conf_world := match write world with Ret _ w => w | _ => world end.

Definition read (w : conf_world) : outcome conf_world bool :=
  conf_read_simple Example_.decl buckets Example_.all_symbols char_value "CONFIG_" true true ".config" None None None w.

(** The file. *)
Example written_file :
  files saved ".config" = Some
    (String.concat newline ["#"; "# Automatically generated file; DO NOT EDIT."; "# Main menu"; "#"; "CONFIG_MODULES=y";
       "CONFIG_NET=y"; ""; "#"; "# Devices"; "#"; "CONFIG_USB=m"; "# end of Devices"; ""; "CONFIG_PORT=1024"; ""])%string /\
  files saved ".config.old" = Some "old"%string.
Proof. by vm_compute. Qed.

End Example_config.

(** ** Theorems *)

(** The configurations that can be written: from a consistent state, with no mark left by
    an earlier run, menus that form the forest [f], and room for the name of the
    temporary file. *)
Record writable_state (decl : symbol -> declaration) (modules_sym : symbol) (D : symbol -> Prop) (rank : symbol -> nat)
    (m : tristate) (CONFIG_ : string) (menus : nat -> menu) (rootmenu : nat) (f : forest) (pid : Z) (name : string)
    (k : kworld) : Prop := {
  state_consistent : consistent decl modules_sym D rank m k;
  state_menus : menus_ok decl D CONFIG_ menus rootmenu f k;
  state_unmarked : forall s, D s -> has SYMBOL_WRITTEN (flags (cells k s)) = false;
  state_name : (String.length name + String.length (pretty pid) + 5 <= 4096)%nat
}.

(** C18. [conf_write] returns, with the number of its steps bounded by twice the number of
    menus, and never loses a configuration: when the answer is 0 the file holds the
    text, which has a line for exactly the symbols that are to be written, once, with
    the values they have, and the state is consistent, with the user's values untouched
    and nothing marked; otherwise the old file is still there, under its name or that of
    the copy. No other file than these and the temporary one is touched. *)
Theorem conf_write_keeps decl all_symbols modules_sym memcmp_value D rank fuel m CONFIG_ menus rootmenu f overwrite
    configname pid unwritable mkdir_fails rename_fails steps arg w
    (Hconf : configuration decl all_symbols modules_sym memcmp_value D rank fuel)
    (Hw : writable_state decl modules_sym D rank m CONFIG_ menus rootmenu f pid (default configname arg) (kw w))
    (Hsteps : (2 * length (nodes f) < steps)%nat) :
  exists r w', conf_write decl all_symbols modules_sym memcmp_value fuel CONFIG_ menus rootmenu overwrite configname pid
      unwritable mkdir_fails rename_fails steps arg w = Ret r w' /\
    file_left decl modules_sym D rank CONFIG_ menus f pid m (default configname arg) w r w'.
Proof.
  destruct Hconf as [C1 C2 C3 C4 C5], Hw as [W1 W2 W3 W4].
  pose proof (runs_conf_write decl all_symbols modules_sym memcmp_value D rank fuel C1 C2 C3 C4 C5 CONFIG_ menus rootmenu f
    overwrite configname pid unwritable mkdir_fails rename_fails m steps arg w W4 W1 W2 W3 Hsteps) as H.
  unfold runs in H. destruct (conf_write _ _ _ _ _ _ _ _ _ _ _ _ _ _ _ _ w) as [r w'| |]; try done. by exists r, w'.
Qed.

Lemma example_state :
  writable_state Example_.decl Example_.MODULES (fun s => s ∈ Example_.all_symbols) Example_.rank yes "CONFIG_"
    Example_config.menus 0 Example_config.f 42 ".config" (kw Example_config.world).
Proof.
  split.
  - exact Example_.consistent_cleared.
  - split; [by repeat split|done|done| | |done].
    + intros i Hi. cbn [Example_config.f nodes app] in Hi.
      repeat (apply elem_of_cons in Hi as [->|Hi]); [| | | | | |by apply not_elem_of_nil in Hi]; unfold menu_ok; cbn;
        try (right; split; [by repeat (first [by left|right])|split; [done|eexists; reflexivity]]);
        (split; [by repeat constructor|]); (split; [intros j p [= <- <-]; by constructor|]);
        split; (split; [by apply without_text|done]).
    + repeat apply Forall_cons_2; try apply Forall_nil_2; (split; [by apply without_text|done]).
  - apply Example_.in_all. repeat apply Forall_cons_2; try apply Forall_nil_2; by vm_compute.
  - apply Nat.leb_le. by vm_compute.
Qed.

Lemma conf_write_keeps_witness :
  exists r w', Example_config.write Example_config.world = Ret r w' /\
    file_left Example_.decl Example_.MODULES (fun s => s ∈ Example_.all_symbols) Example_.rank "CONFIG_"
      Example_config.menus Example_config.f 42 yes ".config" Example_config.world r w'.
Proof.
  exact (conf_write_keeps Example_.decl Example_.all_symbols Example_.MODULES Example_.memcmp_value
    (fun s => s ∈ Example_.all_symbols) Example_.rank 9 yes "CONFIG_" Example_config.menus 0 Example_config.f false ".config" 42
    (fun _ => false) (fun _ => false) (fun _ _ => false) 11 None Example_config.world Example_.conf example_state
    ltac:(cbn; lia)).
Defined.


(** The example is written and read in one run. *)
Lemma example_written :
  conf_write Example_.decl Example_.all_symbols Example_.MODULES Example_.memcmp_value 9 "CONFIG_" Example_config.menus 0 false
    ".config" 42 (fun _ => false) (fun _ => false) (fun _ _ => false) 11 None Example_config.world =
  Ret 0 Example_config.saved.
Proof. by vm_compute. Qed.

Lemma example_names :
  names_ok Example_.decl Example_config.buckets Example_config.char_value "CONFIG_" (fun s => s ∈ Example_.all_symbols)
    Example_config.saved.
Proof.
  unfold names_ok. cbn beta. intros s n Hs. revert s Hs n. refine (Example_.in_all _ _).
  repeat apply Forall_cons_2; try apply Forall_nil_2; intros n Hty; [| | | |destruct Hty; reflexivity..]; intros [= <-];
    (split; [split; [reflexivity|..]; first [apply without_text; reflexivity|reflexivity]|split; vm_compute; reflexivity]).
Qed.

Lemma example_values : values_ok Example_.decl (fun s => s ∈ Example_.all_symbols) (kw Example_config.saved).
Proof.
  unfold values_ok. cbn beta. refine (Example_.in_all _ _). repeat apply Forall_cons_2; try apply Forall_nil_2;
    intros Hvs Hty; first [by destruct Hty|by vm_compute].
Qed.

Lemma example_to_write s i : (i, s) ∈ [(1%nat, Example_.MODULES); (2%nat, Example_.NET); (4%nat, Example_.USB); (5%nat, Example_.PORT)] ->
  to_write Example_config.menus Example_config.f (kw Example_config.saved) s /\ s ∈ Example_.all_symbols /\
  has SYMBOL_CHOICE (flags (cells (kw Example_config.saved) s)) = false.
Proof.
  intros H. repeat (apply elem_of_cons in H as [[= -> ->]|H]); [..|by apply not_elem_of_nil in H];
    (split; [split; [|split; vm_compute; reflexivity]|split; [by repeat (first [by left|right])|vm_compute; reflexivity]]).
  - exists 1%nat. split; [by repeat (first [by left|right])|reflexivity].
  - exists 2%nat. split; [by repeat (first [by left|right])|reflexivity].
  - exists 4%nat. split; [by repeat (first [by left|right])|reflexivity].
  - exists 5%nat. split; [by repeat (first [by left|right])|reflexivity].
Qed.

Lemma example_saved :
  saved_value (Example_.decl Example_.PORT) (cells (kw Example_config.saved) Example_.PORT) = SymbolValue (P_string "1024") no /\
  saved_value (Example_.decl Example_.USB) (cells (kw Example_config.saved) Example_.USB) = SymbolValue NULL mod_.
Proof. split; vm_compute; reflexivity. Qed.

