(* ===== verification/KConfValues.v ===== *)
(** * Configurations keep their values in files

    The user's values that a file gives back are those that were calculated, not those
    that the user had set; calculated again, they give the same configuration. *)

From Stdlib Require Import ZArith Lia String Ascii.
From stdpp Require Import base list strings numbers option pretty.
From S2P Require Import Prelude CString KExpr KExprOps KSym KSymSpec KSymFacts KSymCalc KSymOrder KSymSet KSymProofs KTable KConf KConfWrite KConfFacts KConfRead KConfOut KConfVisit KConfFile KConfProofs.

(** ** One symbol *)

(** A value that is visible is within its limits: no more than what is visible or
    selected, or in its range. *)
Definition within_limits (env : symbol -> symbol_data) (m : tristate) (d : declaration) (c : cell) : Prop :=
  visible c <> no ->
  match stype d with
  | S_BOOLEAN | S_TRISTATE => EXPR_OR (EXPR_AND (tri (curr c)) (visible c)) (rev_tri c) = tri (curr c)
  | _ => spec_range env m d (pointer_text (val (curr c))) = pointer_text (val (curr c))
  end.

(** The input after reading: the value that was calculated, or none. *)
Definition given_back (d : declaration) (c c' : cell) : Prop :=
  (has SYMBOL_DEF_USER (flags c') = true /\ def_user c' = saved_value d c) \/
  (has SYMBOL_DEF_USER (flags c') = false /\ (has SYMBOL_DEF_USER (flags c) = true -> visible c = no)).

Lemma no_mod_again m t v : no_mod m t (no_mod m t v) = no_mod m t v.
Proof. unfold no_mod. destruct v; try done. by destruct (bool_decide (type_now m t = S_BOOLEAN)) eqn:E; cbn; rewrite ?E. Qed.

Lemma tri_again env m d v (user : option tristate) :
  let t := spec_tri env m d user in
  (spec_visible env m d <> no -> EXPR_OR (EXPR_AND t (spec_visible env m d)) (spec_rev env m d) = t) ->
  v = Some t \/ v = None /\ (user <> None -> spec_visible env m d = no) ->
  spec_tri env m d v = t.
Proof.
  cbn zeta. intros Hl Hv. destruct (bool_decide (spec_visible env m d = no)) eqn:Ev.
  - assert (forall o, spec_tri env m d o = spec_tri env m d None) as Hsame.
    { intros [u|]; [|done]. unfold spec_tri. by rewrite Ev. }
    by rewrite Hsame, (Hsame user).
  - apply bool_decide_eq_false in Ev as Hne. destruct Hv as [-> | [-> Hu]].
    + specialize (Hl Hne). unfold spec_tri at 1. rewrite Ev, Hl. unfold spec_tri.
      destruct (bool_decide (spec_dir env m d = no) && negb (bool_decide (spec_rev env m d = no))); [done|].
      apply no_mod_again.
    + destruct user as [u|]; [|done]. destruct Hne. by apply Hu.
Qed.

Lemma text_again env m d v (user : option string) :
  let t := spec_range env m d (spec_text env m d user) in
  (spec_visible env m d <> no -> spec_range env m d t = t) ->
  v = Some t \/ v = None /\ (user <> None -> spec_visible env m d = no) ->
  spec_range env m d (spec_text env m d v) = t.
Proof.
  cbn zeta. intros Hl Hv. destruct (bool_decide (spec_visible env m d = no)) eqn:Ev.
  - assert (forall o, spec_text env m d o = spec_text env m d None) as Hsame.
    { intros [u|]; [|done]. unfold spec_text. by rewrite Ev. }
    by rewrite Hsame, (Hsame user).
  - apply bool_decide_eq_false in Ev as Hne. destruct Hv as [-> | [-> Hu]].
    + rewrite <- (Hl Hne) at 2. f_equal. unfold spec_text at 1. by rewrite Ev.
    + destruct user as [u|]; [|done]. destruct Hne. by apply Hu.
Qed.

(** The same value again. *)
Lemma value_again env m d c c' :
  solves env m d c -> solves env m d c' -> stype d = S_UNKNOWN \/ (within_limits env m d c /\ given_back d c c') ->
  curr c' = curr c.
Proof.
  intros [E S] [E' _] Hin. rewrite E'. symmetry. rewrite E. destruct (stype d) eqn:Ety.
  { unfold spec_value. by rewrite Ety. }
  all: destruct Hin as [|[Hl Hg]]; [done|]; destruct (S ltac:(done)) as (Ev & _ & Er & _);
    unfold within_limits, given_back, saved_value, spec_value, user_tri, user_text in *; rewrite Ety, E, ?Ev, ?Er in *; cbn in *;
    f_equal; symmetry.
  1, 2: apply tri_again; [done|]; destruct Hg as [[-> ->]|[-> Hu]]; [by left|right]; (split; [done|]);
    intros Hs; apply Hu; by destruct (has SYMBOL_DEF_USER (flags c)).
  all: f_equal; apply text_again; [done|]; destruct Hg as [[-> ->]|[-> Hu]]; [by left|right]; (split; [done|]);
    intros Hs; apply Hu; by destruct (has SYMBOL_DEF_USER (flags c)).
Qed.

(** ** A whole configuration *)

Section Again.
Context (decl : symbol -> declaration) (modules_sym : symbol) (D : symbol -> Prop) (rank : symbol -> nat).
Context (ok : ordered decl modules_sym D rank).
(** Two states in which everything is calculated; the constants are the same, and the
    second one has the input that a file gives back. *)
Context (m m' : tristate) (k k' : kworld).
Context (Hk : consistent decl modules_sym D rank m k) (Hk' : consistent decl modules_sym D rank m' k').
Context (all_valid : forall s, D s -> valid k s = true) (all_valid' : forall s, D s -> valid k' s = true).
Context (constants : forall t, constant t = true -> cells k' t = cells k t)
  (literals : forall t, D t -> has SYMBOL_CONST (flags (cells k' t)) = has SYMBOL_CONST (flags (cells k t))).
Context (limits : forall s, D s -> stype (decl s) <> S_UNKNOWN -> within_limits (env_of decl k) m (decl s) (cells k s))
  (back : forall s, D s -> stype (decl s) <> S_UNKNOWN -> given_back (decl s) (cells k s) (cells k' s)).

Lemma env_again t : constant t = true \/ D t /\ curr (cells k' t) = curr (cells k t) -> env_of decl k' t = env_of decl k t.
Proof.
  intros [Ht|[Ht E]]; unfold env_of; [by rewrite (constants t Ht)|]. by rewrite E, literals.
Qed.

(** One symbol, when those it uses are the same. *)
Lemma symbol_again s :
  D s -> settled decl D rank m k' s ->
  (forall t, D t -> (rank t < rank s)%nat -> curr (cells k' t) = curr (cells k t)) -> curr (cells k' s) = curr (cells k s).
Proof.
  intros Hs [_ Hf] Hbelow. apply (value_again (env_of decl k) m (decl s)).
  - apply (settled_solves decl D rank), (consistent_settled _ _ _ _ _ _ Hk s Hs), all_valid, Hs.
  - apply Hf. intros t Ht _. symmetry. apply env_again. destruct Ht as [Ht|[Ht Hr]]; [by left|right]. auto.
  - destruct (decide (stype (decl s) = S_UNKNOWN)); [by left|right]. auto.
Qed.

Lemma modules_again : m' = m.
Proof.
  destruct (ordered_modules _ _ _ _ ok) as (Hd & Hr & _).
  destruct (consistent_modules _ _ _ _ _ _ Hk) as [_ Em]. destruct (consistent_modules _ _ _ _ _ _ Hk') as [Hv' Em'].
  rewrite <- Em, <- Em'. unfold modules_tri. f_equal. apply symbol_again; [done| |intros t _; lia].
  apply (settled_modules decl modules_sym D rank ok m' m k').
  - by apply (consistent_val decl modules_sym D rank m').
  - by apply (consistent_settled _ _ _ _ _ _ Hk').
Qed.

(** All symbols have the values they had. *)
Lemma values_again s : D s -> curr (cells k' s) = curr (cells k s).
Proof.
  intros Hs. remember (rank s) as r eqn:Er. revert s Hs Er. induction (lt_wf r) as [r _ IH]. intros s Hs ->.
  apply symbol_again; [done| |].
  - rewrite <- modules_again. by apply (consistent_settled _ _ _ _ _ _ Hk' s Hs), all_valid'.
  - intros t Ht Hr. by apply (IH (rank t)).
Qed.
End Again.

(** ** After a file was read *)

(** Everything is to be calculated again, from good input. *)
Lemma read_forgotten decl all_symbols modules_sym (D : symbol -> Prop) items k2 k3 :
  (forall t, D t -> t ∈ all_symbols) -> (forall t, t ∈ all_symbols -> constant t = false) ->
  file_read decl all_symbols items k2 k3 -> good decl D (modules_val k2) k2 ->
  modules_val k2 = tri (curr (cells k2 modules_sym)) -> forgotten decl modules_sym D k3.
Proof.
  intros Hin Hvar R [G1 _ G3] Hm.
  assert (forall m t, Z.land m reset_flags = 0 -> has m (flags (cells k3 t)) = has m (flags (cells k2 t))) as Hf.
  { intros m t Hz. apply same_flag; [done|]. apply (read_others _ _ _ _ _ R). }
  split.
  - split; [|done|].
    + intros t Ht. assert (t ∉ all_symbols) as Hn by (intros H; by rewrite (Hvar t H) in Ht).
      unfold valid. rewrite (read_const _ _ _ _ _ R t Hn). by apply G1.
    + intros t Ht. destruct (G3 t Ht) as [P1 P2 P3 P4 P5 P6]. split; [..|done|done]; try by rewrite Hf.
      unfold user_text. intros Hu Hb Htr. destruct (given items t) as [text|] eqn:Eg.
      * destruct (read_given _ _ _ _ _ R t text Eg) as [_ ->]. exists text. unfold stored. by destruct (stype (decl t)).
      * destruct (read_absent _ _ _ _ _ R t (Hin t Ht) Eg) as [E _]. rewrite E, P1 in Hu. by destruct Hu.
  - intros t Ht. apply (read_valid _ _ _ _ _ R), Hin, Ht.
  - rewrite (read_modules _ _ _ _ _ R), Hm. pose proof (read_core _ _ _ _ _ R modules_sym) as E. unfold core in E.
    by injection E as ->.
Qed.

Lemma to_write_dec menus f k s : {to_write menus f k s} + {~ to_write menus f k s}.
Proof.
  assert ({in_menus menus f s} + {~ in_menus menus f s}) as Hd.
  { destruct (decide (Some s ∈ map (fun i => msym (menus i)) (nodes f))) as [H|H].
    - left. apply list_elem_of_fmap in H as (i & E & Hi). by exists i.
    - right. intros (i & Hi & E). destruct H. apply list_elem_of_fmap. by exists i. }
  unfold to_write. destruct Hd as [Hd|Hd]; [|right; by intros []].
  destruct (has SYMBOL_CHOICE _); [right; by intros (_ & ? & _)|].
  destruct (has SYMBOL_WRITE _); [by left|right; by intros (_ & _ & ?)].
Qed.

(** The input that the file gives back. *)
Lemma restored_back decl all_symbols menus f k' k2 k3 k k4 s :
  restored decl all_symbols menus f k' k2 k3 -> s ∈ all_symbols -> has SYMBOL_CHOICE (flags (cells k2 s)) = false ->
  (to_write menus f k' s -> cells k s = cells k' s) ->
  (has SYMBOL_DEF_USER (flags (cells k s)) = true -> visible (cells k s) <> no -> to_write menus f k' s) ->
  same_input k3 k4 s -> given_back (decl s) (cells k s) (cells k4 s).
Proof.
  intros R Hs Hc Hsame Hcover Hk. destruct (R s Hs Hc) as [R1 R2]. unfold given_back.
  rewrite (kept_has SYMBOL_DEF_USER _ _ eq_refl Hk), (proj1 Hk). destruct (to_write_dec menus f k' s) as [Hw|Hw].
  - left. rewrite (Hsame Hw). by apply R1.
  - right. destruct (R2 Hw) as [H1 _]. split; [done|]. intros Hu.
    destruct (decide (visible (cells k s) = no)); [done|]. by destruct Hw; apply Hcover.
Qed.

Lemma runs_recalculate decl all_symbols modules_sym memcmp_value D rank fuel k :
  configuration decl all_symbols modules_sym memcmp_value D rank fuel -> (forall t, t ∈ all_symbols -> D t) ->
  forgotten decl modules_sym D k ->
  runs (each (modules_sym :: all_symbols) (sym_calc_value decl all_symbols modules_sym memcmp_value fuel)) k (fun _ k' =>
    (exists m, consistent decl modules_sym D rank m k') /\ (forall t, D t -> valid k' t = true) /\
    (forall t, same_input k k' t) /\ forall t, constant t = true -> cells k' t = cells k t).
Proof.
  intros [C1 C2 C3 C4 C5] Hall Hf. cbn [each].
  eapply runs_step; [by apply (runs_modules decl all_symbols modules_sym memcmp_value D rank fuel C1 C2 C3 C4 C5)|].
  intros [] k1 (K1 & (I1 & E1) & _). set (m := modules_val k1) in *. eapply runs_mono.
  { apply (runs_calc_values decl all_symbols modules_sym memcmp_value D rank m C1 fuel all_symbols k1 K1).
    apply Forall_forall. intros t Ht. split; [by apply Hall|apply C5; by apply Hall]. }
  intros [] k2 (K2 & V2 & U2 & I2). rewrite Forall_forall in V2. split; [by exists m|]. split; [by intros t Ht; apply V2, C2|]. split.
  - intros t. apply (kept_trans _ (cells k1 t)); [apply I1|apply I2].
  - intros t Ht. destruct (good_constant _ _ _ _ (consistent_good _ _ _ _ _ _ K1) t Ht) as [Hv _].
    destruct (U2 t Hv) as [_ ->]. by apply E1.
Qed.

(** A state of another run: the same constants, and nothing but the parser's work is
    known of the other symbols. *)
Record other_run (decl : symbol -> declaration) (modules_sym : symbol) (D : symbol -> Prop) (k k2 : kworld) : Prop := {
  other_good : good decl D (modules_val k2) k2;
  other_modules : modules_val k2 = tri (curr (cells k2 modules_sym));
  other_constants : forall t, constant t = true -> cells k2 t = cells k t;
  other_literals : forall t, D t -> has SYMBOL_CONST (flags (cells k2 t)) = has SYMBOL_CONST (flags (cells k t))
}.

(** What is lost when it is written. *)
Record nothing_lost (decl : symbol -> declaration) (D : symbol -> Prop) (m : tristate) (menus : nat -> menu) (f : forest)
    (k' k : kworld) : Prop := {
  lost_limits : forall s, D s -> stype (decl s) <> S_UNKNOWN -> within_limits (env_of decl k) m (decl s) (cells k s);
  lost_user : forall s, D s -> has SYMBOL_DEF_USER (flags (cells k s)) = true -> visible (cells k s) <> no ->
    to_write menus f k' s
}.


(** ** The example in another run *)

Module Example_again.

(** A run that starts with the file. *)
Definition later : conf_world :=
  ConfWorld Example_.start (files Example_config.saved) (dirs Example_config.saved) "" 0 0 [].

(** Everything calculated. *)
Definition calculated : kworld :=
  Example_.state_of (each Example_.all_symbols (sym_calc_value Example_.decl Example_.all_symbols Example_.MODULES
    Example_.memcmp_value 9) (kw Example_config.saved)).

Lemma calculated_all :
  each Example_.all_symbols (sym_calc_value Example_.decl Example_.all_symbols Example_.MODULES Example_.memcmp_value 9)
    (kw Example_config.saved) = Ret tt calculated.
Proof. by vm_compute. Qed.

Lemma kept_all :
  nothing_lost Example_.decl (fun s => s ∈ Example_.all_symbols) yes Example_config.menus Example_config.f
    (kw Example_config.saved) calculated.
Proof.
  split.
  - refine (Example_.in_all _ _). repeat apply Forall_cons_2; try apply Forall_nil_2; intros Hty;
      [| | | |destruct Hty; reflexivity..]; unfold within_limits; intros _; vm_compute; reflexivity.
  - refine (Example_.in_all _ _). repeat apply Forall_cons_2; try apply Forall_nil_2; intros Hu; vm_compute in Hu; discriminate Hu.
Qed.

Lemma later_run : other_run Example_.decl Example_.MODULES (fun s => s ∈ Example_.all_symbols) (kw Example_config.saved) (kw later).
Proof.
  split; [exact Example_.good_start|reflexivity| |].
  - intros [] Ht; try discriminate Ht; vm_compute; reflexivity.
  - refine (Example_.in_all _ _). repeat apply Forall_cons_2; try apply Forall_nil_2; vm_compute; reflexivity.
Qed.

Lemma later_names :
  names_ok Example_.decl Example_config.buckets Example_config.char_value "CONFIG_" (fun s => s ∈ Example_.all_symbols) later.
Proof.
  unfold names_ok. cbn beta. intros s n Hs. revert s Hs n. refine (Example_.in_all _ _).
  repeat apply Forall_cons_2; try apply Forall_nil_2; intros n Hty; [| | | |destruct Hty; reflexivity..]; intros [= <-];
    (split; [split; [reflexivity|..]; first [apply without_text; reflexivity|reflexivity]|split; vm_compute; reflexivity]).
Qed.

Lemma later_file : files later ".config" = files Example_config.saved ".config".
Proof. unfold later. cbn [files]. reflexivity. Qed.

End Example_again.


(** In the example the user has set nothing before writing, and the port is 1024 again. *)
Example port_kept : curr (cells Example_again.calculated Example_.PORT) = SymbolValue (P_string "1024") no.
Proof. by vm_compute. Qed.
