(* ===== verification/KConfAny.v ===== *)
(** * Reading any file

    Whatever a configuration file holds, reading it leaves good input: the values of the
    user are valid for the types of their symbols, and nothing that was calculated is
    touched. *)

From Stdlib Require Import ZArith Lia String Ascii.
From stdpp Require Import base list strings numbers option pretty.
From S2P Require Import Prelude CString KExpr KExprOps KSym KSymSpec KSymFacts KSymCalc KSymProofs KTable KConf KConfFacts KConfRead KConfProofs.

Section Any.
Context (decl : symbol -> declaration) (buckets : Z -> list symbol) (all_symbols : list symbol)
  (char_value : ascii -> Z) (CONFIG_ : string) (warn_unknown : bool).

(** The user's value of a number or a string is a valid text. *)
Definition user_valid (s : symbol) (c : cell) : Prop :=
  has SYMBOL_DEF_USER (flags c) = true -> is_number (stype (decl s)) = true \/ stype (decl s) = S_STRING ->
  exists text, val (def_user c) = P_string text /\ sym_string_valid decl s text = true.

(** What a line may do to a symbol. *)
Record may_set (s : symbol) (c c' : cell) : Prop := {
  may_core : core c' = core c;
  may_flags : Z.ldiff (flags c') SYMBOL_DEF_USER = Z.ldiff (flags c) SYMBOL_DEF_USER;
  may_valid : user_valid s c -> user_valid s c';
  may_unknown : stype (decl s) = S_UNKNOWN -> c' = c
}.

Lemma may_refl s c : may_set s c c.
Proof. by split. Qed.

Lemma may_trans s c1 c2 c3 : may_set s c1 c2 -> may_set s c2 c3 -> may_set s c1 c3.
Proof.
  intros [A1 A2 A3 A4] [B1 B2 B3 B4]. split; [congruence|congruence|auto|]. intros H. by rewrite B4, A4.
Qed.

(** Symbols of the table, but for the constants. *)
Record touched (k k' : kworld) : Prop := {
  touched_modules : modules_val k' = modules_val k;
  touched_cells : forall t, may_set t (cells k t) (cells k' t);
  touched_table : forall t, t ∉ all_symbols -> constant t = false -> cells k' t = cells k t
}.

Lemma touched_refl k : touched k k.
Proof. split; [done|intros; apply may_refl|done]. Qed.

Lemma touched_trans k1 k2 k3 : touched k1 k2 -> touched k2 k3 -> touched k1 k3.
Proof.
  intros [A1 A2 A3] [B1 B2 B3]. split; [congruence| |].
  - intros t. by apply (may_trans t _ (cells k2 t)).
  - intros t Ht Hc. by rewrite B3, A3.
Qed.

(** No symbol is the value of a choice. *)
Definition no_choice (k : kworld) : Prop := forall t, has SYMBOL_CHOICEVAL (flags (cells k t)) = false.

Lemma may_has m s c c' : Z.land m SYMBOL_DEF_USER = 0 -> may_set s c c' -> has m (flags c') = has m (flags c).
Proof.
  intros Hm [_ E _ _]. rewrite <- (has_without m SYMBOL_DEF_USER (flags c')) by done.
  rewrite <- (has_without m SYMBOL_DEF_USER (flags c)) by done. unfold without_flag. by rewrite E.
Qed.

Lemma touched_no_choice k k' : touched k k' -> no_choice k -> no_choice k'.
Proof. intros H Hk t. rewrite (may_has _ t (cells k t)); [apply Hk|done|apply H]. Qed.

(** Programs that only touch. *)
Definition touches {A} (p : prog conf_world A) : Prop :=
  forall w, no_choice (kw w) -> runs p w (fun _ w' => touched (kw w) (kw w')).

Lemma touches_ret {A} (a : A) : touches (mret a).
Proof. intros w _. apply runs_ret, touched_refl. Qed.

Lemma touches_bind {A B} (p : prog conf_world A) (f : A -> prog conf_world B) :
  touches p -> (forall a, touches (f a)) -> touches (p ≫= f).
Proof.
  intros Hp Hf w Hw. eapply runs_step; [by apply Hp|]. intros a w1 H1. eapply runs_mono; [apply Hf; by apply (touched_no_choice (kw w))|].
  intros b w2 H2. by apply (touched_trans _ (kw w1)).
Qed.

Lemma touches_same {A} (p : prog conf_world A) : (forall w, runs p w (fun _ w' => kw w' = kw w)) -> touches p.
Proof. intros H w _. eapply runs_mono; [apply H|]. intros a w' ->. apply touched_refl. Qed.

Lemma touches_warning text : touches (conf_warning text).
Proof. by apply touches_same. Qed.

Lemma touches_changed : touches (on_symbols (conf_set_changed true)).
Proof. intros w _. split; [done|intros t; apply may_refl|done]. Qed.

(** Symbols that lines can name. *)
Context (in_table : forall h t, t ∈ buckets h -> t ∈ all_symbols)
  (constant_type : forall t, constant t = true -> stype (decl t) = S_UNKNOWN).

Definition nameable (s : symbol) : Prop := s ∈ all_symbols \/ constant s = true.

Lemma find_nameable name w :
  runs (find_symbol decl buckets char_value name) w (fun o w' => w' = w /\ forall s, o = Some s -> nameable s).
Proof.
  apply runs_bind, runs_get, runs_ret. split; [done|]. intros s. unfold sym_find_in.
  destruct (constant_named name) as [c|] eqn:Ec.
  - intros [= <-]. right. unfold constant_named in Ec.
    repeat match goal with H : match ?x with _ => _ end = Some _ |- _ => destruct x; try discriminate H end; by injection Ec as <-.
  - intros H. left. apply find_named_some in H as [H _]. by eapply in_table.
Qed.

Lemma touches_put s v :
  nameable s -> stype (decl s) <> S_UNKNOWN ->
  (is_number (stype (decl s)) = true \/ stype (decl s) = S_STRING ->
     forall c, exists text, val (v (def_user c)) = P_string text /\ sym_string_valid decl s text = true) ->
  touches (on_symbols (change s (fun c => put_user (v (def_user c)) c);; set_flag SYMBOL_DEF_USER s)).
Proof.
  intros Hs Hty Hv w Hw. apply runs_on, runs_bind, runs_change, runs_change. cbn [kw set_kw].
  set (k1 := changed s _ _). assert (forall t, t <> s -> cells k1 t = cells (kw w) t) as Hother
    by (intros t Ht; unfold k1; by rewrite !cells_changed_ne).
  split; [done| |].
  - intros t. destruct (decide (t = s)) as [->|Hne]; [|rewrite Hother by done; apply may_refl].
    unfold k1. rewrite !cells_changed. split; [done| | |done].
    + cbn. apply Z.bits_inj'. intros i Hi. unfold with_flag. rewrite !Z.ldiff_spec, Z.lor_spec.
      by destruct (Z.testbit _ i), (Z.testbit SYMBOL_DEF_USER i).
    + intros _ _ Ht. by apply Hv.
  - intros t Ht Hc. apply Hother. intros ->. destruct Hs as [Hs|Hs]; [done|by rewrite Hs in Hc].
Qed.

Lemma touches_tri s t :
  nameable s -> stype (decl s) = S_BOOLEAN \/ stype (decl s) = S_TRISTATE -> touches (user_tri_value s t).
Proof.
  intros Hs Hty. apply (touches_put s (fun u => SymbolValue (val u) t)); [done|by destruct Hty as [-> | ->]|].
  intros [H|H]; by destruct Hty as [Ht | Ht]; rewrite Ht in H.
Qed.

Lemma touches_text s p :
  nameable s -> is_number (stype (decl s)) = true \/ stype (decl s) = S_STRING -> touches (user_text_value decl s p).
Proof.
  intros Hs Hty. unfold user_text_value. destruct (sym_string_valid decl s p) eqn:Ev.
  - apply touches_bind; [|intros; apply touches_ret]. apply (touches_put s (fun u => SymbolValue (P_string p) (tri u))); [done| |].
    + destruct Hty as [H|H]; [by intros Ht; rewrite Ht in H|by rewrite H].
    + intros _ c. by exists p.
  - apply touches_bind; [apply touches_warning|intros; apply touches_ret].
Qed.

Lemma touches_bool s p :
  nameable s -> stype (decl s) = S_BOOLEAN \/ stype (decl s) = S_TRISTATE -> touches (user_bool_value decl s p).
Proof.
  intros Hs Hty.
  assert (touches (invalid_value decl p s)) as Hbad by (apply touches_bind; [apply touches_warning|intros; apply touches_ret]).
  assert (forall t, touches (user_tri_value s t;; mret false)) as Htri
    by (intros t; apply touches_bind; [by apply touches_tri|intros; apply touches_ret]).
  unfold user_bool_value. destruct p as [|c r]; [done|].
  destruct (decide (c = "y"%char)) as [->|Hy]; [apply Htri|]. destruct (decide (c = "n"%char)) as [->|Hn]; [apply Htri|].
  by destruct c as [[] [] [] [] [] [] [] []].
Qed.

Lemma touches_value s p : nameable s -> touches (conf_set_sym_val decl s p).
Proof.
  intros Hs. unfold conf_set_sym_val. destruct (stype (decl s)) eqn:Ety.
  - apply touches_ret.
  - apply touches_bool; auto.
  - assert (touches (user_bool_value decl s p)) as Hb by (apply touches_bool; auto).
    destruct p as [|c r]; [done|]. destruct (decide (c = "m"%char)) as [->|Hm].
    + apply touches_bind; [apply touches_tri; auto|intros; apply touches_ret].
    + by destruct c as [[] [] [] [] [] [] [] []].
  - apply touches_text; [done|left; by rewrite Ety].
  - apply touches_text; [done|left; by rewrite Ety].
  - destruct p as [|c r]; [apply touches_ret|]. destruct (bool_decide _); [|apply touches_ret].
    destruct (unescape r); [apply touches_text; auto|].
    apply touches_bind; [apply touches_warning|intros; apply touches_ret].
Qed.

Lemma touches_unknown name : touches (unknown_symbol warn_unknown name).
Proof.
  apply touches_bind; [by destruct warn_unknown; [apply touches_warning|apply touches_ret]|]. intros [].
  apply touches_bind; [apply touches_changed|intros; apply touches_ret].
Qed.

(** What is done with a symbol that is looked up. *)
Lemma touches_find {A} name (g : option symbol -> prog conf_world A) :
  (forall o, (forall s, o = Some s -> nameable s) -> touches (g o)) -> touches (find_symbol decl buckets char_value name ≫= g).
Proof.
  intros Hg w Hw. eapply runs_step; [apply find_nameable|]. intros o w' [-> Ho]. by apply Hg.
Qed.

Lemma touches_comment line : touches (read_comment decl buckets char_value CONFIG_ warn_unknown line).
Proof.
  unfold read_comment. destruct (starts_with CONFIG_ _); [|apply touches_ret].
  destruct (cut _ _) as [[name p]|]; [|apply touches_ret]. destruct (starts_with _ p); [|apply touches_ret].
  apply touches_find. intros [s|] Hs; [|apply touches_unknown]. specialize (Hs s eq_refl).
  apply touches_bind; [|intros; apply touches_ret]. destruct (stype (decl s)) eqn:Ety; try apply touches_ret; apply touches_tri; auto.
Qed.

Lemma touches_assignment line : touches (read_assignment decl buckets char_value CONFIG_ warn_unknown line).
Proof.
  unfold read_assignment. destruct (cut _ _) as [[name p]|]; [|apply touches_ret].
  apply touches_find. intros [s|] Hs; [|apply touches_unknown].
  apply touches_bind; [by apply touches_value, Hs|]. intros bad. apply touches_ret.
Qed.

Lemma touches_note s : touches (note_choice decl s).
Proof.
  intros w Hw. apply runs_no_choice; [apply Hw|apply touched_refl].
Qed.

Lemma touches_line line : line <> "#"%string -> touches (read_line decl buckets char_value CONFIG_ warn_unknown line).
Proof.
  intros Hl. apply touches_bind; [by apply touches_same|]. intros []. rewrite bool_decide_eq_false_2 by done.
  apply touches_bind; [|intros [s|]; [apply touches_note|apply touches_ret]].
  destruct (starts_with "#" line); [apply touches_comment|]. destruct (starts_with CONFIG_ line); [apply touches_assignment|].
  apply touches_bind; [|intros; apply touches_ret]. destruct (without_end line); [apply touches_ret|apply touches_warning].
Qed.

Lemma touches_lines l : Forall (fun line => line <> "#"%string) l -> touches (read_lines decl buckets char_value CONFIG_ warn_unknown l).
Proof.
  induction 1 as [|line l Hl _ IH]; cbn [read_lines]; [apply touches_ret|].
  apply touches_bind; [by apply touches_line|]. intros []. exact IH.
Qed.
End Any.

(** ** A whole file *)

(** What is known of the symbols when a file was read. *)
Record sound_input (decl : symbol -> declaration) (all_symbols : list symbol) (k k' : kworld) : Prop := {
  sound_user : forall s, s ∈ all_symbols -> user_valid decl s (cells k' s);
  sound_plain : forall s, s ∈ all_symbols -> plain decl k' s;
  sound_forgotten : forall s, s ∈ all_symbols -> valid k' s = false;
  sound_core : forall s, core (cells k' s) = core (cells k s);
  sound_constants : forall s, constant s = true -> cells k' s = cells k s;
  sound_modules : modules_val k' = modules_val k
}.

Lemma sound_after decl all_symbols k k1 k2 :
  (forall t, t ∈ all_symbols -> plain decl k t) -> (forall t, t ∈ all_symbols -> constant t = false) ->
  (forall t, constant t = true -> stype (decl t) = S_UNKNOWN) ->
  modules_val k1 = modules_val k ->
  (forall t, if decide (t ∈ all_symbols) then was_reset (cells k t) (cells k1 t) else cells k1 t = cells k t) ->
  touched decl all_symbols k1 k2 -> sound_input decl all_symbols k k2.
Proof.
  intros Hp Hvar Hty Hm Hr [T1 T2 T3].
  assert (forall t, t ∈ all_symbols -> was_reset (cells k t) (cells k1 t)) as Hwas
    by (intros t Ht; specialize (Hr t); by rewrite decide_True in Hr).
  assert (forall t, t ∈ all_symbols -> has SYMBOL_DEF_USER (flags (cells k1 t)) = false) as Hno.
  { intros t Ht. rewrite (reset_user _ _ (Hwas t Ht)). apply (plain_choice decl), Hp, Ht. }
  assert (forall s, s ∈ all_symbols -> user_valid decl s (cells k2 s)) as Hu.
  { intros s Hs. apply (may_valid _ _ _ _ (T2 s)). intros H. by rewrite Hno in H. }
  assert (forall m s, Z.land m reset_flags = 0 -> Z.land m SYMBOL_DEF_USER = 0 -> s ∈ all_symbols ->
    has m (flags (cells k2 s)) = has m (flags (cells k s))) as Hf.
  { intros m s H1 H2 Hs. rewrite (may_has decl m s (cells k1 s)) by done. apply same_flag; [done|]. apply (reset_others _ _ (Hwas s Hs)). }
  split.
  - done.
  - intros s Hs. destruct (Hp s Hs) as [P1 P2 P3 P4 P5 P6]. split; [by rewrite Hf..| |done|done].
    unfold user_text. intros H Hb Ht. destruct (has SYMBOL_DEF_USER (flags (cells k2 s))) eqn:E; [|by destruct H].
    destruct (decide (stype (decl s) = S_UNKNOWN)) as [Hn|Hn].
    + rewrite (may_unknown _ _ _ _ (T2 s) Hn) in E. by rewrite Hno in E.
    + destruct (Hu s Hs E) as (text & Et & _); [|by exists text]. destruct (stype (decl s)); auto; done.
  - intros s Hs. unfold valid. rewrite (may_has decl _ s (cells k1 s)) by done. apply (reset_valid _ _ (Hwas s Hs)).
  - intros s. rewrite (may_core _ _ _ _ (T2 s)). destruct (decide (s ∈ all_symbols)) as [Hs|Hs].
    + apply (reset_core _ _ (Hwas s Hs)).
    + specialize (Hr s). rewrite decide_False in Hr by done. by rewrite Hr.
  - intros s Hs. rewrite (may_unknown _ _ _ _ (T2 s)) by auto. specialize (Hr s).
    rewrite decide_False in Hr; [done|]. intros H. by rewrite (Hvar s H) in Hs.
  - congruence.
Qed.

(** C17. Reading any file, whatever it holds, but a lone [#] as its last line: the program
    goes on, or stops with 1 when warnings are errors and there was one. Afterwards
    every value of the user is valid for the type of its symbol, everything is to be
    calculated again, and the values that were calculated and the constants are as
    before. *)
Theorem conf_read_simple_safe decl buckets all_symbols char_value CONFIG_ warn_unknown werror configname defconfig_list
    srctree name text w
    (Hfile : files w (default configname name) = Some text) (Hlast : Forall (fun line => line <> "#"%string) (lines text))
    (Hplain : forall t, t ∈ all_symbols -> plain decl (kw w) t) (Hchoice : no_choice (kw w))
    (Hvariable : forall t, t ∈ all_symbols -> constant t = false)
    (Htable : forall h t, t ∈ buckets h -> t ∈ all_symbols)
    (Hconstant : forall t, constant t = true -> stype (decl t) = S_UNKNOWN) :
  match conf_read_simple decl buckets all_symbols char_value CONFIG_ warn_unknown werror configname defconfig_list srctree
    name w with
  | Ret bad w' => bad = false /\ (werror = true -> conf_warnings w' = 0) /\ sound_input decl all_symbols (kw w) (kw w')
  | Exit code w' => code = 1 /\ werror = true /\ conf_warnings w' <> 0 /\ sound_input decl all_symbols (kw w) (kw w')
  | Undef => False
  end.
Proof.
  set (before := conf_reset all_symbols;; read_lines decl buckets char_value CONFIG_ warn_unknown (lines text)).
  set (w0 := set_position (default configname name) 0 0 w).
  assert (runs before w0 (fun _ w' => sound_input decl all_symbols (kw w) (kw w'))) as H.
  { eapply runs_step; [apply runs_reset|]. intros [] w1 (_ & M1 & _ & R1).
    assert (no_choice (kw w1)) as H1.
    { intros t. specialize (R1 t). destruct (decide (t ∈ all_symbols)); [|rewrite R1; apply Hchoice].
      rewrite (same_flag SYMBOL_CHOICEVAL _ _ eq_refl (reset_others _ _ R1)). apply Hchoice. }
    eapply runs_mono; [apply (touches_lines decl buckets all_symbols char_value CONFIG_ warn_unknown Htable (lines text) Hlast w1 H1)|].
    intros [] w2 T. by apply (sound_after decl all_symbols (kw w) (kw w1)). }
  assert (conf_read_simple decl buckets all_symbols char_value CONFIG_ warn_unknown werror configname defconfig_list srctree
    name w = (before;; w ← get_st; if negb (conf_warnings w =? 0) && werror then exit_with 1 else mret false) w0) as ->.
  { assert (runs (open_config configname defconfig_list srctree name) w (fun o w' => o = Some text /\ w' = w)) as Ho
      by by apply (runs_open configname defconfig_list srctree name text).
    unfold conf_read_simple, runs in *. unfold mbind, prog_bind at 1. destruct (open_config _ _ _ _ w) as [o w'| |]; try done.
    destruct Ho as [-> ->]. unfold before, mbind, prog_bind, modify. fold w0. by destruct (conf_reset all_symbols w0). }
  unfold runs in H. unfold mbind, prog_bind. destruct (before w0) as [[] w1| |]; try done. unfold get_st. cbn.
  destruct (Z.eqb_spec (conf_warnings w1) 0) as [E|E]; destruct werror; cbn; by split_and?.
Qed.

(** Nonsense, an invalid number, a name that is not known, and one good line. *)
Definition strange : string :=
  String.concat newline ["CONFIG_PORT=abc"; "nonsense"; "# CONFIG_USB is not set"; "CONFIG_MISSING=y"; "CONFIG_NET=maybe"]%string.

Definition strange_world : conf_world :=
  ConfWorld Example_.start (fun n => if bool_decide (n = ".config"%string) then Some strange else None) (fun _ => false) "" 0 0 [].

Lemma strange_plain t : t ∈ Example_.all_symbols -> plain Example_.decl (kw strange_world) t.
Proof. apply (good_plain _ _ _ _ Example_.good_start). Qed.

Lemma strange_lines : Forall (fun line => line <> "#"%string) (lines strange).
Proof. apply (bool_decide_unpack _). vm_compute. exact I. Qed.

Lemma conf_read_simple_safe_witness :
  match conf_read_simple Example_.decl Example_config.buckets Example_.all_symbols Example_config.char_value "CONFIG_" true false
    ".config" None None None strange_world with
  | Ret bad w' => bad = false /\ sound_input Example_.decl Example_.all_symbols (kw strange_world) (kw w') /\
      conf_warnings w' = 4 /\ has SYMBOL_DEF_USER (flags (cells (kw w') Example_.USB)) = true
  | _ => False
  end.
Proof.
  pose proof (conf_read_simple_safe Example_.decl Example_config.buckets Example_.all_symbols Example_config.char_value "CONFIG_"
    true false ".config" None None None strange strange_world eq_refl) as H.
  specialize (H strange_lines strange_plain).
  assert (no_choice (kw strange_world)) as Hc by (intros []; reflexivity).
  assert (forall t, t ∈ Example_.all_symbols -> constant t = false) as Hv
    by (apply Example_.in_all; repeat apply Forall_cons_2; try apply Forall_nil_2; reflexivity).
  assert (forall h t, t ∈ Example_config.buckets h -> t ∈ Example_.all_symbols) as Ht.
  { intros h t Hin. unfold Example_config.buckets in Hin. apply list_elem_of_In, List.filter_In in Hin as [Hin _].
    by apply list_elem_of_In. }
  assert (forall t, constant t = true -> stype (Example_.decl t) = S_UNKNOWN) as Hty by (intros []; done).
  specialize (H Hc Hv Ht Hty).
  assert (match conf_read_simple Example_.decl Example_config.buckets Example_.all_symbols Example_config.char_value "CONFIG_" true
    false ".config" None None None strange_world with
    | Ret bad w' => conf_warnings w' = 4 /\ has SYMBOL_DEF_USER (flags (cells (kw w') Example_.USB)) = true
    | _ => False end) as H2 by (vm_compute; split; reflexivity).
  destruct (conf_read_simple _ _ _ _ _ _ _ _ _ _ _ _) as [bad w'| |]; [|contradiction H2..].
  destruct H as (Hb & _ & Hs). split; [exact Hb|]. split; [exact Hs|exact H2].
Defined.
