(* ===== verification/KPre.v ===== *)
(** * Kconfig: variables and functions

    Models [scripts/config/preprocess.c]: references to variables, functions and the
    environment in the text of Kconfig files are expanded while it is read. [v->value] of
    a variable is read only through [defined]: a value that was freed, or not yet set, is
    undefined behaviour. *)

From Stdlib Require Import ZArith Lia String Ascii.
From stdpp Require Import base list strings numbers option pretty.
From S2P Require Import Prelude CString.

Inductive variable_flavor := VAR_SIMPLE | VAR_RECURSIVE | VAR_APPEND.

#[export] Instance variable_flavor_eq_dec : EqDecision variable_flavor.
Proof. solve_decision. Defined.

(** No value: the memory is not initialised, or was freed. *)
Record variable := MkVariable {
  vname : string;
  vvalue : option string;
  vflavor : variable_flavor;
  exp_count : Z
}.

(** The variables of the environment that were used; the variables; what was printed, the
    last text first. *)
Record pp_world := PpWorld {
  env_list : list (string * string);
  variable_list : list variable;
  printed : list string
}.

Definition set_env (l : list (string * string)) (w : pp_world) : pp_world := PpWorld l (variable_list w) (printed w).
Definition set_variables (l : list variable) (w : pp_world) : pp_world := PpWorld (env_list w) l (printed w).
Definition print_text (t : string) (w : pp_world) : pp_world := PpWorld (env_list w) (variable_list w) (t :: printed w).

(** In the C locale. *)
Definition isalnum (c : ascii) : bool :=
  let n := byte_of_ascii c in
  ((48 <=? n) && (n <=? 57)) || ((65 <=? n) && (n <=? 90)) || ((97 <=? n) && (n <=? 122)).

Definition FUNCTION_MAX_ARGS : nat := 16.

Section Preprocess.
(** The environment; the output of a command, on the left the error of a failing [popen] or
    [pclose]; the position in the Kconfig files; the width of [unsigned long]. *)
Context (getenv : string -> option string) (popen : string -> string + string) (current_file : string) (yylineno : Z) (ulong : Z).

Definition say (t : string) : prog pp_world unit := modify (print_text t).

Definition position (text : string) : string := current_file +:+ ":" +:+ pretty yylineno +:+ ": " +:+ text +:+ newline.

Definition pperror {A} (text : string) : prog pp_world A := say (position text);; exit_with 1.

(** ** The environment *)

Definition env_add (name value : string) : prog pp_world unit :=
  modify (fun w => set_env (env_list w ++ [(name, value)]) w).

Definition env_lookup (name : string) (l : list (string * string)) : option string :=
  snd <$> List.find (fun e => bool_decide (e.1 = name)) l.

Definition env_expand (name : string) : prog pp_world (option string) :=
  match name with
  | EmptyString => mret None
  | _ =>
      w ← get_st;
      match env_lookup name (env_list w) with
      | Some value => mret (Some value)
      | None =>
          match getenv name with
          | None => mret None
          | Some value => env_add name value;; mret (Some value)
          end
      end
  end.

Definition quote : string := String (ascii_of_nat 34) EmptyString.

(** The text that is written, and the list is emptied. *)
Definition env_dep (autoconfig_name : string) (e : string * string) : string :=
  "ifneq " +:+ quote +:+ "$(" +:+ e.1 +:+ ")" +:+ quote +:+ " " +:+ quote +:+ e.2 +:+ quote +:+ newline +:+
  autoconfig_name +:+ ": FORCE" +:+ newline +:+ "endif" +:+ newline.

Definition env_write_dep (autoconfig_name : string) : prog pp_world string :=
  w ← get_st;
  modify (set_env []);;
  mret (foldr (fun e r => env_dep autoconfig_name e +:+ r) EmptyString (env_list w)).

(** ** Functions *)

Definition do_error_if (argv : list string) : prog pp_world string :=
  match argv with
  | [c; t] => if bool_decide (c = "y"%string) then pperror t else mret EmptyString
  | _ => undef
  end.

Definition do_filename (argv : list string) : prog pp_world string := mret current_file.

Definition do_info (argv : list string) : prog pp_world string :=
  match argv with t :: _ => say (t +:+ newline);; mret EmptyString | [] => undef end.

Definition do_lineno (argv : list string) : prog pp_world string := mret (pretty yylineno).

Fixpoint spaced (l : list ascii) : list ascii :=
  match l with [] => [] | c :: l => (if bool_decide (c = ascii_of_nat 10) then " "%char else c) :: spaced l end.

Fixpoint drop_newlines (l : list ascii) : list ascii :=
  match l with c :: r => if bool_decide (c = ascii_of_nat 10) then drop_newlines r else l | [] => [] end.

(** A buffer as a string: up to its first zero byte. *)
Fixpoint c_string (l : list ascii) : string :=
  match l with
  | c :: l => if bool_decide (c = ascii_of_nat 0) then EmptyString else String c (c_string l)
  | [] => EmptyString
  end.

(** Without the newlines at the end, the others as spaces; [buf] has 4096 bytes. *)
Definition shell_text (output : string) : string :=
  c_string (spaced (rev (drop_newlines (rev (take 4095 (list_ascii_of_string output)))))).

Definition do_shell (argv : list string) : prog pp_world string :=
  match argv with
  | cmd :: _ =>
      match popen cmd with
      | inl error => say (cmd +:+ ": " +:+ error +:+ newline);; exit_with 1
      | inr output => mret (shell_text output)
      end
  | [] => undef
  end.

Definition do_warning_if (argv : list string) : prog pp_world string :=
  match argv with
  | [c; t] => (if bool_decide (c = "y"%string) then say (position t) else mret tt);; mret EmptyString
  | _ => undef
  end.

Record function := MkFunction {
  fname : string;
  min_args : nat;
  max_args : nat;
  func : list string -> prog pp_world string
}.

Definition function_table : list function :=
  [MkFunction "error-if" 2 2 do_error_if;
   MkFunction "filename" 0 0 do_filename;
   MkFunction "info" 1 1 do_info;
   MkFunction "lineno" 0 0 do_lineno;
   MkFunction "shell" 1 1 do_shell;
   MkFunction "warning-if" 2 2 do_warning_if].

Definition function_expand (name : string) (argv : list string) : prog pp_world (option string) :=
  match List.find (fun f => bool_decide (fname f = name)) function_table with
  | None => mret None
  | Some f =>
      if (length argv <? min_args f)%nat then pperror ("too few function arguments passed to '" +:+ name +:+ "'")
      else if (max_args f <? length argv)%nat then pperror ("too many function arguments passed to '" +:+ name +:+ "'")
      else r ← func f argv; mret (Some r)
  end.

(** ** Variables *)

Definition variable_lookup (name : string) (l : list variable) : option variable :=
  List.find (fun v => bool_decide (vname v = name)) l.

(** A change of the variable that the lookup finds. *)
Fixpoint change_variable (name : string) (f : variable -> variable) (l : list variable) : list variable :=
  match l with
  | [] => []
  | v :: l => if bool_decide (vname v = name) then f v :: l else v :: change_variable name f l
  end.

Definition put_variable (name : string) (f : variable -> variable) : prog pp_world unit :=
  modify (fun w => set_variables (change_variable name f (variable_list w)) w).

Definition count (d : Z) (v : variable) : variable := MkVariable (vname v) (vvalue v) (vflavor v) (exp_count v + d).
Definition put_value (o : option string) (v : variable) : variable := MkVariable (vname v) o (vflavor v) (exp_count v).
Definition put_flavor (f : variable_flavor) (v : variable) : variable := MkVariable (vname v) (vvalue v) f (exp_count v).

(** ** Expansion *)

(** The text up to the matching parenthesis, and what is behind it. *)
Fixpoint closing (nest : nat) (s : string) : option (string * string) :=
  match s with
  | EmptyString => None
  | String c r =>
      if bool_decide (c = "("%char) then prod_map (String c) id <$> closing (S nest) r
      else if bool_decide (c = ")"%char) then
        match nest with
        | O => Some (EmptyString, r)
        | S nest => prod_map (String c) id <$> closing nest r
        end
      else prod_map (String c) id <$> closing nest r
  end.

(** The pieces between the commas outside of parentheses. *)
Fixpoint split_args (nest : Z) (prev s : string) : list string :=
  match s with
  | EmptyString => [prev]
  | String c r =>
      if (nest =? 0) && bool_decide (c = ","%char) then prev :: split_args nest EmptyString r
      else
        let nest := if bool_decide (c = "("%char) then nest + 1 else if bool_decide (c = ")"%char) then nest - 1 else nest in
        split_args nest (prev +:+ String c EmptyString) r
  end.

Section Nested.
Context (expand : string -> list string -> prog pp_world string).

Definition variable_expand (name : string) (argv : list string) : prog pp_world (option string) :=
  w ← get_st;
  match variable_lookup name (variable_list w) with
  | None => mret None
  | Some v =>
      if bool_decide (argv = []) && negb (exp_count v =? 0) then
        pperror ("Recursive variable '" +:+ name +:+ "' references itself (eventually)")
      else if 1000 <? exp_count v then pperror "Too deep recursive expansion"
      else
        put_variable name (count 1);;
        value ← defined (vvalue v);
        res ← (if bool_decide (vflavor v = VAR_RECURSIVE) then expand value argv else mret value);
        put_variable name (count (-1));;
        mret (Some res)
  end.

Fixpoint expand_all (l : list string) (argv : list string) : prog pp_world (list string) :=
  match l with
  | [] => mret []
  | s :: l => r ← expand s argv; rs ← expand_all l argv; mret (r :: rs)
  end.

(** The number of an argument of the function that is expanded. *)
Definition argument (str : string) (argv : list string) : option string :=
  let '(n, rest) := strtoul ulong str 10 in
  if bool_decide (rest = EmptyString) && (0 <? n) && (n <=? Z.of_nat (length argv))
  then argv !! (Z.to_nat (n - 1)) else None.

Definition look_up (name : string) (argv : list string) : prog pp_world string :=
  o ← variable_expand name argv;
  match o with
  | Some res => mret res
  | None =>
      o ← function_expand name argv;
      match o with
      | Some res => mret res
      | None =>
          o ← (match argv with [] => env_expand name | _ => mret None end);
          mret (default EmptyString o)
      end
  end.

Definition eval_body (str : string) (argv : list string) : prog pp_world string :=
  match argument str argv with
  | Some res => mret res
  | None =>
      let tokens := split_args 0 EmptyString str in
      if (FUNCTION_MAX_ARGS <? length tokens)%nat then pperror "too many function arguments"
      else
        match tokens with
        | [] => undef
        | first :: others =>
            name ← expand first argv;
            new_argv ← expand_all others argv;
            look_up name new_argv
        end
  end.
End Nested.

Section Text.
Context (eval_clause : string -> list string -> prog pp_world string).

(** What follows a dollar: the expansion and the rest. *)
Definition expand_dollar_with_args (s : string) (argv : list string) : prog pp_world (string * string) :=
  match s with
  | String "(" p =>
      match closing 0 p with
      | None => pperror ("unterminated reference to '" +:+ p +:+ "': missing ')'")
      | Some (clause, rest) => res ← eval_clause clause argv; mret (res, rest)
      end
  | _ => mret ("$"%string, s)
  end.

(** Up to a character that ends the text; each round takes a character. *)
Fixpoint expand_text (k : nat) (is_end : ascii -> bool) (s : string) (argv : list string) (out : string)
    : prog pp_world (string * string) :=
  match s, k with
  | EmptyString, _ => mret (out, s)
  | _, O => undef
  | String c r, S k =>
      if bool_decide (c = "$"%char) then
        '(expansion, rest) ← expand_dollar_with_args r argv;
        expand_text k is_end rest argv (out +:+ expansion)
      else if is_end c then mret (out, s)
      else expand_text k is_end r argv (out +:+ String c EmptyString)
  end.

Definition __expand_string (is_end : ascii -> bool) (s : string) (argv : list string) : prog pp_world (string * string) :=
  expand_text (String.length s) is_end s argv EmptyString.

Definition is_end_of_str (c : ascii) : bool := false.

Definition expand_string_with_args (s : string) (argv : list string) : prog pp_world string :=
  '(out, _) ← __expand_string is_end_of_str s argv; mret out.
End Text.

(** Clauses call the expansion of their parts. *)
Fixpoint eval_clause (n : nat) (str : string) (argv : list string) : prog pp_world string :=
  match n with
  | O => undef
  | S n => eval_body (expand_string_with_args (eval_clause n)) str argv
  end.

Section Entry.
Context (fuel : nat).

Definition expand_string (s : string) : prog pp_world string := expand_string_with_args (eval_clause fuel) s [].

Definition expand_dollar (s : string) : prog pp_world (string * string) := expand_dollar_with_args (eval_clause fuel) s [].

Definition is_end_of_token (c : ascii) : bool :=
  negb (isalnum c || bool_decide (c = "_"%char) || bool_decide (c = "-"%char) || bool_decide (c = "."%char) ||
        bool_decide (c = "/"%char)).

Definition expand_one_token (s : string) : prog pp_world (string * string) :=
  __expand_string (eval_clause fuel) is_end_of_token s [].

Definition variable_add (name value : string) (flavor : variable_flavor) : prog pp_world unit :=
  w ← get_st;
  '(flavor, append) ←
    match variable_lookup name (variable_list w) with
    | Some v =>
        if bool_decide (flavor = VAR_APPEND) then mret (vflavor v, true)
        else put_variable name (put_value None);; mret (flavor, false)
    | None =>
        let flavor := if bool_decide (flavor = VAR_APPEND) then VAR_RECURSIVE else flavor in
        modify (fun w => set_variables (variable_list w ++ [MkVariable name None flavor 0]) w);;
        mret (flavor, false)
    end;
  put_variable name (put_flavor flavor);;
  new_value ← (if bool_decide (flavor = VAR_SIMPLE) then expand_string value else mret value);
  if append : bool then
    w ← get_st;
    v ← defined (variable_lookup name (variable_list w));
    old ← defined (vvalue v);
    put_variable name (put_value (Some (old +:+ " " +:+ new_value)))
  else put_variable name (put_value (Some new_value)).

Definition variable_all_del : prog pp_world unit := modify (set_variables []).
End Entry.
End Preprocess.

(** An environment for the examples. *)
Module Demo.
Open Scope string_scope.
Definition getenv (s : string) : option string := if bool_decide (s = "ARCH") then Some "mips" else None.
Definition popen (s : string) : string + string := inr (s +:+ newline).
Definition plain : variable := MkVariable "A" (Some "x") VAR_SIMPLE 0.
Definition func : variable := MkVariable "f" (Some "[$(2)|$(1)]") VAR_RECURSIVE 0.
Definition loop : variable := MkVariable "g" (Some "$(g,$(ARCH))") VAR_RECURSIVE 0.
Definition world : pp_world := PpWorld [] [plain; func; loop] [].
End Demo.
