(* ===== verification/KPreProofs.v ===== *)
(** * The expansion ends

    A program logic in the manner of a typing judgement: [takes L p L' Q] says that [p],
    run with the variables [L], returns a value in [Q] and the variables [L'], or ends the
    program with the status 1; it is undefined only if [U] allows that. With it the fuel
    that the expansion needs is bounded. *)

From Stdlib Require Import ZArith Lia String Ascii.
From stdpp Require Import base list strings numbers option pretty.
From S2P Require Import Prelude CString KPre.

(** ** Lengths *)

Lemma closing_length nest s c r :
  closing nest s = Some (c, r) -> (String.length c + S (String.length r) = String.length s)%nat.
Proof.
  revert nest c r. induction s as [|x s IH]; intros nest c r; [done|]. cbn [closing String.length].
  assert (Hcons : forall n, prod_map (String x) id <$> closing n s = Some (c, r) ->
    (String.length c + S (String.length r) = S (String.length s))%nat).
  { intros n H. destruct (closing n s) as [[c' r']|] eqn:E; [|done]. cbn in H. injection H as <- <-.
    cbn. by rewrite (IH _ _ _ E). }
  repeat case_bool_decide; [apply Hcons| |apply Hcons]. destruct nest; [|apply Hcons]. by intros [= <- <-].
Qed.

Lemma split_args_length nest prev s :
  Forall (fun t => String.length t <= String.length prev + String.length s)%nat (split_args nest prev s).
Proof.
  revert nest prev. induction s as [|x s IH]; intros nest prev; cbn [split_args String.length].
  { constructor; [lia|constructor]. }
  destruct (_ && _).
  - constructor; [lia|]. eapply Forall_impl; [apply IH|]. cbn. intros t. lia.
  - eapply Forall_impl; [apply IH|]. cbn. intros t. rewrite length_string_app. cbn. lia.
Qed.

Lemma split_args_cons nest prev s : exists t l, split_args nest prev s = t :: l.
Proof. revert nest prev. induction s; intros nest prev; cbn; [eauto|]. destruct (_ && _); eauto. Qed.

(** ** The variables *)

Lemma change_variable_id name l :
  change_variable name (count (-1)) (change_variable name (count 1) l) = l.
Proof.
  induction l as [|v l IH]; [done|]. cbn. case_bool_decide as E; cbn.
  - rewrite bool_decide_eq_true_2 by done. f_equal. unfold count. destruct v; cbn. f_equal. lia.
  - rewrite bool_decide_eq_false_2 by done. by rewrite IH.
Qed.

(** How often the variables can still be expanded. *)
Definition budget (l : list variable) : nat := sum_list ((fun v => Z.to_nat (1001 - exp_count v)) <$> l).

(** The length of the longest value. *)
Definition longest (l : list variable) : nat :=
  max_list ((fun v => match vvalue v with Some x => String.length x | None => O end) <$> l).

Definition has_value (m : nat) (v : variable) : Prop := exists x, vvalue v = Some x /\ (String.length x <= m)%nat.

Lemma budget_count name l v :
  variable_lookup name l = Some v -> exp_count v <= 1000 -> budget l = S (budget (change_variable name (count 1) l)).
Proof.
  unfold variable_lookup, budget. induction l as [|u l IH]; [done|]. cbn. case_bool_decide; intros E Hv; cbn.
  - injection E as ->. lia.
  - rewrite (IH E Hv). cbn. lia.
Qed.

Lemma change_variable_forall (P : variable -> Prop) name f l :
  (forall v, P v -> P (f v)) -> Forall P l -> Forall P (change_variable name f l).
Proof. intros Hf H. induction H as [|v l Hv H IH]; cbn; [constructor|]. case_bool_decide; constructor; auto. Qed.

Lemma variable_lookup_in name l v : variable_lookup name l = Some v -> v ∈ l /\ vname v = name.
Proof. intros [Hin E]%find_some. case_bool_decide; [|done]. split; [by apply list_elem_of_In|done]. Qed.

(** ** The logic *)

Section Logic.
Context (getenv : string -> option string) (U : Prop).

(** Each variable of the environment is recorded once, with its value. *)
Definition env_ok (l : list (string * string)) : Prop := NoDup l.*1 /\ Forall (fun e => getenv e.1 = Some e.2) l.

(** The state, reached from [w0]. *)
Definition from (w0 : pp_world) (l : list variable) (w : pp_world) : Prop :=
  variable_list w = l /\ env_ok (env_list w) /\ env_list w0 `prefix_of` env_list w /\
  printed w0 `suffix_of` printed w.

Definition takes {A} (l : list variable) (p : prog pp_world A) (l' : list variable) (Q : A -> Prop) : Prop :=
  forall w0 w, from w0 l w ->
  match p w with Ret a w' => Q a /\ from w0 l' w' | Exit c _ => c = 1 | Undef => U end.

Lemma takes_bind {A B} l l' l'' (p : prog pp_world A) (f : A -> prog pp_world B) Q R :
  takes l p l' Q -> (forall a, Q a -> takes l' (f a) l'' R) -> takes l (p ≫= f) l'' R.
Proof.
  intros Hp Hf w0 w Hw. specialize (Hp w0 w Hw). unfold mbind, prog_bind.
  destruct (p w) as [a w'|c w'|]; [|done|done]. destruct Hp as [HQ Hw']. by apply Hf.
Qed.

Lemma takes_ret {A} l (a : A) (Q : A -> Prop) : Q a -> takes l (mret a) l Q.
Proof. intros H w0 w Hw. by split. Qed.

Lemma takes_get {B} l l' (f : pp_world -> prog pp_world B) R :
  (forall w, variable_list w = l -> env_ok (env_list w) -> takes l (f w) l' R) -> takes l (get_st ≫= f) l' R.
Proof. intros H w0 w Hw. destruct Hw as (Hl & He & Hw). by apply (H w Hl He w0 w). Qed.

Lemma takes_undef {A} l l' (Q : A -> Prop) : U -> takes l undef l' Q.
Proof. by intros H w0 w _. Qed.

Lemma takes_defined {A} l (o : option A) (Q : A -> Prop) :
  U \/ o <> None -> (forall a, o = Some a -> Q a) -> takes l (defined o) l Q.
Proof.
  intros Ho H. destruct o as [a|]; [by apply takes_ret, H|]. destruct Ho as [Hu|]; [|done]. by apply takes_undef.
Qed.

Lemma takes_weak {A} l (p : prog pp_world A) l' (Q R : A -> Prop) :
  takes l p l' Q -> (forall a, Q a -> R a) -> takes l p l' R.
Proof. intros H HQ w0 w Hw. specialize (H w0 w Hw). destruct (p w); [|done|done]. destruct H. auto. Qed.

Lemma takes_true {A} l (p : prog pp_world A) l' Q : takes l p l' Q -> takes l p l' (fun _ => True).
Proof. intros H. by eapply takes_weak. Qed.

Lemma takes_say l t : takes l (say t) l (fun _ => True).
Proof. intros w0 w (Hl & He & Hp & Hs). split; [done|]. split; [done|]. split; [done|]. split; [done|]. by apply suffix_cons_r. Qed.

Lemma takes_exit {A} l l' (Q : A -> Prop) : takes l (exit_with 1) l' Q.
Proof. by intros w0 w _. Qed.

Lemma takes_error {A} file line l t l' (Q : A -> Prop) : takes l (pperror file line t) l' Q.
Proof. eapply takes_bind; [apply takes_say|]. intros _ _. apply takes_exit. Qed.

Lemma takes_put name f l : takes l (put_variable name f) (change_variable name f l) (fun _ => True).
Proof. intros w0 w (<- & Hw). by repeat split; try apply Hw. Qed.

Lemma env_lookup_none name l : env_lookup name l = None -> name ∉ l.*1.
Proof.
  unfold env_lookup. destruct (List.find _ l) as [e|] eqn:E; [done|]. intros _ [e [-> He]]%list_elem_of_fmap.
  apply list_elem_of_In in He. pose proof (find_none _ _ E e He) as H. cbn in H. by rewrite bool_decide_eq_true_2 in H.
Qed.

Lemma takes_env_expand name l : takes l (env_expand getenv name) l (fun _ => True).
Proof.
  destruct name as [|c r]; [by apply takes_ret|].
  intros w0 w (Hl & He & Hp & Hs). unfold env_expand, mbind, prog_bind, get_st. set (name := String c r) in *.
  destruct (env_lookup name (env_list w)) eqn:E; [done|].
  destruct (getenv name) eqn:Eg; [|done].
  cbn. split; [done|]. split; [done|]. split; [|split; [by apply prefix_app_r|done]].
  apply env_lookup_none in E. destruct He as [Hnd Hall]. split; cbn.
  - rewrite fmap_app. apply NoDup_app. split; [done|]. split; [|apply NoDup_singleton].
    intros x Hx. cbn. intros ->%list_elem_of_singleton. done.
  - apply Forall_app. split; [done|]. by repeat constructor.
Qed.
End Logic.

Section Safety.
Context (getenv : string -> option string) (popen : string -> string + string) (current_file : string) (yylineno ulong : Z) (U : Prop).

#[local] Abbreviation function_expand := (function_expand popen current_file yylineno).
#[local] Abbreviation variable_expand := (variable_expand current_file yylineno).
#[local] Abbreviation eval_body := (eval_body getenv popen current_file yylineno ulong).
#[local] Abbreviation eval_clause := (eval_clause getenv popen current_file yylineno ulong).
#[local] Abbreviation expand_dollar_with_args := (expand_dollar_with_args current_file yylineno).
#[local] Abbreviation expand_text := (expand_text current_file yylineno).
#[local] Abbreviation expand_string_with_args := (expand_string_with_args current_file yylineno).
#[local] Abbreviation expand_string := (expand_string getenv popen current_file yylineno ulong).
#[local] Abbreviation takes := (takes getenv U).

Lemma takes_shell l cmd argv : takes l (do_shell popen (cmd :: argv)) l (fun _ => True).
Proof.
  cbn. destruct (popen cmd); [|by apply takes_ret].
  eapply takes_bind; [apply takes_say|]. intros _ _. apply takes_exit.
Qed.

Lemma takes_function f l argv :
  List.In f (function_table popen current_file yylineno) -> (min_args f <= length argv <= max_args f)%nat ->
  takes l (func f argv) l (fun _ => True).
Proof.
  intros Hf Hn. unfold function_table in Hf. repeat (destruct Hf as [<-|Hf]); [..|done]; cbn in Hn |- *.
  - destruct argv as [|c [|t [|]]]; cbn in Hn |- *; try lia.
    case_bool_decide; [apply takes_error|by apply takes_ret].
  - by apply takes_ret.
  - destruct argv; cbn in Hn |- *; [lia|].
    eapply takes_bind; [apply takes_say|]. intros _ _. by apply takes_ret.
  - by apply takes_ret.
  - destruct argv; cbn in Hn; [lia|]. apply takes_shell.
  - destruct argv as [|c [|t [|]]]; cbn in Hn |- *; try lia.
    eapply takes_bind; [|intros _ _; by apply takes_ret].
    case_bool_decide; [apply takes_say|by apply takes_ret].
Qed.

Lemma takes_function_expand l name argv : takes l (function_expand name argv) l (fun _ => True).
Proof.
  unfold KPre.function_expand. destruct (List.find _ _) as [f|] eqn:E; [|by apply takes_ret].
  apply find_some in E as [Hf _].
  destruct (Nat.ltb_spec (length argv) (min_args f)); [apply takes_error|].
  destruct (Nat.ltb_spec (max_args f) (length argv)); [apply takes_error|].
  eapply takes_bind; [by apply takes_function|]. intros r _. by apply takes_ret.
Qed.

(** ** Variables *)

Section Expand.
Context (m : nat) (expand : string -> list string -> prog pp_world string).

(** A value is expanded. *)
Definition expands (l : list variable) : Prop :=
  forall s argv, U \/ (String.length s <= m)%nat -> takes l (expand s argv) l (fun _ => True).

Lemma takes_variable_expand l name argv :
  U \/ Forall (has_value m) l ->
  (forall v, variable_lookup name l = Some v -> exp_count v <= 1000 -> expands (change_variable name (count 1) l)) ->
  takes l (variable_expand expand name argv) l (fun _ => True).
Proof.
  intros Hl He. apply takes_get. intros w Hw _. rewrite Hw.
  destruct (variable_lookup name l) as [v|] eqn:E; [|by apply takes_ret].
  destruct (_ && _); [apply takes_error|]. destruct (Z.ltb_spec 1000 (exp_count v)); [apply takes_error|].
  eapply takes_bind; [apply takes_put|]. intros _ _.
  destruct (variable_lookup_in _ _ _ E) as [Hin _].
  assert (Hx : U \/ exists x, vvalue v = Some x /\ (String.length x <= m)%nat).
  { destruct Hl as [Hl|Hl]; [by left|right]. by apply (proj1 (Forall_forall _ l) Hl). }
  eapply (takes_bind _ _ _ _ _ _ _ (fun x => U \/ (String.length x <= m)%nat)).
  { apply takes_defined; [destruct Hx as [|(x & -> & _)]; auto|].
    intros y E'. destruct Hx as [|(x & E2 & Hx)]; [by left|right]. by simplify_eq. }
  intros x Hm. eapply takes_bind.
  { instantiate (1 := fun _ => True). case_bool_decide; [by apply (He v)|by apply takes_ret]. }
  intros res _. eapply takes_bind; [apply takes_put|]. intros _ _. rewrite change_variable_id. by apply takes_ret.
Qed.

Lemma takes_look_up l name argv :
  takes l (variable_expand expand name argv) l (fun _ => True) ->
  takes l (look_up getenv popen current_file yylineno expand name argv) l (fun _ => True).
Proof.
  intros Hv. eapply takes_bind; [done|]. intros [res|] _; [by apply takes_ret|].
  eapply takes_bind; [apply takes_function_expand|]. intros [res|] _; [by apply takes_ret|].
  eapply takes_bind; [|intros o _; by apply takes_ret].
  destruct argv; [apply takes_env_expand|by apply takes_ret].
Qed.

Lemma takes_expand_all l ts argv :
  Forall (fun t => takes l (expand t argv) l (fun _ => True)) ts ->
  takes l (expand_all expand ts argv) l (fun _ => True).
Proof.
  intros H. induction H as [|t ts Ht H IH]; cbn; [by apply takes_ret|].
  eapply takes_bind; [done|]. intros r _. eapply takes_bind; [done|]. intros rs _. by apply takes_ret.
Qed.

Lemma takes_eval_body l str argv :
  (forall t, (String.length t <= String.length str)%nat -> takes l (expand t argv) l (fun _ => True)) ->
  (forall name args, takes l (variable_expand expand name args) l (fun _ => True)) ->
  takes l (eval_body expand str argv) l (fun _ => True).
Proof.
  intros Ht Hv. unfold KPre.eval_body. destruct (argument _ _ _); [by apply takes_ret|].
  destruct (_ <? _)%nat; [apply takes_error|].
  pose proof (split_args_length 0 "" str) as Hlen. destruct (split_args_cons 0 "" str) as (t & ts & E). rewrite E in *.
  apply Forall_cons in Hlen as [H1 H2].
  eapply takes_bind; [by apply Ht|]. intros name _.
  eapply takes_bind; [|intros args _; by apply takes_look_up].
  apply takes_expand_all. eapply Forall_impl; [exact H2|]. intros u Hu. by apply Ht.
Qed.
End Expand.

(** ** Texts *)

Lemma takes_expand_text ec k e l s argv out :
  (String.length s <= k)%nat ->
  (forall c, (String.length c < String.length s)%nat -> takes l (ec c argv) l (fun _ => True)) ->
  takes l (expand_text ec k e s argv out) l (fun _ => True).
Proof.
  revert s out. induction k as [|k IH]; intros s out Hk Hc; destruct s as [|c r]; cbn in *; try lia; [by apply takes_ret..|].
  assert (Hrec : forall t o, (String.length t <= String.length r)%nat -> takes l (expand_text ec k e t argv o) l (fun _ => True)).
  { intros t o Ht. apply IH; [lia|]. intros u Hu. apply Hc. lia. }
  case_bool_decide.
  - eapply (takes_bind _ _ _ l _ _ _ (fun x => String.length x.2 <= String.length r)%nat).
    2: { intros [x rest] Hx. by apply Hrec. }
    destruct r as [|d p]; [by apply takes_ret|]. destruct (ascii_dec d "(") as [->|Hd].
    + cbn [KPre.expand_dollar_with_args]. destruct (closing 0 p) as [[clause rest]|] eqn:E; [|apply takes_error].
      apply closing_length in E. eapply takes_bind; [apply Hc; cbn; lia|].
      intros res _. apply takes_ret. cbn. lia.
    + replace (expand_dollar_with_args ec (String d p) argv)
        with (mret ("$"%string, String d p) : prog pp_world (string * string)); [by apply takes_ret|].
      destruct d as [[] [] [] [] [] [] [] []]; done.
  - destruct (e c); [by apply takes_ret|]. apply Hrec. lia.
Qed.

Lemma takes_expand_string ec l s argv :
  (forall c, (String.length c < String.length s)%nat -> takes l (ec c argv) l (fun _ => True)) ->
  takes l (expand_string_with_args ec s argv) l (fun _ => True).
Proof.
  intros H. eapply takes_bind; [by apply takes_expand_text|]. intros [out rest] _. by apply takes_ret.
Qed.

(** The fuel for a text of the given length. *)
Definition expand_fuel (n : nat) (l : list variable) : nat := (n + budget l * S (longest l))%nat.

Lemma takes_eval_clause m n l str argv :
  U \/ Forall (has_value m) l /\ (S (String.length str) + budget l * S m <= n)%nat ->
  takes l (eval_clause n str argv) l (fun _ => True).
Proof.
  revert l str argv. induction n as [|n IH]; intros l str argv H; cbn [KPre.eval_clause].
  { apply takes_undef. destruct H as [|[_ H]]; [done|lia]. }
  apply takes_eval_body.
  - intros t Ht. apply takes_expand_string. intros c Hc. apply IH. destruct H as [|[Hl Hn]]; [by left|right]. split; [done|lia].
  - intros name args. apply (takes_variable_expand m); [destruct H as [|[]]; auto|]. intros v Ev Hv s a Hs.
    pose proof (budget_count _ _ _ Ev Hv) as Hb. apply takes_expand_string. intros c Hc. apply IH.
    destruct H as [|[Hl Hn]]; [by left|]. destruct Hs as [|Hs]; [by left|right]. split.
    + by apply change_variable_forall.
    + rewrite Hb in Hn. lia.
Qed.

End Safety.

Section Fuel.
Context (getenv : string -> option string) (popen : string -> string + string) (current_file : string) (yylineno ulong : Z).

#[local] Abbreviation function_expand := (function_expand popen current_file yylineno).
#[local] Abbreviation variable_expand := (variable_expand current_file yylineno).
#[local] Abbreviation eval_body := (eval_body getenv popen current_file yylineno ulong).
#[local] Abbreviation eval_clause := (eval_clause getenv popen current_file yylineno ulong).
#[local] Abbreviation expand_dollar_with_args := (expand_dollar_with_args current_file yylineno).
#[local] Abbreviation expand_text := (expand_text current_file yylineno).
#[local] Abbreviation expand_string_with_args := (expand_string_with_args current_file yylineno).
#[local] Abbreviation expand_string := (expand_string getenv popen current_file yylineno ulong).
#[local] Abbreviation takes := (takes getenv False).

(** ** More fuel *)

(** [q] does what [p] does, unless that is undefined. *)
Definition extends {A} (p q : prog pp_world A) : Prop := forall w, p w <> Undef -> q w = p w.

Lemma extends_refl {A} (p : prog pp_world A) : extends p p.
Proof. done. Qed.

Lemma extends_bind {A B} (p q : prog pp_world A) (f g : A -> prog pp_world B) :
  extends p q -> (forall a, extends (f a) (g a)) -> extends (p ≫= f) (q ≫= g).
Proof.
  intros Hp Hf w. specialize (Hp w). unfold mbind, prog_bind in *. destruct (p w) eqn:E; intros H; [|by rewrite Hp..|done].
  rewrite Hp by done. by apply Hf.
Qed.

Lemma extends_eval_body e1 e2 str argv :
  (forall s a, extends (e1 s a) (e2 s a)) -> extends (eval_body e1 str argv) (eval_body e2 str argv).
Proof.
  intros He. unfold KPre.eval_body. destruct (argument _ _ _); [done|]. destruct (_ <? _)%nat; [done|].
  destruct (split_args _ _ _) as [|t ts]; [done|]. apply extends_bind; [apply He|]. intros name.
  apply extends_bind.
  { clear t. induction ts as [|t ts IH]; [done|]. cbn. apply extends_bind; [apply He|]. intros r.
    apply extends_bind; [apply IH|]. intros rs. apply extends_refl. }
  intros args. apply extends_bind; [|intros o; apply extends_refl]. apply extends_bind; [apply extends_refl|]. intros w.
  destruct (variable_lookup _ _); [|done]. destruct (_ && _); [done|]. destruct (_ <? _); [done|].
  apply extends_bind; [apply extends_refl|]. intros []. apply extends_bind; [apply extends_refl|]. intros x.
  apply extends_bind; [case_bool_decide; [apply He|apply extends_refl]|]. intros. apply extends_refl.
Qed.

Lemma extends_expand_text c1 c2 k e s argv out :
  (forall s a, extends (c1 s a) (c2 s a)) -> extends (expand_text c1 k e s argv out) (expand_text c2 k e s argv out).
Proof.
  intros Hc. revert s out. induction k as [|k IH]; intros s out; destruct s as [|c r]; cbn; [done..|].
  case_bool_decide; [|destruct (e c); [done|apply IH]].
  apply extends_bind; [|intros [x rest]; apply IH].
  destruct r as [|[[] [] [] [] [] [] [] []] p]; try apply extends_refl. cbn.
  destruct (closing 0 p) as [[clause rest]|]; [|apply extends_refl].
  apply extends_bind; [apply Hc|]. intros. apply extends_refl.
Qed.

Lemma extends_expand_string c1 c2 s argv :
  (forall s a, extends (c1 s a) (c2 s a)) -> extends (expand_string_with_args c1 s argv) (expand_string_with_args c2 s argv).
Proof. intros Hc. apply extends_bind; [by apply extends_expand_text|]. intros [out rest]. apply extends_refl. Qed.

Lemma extends_eval_clause n more str argv :
  (n <= more)%nat -> extends (eval_clause n str argv) (eval_clause more str argv).
Proof.
  revert more str argv. induction n as [|n IH]; intros [|more] str argv Hn; try lia; [by intros w []..|].
  cbn. apply extends_eval_body. intros s a. apply extends_expand_string. intros. apply IH. lia.
Qed.

(** ** The theorem *)

Lemma longest_values l : Forall (fun v => vvalue v <> None) l -> Forall (has_value (longest l)) l.
Proof.
  intros H. apply Forall_forall. intros v Hv. destruct (vvalue v) as [x|] eqn:E.
  - exists x. split; [done|]. unfold longest. apply max_list_elem_of_le, list_elem_of_fmap. exists v. by rewrite E.
  - by destruct (proj1 (Forall_forall _ l) H v Hv).
Qed.

(** C19. An expansion returns, with the fuel [expand_fuel], however the values refer to each
    other, or the program ends with the status 1; it never reads a value that is not there.
    The variables are as before, the environment's variables that were used are recorded
    once each with their values, and more fuel changes nothing. *)
Theorem expand_string_safe fuel s w :
  Forall (fun v => vvalue v <> None) (variable_list w) -> env_ok getenv (env_list w) ->
  (expand_fuel (String.length s) (variable_list w) <= fuel)%nat ->
  match expand_string fuel s w with
  | Ret _ w' =>
      variable_list w' = variable_list w /\ env_ok getenv (env_list w') /\
      env_list w `prefix_of` env_list w' /\ printed w `suffix_of` printed w'
  | Exit c _ => c = 1
  | Undef => False
  end /\ forall more, (fuel <= more)%nat -> expand_string more s w = expand_string fuel s w.
Proof.
  intros Hv He Hf.
  assert (Hs : takes (variable_list w) (expand_string fuel s) (variable_list w) (fun _ => True)).
  { apply takes_expand_string. intros c Hc. apply (takes_eval_clause _ _ _ _ _ _ (longest (variable_list w))).
    right. split; [by apply longest_values|unfold expand_fuel in Hf; lia]. }
  specialize (Hs w w). split.
  - destruct (expand_string fuel s w); [|by apply Hs..]. by apply Hs.
  - intros more Hm. apply extends_expand_string; [intros; by apply extends_eval_clause|].
    intros E. unfold KPre.expand_string in Hs. rewrite E in Hs. by apply Hs.
Qed.
End Fuel.

Lemma demo_env : env_ok Demo.getenv (env_list Demo.world).
Proof. split; constructor. Qed.

Lemma demo_values : Forall (fun v => vvalue v <> None) (variable_list Demo.world).
Proof. repeat constructor; done. Qed.

Definition demo_text : string := "$(f,$(A),p)$(ARCH)$(g,a)".

Definition demo_fuel (s : string) : nat := expand_fuel (String.length s) (variable_list Demo.world).

Lemma expand_string_safe_witness :
  match expand_string Demo.getenv Demo.popen "Kconfig" 7 64 (demo_fuel demo_text) demo_text Demo.world with
  | Ret _ w' => variable_list w' = variable_list Demo.world
  | Exit c _ => c = 1
  | Undef => False
  end.
Proof.
  pose proof (expand_string_safe Demo.getenv Demo.popen "Kconfig" 7 64 (demo_fuel demo_text) demo_text Demo.world
    demo_values demo_env (le_n _)) as H.
  destruct (expand_string _ _ _ _ _ _ _ _) as [r w'|c w'|].
  - exact (proj1 (proj1 H)).
  - exact (proj1 H).
  - exact (proj1 H).
Defined.
