(* ===== verification/KPreCalls.v ===== *)
(** * Calls of user-defined functions

    A call expands to the text of the function with the arguments in the places of their
    numbers. *)

From Stdlib Require Import ZArith Lia String Ascii.
From stdpp Require Import base list strings numbers option pretty.
From S2P Require Import Prelude CString KPre KPreProofs.

(** The open parentheses behind a text; none if it closes too many of them or has a comma
    outside of parentheses. *)
Fixpoint level (n : nat) (s : string) : option nat :=
  match s with
  | EmptyString => Some n
  | String c r =>
      if bool_decide (c = "("%char) then level (S n) r
      else if bool_decide (c = ")"%char) then match n with O => None | S n => level n r end
      else if bool_decide (c = ","%char) && (n =? 0)%nat then None
      else level n r
  end.

(** A name or an argument of a call. *)
Definition token (s : string) : Prop := level 0 s = Some O.

Fixpoint others (l : list string) : string :=
  match l with [] => EmptyString | s :: l => "," +:+ s +:+ others l end.

(** What stands between the parentheses of a call. *)
Definition clause (name : string) (args : list string) : string := name +:+ others args.

(** The text of a function: literal text and references to arguments. *)
Inductive piece := Lit (s : string) | Arg (i : nat).

Definition flat_piece (p : piece) : string :=
  match p with Lit s => s | Arg i => "$(" +:+ pretty i +:+ ")" end.

Definition flat (l : list piece) : string := foldr (fun p r => flat_piece p +:+ r) EmptyString l.

Definition piece_ok (n : nat) (p : piece) : Prop :=
  match p with Lit s => without "$" s | Arg i => (1 <= i <= n)%nat end.

Definition filled_piece (args : list string) (p : piece) : string :=
  match p with Lit s => s | Arg i => default EmptyString (args !! pred i) end.

Definition filled (args : list string) (l : list piece) : string :=
  foldr (fun p r => filled_piece args p +:+ r) EmptyString l.

(** ** Finding the parts *)

Lemma prod_map_id {A} (o : option (string * A)) : prod_map (append EmptyString) id <$> o = o.
Proof. by destruct o as [[a b]|]. Qed.

Lemma prod_map_cons {A} c s (o : option (string * A)) :
  prod_map (String c) id <$> (prod_map (append s) id <$> o) = prod_map (append (String c s)) id <$> o.
Proof. by destruct o as [[a b]|]. Qed.

Lemma closing_app n m a b : level n a = Some m -> closing n (a +:+ b) = prod_map (append a) id <$> closing m b.
Proof.
  revert n. induction a as [|c a IH]; intros n.
  - intros [= ->]. rewrite nil_app. by rewrite prod_map_id.
  - rewrite cons_app. cbn [level closing]. rewrite <- prod_map_cons.
    repeat case_bool_decide.
    + intros Hl. by rewrite (IH _ Hl).
    + destruct n; [done|]. intros Hl. by rewrite (IH _ Hl).
    + destruct (_ && _); [done|]. intros Hl. by rewrite (IH _ Hl).
    + cbn. intros Hl. by rewrite (IH _ Hl).
Qed.

Lemma closing_others l r : Forall token l -> closing 0 (others l +:+ ")" +:+ r) = Some (others l, r).
Proof.
  intros H. induction H as [|s l Hs H IH]; [done|]. cbn [others].
  rewrite !string_app_assoc, cons_app, nil_app. cbn [closing]. rewrite !bool_decide_eq_false_2 by done.
  by rewrite (closing_app 0 0 _ _ Hs), IH.
Qed.

Lemma closing_clause s l r : token s -> Forall token l -> closing 0 (clause s l +:+ ")" +:+ r) = Some (clause s l, r).
Proof.
  intros Hs Hl. unfold clause. by rewrite string_app_assoc, (closing_app 0 0 _ _ Hs), closing_others.
Qed.

Lemma closing_token s r : token s -> closing 0 (s +:+ ")" +:+ r) = Some (s, r).
Proof. intros Hs. pose proof (closing_clause s [] r Hs (Forall_nil_2 _)) as H. unfold clause in H. by rewrite string_app_nil in H. Qed.

Lemma split_args_app n m p a b :
  level n a = Some m -> split_args (Z.of_nat n) p (a +:+ b) = split_args (Z.of_nat m) (p +:+ a) b.
Proof.
  revert n p. induction a as [|c a IH]; intros n p; [intros [= ->]; by rewrite string_app_nil|].
  rewrite cons_app. cbn [level split_args]. change (String c a) with (String c EmptyString +:+ a). rewrite <- string_app_assoc.
  case_bool_decide as E1; [subst c|case_bool_decide as E2; [subst c|]].
  - rewrite (bool_decide_eq_false_2 ("("%char = ","%char)), andb_false_r by done. intros H.
    rewrite <- (IH _ _ H). f_equal. lia.
  - destruct n; [done|]. rewrite (bool_decide_eq_false_2 (")"%char = ","%char)), andb_false_r by done. intros H.
    rewrite <- (IH _ _ H). f_equal. lia.
  - destruct (bool_decide (c = ","%char)); cbn [andb]; [|rewrite andb_false_r; by apply IH].
    destruct n; [done|]. cbn. by apply IH.
Qed.

Lemma split_args_clause s l : token s -> Forall token l -> split_args 0 "" (clause s l) = s :: l.
Proof.
  intros Hs Hl. unfold clause. rewrite (split_args_app 0 0 _ _ _ Hs), nil_app. clear Hs. revert s.
  induction Hl as [|t l Ht Hl IH]; intros s; [done|].
  cbn [others]. rewrite cons_app, nil_app. cbn [split_args]. rewrite bool_decide_eq_true_2 by done. cbn [andb Z.of_nat Z.eqb].
  f_equal. rewrite <- (IH t). exact (split_args_app 0 0 EmptyString t (others l) Ht).
Qed.

(** ** Expanding the parts *)

(** Outside of functions numbers are names. *)
Lemma argument_none w s : argument w s [] = None.
Proof.
  unfold argument. destruct (strtoul _ _ _) as [x rest]. cbn [length].
  destruct (Z.ltb_spec 0 x), (Z.leb_spec x (Z.of_nat 0)); try lia; by rewrite ?andb_false_r.
Qed.

Section Calls.
Context (getenv : string -> option string) (popen : string -> string + string) (current_file : string) (yylineno ulong : Z).
Context (ulong_width : 32 <= ulong).

#[local] Abbreviation eval_body := (eval_body getenv popen current_file yylineno ulong).
#[local] Abbreviation eval_clause := (eval_clause getenv popen current_file yylineno ulong).
#[local] Abbreviation expand_text := (expand_text current_file yylineno).
#[local] Abbreviation expand_string_with_args := (expand_string_with_args current_file yylineno).
#[local] Abbreviation expand_string := (expand_string getenv popen current_file yylineno ulong).

Lemma rest_shorter ec s argv w : match expand_dollar_with_args current_file yylineno ec s argv w with Ret (_, r) _ => (String.length r <= String.length s)%nat | _ => True end.
Proof.
  destruct s as [|[[] [] [] [] [] [] [] []] p]; cbn; try lia.
  destruct (closing 0 p) as [[c r]|] eqn:E; [|done]. apply closing_length in E.
  unfold mbind, prog_bind. destruct (ec c argv w); cbn; [lia|done..].
Qed.

Lemma expand_text_more ec k k' e s argv out w :
  (String.length s <= k)%nat -> (String.length s <= k')%nat ->
  expand_text ec k e s argv out w = expand_text ec k' e s argv out w.
Proof.
  revert k' s out w. induction k as [|k IH]; intros [|k'] [|c r] out w Hk Hk'; cbn in *; try lia; try done.
  case_bool_decide; [|destruct (e c); [done|]; apply IH; lia].
  unfold mbind, prog_bind. pose proof (rest_shorter ec r argv w) as Hr.
  destruct (KPre.expand_dollar_with_args _ _ _ _ _ _) as [[x rest] w'| |]; [|done..]. apply IH; lia.
Qed.

Lemma expand_plain ec k a b argv out w :
  without "$" a -> (String.length (a +:+ b) <= k)%nat ->
  expand_text ec k is_end_of_str (a +:+ b) argv out w = expand_text ec k is_end_of_str b argv (out +:+ a) w.
Proof.
  revert k out. induction a as [|c a IH]; intros k out Ha Hk; [by rewrite nil_app, string_app_nil|].
  apply without_cons in Ha as [Hc Ha]. rewrite cons_app in *. cbn [String.length] in Hk. destruct k as [|k]; [lia|].
  cbn [KPre.expand_text]. rewrite bool_decide_eq_false_2 by done. cbn [is_end_of_str].
  rewrite IH by (done || lia). rewrite length_string_app in Hk. rewrite string_app_assoc.
  rewrite (expand_text_more ec k (S k)) by lia. reflexivity.
Qed.

Lemma expand_reference ec k e c r argv out w :
  closing 0 (c +:+ ")" +:+ r) = Some (c, r) -> (String.length ("$(" +:+ c +:+ ")" +:+ r) <= k)%nat ->
  expand_text ec k e ("$(" +:+ c +:+ ")" +:+ r) argv out w =
  (x ← ec c argv; expand_text ec k e r argv (out +:+ x)) w.
Proof.
  intros Hc Hk. change ("$(" +:+ c +:+ ")" +:+ r) with (String "$" (String "(" (c +:+ ")" +:+ r))) in *.
  assert (Hr : (String.length r <= String.length (c +:+ ")" +:+ r))%nat) by (apply closing_length in Hc; lia).
  cbn [String.length] in Hk. destruct k as [|k]; [lia|]. cbn [KPre.expand_text KPre.expand_dollar_with_args]. rewrite bool_decide_eq_true_2 by done.
  rewrite Hc. unfold mbind, prog_bind. destruct (ec c argv w) as [x w'| |]; [|done..].
  exact (expand_text_more ec k (S k) e r argv (out +:+ x) w' ltac:(lia) ltac:(lia)).
Qed.

Lemma expand_end ec k argv out w : expand_text ec k is_end_of_str EmptyString argv out w = Ret (out, EmptyString) w.
Proof. by destruct k. Qed.

(** ** The text of a function *)

Lemma number_token i : (i <= 15)%nat -> token (pretty i).
Proof. intros H. do 16 (destruct i as [|i]; [vm_compute; reflexivity|]). lia. Qed.

Lemma strto_number i : (i <= 15)%nat -> strto_parse (pretty i) 10 = Some (false, Z.of_nat i, EmptyString).
Proof. intros H. do 16 (destruct i as [|i]; [vm_compute; reflexivity|]). lia. Qed.

Lemma argument_number i argv :
  (1 <= i <= length argv)%nat -> (length argv <= 15)%nat -> argument ulong (pretty i) argv = argv !! pred i.
Proof.
  intros Hi Hn. unfold argument, strtoul. rewrite strto_number by lia.
  assert (2 ^ 32 <= 2 ^ ulong) by (apply Z.pow_le_mono_r; lia).
  destruct (Z.leb_spec (2 ^ ulong) (Z.of_nat i)); [lia|].
  rewrite bool_decide_eq_true_2 by done. destruct (Z.ltb_spec 0 (Z.of_nat i)); [|lia].
  destruct (Z.leb_spec (Z.of_nat i) (Z.of_nat (length argv))); [|lia]. cbn. f_equal. lia.
Qed.

Lemma eval_number n i argv w :
  (1 <= i <= length argv)%nat -> (length argv <= 15)%nat ->
  eval_clause (S n) (pretty i) argv w = Ret (filled_piece argv (Arg i)) w.
Proof.
  intros Hi Hn. cbn [KPre.eval_clause]. unfold KPre.eval_body. rewrite argument_number by done. cbn [filled_piece].
  destruct (lookup_lt_is_Some_2 argv (pred i)) as [x Hx]; [lia|]. by rewrite Hx.
Qed.

Lemma expand_pieces n k template argv out w :
  (length argv <= 15)%nat -> Forall (piece_ok (length argv)) template -> (String.length (flat template) <= k)%nat ->
  expand_text (eval_clause (S n)) k is_end_of_str (flat template) argv out w =
  Ret (out +:+ filled argv template, EmptyString) w.
Proof.
  intros Hn Ht. revert out. induction Ht as [|p l Hp Hl IH]; intros out Hk.
  { cbn [flat filled foldr]. by rewrite expand_end, string_app_nil. }
  cbn [flat filled foldr] in *. fold (flat l) (filled argv l) in *. rewrite length_string_app in Hk. destruct p as [s|i].
  - cbn [flat_piece filled_piece piece_ok] in *. rewrite expand_plain by (done || (rewrite length_string_app; lia)).
    rewrite IH by lia. by rewrite string_app_assoc.
  - cbn [flat_piece piece_ok] in *. rewrite !string_app_assoc. rewrite expand_reference.
    + unfold mbind, prog_bind. rewrite eval_number by lia. rewrite IH by lia. by rewrite string_app_assoc.
    + apply closing_token, number_token. lia.
    + rewrite !length_string_app in *. lia.
Qed.

Lemma expand_template n template argv w :
  (length argv <= 15)%nat -> Forall (piece_ok (length argv)) template ->
  expand_string_with_args (eval_clause (S n)) (flat template) argv w = Ret (filled argv template) w.
Proof.
  intros Hn Ht. unfold KPre.expand_string_with_args, KPre.__expand_string, mbind, prog_bind.
  by rewrite expand_pieces by done.
Qed.

(** ** The call *)

Lemma set_variables_same w l : l = variable_list w -> set_variables l w = w.
Proof. intros ->. by destruct w. Qed.

(** The parts of the call, expanded in their order. *)
Definition expand_tokens (fuel : nat) (tokens : list string) : prog pp_world (list string) :=
  expand_all (expand_string_with_args (eval_clause fuel)) tokens [].

(** The variable is a function with this text that can be called. *)
Definition callable (v : variable) (template : list piece) (args : list string) : Prop :=
  vflavor v = VAR_RECURSIVE /\ vvalue v = Some (flat template) /\ Forall (piece_ok (length args)) template /\
  (args = [] -> exp_count v = 0) /\ exp_count v <= 1000.

Lemma variable_expand_call n name args template v w :
  (length args <= 15)%nat -> variable_lookup name (variable_list w) = Some v -> callable v template args ->
  variable_expand current_file yylineno (expand_string_with_args (eval_clause (S n))) name args w =
  Ret (Some (filled args template)) w.
Proof.
  intros Hn Hv (Hf & Hx & Ht & Hz & Hc). unfold variable_expand, mbind at 1, prog_bind at 1, get_st. rewrite Hv.
  replace (bool_decide (args = []) && negb (exp_count v =? 0)) with false.
  2: { case_bool_decide as E; [|done]. by rewrite (Hz E). }
  destruct (Z.ltb_spec 1000 (exp_count v)); [lia|]. rewrite Hx, Hf, bool_decide_eq_true_2 by done.
  unfold mbind, prog_bind, put_variable, modify. cbn [defined]. rewrite expand_template by done. cbn.
  f_equal. rewrite change_variable_id. by destruct w.
Qed.

Lemma expand_all_length (e : string -> list string -> prog pp_world string) l argv w rs w' :
  expand_all e l argv w = Ret rs w' -> length rs = length l.
Proof.
  revert w rs. induction l as [|s l IH]; intros w rs; cbn; [by intros [= <- _]|].
  unfold mbind, prog_bind, mret, prog_ret. destruct (e s argv w) as [r w1| |]; [|done..].
  destruct (expand_all e l argv w1) as [rs' w2| |] eqn:E; [|done..]. intros [= <- <-]. cbn. by rewrite (IH _ _ E).
Qed.

Lemma eval_call n text texts name args template v w w' :
  token text -> Forall token texts -> (length texts <= 15)%nat ->
  expand_tokens (S n) (text :: texts) w = Ret (name :: args) w' ->
  variable_lookup name (variable_list w') = Some v -> callable v template args ->
  eval_clause (S (S n)) (clause text texts) [] w = Ret (filled args template) w'.
Proof.
  intros Ht Hts Hn Hexp Hv Hc.
  assert (Ha : length args = length texts) by (apply expand_all_length in Hexp; cbn in Hexp; lia).
  change (eval_clause (S (S n))) with (eval_body (expand_string_with_args (eval_clause (S n)))).
  unfold KPre.eval_body. rewrite argument_none, split_args_clause by done. destruct (Nat.ltb_spec FUNCTION_MAX_ARGS (length (text :: texts))) as [Hx|_].
  { unfold FUNCTION_MAX_ARGS in Hx. cbn in Hx. lia. }
  unfold expand_tokens in Hexp. cbn [expand_all] in Hexp. unfold mbind, prog_bind, mret, prog_ret in Hexp |- *.
  destruct (KPre.expand_string_with_args _ _ _ text [] w) as [name' w1| |]; [|done..].
  destruct (expand_all _ texts [] w1) as [args' w2| |]; [|done..]. injection Hexp as -> -> ->.
  unfold look_up, mbind, prog_bind. by rewrite (variable_expand_call _ _ _ template v) by (done || lia).
Qed.

(** C20. A call of a function, with any parts that expand to the name of the function and to the
    arguments, is replaced by the text of the function with the arguments in place of their
    numbers; the text around it stays, and expanding the parts is the only effect. *)
Theorem expand_call n pre post text texts name args template v w w' :
  without "$" pre -> without "$" post -> token text -> Forall token texts -> (length texts <= 15)%nat ->
  expand_tokens (S n) (text :: texts) w = Ret (name :: args) w' ->
  variable_lookup name (variable_list w') = Some v -> callable v template args ->
  expand_string (S (S n)) (pre +:+ ("$(" +:+ clause text texts +:+ ")" +:+ post)) w =
  Ret (pre +:+ filled args template +:+ post) w'.
Proof.
  intros Hpre Hpost Ht Hts Hn Hexp Hv Hc.
  unfold KPre.expand_string, KPre.expand_string_with_args, __expand_string, mbind, prog_bind.
  rewrite expand_plain by done. rewrite expand_reference.
  - unfold mbind, prog_bind. rewrite (eval_call n text texts name args template v w w') by done.
    rewrite <- (string_app_nil post) at 2. rewrite expand_plain.
    + rewrite expand_end, nil_app. by rewrite string_app_assoc.
    + done.
    + rewrite string_app_nil, !length_string_app. lia.
  - by apply closing_clause.
  - rewrite (length_string_app pre). lia.
Qed.
End Calls.

Lemma demo_tokens :
  expand_tokens Demo.getenv Demo.popen "Kconfig" 7 64 3 ["f"; "$(A)"; "p(q,r)"]%string Demo.world =
  Ret ["f"; "x"; "p(q,r)"]%string Demo.world.
Proof. vm_compute. reflexivity. Qed.

Lemma expand_call_witness :
  expand_string Demo.getenv Demo.popen "Kconfig" 7 64 4 "a $(f,$(A),p(q,r)) b" Demo.world =
  Ret "a [p(q,r)|x] b"%string Demo.world.
Proof.
  refine (expand_call Demo.getenv Demo.popen "Kconfig" 7 64 _ 2 "a " " b" "f" ["$(A)"; "p(q,r)"]%string "f"
    ["x"; "p(q,r)"]%string [Lit "["; Arg 2; Lit "|"; Arg 1; Lit "]"] Demo.func Demo.world Demo.world _ _ _ _ _ demo_tokens _ _).
  - lia.
  - repeat constructor; done.
  - repeat constructor; done.
  - reflexivity.
  - repeat constructor.
  - cbn. lia.
  - reflexivity.
  - split; [reflexivity|]. split; [reflexivity|]. split; [|split; [done|cbn; lia]].
    repeat constructor; done.
Defined.
