(* ===== verification/KPreAssign.v ===== *)
(** * Assignments

    What [variable_add] leaves behind for each flavor, and the assignment that reads the
    value it has freed. *)

From Stdlib Require Import ZArith Lia String Ascii.
From stdpp Require Import base list strings numbers option pretty.
From S2P Require Import Prelude CString KPre KPreProofs KPreCalls.

(** The state between two lines: each name has one variable, with a value, that is not
    being expanded; the environment's variables that were used are recorded. *)
Record pp_ok (getenv : string -> option string) (w : pp_world) : Prop := {
  ok_values : Forall (fun v => vvalue v <> None) (variable_list w);
  ok_names : NoDup (vname <$> variable_list w);
  ok_counts : Forall (fun v => exp_count v = 0) (variable_list w);
  ok_env : env_ok getenv (env_list w)
}.

(** The flavor that the variable gets. *)
Definition flavor_of (o : option variable) (flavor : variable_flavor) : variable_flavor :=
  match flavor, o with
  | VAR_APPEND, Some v => vflavor v
  | VAR_APPEND, None => VAR_RECURSIVE
  | _, _ => flavor
  end.

(** The variables while the text is expanded: one that is given a new value has none. *)
Definition declared (name : string) (flavor : variable_flavor) (l : list variable) : list variable :=
  match variable_lookup name l, flavor with
  | Some _, VAR_APPEND => l
  | Some _, _ => change_variable name (put_flavor flavor) (change_variable name (put_value None) l)
  | None, _ => l ++ [MkVariable name None (flavor_of None flavor) 0]
  end.

(** What is stored for the text. *)
Definition stored (o : option variable) (flavor : variable_flavor) (text : string) : string :=
  match flavor, o with
  | VAR_APPEND, Some v => default EmptyString (vvalue v) +:+ " " +:+ text
  | _, _ => text
  end.

(** ** The list of variables *)

Lemma lookup_change name n f l :
  (forall v, vname (f v) = vname v) ->
  variable_lookup n (change_variable name f l) =
  if decide (n = name) then f <$> variable_lookup name l else variable_lookup n l.
Proof.
  intros Hf. unfold variable_lookup. induction l as [|v l IH]; cbn; [by destruct (decide _)|].
  case_bool_decide as E; cbn.
  - rewrite Hf, E. destruct (decide (n = name)) as [->|Hn]; [by rewrite bool_decide_eq_true_2|].
    by rewrite !(bool_decide_eq_false_2 (name = n)) by done.
  - destruct (decide (n = name)) as [->|Hn]; [by rewrite bool_decide_eq_false_2|]. case_bool_decide; [done|apply IH].
Qed.

Lemma lookup_snoc n v l :
  variable_lookup n (l ++ [v]) = match variable_lookup n l with Some u => Some u | None => if decide (n = vname v) then Some v else None end.
Proof.
  unfold variable_lookup. induction l as [|u l IH]; cbn.
  - case_bool_decide as E; destruct (decide _); congruence.
  - case_bool_decide; [done|apply IH].
Qed.

Lemma change_snoc name f v l :
  variable_lookup name l = None -> vname v = name -> change_variable name f (l ++ [v]) = l ++ [f v].
Proof.
  unfold variable_lookup. intros H Hv. induction l as [|u l IH]; cbn in *.
  - by rewrite bool_decide_eq_true_2.
  - case_bool_decide; [done|]. by rewrite IH.
Qed.

Lemma change_same name f v l : variable_lookup name l = Some v -> f v = v -> change_variable name f l = l.
Proof.
  unfold variable_lookup. intros H Hv. induction l as [|u l IH]; cbn in *; [done|].
  case_bool_decide; [by injection H as ->; rewrite Hv|]. by rewrite IH.
Qed.

Lemma change_names name f l : (forall v, vname (f v) = vname v) -> vname <$> change_variable name f l = vname <$> l.
Proof. intros Hf. induction l as [|v l IH]; cbn; [done|]. case_bool_decide; cbn; [by rewrite Hf|by f_equal]. Qed.

Lemma lookup_none name l : variable_lookup name l = None -> name ∉ vname <$> l.
Proof.
  unfold variable_lookup. intros H [v [-> Hv]]%list_elem_of_fmap. apply list_elem_of_In in Hv.
  pose proof (find_none _ _ H v Hv) as Hn. cbn in Hn. by rewrite bool_decide_eq_true_2 in Hn.
Qed.

(** The variables that the change leaves have [P] already. *)
Lemma change_establishes (P : variable -> Prop) name f l :
  NoDup (vname <$> l) -> Forall (fun v => vname v <> name -> P v) l -> (forall v, v ∈ l -> P (f v)) ->
  Forall P (change_variable name f l).
Proof.
  intros Hn Hl Hf. induction l as [|v l IH]; cbn in *; [constructor|].
  apply NoDup_cons in Hn as [Hv Hn]. apply Forall_cons in Hl as [Hp Hl]. case_bool_decide as E.
  - constructor; [apply Hf; constructor|]. apply Forall_forall. intros u Hu. apply (proj1 (Forall_forall _ l) Hl u Hu).
    intros Eu. apply Hv, list_elem_of_fmap. exists u. split; [congruence|done].
  - constructor; [by apply Hp|]. apply IH; [done|done|]. intros u Hu. apply Hf. by constructor.
Qed.

Lemma change_change name f g l :
  (forall v, vname (g v) = vname v) ->
  change_variable name f (change_variable name g l) = change_variable name (fun v => f (g v)) l.
Proof.
  intros Hg. induction l as [|v l IH]; cbn; [done|]. case_bool_decide as E; cbn.
  - by rewrite bool_decide_eq_true_2 by (by rewrite Hg).
  - rewrite bool_decide_eq_false_2 by done. by f_equal.
Qed.

(** The other variables have values. *)
Definition others_have (name : string) (l : list variable) : Prop :=
  Forall (fun v => vname v <> name -> vvalue v <> None) l.

Lemma others_change name f l : (forall v, vname (f v) = vname v) -> others_have name l -> others_have name (change_variable name f l).
Proof.
  intros Hf H. induction H as [|v l Hv H IH]; cbn; [constructor|]. case_bool_decide; constructor; [by rewrite Hf|done..].
Qed.

(** ** The variables while the text is expanded *)

Record declares (name : string) (flavor : variable_flavor) (l l' : list variable) : Prop := {
  d_names : NoDup (vname <$> l');
  d_counts : Forall (fun v => exp_count v = 0) l';
  d_others : others_have name l';
  d_lookup : forall n, n <> name -> variable_lookup n l' = variable_lookup n l;
  d_name : exists v, variable_lookup name l' = Some v /\ vflavor v = flavor
}.

Lemma declares_change name flavor l u :
  NoDup (vname <$> l) -> Forall (fun v => exp_count v = 0) l -> others_have name l -> variable_lookup name l = Some u ->
  declares name flavor l (change_variable name (put_flavor flavor) (change_variable name (put_value None) l)).
Proof.
  intros Hn Hc Ho Hu. rewrite change_change by done. split.
  - by rewrite change_names.
  - by apply change_variable_forall.
  - by apply others_change.
  - intros n Hne. rewrite lookup_change by done. by rewrite decide_False.
  - rewrite lookup_change, decide_True, Hu by done. by eexists.
Qed.

Lemma declares_new name flavor l :
  NoDup (vname <$> l) -> Forall (fun v => exp_count v = 0) l -> others_have name l -> variable_lookup name l = None ->
  declares name flavor l (l ++ [MkVariable name None flavor 0]).
Proof.
  intros Hn Hc Ho Hu. split.
  - rewrite fmap_app. apply NoDup_app. split; [done|]. split; [|apply NoDup_singleton].
    intros n Hin. cbn. intros ->%list_elem_of_singleton. by apply (lookup_none name l).
  - apply Forall_app. by repeat constructor.
  - apply Forall_app. split; [done|]. by repeat constructor.
  - intros n Hne. rewrite lookup_snoc. destruct (variable_lookup n l); [done|]. by rewrite decide_False.
  - rewrite lookup_snoc, Hu. cbn. rewrite decide_True by done. by eexists.
Qed.

Lemma declared_declares getenv name flavor w :
  pp_ok getenv w ->
  declares name (flavor_of (variable_lookup name (variable_list w)) flavor) (variable_list w)
    (declared name flavor (variable_list w)).
Proof.
  intros [Hv Hn Hc _]. unfold declared. set (l := variable_list w) in *.
  assert (Ho : others_have name l) by (by eapply Forall_impl; [exact Hv|]).
  destruct (variable_lookup name l) as [u|] eqn:E; [|by apply declares_new].
  destruct flavor; [by eapply declares_change..|]. split; try done. by exists u.
Qed.

(** The value is stored. *)
Lemma stored_ok name flavor l l' x :
  declares name flavor l l' ->
  Forall (fun v => vvalue v <> None) (change_variable name (put_value (Some x)) l') /\
  NoDup (vname <$> change_variable name (put_value (Some x)) l') /\
  Forall (fun v => exp_count v = 0) (change_variable name (put_value (Some x)) l') /\
  (forall n, n <> name -> variable_lookup n (change_variable name (put_value (Some x)) l') = variable_lookup n l) /\
  exists v, variable_lookup name (change_variable name (put_value (Some x)) l') = Some v /\ vflavor v = flavor /\ vvalue v = Some x.
Proof.
  intros [Hn Hc Ho Hl (v & Hv & Hf)]. split; [by apply change_establishes|]. split; [by rewrite change_names|].
  split; [by apply change_variable_forall|]. split.
  - intros n Hne. rewrite lookup_change by done. rewrite decide_False by done. by apply Hl.
  - rewrite lookup_change, decide_True, Hv by done. by eexists.
Qed.

(** ** The assignment *)

Section Assign.
Context (getenv : string -> option string) (popen : string -> string + string) (current_file : string) (yylineno ulong : Z).
Context (fuel : nat).

#[local] Abbreviation expand_string := (expand_string getenv popen current_file yylineno ulong fuel).
#[local] Abbreviation variable_add := (variable_add getenv popen current_file yylineno ulong fuel).

(** The value of the text; only simple variables expand it now. *)
Definition assigned_text (flavor : variable_flavor) (value : string) : prog pp_world string :=
  if bool_decide (flavor = VAR_SIMPLE) then expand_string value else mret value.

(** The state in which it is expanded. *)
Definition while_assigned (name : string) (flavor : variable_flavor) (w : pp_world) : pp_world :=
  set_variables (declared name flavor (variable_list w)) w.

Lemma variable_add_starts name value flavor w :
  pp_ok getenv w ->
  variable_add name value flavor w =
  (new_value ← assigned_text (flavor_of (variable_lookup name (variable_list w)) flavor) value;
   if bool_decide (flavor = VAR_APPEND) && bool_decide (variable_lookup name (variable_list w) <> None) then
     w ← get_st;
     v ← defined (variable_lookup name (variable_list w));
     old ← defined (vvalue v);
     put_variable name (put_value (Some (old +:+ " " +:+ new_value)))
   else put_variable name (put_value (Some new_value))) (while_assigned name flavor w).
Proof.
  intros _. destruct w as [env l pr]. unfold KPre.variable_add, while_assigned, declared, mbind, prog_bind, get_st. cbn [variable_list].
  destruct (variable_lookup name l) as [u|] eqn:E; destruct flavor; cbn;
    rewrite ?change_snoc by done; try done.
  rewrite !bool_decide_eq_true_2 by done. cbn. by rewrite (change_same name (put_flavor (vflavor u)) u l E) by (by destruct u).
Qed.

Lemma assigned_from U flavor value w :
  env_ok getenv (env_list w) ->
  U \/ (flavor = VAR_SIMPLE -> Forall (fun v => vvalue v <> None) (variable_list w) /\
         (expand_fuel (String.length value) (variable_list w) <= fuel)%nat) ->
  match assigned_text flavor value w with
  | Ret _ w1 => from getenv w (variable_list w) w1
  | Exit c _ => c = 1
  | Undef => U
  end.
Proof.
  intros He Hf. assert (Hw : from getenv w (variable_list w) w) by (split; [done|]; split; [done|]; split; done).
  assert (Ht : takes getenv U (variable_list w) (assigned_text flavor value) (variable_list w) (fun _ => True)).
  { unfold assigned_text. case_bool_decide as Es; [|by apply takes_ret].
    apply takes_expand_string. intros c Hc. apply (takes_eval_clause _ _ _ _ _ _ (longest (variable_list w))).
    destruct Hf as [|Hf]; [by left|right]. destruct (Hf Es) as [Hv Hl].
    split; [by apply longest_values|unfold expand_fuel in Hl; lia]. }
  specialize (Ht w w Hw). destruct (assigned_text flavor value w); [by apply Ht|done..].
Qed.

Lemma store_step name flavor w text w1 :
  pp_ok getenv w -> variable_list w1 = declared name flavor (variable_list w) ->
  (if bool_decide (flavor = VAR_APPEND) && bool_decide (variable_lookup name (variable_list w) <> None) then
     w ← get_st;
     v ← defined (variable_lookup name (variable_list w));
     old ← defined (vvalue v);
     put_variable name (put_value (Some (old +:+ " " +:+ text)))
   else put_variable name (put_value (Some text))) w1 =
  Ret tt (set_variables (change_variable name
    (put_value (Some (stored (variable_lookup name (variable_list w)) flavor text))) (variable_list w1)) w1).
Proof.
  intros [Hv _ _ _] E. unfold declared in E. destruct (variable_lookup name (variable_list w)) as [u|] eqn:Eu.
  - destruct flavor; cbn in E |- *; [done..|]. rewrite bool_decide_eq_true_2 by done. unfold mbind, prog_bind, get_st.
    cbn beta iota delta [andb]. rewrite E, Eu. cbn [defined]. destruct (variable_lookup_in _ _ _ Eu) as [Hin _].
    assert (Hu : vvalue u <> None) by exact (proj1 (Forall_forall _ _) Hv u Hin).
    destruct (vvalue u); [|done]. cbn. unfold put_variable, modify. cbn. by rewrite E.
  - rewrite andb_false_r. by destruct flavor.
Qed.

(** After [name = value], [name := value] or [name += value] the variable has the flavor and
    the value of the manual: the text itself, or its expansion for a simple variable, behind
    the old value for [+=]; the other variables are as before and the state is well formed.
    Only an expansion can end the program, and only [:=] with a text that reads the value
    being replaced is undefined. *)
Theorem variable_add_spec name value flavor w :
  let o := variable_lookup name (variable_list w) in
  let w0 := while_assigned name flavor w in
  pp_ok getenv w -> (expand_fuel (String.length value) (variable_list w) <= fuel)%nat ->
  (flavor = VAR_SIMPLE -> expand_string value w0 <> Undef) ->
  match variable_add name value flavor w with
  | Ret _ w' =>
      pp_ok getenv w' /\
      (forall n, n <> name -> variable_lookup n (variable_list w') = variable_lookup n (variable_list w)) /\
      exists v text w1,
        variable_lookup name (variable_list w') = Some v /\ vflavor v = flavor_of o flavor /\
        vvalue v = Some (stored o flavor text) /\
        (if bool_decide (vflavor v = VAR_SIMPLE) then expand_string value w0 = Ret text w1 else text = value)
  | Exit c _ => c = 1 /\ flavor_of o flavor = VAR_SIMPLE
  | Undef => False
  end.
Proof.
  intros o w0 Hw Hfuel Hs. rewrite (variable_add_starts _ _ _ _ Hw). fold o w0.
  pose proof (declared_declares getenv name flavor w Hw) as Hd. fold o in Hd.
  assert (Ha : flavor <> VAR_SIMPLE -> flavor_of o flavor = VAR_SIMPLE -> variable_list w0 = variable_list w).
  { unfold w0, while_assigned, o, declared. cbn. destruct (variable_lookup name _), flavor; done. }
  pose proof (assigned_from (flavor = VAR_SIMPLE) (flavor_of o flavor) value w0 (ok_env _ _ Hw)) as Hf.
  pose proof (store_step name flavor w) as Hst. fold o in Hst. unfold mbind at 1, prog_bind at 1.
  assert (Hes : flavor_of o flavor = VAR_SIMPLE -> assigned_text (flavor_of o flavor) value = expand_string value).
  { intros E. unfold assigned_text. by rewrite E. }
  assert (Hem : flavor_of o flavor <> VAR_SIMPLE -> assigned_text (flavor_of o flavor) value = mret value).
  { intros E. unfold assigned_text. by rewrite bool_decide_eq_false_2. }
  assert (Hen : flavor = VAR_SIMPLE \/ (flavor_of o flavor = VAR_SIMPLE -> Forall (fun v => vvalue v <> None) (variable_list w0) /\
    (expand_fuel (String.length value) (variable_list w0) <= fuel)%nat)).
  { destruct (decide (flavor = VAR_SIMPLE)); [by left|right]. intros E. rewrite Ha by done. split; [apply Hw|done]. }
  specialize (Hf Hen). destruct (assigned_text (flavor_of o flavor) value w0) as [text w1|c w1|] eqn:Et.
  - destruct Hf as (E1 & He & _). rewrite (Hst text w1 Hw E1). clear Hst.
    destruct (stored_ok name _ _ _ (stored o flavor text) Hd) as (K1 & K2 & K3 & K4 & v & K5 & K6 & K7).
    change (variable_list w0) with (declared name flavor (variable_list w)) in E1. cbn. rewrite E1.
    split; [by split|]. split; [done|]. exists v, text, w1. split; [done|]. split; [done|]. split; [done|].
    rewrite K6. case_bool_decide as Es.
    + by rewrite (Hes Es) in Et.
    + rewrite (Hem Es) in Et. by injection Et.
  - destruct (decide (flavor_of o flavor = VAR_SIMPLE)) as [Es|Es]; [done|by rewrite (Hem Es) in Et].
  - apply (Hs Hf). rewrite Hes in Et; [done|]. by rewrite Hf.
Qed.
End Assign.

(** ** References to one variable *)

Lemma declared_none name l :
  Forall (fun v => exp_count v = 0) l ->
  exists v, variable_lookup name (declared name VAR_SIMPLE l) = Some v /\ exp_count v = 0 /\ vflavor v = VAR_SIMPLE /\ vvalue v = None.
Proof.
  intros Hc. unfold declared. destruct (variable_lookup name l) as [u|] eqn:E.
  - rewrite !lookup_change, !decide_True, E by done. eexists. split; [done|]. split; [|done].
    exact (proj1 (Forall_forall _ _) Hc u (proj1 (variable_lookup_in _ _ _ E))).
  - rewrite lookup_snoc, E. cbn. rewrite decide_True by done. by eexists.
Qed.

Section Reference.
Context (getenv : string -> option string) (popen : string -> string + string) (current_file : string) (yylineno ulong : Z).

#[local] Abbreviation eval_clause := (eval_clause getenv popen current_file yylineno ulong).
#[local] Abbreviation expand_string := (expand_string getenv popen current_file yylineno ulong).
#[local] Abbreviation expanded := (expand_string_with_args current_file yylineno).
#[local] Abbreviation variable_add := (variable_add getenv popen current_file yylineno ulong).

(** A name that stands for itself in a reference. *)
Definition plain_name (name : string) : Prop := token name /\ without "$" name.

Lemma expand_literal ec s argv w : without "$" s -> expanded ec s argv w = Ret s w.
Proof.
  intros Hs. unfold expand_string_with_args, __expand_string, mbind, prog_bind.
  rewrite <- (string_app_nil s) at 2. rewrite expand_plain by (rewrite ?string_app_nil; done). by rewrite expand_end.
Qed.

Lemma eval_name n name w :
  plain_name name ->
  eval_clause (S n) name [] w = look_up getenv popen current_file yylineno (expanded (eval_clause n)) name [] w.
Proof.
  intros [Ht Hd]. cbn [KPre.eval_clause]. unfold eval_body. rewrite argument_none.
  pose proof (split_args_clause name [] Ht (Forall_nil_2 _)) as Hs. unfold clause in Hs. rewrite string_app_nil in Hs.
  rewrite Hs. change (FUNCTION_MAX_ARGS <? length [name])%nat with false. unfold mbind, prog_bind. by rewrite expand_literal by done.
Qed.

Lemma expand_name n name post w :
  plain_name name -> without "$" post ->
  expand_string (S n) ("$(" +:+ name +:+ ")" +:+ post) w =
  (x ← look_up getenv popen current_file yylineno (expanded (eval_clause n)) name []; mret (x +:+ post)) w.
Proof.
  intros Hname Hpost. unfold KPre.expand_string, KPre.expand_string_with_args, __expand_string, mbind at 1, prog_bind at 1.
  rewrite expand_reference; [|by apply closing_token; destruct Hname|done].
  unfold mbind, prog_bind. rewrite (eval_name n name w Hname).
  destruct (look_up _ _ _ _ _ _ _ w) as [x w'| |]; [|done..].
  rewrite <- (string_app_nil post) at 2. rewrite expand_plain.
  - by rewrite expand_end, nil_app.
  - done.
  - rewrite string_app_nil, !length_string_app. lia.
Qed.

Lemma look_up_value n name v w :
  variable_lookup name (variable_list w) = Some v -> exp_count v = 0 -> vflavor v = VAR_SIMPLE ->
  look_up getenv popen current_file yylineno (expanded (eval_clause n)) name [] w =
  match vvalue v with Some x => Ret x w | None => Undef end.
Proof.
  intros Hv Hc Hf. unfold look_up, variable_expand, mbind, prog_bind, get_st. rewrite Hv, Hc. cbn. rewrite Hf.
  rewrite bool_decide_eq_false_2 by done. destruct (vvalue v) as [x|]; [|done]. cbn. rewrite change_variable_id. by destruct w.
Qed.

(** [name := $(name)text] of a simple variable: the text can be expanded, but the assignment
    frees the old value first, so the expansion reads freed memory; for a name that is not
    defined it reads a value that was never set. With [+=] the same text is fine. *)
Theorem variable_add_self n name post w :
  pp_ok getenv w -> plain_name name -> without "$" post ->
  variable_add (S n) name ("$(" +:+ name +:+ ")" +:+ post) VAR_SIMPLE w = Undef /\
  forall v x, variable_lookup name (variable_list w) = Some v -> vflavor v = VAR_SIMPLE -> vvalue v = Some x ->
    expand_string (S n) ("$(" +:+ name +:+ ")" +:+ post) w = Ret (x +:+ post) w /\
    variable_add (S n) name ("$(" +:+ name +:+ ")" +:+ post) VAR_APPEND w =
    Ret tt (set_variables (change_variable name (put_value (Some (x +:+ " " +:+ x +:+ post))) (variable_list w)) w).
Proof.
  intros Hw Hname Hpost.
  assert (He : forall v w', variable_lookup name (variable_list w') = Some v -> exp_count v = 0 -> vflavor v = VAR_SIMPLE ->
    expand_string (S n) ("$(" +:+ name +:+ ")" +:+ post) w' = match vvalue v with Some x => Ret (x +:+ post) w' | None => Undef end).
  { intros v w' Hv Hc Hf. rewrite expand_name by done. unfold mbind, prog_bind. rewrite (look_up_value _ _ v) by done.
    by destruct (vvalue v). }
  split.
  - rewrite (variable_add_starts _ _ _ _ _ _ _ _ _ _ Hw). unfold mbind, prog_bind, assigned_text. cbn [flavor_of].
    rewrite bool_decide_eq_true_2 by done.
    destruct (declared_none name (variable_list w) (ok_counts _ _ Hw)) as (v & Hv & Hc & Hf & Hx).
    rewrite (He v (while_assigned name VAR_SIMPLE w) Hv Hc Hf). by rewrite Hx.
  - intros v x Hv Hf Hx.
    assert (Hc : exp_count v = 0) by exact (proj1 (Forall_forall _ _) (ok_counts _ _ Hw) v (proj1 (variable_lookup_in _ _ _ Hv))).
    assert (Hx' := He v w Hv Hc Hf). rewrite Hx in Hx'. split; [done|].
    rewrite (variable_add_starts _ _ _ _ _ _ _ _ _ _ Hw). unfold mbind at 1, prog_bind at 1, assigned_text.
    rewrite Hv. cbn [flavor_of]. rewrite Hf, bool_decide_eq_true_2 by done.
    assert (while_assigned name VAR_APPEND w = w) as ->.
    { unfold while_assigned, declared. rewrite Hv. by destruct w. }
    rewrite Hx'. rewrite <- Hv, (store_step getenv name VAR_APPEND w) by (done || by (unfold declared; rewrite Hv)).
    by rewrite Hv; cbn; rewrite Hx.
Qed.
End Reference.

Lemma demo_world_ok : pp_ok Demo.getenv Demo.world.
Proof.
  split.
  - repeat constructor; done.
  - apply (bool_decide_unpack _). vm_compute. exact I.
  - repeat constructor.
  - split; constructor.
Qed.

Lemma variable_add_spec_witness :
  match variable_add Demo.getenv Demo.popen "Kconfig" 7 64 (demo_fuel "$(f,1,2)") "A" "$(f,1,2)" VAR_APPEND Demo.world with
  | Ret _ w' => pp_ok Demo.getenv w'
  | Exit c _ => c = 1
  | Undef => False
  end.
Proof.
  pose proof (variable_add_spec Demo.getenv Demo.popen "Kconfig" 7 64 (demo_fuel "$(f,1,2)") "A" "$(f,1,2)" VAR_APPEND Demo.world
    demo_world_ok (le_n _) ltac:(discriminate)) as H.
  destruct (variable_add _ _ _ _ _ _ _ _ _ _) as [u w'|c w'|].
  - exact (proj1 H).
  - exact (proj1 H).
  - exact H.
Defined.

Lemma variable_add_self_witness :
  variable_add Demo.getenv Demo.popen "Kconfig" 7 64 2 "A" "$(A) y" VAR_SIMPLE Demo.world = Undef.
Proof.
  refine (proj1 (variable_add_self Demo.getenv Demo.popen "Kconfig" 7 64 1 "A" " y" Demo.world demo_world_ok _ _)).
  - split; [reflexivity|]. repeat constructor; done.
  - repeat constructor; done.
Defined.
