(* ===== verification/Packet.v ===== *)
(** * Packets in memory

    What the packet-processing parts share: a pointer into a buffer is the list of
    the bytes from it to the end of the buffer, reading and writing there is
    undefined past that end, header fields are in network byte order, and the
    Internet checksum is what RFC 1071 says of it. *)

From Stdlib Require Import ZArith Lia.
From stdpp Require Import base list numbers option.
From S2P Require Import Prelude.

(** ** Reading *)

Definition peek (off n : nat) (m : list Z) : option (list Z) :=
  if (off + n <=? length m)%nat then Some (slice off n m) else None.
Definition peek8 (off : nat) (m : list Z) : option Z := m !! off.
(** [ntohs] and [ntohl] of a field. *)
Definition peek16 (off : nat) (m : list Z) : option Z := be_val <$> peek off 2 m.
Definition peek32 (off : nat) (m : list Z) : option Z := be_val <$> peek off 4 m.

(** ** Writing *)

(** Code that works on a buffer; [return -1] is [Exit (-1)]. *)
Abbreviation M := (prog (list Z)).

Definition poke (off : nat) (bs : list Z) : M unit := fun m =>
  if (off + length bs <=? length m)%nat then Ret tt (write off bs m) else Undef.
(** A field stored with [htons] or [htonl]. *)
Definition poke16 (off : nat) (z : Z) : M unit := poke off (be_bytes 2 z).
Definition poke32 (off : nat) (z : Z) : M unit := poke off (be_bytes 4 z).

Definition get (off n : nat) : M (list Z) := fun m =>
  match peek off n m with Some l => Ret l m | None => Undef end.
Definition get16 (off : nat) : M Z := l ← get off 2; mret (be_val l).

(** Assignment to the upper and lower half of a byte (bit fields). *)
Definition set_high (off : nat) (v : Z) : M unit :=
  l ← get off 1; poke off [Z.lor (Z.shiftl v 4) (Z.land (l !!! 0%nat) 15)].
Definition set_low (off : nat) (v : Z) : M unit :=
  l ← get off 1; poke off [Z.lor (Z.land (l !!! 0%nat) 240) v].

(** [memcpy(dst + off, src, n)]; a negative [int] becomes a huge [size_t]. *)
Definition copy (off : nat) (src : list Z) (n : Z) : M unit :=
  if n <? 0 then undef
  else l ← defined (peek 0 (Z.to_nat n) src); poke off l.

(** [n] bytes for a function that takes a length of type [int]; what the checksum
    functions make of a negative one is not documented. *)
Definition get_int (off : nat) (n : Z) : M (list Z) :=
  if n <? 0 then undef else get off (Z.to_nat n).

(** Code given the pointer [k] bytes further on. *)
Definition at_offset {A} (k : nat) (p : M A) : M A := fun m =>
  if (k <=? length m)%nat then
    match p (drop k m) with
    | Ret a m' => Ret a (take k m ++ m')
    | Exit c m' => Exit c (take k m ++ m')
    | Undef => Undef
    end
  else Undef.

Definition return_error {A} : M A := exit_with (-1).

(** ** The Internet checksum *)

(** Sum of the 16-bit words of a buffer as a host of byte order [e] loads them; a
    last single byte is followed by a zero. *)
Fixpoint word_sum (e : endian) (l : list Z) : Z :=
  match l with
  | [] => 0
  | [a] => load e [a; 0]
  | a :: b :: r => load e [a; b] + word_sum e r
  end.

(** The sum a receiver calculates over data with a correct checksum in it: zero in
    one's complement arithmetic, in network byte order. *)
Definition verifies (l : list Z) : Prop := word_sum BE l mod 65535 = 0.

(** The pseudo headers of IPv6 and IPv4. *)
Definition pseudo6 (s d : list Z) (len proto : Z) : list Z :=
  s ++ d ++ be_bytes 4 len ++ [0; 0; 0; proto].
Definition pseudo4 (s d : list Z) (len proto : Z) : list Z :=
  s ++ d ++ [0; proto] ++ be_bytes 2 len.

(** The checksum functions of the kernel, on the bytes of their buffers: the
    partial sum is opaque, the others return the [__sum16] to be stored. *)
Class Checksums := {
  csum_partial : list Z -> Z;
  csum_ipv6_magic : list Z -> list Z -> Z -> Z -> Z -> Z;
  csum_tcpudp_magic : list Z -> list Z -> Z -> Z -> Z -> Z;
  ip_fast_csum : list Z -> Z;
  ip_compute_csum : list Z -> Z
}.

(** [z] completes the sum of [l] to zero. *)
Definition completes (e : endian) (l : list Z) (z : Z) : Prop :=
  0 <= z < 65536 /\ (word_sum e l + z) mod 65535 = 0.

(** What the kernel documents of them. *)
Class ChecksumLaws (e : endian) `{Checksums} : Prop := {
  csum_ipv6_completes s d len proto data :
    length s = 16%nat -> length d = 16%nat ->
    completes e (pseudo6 s d len proto ++ data)
      (csum_ipv6_magic s d len proto (csum_partial data));
  csum_tcpudp_completes s d len proto data :
    length s = 4%nat -> length d = 4%nat ->
    completes e (pseudo4 s d len proto ++ data)
      (csum_tcpudp_magic s d len proto (csum_partial data));
  ip_fast_completes hdr : completes e hdr (ip_fast_csum hdr);
  ip_compute_completes data : completes e data (ip_compute_csum data)
}.
