(* ===== verification/Siit.v ===== *)
(** * SIIT: from IPv4 to IPv6

    Models [ip4_ip6] of [feeds/packages/net/siit/src/siit.c], the translation of one
    IPv4 packet. [src] and [dst] are buffers as in [Packet]; the result [-1] is
    [Exit (-1)], after which every caller frees the buffer. The recursion for the
    packet an ICMP error includes goes one level deep: an included ICMP packet is
    rejected before anything is translated. *)

From Stdlib Require Import ZArith Lia.
From stdpp Require Import base list numbers option.
From S2P Require Import Prelude Packet.

(** ** Constants *)

Definition TRANSLATED_PREFIX : Z := 0x0000ffff.
Definition MAPPED_PREFIX : Z := 0x0000ffff.
Definition IP4_IP6_HDR_DIFF : Z := 20.
Definition IP6_FRAGMENT_SIZE : Z := 8.

(** Of the kernel's headers. *)
Definition IP_DF : Z := 0x4000.
Definition IP_MF : Z := 0x2000.
Definition IP_OFFSET : Z := 0x1FFF.
Definition IPPROTO_ICMP : Z := 1.
Definition IPPROTO_TCP : Z := 6.
Definition IPPROTO_UDP : Z := 17.
Definition NEXTHDR_FRAGMENT : Z := 44.
Definition NEXTHDR_ICMP : Z := 58.

Definition ICMP_ECHOREPLY : Z := 0.
Definition ICMP_DEST_UNREACH : Z := 3.
Definition ICMP_ECHO : Z := 8.
Definition ICMP_TIME_EXCEEDED : Z := 11.
Definition ICMP_PARAMETERPROB : Z := 12.
Definition ICMPV6_DEST_UNREACH : Z := 1.
Definition ICMPV6_PKT_TOOBIG : Z := 2.
Definition ICMPV6_TIME_EXCEED : Z := 3.
Definition ICMPV6_PARAMPROB : Z := 4.
Definition ICMPV6_ECHO_REQUEST : Z := 128.
Definition ICMPV6_ECHO_REPLY : Z := 129.

(** ** The IPv4 header *)

Record iphdr := IpHdr {
  ihl : Z;
  tos : Z;
  tot_len : Z;
  id : Z;
  frag_off : Z;
  ttl : Z;
  protocol : Z;
  saddr : list Z;
  daddr : list Z
}.

(** The fields the translation reads; 16-bit ones after [ntohs]. *)
Definition read_iphdr (src : list Z) : option iphdr :=
  h ← peek 0 20 src;
  Some (IpHdr (Z.land (h !!! 0%nat) 15) (h !!! 1%nat) (be_val (slice 2 2 h)) (be_val (slice 4 2 h))
          (be_val (slice 6 2 h)) (h !!! 8%nat) (h !!! 9%nat) (slice 12 4 h) (slice 16 4 h)).

Definition hdr_len (h : iphdr) : Z := ihl h * 4.

Section Siit.
Context (e : endian) `{Checksums} (tos_ignore_flag : bool).

(** ** The IPv6 header and the fragment header *)

Definition nexthdr_of (h : iphdr) : Z :=
  if protocol h =? IPPROTO_ICMP then NEXTHDR_ICMP else protocol h.

(** "If DF == 1 && MF == 0 && Fragment Offset == 0 or this packet is ICMP included IP
    packet": [fr_flag], [new_tot_len] and [new_nexthdr]. *)
Definition fragment_header (h : iphdr) (include_flag : bool) : M (bool * Z * Z) :=
  if (frag_off h =? IP_DF) || include_flag then mret (false, tot_len h, nexthdr_of h)
  else
    poke 40 [nexthdr_of h];;
    poke16 42 (Z.shiftl (Z.land (frag_off h) IP_OFFSET) 3);;
    off ← get16 42;
    poke16 42 (Z.lor off (Z.shiftr (Z.land (frag_off h) IP_MF) 13));;
    poke32 44 (id h);;
    poke 41 [0];;
    mret (true, u16 (tot_len h + IP6_FRAGMENT_SIZE), NEXTHDR_FRAGMENT).

Definition traffic_class (h : iphdr) : M unit :=
  if tos_ignore_flag then set_low 0 0;; poke 1 [0]
  else
    set_low 0 (Z.shiftr (Z.land (tos h) 0xf0) 4);;
    poke 1 [u8 (Z.shiftl (Z.land (tos h) 0x0f) 4)].

(** An IPv4 address behind a 96-bit prefix. *)
Definition v6_addr (prefix : Z) (a : list Z) : list Z := replicate 8 0 ++ be_bytes 4 prefix ++ a.

(** The header but for [payload_len] and [nexthdr]. *)
Definition base_header (h : iphdr) (include_flag : bool) : M unit :=
  set_high 0 6;;
  traffic_class h;;
  poke 2 [0];;
  poke 3 [0];;
  poke 7 [ttl h];;
  if include_flag then
    poke 8 (v6_addr TRANSLATED_PREFIX (saddr h));;
    poke 24 (v6_addr MAPPED_PREFIX (daddr h))
  else
    poke 8 (v6_addr MAPPED_PREFIX (saddr h));;
    poke 24 (v6_addr TRANSLATED_PREFIX (daddr h)).

(** ** ICMP *)

(** [ICMP_DEST_UNREACH]; [icmp] is the ICMPv4 header, the buffer the ICMPv6 one. *)
Definition dest_unreach (icmp : list Z) (code : Z) : M unit :=
  poke 0 [ICMPV6_DEST_UNREACH];;
  poke32 4 0;;
  if bool_decide (code ∈ [0; 1; 5; 6; 7; 8; 11; 12]) then poke 1 [0]
  else if code =? 2 then poke 0 [ICMPV6_PARAMPROB];; poke 1 [1];; poke32 4 6
  else if code =? 3 then poke 1 [4]
  else if code =? 4 then
    poke 0 [ICMPV6_PKT_TOOBIG];;
    poke 1 [0];;
    mtu ← defined (peek16 6 icmp);
    poke32 4 (if mtu =? 0 then 576 else mtu + IP4_IP6_HDR_DIFF)
  else if bool_decide (code ∈ [9; 10]) then poke 1 [1]
  else return_error.

(** Where a field of the IPv4 header is in the IPv6 header. *)
Definition icmp6_pointer (icmp_ptr : Z) : Z :=
  if icmp_ptr =? 0 then 0
  else if icmp_ptr =? 2 then 4
  else if icmp_ptr =? 8 then 7
  else if icmp_ptr =? 9 then 6
  else if icmp_ptr =? 12 then 8
  else if icmp_ptr =? 16 then 24
  else 0xffffffff.

(** The switch over [icmp_hdr->type]: is it an error message? *)
Definition icmp_message (icmp : list Z) (len : Z) : M bool :=
  type ← defined (peek8 0 icmp);
  if type =? ICMP_DEST_UNREACH then
    code ← defined (peek8 1 icmp);
    dest_unreach icmp code;; mret true
  else if type =? ICMP_TIME_EXCEEDED then
    code ← defined (peek8 1 icmp);
    poke 0 [ICMPV6_TIME_EXCEED];; poke 1 [code];; mret true
  else if type =? ICMP_PARAMETERPROB then
    code ← defined (peek8 1 icmp);
    poke 0 [ICMPV6_PARAMPROB];; poke 1 [code];;
    icmp_ptr ← defined (peek16 4 icmp);
    poke32 4 (icmp6_pointer (Z.shiftr icmp_ptr 8));; mret true
  else if (type =? ICMP_ECHO) || (type =? ICMP_ECHOREPLY) then
    poke 0 [if type =? ICMP_ECHO then ICMPV6_ECHO_REQUEST else ICMPV6_ECHO_REPLY];;
    poke 1 [0];;
    copy 4 (drop 4 icmp) (len - 4);; mret false
  else return_error.

(** [*sum6 = csum_ipv6_magic(...)] over [n] bytes from [off], stored at [sum]. *)
Definition store_csum6 (off : nat) (n : Z) (proto : Z) (sum : nat) : M unit :=
  poke sum [0; 0];;
  data ← get_int off n;
  s ← get 8 16;
  d ← get 24 16;
  poke sum (store e 2 (csum_ipv6_magic s d n proto (csum_partial data))).

Section Included.
(** The translation of the packet an ICMP error includes. *)
Context (included : list Z -> Z -> M Z).

Definition icmp_payload (src : list Z) (len : Z) (h : iphdr) (include_flag : bool)
    (fr_flag : bool) (plen : Z) : M unit :=
  if negb (Z.land (frag_off h) IP_OFFSET =? 0) || negb (Z.land (frag_off h) IP_MF =? 0)
  then return_error
  else if include_flag then return_error
  else
    let k := if fr_flag then 48%nat else 40%nat in
    let icmp_len := tot_len h - hdr_len h in
    let icmp := drop (Z.to_nat (hdr_len h)) src in
    icmperr ← at_offset k (icmp_message icmp (len - hdr_len h));
    icmp_len ← (if icmperr : bool then
                  at_offset (k + 8) (included (drop 8 icmp) (len - hdr_len h - 8));;
                  poke16 4 (plen + 20);; mret (icmp_len + 20)
                else mret icmp_len);
    store_csum6 k icmp_len NEXTHDR_ICMP (k + 2).

Definition udp_payload (src : list Z) (len : Z) (h : iphdr) (include_flag : bool)
    (fr_flag : bool) (plen : Z) : M unit :=
  let k := if fr_flag then 48%nat else 40%nat in
  let udp := drop (Z.to_nat (hdr_len h)) src in
  fl_csum ← (if Z.land (frag_off h) IP_OFFSET =? 0 then
               check ← defined (peek16 6 udp);
               if negb (Z.land (frag_off h) IP_MF =? 0) then
                 if check =? 0 then return_error else mret false
               else mret (check =? 0)
             else mret false);
  copy k udp (len - hdr_len h);;
  if (fl_csum : bool) && negb include_flag then
    store_csum6 k (plen - (if fr_flag then IP6_FRAGMENT_SIZE else 0)) IPPROTO_UDP (k + 6)
  else mret tt.

Definition ip4_ip6_body (src : list Z) (len : Z) (include_flag : bool) : M Z :=
  h ← defined (read_iphdr src);
  '(fr_flag, new_tot_len, new_nexthdr) ← fragment_header h include_flag;
  base_header h include_flag;;
  let plen := new_tot_len - hdr_len h in
  poke16 4 plen;;
  poke 6 [new_nexthdr];;
  (if protocol h =? IPPROTO_ICMP then icmp_payload src len h include_flag fr_flag plen
   else if protocol h =? IPPROTO_TCP then
     copy (if fr_flag then 48 else 40) (drop (Z.to_nat (hdr_len h)) src) (len - hdr_len h)
   else if protocol h =? IPPROTO_UDP then udp_payload src len h include_flag fr_flag plen
   else return_error);;
  mret 0.
End Included.

(** Included packets are never translated with a call of their own. *)
Definition ip4_ip6_included (src : list Z) (len : Z) : M Z :=
  ip4_ip6_body (fun _ _ => undef) src len true.

Definition ip4_ip6 (src : list Z) (len : Z) (include_flag : bool) : M Z :=
  ip4_ip6_body ip4_ip6_included src len include_flag.
End Siit.
