(* ===== verification/Siit64.v ===== *)
(** * SIIT: from IPv6 to IPv4

    Models [ip6_ip4] of [feeds/packages/net/siit/src/siit.c]. The tests
    [len_delta - sizeof(...) >= 0] compare unsigned numbers and always succeed, so
    they and their [else] branches are left out; the tests after
    [len_delta -= ...] are on [int] and stay. *)

From Stdlib Require Import ZArith Lia.
From stdpp Require Import base list numbers option.
From S2P Require Import Prelude Packet Siit.

Definition NEXTHDR_HOP : Z := 0.
Definition NEXTHDR_TCP : Z := 6.
Definition NEXTHDR_UDP : Z := 17.
Definition NEXTHDR_ROUTING : Z := 43.
Definition NEXTHDR_NONE : Z := 59.
Definition NEXTHDR_DEST : Z := 60.

Definition IP6F_OFF_MASK : Z := 0xfff8.
Definition IP6F_MORE_FRAG : Z := 0x0001.

Record ipv6hdr := Ip6Hdr {
  priority : Z;
  flow_lbl0 : Z;
  payload_len : Z;
  nexthdr : Z;
  hop_limit : Z;
  saddr6 : list Z;
  daddr6 : list Z
}.

Definition read_ipv6hdr (src : list Z) : option ipv6hdr :=
  h ← peek 0 40 src;
  Some (Ip6Hdr (Z.land (h !!! 0%nat) 15) (h !!! 1%nat) (be_val (slice 4 2 h)) (h !!! 6%nat)
          (h !!! 7%nat) (slice 8 16 h) (slice 24 16 h)).

(** ** Extension headers *)

(** The variables of the loop: bytes left behind the headers seen so far, length of
    those, and the type of the header that follows. *)
Record ext_state := Ext { len_delta : Z; opts_len : Z; next_hdr : Z }.

(** Where the next extension header starts. *)
Definition ext_at (st : ext_state) : nat := Z.to_nat (40 + opts_len st).

(** An options header is skipped when it fits: [len_delta -= hdrlen*8 + 8], and the
    rest of the state if that is not negative. *)
Definition skip_options (src : list Z) (st : ext_state) : option (bool * ext_state) :=
  nh ← peek8 (ext_at st) src;
  hdrlen ← peek8 (ext_at st + 1) src;
  d ← int_sub (len_delta st) (hdrlen * 8 + 8);
  if 0 <=? d then Some (true, Ext d (opts_len st + (hdrlen * 8 + 8)) nh)
  else Some (false, Ext d (opts_len st) (next_hdr st)).

(** The same for a header that must fit. *)
Definition skip_or_drop (src : list Z) (st : ext_state) : M ext_state :=
  '(fits, st) ← defined (skip_options src st);
  if fits : bool then mret st else return_error.

(** The fragment header goes to the fields [id] and [frag_off] of the IPv4 header. *)
Definition fragment_option (src : list Z) (st : ext_state) : M ext_state :=
  d ← defined (int_sub (len_delta st) IP6_FRAGMENT_SIZE);
  if 0 <=? d then
    ident ← defined (peek32 (ext_at st + 4) src);
    poke16 4 ident;;
    off ← defined (peek16 (ext_at st + 2) src);
    poke16 6 (Z.shiftr (Z.land off IP6F_OFF_MASK) 3);;
    f ← get16 6;
    poke16 6 (Z.lor f (Z.shiftl (Z.land off IP6F_MORE_FRAG) 13));;
    nh ← defined (peek8 (ext_at st) src);
    mret (Ext d (opts_len st + IP6_FRAGMENT_SIZE) nh)
  else return_error.

(** One round of the loop. *)
Definition ext_header (src : list Z) (st : ext_state) : M ext_state :=
  if next_hdr st =? NEXTHDR_DEST then '(_, st) ← defined (skip_options src st); mret st
  else if next_hdr st =? NEXTHDR_ROUTING then
    segments_left ← defined (peek8 (ext_at st + 3) src);
    if negb (segments_left =? 0) then return_error else skip_or_drop src st
  else if next_hdr st =? NEXTHDR_FRAGMENT then fragment_option src st
  else return_error.

(** The loop ends at an upper protocol, and at [NEXTHDR_NONE]. *)
Definition loop_ends (nh : Z) : bool :=
  bool_decide (nh ∈ [NEXTHDR_ICMP; NEXTHDR_TCP; NEXTHDR_UDP; NEXTHDR_NONE]).

Fixpoint ext_loop (fuel : nat) (src : list Z) (st : ext_state) : M ext_state :=
  if loop_ends (next_hdr st) then mret st
  else
    match fuel with
    | O => undef
    | S fuel => st ← ext_header src st; ext_loop fuel src st
    end.

(** A round that skips a header takes at least 8 bytes off [len_delta], which stays
    non-negative: [S (len_delta / 8)] rounds are enough. A destination header that
    does not fit makes every further round the same one; such a run ends in an
    overflow of [len_delta], so that running out of fuel is [Undef] as well. *)
Definition ext_fuel (st : ext_state) : nat := S (Z.to_nat (len_delta st / 8)).

(** The hop-by-hop header may only come first. *)
Definition extension_headers (src : list Z) (st : ext_state) : M ext_state :=
  st ← (if next_hdr st =? NEXTHDR_HOP then skip_or_drop src st else mret st);
  if 0 <? len_delta st then ext_loop (ext_fuel st) src st else mret st.

(** ** The addresses *)

(** The third word of an address in network order. *)
Definition word2 (a : list Z) : Z := be_val (slice 8 4 a).

Definition addresses_ok (h : ipv6hdr) (include_flag : bool) : bool :=
  if include_flag then
    (word2 (saddr6 h) =? MAPPED_PREFIX) && (word2 (daddr6 h) =? TRANSLATED_PREFIX)
  else (word2 (saddr6 h) =? TRANSLATED_PREFIX) && (word2 (daddr6 h) =? MAPPED_PREFIX).

Section Siit64.
Context (e : endian) `{Checksums} (tos_ignore_flag : bool).

(** ** The IPv4 header *)

(** [ip_hdr->check = ip_fast_csum(ip_hdr, ip_hdr->ihl)], for [ihl] 5. *)
Definition store_header_csum : M unit :=
  poke 10 [0; 0];; l ← get 0 20; poke 10 (store e 2 (ip_fast_csum l)).

Definition ipv4_header (h : ipv6hdr) (ntot_len nh : Z) : M unit :=
  set_high 0 4;;
  set_low 0 5;;
  poke 1 [if tos_ignore_flag then 0
          else Z.lor (u8 (Z.shiftl (priority h) 4)) (Z.shiftr (flow_lbl0 h) 4)];;
  poke16 2 ntot_len;;
  poke 8 [hop_limit h];;
  poke 9 [nh];;
  poke 12 (slice 12 4 (saddr6 h));;
  poke 16 (slice 12 4 (daddr6 h));;
  store_header_csum.

(** ** ICMP *)

(** Where a field of the IPv6 header is in the IPv4 header; the value is stored
    into a 16-bit field without [htons]. *)
Definition icmp_pointer (pointer : Z) : Z :=
  if pointer =? 0 then 0
  else if pointer =? 4 then 0x0002
  else if pointer =? 6 then 0x0009
  else if pointer =? 7 then 0x0008
  else if pointer =? 8 then 0x000c
  else if pointer =? 24 then 0x0010
  else 0xff.

(** [ICMPV6_ECHO_REQUEST] and [ICMPV6_ECHO_REPLY]. *)
Definition echo_message (type : Z) (icmp6 : list Z) (n : Z) : M unit :=
  poke 0 [type];;
  poke 1 [0];;
  rest ← defined (peek 4 4 icmp6);
  poke 4 rest;;
  if 0 <? n then copy 8 (drop 8 icmp6) n else mret tt.

(** The switch over [icmp6_type]; [n] bytes follow the ICMPv6 header. Is it an error
    message? *)
Definition icmp6_message (icmp6 : list Z) (n : Z) : M bool :=
  type ← defined (peek8 0 icmp6);
  code ← defined (peek8 1 icmp6);
  if type =? ICMPV6_DEST_UNREACH then
    poke 0 [ICMP_DEST_UNREACH];;
    poke 4 [0; 0];;
    poke 6 [0; 0];;
    (if bool_decide (code ∈ [0; 2; 3]) then poke 1 [1]
     else if code =? 1 then poke 1 [10]
     else if code =? 4 then poke 1 [3]
     else return_error);;
    mret true
  else if type =? ICMPV6_PKT_TOOBIG then
    poke 0 [ICMP_DEST_UNREACH];;
    poke 1 [4];;
    mtu ← defined (peek 4 4 icmp6);
    poke 6 (store e 2 (load e mtu));;
    mret true
  else if type =? ICMPV6_TIME_EXCEED then
    poke 0 [ICMP_TIME_EXCEEDED];; poke 1 [code];; mret true
  else if type =? ICMPV6_PARAMPROB then
    (if code =? 1 then poke 0 [ICMP_DEST_UNREACH];; poke 1 [2]
     else
       poke 0 [ICMP_PARAMETERPROB];;
       poke 1 [0];;
       pointer ← defined (peek32 4 icmp6);
       poke 4 (store e 2 (icmp_pointer pointer)));;
    mret true
  else if type =? ICMPV6_ECHO_REQUEST then echo_message ICMP_ECHO icmp6 n;; mret false
  else if type =? ICMPV6_ECHO_REPLY then echo_message ICMP_ECHOREPLY icmp6 n;; mret false
  else return_error.

Section Included.
Context (included : list Z -> Z -> M Z).

(** The packet an error message includes, behind its 8-byte header: the correction
    of the length, if there is one. *)
Definition included_packet (icmp6 : list Z) (n : Z) : M (option Z) :=
  if 40 <=? n then
    inc_opts_len ← at_offset 28 (included (drop 8 icmp6) n);
    mret (Some (inc_opts_len + IP4_IP6_HDR_DIFF))
  else
    (if 0 <? n then at_offset 20 (copy 8 (drop 8 icmp6) n) else mret tt);;
    mret None.

(** "PROCESS ICMP": the length of the result. *)
Definition icmp6_payload (src : list Z) (include_flag : bool) (ntot_len : Z) (st : ext_state)
    : M Z :=
  let n := len_delta st - 8 in
  if n <? 0 then return_error
  else
    let icmp6 := drop (ext_at st) src in
    poke 9 [IPPROTO_ICMP];;
    type ← defined (peek8 0 icmp6);
    if include_flag && negb (type =? ICMPV6_ECHO_REQUEST) then return_error
    else
      icmperr ← at_offset 20 (icmp6_message icmp6 n);
      delta ← (if icmperr : bool then included_packet icmp6 n else mret None);
      let real_len := 20 + (n + 8) - default 0 delta in
      (match delta with
       | Some d => if ntot_len =? 0 then mret tt else poke16 2 (ntot_len - d)
       | None => mret tt
       end);;
      store_header_csum;;
      (if ntot_len =? 0 then mret tt
       else
         poke 22 [0; 0];;
         tot_len ← get16 2;
         l ← get_int 20 (tot_len - 20);
         poke 22 (store e 2 (ip_compute_csum l)));;
      mret real_len.

Definition ip6_ip4_body (src : list Z) (len : Z) (include_flag : bool) : M Z :=
  if len - 40 <? 0 then return_error
  else
    h ← defined (read_ipv6hdr src);
    if negb (addresses_ok h include_flag) then return_error
    else
      poke 6 [0; 0];;
      poke 4 [0; 0];;
      st ← extension_headers src (Ext (len - 40) 0 (nexthdr h));
      let ntot_len := if payload_len h =? 0 then 0
                      else payload_len h + IP4_IP6_HDR_DIFF - opts_len st in
      ipv4_header h ntot_len (next_hdr st);;
      real_len ← (if negb (0 <? len_delta st) then mret 20
                  else if next_hdr st =? NEXTHDR_ICMP then
                    icmp6_payload src include_flag ntot_len st
                  else copy 20 (drop (ext_at st) src) (len_delta st);;
                       mret (20 + len_delta st));
      mret (if include_flag then opts_len st else real_len).
End Included.

(** Of the ICMP messages only an echo request is translated inside another one, and
    it includes nothing. *)
Definition ip6_ip4_included (src : list Z) (len : Z) : M Z :=
  ip6_ip4_body (fun _ _ => undef) src len true.

Definition ip6_ip4 (src : list Z) (len : Z) (include_flag : bool) : M Z :=
  ip6_ip4_body ip6_ip4_included src len include_flag.
End Siit64.
