(* ===== verification/SiitXmit.v ===== *)
(** * SIIT: fragmentation and transmission

    Models [ip4_fragment] and [siit_xmit] of [feeds/packages/net/siit/src/siit.c]:
    the socket buffers they allocate, fill, hand to [netif_rx] or free, and the
    counters of the device. *)

From Stdlib Require Import ZArith Lia.
From stdpp Require Import base list numbers option.
From S2P Require Import Prelude Packet Siit Siit64.

Definition FRAG_BUFF_SIZE : Z := 1232.
Definition ETH_P_IP : Z := 0x0800.
Definition ETH_P_IPV6 : Z := 0x86DD.
Definition EINVAL : Z := 22.

(** [siit_stats(dev)]. *)
Record net_device_stats := Stats {
  rx_packets : Z;
  tx_packets : Z;
  rx_bytes : Z;
  tx_bytes : Z;
  rx_errors : Z;
  tx_errors : Z;
  rx_dropped : Z
}.

(** A packet given to [netif_rx]: its link-layer header, its protocol, its bytes. *)
Record delivery := Delivery { mac_header : list Z; rx_protocol : Z; rx_data : list Z }.

(** What the functions act on. [live] counts the buffers that were allocated and not
    yet freed or handed on; [allocs] says which allocations succeed. *)
Record kernel := Kernel {
  stats : net_device_stats;
  received : list delivery;
  allocs : list bool;
  live : Z
}.

Abbreviation K := (prog kernel).

Definition with_stats (f : net_device_stats -> net_device_stats) : K unit :=
  modify (fun k => Kernel (f (stats k)) (received k) (allocs k) (live k)).

(** An allocation: did it succeed? *)
Definition alloc : K bool := fun k =>
  match allocs k with
  | [] => Ret true (Kernel (stats k) (received k) [] (live k + 1))
  | ok :: r => Ret ok (Kernel (stats k) (received k) r (live k + if ok : bool then 1 else 0))
  end.

Definition kfree : K unit :=
  modify (fun k => Kernel (stats k) (received k) (allocs k) (live k - 1)).

(** [netif_rx] takes the buffer over. *)
Definition netif_rx (d : delivery) : K unit :=
  modify (fun k => Kernel (stats k) (received k ++ [d]) (allocs k) (live k - 1)).

(** Run code on a buffer: its result, [-1] included, and the buffer. *)
Definition in_buffer (m : list Z) (p : M Z) : K (Z * list Z) := fun k =>
  match p m with
  | Ret a m' => Ret (a, m') k
  | Exit c m' => Ret (c, m') k
  | Undef => Undef
  end.

(** The counters are [unsigned long]. *)
Section Xmit.
Context (e : endian) `{Checksums} (tos_ignore_flag : bool) (ulong : Z).
(** [dev->hard_header_len], and what a fresh buffer of [n] bytes holds. *)
Context (hard_header_len : nat) (garbage : nat -> list Z).

Definition count (x n : Z) : Z := wrap ulong (x + n).

Definition add_rx (n : Z) : K unit := with_stats (fun s =>
  Stats (count (rx_packets s) 1) (tx_packets s) (count (rx_bytes s) n) (tx_bytes s)
    (rx_errors s) (tx_errors s) (rx_dropped s)).
Definition add_tx (n : Z) : K unit := with_stats (fun s =>
  Stats (rx_packets s) (count (tx_packets s) 1) (rx_bytes s) (count (tx_bytes s) n)
    (rx_errors s) (tx_errors s) (rx_dropped s)).
Definition add_rx_errors : K unit := with_stats (fun s =>
  Stats (rx_packets s) (tx_packets s) (rx_bytes s) (tx_bytes s)
    (count (rx_errors s) 1) (tx_errors s) (rx_dropped s)).
Definition add_tx_errors : K unit := with_stats (fun s =>
  Stats (rx_packets s) (tx_packets s) (rx_bytes s) (tx_bytes s)
    (rx_errors s) (count (tx_errors s) 1) (rx_dropped s)).
Definition add_rx_dropped : K unit := with_stats (fun s =>
  Stats (rx_packets s) (tx_packets s) (rx_bytes s) (tx_bytes s)
    (rx_errors s) (tx_errors s) (count (rx_dropped s) 1)).

(** The link-layer header with its protocol replaced. *)
Definition ether_header (eth_h : list Z) (proto : Z) : list Z := write 12 (be_bytes 2 proto) eth_h.

(** ** ip4_fragment *)

(** The checksum of a UDP packet that has none and is not a fragment, calculated in
    the incoming buffer; [-1] for a first fragment without a checksum. *)
Definition fragment_udp (h : iphdr) (flag_last_mf : bool) : M Z :=
  let k := Z.to_nat (hdr_len h) in
  if (protocol h =? IPPROTO_UDP) && (Z.land (frag_off h) IP_OFFSET =? 0) then
    check ← get16 (k + 6);
    if negb flag_last_mf then mret (if check =? 0 then -1 else 0)
    else if check =? 0 then
      udp_len ← get16 (k + 4);
      udp ← get k (Z.to_nat udp_len);
      poke (k + 6) (store e 2
        (csum_tcpudp_magic (saddr h) (daddr h) udp_len IPPROTO_UDP (csum_partial udp)));;
      mret 0
    else mret 0
  else mret 0.

(** One fragment in [buff]: the header of the packet, [frag_len] bytes of its data
    from [cur], its own offset, flag, length and checksum. *)
Definition fragment_packet (skb : list Z) (h : iphdr) (cur : nat) (frag_len : Z)
    (clear_mf : bool) (frag_offset : Z) : M unit :=
  let k := Z.to_nat (hdr_len h) in
  copy 0 skb (hdr_len h);;
  copy k (drop cur skb) frag_len;;
  poke 4 (be_bytes 2 (id h));;
  (if clear_mf then poke16 6 (Z.land frag_offset (Z.lnot IP_MF))
   else poke16 6 (Z.lor frag_offset IP_MF));;
  poke16 2 (frag_len + hdr_len h);;
  poke 10 [0; 0];;
  l ← get 0 k;
  poke 10 (store e 2 (ip_fast_csum l)).

(** Translate what is in [buff] into a new socket buffer and deliver it. *)
Definition send_fragment (eth_h buff : list Z) (size : Z) : K Z :=
  let n := Z.to_nat (size + IP4_IP6_HDR_DIFF + IP6_FRAGMENT_SIZE) in
  ok ← alloc;
  if negb (ok : bool) then mret (-1)
  else
    '(r, data) ← in_buffer (garbage n) (ip4_ip6 e tos_ignore_flag buff size false);
    if r =? -1 then kfree;; mret (-1)
    else
      add_tx (Z.of_nat (length data));;
      netif_rx (Delivery (ether_header eth_h ETH_P_IPV6) ETH_P_IPV6 data);;
      mret 0.

(** The loop; [cur] is the position of [cur_ptr] in the packet. A round takes
    [FRAG_BUFF_SIZE] bytes off [rest_len] or is the last one. *)
Fixpoint fragment_loop (fuel : nat) (skb eth_h : list Z) (h : iphdr) (flag_last_mf : bool)
    (buff : list Z) (cur : nat) (rest_len frag_offset : Z) : K Z :=
  match fuel with
  | O => undef
  | S fuel =>
      let last_frag := rest_len <=? FRAG_BUFF_SIZE in
      let frag_len := if last_frag then rest_len else FRAG_BUFF_SIZE in
      '(_, buff) ← in_buffer buff
        (fragment_packet skb h cur frag_len (last_frag && flag_last_mf) frag_offset;; mret 0);
      r ← send_fragment eth_h buff (frag_len + hdr_len h);
      if r =? -1 then mret (-1)
      else if last_frag then mret 0
      else
        fragment_loop fuel skb eth_h h flag_last_mf buff (cur + Z.to_nat frag_len)
          (rest_len - frag_len) (u16 ((frag_offset * 8 + frag_len) / 8))
  end.

Definition fragment_fuel (rest_len : Z) : nat := S (Z.to_nat (rest_len / FRAG_BUFF_SIZE)).

Definition ip4_fragment (skb : list Z) (len : Z) (eth_h : list Z) : K Z :=
  h ← defined (read_iphdr skb);
  let flag_last_mf := Z.land (frag_off h) IP_MF =? 0 in
  '(r, skb) ← in_buffer skb (fragment_udp h flag_last_mf);
  if r =? -1 then mret (-1)
  else
    ok ← alloc;
    if negb (ok : bool) then mret (-1)
    else
      let rest_len := len - hdr_len h in
      r ← fragment_loop (fragment_fuel rest_len) skb eth_h h flag_last_mf
            (replicate (Z.to_nat (FRAG_BUFF_SIZE + hdr_len h)) 0) (Z.to_nat (hdr_len h))
            rest_len (Z.land (frag_off h) IP_OFFSET);
      kfree;;
      mret r.

(** ** siit_xmit *)

(** How much longer the translated packet may get. *)
Definition skb_delta (skb : list Z) (h : iphdr) : option Z :=
  let delta := if frag_off h =? IP_DF then IP4_IP6_HDR_DIFF
               else IP4_IP6_HDR_DIFF + IP6_FRAGMENT_SIZE in
  if protocol h =? IPPROTO_ICMP then
    type ← peek8 (Z.to_nat (hdr_len h)) skb;
    Some (if (type =? ICMP_ECHO) || (type =? ICMP_ECHOREPLY) then delta
          else delta + IP4_IP6_HDR_DIFF)
  else Some delta.

(** The end of a transmission: the new buffer goes up, the incoming one is freed. *)
Definition deliver (eth_h : list Z) (proto : Z) (data : list Z) : K Z :=
  add_tx (Z.of_nat (length data));;
  netif_rx (Delivery (ether_header eth_h proto) proto data);;
  kfree;;
  mret 0.

Definition xmit_ip (skb eth_h : list Z) : K Z :=
  h ← defined (read_iphdr skb);
  let len := Z.of_nat (length skb) in
  if negb (len =? tot_len h) then add_tx_errors;; kfree;; mret 0
  else if (Z.land (frag_off h) IP_DF =? 0) && (FRAG_BUFF_SIZE <? len - hdr_len h) then
    r ← ip4_fragment skb len eth_h;
    (if r =? -1 then add_tx_errors else mret tt);;
    kfree;;
    mret 0
  else
    delta ← defined (skb_delta skb h);
    ok ← alloc;
    if negb (ok : bool) then kfree;; add_rx_dropped;; mret 0
    else
      '(r, data) ← in_buffer (garbage (Z.to_nat (len + delta)))
        (ip4_ip6 e tos_ignore_flag skb len false);
      if r =? -1 then kfree;; kfree;; add_rx_errors;; mret 0
      else deliver eth_h ETH_P_IPV6 data.

(** The buffer of 2048 bytes is freed when the packet is dropped, and not when it
    is delivered. *)
Definition xmit_ipv6 (skb eth_h : list Z) : K Z :=
  ok ← alloc;
  if negb (ok : bool) then add_rx_dropped;; kfree;; mret 0
  else
    '(new_packet_len, new_packet_buff) ← in_buffer (replicate 2048 0)
      (ip6_ip4 e tos_ignore_flag skb (Z.of_nat (length skb)) false);
    if new_packet_len =? -1 then add_rx_dropped;; kfree;; kfree;; mret 0
    else
      ok ← alloc;
      if negb (ok : bool) then add_rx_dropped;; kfree;; kfree;; mret 0
      else
        data ← defined (peek 0 (Z.to_nat new_packet_len) new_packet_buff);
        deliver eth_h ETH_P_IP data.

(** [skb->data] with the link-layer header in front, and [ntohs(skb->protocol)];
    [None] is the null pointer. *)
Definition siit_xmit (skb : option (list Z * Z)) : K Z :=
  match skb with
  | None => mret (- EINVAL)
  | Some (data, proto) =>
      add_rx (Z.of_nat (length data));;
      eth_h ← defined (peek 0 hard_header_len data);
      let data := drop hard_header_len data in
      if proto =? ETH_P_IP then xmit_ip data eth_h
      else if proto =? ETH_P_IPV6 then xmit_ipv6 data eth_h
      else kfree;; mret 0
  end.
End Xmit.
