(* ===== verification/PacketFacts.v ===== *)
(** * Packets in memory: lemmas

    What a write does to a buffer of known parts, a logic for code that stays
    inside a buffer of a given size, and the arithmetic of the Internet checksum. *)

From Stdlib Require Import ZArith Lia.
From stdpp Require Import base list numbers option.
From S2P Require Import Prelude Packet.

(** ** Buffers *)

Lemma drop_at {A} (a b : list A) k : length a = k -> drop k (a ++ b) = b.
Proof. intros <-. apply drop_app_length. Qed.

Lemma take_at {A} (a b : list A) k : length a = k -> take k (a ++ b) = a.
Proof. intros <-. apply take_app_length. Qed.

Lemma write_app a bs l off :
  length a = off -> write off bs (a ++ l) = a ++ bs ++ drop (length bs) l.
Proof.
  intros <-. unfold write. rewrite take_app_length. do 2 f_equal.
  rewrite drop_app_ge by lia. f_equal. lia.
Qed.

Lemma slice_app a l n off : length a = off -> slice off n (a ++ l) = take n l.
Proof. intros <-. unfold slice. by rewrite drop_app_length. Qed.

Lemma peek_app a l off n :
  length a = off -> (n <= length l)%nat -> peek off n (a ++ l) = Some (take n l).
Proof.
  intros Ha Hn. unfold peek. rewrite length_app. destruct (Nat.leb_spec (off + n) (length a + length l)).
  - by rewrite slice_app.
  - lia.
Qed.

Lemma peek_front b l n : length b = n -> peek 0 n (b ++ l) = Some b.
Proof.
  intros <-. rewrite (peek_app [] (b ++ l)) by (rewrite ?length_app; cbn; lia).
  by rewrite take_app_length.
Qed.

Lemma peek_part a b l off n :
  length a = off -> length b = n -> peek off n (a ++ b ++ l) = Some b.
Proof.
  intros Ha Hb. rewrite (peek_app a) by (rewrite ?length_app; lia). by rewrite take_at.
Qed.

Lemma poke_app a bs l off :
  length a = off -> (length bs <= length l)%nat ->
  poke off bs (a ++ l) = Ret tt (a ++ bs ++ drop (length bs) l).
Proof.
  intros Ha Hl. unfold poke. rewrite length_app.
  destruct (Nat.leb_spec (off + length bs) (length a + length l)); [|lia].
  by rewrite write_app.
Qed.

(** Writing a field over another one. *)
Lemma poke_part a b c l off :
  length a = off -> length b = length c -> poke off b (a ++ c ++ l) = Ret tt (a ++ b ++ l).
Proof.
  intros Ha Hb. rewrite poke_app by (rewrite ?length_app; lia). by rewrite Hb, drop_app_length.
Qed.

Lemma get_part a b l off n :
  length a = off -> length b = n -> get off n (a ++ b ++ l) = Ret b (a ++ b ++ l).
Proof. intros. unfold get. by rewrite (peek_part a b l). Qed.

Lemma get_slice off n l : (off + n <= length l)%nat -> get off n l = Ret (slice off n l) l.
Proof. intros Hl. unfold get, peek. by destruct (Nat.leb_spec (off + n) (length l)); [|lia]. Qed.

Lemma poke_write off bs l :
  (off + length bs <= length l)%nat -> poke off bs l = Ret tt (write off bs l).
Proof. intros Hl. unfold poke. by destruct (Nat.leb_spec (off + length bs) (length l)); [|lia]. Qed.

Lemma get16_part a b l off :
  length a = off -> length b = 2%nat -> get16 off (a ++ b ++ l) = Ret (be_val b) (a ++ b ++ l).
Proof. intros. unfold get16, mbind, prog_bind. by rewrite (get_part a b l). Qed.

Lemma get_int_part a b l off n :
  length a = off -> n = Z.of_nat (length b) -> get_int off n (a ++ b ++ l) = Ret b (a ++ b ++ l).
Proof.
  intros Ha ->. unfold get_int. destruct (Z.ltb_spec (Z.of_nat (length b)) 0); [lia|].
  by apply get_part; [|lia].
Qed.

Lemma copy_app a src data l off n :
  length a = off -> n = Z.of_nat (length data) -> (length data <= length l)%nat ->
  take (length data) src = data ->
  copy off src n (a ++ l) = Ret tt (a ++ data ++ drop (length data) l).
Proof.
  intros Ha -> Hl Hd. unfold copy. destruct (Z.ltb_spec (Z.of_nat (length data)) 0); [lia|].
  rewrite Nat2Z.id. unfold mbind, prog_bind, defined.
  assert (peek 0 (length data) src = Some data) as ->.
  { unfold peek, slice. rewrite drop_0, Hd. cbn [Nat.add].
    destruct (Nat.leb_spec (length data) (length src)); [done|].
    apply (f_equal length) in Hd. rewrite length_take in Hd. lia. }
  by apply poke_app.
Qed.

Lemma at_offset_app {A} (p : M A) a l k :
  length a = k ->
  at_offset k p (a ++ l) = match p l with
                           | Ret x l' => Ret x (a ++ l')
                           | Exit c l' => Exit c (a ++ l')
                           | Undef => Undef
                           end.
Proof.
  intros Ha. unfold at_offset. rewrite length_app.
  destruct (Nat.leb_spec k (length a + length l)); [|lia]. by rewrite drop_at, take_at.
Qed.

(** Code that works behind a prefix of the buffer only. *)
Definition behind {A} (a : list Z) (o : outcome (list Z) A) : outcome (list Z) A :=
  match o with
  | Ret x l => Ret x (a ++ l)
  | Exit c l => Exit c (a ++ l)
  | Undef => Undef
  end.

Lemma poke_behind a l k off bs :
  length a = k -> poke (k + off) bs (a ++ l) = behind a (poke off bs l).
Proof.
  intros <-. unfold poke. rewrite length_app.
  destruct (Nat.leb_spec (length a + off + length bs) (length a + length l)),
    (Nat.leb_spec (off + length bs) (length l)); try lia; [|done].
  cbn [behind]. unfold write. rewrite take_app_ge, drop_app_ge by lia.
  replace (length a + off - length a)%nat with off by lia.
  replace (length a + off + length bs - length a)%nat with (off + length bs)%nat by lia.
  by rewrite <- app_assoc.
Qed.

Lemma get_behind a l k off n :
  length a = k -> get (k + off) n (a ++ l) = behind a (get off n l).
Proof.
  intros <-. unfold get, peek. rewrite length_app.
  destruct (Nat.leb_spec (length a + off + n) (length a + length l)),
    (Nat.leb_spec (off + n) (length l)); try lia; [|done].
  cbn [behind]. unfold slice. rewrite drop_app_ge by lia. do 3 f_equal. lia.
Qed.

Lemma split_buffer (m : list Z) k n :
  (k + n <= length m)%nat ->
  exists a l, m = a ++ l /\ length a = k /\ (n <= length l)%nat.
Proof.
  intros Hm. exists (take k m), (drop k m). rewrite take_drop, length_take, length_drop.
  repeat split; lia.
Qed.

(** ** Network order *)

Lemma be_val_be2 z : 0 <= z < 65536 -> be_val (be_bytes 2 z) = z.
Proof. intros. rewrite be_val_bytes. by apply Z.mod_small. Qed.

Lemma be_bytes_mod n z : be_bytes n (z mod 256 ^ Z.of_nat n) = be_bytes n z.
Proof. exact (store_mod BE n z). Qed.

(** ** Code inside a buffer *)

(** On every buffer of [n] bytes the code is defined and leaves [n] bytes; [Q] holds
    of its result. *)
Definition within {A} (n : nat) (p : M A) (Q : A -> Prop) : Prop :=
  forall m, length m = n ->
    match p m with
    | Ret a m' => length m' = n /\ Q a
    | Exit _ m' => length m' = n
    | Undef => False
    end.

Section Within.
Context (n : nat).

Lemma within_ret {A} (a : A) (Q : A -> Prop) : Q a -> within n (mret a) Q.
Proof. by intros ? m. Qed.

Lemma within_bind {A B} (p : M A) (f : A -> M B) (R : A -> Prop) (Q : B -> Prop) :
  within n p R -> (forall a, R a -> within n (f a) Q) -> within n (p ≫= f) Q.
Proof.
  intros Hp Hf m Hm. specialize (Hp m Hm). unfold mbind, prog_bind.
  destruct (p m) as [a m'|c m'|]; [|done..]. destruct Hp as [Hl Ha]. by apply (Hf a).
Qed.

Lemma within_error {A} (Q : A -> Prop) : within n return_error Q.
Proof. by intros m. Qed.

Lemma within_poke off bs : (off + length bs <= n)%nat -> within n (poke off bs) (fun _ => True).
Proof.
  intros Hl m Hm. unfold poke. destruct (Nat.leb_spec (off + length bs) (length m)); [|lia].
  split; [|done]. by rewrite length_write.
Qed.

Lemma within_get off k :
  (off + k <= n)%nat -> within n (get off k) (fun l => length l = k).
Proof.
  intros Hl m Hm. unfold get, peek. destruct (Nat.leb_spec (off + k) (length m)); [|lia].
  split; [done|]. by apply length_slice.
Qed.

Lemma within_get_int off k :
  0 <= k -> (off + Z.to_nat k <= n)%nat -> within n (get_int off k) (fun _ => True).
Proof.
  intros H0 Hl. unfold get_int. destruct (Z.ltb_spec k 0); [lia|].
  intros m Hm. pose proof (within_get off (Z.to_nat k) Hl m Hm) as Hg.
  by destruct (get off (Z.to_nat k) m) as [? ?|? ?|]; [destruct Hg|..].
Qed.

Lemma within_defined {A} (o : option A) (Q : A -> Prop) :
  (exists a, o = Some a /\ Q a) -> within n (defined o) Q.
Proof. by intros (a & -> & Ha) m. Qed.

Lemma within_copy off src k :
  0 <= k -> (Z.to_nat k <= length src)%nat -> (off + Z.to_nat k <= n)%nat ->
  within n (copy off src k) (fun _ => True).
Proof.
  intros H0 Hs Hl. unfold copy. destruct (Z.ltb_spec k 0); [lia|].
  apply (within_bind _ _ (fun l => length l = Z.to_nat k)).
  - apply within_defined. unfold peek. destruct (Nat.leb_spec (0 + Z.to_nat k) (length src)); [|lia].
    eexists. split; [done|]. apply length_slice. lia.
  - intros l Hk. apply within_poke. lia.
Qed.

Lemma within_offset {A} k (p : M A) (Q : A -> Prop) :
  (k <= n)%nat -> within (n - k) p Q -> within n (at_offset k p) Q.
Proof.
  intros Hk Hp m Hm. unfold at_offset. destruct (Nat.leb_spec k (length m)); [|lia].
  specialize (Hp (drop k m)). rewrite length_drop in Hp. specialize (Hp ltac:(lia)).
  destruct (p (drop k m)) as [a m'|c m'|]; [destruct Hp as [Hl Ha]; split|..];
    rewrite ?length_app, ?length_take; done || lia.
Qed.

Lemma within_weaken {A} (p : M A) (R Q : A -> Prop) :
  within n p R -> (forall a, R a -> Q a) -> within n p Q.
Proof.
  intros Hp HQ m Hm. specialize (Hp m Hm). destruct (p m); [destruct Hp; split; auto|done..].
Qed.

Lemma within_true {A} (p : M A) (R : A -> Prop) :
  within n p R -> within n p (fun _ => True).
Proof. intros Hp. by apply (within_weaken p R). Qed.

Lemma within_get16 off : (off + 2 <= n)%nat -> within n (get16 off) (fun _ => True).
Proof.
  intros. eapply within_bind; [by apply within_get|]. intros l _. by apply within_ret.
Qed.

Lemma within_set_low off v : (off + 1 <= n)%nat -> within n (set_low off v) (fun _ => True).
Proof.
  intros. eapply within_bind; [by apply within_get|]. intros l _. apply within_poke. cbn. lia.
Qed.

Lemma within_set_high off v : (off + 1 <= n)%nat -> within n (set_high off v) (fun _ => True).
Proof.
  intros. eapply within_bind; [by apply within_get|]. intros l _. apply within_poke. cbn. lia.
Qed.
End Within.

Create HintDb within.
#[export] Hint Resolve within_error within_poke within_get16 within_set_low within_set_high
  within_copy within_get_int : within.
#[export] Hint Extern 1 (_ <= _)%nat => cbn; lia : within.
#[export] Hint Extern 1 (_ <= _) => lia : within.

(** One step of a proof that code stays inside its buffer. *)
Ltac within_step :=
  match goal with
  | |- within _ (mret _) _ => apply within_ret; try exact Logic.I
  | |- within _ (_ ≫= _) _ => eapply within_bind; [within_step|intros ? ?; cbn beta]
  | |- within _ (if ?b then _ else _) _ => destruct b eqn:?
  | |- within _ (get _ _) _ => apply within_get; cbn; lia
  | |- within _ (poke16 _ _) _ => apply within_poke; rewrite be_bytes_length; cbn; lia
  | |- within _ (poke32 _ _) _ => apply within_poke; rewrite be_bytes_length; cbn; lia
  | |- within _ _ _ => solve [eauto with within]
  end.

(** ** The checksum *)

Lemma word_sum_app e a b :
  Nat.Even (length a) -> word_sum e (a ++ b) = word_sum e a + word_sum e b.
Proof.
  intros [k Hk]. revert a Hk. induction k as [|k IH]; intros a Hk.
  - by destruct a.
  - destruct a as [|x [|y a]]; cbn in Hk; [lia..|]. cbn [app word_sum].
    rewrite IH by lia. lia.
Qed.

Lemma word_sum_store e z : 0 <= z < 65536 -> word_sum e (store e 2 z) = z.
Proof.
  intros Hz. pose proof (store_length e 2 z) as Hl.
  destruct (store e 2 z) as [|a [|b [|]]] eqn:E; try discriminate Hl.
  cbn [word_sum]. rewrite <- E, load_store, Z.add_0_r. by apply Z.mod_small.
Qed.

Lemma word_sum_zeros e : word_sum e [0; 0] = 0.
Proof. by destruct e. Qed.

(** The sum is the same in both byte orders, but for a swap of the bytes: RFC 1071. *)
Lemma word_sum_swap l : (word_sum LE l - 256 * word_sum BE l) mod 65535 = 0.
Proof.
  assert (forall k l, (length l <= k)%nat -> (65535 | word_sum LE l - 256 * word_sum BE l)) as H.
  { clear l. induction k as [|k IH]; intros [|a [|b l]] Hl; cbn in Hl; try lia;
      try (cbn; by apply Z.divide_0_r).
    - exists (- a). cbn. unfold be_val. cbn. lia.
    - cbn [word_sum]. destruct (IH l) as [q Hq]; [lia|].
      exists (q - a). cbn [load le_val]. unfold be_val. cbn [reverse rev_append le_val]. lia. }
  destruct (H (length l) l) as [q ->]; [done|]. apply Z.mod_mul. lia.
Qed.

(** A sum a host completes to zero verifies on the network. *)
Lemma completes_verifies e a b z :
  Nat.Even (length a) -> completes e (a ++ [0; 0] ++ b) z -> verifies (a ++ store e 2 z ++ b).
Proof.
  intros Ha [Hz Hsum]. unfold verifies. set (l := a ++ store e 2 z ++ b).
  assert (word_sum e l mod 65535 = 0) as Hl.
  { unfold l. rewrite !word_sum_app in * by (rewrite ?store_length; done || by exists 1%nat).
    rewrite word_sum_store by done. rewrite word_sum_zeros in Hsum.
    rewrite <- Hsum. f_equal. lia. }
  destruct e; [|done]. pose proof (word_sum_swap l) as Hs.
  apply Z.mod_divide in Hl; [|lia]. apply Z.mod_divide in Hs; [|lia].
  apply Z.mod_divide; [lia|]. apply (Z.gauss _ 256); [|done].
  replace (256 * word_sum BE l) with (word_sum LE l - (word_sum LE l - 256 * word_sum BE l)) by lia.
  by apply Z.divide_sub_r.
Qed.

(** Kernel functions that satisfy the documentation. *)
Definition ref_fold (e : endian) (l : list Z) : Z := (- word_sum e l) mod 65535.

Definition ref_checksums (e : endian) : Checksums := {|
  csum_partial := fun data => word_sum e data;
  csum_ipv6_magic s d len proto csum :=
    (- (word_sum e (pseudo6 s d len proto) + csum)) mod 65535;
  csum_tcpudp_magic s d len proto csum :=
    (- (word_sum e (pseudo4 s d len proto) + csum)) mod 65535;
  ip_fast_csum := ref_fold e;
  ip_compute_csum := ref_fold e
|}.

Lemma ref_completes e l : completes e l ((- word_sum e l) mod 65535).
Proof.
  unfold completes. split; [pose proof (Z.mod_pos_bound (- word_sum e l) 65535); lia|].
  rewrite Zplus_mod_idemp_r. by rewrite Z.add_opp_diag_r.
Qed.

Lemma ref_checksum_laws e : @ChecksumLaws e (ref_checksums e).
Proof.
  split; cbn; intros.
  - rewrite <- word_sum_app; [apply ref_completes|].
    unfold pseudo6. rewrite !length_app, be_bytes_length. exists 20%nat. cbn. lia.
  - rewrite <- word_sum_app; [apply ref_completes|].
    unfold pseudo4. rewrite !length_app, be_bytes_length. exists 6%nat. cbn. lia.
  - apply ref_completes.
  - apply ref_completes.
Qed.
