(* ===== verification/SiitFacts.v ===== *)
(** * SIIT: lemmas

    Packets as records with their encodings, and the steps of the translations on
    buffers of known parts. *)

From Stdlib Require Import ZArith Lia.
From stdpp Require Import base list numbers option.
From S2P Require Import Prelude Bits Packet PacketFacts Siit Siit64.

(** ** Bit fields *)

Lemma lor_add a b k : 0 <= k -> 0 <= b < 2 ^ k -> Z.lor (a * 2 ^ k) b = a * 2 ^ k + b.
Proof.
  intros Hk Hb. assert (Z.land (a * 2 ^ k) b = 0) as Hz.
  { apply Z.bits_inj'. intros i Hi. rewrite Z.land_spec, Z.bits_0.
    destruct (Z.ltb_spec i k).
    - by rewrite Z.mul_pow2_bits_low.
    - rewrite (testbit_out_of_range b k) by done. apply andb_false_r. }
  by rewrite <- Z.lxor_lor, <- Z.add_nocarry_lxor.
Qed.

(** The two halves of a byte. *)
Lemma high_low_nibble u b v :
  0 <= u < 16 -> 0 <= v < 16 ->
  Z.lor (Z.land (Z.lor (Z.shiftl u 4) (Z.land b 15)) 240) v = 16 * u + v.
Proof.
  intros Hu Hv. change 15 with (Z.ones 4). rewrite Z.land_ones, Z.shiftl_mul_pow2 by lia.
  rewrite lor_add by (apply Z.mod_pos_bound || lia; lia). change 240 with (Z.shiftl (Z.ones 4) 4).
  set (r := b mod 2 ^ 4). assert (0 <= r < 16) by (apply Z.mod_pos_bound; lia).
  assert (Z.land (u * 2 ^ 4 + r) (Z.shiftl (Z.ones 4) 4) = u * 2 ^ 4) as ->.
  { apply Z.bits_inj'. intros i Hi. rewrite Z.land_spec, Z.shiftl_spec by done.
    destruct (Z.ltb_spec i 4).
    - rewrite (Z.testbit_neg_r _ (i - 4)), andb_false_r by lia. by rewrite Z.mul_pow2_bits_low.
    - destruct (Z.ltb_spec i 8).
      + rewrite Z.ones_spec_low, andb_true_r by lia.
        rewrite <- (Z.sub_add 4 i), <- !Z.shiftr_spec by lia. f_equal.
        rewrite !Z.shiftr_div_pow2 by lia. rewrite Z.div_mul by lia.
        symmetry. apply (Z.div_unique _ _ _ r); [left; done|lia].
      + rewrite !(testbit_out_of_range (u * 2 ^ 4) 8), (testbit_out_of_range (u * 2 ^ 4 + r) 8) by lia.
        done. }
  rewrite lor_add by lia. lia.
Qed.

Lemma tos_nibbles t :
  0 <= t < 256 ->
  Z.shiftr (Z.land t 0xf0) 4 = t / 16 /\ u8 (Z.shiftl (Z.land t 0x0f) 4) = t mod 16 * 16.
Proof.
  intros Ht. split.
  - rewrite Z.shiftr_land. change (Z.shiftr 0xf0 4) with (Z.ones 4).
    rewrite Z.land_ones, Z.shiftr_div_pow2 by lia. apply Z.mod_small.
    change (2 ^ 4) with 16. split; [apply Z.div_pos; lia|apply Z.div_lt_upper_bound; lia].
  - change 0x0f with (Z.ones 4). rewrite Z.land_ones, Z.shiftl_mul_pow2 by lia.
    change (2 ^ 4) with 16. apply wrap_small. change (2 ^ 8) with 256.
    pose proof (Z.mod_pos_bound t 16). lia.
Qed.

(** ** Headers as bytes *)

(** An IPv6 header with a traffic class; the flow label is zero. *)
Definition hdr6 (tc plen nh hop : Z) (s d : list Z) : list Z :=
  [96 + tc / 16; tc mod 16 * 16; 0; 0] ++ be_bytes 2 plen ++ [nh; hop] ++ s ++ d.

(** A fragment header. *)
Definition frag6 (nh off : Z) (more : bool) (ident : Z) : list Z :=
  [nh; 0] ++ be_bytes 2 (off * 8 + if more then 1 else 0) ++ be_bytes 4 ident.

(** The bytes of an IPv4 header before and after the checksum. *)
Definition hdr4 (ihl tos tot id off ttl proto : Z) : list Z :=
  [64 + ihl; tos] ++ be_bytes 2 tot ++ be_bytes 2 id ++ be_bytes 2 off ++ [ttl; proto].

(** Write over the part [c], or read the part [c], between [p] and [l]. *)
Ltac lengths := rewrite ?length_app, ?be_bytes_length; first [done | cbn [length]; lia].
Ltac poke_over p c l :=
  match goal with
  | |- context [poke ?o ?b ?m] =>
      let E := fresh "E" in
      assert (poke o b m = Ret tt (p ++ b ++ l)) as E
        by (replace m with (p ++ c ++ l) by (by rewrite <- ?app_assoc);
            apply poke_part; lengths);
      rewrite E; clear E; cbn [behind]; rewrite <- ?app_assoc; cbn [app]
  end.
Ltac get_over p c l :=
  match goal with
  | |- context [get ?o ?n ?m] =>
      let E := fresh "E" in
      assert (get o n m = Ret c m) as E
        by (replace m with (p ++ c ++ l) by (by rewrite <- ?app_assoc);
            apply (get_part p c l); lengths);
      rewrite E; clear E; cbn [behind]
  end.

(** Run code on a buffer whose first bytes are explicit. *)
Ltac run_concrete :=
  cbv beta iota delta [mbind prog_bind mret prog_ret set_high set_low get get16 poke16 poke32
    poke peek slice write]; cbn.

Section Four.
Context (e : endian) `{Checksums} (tos_ignore_flag : bool).

(** The traffic class the translation uses. *)
Definition class_of (t : Z) : Z := if tos_ignore_flag then 0 else t.

(** Source and destination are translated with the prefix of their side; the two
    prefixes have the same value. *)
Definition v6 (a : list Z) : list Z := v6_addr MAPPED_PREFIX a.

Lemma length_v6 a : length a = 4%nat -> length (v6 a) = 16%nat.
Proof. intros Ha. unfold v6, v6_addr. rewrite !length_app, be_bytes_length, Ha. done. Qed.

Lemma header_bytes h include_flag plen nh m :
  0 <= tos h < 256 -> length (saddr h) = 4%nat -> length (daddr h) = 4%nat ->
  (40 <= length m)%nat ->
  (base_header tos_ignore_flag h include_flag;; poke16 4 plen;; poke 6 [nh]) m
  = Ret tt (hdr6 (class_of (tos h)) plen nh (ttl h) (v6 (saddr h)) (v6 (daddr h)) ++ drop 40 m).
Proof.
  destruct h as [hl t tl i fo ttl_ pr sa da]. cbn [tos ttl saddr daddr]. intros Ht Hs Hd Hm.
  destruct (tos_nibbles t Ht) as [Hhi Hlo].
  do 40 (destruct m as [|? m]; [cbn in Hm; lia|]).
  destruct sa as [|s0 [|s1 [|s2 [|s3 [|]]]]]; try discriminate Hs.
  destruct da as [|d0 [|d1 [|d2 [|d3 [|]]]]]; try discriminate Hd.
  assert (0 <= t / 16 < 16) by (split; [apply Z.div_pos; lia|apply Z.div_lt_upper_bound; lia]).
  unfold base_header, traffic_class, class_of. cbn [tos ttl saddr daddr]. rewrite Hhi, Hlo.
  destruct tos_ignore_flag, include_flag; run_concrete;
    rewrite high_low_nibble by (done || lia); reflexivity.
Qed.

(** Offset and more-fragments flag of an IPv4 header. *)
Definition offset_of (h : iphdr) : Z := Z.land (frag_off h) IP_OFFSET.
Definition more_of (h : iphdr) : bool := Z.testbit (frag_off h) 13.

Lemma offset_range h : 0 <= frag_off h -> 0 <= offset_of h < 8192.
Proof.
  intros. unfold offset_of, IP_OFFSET. change 0x1FFF with (Z.ones 13).
  rewrite Z.land_ones by lia. apply Z.mod_pos_bound. lia.
Qed.

Lemma land_mf x : Z.land x IP_MF = if Z.testbit x 13 then 8192 else 0.
Proof.
  apply Z.bits_inj'. intros i Hi. unfold IP_MF. change 0x2000 with (2 ^ 13).
  rewrite Z.land_spec, Z.pow2_bits_eqb by lia.
  destruct (Z.eqb_spec 13 i) as [<-|Hne].
  - rewrite andb_true_r. by destruct (Z.testbit x 13).
  - rewrite andb_false_r. destruct (Z.testbit x 13); [|by rewrite Z.bits_0].
    change 8192 with (2 ^ 13). rewrite Z.pow2_bits_eqb by lia. by destruct (Z.eqb_spec 13 i).
Qed.

Lemma frag_word x (b : bool) :
  Z.lor (x * 8) (Z.shiftr (if b then 8192 else 0) 13) = x * 8 + if b then 1 else 0.
Proof. change 8 with (2 ^ 3). rewrite <- lor_add; destruct b; done || (cbn; lia). Qed.

Lemma fragment_header_bytes h m :
  frag_off h <> IP_DF -> 0 <= frag_off h -> (48 <= length m)%nat ->
  fragment_header h false m
  = Ret (true, u16 (tot_len h + 8), NEXTHDR_FRAGMENT)
      (take 40 m ++ frag6 (nexthdr_of h) (offset_of h) (more_of h) (id h) ++ drop 48 m).
Proof.
  intros Hdf Hf Hm. pose proof (offset_range h Hf) as Ho.
  destruct (split_buffer m 40 8) as (a & l & -> & Ha & Hl); [lia|].
  rewrite take_at, drop_app_ge by lia. rewrite Ha. cbn [Nat.sub].
  do 8 (destruct l as [|? l]; [cbn in Hl; lia|]).
  unfold fragment_header. rewrite (proj2 (Z.eqb_neq _ _) Hdf). cbn [orb].
  unfold mbind, prog_bind, poke16, poke32, get16, mbind, prog_bind.
  set (w := Z.shiftl _ 3).
  rewrite (poke_behind a _ 40 0) by done. cbn [poke behind length Nat.add Nat.leb write take drop app].
  rewrite (poke_behind a _ 40 2) by done. poke_over [nexthdr_of h; z0] [z1; z2] (z3 :: z4 :: z5 :: z6 :: l).
  rewrite (get_behind a _ 40 2) by done. get_over [nexthdr_of h; z0] (be_bytes 2 w) (z3 :: z4 :: z5 :: z6 :: l).
  unfold mret, prog_ret.
  rewrite (poke_behind a _ 40 2) by done.
  poke_over [nexthdr_of h; z0] (be_bytes 2 w) (z3 :: z4 :: z5 :: z6 :: l). set (f := Z.lor _ _).
  rewrite (poke_behind a _ 40 4) by done.
  poke_over ([nexthdr_of h; z0] ++ be_bytes 2 f) [z3; z4; z5; z6] l.
  rewrite (poke_behind a _ 40 1) by done.
  poke_over [nexthdr_of h] [z0] (be_bytes 2 f ++ be_bytes 4 (id h) ++ l).
  unfold IP6_FRAGMENT_SIZE.
  do 2 f_equal. unfold frag6. cbn [app drop].
  assert (f = offset_of h * 8 + if more_of h then 1 else 0) as <-; [|by rewrite <- app_assoc].
  unfold f, w. fold (offset_of h). rewrite land_mf, be_val_bytes, Z.shiftl_mul_pow2 by lia.
  change (2 ^ 3) with 8. rewrite Z.mod_small by (change (256 ^ Z.of_nat 2) with 65536; lia).
  apply frag_word.
Qed.

(** ** IPv4 packets *)

(** [p_frag] is the 16-bit field with the flags and the offset. *)
Record packet4 := Packet4 {
  p_tos : Z;
  p_id : Z;
  p_frag : Z;
  p_ttl : Z;
  p_proto : Z;
  p_src : list Z;
  p_dst : list Z;
  p_opts : list Z;
  p_data : list Z
}.

Definition total4 (p : packet4) : Z := 20 + Z.of_nat (length (p_opts p) + length (p_data p)).

Definition ihl_of (p : packet4) : Z := 5 + Z.of_nat (length (p_opts p)) / 4.

(** The header on the wire, with a checksum of [chk], and the packet. *)
Definition header4 (p : packet4) (chk : list Z) : list Z :=
  hdr4 (ihl_of p) (p_tos p) (total4 p) (p_id p) (p_frag p) (p_ttl p) (p_proto p)
  ++ chk ++ p_src p ++ p_dst p ++ p_opts p.

Definition encode4 (p : packet4) (chk : list Z) : list Z := header4 p chk ++ p_data p.

Record wf4 (p : packet4) : Prop := Wf4 {
  wf_tos : is_byte (p_tos p);
  wf_id : 0 <= p_id p < 65536;
  wf_frag : 0 <= p_frag p < 65536;
  wf_src : length (p_src p) = 4%nat;
  wf_dst : length (p_dst p) = 4%nat;
  wf_opts : exists k, (length (p_opts p) = 4 * k /\ k <= 10)%nat;
  wf_total : total4 p + 8 < 65536
}.

Definition header_of (p : packet4) : iphdr :=
  IpHdr (ihl_of p) (p_tos p) (total4 p) (p_id p) (p_frag p) (p_ttl p) (p_proto p) (p_src p)
    (p_dst p).

Lemma ihl_range p : wf4 p -> 5 <= ihl_of p <= 15 /\
  hdr_len (header_of p) = 20 + Z.of_nat (length (p_opts p)).
Proof.
  intros [_ _ _ _ _ (k & Hk & Hk') _]. unfold hdr_len, ihl_of. cbn [ihl header_of].
  unfold ihl_of. rewrite Hk, Nat2Z.inj_mul. change (Z.of_nat 4) with 4.
  rewrite Z.mul_comm, Z.div_mul by lia. lia.
Qed.

Lemma length_header4 p chk :
  wf4 p -> length chk = 2%nat ->
  Z.of_nat (length (header4 p chk)) = hdr_len (header_of p).
Proof.
  intros Hp Hc. rewrite (proj2 (ihl_range p Hp)). destruct Hp as [_ _ _ Hs Hd _ _].
  unfold header4, hdr4. rewrite !length_app, !be_bytes_length, Hc, Hs, Hd. cbn [length]. lia.
Qed.

Lemma read_header4 p chk tail :
  wf4 p -> length chk = 2%nat -> read_iphdr (header4 p chk ++ tail) = Some (header_of p).
Proof.
  intros Hp Hc. destruct (ihl_range p Hp) as [Hi _]. destruct Hp as [_ Hid Hfr Hs Hd _ Ht].
  assert (0 <= total4 p) by (unfold total4; lia).
  unfold header4, read_iphdr, header_of. rewrite <- !app_assoc.
  destruct (p_src p) as [|s0 [|s1 [|s2 [|s3 [|]]]]]; try discriminate Hs.
  destruct (p_dst p) as [|d0 [|d1 [|d2 [|d3 [|]]]]]; try discriminate Hd.
  destruct chk as [|c0 [|c1 [|]]]; try discriminate Hc.
  set (x := p_opts p ++ _).
  rewrite (app_assoc [s0; s1; s2; s3]), (app_assoc [c0; c1]), app_assoc, peek_front
    by (unfold hdr4; rewrite !length_app, !be_bytes_length; done).
  cbn [mbind option_bind]. do 2 f_equal.
  - cbn. change 15 with (Z.ones 4). rewrite Z.land_ones by lia. change (2 ^ 4) with 16.
    rewrite Z.add_comm. change 64 with (4 * 16). rewrite Z.mod_add by lia. apply Z.mod_small. lia.
  - etransitivity; [|apply (be_val_be2 (total4 p)); lia]. reflexivity.
  - etransitivity; [|apply (be_val_be2 (p_id p)); lia]. reflexivity.
  - etransitivity; [|apply (be_val_be2 (p_frag p)); lia]. reflexivity.
Qed.

(** Behind the header. *)
Lemma drop_header4 p chk tail :
  wf4 p -> length chk = 2%nat ->
  drop (Z.to_nat (hdr_len (header_of p))) (header4 p chk ++ tail) = tail.
Proof.
  intros Hp Hc. apply drop_at. rewrite <- (length_header4 p chk) by done. by rewrite Nat2Z.id.
Qed.

(** ** The headers in front of the payload *)

(** Does the packet get a fragment header? *)
Definition fragmented (p : packet4) (include_flag : bool) : bool :=
  negb ((p_frag p =? IP_DF) || include_flag).

Definition front_length (fr_flag : bool) : nat := if fr_flag then 48 else 40.

(** The headers of the translated packet for a payload of [n] bytes. *)
Definition front (p : packet4) (fr_flag : bool) (n : Z) : list Z :=
  let nh := nexthdr_of (header_of p) in
  hdr6 (class_of (p_tos p)) (n + if fr_flag then 8 else 0)
    (if fr_flag then NEXTHDR_FRAGMENT else nh) (p_ttl p) (v6 (p_src p)) (v6 (p_dst p))
  ++ (if fr_flag then frag6 nh (offset_of (header_of p)) (more_of (header_of p)) (p_id p) else []).

Lemma length_hdr6 tc plen nh hop s d :
  length s = 16%nat -> length d = 16%nat -> length (hdr6 tc plen nh hop s d) = 40%nat.
Proof. intros Hs Hd. unfold hdr6. rewrite !length_app, be_bytes_length, Hs, Hd. done. Qed.

Lemma length_front p fr_flag n : wf4 p -> length (front p fr_flag n) = front_length fr_flag.
Proof.
  intros [_ _ _ Hs Hd _ _]. unfold front. rewrite length_app, length_hdr6 by by apply length_v6.
  destruct fr_flag; [|done]. unfold frag6. by rewrite !length_app, !be_bytes_length.
Qed.

(** Everything up to the switch over the protocol. *)
Lemma ip4_ip6_front included p chk tail len include_flag m :
  wf4 p -> length chk = 2%nat ->
  let fr_flag := fragmented p include_flag in
  let n := Z.of_nat (length (p_data p)) in
  let h := header_of p in
  let src := header4 p chk ++ tail in
  (front_length fr_flag <= length m)%nat ->
  ip4_ip6_body e tos_ignore_flag included src len include_flag m
  = ((if p_proto p =? IPPROTO_ICMP then
        icmp_payload e included src len h include_flag fr_flag (n + if fr_flag then 8 else 0)
      else if p_proto p =? IPPROTO_TCP then
        copy (front_length fr_flag) (drop (Z.to_nat (hdr_len h)) src) (len - hdr_len h)
      else if p_proto p =? IPPROTO_UDP then
        udp_payload e src len h include_flag fr_flag (n + if fr_flag then 8 else 0)
      else return_error);; mret 0) (front p fr_flag n ++ drop (front_length fr_flag) m).
Proof.
  intros Hp Hc fr_flag n h src Hm. unfold ip4_ip6_body.
  assert (hdr_len h = 20 + Z.of_nat (length (p_opts p))) as Hlen by by apply ihl_range.
  assert (read_iphdr src = Some h) as -> by by apply read_header4.
  assert (total4 p - hdr_len h = n) as Hn by (rewrite Hlen; unfold total4, n; lia).
  assert (exists m1, fragment_header h include_flag m
    = Ret (fr_flag, hdr_len h + n + (if fr_flag then 8 else 0),
           if fr_flag then NEXTHDR_FRAGMENT else nexthdr_of h) m1 /\ (40 <= length m1)%nat /\
    drop 40 m1 = (if fr_flag then frag6 (nexthdr_of h) (offset_of h) (more_of h) (p_id p) else [])
                   ++ drop (front_length fr_flag) m) as (m1 & Hfrag & Hm1 & Hdrop).
  { unfold fr_flag, fragmented in *. destruct ((p_frag p =? IP_DF) || include_flag) eqn:Hfr;
      cbn [negb front_length] in *.
    - exists m. split; [|done]. unfold fragment_header. cbn [frag_off h header_of].
      rewrite Hfr. unfold mret, prog_ret. do 3 f_equal. cbn [tot_len h header_of]. lia.
    - apply orb_false_iff in Hfr as [Hfr ->].
      rewrite fragment_header_bytes; [|by apply Z.eqb_neq|by destruct Hp as [_ _ [? _]]|done].
      eexists. split; [|split].
      + do 3 f_equal. cbn [tot_len h header_of]. rewrite wrap_small; [lia|].
        destruct Hp as [_ _ _ _ _ _ Ht]. unfold total4 in *. change (2 ^ 16) with 65536. lia.
      + rewrite length_app, length_take. lia.
      + by rewrite drop_at by (rewrite length_take; lia). }
  unfold mbind, prog_bind, defined. rewrite Hfrag.
  replace (hdr_len h + n + (if fr_flag then 8 else 0) - hdr_len h)
    with (n + if fr_flag then 8 else 0) by lia.
  pose proof (header_bytes h include_flag (n + if fr_flag then 8 else 0)
    (if fr_flag then NEXTHDR_FRAGMENT else nexthdr_of h) m1) as Hh.
  destruct Hp as [Ht _ _ Hs Hd _ _].
  specialize (Hh Ht Hs Hd Hm1). unfold mbind, prog_bind in Hh.
  destruct (base_header tos_ignore_flag h include_flag m1) as [? m2| |]; try discriminate Hh.
  destruct (poke16 4 _ m2) as [? m3| |]; try discriminate Hh. rewrite Hh.
  rewrite Hdrop. unfold front. rewrite <- app_assoc. done.
Qed.

(** ** The checksum of what follows the headers *)

Definition csum6 (s d : list Z) (proto : Z) (b1 b2 : list Z) : list Z :=
  let body := b1 ++ [0; 0] ++ b2 in
  store e 2 (csum_ipv6_magic s d (Z.of_nat (length body)) proto (csum_partial body)).

Lemma store_csum6_run p8 s d tl b1 c b2 rest k n proto sum :
  length p8 = 8%nat -> length s = 16%nat -> length d = 16%nat ->
  length (p8 ++ s ++ d ++ tl) = k -> length c = 2%nat -> sum = (k + length b1)%nat ->
  n = Z.of_nat (length (b1 ++ c ++ b2)) ->
  store_csum6 e k n proto sum ((p8 ++ s ++ d ++ tl) ++ (b1 ++ c ++ b2) ++ rest)
  = Ret tt ((p8 ++ s ++ d ++ tl) ++ (b1 ++ csum6 s d proto b1 b2 ++ b2) ++ rest).
Proof.
  intros Hp Hs Hd Hk Hc -> Hn. unfold store_csum6, mbind, prog_bind.
  rewrite (poke_behind _ _ k) by done.
  assert (forall x, (b1 ++ x ++ b2) ++ rest = b1 ++ x ++ b2 ++ rest) as Hassoc
    by (intros; by rewrite <- !app_assoc).
  rewrite Hassoc, (poke_part b1 [0; 0] c) by done. cbn [behind]. rewrite <- Hassoc.
  rewrite (get_int_part _ (b1 ++ [0; 0] ++ b2)) by (done || (rewrite Hn, !length_app, Hc; done)).
  rewrite <- !(app_assoc p8), <- !(app_assoc s).
  rewrite (get_part p8) by done. rewrite (app_assoc p8), <- (app_assoc d).
  rewrite (get_part (p8 ++ s)) by (rewrite ?length_app; lia).
  rewrite (app_assoc d), (app_assoc (p8 ++ s)), Hassoc.
  assert (length ((p8 ++ s) ++ d ++ tl) = k) as Hk' by by rewrite <- app_assoc.
  rewrite (poke_behind _ _ k) by done. rewrite (poke_part b1 _ [0; 0]) by (rewrite ?store_length; done).
  cbn [behind]. unfold csum6.
  assert (Z.of_nat (length (b1 ++ [0; 0] ++ b2)) = n) as -> by (rewrite Hn, !length_app, Hc; done).
  by rewrite Hassoc, <- !app_assoc.
Qed.

Lemma csum6_verifies s d proto b1 b2 `{!ChecksumLaws e} :
  length s = 16%nat -> length d = 16%nat -> Nat.Even (length b1) ->
  verifies (pseudo6 s d (Z.of_nat (length (b1 ++ [0; 0] ++ b2))) proto
            ++ b1 ++ csum6 s d proto b1 b2 ++ b2).
Proof.
  intros Hs Hd [k Hk]. rewrite app_assoc. unfold csum6. apply completes_verifies.
  - unfold pseudo6. rewrite !length_app, be_bytes_length, Hs, Hd, Hk.
    exists (20 + k)%nat. cbn [length]. lia.
  - rewrite <- app_assoc. by apply csum_ipv6_completes.
Qed.

(** The headers, cut at the addresses. *)
Lemma front_parts p fr_flag n :
  exists p8 tl, front p fr_flag n = p8 ++ v6 (p_src p) ++ v6 (p_dst p) ++ tl /\
    length p8 = 8%nat.
Proof.
  unfold front, hdr6. set (tl := if fr_flag then frag6 _ _ _ _ else []).
  match goal with
  | |- context [?a ++ be_bytes 2 ?l ++ ?b ++ v6 _ ++ _] => exists (a ++ be_bytes 2 l ++ b), tl
  end.
  split; [by rewrite <- !app_assoc|by rewrite !length_app, be_bytes_length].
Qed.
End Four.
