(* ===== verification/SiitProofs.v ===== *)
(** * SIIT: what the translation to IPv6 promises

    The exact result for TCP, UDP and ICMP packets, with the checksums a receiver
    verifies. *)

From Stdlib Require Import ZArith Lia.
From stdpp Require Import base list numbers option.
From S2P Require Import Prelude Bits Packet PacketFacts Siit Siit64 SiitFacts.

(** A transport packet of which [tail] is left behind the header. *)
Definition included_ok (q : packet4) (tail : list Z) : Prop :=
  p_proto q = IPPROTO_TCP \/
  p_proto q = IPPROTO_UDP /\ (offset_of (header_of q) <> 0 \/ (8 <= length tail)%nat).

Definition transport_ok (p : packet4) : Prop := included_ok p (p_data p).

Section Transport.
Context (e : endian) `{Checksums} (tos_ignore_flag : bool).

(** ** TCP and UDP *)

(** A UDP packet, or the first fragment of one, that has no checksum. *)
Definition no_checksum (p : packet4) : bool :=
  (p_proto p =? IPPROTO_UDP) && (offset_of (header_of p) =? 0)
  && (be_val (slice 6 2 (p_data p)) =? 0).

(** The payload of the translated packet: a checksum is put in where IPv4 allowed
    to leave it out. *)
Definition transport_data (p : packet4) (include_flag : bool) : list Z :=
  if no_checksum p && negb (more_of (header_of p)) && negb include_flag then
    take 6 (p_data p)
    ++ csum6 e (v6 (p_src p)) (v6 (p_dst p)) IPPROTO_UDP (take 6 (p_data p)) (drop 8 (p_data p))
    ++ drop 8 (p_data p)
  else p_data p.

Lemma udp_parts (l : list Z) :
  (8 <= length l)%nat -> l = take 6 l ++ slice 6 2 l ++ drop 8 l.
Proof.
  intros Hl. unfold slice. change 8%nat with (6 + 2)%nat. by rewrite <- drop_drop, !take_drop.
Qed.

Lemma udp_check (l r : list Z) :
  (8 <= length l)%nat -> peek16 6 (l ++ r) = Some (be_val (slice 6 2 l)).
Proof.
  intros Hl. unfold peek16. rewrite (udp_parts l) at 1 by done. rewrite <- !app_assoc.
  rewrite peek_part; [done|rewrite length_take; lia|apply length_slice; lia].
Qed.

(** The checksum put into a UDP packet behind the headers. *)
Lemma udp_csum_run p fr_flag m :
  wf4 p -> (8 <= length (p_data p))%nat ->
  let n := Z.of_nat (length (p_data p)) in
  let hdr := front tos_ignore_flag p fr_flag n in
  store_csum6 e (front_length fr_flag) n IPPROTO_UDP (front_length fr_flag + 6) (hdr ++ p_data p ++ m)
  = Ret tt (hdr ++ (take 6 (p_data p)
      ++ csum6 e (v6 (p_src p)) (v6 (p_dst p)) IPPROTO_UDP (take 6 (p_data p)) (drop 8 (p_data p))
      ++ drop 8 (p_data p)) ++ m).
Proof.
  intros Hp Hlen n hdr. unfold hdr.
  pose proof (length_front tos_ignore_flag p fr_flag n Hp) as Hk.
  destruct (front_parts tos_ignore_flag p fr_flag n) as (p8 & tl & Hf & Hp8).
  rewrite Hf in *. rewrite (udp_parts (p_data p)) at 1 by done.
  apply (store_csum6_run e p8 (v6 (p_src p)) (v6 (p_dst p)) tl (take 6 (p_data p))
    (slice 6 2 (p_data p))); try done; rewrite <- ?udp_parts by done; try done;
    [apply length_v6, Hp|apply length_v6, Hp|apply length_slice; lia|rewrite length_take; lia].
Qed.

Lemma udp_payload_run p chk extra include_flag rest :
  wf4 p -> length chk = 2%nat -> p_proto p = IPPROTO_UDP -> transport_ok p ->
  let fr_flag := fragmented p include_flag in
  let n := Z.of_nat (length (p_data p)) in
  (length (p_data p) <= length rest)%nat ->
  udp_payload e (encode4 p chk ++ extra) (total4 p) (header_of p) include_flag fr_flag
    (n + if fr_flag then 8 else 0) (front tos_ignore_flag p fr_flag n ++ rest)
  = if no_checksum p && more_of (header_of p)
    then Exit (-1) (front tos_ignore_flag p fr_flag n ++ rest)
    else Ret tt (front tos_ignore_flag p fr_flag n ++ transport_data p include_flag
                 ++ drop (length (p_data p)) rest).
Proof.
  intros Hp Hc Hudp Hok fr_flag n Hrest.
  unfold udp_payload, encode4. rewrite <- app_assoc, drop_header4 by done.
  pose proof (length_front tos_ignore_flag p fr_flag n Hp) as Hk.
  unfold transport_data, no_checksum.
  rewrite Hudp. cbn [Z.eqb Pos.eqb IPPROTO_UDP andb]. fold (offset_of (header_of p)).
  rewrite land_mf. fold (more_of (header_of p)).
  assert (forall m : list Z, length m = front_length fr_flag ->
    copy (front_length fr_flag) (p_data p ++ extra) (total4 p - hdr_len (header_of p)) (m ++ rest)
    = Ret tt (m ++ p_data p ++ drop (length (p_data p)) rest)) as Hcopy.
  { intros m Hm. apply copy_app; [done| |done|by apply take_app_length].
    rewrite (proj2 (ihl_range p Hp)). unfold total4. lia. }
  change (if fr_flag then 48%nat else 40%nat) with (front_length fr_flag).
  unfold mbind, prog_bind.
  destruct (Z.eqb_spec (offset_of (header_of p)) 0) as [Ho|Ho]; cbn [andb];
    unfold mret, prog_ret; [|by rewrite Hcopy].
  assert (8 <= length (p_data p))%nat as Hlen
    by (destruct Hok as [Htcp|[_ [|]]]; [by rewrite Htcp in Hudp|done..]).
  rewrite udp_check by done. unfold defined.
  destruct (more_of (header_of p)); cbn [negb Z.eqb andb].
  - destruct (be_val _ =? 0); [done|]. by rewrite Hcopy.
  - rewrite Hcopy by done.
    destruct (be_val _ =? 0); cbn [andb]; [|done].
    destruct include_flag; cbn [andb negb]; [done|].
    replace (n + (if fr_flag then 8 else 0) - (if fr_flag then IP6_FRAGMENT_SIZE else 0))
      with n by (unfold IP6_FRAGMENT_SIZE; destruct fr_flag; lia).
    by rewrite (udp_csum_run p fr_flag).
Qed.

(** ** Checksums that stay valid *)

(** The prefix is neutral: its words add up to zero in one's complement. *)
Lemma word_sum_pseudo6 s d n proto :
  length s = 4%nat -> length d = 4%nat -> 0 <= n < 65536 ->
  word_sum BE (pseudo6 (v6 s) (v6 d) n proto) = word_sum BE (pseudo4 s d n proto) + 2 * 65535.
Proof.
  intros Hs Hd Hn.
  destruct s as [|s0 [|s1 [|s2 [|s3 [|]]]]]; try discriminate Hs.
  destruct d as [|d0 [|d1 [|d2 [|d3 [|]]]]]; try discriminate Hd.
  unfold pseudo6, pseudo4, v6, v6_addr. change (be_bytes 4 MAPPED_PREFIX) with [0; 0; 255; 255].
  assert (be_bytes 4 n = 0 :: 0 :: be_bytes 2 n) as ->.
  { change (be_bytes 4 n) with
      [n / 256 / 256 / 256 mod 256; n / 256 / 256 mod 256; n / 256 mod 256; n mod 256].
    change (be_bytes 2 n) with [n / 256 mod 256; n mod 256].
    rewrite (Z.div_div n 256 256) by lia. by rewrite (Z.div_small n (256 * 256)) by lia. }
  change (be_bytes 2 n) with [n / 256 mod 256; n mod 256].
  cbn [app replicate word_sum load]. unfold be_val. cbn [reverse rev_append le_val]. lia.
Qed.

Lemma even_pseudo6 s d n proto :
  length s = 4%nat -> length d = 4%nat -> Nat.Even (length (pseudo6 (v6 s) (v6 d) n proto)).
Proof.
  intros Hs Hd. unfold pseudo6. rewrite !length_app, be_bytes_length, !length_v6 by done.
  by exists 20%nat.
Qed.

Lemma even_pseudo4 s d n proto :
  length s = 4%nat -> length d = 4%nat -> Nat.Even (length (pseudo4 s d n proto)).
Proof.
  intros Hs Hd. unfold pseudo4. rewrite !length_app, be_bytes_length, Hs, Hd. by exists 6%nat.
Qed.

Lemma verifies_v6 s d n proto l :
  length s = 4%nat -> length d = 4%nat -> 0 <= n < 65536 ->
  verifies (pseudo4 s d n proto ++ l) <-> verifies (pseudo6 (v6 s) (v6 d) n proto ++ l).
Proof.
  intros Hs Hd Hn. unfold verifies.
  rewrite !word_sum_app by (by apply even_pseudo4 || by apply even_pseudo6).
  rewrite word_sum_pseudo6 by done.
  replace (word_sum BE (pseudo4 s d n proto) + 2 * 65535 + word_sum BE l)
    with (word_sum BE (pseudo4 s d n proto) + word_sum BE l + 2 * 65535) by lia.
  by rewrite Z.mod_add by lia.
Qed.

Lemma verifies_filled p `{!ChecksumLaws e} :
  wf4 p -> (8 <= length (p_data p))%nat ->
  verifies (pseudo6 (v6 (p_src p)) (v6 (p_dst p)) (Z.of_nat (length (p_data p))) IPPROTO_UDP
    ++ take 6 (p_data p)
    ++ csum6 e (v6 (p_src p)) (v6 (p_dst p)) IPPROTO_UDP (take 6 (p_data p)) (drop 8 (p_data p))
    ++ drop 8 (p_data p)).
Proof.
  intros Hp Hl.
  assert (length (p_data p) = length (take 6 (p_data p) ++ [0; 0] ++ drop 8 (p_data p))) as ->.
  { rewrite !length_app, length_take, length_drop. cbn [length]. lia. }
  apply csum6_verifies; [done|apply length_v6, Hp|apply length_v6, Hp|].
  rewrite length_take. exists 3%nat. lia.
Qed.

(** ** The whole packet *)

(** A packet that gets a checksum has room for one. *)
Lemma no_checksum_length p (a b : bool) :
  no_checksum p && a && b = true -> transport_ok p ->
  p_proto p = IPPROTO_UDP /\ (8 <= length (p_data p))%nat.
Proof.
  intros Hf Ht. unfold no_checksum in Hf. rewrite !andb_true_iff in Hf.
  destruct Hf as [[[[Hu%Z.eqb_eq Ho%Z.eqb_eq] _] _] _].
  destruct Ht as [Ht|[_ [|]]]; [by rewrite Ht in Hu|done..].
Qed.

Lemma length_transport_data p include_flag :
  transport_ok p -> length (transport_data p include_flag) = length (p_data p).
Proof.
  intros Hp. unfold transport_data. destruct (no_checksum p && _ && _) eqn:Hf; [|done].
  apply no_checksum_length in Hf; [|done].
  unfold csum6. rewrite !length_app, store_length, length_take, length_drop. lia.
Qed.

Lemma ip4_ip6_run p chk extra include_flag m :
  wf4 p -> length chk = 2%nat -> transport_ok p ->
  let fr_flag := fragmented p include_flag in
  let hdr := front tos_ignore_flag p fr_flag (Z.of_nat (length (p_data p))) in
  (front_length fr_flag + length (p_data p) <= length m)%nat ->
  ip4_ip6 e tos_ignore_flag (encode4 p chk ++ extra) (total4 p) include_flag m
  = if no_checksum p && more_of (header_of p)
    then Exit (-1) (hdr ++ drop (front_length fr_flag) m)
    else Ret 0 (hdr ++ transport_data p include_flag
                ++ drop (front_length fr_flag + length (p_data p)) m).
Proof.
  intros Hp Hc Hproto fr_flag hdr Hm. unfold hdr, ip4_ip6, encode4.
  rewrite <- app_assoc. rewrite ip4_ip6_front by (done || (fold fr_flag; lia)).
  fold fr_flag. fold hdr. rewrite <- drop_drop. pose proof Hproto as [Htcp|[Hudp _]].
  - unfold transport_data, no_checksum. rewrite Htcp.
    cbn [Z.eqb Pos.eqb andb IPPROTO_ICMP IPPROTO_TCP IPPROTO_UDP].
    unfold mbind, prog_bind. rewrite drop_header4 by done.
    rewrite (copy_app _ _ (p_data p)); [done|by apply length_front| |
      rewrite length_drop; lia|by apply take_app_length].
    rewrite (proj2 (ihl_range p Hp)). unfold total4. lia.
  - assert ((p_proto p =? IPPROTO_ICMP) = false) as -> by by rewrite Hudp.
    assert ((p_proto p =? IPPROTO_TCP) = false) as -> by by rewrite Hudp.
    assert ((p_proto p =? IPPROTO_UDP) = true) as -> by by rewrite Hudp.
    unfold mbind, prog_bind, hdr. rewrite (app_assoc (header4 p chk)). fold (encode4 p chk).
    rewrite udp_payload_run by (done || (rewrite length_drop; lia)).
    by destruct (no_checksum p && more_of (header_of p)).
Qed.
End Transport.

(** C30. A TCP or UDP packet is translated to exactly one IPv6 packet: a header with the
    traffic class, the hop limit and both addresses behind the prefix the code defines,
    [::ffff:0:0/96], a fragment header when the packet is a fragment or may be fragmented,
    and the payload as it was. (RFC 2765 has this prefix for the IPv4 side only, and
    [::ffff:0:0:0/96] for the IPv6 side; the comments in siit.c want [::ffff:ffff:0:0/96]
    for the IPv4 side.) A UDP packet without a checksum gets one, which verifies; the first
    fragment of one is dropped. A transport checksum that verified before does so after the
    translation, because the prefix is neutral. *)
Theorem ip4_ip6_transport (e : endian) (Hck : Checksums) (Hlaws : ChecksumLaws e) (tos_ignore : bool)
    (p : packet4) (chk extra : list Z) (include_flag : bool) (m : list Z)
    (Hp : wf4 p) (Hc : length chk = 2%nat) (Hproto : transport_ok p)
    (Hm : (front_length (fragmented p include_flag) + length (p_data p) <= length m)%nat) :
  let fr_flag := fragmented p include_flag in
  let n := Z.of_nat (length (p_data p)) in
  let hdr := front tos_ignore p fr_flag n in
  let data := transport_data e p include_flag in
  ip4_ip6 e tos_ignore (encode4 p chk ++ extra) (total4 p) include_flag m
  = (if no_checksum p && more_of (header_of p)
     then Exit (-1) (hdr ++ drop (front_length fr_flag) m)
     else Ret 0 (hdr ++ data ++ drop (front_length fr_flag + length (p_data p)) m)) /\
  (no_checksum p && negb (more_of (header_of p)) && negb include_flag = true ->
   verifies (pseudo6 (v6 (p_src p)) (v6 (p_dst p)) n (p_proto p) ++ data)) /\
  (verifies (pseudo4 (p_src p) (p_dst p) n (p_proto p) ++ p_data p) ->
   verifies (pseudo6 (v6 (p_src p)) (v6 (p_dst p)) n (p_proto p) ++ p_data p)).
Proof.
  intros fr_flag n hdr data. split; [by apply ip4_ip6_run|split].
  - intros Hf. unfold data, transport_data. rewrite Hf.
    destruct (no_checksum_length p _ _ Hf Hproto) as [-> Hl]. by apply verifies_filled.
  - intros Hv. destruct Hp as [_ _ _ Hs Hd _ Ht]. apply verifies_v6; [done..| |done].
    unfold n, total4 in *. lia.
Qed.

(** An UDP packet with options and without a checksum, on a little-endian host. *)
Definition sample_udp : packet4 :=
  Packet4 16 7 0 64 17 [10; 0; 0; 1] [10; 0; 0; 2] [1; 1; 1; 1]
    [0; 53; 0; 54; 0; 10; 0; 0; 104; 105].

Lemma sample_udp_wf : wf4 sample_udp.
Proof.
  split; try done; [exists 1%nat; split; [reflexivity|lia]].
Qed.

Lemma ip4_ip6_transport_witness :
  @ip4_ip6 LE (ref_checksums LE) false (encode4 sample_udp [0; 0]) 34 false (replicate 58 9)
  = Ret 0 [97; 0; 0; 0; 0; 18; 44; 64;
      0; 0; 0; 0; 0; 0; 0; 0; 0; 0; 255; 255; 10; 0; 0; 1;
      0; 0; 0; 0; 0; 0; 0; 0; 0; 0; 255; 255; 10; 0; 0; 2;
      17; 0; 0; 0; 0; 0; 0; 7; 0; 53; 0; 54; 0; 10; 131; 3; 104; 105].
Proof.
  refine (eq_trans (proj1 (ip4_ip6_transport LE (ref_checksums LE) (ref_checksum_laws LE) false
    sample_udp [0; 0] [] false (replicate 58 9) sample_udp_wf _ _ _)) _).
  - reflexivity.
  - right. split; [reflexivity|right; vm_compute; lia].
  - vm_compute. lia.
  - vm_compute. reflexivity.
Defined.
