(* ===== verification/SiitIcmp.v ===== *)
(** * SIIT: ICMP messages

    The ICMPv6 message that comes of an ICMP message, the packet included in an
    error, and the checksum over all of it. *)

From Stdlib Require Import ZArith Lia.
From stdpp Require Import base list numbers option.
From S2P Require Import Prelude Bits Packet PacketFacts Siit Siit64 SiitFacts SiitProofs.

(** ** The table of RFC 2765, section 3.3 *)

(** Type and code of the ICMPv6 error for an ICMP error; [None]: it is dropped. *)
Definition error6 (type code : Z) : option (Z * Z) :=
  match type, code with
  | 3, (0 | 1 | 5 | 6 | 7 | 8 | 11 | 12) => Some (1, 0)
  | 3, 2 => Some (4, 1)
  | 3, 3 => Some (1, 4)
  | 3, 4 => Some (2, 0)
  | 3, (9 | 10) => Some (1, 1)
  | 11, c => Some (3, c)
  | 12, c => Some (4, c)
  | _, _ => None
  end.

(** The word behind the checksum, made from the one of the ICMP error; [None]: it is
    not written. *)
Definition word6 (type code : Z) (w : list Z) : option Z :=
  match type, code with
  | 3, 2 => Some 6
  | 3, 4 => let mtu := be_val (slice 2 2 w) in Some (if mtu =? 0 then 576 else mtu + 20)
  | 3, _ => Some 0
  | 12, _ => Some (icmp6_pointer (w !!! 0%nat))
  | _, _ => None
  end.

(** A concrete branch of a switch over a code. *)
Lemma code_cases (code : Z) :
  (exists k : nat, code = Z.of_nat k /\ (k <= 12)%nat) \/ (code < 0 \/ 12 < code).
Proof.
  destruct (Z.ltb_spec code 0); [by right; left|]. destruct (Z.ltb_spec 12 code); [by right; right|].
  left. exists (Z.to_nat code). lia.
Qed.

Section Icmp.
Context (e : endian) `{Checksums} (tos_ignore_flag : bool).

(** What [dest_unreach] leaves in the eight bytes of the header. *)
Lemma dest_unreach_run code c0 c1 w x j0 j1 j2 j3 j4 j5 j6 j7 r :
  length w = 4%nat ->
  dest_unreach ([3; code; c0; c1] ++ w ++ x) code (j0 :: j1 :: j2 :: j3 :: j4 :: j5 :: j6 :: j7 :: r)
  = match error6 3 code, word6 3 code w with
    | Some (t6, c6), Some v => Ret tt (t6 :: c6 :: j2 :: j3 :: be_bytes 4 v ++ r)
    | _, _ => Exit (-1) (1 :: j1 :: j2 :: j3 :: 0 :: 0 :: 0 :: 0 :: r)
    end.
Proof.
  intros Hw. destruct w as [|w0 [|w1 [|w2 [|w3 [|]]]]]; try discriminate Hw.
  destruct (code_cases code) as [(k & -> & Hk)|Hc].
  - do 13 (destruct k as [|k]; [reflexivity|]). lia.
  - assert (error6 3 code = None) as ->.
    { destruct code as [|c|c]; [lia| |done]. do 4 (destruct c as [c|c|]; try done; try lia). }
    unfold dest_unreach. rewrite !bool_decide_eq_false_2
      by (rewrite !elem_of_cons, elem_of_nil; lia).
    rewrite !(proj2 (Z.eqb_neq _ _)) by lia. reflexivity.
Qed.

Lemma error6_type type code t6 c6 :
  error6 type code = Some (t6, c6) -> type = 3 \/ type = 11 \/ type = 12.
Proof.
  destruct type as [|t|t]; try discriminate.
  do 4 (destruct t as [t|t|]; try discriminate; auto).
Qed.

Lemma error6_none type code :
  type <> 3 -> type <> 11 -> type <> 12 -> error6 type code = None.
Proof.
  intros. destruct (error6 type code) as [[t6 c6]|] eqn:E; [|done].
  by apply error6_type in E as [|[|]].
Qed.

Lemma pointer_byte w0 w1 : 0 <= w1 < 256 -> Z.shiftr (be_val [w0; w1]) 8 = w0.
Proof.
  intros. rewrite Z.shiftr_div_pow2 by lia. change (2 ^ 8) with 256.
  unfold be_val. cbn [reverse rev_append le_val].
  symmetry. apply (Z.div_unique _ 256 _ w1); lia.
Qed.

Lemma icmp_error_run type code c0 c1 w x len j0 j1 j2 j3 jw r :
  length w = 4%nat -> bytes_ok w -> length jw = 4%nat -> type <> 8 -> type <> 0 ->
  match error6 type code with
  | Some (t6, c6) =>
      icmp_message ([type; code; c0; c1] ++ w ++ x) len (j0 :: j1 :: j2 :: j3 :: jw ++ r)
      = Ret true (t6 :: c6 :: j2 :: j3 :: match word6 type code w with
                                        | Some v => be_bytes 4 v
                                        | None => jw
                                        end ++ r)
  | None => exists m',
      icmp_message ([type; code; c0; c1] ++ w ++ x) len (j0 :: j1 :: j2 :: j3 :: jw ++ r)
      = Exit (-1) m'
  end.
Proof.
  intros Hw Hb Hj H8 H0. destruct jw as [|j4 [|j5 [|j6 [|j7 [|]]]]]; try discriminate Hj.
  unfold icmp_message, mbind, prog_bind, defined.
  set (icmp := [type; code; c0; c1] ++ w ++ x).
  change (peek8 0 icmp) with (Some type). change (peek8 1 icmp) with (Some code). cbn beta iota.
  destruct (Z.eqb_spec type ICMP_DEST_UNREACH) as [->|H3].
  { unfold icmp, ICMP_DEST_UNREACH. cbn [app]. cbn beta iota.
    pose proof (dest_unreach_run code c0 c1 w x j0 j1 j2 j3 j4 j5 j6 j7 r Hw) as E.
    cbn [app] in E. rewrite E. destruct (error6 3 code) as [[t6 c6]|] eqn:E6; [|by eexists].
    destruct (word6 3 code w) as [v|] eqn:Ew; [done|].
    exfalso. unfold word6 in Ew. destruct code as [|[c|[c|[c|c|]|]|]|]; discriminate. }
  destruct (Z.eqb_spec type ICMP_TIME_EXCEEDED) as [->|H11]; [reflexivity|].
  destruct (Z.eqb_spec type ICMP_PARAMETERPROB) as [->|H12].
  { destruct w as [|w0 [|w1 [|w2 [|w3 [|]]]]]; try discriminate Hw.
    cbn [error6 word6 ICMP_PARAMETERPROB]. change ([w0; w1; w2; w3] !!! 0%nat) with w0.
    rewrite <- (pointer_byte w0 w1) by (by inversion Hb as [|? ? ? Hb']; inversion Hb').
    reflexivity. }
  rewrite error6_none by done.
  rewrite (proj2 (Z.eqb_neq type ICMP_ECHO)), (proj2 (Z.eqb_neq type ICMP_ECHOREPLY)) by done.
  by eexists.
Qed.

(** ** The included packet *)

(** A first fragment of UDP without checksum. *)
Definition included_dropped (q : packet4) (tail : list Z) : bool :=
  (p_proto q =? IPPROTO_UDP) && (offset_of (header_of q) =? 0) && more_of (header_of q)
  && (be_val (slice 6 2 tail) =? 0).

Lemma fragmented_included q : fragmented q true = false.
Proof. unfold fragmented. by rewrite orb_true_r. Qed.

Lemma included_run q chk tail extra m :
  wf4 q -> length chk = 2%nat -> included_ok q tail -> (40 + length tail <= length m)%nat ->
  let n := Z.of_nat (length (p_data q)) in
  ip4_ip6_included e tos_ignore_flag (header4 q chk ++ tail ++ extra)
    (hdr_len (header_of q) + Z.of_nat (length tail)) m
  = if included_dropped q tail then Exit (-1) (front tos_ignore_flag q false n ++ drop 40 m)
    else Ret 0 (front tos_ignore_flag q false n ++ tail ++ drop (40 + length tail) m).
Proof.
  intros Hq Hc Hok Hm n. unfold ip4_ip6_included.
  pose proof (ip4_ip6_front e tos_ignore_flag (fun _ _ => undef) q chk (tail ++ extra)
    (hdr_len (header_of q) + Z.of_nat (length tail)) true m Hq Hc) as Hfront.
  rewrite fragmented_included in Hfront. cbn [front_length] in Hfront. rewrite Hfront by lia.
  clear Hfront. fold n. rewrite <- drop_drop, drop_header4 by done.
  assert (copy 40 (tail ++ extra) (hdr_len (header_of q) + Z.of_nat (length tail) - hdr_len (header_of q))
    (front tos_ignore_flag q false n ++ drop 40 m)
    = Ret tt (front tos_ignore_flag q false n ++ tail ++ drop (length tail) (drop 40 m))) as Hcopy.
  { apply copy_app; [by apply length_front|lia|rewrite length_drop; lia|by apply take_app_length]. }
  unfold included_dropped. destruct Hok as [Htcp|[Hudp Hoff]].
  - rewrite Htcp. cbn [Z.eqb Pos.eqb andb IPPROTO_ICMP IPPROTO_TCP IPPROTO_UDP].
    unfold mbind, prog_bind. by rewrite Hcopy.
  - rewrite Hudp. cbn [Z.eqb Pos.eqb andb IPPROTO_ICMP IPPROTO_TCP IPPROTO_UDP].
    unfold udp_payload. rewrite drop_header4 by done. fold (offset_of (header_of q)).
    rewrite land_mf. fold (more_of (header_of q)). cbn [front_length].
    destruct (Z.eqb_spec (offset_of (header_of q)) 0) as [Ho|Ho]; cbn [andb].
    + destruct Hoff as [|Hl]; [done|].
      rewrite udp_check by done.
      unfold mbind, prog_bind, defined.
      destruct (more_of (header_of q)); cbn [negb Z.eqb andb];
        destruct (be_val _ =? 0); try done; unfold mret, prog_ret; by rewrite Hcopy.
    + unfold mbind, prog_bind, mret, prog_ret. by rewrite Hcopy.
Qed.

(** ** Whole messages *)

Definition echo6 (type : Z) : Z := if type =? ICMP_ECHO then ICMPV6_ECHO_REQUEST else ICMPV6_ECHO_REPLY.

Lemma echo_run type code c0 c1 rest x n j0 j1 j2 j3 r :
  type = ICMP_ECHO \/ type = ICMP_ECHOREPLY -> n = 4 + Z.of_nat (length rest) ->
  (length rest <= length r)%nat ->
  icmp_message ([type; code; c0; c1] ++ rest ++ x) n (j0 :: j1 :: j2 :: j3 :: r)
  = Ret false (echo6 type :: 0 :: j2 :: j3 :: rest ++ drop (length rest) r).
Proof.
  intros Ht -> Hr. unfold icmp_message, mbind, prog_bind, defined.
  set (icmp := [type; code; c0; c1] ++ rest ++ x).
  change (peek8 0 icmp) with (Some type). cbn beta iota.
  assert (forall t, copy 4 (drop 4 icmp) (4 + Z.of_nat (length rest) - 4) ([t; 0; j2; j3] ++ r)
    = Ret tt ([t; 0; j2; j3] ++ rest ++ drop (length rest) r)) as Hcopy.
  { intros t. apply copy_app; [done|lia|done|]. by apply take_app_length. }
  cbn [app] in Hcopy.
  by destruct Ht as [-> | ->]; cbn [Z.eqb Pos.eqb orb ICMP_DEST_UNREACH ICMP_TIME_EXCEEDED
    ICMP_PARAMETERPROB ICMP_ECHO ICMP_ECHOREPLY]; cbn [poke length Nat.add Nat.leb write take drop app];
    rewrite Hcopy.
Qed.

Lemma front_csum_run p fr_flag n b1 c b2 rest :
  wf4 p -> length c = 2%nat -> length b1 = 2%nat ->
  store_csum6 e (front_length fr_flag) (Z.of_nat (length (b1 ++ c ++ b2))) NEXTHDR_ICMP
    (front_length fr_flag + 2) (front tos_ignore_flag p fr_flag n ++ (b1 ++ c ++ b2) ++ rest)
  = Ret tt (front tos_ignore_flag p fr_flag n
            ++ (b1 ++ csum6 e (v6 (p_src p)) (v6 (p_dst p)) NEXTHDR_ICMP b1 b2 ++ b2) ++ rest).
Proof.
  intros Hp Hc Hb. pose proof (length_front tos_ignore_flag p fr_flag n Hp) as Hk.
  destruct (front_parts tos_ignore_flag p fr_flag n) as (p8 & tl & Hf & Hp8). rewrite Hf in *.
  apply store_csum6_run; try done; [apply length_v6, Hp|apply length_v6, Hp|by rewrite Hb].
Qed.

(** Correcting the payload length. *)
Lemma front_length_patch p fr_flag n x r :
  poke16 4 (x + if fr_flag : bool then 8 else 0) (front tos_ignore_flag p fr_flag n ++ r)
  = Ret tt (front tos_ignore_flag p fr_flag x ++ r).
Proof.
  unfold poke16, front, hdr6. rewrite <- !app_assoc. by apply poke_part.
Qed.

(** The switch of an unfragmented ICMP packet, in front of the checksum. *)
Lemma icmp_payload_run p chk extra m type code c0 c1 w inner :
  wf4 p -> length chk = 2%nat -> p_data p = [type; code; c0; c1] ++ w ++ inner ->
  p_proto p = IPPROTO_ICMP ->
  offset_of (header_of p) = 0 -> more_of (header_of p) = false ->
  let fr_flag := fragmented p false in
  let n := Z.of_nat (length (p_data p)) in
  let k := front_length fr_flag in
  let icmp := [type; code; c0; c1] ++ w ++ inner ++ extra in
  (k <= length m)%nat ->
  ip4_ip6 e tos_ignore_flag (encode4 p chk ++ extra) (total4 p) false m
  = (icmperr ← at_offset k (icmp_message icmp n);
     icmp_len ← (if icmperr : bool then
                   at_offset (k + 8) (ip4_ip6_included e tos_ignore_flag (drop 8 icmp) (n - 8));;
                   poke16 4 (n + 20 + if fr_flag then 8 else 0);; mret (n + 20)
                 else mret n);
     store_csum6 e k icmp_len NEXTHDR_ICMP (k + 2);; mret 0)
    (front tos_ignore_flag p fr_flag n ++ drop k m).
Proof.
  intros Hp Hc Hdata Hproto Hoff Hmore fr_flag n k icmp Hm. unfold ip4_ip6, encode4.
  rewrite <- app_assoc, ip4_ip6_front by (done || (fold fr_flag; done)).
  rewrite Hproto. cbn [Z.eqb Pos.eqb IPPROTO_ICMP]. unfold icmp_payload.
  fold (offset_of (header_of p)). rewrite land_mf. fold (more_of (header_of p)).
  rewrite Hoff, Hmore. cbn [Z.eqb negb orb]. rewrite drop_header4 by done.
  rewrite Hdata, <- !app_assoc. fold icmp.
  replace (total4 p - hdr_len (header_of p)) with n
    by (rewrite (proj2 (ihl_range p Hp)); unfold total4, n; lia).
  change (if fragmented p false then 48%nat else 40%nat) with k.
  cbn [tot_len header_of].
  replace (total4 p - hdr_len (header_of p)) with n
    by (rewrite (proj2 (ihl_range p Hp)); unfold total4, n; lia).
  replace (Z.of_nat (length ([type; code; c0; c1] ++ w ++ inner))) with n
    by (unfold n; by rewrite Hdata).
  fold n fr_flag. unfold mbind, prog_bind.
  replace (n + (if fr_flag then 8 else 0) + 20) with (n + 20 + if fr_flag then 8 else 0) by lia.
  destruct (at_offset k _ _) as [[] m1|? ?|]; try done.
  destruct (at_offset (k + 8) _ m1) as [? m2|? ?|]; try done.
  by destruct (poke16 4 _ m2).
Qed.

(** ** Each kind of message *)

Section Message.
Context (Hlaws : ChecksumLaws e) (p : packet4) (chk extra m : list Z) (type code c0 c1 : Z)
  (w inner : list Z).
Context (Hp : wf4 p) (Hc : length chk = 2%nat) (Hproto : p_proto p = IPPROTO_ICMP).
Context (Hdata : p_data p = [type; code; c0; c1] ++ w ++ inner).
Context (Hw : length w = 4%nat) (Hb : bytes_ok w).
Context (Hoff : offset_of (header_of p) = 0) (Hmore : more_of (header_of p) = false).

Let fr_flag := fragmented p false.
Let n := Z.of_nat (length (p_data p)).
Let k := front_length fr_flag.
Let run := ip4_ip6 e tos_ignore_flag (encode4 p chk ++ extra) (total4 p) false m.
Let sum := csum6 e (v6 (p_src p)) (v6 (p_dst p)) NEXTHDR_ICMP.

Context (Hm : (k + length (p_data p) + 20 <= length m)%nat).

Lemma message_length : length (p_data p) = (8 + length inner)%nat.
Proof. rewrite Hdata, !length_app, Hw. done. Qed.

(** The buffer behind the headers: eight bytes of ICMP header, and the rest. *)
Lemma rest_split : exists z z0 z1 z2 j r,
  drop k m = (z :: z0 :: z1 :: z2 :: j) ++ r /\ length j = 4%nat /\
  (length inner + 20 <= length r)%nat.
Proof.
  pose proof message_length.
  destruct (split_buffer (drop k m) 8 (length inner + 20)) as (j & r & Hj & Hl8 & Hr).
  { rewrite length_drop. lia. }
  do 4 (destruct j as [|? j]; [discriminate Hl8|]). injection Hl8 as Hl4.
  by do 6 eexists.
Qed.

Lemma message_echo :
  type = ICMP_ECHO \/ type = ICMP_ECHOREPLY ->
  run = Ret 0 (front tos_ignore_flag p fr_flag n ++ [echo6 type; 0]
               ++ sum [echo6 type; 0] (w ++ inner) ++ (w ++ inner) ++ drop (k + length (p_data p)) m).
Proof.
  assert (run = _) as Hrun
    by (apply (icmp_payload_run p chk extra m); try done; fold fr_flag k; lia).
  fold fr_flag n k in Hrun.
  pose proof (length_front tos_ignore_flag p fr_flag n Hp) as Hk. fold k in Hk.
  pose proof message_length as Hn.
  destruct rest_split as (z & z0 & z1 & z2 & j & r & Hj & Hl4 & Hr).
  intros Ht. rewrite <- drop_drop, Hrun, Hj. unfold mbind, prog_bind. rewrite at_offset_app by done.
  change ((_ :: _ :: _ :: _ :: j) ++ r) with (z :: z0 :: z1 :: z2 :: j ++ r).
  rewrite (app_assoc w), (echo_run type code c0 c1 (w ++ inner) extra n) by
    (done || rewrite ?Hn, ?length_app, ?Hw; lia).
  unfold mret, prog_ret.
  pose proof (front_csum_run p fr_flag n [echo6 type; 0] [z1; z2] (w ++ inner)
    (drop (length (w ++ inner)) (j ++ r)) Hp eq_refl eq_refl) as Hsum.
  assert (Z.of_nat (length ([echo6 type; 0] ++ [z1; z2] ++ w ++ inner)) = n) as Hlen
    by (unfold n; rewrite Hn, !length_app, Hw; done).
  rewrite Hlen in Hsum. fold k in Hsum. rewrite <- !app_assoc in Hsum. cbn [app] in Hsum.
  rewrite <- !app_assoc. rewrite Hsum. cbn [app]. do 4 f_equal.
  rewrite Hn, length_app, Hw. done.
Qed.

(** The word behind the checksum: what was there, where it is not written. *)
Lemma word6_cases z z0 z1 z2 j r :
  drop k m = (z :: z0 :: z1 :: z2 :: j) ++ r -> length j = 4%nat ->
  let w6 := match word6 type code w with Some v => be_bytes 4 v | None => slice (k + 4) 4 m end in
  match word6 type code w with Some v => be_bytes 4 v | None => j end = w6 /\ length w6 = 4%nat.
Proof.
  intros Hj Hl4 w6. pose proof message_length. unfold w6. destruct (word6 type code w).
  - split; [done|apply be_bytes_length].
  - split; [|apply length_slice; lia]. unfold slice. rewrite <- drop_drop, Hj.
    cbn [drop app]. by rewrite drop_0, take_at.
Qed.

(** The included packet, with a header of 20 bytes. *)
Lemma inner_parts q chk' tail :
  inner = header4 q chk' ++ tail -> wf4 q -> length chk' = 2%nat -> p_opts q = [] ->
  hdr_len (header_of q) = 20 /\ length (header4 q chk') = 20%nat /\
  drop 8 ([type; code; c0; c1] ++ w ++ inner ++ extra) = header4 q chk' ++ tail ++ extra.
Proof.
  intros Hinner Hq Hc' Hopts.
  assert (hdr_len (header_of q) = 20) as Hlen4
    by (rewrite (proj2 (ihl_range q Hq)), Hopts; done).
  pose proof (length_header4 q chk' Hq Hc') as Hh. rewrite Hlen4 in Hh. split; [done|split; [lia|]].
  rewrite Hinner, (app_assoc [type; code; c0; c1]), <- (app_assoc (header4 q chk')).
  apply drop_at. rewrite length_app, Hw. done.
Qed.

Lemma message_error q chk' tail t6 c6 :
  error6 type code = Some (t6, c6) -> inner = header4 q chk' ++ tail ->
  wf4 q -> length chk' = 2%nat -> p_opts q = [] ->
  included_ok q tail -> included_dropped q tail = false ->
  let w6 := match word6 type code w with Some v => be_bytes 4 v | None => slice (k + 4) 4 m end in
  let body := w6 ++ front tos_ignore_flag q false (Z.of_nat (length (p_data q))) ++ tail in
  run = Ret 0 (front tos_ignore_flag p fr_flag (n + 20) ++ [t6; c6] ++ sum [t6; c6] body ++ body
               ++ drop (k + length (p_data p) + 20) m).
Proof.
  assert (run = _) as Hrun
    by (apply (icmp_payload_run p chk extra m); try done; fold fr_flag k; lia).
  fold fr_flag n k in Hrun.
  pose proof (length_front tos_ignore_flag p fr_flag n Hp) as Hk. fold k in Hk.
  pose proof message_length as Hn.
  destruct rest_split as (z & z0 & z1 & z2 & j & r & Hj & Hl4 & Hr).
  intros He Hinner Hq Hc' Hopts Hok Hdr w6 body.
  set (nq := Z.of_nat (length (p_data q))) in body.
  rewrite <- Nat.add_assoc, <- drop_drop, Hrun, Hj. unfold mbind, prog_bind.
  rewrite at_offset_app by done.
  change ((_ :: _ :: _ :: _ :: j) ++ r) with (z :: z0 :: z1 :: z2 :: j ++ r).
  pose proof (icmp_error_run type code c0 c1 w (inner ++ extra) n z z0 z1 z2 j r
    Hw Hb Hl4) as Hmsg. rewrite He in Hmsg.
  pose proof (error6_type _ _ _ _ He) as Htype.
  rewrite Hmsg by (unfold ICMP_ECHO, ICMP_ECHOREPLY; lia). clear Hmsg.
  destruct (word6_cases z z0 z1 z2 j r Hj Hl4) as [-> Hw6]. fold w6 in Hw6 |- *.
  change (t6 :: c6 :: z1 :: z2 :: w6 ++ r) with ([t6; c6; z1; z2] ++ w6 ++ r).
  rewrite (app_assoc [t6; c6; z1; z2] w6 r), (app_assoc (front _ p _ _)).
  rewrite at_offset_app by (rewrite !length_app, Hw6; cbn [length]; lia).
  destruct (inner_parts q chk' tail Hinner Hq Hc' Hopts) as (Hlen4 & Hh & ->).
  pose proof (included_run q chk' tail extra r Hq Hc' Hok) as Hinc.
  rewrite Hinner, length_app in Hn, Hr.
  replace (n - 8) with (hdr_len (header_of q) + Z.of_nat (length tail))
    by (unfold n; rewrite Hn, Hlen4; lia).
  rewrite Hinc by lia. rewrite Hdr. fold nq.
  rewrite <- !(app_assoc (front tos_ignore_flag p fr_flag n)).
  rewrite (front_length_patch p fr_flag n (n + 20)). unfold mret, prog_ret.
  assert (length (front tos_ignore_flag q false nq) = 40%nat) as Hfq by by apply length_front.
  pose proof (front_csum_run p fr_flag (n + 20) [t6; c6] [z1; z2] body
    (drop (40 + length tail) r) Hp eq_refl eq_refl) as Hsum.
  assert (length body = 44 + length tail)%nat as Hbody
    by (unfold body; rewrite !length_app, Hw6, Hfq; lia).
  replace (Z.of_nat (length ([t6; c6] ++ [z1; z2] ++ body))) with (n + 20) in Hsum
    by (unfold n; rewrite Hn, !length_app, Hbody; cbn [length]; lia).
  fold k in Hsum. unfold body in Hsum at 1. rewrite <- ?app_assoc in Hsum.
  cbn [app] in Hsum. rewrite <- ?app_assoc. cbn [app]. rewrite Hsum. cbn [app].
  unfold sum. do 4 f_equal. rewrite <- ?app_assoc. do 2 f_equal.
  rewrite Hn. replace (8 + (length (header4 q chk') + length tail) + 20)%nat
    with (4 + (length j + (40 + length tail)))%nat by lia.
  cbn [Nat.add drop]. rewrite <- drop_drop. by rewrite drop_app_length.
Qed.

Lemma message_other :
  type <> ICMP_ECHO -> type <> ICMP_ECHOREPLY -> error6 type code = None ->
  exists m', run = Exit (-1) m'.
Proof.
  assert (run = _) as Hrun
    by (apply (icmp_payload_run p chk extra m); try done; fold fr_flag k; lia).
  fold fr_flag n k in Hrun.
  pose proof (length_front tos_ignore_flag p fr_flag n Hp) as Hk. fold k in Hk.
  pose proof message_length as Hn.
  destruct rest_split as (z & z0 & z1 & z2 & j & r & Hj & Hl4 & Hr).
  intros H8 H0 He. rewrite Hrun, Hj. unfold mbind, prog_bind. rewrite at_offset_app by done.
  change ((_ :: _ :: _ :: _ :: j) ++ r) with (z :: z0 :: z1 :: z2 :: j ++ r).
  pose proof (icmp_error_run type code c0 c1 w (inner ++ extra) n z z0 z1 z2 j r
    Hw Hb Hl4 H8 H0) as Hmsg. rewrite He in Hmsg. destruct Hmsg as [m' ->]. by eexists.
Qed.
End Message.
End Icmp.

(** C32. What becomes of an ICMP packet that is no fragment. An echo keeps its identifier,
    sequence number and data. An error that includes a packet without options, of TCP, or of
    UDP with its header and not the first fragment of one without a checksum, which may be
    cut off, gets the type and code of [error6] and the word of [word6], in front of the
    translation of that packet, and a payload length 20 bytes longer; the word is 576 when
    no MTU is given, and for Time Exceeded it is what was in the buffer. Every message that is neither an echo nor in [error6] is dropped. The checksum is
    put in, over the pseudo header of the addresses behind the prefix of the code, and
    verifies. *)
Theorem ip4_ip6_icmp (e : endian) (Hck : Checksums) (Hlaws : ChecksumLaws e) (tos_ignore : bool)
    (p : packet4) (chk extra m : list Z) (type code c0 c1 : Z) (w inner : list Z)
    (Hp : wf4 p) (Hc : length chk = 2%nat) (Hproto : p_proto p = IPPROTO_ICMP)
    (Hdata : p_data p = [type; code; c0; c1] ++ w ++ inner)
    (Hw : length w = 4%nat) (Hb : bytes_ok w)
    (Hoff : offset_of (header_of p) = 0) (Hmore : more_of (header_of p) = false) :
  let fr_flag := fragmented p false in
  let n := Z.of_nat (length (p_data p)) in
  let k := front_length fr_flag in
  let run := ip4_ip6 e tos_ignore (encode4 p chk ++ extra) (total4 p) false m in
  let hdr := front tos_ignore p fr_flag in
  let sum := csum6 e (v6 (p_src p)) (v6 (p_dst p)) NEXTHDR_ICMP in
  forall (Hm : (k + length (p_data p) + 20 <= length m)%nat),
  (type = ICMP_ECHO \/ type = ICMP_ECHOREPLY ->
   run = Ret 0 (hdr n ++ [echo6 type; 0] ++ sum [echo6 type; 0] (w ++ inner) ++ (w ++ inner)
                ++ drop (k + length (p_data p)) m)) /\
  (forall q chk' tail t6 c6,
   error6 type code = Some (t6, c6) -> inner = header4 q chk' ++ tail ->
   wf4 q -> length chk' = 2%nat -> p_opts q = [] ->
   included_ok q tail -> included_dropped q tail = false ->
   let w6 := match word6 type code w with Some v => be_bytes 4 v | None => slice (k + 4) 4 m end in
   let body := w6 ++ front tos_ignore q false (Z.of_nat (length (p_data q))) ++ tail in
   run = Ret 0 (hdr (n + 20) ++ [t6; c6] ++ sum [t6; c6] body ++ body
                ++ drop (k + length (p_data p) + 20) m)) /\
  (type <> ICMP_ECHO -> type <> ICMP_ECHOREPLY -> error6 type code = None ->
   exists m', run = Exit (-1) m') /\
  (forall b1 b2, length b1 = 2%nat ->
   verifies (pseudo6 (v6 (p_src p)) (v6 (p_dst p)) (Z.of_nat (length (b1 ++ [0; 0] ++ b2)))
               NEXTHDR_ICMP ++ b1 ++ sum b1 b2 ++ b2)).
Proof.
  intros fr_flag n k run hdr sum Hm. split; [|split; [|split]].
  - by eapply message_echo.
  - intros q chk' tail t6 c6 He Hi Hq Hc' Ho Hok Hdr w6 body. by eapply message_error.
  - by eapply message_other.
  - intros b1 b2 Hb1. destruct Hp as [_ _ _ Hs Hd _ _].
    apply csum6_verifies; [done|by apply length_v6|by apply length_v6|by exists 1%nat].
Qed.

(** "Fragmentation needed" for a TCP packet of which eight bytes are included. *)
Definition sample_inner : packet4 :=
  Packet4 0 7 IP_DF 64 6 [10; 0; 0; 2] [10; 0; 0; 1] [] (replicate 100 0).

Definition sample_error : packet4 :=
  Packet4 16 7 IP_DF 64 1 [10; 0; 0; 1] [10; 0; 0; 2] []
    ([3; 4; 0; 0] ++ [0; 0; 5; 120] ++ header4 sample_inner [0; 0] ++ [0; 80; 0; 81; 1; 2; 3; 4]).

Lemma sample_inner_wf : wf4 sample_inner.
Proof. split; try done; [exists 0%nat; split; [reflexivity|lia]]. Qed.

Lemma sample_error_wf : wf4 sample_error.
Proof. split; try done; [exists 0%nat; split; [reflexivity|lia]]. Qed.

Lemma ip4_ip6_icmp_witness :
  @ip4_ip6 LE (ref_checksums LE) false (encode4 sample_error [0; 0]) 56 false (replicate 100 9)
  = Ret 0 ([97; 0; 0; 0; 0; 56; 58; 64] ++ v6 [10; 0; 0; 1] ++ v6 [10; 0; 0; 2]
      ++ [2; 0; 100; 176; 0; 0; 5; 140]
      ++ [96; 0; 0; 0; 0; 100; 6; 64] ++ v6 [10; 0; 0; 2] ++ v6 [10; 0; 0; 1]
      ++ [0; 80; 0; 81; 1; 2; 3; 4] ++ [9; 9; 9; 9]).
Proof.
  refine (eq_trans (proj1 (proj2 (ip4_ip6_icmp LE (ref_checksums LE) (ref_checksum_laws LE) false
    sample_error [0; 0] [] (replicate 100 9) 3 4 0 0 [0; 0; 5; 120]
    (header4 sample_inner [0; 0] ++ [0; 80; 0; 81; 1; 2; 3; 4])
    sample_error_wf _ _ _ _ _ _ _ _)) sample_inner [0; 0] [0; 80; 0; 81; 1; 2; 3; 4] 2 0
    _ _ sample_inner_wf _ _ _ _) _);
    try reflexivity.
  - repeat constructor; discriminate || reflexivity.
  - vm_compute. lia.
  - left. reflexivity.
Defined.
