(* ===== verification/Siit64Ext.v ===== *)
(** * SIIT: chains of IPv6 extension headers

    What the loop of [ip6_ip4] over the extension headers does with a chain of any
    length, and the header it never gets past. *)

From Stdlib Require Import ZArith Lia.
From stdpp Require Import base list numbers option.
From S2P Require Import Prelude Bits Packet PacketFacts Siit Siit64 SiitFacts SiitProofs.

(** ** Chains of extension headers *)

(** A destination options header, a routing header that has been followed, a
    fragment header. *)
Inductive ext6 :=
  | Dest (body : list Z)
  | Routing (type : Z) (body : list Z)
  | Frag (off : Z) (more : bool) (ident : Z).

Definition ext_type (x : ext6) : Z :=
  match x with Dest _ => NEXTHDR_DEST | Routing _ _ => NEXTHDR_ROUTING | Frag _ _ _ => NEXTHDR_FRAGMENT end.

(** The length field of an options header of [n] bytes. *)
Definition units (n : nat) : Z := Z.of_nat n / 8 - 1.

Definition ext_bytes (x : ext6) (nh : Z) : list Z :=
  match x with
  | Dest body => [nh; units (2 + length body)] ++ body
  | Routing type body => [nh; units (4 + length body); type; 0] ++ body
  | Frag off more ident => frag6 nh off more ident
  end.

Definition ext_wf (x : ext6) : Prop :=
  match x with
  | Dest body => exists k, length body = (6 + 8 * k)%nat
  | Routing _ body => exists k, length body = (4 + 8 * k)%nat
  | Frag off _ ident => 0 <= off < 8192
  end.

(** The type of the first header of a chain in front of [upper]. *)
Definition first_type (l : list ext6) (upper : Z) : Z :=
  match l with [] => upper | x :: _ => ext_type x end.

Fixpoint chain_bytes (l : list ext6) (upper : Z) : list Z :=
  match l with
  | [] => []
  | x :: l => ext_bytes x (first_type l upper) ++ chain_bytes l upper
  end.

(** The fields [id] and [frag_off] of the IPv4 header after a chain. *)
Definition ident_after (f : list Z) (x : ext6) : list Z :=
  match x with
  | Frag off more ident => be_bytes 2 ident ++ be_bytes 2 (off + if more then 8192 else 0)
  | _ => f
  end.

Lemma peek8_in a i l : peek8 (length a + i) (a ++ l) = peek8 i l.
Proof. unfold peek8. rewrite lookup_app_r by lia. f_equal. lia. Qed.

Lemma peek_in a i n l : peek (length a + i) n (a ++ l) = peek i n l.
Proof.
  unfold peek. rewrite length_app.
  destruct (Nat.leb_spec (length a + i + n) (length a + length l)),
    (Nat.leb_spec (i + n) (length l)); try lia; [|done].
  unfold slice. rewrite drop_app_ge by lia. do 3 f_equal. lia.
Qed.

Lemma ext_length x nh :
  ext_wf x -> exists k, length (ext_bytes x nh) = (8 + 8 * k)%nat.
Proof.
  destruct x as [b|t b|off more ident]; cbn [ext_wf ext_bytes].
  - intros [k Hk]. exists k. rewrite length_app, Hk. cbn [length]. lia.
  - intros [k Hk]. exists k. rewrite length_app, Hk. cbn [length]. lia.
  - intros _. exists 0%nat. unfold frag6. by rewrite !length_app, !be_bytes_length.
Qed.

Lemma units_spec n k : n = (8 + 8 * k)%nat -> units n * 8 + 8 = Z.of_nat n.
Proof.
  intros ->. unfold units. replace (Z.of_nat (8 + 8 * k)) with ((1 + Z.of_nat k) * 8) by lia.
  rewrite Z.div_mul by lia. lia.
Qed.

Lemma int_sub_small x y : 0 <= y <= x -> x < 2 ^ 31 -> int_sub x y = Some (x - y).
Proof.
  intros Hy Hx. unfold int_sub, fits_int.
  destruct (Z.leb_spec (- 2 ^ 31) (x - y)), (Z.ltb_spec (x - y) (2 ^ 31)); try done; lia.
Qed.

(** The offset field of a fragment header. *)
Lemma frag_field off (more : bool) :
  0 <= off < 8192 -> let w := off * 8 + if more then 1 else 0 in
  Z.shiftr (Z.land w IP6F_OFF_MASK) 3 = off /\
  Z.shiftl (Z.land w IP6F_MORE_FRAG) 13 = if more then 8192 else 0.
Proof.
  intros Ho w. assert (w / 8 = off /\ w mod 8 = if more then 1 else 0) as [Hd Hm].
  { unfold w. split; [symmetry; apply (Z.div_unique _ 8 _ (if more then 1 else 0))|
      symmetry; apply (Z.mod_unique _ 8 off)]; destruct more; lia. }
  assert (0 <= w < 65536) as Hw by (unfold w; destruct more; lia). split.
  - apply Z.bits_inj'. intros i Hi. rewrite Z.shiftr_spec, Z.land_spec by done.
    rewrite <- Hd. change 8 with (2 ^ 3). rewrite <- Z.shiftr_div_pow2, Z.shiftr_spec by lia.
    destruct (Z.ltb_spec (i + 3) 16).
    + assert (Z.testbit IP6F_OFF_MASK (i + 3) = true) as ->; [|by rewrite andb_true_r].
      unfold IP6F_OFF_MASK. change 0xfff8 with (Z.shiftl (Z.ones 13) 3).
      rewrite Z.shiftl_spec by lia. rewrite Z.ones_spec_low by lia. done.
    + rewrite (testbit_out_of_range w 16) by (cbn; lia). done.
  - unfold IP6F_MORE_FRAG. change 1 with (Z.ones 1). rewrite Z.land_ones by lia.
    change (2 ^ 1) with 2. assert (w mod 2 = if more then 1 else 0) as ->; [|by destruct more].
    unfold w. symmetry. apply (Z.mod_unique _ 2 (off * 4)); destruct more; lia.
Qed.

Lemma lor_flag off (more : bool) :
  0 <= off < 8192 -> Z.lor off (if more then 8192 else 0) = off + if more then 8192 else 0.
Proof.
  intros Ho. destruct more; [|by rewrite Z.lor_0_r, Z.add_0_r].
  change 8192 with (1 * 2 ^ 13) in *. rewrite Z.lor_comm, lor_add by lia. lia.
Qed.

Lemma be_bytes2_mod4 z : be_bytes 2 (z mod 256 ^ 4) = be_bytes 2 z.
Proof.
  rewrite <- (be_bytes_mod 2 (z mod 256 ^ 4)), <- (be_bytes_mod 2 z). f_equal.
  change (256 ^ Z.of_nat 2) with 65536. change (256 ^ 4) with (65536 * 65536).
  apply Z.mod_mod_divide. by exists 65536.
Qed.

(** The fragment header, and the fields of the IPv4 header that take it. *)
Lemma fragment_option_run a off (more : bool) ident nh r ld ol t m4 f m :
  0 <= off < 8192 -> ext_at (Ext ld ol t) = length a -> 8 <= ld < 2 ^ 31 ->
  length m4 = 4%nat -> length f = 4%nat ->
  fragment_option (a ++ frag6 nh off more ident ++ r) (Ext ld ol t) (m4 ++ f ++ m)
  = Ret (Ext (ld - 8) (ol + 8) nh) (m4 ++ ident_after f (Frag off more ident) ++ m).
Proof.
  intros Ho Ha Hl Hm4 Hf. destruct (frag_field off more Ho) as [Hoff Hmore].
  destruct f as [|f0 [|f1 [|f2 [|f3 [|]]]]]; try discriminate Hf.
  unfold fragment_option. rewrite Ha. cbn [len_delta opts_len]. unfold IP6_FRAGMENT_SIZE.
  rewrite int_sub_small by lia. unfold mbind, prog_bind, defined at 1.
  destruct (Z.leb_spec 0 (ld - 8)); [|lia].
  unfold peek16, peek32. rewrite !peek_in. set (w := off * 8 + if more then 1 else 0) in *.
  assert (peek8 (length a) (a ++ frag6 nh off more ident ++ r) = Some nh) as ->.
  { rewrite <- (Nat.add_0_r (length a)). by rewrite peek8_in. }
  assert (frag6 nh off more ident ++ r = [nh; 0] ++ be_bytes 2 w ++ be_bytes 4 ident ++ r) as ->
    by (unfold frag6; fold w; by rewrite <- !app_assoc).
  rewrite (peek_part [nh; 0] (be_bytes 2 w) _ 2 2) by lengths.
  rewrite (app_assoc [nh; 0]), (peek_part ([nh; 0] ++ be_bytes 2 w) _ _ 4 4) by lengths.
  cbn [defined fmap option_fmap option_map]. rewrite !be_val_bytes.
  assert (0 <= w < 65536) as Hw by (unfold w; destruct more; lia).
  rewrite (Z.mod_small w) by done. unfold poke16, get16, mbind, prog_bind.
  rewrite be_bytes2_mod4, Hoff, Hmore.
  poke_over m4 [f0; f1] ([f2; f3] ++ m).
  poke_over (m4 ++ be_bytes 2 ident) [f2; f3] m.
  get_over (m4 ++ be_bytes 2 ident) (be_bytes 2 off) m.
  unfold mret, prog_ret. rewrite be_val_be2, lor_flag by lia.
  poke_over (m4 ++ be_bytes 2 ident) (be_bytes 2 off) m.
  cbn [ident_after]. by rewrite <- !app_assoc.
Qed.

(** Skipping one header: [a] is what precedes it. *)
Lemma ext_header_run a x nh r ld ol m4 f m :
  ext_wf x -> Z.of_nat (length a) = 40 + ol -> 0 <= ol ->
  Z.of_nat (length (ext_bytes x nh)) <= ld < 2 ^ 31 ->
  length m4 = 4%nat -> length f = 4%nat ->
  ext_header (a ++ ext_bytes x nh ++ r) (Ext ld ol (ext_type x)) (m4 ++ f ++ m)
  = Ret (Ext (ld - Z.of_nat (length (ext_bytes x nh)))
           (ol + Z.of_nat (length (ext_bytes x nh))) nh) (m4 ++ ident_after f x ++ m).
Proof.
  intros Hx Ha H0 Hl Hm4 Hf. destruct (ext_length x nh Hx) as [k Hk].
  pose proof (units_spec _ k Hk) as Hu.
  assert (forall t, ext_at (Ext ld ol t) = length a + 0)%nat as Hat by (unfold ext_at; cbn; lia).
  unfold ext_header, skip_or_drop, skip_options. rewrite Hat, <- !Nat.add_assoc.
  destruct x as [b|t b|off more ident]; cbn [ext_type next_hdr ext_bytes ident_after ext_wf] in *;
    cbn [Z.eqb Pos.eqb NEXTHDR_DEST NEXTHDR_ROUTING NEXTHDR_FRAGMENT len_delta opts_len];
    rewrite ?peek8_in; unfold peek16, peek32; rewrite ?peek_in.
  - rewrite length_app in *. cbn [length Nat.add] in *. cbn [peek8 lookup list_lookup app mbind option_bind].
    unfold peek8. cbn [lookup list_lookup mbind option_bind]. rewrite Hu, int_sub_small by lia.
    cbn [mbind option_bind]. destruct (Z.leb_spec 0 (ld - Z.of_nat (S (S (length b))))); [done|lia].
  - rewrite length_app in *. cbn [length Nat.add] in *. unfold peek8.
    cbn [lookup list_lookup app mbind option_bind defined]. unfold defined, prog_bind.
    cbn [Z.eqb negb]. rewrite Hu, int_sub_small by lia.
    cbn [mbind option_bind]. destruct (Z.leb_spec 0 (ld - Z.of_nat (S (S (S (S (length b))))))); [done|lia].
  - rewrite Nat.add_0_r in Hat. unfold frag6 in Hl, Hk. rewrite !length_app, !be_bytes_length in Hl.
    rewrite fragment_option_run by (done || (cbn [length Nat.add] in Hl; lia)).
    unfold frag6. by rewrite !length_app, !be_bytes_length.
Qed.

(** ** Whole chains *)

Lemma length_ident_after f x : length f = 4%nat -> length (ident_after f x) = 4%nat.
Proof. destruct x; cbn [ident_after]; [done..|]. intros _. lengths. Qed.

(** The fields [id] and [frag_off] of the result. *)
Definition frag_fields (l : list ext6) : list Z := foldl ident_after [0; 0; 0; 0] l.

Lemma ext_not_end x : loop_ends (ext_type x) = false.
Proof. by destruct x. Qed.

Lemma chain_length l upper :
  Forall ext_wf l -> (8 * length l <= length (chain_bytes l upper))%nat.
Proof.
  induction 1 as [|x l Hx _ IH]; cbn [chain_bytes length]; [lia|].
  destruct (ext_length x (first_type l upper) Hx) as [k Hk]. rewrite length_app. lia.
Qed.

Lemma ext_loop_chain l a r upper fuel ld ol m4 f m :
  Forall ext_wf l -> loop_ends upper = true -> (length l <= fuel)%nat ->
  Z.of_nat (length a) = 40 + ol -> 0 <= ol ->
  Z.of_nat (length (chain_bytes l upper)) <= ld < 2 ^ 31 ->
  length m4 = 4%nat -> length f = 4%nat ->
  ext_loop fuel (a ++ chain_bytes l upper ++ r) (Ext ld ol (first_type l upper)) (m4 ++ f ++ m)
  = Ret (Ext (ld - Z.of_nat (length (chain_bytes l upper)))
           (ol + Z.of_nat (length (chain_bytes l upper))) upper)
      (m4 ++ foldl ident_after f l ++ m).
Proof.
  intros Hl Hu. revert a fuel ld ol f.
  induction Hl as [|x l Hx Hl IH]; intros a fuel ld ol f Hfuel Ha Ho Hld Hm4 Hf.
  - cbn [chain_bytes first_type foldl length]. change (Z.of_nat 0) with 0. rewrite Z.sub_0_r, Z.add_0_r.
    destruct fuel; cbn [ext_loop next_hdr]; by rewrite Hu.
  - cbn [chain_bytes first_type foldl length] in *. destruct fuel as [|fuel]; [lia|].
    cbn [ext_loop next_hdr]. rewrite ext_not_end. unfold mbind, prog_bind.
    set (b := ext_bytes x (first_type l upper)) in *. rewrite length_app in Hld.
    rewrite <- app_assoc. unfold b. rewrite ext_header_run by (done || (fold b; lia)). fold b.
    rewrite app_assoc. rewrite IH by (done || (rewrite ?length_app; lia) || by apply length_ident_after).
    rewrite length_app. do 2 f_equal; lia.
Qed.

(** With fewer rounds than there are headers the loop does not end. *)
Lemma ext_loop_short l a r upper fuel ld ol m4 f m :
  Forall ext_wf l -> (fuel < length l)%nat -> Z.of_nat (length a) = 40 + ol -> 0 <= ol ->
  Z.of_nat (length (chain_bytes l upper)) <= ld < 2 ^ 31 -> length m4 = 4%nat -> length f = 4%nat ->
  ext_loop fuel (a ++ chain_bytes l upper ++ r) (Ext ld ol (first_type l upper)) (m4 ++ f ++ m) = Undef.
Proof.
  intros Hl. revert a fuel ld ol f.
  induction Hl as [|x l Hx Hl IH]; intros a fuel ld ol f Hfuel Ha Ho Hld Hm4 Hf; cbn [length] in Hfuel; [lia|].
  destruct fuel as [|fuel]; cbn [chain_bytes first_type ext_loop next_hdr] in *; rewrite ext_not_end; [done|].
  unfold mbind, prog_bind. set (b := ext_bytes x (first_type l upper)) in *. rewrite length_app in Hld.
  rewrite <- app_assoc. unfold b. rewrite ext_header_run by (done || (fold b; lia)). fold b.
  rewrite app_assoc. apply IH; try done; try (rewrite ?length_app; lia). by apply length_ident_after.
Qed.

(** The hop-by-hop header, if there is one, and the chain behind it. *)
Definition all_types (hop : option (list Z)) (l : list ext6) (upper : Z) : Z :=
  match hop with Some _ => NEXTHDR_HOP | None => first_type l upper end.

Definition hop_bytes (hop : option (list Z)) (nh : Z) : list Z :=
  match hop with Some body => ext_bytes (Dest body) nh | None => [] end.

Definition hop_wf (hop : option (list Z)) : Prop :=
  match hop with Some body => ext_wf (Dest body) | None => True end.

Definition all_bytes (hop : option (list Z)) (l : list ext6) (upper : Z) : list Z :=
  hop_bytes hop (first_type l upper) ++ chain_bytes l upper.

Lemma hop_run a hop nh r ld m :
  hop_wf hop -> length a = 40%nat -> nh <> NEXTHDR_HOP ->
  Z.of_nat (length (hop_bytes hop nh)) <= ld < 2 ^ 31 ->
  (if (match hop with Some _ => NEXTHDR_HOP | None => nh end) =? NEXTHDR_HOP
   then skip_or_drop (a ++ hop_bytes hop nh ++ r) (Ext ld 0 (match hop with Some _ => NEXTHDR_HOP | None => nh end))
   else mret (Ext ld 0 (match hop with Some _ => NEXTHDR_HOP | None => nh end))) m
  = Ret (Ext (ld - Z.of_nat (length (hop_bytes hop nh))) (Z.of_nat (length (hop_bytes hop nh))) nh) m.
Proof.
  intros Hh Ha Hn Hld. destruct hop as [body|]; cbn [hop_bytes hop_wf length] in *.
  - destruct (ext_length _ nh Hh) as [k Hk]. pose proof (units_spec _ k Hk) as Hu.
    cbn [Z.eqb NEXTHDR_HOP]. unfold skip_or_drop, skip_options. cbn [ext_bytes] in *.
    assert (forall t, ext_at (Ext ld 0 t) = length a + 0)%nat as Hat by (intros; rewrite Ha; done).
    rewrite !Hat, <- !Nat.add_assoc.
    rewrite !peek8_in. rewrite length_app in *. cbn [length Nat.add] in *. unfold peek8.
    cbn [lookup list_lookup app mbind option_bind len_delta opts_len]. rewrite Hu, int_sub_small by lia.
    cbn [mbind option_bind]. unfold prog_bind, defined.
    destruct (Z.leb_spec 0 (ld - Z.of_nat (S (S (length body))))); [done|lia].
  - destruct (Z.eqb_spec nh NEXTHDR_HOP); [done|]. change (Z.of_nat 0) with 0. by rewrite Z.sub_0_r.
Qed.

Lemma first_not_hop l upper : loop_ends upper = true -> first_type l upper <> NEXTHDR_HOP.
Proof. destruct l as [|x l]; cbn; [by intros Hu ->|by destruct x]. Qed.

(** All extension headers of a packet of [40 + ld] bytes. *)
Lemma extension_headers_run a hop l upper r ld m4 m :
  hop_wf hop -> Forall ext_wf l -> loop_ends upper = true -> length a = 40%nat ->
  let n := Z.of_nat (length (all_bytes hop l upper)) in
  n <= ld < 2 ^ 31 -> length m4 = 4%nat ->
  extension_headers (a ++ all_bytes hop l upper ++ r) (Ext ld 0 (all_types hop l upper))
    (m4 ++ [0; 0; 0; 0] ++ m)
  = Ret (Ext (ld - n) n upper) (m4 ++ frag_fields l ++ m).
Proof.
  intros Hh Hl Hu Ha n Hn Hm4. unfold n, all_bytes in *. rewrite length_app in *.
  unfold extension_headers, all_types. cbn [next_hdr]. unfold mbind, prog_bind.
  rewrite <- app_assoc, (hop_run a hop (first_type l upper)) by
    (done || lia || by apply first_not_hop). cbn [len_delta].
  set (h := hop_bytes hop (first_type l upper)) in *.
  pose proof (chain_length l upper Hl) as Hlen.
  destruct (Z.ltb_spec 0 (ld - Z.of_nat (length h))) as [H0|H0].
  - rewrite app_assoc, ext_loop_chain; try done; try (rewrite ?length_app; lia).
    + f_equal. f_equal; lia.
    + unfold ext_fuel. cbn [len_delta].
      assert (Z.of_nat (length l) <= (ld - Z.of_nat (length h)) / 8); [|lia].
      apply Z.div_le_lower_bound; lia.
  - destruct l as [|x l]; [|cbn [length] in Hlen; lia].
    cbn [chain_bytes length first_type] in *. unfold mret, prog_ret, frag_fields. cbn [foldl].
    do 2 f_equal; lia.
Qed.

(** ** A destination header that does not fit *)

Section Stuck.
Context (src : list Z) (ol nh hdrlen : Z).

(** Behind [ol] bytes of headers stands a destination header of this length. *)
Definition dest_header_at : Prop :=
  let i := Z.to_nat (40 + ol) in
  peek8 i src = Some nh /\ peek8 (i + 1) src = Some hdrlen /\ is_byte hdrlen.

(** A round only takes its length off [len_delta], which stays too small. *)
Lemma stuck_round ld m :
  dest_header_at -> ld < hdrlen * 8 + 8 ->
  ext_header src (Ext ld ol NEXTHDR_DEST) m
  = match int_sub ld (hdrlen * 8 + 8) with
    | Some d => Ret (Ext d ol NEXTHDR_DEST) m
    | None => Undef
    end.
Proof.
  intros (Hn & Hh & _) Hld. unfold ext_header, skip_options. cbn [next_hdr Z.eqb Pos.eqb NEXTHDR_DEST].
  unfold ext_at. cbn [opts_len len_delta]. rewrite Hn, Hh. cbn [mbind option_bind].
  unfold int_sub. destruct (fits_int _); [|done]. cbn [mbind option_bind].
  destruct (Z.leb_spec 0 (ld - (hdrlen * 8 + 8))); [lia|done].
Qed.

Lemma stuck_rounds k ld m :
  dest_header_at -> ld < hdrlen * 8 + 8 -> ld < 2 ^ 31 ->
  - 2 ^ 31 <= ld - Z.of_nat k * (hdrlen * 8 + 8) ->
  Nat.iter k (fun p => st ← p; ext_header src st) (mret (Ext ld ol NEXTHDR_DEST)) m
  = Ret (Ext (ld - Z.of_nat k * (hdrlen * 8 + 8)) ol NEXTHDR_DEST) m.
Proof.
  intros Hd Hld Hmax. assert (0 <= hdrlen) by apply Hd. induction k as [|k IH]; intros Hk.
  - cbn. unfold mret, prog_ret. do 2 f_equal. lia.
  - rewrite Nat.iter_succ. unfold mbind at 1, prog_bind at 1. rewrite IH by lia.
    rewrite stuck_round by (done || nia). unfold int_sub, fits_int.
    replace (ld - Z.of_nat k * (hdrlen * 8 + 8) - (hdrlen * 8 + 8))
      with (ld - Z.of_nat (S k) * (hdrlen * 8 + 8)) by lia.
    assert (ld - Z.of_nat (S k) * (hdrlen * 8 + 8) < 2 ^ 31) by nia.
    destruct (Z.leb_spec (- 2 ^ 31) (ld - Z.of_nat (S k) * (hdrlen * 8 + 8))); [|lia].
    by destruct (Z.ltb_spec (ld - Z.of_nat (S k) * (hdrlen * 8 + 8)) (2 ^ 31)); [|lia].
Qed.

Lemma stuck_loop fuel ld m :
  dest_header_at -> ld < hdrlen * 8 + 8 -> ext_loop fuel src (Ext ld ol NEXTHDR_DEST) m = Undef.
Proof.
  intros Hd. assert (0 <= hdrlen) by apply Hd. revert ld. induction fuel as [|fuel IH]; intros ld Hld; [done|].
  cbn [ext_loop next_hdr]. change (loop_ends NEXTHDR_DEST) with false. cbn beta iota.
  unfold mbind, prog_bind. rewrite stuck_round by done.
  destruct (int_sub ld (hdrlen * 8 + 8)) as [d|] eqn:E; [|done].
  apply IH. unfold int_sub in E. destruct (fits_int _); simplify_eq. lia.
Qed.
End Stuck.

(** C38. A chain of destination, routing and fragment headers, of any length and in any
    order, behind a hop-by-hop header or not, each header well-formed and the routing headers
    followed to the end, is passed: the result is the upper protocol and the length of the
    chain, with the fields of the last fragment header in the IPv4 header. The loop takes
    exactly as many rounds as there are headers behind the hop-by-hop header: with fewer it
    has not ended, and more change nothing. *)
Theorem extension_headers_chain (a : list Z) (hop : option (list Z)) (l : list ext6)
    (upper : Z) (r : list Z) (ld : Z) (m4 m : list Z)
    (Hh : hop_wf hop) (Hl : Forall ext_wf l) (Hu : loop_ends upper = true)
    (Ha : length a = 40%nat) (Hm4 : length m4 = 4%nat)
    (Hn : Z.of_nat (length (all_bytes hop l upper)) <= ld < 2 ^ 31) :
  let n := Z.of_nat (length (all_bytes hop l upper)) in
  let h := Z.of_nat (length (hop_bytes hop (first_type l upper))) in
  let src := a ++ all_bytes hop l upper ++ r in
  let passed := Ret (Ext (ld - n) n upper) (m4 ++ frag_fields l ++ m) in
  extension_headers src (Ext ld 0 (all_types hop l upper)) (m4 ++ [0; 0; 0; 0] ++ m) = passed /\
  forall rounds, ext_loop rounds src (Ext (ld - h) h (first_type l upper)) (m4 ++ [0; 0; 0; 0] ++ m)
  = if (length l <=? rounds)%nat then passed else Undef.
Proof.
  intros n h src passed. split; [by apply extension_headers_run|]. intros rounds.
  unfold passed, src, n, all_bytes in *. rewrite length_app in *.
  rewrite <- app_assoc, (app_assoc a). destruct (Nat.leb_spec (length l) rounds).
  - rewrite ext_loop_chain; try done; try (rewrite ?length_app; lia). f_equal. f_equal; lia.
  - apply ext_loop_short; try done; rewrite ?length_app; lia.
Qed.

(** C39. A destination header that claims more bytes than are left is never passed
    and never rejected: every round leaves the state as it was, but for [len_delta],
    which falls by the length of the header until it leaves the range of [int]; no
    number of rounds ends the loop. *)
Theorem destination_header_hangs (src : list Z) (ol nh hdrlen ld : Z) (m : list Z)
    (Hd : dest_header_at src ol nh hdrlen) (Hld : ld < hdrlen * 8 + 8) (Hmax : ld < 2 ^ 31) :
  (forall k, - 2 ^ 31 <= ld - Z.of_nat k * (hdrlen * 8 + 8) ->
   Nat.iter k (fun p => st ← p; ext_header src st) (mret (Ext ld ol NEXTHDR_DEST)) m
   = Ret (Ext (ld - Z.of_nat k * (hdrlen * 8 + 8)) ol NEXTHDR_DEST) m) /\
  (forall fuel, ext_loop fuel src (Ext ld ol NEXTHDR_DEST) m = Undef).
Proof. split; intros; [by eapply stuck_rounds|by eapply stuck_loop]. Qed.

(** A hop-by-hop header, a routing header and a fragment header in front of UDP. *)
Lemma extension_headers_chain_witness :
  let src := replicate 40 0 ++ [43; 0; 1; 4; 0; 0; 0; 0] ++ [44; 0; 0; 0; 0; 0; 0; 0]
     ++ [17; 0; 0; 9; 1; 2; 3; 4] ++ [7; 7] in
  let passed := Ret (Ext 2 24 IPPROTO_UDP) (replicate 4 0 ++ [3; 4; 32; 1] ++ replicate 12 0) in
  extension_headers src (Ext 26 0 NEXTHDR_HOP) (replicate 20 0) = passed /\
  forall rounds, ext_loop rounds src (Ext 18 8 NEXTHDR_ROUTING) (replicate 20 0)
  = if (2 <=? rounds)%nat then passed else Undef.
Proof.
  intros src passed. apply (extension_headers_chain (replicate 40 0) (Some [1; 4; 0; 0; 0; 0])
    [Routing 0 [0; 0; 0; 0]; Frag 1 true 16909060] IPPROTO_UDP [7; 7] 26 (replicate 4 0)
    (replicate 12 0)).
  - by exists 0%nat.
  - repeat constructor; [by exists 0%nat|lia..].
  - reflexivity.
  - reflexivity.
  - reflexivity.
  - split; reflexivity || discriminate.
Defined.

(** A packet with 8 bytes of destination options that claim to be 16. *)
Lemma destination_header_hangs_witness :
  let src := replicate 40 0 ++ [17; 1; 0; 0; 0; 0; 0; 0] in
  Nat.iter 3 (fun p => st ← p; ext_header src st) (mret (Ext 8 0 NEXTHDR_DEST)) (replicate 20 0)
  = Ret (Ext (-40) 0 NEXTHDR_DEST) (replicate 20 0) /\
  ext_loop 1000 src (Ext 8 0 NEXTHDR_DEST) (replicate 20 0) = Undef.
Proof.
  destruct (destination_header_hangs (replicate 40 0 ++ [17; 1; 0; 0; 0; 0; 0; 0]) 0 17 1 8
    (replicate 20 0)) as [Hrounds Hloop]; [|reflexivity|reflexivity|].
  - split; [reflexivity|split; [reflexivity|split; reflexivity || discriminate]].
  - split; [exact (Hrounds 3%nat ltac:(discriminate))|exact (Hloop 1000%nat)].
Defined.
