(* ===== verification/Siit64Proofs.v ===== *)
(** * SIIT: back to IPv4, and the round trip

    The packets [ip6_ip4] makes of packets with a transport protocol, and what is
    left of an IPv4 packet that was translated to IPv6 and back. *)

From Stdlib Require Import ZArith Lia.
From stdpp Require Import base list numbers option.
From S2P Require Import Prelude Bits Packet PacketFacts Siit Siit64 SiitFacts SiitProofs Siit64Ext.

(** ** IPv6 packets *)

(** [q_flow] is the flow label, [q_src] and [q_dst] are whole addresses. *)
Record packet6 := Packet6 {
  q_tc : Z;
  q_flow : Z;
  q_hop : Z;
  q_src : list Z;
  q_dst : list Z;
  q_hopopts : option (list Z);
  q_exts : list ext6;
  q_upper : Z;
  q_data : list Z
}.

Definition q_headers (q : packet6) : list Z := all_bytes (q_hopopts q) (q_exts q) (q_upper q).

Definition plen6 (q : packet6) : Z := Z.of_nat (length (q_headers q) + length (q_data q)).

Definition base6 (q : packet6) : list Z :=
  [96 + q_tc q / 16; q_tc q mod 16 * 16 + q_flow q / 65536] ++ be_bytes 2 (q_flow q mod 65536)
  ++ be_bytes 2 (plen6 q) ++ [all_types (q_hopopts q) (q_exts q) (q_upper q); q_hop q]
  ++ q_src q ++ q_dst q.

Definition encode6 (q : packet6) : list Z := base6 q ++ q_headers q ++ q_data q.

Record wf6 (q : packet6) : Prop := Wf6 {
  wf_tc : is_byte (q_tc q);
  wf_flow : 0 <= q_flow q < 2 ^ 20;
  wf_src6 : length (q_src q) = 16%nat;
  wf_dst6 : length (q_dst q) = 16%nat;
  wf_hop : hop_wf (q_hopopts q);
  wf_exts : Forall ext_wf (q_exts q);
  wf_upper : loop_ends (q_upper q) = true;
  wf_plen : plen6 q < 65536
}.

(** Are the addresses translatable? *)
Definition embedded (q : packet6) : bool :=
  (word2 (q_src q) =? MAPPED_PREFIX) && (word2 (q_dst q) =? MAPPED_PREFIX).

Definition header6_of (q : packet6) : ipv6hdr :=
  Ip6Hdr (q_tc q / 16) (q_tc q mod 16 * 16 + q_flow q / 65536) (plen6 q)
    (all_types (q_hopopts q) (q_exts q) (q_upper q)) (q_hop q) (q_src q) (q_dst q).

Lemma length_base6 q : wf6 q -> length (base6 q) = 40%nat.
Proof.
  intros [_ _ Hs Hd _ _ _ _]. unfold base6. rewrite !length_app, !be_bytes_length, Hs, Hd. done.
Qed.

Lemma read_base6 q r : wf6 q -> read_ipv6hdr (base6 q ++ r) = Some (header6_of q).
Proof.
  intros Hq. unfold read_ipv6hdr. rewrite peek_front by by apply length_base6.
  destruct Hq as [Ht Hf Hs Hd _ _ _ Hp]. unfold header6_of.
  assert (0 <= plen6 q) by (unfold plen6; lia).
  assert (0 <= q_tc q / 16 < 16) as Hc
    by (destruct Ht; split; [apply Z.div_pos; lia|apply Z.div_lt_upper_bound; lia]).
  cbn [mbind option_bind]. do 2 f_equal.
  - unfold base6. cbn. change 15 with (Z.ones 4). rewrite Z.land_ones by lia. change (2 ^ 4) with 16.
    rewrite Z.add_comm. change 96 with (6 * 16). rewrite Z.mod_add by lia. by apply Z.mod_small.
  - etransitivity; [|apply (be_val_be2 (plen6 q)); lia]. reflexivity.
  - unfold base6. rewrite !app_assoc. rewrite <- (app_assoc _ (q_src q)).
    rewrite (slice_app _ _ 16 8) by (rewrite !length_app, !be_bytes_length; done).
    by apply take_at.
  - unfold base6. rewrite !app_assoc. rewrite <- (app_nil_r (q_dst q)).
    rewrite (slice_app _ _ 16 24) by (rewrite !length_app, !be_bytes_length, Hs; done).
    rewrite app_nil_r. apply take_ge. lia.
Qed.

(** The traffic class, from its two parts. *)
Lemma class_parts t f :
  is_byte t -> 0 <= f < 2 ^ 20 ->
  Z.lor (u8 (Z.shiftl (t / 16) 4)) (Z.shiftr (t mod 16 * 16 + f / 65536) 4) = t.
Proof.
  intros Ht Hf. pose proof (Z.mod_pos_bound t 16 ltac:(lia)).
  assert (0 <= t / 16 < 16) by (destruct Ht; split; [apply Z.div_pos; lia|apply Z.div_lt_upper_bound; lia]).
  assert (0 <= f / 65536 < 16) by (split; [apply Z.div_pos; lia|apply Z.div_lt_upper_bound; lia]).
  rewrite Z.shiftl_mul_pow2, Z.shiftr_div_pow2 by lia. change (2 ^ 4) with 16.
  rewrite Z.div_add_l, (Z.div_small (f / 65536)), Z.add_0_r by lia.
  rewrite wrap_small by (change (2 ^ 8) with 256; lia).
  change 16 with (2 ^ 4) at 2. rewrite lor_add by (cbn; lia). change (2 ^ 4) with 16.
  pose proof (Z.div_mod t 16). lia.
Qed.

Section Six.
Context (e : endian) `{Checksums} (tos_ignore_flag : bool).

(** ** The IPv4 header *)

(** The bytes before the checksum; [f] are the fields [id] and [frag_off]. *)
Definition fields4 (tos tot : Z) (f : list Z) (ttl proto : Z) : list Z :=
  [69; tos] ++ be_bytes 2 tot ++ f ++ [ttl; proto].

Definition header_csum (h addrs : list Z) : list Z :=
  store e 2 (ip_fast_csum (h ++ [0; 0] ++ addrs)).

Lemma store_header_csum_run a c addrs m :
  length a = 10%nat -> length c = 2%nat -> length addrs = 8%nat ->
  store_header_csum e (a ++ c ++ addrs ++ m) = Ret tt (a ++ header_csum a addrs ++ addrs ++ m).
Proof.
  intros Ha Hc Hd. unfold store_header_csum, mbind, prog_bind.
  rewrite (poke_part a [0; 0] c) by done.
  assert (get 0 20 (a ++ [0; 0] ++ addrs ++ m)
    = Ret (a ++ [0; 0] ++ addrs) (a ++ [0; 0] ++ addrs ++ m)) as ->.
  { assert (a ++ [0; 0] ++ addrs ++ m = [] ++ (a ++ [0; 0] ++ addrs) ++ m) as ->
      by by rewrite <- !app_assoc.
    apply get_part; [done|]. rewrite !length_app, Ha, Hd. done. }
  rewrite (poke_part a _ [0; 0]) by (rewrite ?store_length; done). done.
Qed.

Lemma header_csum_verifies h addrs `{!ChecksumLaws e} :
  length h = 10%nat -> verifies (h ++ header_csum h addrs ++ addrs).
Proof.
  intros Hh. unfold header_csum. apply completes_verifies; [rewrite Hh; by exists 5%nat|].
  apply ip_fast_completes.
Qed.

Lemma ipv4_header_run q tot nh f m4 m12 m :
  wf6 q -> length m4 = 4%nat -> length f = 4%nat -> length m12 = 12%nat ->
  let h := fields4 (class_of tos_ignore_flag (q_tc q)) tot f (q_hop q) nh in
  let addrs := slice 12 4 (q_src q) ++ slice 12 4 (q_dst q) in
  ipv4_header e tos_ignore_flag (header6_of q) tot nh (m4 ++ f ++ m12 ++ m)
  = Ret tt (h ++ header_csum h addrs ++ addrs ++ m).
Proof.
  intros [Ht Hf Hs Hd _ _ _ _] H4 Hf4 H12 h addrs.
  assert (length addrs = 8%nat) as Ha
    by (unfold addrs; rewrite length_app, !length_slice by lia; done).
  assert (forall l : list Z, length l = 4%nat -> exists a b c d, l = [a; b; c; d]) as Hl4.
  { intros [|a [|b [|c [|d [|]]]]] Hl; try discriminate Hl. by exists a, b, c, d. }
  destruct (Hl4 m4 H4) as (j0 & j1 & j2 & j3 & ->).
  destruct (Hl4 f Hf4) as (f0 & f1 & f2 & f3 & ->).
  destruct (Hl4 (slice 12 4 (q_src q))) as (s0 & s1 & s2 & s3 & Es); [apply length_slice; lia|].
  destruct (Hl4 (slice 12 4 (q_dst q))) as (d0 & d1 & d2 & d3 & Ed); [apply length_slice; lia|].
  do 12 (destruct m12 as [|? m12]; [discriminate H12|]). destruct m12; [|discriminate H12].
  unfold ipv4_header. cbn [priority flow_lbl0 hop_limit saddr6 daddr6 header6_of].
  rewrite class_parts by done. unfold h, addrs. rewrite Es, Ed.
  pose proof (fun c => store_header_csum_run (fields4 (class_of tos_ignore_flag (q_tc q)) tot
    [f0; f1; f2; f3] (q_hop q) nh) c ([s0; s1; s2; s3] ++ [d0; d1; d2; d3]) m) as Hrun.
  set (csum := header_csum _ _) in *. clearbody csum.
  set (sc := store_header_csum e) in *. clearbody sc.
  run_concrete. rewrite high_low_nibble by lia. apply (Hrun [z1; z2]); done.
Qed.

(** ** Whole packets *)

(** The total length of the result; a packet without payload gets 0. *)
Definition tot4 (q : packet6) : Z :=
  if plen6 q =? 0 then 0 else 20 + Z.of_nat (length (q_data q)).

(** The IPv4 header of the translation. *)
Definition header46 (q : packet6) : list Z :=
  let h := fields4 (class_of tos_ignore_flag (q_tc q)) (tot4 q) (frag_fields (q_exts q)) (q_hop q)
             (q_upper q) in
  let addrs := slice 12 4 (q_src q) ++ slice 12 4 (q_dst q) in
  h ++ header_csum h addrs ++ addrs.

Lemma length_frag_fields l : length (frag_fields l) = 4%nat.
Proof.
  unfold frag_fields. assert (length [0; 0; 0; 0] = 4%nat) as H4 by done. revert H4.
  generalize [0; 0; 0; 0]. induction l as [|x l IH]; intros f Hf; [done|].
  cbn [foldl]. by apply IH, length_ident_after.
Qed.

Lemma length_header46 q : wf6 q -> length (header46 q) = 20%nat.
Proof.
  intros [_ _ Hs Hd _ _ _ _]. unfold header46, fields4, header_csum.
  rewrite !length_app, store_length, be_bytes_length, length_frag_fields, !length_slice by lia. done.
Qed.

Lemma header46_verifies q `{!ChecksumLaws e} : verifies (header46 q).
Proof.
  unfold header46. apply header_csum_verifies; [done|]. unfold fields4. 
  by rewrite !length_app, be_bytes_length, length_frag_fields.
Qed.

Lemma addresses_embedded q include_flag : addresses_ok (header6_of q) include_flag = embedded q.
Proof. by destruct include_flag. Qed.

(** Everything before the payload. *)
Lemma ip6_ip4_front included q extra include_flag m :
  wf6 q -> embedded q = true -> (20 <= length m)%nat ->
  let n := Z.of_nat (length (q_headers q)) in
  let st := Ext (Z.of_nat (length (q_data q))) n (q_upper q) in
  let tot := if plen6 q =? 0 then 0 else plen6 q + IP4_IP6_HDR_DIFF - n in
  ip6_ip4_body e tos_ignore_flag included (encode6 q ++ extra) (40 + plen6 q) include_flag m
  = (real_len ← (if negb (0 <? len_delta st) then mret 20
                 else if next_hdr st =? NEXTHDR_ICMP then
                   icmp6_payload e included (encode6 q ++ extra) include_flag tot st
                 else copy 20 (drop (ext_at st) (encode6 q ++ extra)) (len_delta st);;
                      mret (20 + len_delta st));
     mret (if include_flag then n else real_len)) (header46 q ++ drop 20 m).
Proof.
  intros Hq He Hm n st tot. unfold ip6_ip4_body.
  assert (0 <= plen6 q) by (unfold plen6; lia).
  replace (40 + plen6 q - 40) with (plen6 q) by lia. destruct (Z.ltb_spec (plen6 q) 0); [lia|].
  unfold encode6. rewrite <- app_assoc, read_base6 by done. unfold mbind, prog_bind, defined.
  rewrite addresses_embedded, He. cbn [negb].
  destruct (split_buffer m 20 0) as (h & rest & -> & Hh & _); [lia|].
  rewrite (drop_at h) by done.
  destruct (split_buffer h 8 12) as (m8 & m12 & -> & H8 & H12); [lia|].
  destruct (split_buffer m8 4 4) as (m4 & f & -> & H4 & Hf); [lia|].
  rewrite !length_app in *. assert (length f = 4%nat) as Hf4 by lia.
  destruct f as [|f0 [|f1 [|f2 [|f3 [|]]]]]; try discriminate Hf4.
  poke_over (m4 ++ [f0; f1]) [f2; f3] (m12 ++ rest).
  poke_over m4 [f0; f1] (0 :: 0 :: m12 ++ rest).
  change (m4 ++ 0 :: 0 :: 0 :: 0 :: m12 ++ rest) with (m4 ++ [0; 0; 0; 0] ++ m12 ++ rest).
  cbn [nexthdr header6_of payload_len].
  pose proof Hq as [_ _ _ _ Hhop Hexts Hupper Hp].
  unfold q_headers. rewrite <- ?app_assoc, extension_headers_run; try done.
  2: by apply length_base6.
  2: { unfold plen6 in *. fold (q_headers q). cbn. lia. }
  fold (q_headers q). cbn [opts_len next_hdr].
  assert (plen6 q - Z.of_nat (length (q_headers q)) = Z.of_nat (length (q_data q))) as ->
    by (unfold plen6; lia).
  fold n. fold st. fold tot.
  rewrite (ipv4_header_run q tot (q_upper q) (frag_fields (q_exts q)) m4 m12 rest)
    by (done || lia || apply length_frag_fields).
  unfold header46. rewrite <- !app_assoc.
  assert (tot = tot4 q) as ->; [|done].
  unfold tot, tot4, IP4_IP6_HDR_DIFF, n, plen6. destruct (_ =? 0); [done|lia].
Qed.

Lemma ip6_ip4_run q extra include_flag m :
  wf6 q -> embedded q = true -> q_upper q <> NEXTHDR_ICMP ->
  (20 + length (q_data q) <= length m)%nat ->
  ip6_ip4 e tos_ignore_flag (encode6 q ++ extra) (40 + plen6 q) include_flag m
  = Ret (if include_flag then Z.of_nat (length (q_headers q))
         else 20 + Z.of_nat (length (q_data q)))
      (header46 q ++ q_data q ++ drop (20 + length (q_data q)) m).
Proof.
  intros Hq He Hu Hm. unfold ip6_ip4. rewrite ip6_ip4_front by (done || lia).
  cbn [len_delta next_hdr]. rewrite (proj2 (Z.eqb_neq _ _) Hu). rewrite <- drop_drop.
  unfold mbind, prog_bind. destruct (Z.ltb_spec 0 (Z.of_nat (length (q_data q)))); cbn [negb].
  - assert (drop (ext_at (Ext (Z.of_nat (length (q_data q))) (Z.of_nat (length (q_headers q)))
      (q_upper q))) (encode6 q ++ extra) = q_data q ++ extra) as ->.
    { unfold ext_at, encode6. cbn [opts_len]. rewrite (app_assoc (base6 q)), <- app_assoc.
      apply drop_at. rewrite length_app, length_base6 by done. lia. }
    rewrite (copy_app _ _ (q_data q)); [done|by apply length_header46|done| |by apply take_app_length].
    rewrite length_drop. lia.
  - assert (q_data q = []) as -> by (by apply length_zero_iff_nil; lia).
    unfold mret, prog_ret. cbn [length app]. by rewrite drop_0.
Qed.

(** ** There and back *)

(** The IPv6 packet a transport packet becomes. *)
Definition forward (p : packet4) (data : list Z) : packet6 :=
  Packet6 (class_of tos_ignore_flag (p_tos p)) 0 (p_ttl p) (v6 (p_src p)) (v6 (p_dst p)) None
    (if fragmented p false
     then [Frag (offset_of (header_of p)) (more_of (header_of p)) (p_id p)] else [])
    (p_proto p) data.

(** What comes back: no options, and identification, offset and flag only if the
    packet had a fragment header in between. *)
Definition returned (p : packet4) (data : list Z) : packet4 :=
  Packet4 (class_of tos_ignore_flag (p_tos p)) (if fragmented p false then p_id p else 0)
    (if fragmented p false
     then offset_of (header_of p) + (if more_of (header_of p) then 8192 else 0) else 0)
    (p_ttl p) (p_proto p) (p_src p) (p_dst p) [] data.

Lemma class_of_byte t : is_byte t -> is_byte (class_of tos_ignore_flag t).
Proof. unfold class_of. destruct tos_ignore_flag; unfold is_byte; lia. Qed.

Lemma transport_upper p : transport_ok p -> loop_ends (p_proto p) = true /\
  p_proto p <> IPPROTO_ICMP /\ p_proto p <> NEXTHDR_ICMP.
Proof. by intros [-> | [-> _]]. Qed.

Lemma headers_forward p data :
  q_headers (forward p data) = if fragmented p false
    then frag6 (p_proto p) (offset_of (header_of p)) (more_of (header_of p)) (p_id p) else [].
Proof.
  unfold q_headers, all_bytes. cbn [q_hopopts q_exts q_upper forward hop_bytes app].
  destruct (fragmented p false); [|done]. cbn [chain_bytes ext_bytes first_type]. apply app_nil_r.
Qed.

Lemma plen_forward p data :
  plen6 (forward p data) = Z.of_nat (length data) + if fragmented p false then 8 else 0.
Proof.
  unfold plen6. rewrite headers_forward. cbn [q_data forward].
  destruct (fragmented p false); [|cbn; lia].
  unfold frag6. rewrite !length_app, !be_bytes_length. cbn [length]. lia.
Qed.

Lemma forward_wf p data :
  wf4 p -> transport_ok p -> length data = length (p_data p) -> wf6 (forward p data).
Proof.
  intros Hp Ht Hd. pose proof (transport_upper p Ht) as [Hu _].
  split; cbn [forward q_tc q_flow q_src q_dst q_hopopts q_exts q_upper]; try done.
  - by apply class_of_byte, Hp.
  - apply length_v6, Hp.
  - apply length_v6, Hp.
  - destruct (fragmented p false); repeat constructor; apply (offset_range (header_of p)), Hp.
  - rewrite plen_forward, Hd. destruct Hp as [_ _ _ _ _ _ Htot]. unfold total4 in Htot.
    destruct (fragmented p false); lia.
Qed.

(** The translation writes exactly the encoding. *)
Lemma encode_forward p data :
  transport_ok p -> length data = length (p_data p) ->
  front tos_ignore_flag p (fragmented p false) (Z.of_nat (length (p_data p))) ++ data
  = encode6 (forward p data).
Proof.
  intros Ht Hd. destruct (transport_upper p Ht) as (_ & Hi & _).
  assert (nexthdr_of (header_of p) = p_proto p) as Hn
    by (unfold nexthdr_of; cbn [protocol header_of]; by rewrite (proj2 (Z.eqb_neq _ _) Hi)).
  unfold encode6, base6. rewrite headers_forward, plen_forward, Hd.
  cbn [q_tc q_flow q_hop q_src q_dst q_hopopts q_exts q_upper q_data forward].
  unfold front, hdr6. rewrite Hn. change (0 / 65536) with 0. rewrite Z.add_0_r.
  change (be_bytes 2 (0 mod 65536)) with [0; 0]. rewrite <- !app_assoc.
  destruct (fragmented p false); reflexivity.
Qed.

Lemma embedded_forward p data : wf4 p -> embedded (forward p data) = true.
Proof.
  intros [_ _ _ Hs Hd _ _]. unfold embedded, word2. cbn [q_src q_dst forward]. unfold v6, v6_addr.
  by rewrite !(slice_app (replicate 8 0)), !take_at by done.
Qed.

Lemma header_forward p data :
  wf4 p -> data <> [] ->
  exists chk, length chk = 2%nat /\ header46 (forward p data) = header4 (returned p data) chk.
Proof.
  intros [_ _ _ Hs Hd _ _] Hne. unfold header46.
  set (h := fields4 _ _ _ _ _). set (addrs := slice _ _ _ ++ slice _ _ _).
  exists (header_csum h addrs). split; [by apply store_length|].
  assert (addrs = p_src p ++ p_dst p) as ->.
  { unfold addrs. cbn [q_src q_dst forward]. unfold v6, v6_addr.
    rewrite !(app_assoc (replicate 8 0)). rewrite <- (app_nil_r (p_src p)) at 1.
    rewrite <- (app_nil_r (p_dst p)) at 1. rewrite !slice_app by done. by rewrite !take_at. }
  assert (h = hdr4 5 (class_of tos_ignore_flag (p_tos p)) (total4 (returned p data))
    (p_id (returned p data)) (p_frag (returned p data)) (p_ttl p) (p_proto p)) as ->; [|].
  2: { unfold header4, ihl_of. cbn [p_opts p_src p_dst p_tos p_ttl p_proto returned length].
       by rewrite app_nil_r. }
  unfold h, fields4, hdr4. cbn [q_tc q_hop q_exts q_upper forward p_id p_frag returned].
  assert (tot4 (forward p data) = total4 (returned p data)) as ->.
  { unfold tot4. rewrite plen_forward. cbn [q_data forward].
    assert (0 < Z.of_nat (length data)) by (destruct data; [done|cbn; lia]).
    destruct (Z.eqb_spec (Z.of_nat (length data) + if fragmented p false then 8 else 0) 0);
      [destruct (fragmented p false); lia|]. unfold total4. cbn. lia. }
  assert (class_of tos_ignore_flag (class_of tos_ignore_flag (p_tos p))
    = class_of tos_ignore_flag (p_tos p)) as -> by (unfold class_of; by destruct tos_ignore_flag).
  by destruct (fragmented p false).
Qed.
End Six.

(** C31. For a packet whose extension headers are well-formed destination headers, routing
    headers with no segments left and fragment headers, behind a hop-by-hop header or not, in
    front of TCP, UDP, ICMPv6 or nothing ([wf6]). If the third word of both addresses is that of the prefix, and the upper
    protocol is not ICMPv6, it becomes exactly one IPv4 packet: a header without options
    whose checksum verifies, the fields of the fragment header or zeros, the payload as it
    was, and the length returned; a transport checksum that verified still does, when the
    addresses are IPv4 addresses behind the whole prefix. If the third word of an address is
    another one, the packet is dropped before anything is written. *)
Theorem ip6_ip4_transport (e : endian) (Hck : Checksums) (Hlaws : ChecksumLaws e) (tos_ignore : bool)
    (q : packet6) (extra : list Z) (include_flag : bool) (m : list Z)
    (Hq : wf6 q) (Hm : (20 + length (q_data q) <= length m)%nat) :
  (embedded q = false ->
   ip6_ip4 e tos_ignore (encode6 q ++ extra) (40 + plen6 q) include_flag m = Exit (-1) m) /\
  (embedded q = true -> q_upper q <> NEXTHDR_ICMP ->
   ip6_ip4 e tos_ignore (encode6 q ++ extra) (40 + plen6 q) include_flag m
   = Ret (if include_flag then Z.of_nat (length (q_headers q))
          else 20 + Z.of_nat (length (q_data q)))
       (header46 e tos_ignore q ++ q_data q ++ drop (20 + length (q_data q)) m)) /\
  verifies (header46 e tos_ignore q) /\
  (forall s d, length s = 4%nat -> length d = 4%nat -> q_src q = v6 s -> q_dst q = v6 d ->
   let n := Z.of_nat (length (q_data q)) in
   verifies (pseudo6 (q_src q) (q_dst q) n (q_upper q) ++ q_data q) ->
   verifies (pseudo4 s d n (q_upper q) ++ q_data q)).
Proof.
  split; [|split; [|split]].
  - intros He. unfold ip6_ip4, ip6_ip4_body. assert (0 <= plen6 q) by (unfold plen6; lia).
    destruct (Z.ltb_spec (40 + plen6 q - 40) 0); [lia|].
    unfold encode6. rewrite <- app_assoc, read_base6 by done.
    unfold mbind, prog_bind, defined. by rewrite addresses_embedded, He.
  - intros He Hu. by apply ip6_ip4_run.
  - by apply header46_verifies.
  - intros s d Hs Hd -> -> n. apply verifies_v6; [done..|].
    destruct Hq as [_ _ _ _ _ _ _ Hp]. unfold plen6 in Hp. unfold n. lia.
Qed.


(** A fragment with a traffic class, behind routing and fragment headers. *)
Definition sample6 : packet6 :=
  Packet6 16 5 63 (v6 [10; 0; 0; 1]) (v6 [10; 0; 0; 2]) None
    [Routing 0 [0; 0; 0; 0]; Frag 1 true 7] IPPROTO_UDP [1; 2; 3; 4].

Lemma sample6_wf : wf6 sample6.
Proof.
  split; try done; cbn; try (unfold is_byte; lia). repeat constructor; [by exists 0%nat|lia..].
Qed.

Lemma ip6_ip4_transport_witness :
  @ip6_ip4 BE (ref_checksums BE) false (encode6 sample6) 60 false (replicate 26 9)
  = Ret 24 ([69; 16; 0; 24; 0; 7; 32; 1; 63; 17; 71; 187; 10; 0; 0; 1; 10; 0; 0; 2]
            ++ [1; 2; 3; 4] ++ [9; 9]).
Proof.
  refine (eq_trans (proj1 (proj2 (ip6_ip4_transport BE (ref_checksums BE) (ref_checksum_laws BE) false
    sample6 [] false (replicate 26 9) sample6_wf _)) _ _) _).
  - vm_compute. lia.
  - reflexivity.
  - discriminate.
  - vm_compute. reflexivity.
Defined.

