(* ===== verification/SiitFragment.v ===== *)
(** * SIIT: fragmentation

    The fragments [ip4_fragment] cuts a packet into, that they are the pieces of its
    data, and that the loop sends the translation of each. *)

From Stdlib Require Import ZArith Lia.
From stdpp Require Import base list numbers option.
From S2P Require Import Prelude Bits Packet PacketFacts Siit Siit64 SiitXmit SiitFacts SiitProofs.

(** ** The fragments of a packet *)

Definition fragment_of (p : packet4) (off : Z) (more : bool) (data : list Z) : packet4 :=
  Packet4 (p_tos p) (p_id p) (off + if more then 8192 else 0) (p_ttl p) (p_proto p) (p_src p)
    (p_dst p) (p_opts p) data.

Definition frag_size : nat := 1232.

(** Pieces of [frag_size] bytes, each at its offset in units of 8 bytes; only the
    last one may be shorter, and has the flag of the packet. *)
Fixpoint fragments (fuel : nat) (p : packet4) (off : Z) (data : list Z) : list packet4 :=
  match fuel with
  | O => []
  | S fuel =>
      if (length data <=? frag_size)%nat then [fragment_of p off (more_of (header_of p)) data]
      else fragment_of p off true (take frag_size data)
           :: fragments fuel p (off + 154) (drop frag_size data)
  end.

Definition fragments_fuel (data : list Z) : nat := S (length data / frag_size).

(** The fragments of a whole packet. *)
Definition all_fragments (p : packet4) (data : list Z) : list packet4 :=
  fragments (fragments_fuel data) p (offset_of (header_of p)) data.

Lemma fragments_data fuel p off data :
  (length data <= fuel * frag_size)%nat -> data <> [] ->
  concat (p_data <$> fragments fuel p off data) = data.
Proof.
  revert off data. induction fuel as [|fuel IH]; intros off data Hl Hne.
  - destruct data; [done|cbn in Hl; lia].
  - cbn [fragments]. destruct (Nat.leb_spec (length data) frag_size) as [Hs|Hs].
    + cbn. apply app_nil_r.
    + cbn [fmap list_fmap concat p_data fragment_of].
      rewrite IH; [apply take_drop|rewrite length_drop; lia|].
      intros Hn. apply (f_equal length) in Hn. rewrite length_drop in Hn. cbn in Hn. lia.
Qed.

(** The [i]-th fragment. *)
Lemma fragments_lookup fuel p off data i f :
  (length data <= fuel * frag_size)%nat ->
  fragments fuel p off data !! i = Some f ->
  p_data f = slice (frag_size * i) frag_size data /\
  f = fragment_of p (off + 154 * Z.of_nat i)
        (if (length data <=? frag_size * S i)%nat then more_of (header_of p) else true)
        (slice (frag_size * i) frag_size data).
Proof.
  revert off data i. induction fuel as [|fuel IH]; intros off data i Hl Hi; [done|].
  cbn [fragments] in Hi. destruct (Nat.leb_spec (length data) frag_size) as [Hs|Hs].
  - destruct i as [|i]; [|done]. cbn in Hi. injection Hi as <-.
    rewrite Nat.mul_0_r, Nat.mul_1_r, Z.mul_0_r, Z.add_0_r. unfold slice. rewrite drop_0, take_ge by lia.
    rewrite (proj2 (Nat.leb_le _ _) Hs). done.
  - destruct i as [|i].
    + cbn in Hi. injection Hi as <-.
      rewrite Nat.mul_0_r, Nat.mul_1_r, Z.mul_0_r, Z.add_0_r. unfold slice. rewrite drop_0.
      by rewrite (proj2 (Nat.leb_gt _ _) Hs).
    + cbn [lookup list_lookup] in Hi. apply IH in Hi as [Hd Hf]; [|rewrite length_drop; lia].
      assert (slice (frag_size * i) frag_size (drop frag_size data)
        = slice (frag_size * S i) frag_size data) as Hsl.
      { unfold slice. rewrite drop_drop. do 2 f_equal. lia. }
      rewrite Hsl in *. split; [done|]. rewrite Hf. f_equal; [lia|].
      rewrite length_drop.
      destruct (Nat.leb_spec (length data - frag_size) (frag_size * S i)),
        (Nat.leb_spec (length data) (frag_size * S (S i))); done || lia.
Qed.

Lemma fragments_length fuel p off data :
  (length data <= fuel * frag_size)%nat -> Forall (fun f => length (p_data f) <= frag_size)%nat
    (fragments fuel p off data).
Proof.
  revert off data. induction fuel as [|fuel IH]; intros off data Hl; [constructor|].
  cbn [fragments]. destruct (Nat.leb_spec (length data) frag_size) as [Hs|Hs].
  - constructor; [done|constructor].
  - constructor; [cbn [p_data fragment_of]; rewrite length_take; lia|].
    apply IH. rewrite length_drop. lia.
Qed.

Lemma fragment_of_wf p off more data :
  wf4 p -> 0 <= off < 8192 -> (length data <= frag_size)%nat -> wf4 (fragment_of p off more data).
Proof.
  intros [Ht Hi Hf Hs Hd (k & Hk & Hk') Htot] Ho Hl.
  split; cbn [fragment_of p_tos p_id p_frag p_src p_dst p_opts]; try done.
  - destruct more; lia.
  - by exists k.
  - unfold total4. cbn [p_opts p_data fragment_of]. unfold frag_size in Hl. lia.
Qed.

Lemma fragment_of_offset p off (more : bool) data :
  0 <= off < 8192 ->
  offset_of (header_of (fragment_of p off more data)) = off /\
  more_of (header_of (fragment_of p off more data)) = more.
Proof.
  intros Ho. unfold offset_of, more_of. cbn [frag_off header_of p_frag fragment_of].
  unfold IP_OFFSET. change 0x1FFF with (Z.ones 13). rewrite Z.land_ones by lia.
  change (2 ^ 13) with 8192.
  assert ((off + if more then 8192 else 0) = off + (if more then 1 else 0) * 8192) as ->
    by (destruct more; lia).
  rewrite Z.mod_add, Z.mod_small by lia. split; [done|].
  rewrite <- Z.add_comm. change 8192 with (2 ^ 13). rewrite <- lor_add by (cbn; lia).
  rewrite Z.lor_spec, Z.mul_pow2_bits by lia. rewrite (testbit_out_of_range off 13) by (cbn; lia).
  rewrite orb_false_r. by destruct more.
Qed.

(** ** One round *)

Section Fragment.
Context (e : endian) `{Checksums} (tos_ignore_flag : bool) (ulong : Z).
Context (hard_header_len : nat) (garbage : nat -> list Z) (Hgarbage : forall n, length (garbage n) = n).

Lemma offset_bits off :
  0 <= off < 8192 -> Z.land off (Z.lnot IP_MF) = off /\ Z.lor off IP_MF = off + 8192.
Proof.
  intros Ho. unfold IP_MF. split.
  - rewrite <- Z.ldiff_land. apply Z.bits_inj'. intros i Hi. rewrite Z.ldiff_spec.
    change 0x2000 with (2 ^ 13). rewrite Z.pow2_bits_eqb by lia.
    destruct (Z.eqb_spec 13 i) as [<-|]; [|apply andb_true_r].
    by rewrite (testbit_out_of_range off 13) by (cbn; lia).
  - change 0x2000 with (1 * 2 ^ 13). rewrite Z.lor_comm, lor_add by (cbn; lia). lia.
Qed.

(** The buffer after the header and the piece are copied and corrected. *)
Lemma fragment_packet_run p chk pre piece post (clear : bool) off buff :
  wf4 p -> length chk = 2%nat -> 0 <= off < 8192 ->
  let k := length (header4 p chk) in
  (k + length piece <= length buff)%nat ->
  let f := fragment_of p off (negb clear) piece in
  exists chk', length chk' = 2%nat /\
    fragment_packet e (header4 p chk ++ pre ++ piece ++ post) (header_of p) (k + length pre)
      (Z.of_nat (length piece)) clear off buff
    = Ret tt (encode4 f chk' ++ drop (k + length piece) buff).
Proof.
  intros Hp Hc Ho k Hb f. unfold fragment_packet, mbind, prog_bind.
  pose proof (length_header4 p chk Hp Hc) as Hk. fold k in Hk. rewrite <- Hk, Nat2Z.id.
  rewrite <- (app_nil_l buff).
  rewrite (copy_app [] _ (header4 p chk)) by (done || (fold k; lia) || by apply take_app_length).
  fold k. cbn [app].
  rewrite (app_assoc (header4 p chk)), drop_at by (rewrite length_app; done).
  rewrite (copy_app (header4 p chk) _ piece) by
    (done || (rewrite ?length_drop; lia) || by apply take_app_length).
  destruct (offset_bits off Ho) as [Hclear Hset]. rewrite drop_drop.
  set (rest := drop (k + length piece) buff).
  unfold poke16. rewrite Hclear, Hset.
  set (h0 := [64 + ihl_of p; p_tos p]). set (tp := [p_ttl p; p_proto p]).
  set (tail := p_src p ++ p_dst p ++ p_opts p ++ piece ++ rest).
  assert (header4 p chk ++ piece ++ rest = h0 ++ be_bytes 2 (total4 p) ++ be_bytes 2 (p_id p)
    ++ be_bytes 2 (p_frag p) ++ tp ++ chk ++ tail) as ->
    by (unfold header4, hdr4, h0, tp, tail; by rewrite <- !app_assoc).
  poke_over (h0 ++ be_bytes 2 (total4 p)) (be_bytes 2 (p_id p)) (be_bytes 2 (p_frag p) ++ tp ++ chk ++ tail).
  cbn [id header_of].
  assert ((if clear then poke 6 (be_bytes 2 off) else poke 6 (be_bytes 2 (off + 8192)))
    = poke 6 (be_bytes 2 (p_frag f))) as ->
    by (cbn [p_frag f fragment_of]; destruct clear; cbn [negb]; rewrite ?Z.add_0_r; done).
  assert (Z.of_nat (length piece) + Z.of_nat k = total4 f) as ->.
  { rewrite Hk, (proj2 (ihl_range p Hp)). unfold total4. cbn [p_opts p_data f fragment_of]. lia. }
  poke_over (h0 ++ be_bytes 2 (total4 p) ++ be_bytes 2 (p_id p)) (be_bytes 2 (p_frag p)) (tp ++ chk ++ tail).
  poke_over h0 (be_bytes 2 (total4 p)) (be_bytes 2 (p_id p) ++ be_bytes 2 (p_frag f) ++ tp ++ chk ++ tail).
  set (h10 := h0 ++ be_bytes 2 (total4 f) ++ be_bytes 2 (p_id p) ++ be_bytes 2 (p_frag f) ++ tp).
  poke_over h10 chk tail.
  assert (forall c, h10 ++ c ++ tail = header4 f c ++ piece ++ rest) as Hh
    by (intros; unfold h10, tail, header4, hdr4, h0, tp; by rewrite <- !app_assoc).
  assert (forall c : list Z, length c = 2%nat -> length (header4 f c) = k) as Hkf.
  { intros c Hcl. unfold k, header4, hdr4.
    rewrite !length_app, !be_bytes_length, Hc, Hcl. done. }
  exists (store e 2 (ip_fast_csum (header4 f [0; 0]))). split; [apply store_length|].
  match goal with |- context [get 0 k ?m] =>
    replace m with ([] ++ header4 f [0; 0] ++ piece ++ rest)
      by (rewrite <- Hh; unfold h10; by rewrite <- !app_assoc)
  end.
  rewrite (get_part [] (header4 f [0; 0])) by (done || by apply Hkf). cbn [app].
  rewrite <- Hh, (poke_part h10 _ [0; 0]) by (rewrite ?store_length; done).
  rewrite Hh. unfold encode4. by rewrite <- app_assoc.
Qed.

(** ** Sending *)

(** What is sent for a packet: its translation, and as many bytes of whatever was
    in the buffer as the packet has options. *)
Definition delivery6 (eth_h : list Z) (f : packet4) : delivery :=
  let n := length (p_data f) in
  let fr_flag := fragmented f false in
  Delivery (ether_header eth_h ETH_P_IPV6) ETH_P_IPV6
    (front tos_ignore_flag f fr_flag (Z.of_nat n) ++ transport_data e f false
     ++ drop (front_length fr_flag + n) (garbage (front_length fr_flag + length (p_opts f) + n))).

(** Allocate a buffer for a packet and send it. *)
Definition send (d : delivery) : K Z :=
  ok ← alloc;
  if negb (ok : bool) then mret (-1)
  else add_tx ulong (Z.of_nat (length (rx_data d)));; netif_rx d;; mret 0.

(** Send packets until an allocation fails. *)
Fixpoint sends (ds : list delivery) : K Z :=
  match ds with
  | [] => mret 0
  | d :: ds => r ← send d; if r =? -1 then mret (-1) else sends ds
  end.

Lemma send_fragment_run eth_h f chk stale k :
  wf4 f -> length chk = 2%nat -> fragmented f false = true -> transport_ok f ->
  no_checksum f = false ->
  send_fragment e tos_ignore_flag ulong garbage eth_h (encode4 f chk ++ stale) (total4 f) k
  = send (delivery6 eth_h f) k.
Proof.
  intros Hf Hc Hfr Ht Hn. unfold send_fragment, send, delivery6, mbind, prog_bind.
  destruct (alloc k) as [ok k1|c k1|]; [|done..]. destruct ok; [|done]. cbn [negb].
  assert (Z.to_nat (total4 f + IP4_IP6_HDR_DIFF + IP6_FRAGMENT_SIZE)
    = (48 + length (p_opts f) + length (p_data f))%nat) as ->.
  { unfold total4, IP4_IP6_HDR_DIFF, IP6_FRAGMENT_SIZE. lia. }
  unfold in_buffer. pose proof (ip4_ip6_run e tos_ignore_flag f chk stale false
    (garbage (48 + length (p_opts f) + length (p_data f))) Hf Hc Ht) as Hrun.
  rewrite Hfr in *. cbn [front_length] in *. rewrite Hgarbage in Hrun.
  rewrite Hrun by lia. by rewrite Hn.
Qed.

(** The first piece is not one that would be dropped. *)
Definition pieces_ok (p : packet4) (off : Z) (data : list Z) : Prop :=
  p_proto p = IPPROTO_TCP \/
  p_proto p = IPPROTO_UDP /\
    (off <> 0 \/ (8 <= length data)%nat /\ be_val (slice 6 2 data) <> 0).

Lemma piece_ok p off more data :
  0 <= off < 8192 -> pieces_ok p off data ->
  transport_ok (fragment_of p off more data) /\ no_checksum (fragment_of p off more data) = false.
Proof.
  intros Ho Hp. destruct (fragment_of_offset p off more data Ho) as [Hoff _].
  unfold transport_ok, included_ok, no_checksum. rewrite Hoff. cbn [p_proto p_data fragment_of].
  destruct Hp as [->|[-> [Hne|[Hl Hs]]]].
  - split; [by left|done].
  - split; [by right; split; [|left]|]. by rewrite (proj2 (Z.eqb_neq _ _) Hne).
  - split; [by right; split; [|right]|]. rewrite (proj2 (Z.eqb_neq _ _) Hs). apply andb_false_r.
Qed.

Lemma fragment_fragmented p off more data :
  0 <= off < 8192 -> fragmented (fragment_of p off more data) false = true.
Proof.
  intros Ho. unfold fragmented. cbn [p_frag fragment_of]. rewrite orb_false_r.
  rewrite (proj2 (Z.eqb_neq _ _)); [done|]. unfold IP_DF. destruct more; lia.
Qed.

(** A round: the fragment is built and sent. *)
Lemma round_run p chk eth_h pre piece post (clear : bool) off buff :
  wf4 p -> length chk = 2%nat -> 0 <= off < 8192 -> (length piece <= frag_size)%nat ->
  pieces_ok p off piece ->
  let h := header4 p chk in
  let n := Z.of_nat (length piece) in
  (length h + frag_size <= length buff)%nat ->
  exists buff', length buff' = length buff /\ forall A (next : list Z -> Z -> K A) k,
    ('(_, b) ← in_buffer buff
       (fragment_packet e (h ++ pre ++ piece ++ post) (header_of p) (length h + length pre) n clear off;;
        mret 0);
     r ← send_fragment e tos_ignore_flag ulong garbage eth_h b (n + hdr_len (header_of p));
     next b r) k
    = (r ← send (delivery6 eth_h (fragment_of p off (negb clear) piece)); next buff' r) k.
Proof.
  intros Hp Hc Ho Hl Hok h n Hb. set (f := fragment_of p off (negb clear) piece).
  destruct (fragment_packet_run p chk pre piece post clear off buff Hp Hc Ho ltac:(fold h; lia))
    as (chk' & Hc' & Hrun). fold h f n in Hrun.
  set (buff' := encode4 f chk' ++ drop (length h + length piece) buff) in *.
  assert (Z.of_nat (length (header4 f chk')) = Z.of_nat (length h)) as Hhl.
  { unfold h. rewrite !length_header4; try done; by apply fragment_of_wf. }
  exists buff'. split.
  { unfold buff', encode4. rewrite !length_app, length_drop. cbn [p_data f fragment_of]. lia. }
  intros A next k. unfold mbind, prog_bind, in_buffer. rewrite Hrun. unfold mret, prog_ret.
  assert (n + hdr_len (header_of p) = total4 f) as ->.
  { rewrite (proj2 (ihl_range p Hp)). unfold total4, n. cbn [p_opts p_data f fragment_of]. lia. }
  unfold buff'. destruct (piece_ok p off (negb clear) piece Ho Hok) as [Ht Hn]. fold f in Ht, Hn.
  rewrite send_fragment_run; [done|by apply fragment_of_wf|done|by apply fragment_fragmented|done..].
Qed.

Lemma pieces_ok_take p off data :
  pieces_ok p off data -> pieces_ok p off (take frag_size data).
Proof.
  intros [Ht|[Hu [Ho|[Hl Hs]]]]; [by left|right; split; [done|by left]..|].
  right. split; [done|right]. split; [rewrite length_take; unfold frag_size; lia|].
  unfold slice in *. rewrite skipn_firstn_comm, firstn_firstn. done.
Qed.

Lemma fragment_loop_run fuel p chk eth_h pre data off buff k :
  wf4 p -> length chk = 2%nat -> 0 <= off -> off * 8 + Z.of_nat (length data) <= 65536 ->
  (length data < fuel * frag_size)%nat -> data <> [] -> pieces_ok p off data ->
  let h := header4 p chk in
  (length h + frag_size <= length buff)%nat ->
  fragment_loop e tos_ignore_flag ulong garbage fuel (h ++ pre ++ data) eth_h (header_of p)
    (negb (more_of (header_of p))) buff (length h + length pre) (Z.of_nat (length data)) off k
  = sends (delivery6 eth_h <$> fragments fuel p off data) k.
Proof.
  intros Hp Hc. revert pre data off buff k.
  induction fuel as [|fuel IH]; intros pre data off buff k Ho Hmax Hfuel Hne Hok h Hbuff; [lia|].
  assert (0 < Z.of_nat (length data)) as H0 by (destruct data; [done|cbn; lia]).
  assert (0 <= off < 8192) as Ho' by lia.
  cbn [fragment_loop fragments]. change FRAG_BUFF_SIZE with (Z.of_nat frag_size).
  destruct (Nat.leb_spec (length data) frag_size) as [Hs|Hs].
  - rewrite (proj2 (Z.leb_le _ _)) by lia. cbn [andb].
    destruct (round_run p chk eth_h pre data [] (negb (more_of (header_of p))) off buff)
      as (buff' & Hl' & Hrun); try done. fold h in Hrun. rewrite app_nil_r in Hrun.
    rewrite Hrun, negb_involutive. done.
  - rewrite (proj2 (Z.leb_gt _ _)) by lia. cbn [andb].
    destruct (round_run p chk eth_h pre (take frag_size data) (drop frag_size data) false off buff)
      as (buff' & Hl' & Hrun); try done;
      [rewrite length_take; lia|by apply pieces_ok_take|].
    fold h in Hrun. rewrite take_drop in Hrun.
    assert (length (take frag_size data) = frag_size) as Ht by (rewrite length_take; lia).
    rewrite Ht in Hrun. rewrite Hrun. cbn [negb fmap list_fmap sends].
    unfold mbind, prog_bind. destruct (send _ k) as [r k1|c k1|]; [|done..].
    destruct (r =? -1); [done|].
    assert (u16 ((off * 8 + Z.of_nat frag_size) / 8) = off + 154) as ->.
    { change (Z.of_nat frag_size) with (154 * 8). rewrite <- Z.mul_add_distr_r, Z.div_mul by lia.
      apply wrap_small. change (2 ^ 16) with 65536. change frag_size with 1232%nat in *. lia. }
    rewrite Nat2Z.id.
    replace (Z.of_nat (length data) - Z.of_nat frag_size)
      with (Z.of_nat (length (drop frag_size data))) by (rewrite length_drop; lia).
    rewrite <- Nat.add_assoc.
    rewrite <- (IH (pre ++ take frag_size data) (drop frag_size data) (off + 154) buff' k1).
    + rewrite length_app, Ht, <- app_assoc, take_drop. done.
    + lia.
    + rewrite length_drop. change frag_size with 1232%nat in *. lia.
    + rewrite length_drop. lia.
    + intros Hn. apply (f_equal length) in Hn. rewrite length_drop in Hn. cbn in Hn. lia.
    + destruct Hok as [Htcp|[Hu _]]; [by left|right; split; [done|left; lia]].
    + by rewrite Hl'.
Qed.

(** ** The whole function *)

(** The checksum for a UDP packet that has none. *)
Definition csum4 (s d data : list Z) : list Z :=
  store e 2 (csum_tcpudp_magic s d (Z.of_nat (length data)) IPPROTO_UDP (csum_partial data)).

Definition filled4 (p : packet4) : list Z :=
  take 6 (p_data p) ++ csum4 (p_src p) (p_dst p) (p_data p) ++ drop 8 (p_data p).

(** The data that is cut. *)
Definition sent_data (p : packet4) : list Z :=
  if no_checksum p && negb (more_of (header_of p)) then filled4 p else p_data p.

(** The length field of a UDP packet without checksum is right. *)
Definition udp_length_ok (p : packet4) : Prop :=
  no_checksum p && negb (more_of (header_of p)) = true ->
  be_val (slice 4 2 (p_data p)) = Z.of_nat (length (p_data p)).

Lemma zero_check l : length l = 2%nat -> bytes_ok l -> be_val l = 0 -> l = [0; 0].
Proof.
  intros Hl Hb. destruct l as [|a [|b [|]]]; try discriminate Hl.
  inversion Hb as [|? ? Ha Hb1]; inversion Hb1 as [|? ? Hbb _]. unfold is_byte in *.
  unfold be_val. cbn [reverse rev_append le_val]. intros Hval.
  assert (a = 0 /\ b = 0) as [-> ->] by lia. done.
Qed.

Lemma filled4_verifies p `{!ChecksumLaws e} :
  wf4 p -> (8 <= length (p_data p))%nat -> bytes_ok (p_data p) ->
  be_val (slice 6 2 (p_data p)) = 0 ->
  verifies (pseudo4 (p_src p) (p_dst p) (Z.of_nat (length (p_data p))) IPPROTO_UDP ++ filled4 p).
Proof.
  intros [_ _ _ Hs Hd _ _] Hl Hb Hz. unfold filled4. rewrite app_assoc. apply completes_verifies.
  - unfold pseudo4. rewrite !length_app, be_bytes_length, Hs, Hd, length_take. exists 9%nat.
    cbn [length]. lia.
  - rewrite <- app_assoc.
    assert (take 6 (p_data p) ++ [0; 0] ++ drop 8 (p_data p) = p_data p) as ->.
    { rewrite (udp_parts (p_data p)) at 3 by done. do 2 f_equal. symmetry. apply zero_check; [..|done].
      - apply length_slice. lia.
      - unfold slice. by apply Forall_take, Forall_drop. }
    by apply csum_tcpudp_completes.
Qed.

Lemma fragment_udp_run p chk :
  wf4 p -> length chk = 2%nat -> transport_ok p -> udp_length_ok p ->
  fragment_udp e (header_of p) (negb (more_of (header_of p))) (encode4 p chk)
  = Ret (if no_checksum p && more_of (header_of p) then -1 else 0) (header4 p chk ++ sent_data p).
Proof.
  intros Hp Hc Hok Hudp. unfold fragment_udp, sent_data, encode4, udp_length_ok in *.
  unfold no_checksum in *. fold (offset_of (header_of p)). cbn [protocol header_of].
  destruct (Z.eqb_spec (p_proto p) IPPROTO_UDP) as [Hu|]; [|done].
  fold (header_of p). cbn [andb]. destruct (Z.eqb_spec (offset_of (header_of p)) 0) as [Ho|]; [|done].
  cbn [andb] in *.
  assert (8 <= length (p_data p))%nat as Hlen
    by (destruct Hok as [Ht|[_ [|]]]; [by rewrite Ht in Hu|done..]).
  pose proof (length_header4 p chk Hp Hc) as Hk. rewrite <- Hk, Nat2Z.id.
  set (h := header4 p chk) in *. unfold get16, mbind, prog_bind.
  rewrite !(get_behind h) by done.
  rewrite (udp_parts (p_data p)) at 1 3 by done.
  rewrite (get_part (take 6 (p_data p)) (slice 6 2 (p_data p))) by
    (rewrite ?length_take, ?length_slice; lia).
  rewrite <- udp_parts by done. cbn [behind]. unfold mret, prog_ret.
  destruct (more_of (header_of p)); cbn [negb andb]; [by destruct (be_val _ =? 0)|].
  destruct (Z.eqb_spec (be_val (slice 6 2 (p_data p))) 0) as [Hz|]; cbn [andb] in *; [|done].
  rewrite (get_behind h) by done. cbn [behind].
  rewrite get_slice by lia. cbn [behind]. rewrite (Hudp eq_refl), Nat2Z.id.
  rewrite <- (app_nil_r (h ++ p_data p)), <- app_assoc.
  rewrite (get_part h (p_data p)), app_nil_r by done.
  rewrite (poke_behind h) by done. rewrite poke_write by (rewrite store_length; lia).
  unfold write. by rewrite store_length.
Qed.

Lemma length_sent_data p : transport_ok p -> length (sent_data p) = length (p_data p).
Proof.
  intros Ht. unfold sent_data.
  destruct (no_checksum p && negb (more_of (header_of p))) eqn:Hf; [|done].
  destruct (no_checksum_length p (negb (more_of (header_of p))) true) as [_ Hl];
    [by rewrite andb_true_r|done|].
  unfold filled4, csum4. rewrite !length_app, store_length, length_take, length_drop. lia.
Qed.

(** The whole function, as the sending of the fragments. *)
Definition send_all (ds : list delivery) : K Z :=
  ok ← alloc;
  if negb (ok : bool) then mret (-1) else r ← sends ds; kfree;; mret r.

Lemma ip4_fragment_run p chk eth_h k :
  wf4 p -> length chk = 2%nat -> transport_ok p -> udp_length_ok p -> p_data p <> [] ->
  offset_of (header_of p) * 8 + Z.of_nat (length (p_data p)) <= 65536 ->
  (no_checksum p && more_of (header_of p) = true \/
   pieces_ok p (offset_of (header_of p)) (sent_data p)) ->
  ip4_fragment e tos_ignore_flag ulong garbage (encode4 p chk) (total4 p) eth_h k
  = (if no_checksum p && more_of (header_of p) then mret (-1)
     else send_all (delivery6 eth_h <$> all_fragments p (sent_data p))) k.
Proof.
  intros Hp Hc Ht Hu Hne Hoff Hok. unfold ip4_fragment.
  assert (read_iphdr (encode4 p chk) = Some (header_of p)) as -> by by apply read_header4.
  unfold mbind, prog_bind, defined, in_buffer.
  assert ((Z.land (frag_off (header_of p)) IP_MF =? 0) = negb (more_of (header_of p))) as ->.
  { rewrite land_mf. fold (more_of (header_of p)). by destruct (more_of _). }
  rewrite fragment_udp_run by done.
  destruct (no_checksum p && more_of (header_of p)); [done|]. destruct Hok as [|Hok]; [done|].
  cbn [Z.eqb]. unfold send_all, mbind, prog_bind.
  destruct (alloc k) as [ok k1|c k1|]; [|done..]. destruct ok; [|done]. cbn [negb].
  fold (offset_of (header_of p)).
  pose proof (length_header4 p chk Hp Hc) as Hk. rewrite <- Hk.
  pose proof (length_sent_data p Ht) as Hl.
  assert (total4 p - Z.of_nat (length (header4 p chk)) = Z.of_nat (length (sent_data p))) as ->.
  { rewrite Hk, Hl, (proj2 (ihl_range p Hp)). unfold total4. lia. }
  rewrite Nat2Z.id.
  pose proof (offset_range (header_of p) (proj1 (wf_frag p Hp))) as Ho.
  assert (fragment_fuel (Z.of_nat (length (sent_data p))) = fragments_fuel (sent_data p)) as ->.
  { unfold fragment_fuel, fragments_fuel. change FRAG_BUFF_SIZE with (Z.of_nat frag_size).
    by rewrite <- Nat2Z.inj_div, Nat2Z.id. }
  pose proof (fragment_loop_run (fragments_fuel (sent_data p)) p chk eth_h [] (sent_data p)
    (offset_of (header_of p)) (replicate (Z.to_nat (FRAG_BUFF_SIZE + Z.of_nat (length (header4 p chk)))) 0)
    k1 Hp Hc) as Hrun.
  cbn [app length] in Hrun. rewrite Nat.add_0_r in Hrun. rewrite Hrun; [done|lia|lia| | |done|].
  - unfold fragments_fuel. pose proof (Nat.div_mod_eq (length (sent_data p)) frag_size).
    pose proof (Nat.mod_upper_bound (length (sent_data p)) frag_size).
    change frag_size with 1232%nat in *. lia.
  - intros Hn. rewrite Hn in Hl. by destruct (p_data p).
  - rewrite length_replicate. change FRAG_BUFF_SIZE with (Z.of_nat frag_size). lia.
Qed.
End Fragment.
