(* ===== verification/SiitXmitProofs.v ===== *)
(** * SIIT: transmission

    What [siit_xmit] does with a frame: what it delivers, what it counts, and what
    becomes of the buffers, whichever allocations fail. *)

From Stdlib Require Import ZArith Lia.
From stdpp Require Import base list numbers option.
From S2P Require Import Prelude Bits Packet PacketFacts Siit Siit64 SiitXmit SiitFacts SiitProofs.
From S2P Require Import Siit64Ext Siit64Proofs SiitFragment.

(** ** Allocations *)

(** How many of the next [n] allocations succeed before one fails. *)
Fixpoint granted (n : nat) (l : list bool) : nat :=
  match n, l with
  | O, _ => O
  | S n, [] => S (granted n [])
  | S n, ok :: l => if ok : bool then S (granted n l) else O
  end.

Lemma granted_nil n : granted n [] = n.
Proof. induction n; cbn; congruence. Qed.

Lemma granted_le n l : (granted n l <= n)%nat.
Proof. revert l. induction n as [|n IH]; intros [|[] l]; cbn; try lia; specialize (IH l) || specialize (IH []); lia. Qed.

Lemma granted_fails n l : (granted n l < n)%nat -> false ∈ l.
Proof.
  revert l. induction n as [|n IH]; intros [|[] l]; cbn; intros Hl; try lia.
  - rewrite granted_nil in Hl. lia.
  - apply elem_of_cons. right. apply IH. lia.
  - by apply elem_of_cons; left.
Qed.

(** ** IPv4 packets *)

(** Is the packet cut into fragments? *)
Definition cut (p : packet4) : bool :=
  (Z.land (p_frag p) IP_DF =? 0) && (frag_size <? length (p_data p))%nat.

Section XmitProofs.
Context (e : endian) `{Checksums} (tos_ignore_flag : bool) (ulong : Z) (Hulong : 0 <= ulong).
Context (garbage : nat -> list Z) (Hgarbage : forall n, length (garbage n) = n).

Lemma alloc_cases k :
  exists ok k', alloc k = Ret ok k' /\ stats k' = stats k /\ received k' = received k /\
    live k' = live k + (if ok : bool then 1 else 0) /\
    (forall n, granted (S n) (allocs k) = if ok then S (granted n (allocs k')) else O).
Proof.
  unfold alloc. destruct (allocs k) as [|ok r] eqn:E.
  - exists true. eexists. split; [done|]. cbn. done.
  - exists ok. eexists. split; [done|]. cbn. by destruct ok.
Qed.

(** Sending packets keeps no buffer. *)
Lemma sends_run ds k :
  let j := granted (length ds) (allocs k) in
  exists k', sends ulong ds k = Ret (if (j =? length ds)%nat then 0 else -1) k' /\
    received k' = received k ++ take j ds /\ live k' = live k /\
    rx_packets (stats k') = rx_packets (stats k) /\ rx_bytes (stats k') = rx_bytes (stats k) /\
    wrap ulong (tx_packets (stats k')) = wrap ulong (tx_packets (stats k) + Z.of_nat j).
Proof.
  revert k. induction ds as [|d ds IH]; intros k j.
  - exists k. unfold j. cbn. rewrite app_nil_r, Z.add_0_r. done.
  - destruct (alloc_cases k) as (ok & k1 & Ha & Hs & Hr & Hl & Hg).
    unfold j. cbn [length sends]. rewrite Hg. unfold send, mbind, prog_bind. rewrite Ha.
    destruct ok; cbn [negb].
    + specialize (IH (Kernel (stats (Kernel
        (Stats (rx_packets (stats k1)) (count ulong (tx_packets (stats k1)) 1)
          (rx_bytes (stats k1)) (count ulong (tx_bytes (stats k1)) (Z.of_nat (length (rx_data d))))
          (rx_errors (stats k1)) (tx_errors (stats k1)) (rx_dropped (stats k1)))
        (received k1) (allocs k1) (live k1))) (received k1 ++ [d]) (allocs k1) (live k1 - 1))).
      destruct IH as (k' & Hrun & Hrec & Hlive & Hrx & Hrb & Htx). cbn [allocs stats received live] in *.
      exists k'. split; [exact Hrun|]. rewrite Hrec, Hlive, Hr, Hl, <- app_assoc.
      rewrite Hrx, Hrb, Htx, Hs. cbn [rx_packets rx_bytes tx_packets take app]. unfold count.
      rewrite wrap_add_l. repeat split; [lia|f_equal; lia].
    + exists k1. rewrite Hr, Hl, Hs, app_nil_r, !Z.add_0_r. done.
Qed.

(** A TCP or UDP packet with data, no longer than its datagram may be; if it is cut,
    with the length field of UDP right and not with a checksum that comes out zero. *)
Record sendable (p : packet4) : Prop := Sendable {
  send_wf : wf4 p;
  send_transport : transport_ok p;
  send_data : p_data p <> [];
  send_offset : offset_of (header_of p) * 8 + Z.of_nat (length (p_data p)) <= 65536;
  send_udp : udp_length_ok p;
  send_csum : cut p = true ->
    no_checksum p && more_of (header_of p) = true \/
    pieces_ok p (offset_of (header_of p)) (sent_data e p)
}.

(** What is delivered for it when there is memory. *)
Definition deliveries (eth_h : list Z) (p : packet4) : list delivery :=
  if no_checksum p && more_of (header_of p) then []
  else if cut p then delivery6 e tos_ignore_flag garbage eth_h <$> all_fragments p (sent_data e p)
  else [delivery6 e tos_ignore_flag garbage eth_h p].

Lemma length_encode4 p chk : wf4 p -> length chk = 2%nat -> Z.of_nat (length (encode4 p chk)) = total4 p.
Proof.
  intros Hp Hc. unfold encode4. rewrite length_app, Nat2Z.inj_add, length_header4 by done.
  rewrite (proj2 (ihl_range p Hp)). unfold total4. lia.
Qed.

(** How a transmission ends: packets delivered, one buffer less, what was counted. *)
Definition transmitted (k k' : kernel) (ds : list delivery) (j : nat) : Prop :=
  received k' = received k ++ take j ds /\ live k' = live k - 1 /\
  (j = length ds \/ false ∈ allocs k) /\
  rx_packets (stats k') = rx_packets (stats k) /\ rx_bytes (stats k') = rx_bytes (stats k) /\
  wrap ulong (tx_packets (stats k')) = wrap ulong (tx_packets (stats k) + Z.of_nat j).

Lemma xmit_fragments eth_h p chk k :
  sendable p -> length chk = 2%nat -> cut p = true ->
  exists k' j, xmit_ip e tos_ignore_flag ulong garbage (encode4 p chk) eth_h k = Ret 0 k' /\
    transmitted k k' (deliveries eth_h p) j.
Proof.
  intros [Hp Ht Hne Hoff Hu Hcs] Hc Hcut. unfold xmit_ip, deliveries. rewrite Hcut.
  assert (read_iphdr (encode4 p chk) = Some (header_of p)) as -> by by apply read_header4.
  rewrite length_encode4 by done. unfold mbind, prog_bind, defined. cbn [tot_len header_of frag_off].
  rewrite Z.eqb_refl. cbn [negb].
  assert ((Z.land (p_frag p) IP_DF =? 0) && (FRAG_BUFF_SIZE <? total4 p - hdr_len (header_of p)) = true) as ->.
  { unfold cut in Hcut. apply andb_true_iff in Hcut as [-> Hl%Nat.ltb_lt]. apply Z.ltb_lt.
    rewrite (proj2 (ihl_range p Hp)). change FRAG_BUFF_SIZE with (Z.of_nat frag_size).
    unfold total4. lia. }
  rewrite ip4_fragment_run by auto.
  destruct (no_checksum p && more_of (header_of p)).
  - eexists. exists 0%nat. split; [reflexivity|]. unfold transmitted. cbn.
    rewrite app_nil_r; change (Z.of_nat 0) with 0; rewrite ?Z.add_0_r. repeat split; (lia || by left).
  - set (ds := delivery6 _ _ _ _ <$> _).
    unfold send_all, mbind, prog_bind.
    destruct (alloc_cases k) as (ok & k1 & Ha & Hs & Hr & Hl & Hg). rewrite Ha.
    destruct ok; cbn [negb].
    + destruct (sends_run ds k1) as (k2 & Hrun & Hrec & Hlive & Hrx & Hrb & Htx).
      set (j := granted (length ds) (allocs k1)) in *. rewrite Hrun.
      assert (j = length ds \/ false ∈ allocs k) as Hj.
      { pose proof (granted_le (length ds) (allocs k1)) as Hle. fold j in Hle.
        destruct (Nat.eq_dec j (length ds)) as [|Hn]; [by left|right].
        apply (granted_fails (S (length ds))). rewrite Hg. fold j. lia. }
      destruct (j =? length ds)%nat; eexists; exists j; (split; [reflexivity|]);
        unfold transmitted; cbn;
        rewrite Hrec, Hr, Hlive, Hl, Hrx, Hrb, Htx, Hs; repeat split; (lia || done).
    + eexists. exists 0%nat. split; [reflexivity|]. unfold transmitted. cbn.
      rewrite Hr, Hl, Hs, app_nil_r; change (Z.of_nat 0) with 0; rewrite ?Z.add_0_r. repeat split; try lia.
      right. apply (granted_fails 1). rewrite Hg. lia.
Qed.

Lemma xmit_whole eth_h p chk k :
  sendable p -> length chk = 2%nat -> cut p = false ->
  exists k' j, xmit_ip e tos_ignore_flag ulong garbage (encode4 p chk) eth_h k = Ret 0 k' /\
    transmitted k k' (deliveries eth_h p) j.
Proof.
  intros [Hp Ht Hne Hoff Hu Hcs] Hc Hcut. unfold xmit_ip, deliveries. rewrite Hcut.
  assert (read_iphdr (encode4 p chk) = Some (header_of p)) as -> by by apply read_header4.
  rewrite length_encode4 by done. unfold mbind, prog_bind, defined. cbn [tot_len header_of frag_off].
  rewrite Z.eqb_refl. cbn [negb].
  assert ((Z.land (p_frag p) IP_DF =? 0) && (FRAG_BUFF_SIZE <? total4 p - hdr_len (header_of p)) = false) as ->.
  { unfold cut in Hcut. apply andb_false_iff in Hcut as [-> |Hl%Nat.ltb_ge]; [done|].
    apply andb_false_iff. right. apply Z.ltb_ge.
    rewrite (proj2 (ihl_range p Hp)). change FRAG_BUFF_SIZE with (Z.of_nat frag_size).
    unfold total4. lia. }
  assert (skb_delta (encode4 p chk) (header_of p)
    = Some (if fragmented p false then 28 else 20)) as ->.
  { unfold skb_delta, fragmented. cbn [protocol header_of frag_off]. rewrite orb_false_r.
    rewrite (proj2 (Z.eqb_neq _ _) (proj1 (proj2 (transport_upper p Ht)))).
    by destruct (p_frag p =? IP_DF). }
  destruct (alloc_cases k) as (ok & k1 & Ha & Hs & Hr & Hl & Hg). rewrite Ha.
  destruct ok; cbn [negb].
  - pose proof (ip4_ip6_run e tos_ignore_flag p chk [] false
      (garbage (front_length (fragmented p false) + length (p_opts p) + length (p_data p))) Hp Hc Ht) as Hrun.
    rewrite app_nil_r, Hgarbage in Hrun. unfold in_buffer.
    assert (Z.to_nat (total4 p + (if fragmented p false then 28 else 20))
      = (front_length (fragmented p false) + length (p_opts p) + length (p_data p))%nat) as ->
      by (unfold total4; destruct (fragmented p false); cbn [front_length]; lia).
    rewrite Hrun by lia. destruct (no_checksum p && more_of (header_of p)).
    + eexists. exists 0%nat. split; [reflexivity|]. unfold transmitted. cbn.
      rewrite Hr, Hl, Hs, app_nil_r; change (Z.of_nat 0) with 0; rewrite ?Z.add_0_r. repeat split; (lia || by left).
    + eexists. exists 1%nat. split; [reflexivity|]. unfold transmitted. cbn.
      rewrite Hr, Hl, Hs. unfold count. rewrite wrap_wrap by done. repeat split; (lia || by left).
  - eexists. exists 0%nat. split; [reflexivity|]. unfold transmitted. cbn.
    rewrite Hr, Hl, Hs, app_nil_r; change (Z.of_nat 0) with 0; rewrite ?Z.add_0_r. repeat split; try lia.
    right. apply (granted_fails 1). rewrite Hg. lia.
Qed.

Lemma length_delivery6 eth_h f :
  wf4 f -> transport_ok f ->
  length (rx_data (delivery6 e tos_ignore_flag garbage eth_h f))
  = (front_length (fragmented f false) + length (p_opts f) + length (p_data f))%nat.
Proof.
  intros Hf Ht. unfold delivery6. cbn [rx_data].
  rewrite !length_app, length_drop, Hgarbage, length_front, length_transport_data by done. lia.
Qed.

Lemma fragments_ok fuel p off data :
  wf4 p -> 0 <= off -> off * 8 + Z.of_nat (length data) <= 65536 -> data <> [] ->
  (length data <= fuel * frag_size)%nat -> pieces_ok p off data ->
  Forall (fun f => wf4 f /\ transport_ok f /\ p_opts f = p_opts p /\
    (length (p_data f) <= frag_size)%nat) (fragments fuel p off data).
Proof.
  intros Hp. revert off data. induction fuel as [|fuel IH]; intros off data Ho Hmax Hne Hl Hok.
  - constructor.
  - assert (0 < Z.of_nat (length data)) as H0 by (destruct data; [done|cbn; lia]).
    assert (0 <= off < 8192) as Ho' by lia.
    cbn [fragments]. destruct (Nat.leb_spec (length data) frag_size) as [Hs|Hs].
    + constructor; [|constructor].
      split; [by apply fragment_of_wf|split; [by apply piece_ok|done]].
    + constructor.
      * assert (length (take frag_size data) = frag_size) as Ht by (rewrite length_take; lia).
        split; [apply fragment_of_wf; done || lia|split; [by apply piece_ok, pieces_ok_take|]].
        split; [done|]. cbn [p_data fragment_of]. lia.
      * apply IH; rewrite ?length_drop; try (change frag_size with 1232%nat in *; lia).
        -- intros Hn. apply (f_equal length) in Hn. rewrite length_drop in Hn. cbn in Hn. lia.
        -- destruct Hok as [Htcp|[Hu _]]; [by left|right; split; [done|left; lia]].
Qed.

Lemma fuel_enough data : (length data < fragments_fuel data * frag_size)%nat.
Proof.
  unfold fragments_fuel. pose proof (Nat.div_mod_eq (length data) frag_size).
  pose proof (Nat.mod_upper_bound (length data) frag_size).
  change frag_size with 1232%nat in *. lia.
Qed.

(** No packet needs more than the minimum MTU of IPv6. *)
Lemma deliveries_mtu eth_h p :
  sendable p -> Z.land (p_frag p) IP_DF = 0 -> p_opts p = [] ->
  Forall (fun d => length (rx_data d) <= 1280)%nat (deliveries eth_h p).
Proof.
  intros [Hp Ht Hne Hoff Hu Hcs] Hdf Hopts. unfold deliveries.
  destruct (no_checksum p && more_of (header_of p)); [constructor|].
  pose proof (offset_range (header_of p) (proj1 (wf_frag p Hp))) as Ho.
  pose proof (length_sent_data e p Ht) as Hl.
  assert (forall f, (front_length (fragmented f false) <= 48)%nat) as Hfl
    by (intros f; destruct (fragmented f false); cbn; lia).
  destruct (cut p) eqn:Hcut.
  - destruct (Hcs eq_refl) as [|Hok]; [done|]. apply Forall_fmap.
    assert (sent_data e p <> []) as Hne'
      by (intros Hn; rewrite Hn in Hl; by destruct (p_data p)).
    assert (offset_of (header_of p) * 8 + Z.of_nat (length (sent_data e p)) <= 65536) as Hoff'
      by (rewrite Hl; exact Hoff).
    pose proof (fragments_ok (fragments_fuel (sent_data e p)) p (offset_of (header_of p))
      (sent_data e p) Hp (proj1 Ho) Hoff' Hne' (Nat.lt_le_incl _ _ (fuel_enough _)) Hok) as Hall.
    eapply Forall_impl; [|exact Hall].
    intros f (Hf & Htf & Hof & Hlf). unfold compose. rewrite length_delivery6, Hof, Hopts by done.
    specialize (Hfl f). change frag_size with 1232%nat in *. cbn [length]. lia.
  - constructor; [|constructor]. rewrite length_delivery6, Hopts by done. specialize (Hfl p).
    unfold cut in Hcut. rewrite Hdf in Hcut. cbn [Z.eqb andb] in Hcut.
    apply Nat.ltb_ge in Hcut. change frag_size with 1232%nat in *. cbn [length]. lia.
Qed.

(** ** IPv6 packets *)

Lemma xmit_ipv6_run eth_h q k :
  wf6 q -> q_upper q <> NEXTHDR_ICMP -> (20 + length (q_data q) <= 2048)%nat ->
  let sent := embedded q && (granted 2 (allocs k) =? 2)%nat in
  exists k', xmit_ipv6 e tos_ignore_flag ulong (encode6 q) eth_h k = Ret 0 k' /\
    received k' = received k ++
      (if sent then [Delivery (ether_header eth_h ETH_P_IP) ETH_P_IP
                       (header46 e tos_ignore_flag q ++ q_data q)] else []) /\
    live k' = live k - (if sent then 0 else 1).
Proof.
  intros Hq Hu Hl sent. unfold sent, xmit_ipv6, mbind, prog_bind.
  destruct (alloc_cases k) as (ok & k1 & Ha & Hs & Hr & Hlive & Hg). rewrite Ha, (Hg 1%nat).
  destruct ok; cbn [negb].
  2: { rewrite andb_false_r. eexists. split; [reflexivity|]. cbn. rewrite Hr, Hlive, app_nil_r. split; [done|lia]. }
  assert (Z.of_nat (length (encode6 q)) = 40 + plen6 q) as ->
    by (unfold encode6, plen6; rewrite !length_app, length_base6 by done; lia).
  rewrite <- (app_nil_r (encode6 q)). unfold in_buffer.
  destruct (embedded q) eqn:He; cbn [andb].
  - rewrite ip6_ip4_run by (rewrite ?length_replicate; done).
    rewrite (proj2 (Z.eqb_neq _ _)) by lia.
    destruct (alloc_cases k1) as (ok & k2 & Ha2 & Hs2 & Hr2 & Hlive2 & Hg2).
    rewrite Ha2, (Hg2 0%nat). destruct ok; cbn [negb granted Nat.eqb].
    + assert (forall r, peek 0 (Z.to_nat (20 + Z.of_nat (length (q_data q))))
        (header46 e tos_ignore_flag q ++ q_data q ++ r)
        = Some (header46 e tos_ignore_flag q ++ q_data q)) as Hpeek.
      { intros r. rewrite app_assoc. apply peek_front.
        rewrite length_app, length_header46 by done. lia. }
      rewrite Hpeek. eexists. split; [reflexivity|]. cbn. rewrite Hr2, Hr, Hlive2, Hlive.
      split; [done|lia].
    + eexists. split; [reflexivity|]. cbn. rewrite Hr2, Hr, Hlive2, Hlive, app_nil_r.
      split; [done|lia].
  - unfold ip6_ip4, ip6_ip4_body. assert (0 <= plen6 q) by (unfold plen6; lia).
    destruct (Z.ltb_spec (40 + plen6 q - 40) 0); [lia|].
    unfold encode6. rewrite <- app_assoc, read_base6 by done. cbn [defined mbind prog_bind].
    unfold defined, mbind, prog_bind. rewrite addresses_embedded, He. cbn [negb].
    eexists. split; [reflexivity|]. cbn. rewrite Hr, Hlive, app_nil_r. split; [done|lia].
Qed.
End XmitProofs.

(** ** The driver *)

(** C15. For a TCP or UDP packet with data that is cut ([sendable], [cut]), [ip4_fragment] is
    the sending, one after the other, of the translations of the fragments of the packet, in
    a buffer that is freed whatever allocation fails; the first fragment of a UDP packet
    without a checksum is refused. The fragments are the packet: 1232 bytes each but the
    last, in order, at the offsets of their data, with the more-fragments flag on all but the
    last, which keeps the packet's; the checksum a whole UDP packet lacks is put in before. *)
Theorem ip4_fragment_refines (e : endian) (Hck : Checksums) (Hlaws : ChecksumLaws e)
    (tos_ignore : bool) (ulong : Z) (garbage : nat -> list Z)
    (Hgarbage : forall n, length (garbage n) = n) (p : packet4) (chk eth_h : list Z) (k : kernel)
    (Hp : sendable e p) (Hc : length chk = 2%nat) (Hcut : cut p = true) :
  let data := sent_data e p in
  let fs := all_fragments p data in
  ip4_fragment e tos_ignore ulong garbage (encode4 p chk) (total4 p) eth_h k
  = (if no_checksum p && more_of (header_of p) then mret (-1)
     else send_all ulong (delivery6 e tos_ignore garbage eth_h <$> fs)) k /\
  concat (p_data <$> fs) = data /\
  (forall i f, fs !! i = Some f ->
   p_data f = slice (1232 * i) 1232 data /\
   f = fragment_of p (offset_of (header_of p) + 154 * Z.of_nat i)
         (if (length data <=? 1232 * S i)%nat then more_of (header_of p) else true) (p_data f)) /\
  (no_checksum p && negb (more_of (header_of p)) = true -> bytes_ok (p_data p) ->
   verifies (pseudo4 (p_src p) (p_dst p) (Z.of_nat (length (p_data p))) IPPROTO_UDP ++ data)).
Proof.
  destruct Hp as [Hp Ht Hne Hoff Hu Hcs]. intros data fs.
  pose proof (fuel_enough data) as Hfuel.
  split; [by apply ip4_fragment_run; auto|split; [|split]].
  - apply fragments_data; [lia|]. intros Hn. pose proof (length_sent_data e p Ht) as Hl.
    fold data in Hl. rewrite Hn in Hl. by destruct (p_data p).
  - intros i f Hf. destruct (fragments_lookup _ _ _ _ _ _ (Nat.lt_le_incl _ _ Hfuel) Hf) as [Hd Hfe].
    split; [exact Hd|]. rewrite Hd. exact Hfe.
  - intros Hf Hb. unfold data, sent_data. rewrite Hf.
    destruct (no_checksum_length p (negb (more_of (header_of p))) true) as [_ Hl];
      [by rewrite andb_true_r|done|].
    apply filled4_verifies; try done.
    unfold no_checksum in Hf. rewrite !andb_true_iff in Hf. by apply Z.eqb_eq, Hf.
Qed.

(** C34. A TCP or UDP packet in an IPv4 frame, with data, no longer than its datagram may be,
    and, if it is cut, with a right UDP length and no checksum that comes out zero
    ([sendable]), is counted as received, leads to the delivery of its translation, or of its
    fragments in order up to the first allocation that fails, each counted, and leaves no
    buffer behind: neither the frame nor any that was allocated for it. For a packet without
    options that may be fragmented, nothing that is delivered is longer than the 1280 bytes
    every IPv6 link carries; one that must not be fragmented is delivered in one piece,
    however long it is. *)
Theorem siit_xmit_ipv4 (e : endian) (Hck : Checksums) (tos_ignore : bool) (ulong : Z)
    (garbage : nat -> list Z) (Hulong : 0 <= ulong) (Hgarbage : forall n, length (garbage n) = n)
    (p : packet4) (chk eth_h : list Z) (k : kernel)
    (Hp : sendable e p) (Hc : length chk = 2%nat) :
  let ds := deliveries e tos_ignore garbage eth_h p in
  let frame := eth_h ++ encode4 p chk in
  (exists k' j, siit_xmit e tos_ignore ulong (length eth_h) garbage (Some (frame, ETH_P_IP)) k = Ret 0 k' /\
   received k' = received k ++ take j ds /\ (j = length ds \/ false ∈ allocs k) /\
   live k' = live k - 1 /\
   rx_packets (stats k') = wrap ulong (rx_packets (stats k) + 1) /\
   rx_bytes (stats k') = wrap ulong (rx_bytes (stats k) + Z.of_nat (length frame)) /\
   wrap ulong (tx_packets (stats k')) = wrap ulong (tx_packets (stats k) + Z.of_nat j)) /\
  (Z.land (p_frag p) IP_DF = 0 -> p_opts p = [] ->
   Forall (fun d => length (rx_data d) <= 1280)%nat ds).
Proof.
  intros ds frame. split; [|by apply deliveries_mtu].
  unfold siit_xmit, mbind, prog_bind, defined, frame.
  rewrite peek_front, drop_at by done. rewrite Z.eqb_refl.
  cbn [add_rx with_stats modify].
  match goal with |- context [xmit_ip _ _ _ _ _ _ ?x] => set (k1 := x) end.
  assert (exists k' j, xmit_ip e tos_ignore ulong garbage (encode4 p chk) eth_h k1 = Ret 0 k' /\
    transmitted ulong k1 k' ds j) as (k' & j & Hrun & Hrec & Hlive & Hj & Hrx & Hrb & Htx).
  { destruct (cut p) eqn:Hcut; [by apply xmit_fragments|by apply xmit_whole]. }
  exists k', j. by rewrite Hrun.
Qed.

(** An IPv6 frame with the prefix in both addresses leads to the delivery of
    its translation, when both allocations succeed, and then the buffer of the
    translation is never freed: as many buffers are in use as before, though the
    frame is gone. Every other frame leaves one buffer less and delivers nothing. *)
Theorem siit_xmit_ipv6_leak (e : endian) (Hck : Checksums) (tos_ignore : bool) (ulong : Z)
    (garbage : nat -> list Z) (q : packet6) (eth_h : list Z) (k : kernel)
    (Hq : wf6 q) (Hu : q_upper q <> NEXTHDR_ICMP) (Hl : (20 + length (q_data q) <= 2048)%nat) :
  let sent := embedded q && (granted 2 (allocs k) =? 2)%nat in
  exists k', siit_xmit e tos_ignore ulong (length eth_h) garbage
      (Some (eth_h ++ encode6 q, ETH_P_IPV6)) k = Ret 0 k' /\
    received k' = received k ++
      (if sent then [Delivery (ether_header eth_h ETH_P_IP) ETH_P_IP
                       (header46 e tos_ignore q ++ q_data q)] else []) /\
    live k' = live k - (if sent then 0 else 1).
Proof.
  intros sent. unfold siit_xmit, mbind, prog_bind, defined.
  rewrite peek_front, drop_at by done. change (ETH_P_IPV6 =? ETH_P_IP) with false.
  rewrite Z.eqb_refl. cbn [add_rx with_stats modify].
  match goal with |- context [xmit_ipv6 _ _ _ _ _ ?x] => set (k1 := x) end.
  destruct (xmit_ipv6_run e tos_ignore ulong eth_h q k1 Hq Hu Hl) as (k' & Hrun & Hrec & Hlive).
  exists k'. by rewrite Hrun.
Qed.

(** ** Samples *)

Definition idle : kernel := Kernel (Stats 0 0 0 0 0 0 0) [] [] 1.

(** 1500 bytes of UDP without a checksum. *)
Definition sample_large : packet4 :=
  Packet4 0 7 0 64 17 [10; 0; 0; 1] [10; 0; 0; 2] []
    ([0; 53; 0; 54; 5; 220; 0; 0] ++ replicate 1492 1).

Lemma sample_large_ok : @sendable LE (ref_checksums LE) sample_large.
Proof.
  split.
  - split; try done. by exists 0%nat; split; [|lia].
  - right. split; [done|right; vm_compute; lia].
  - done.
  - vm_compute. discriminate.
  - by intros _.
  - intros _. right. right. split; [done|right]. vm_compute. split; [lia|discriminate].
Qed.

Lemma ip4_fragment_refines_witness :
  (@ip4_fragment LE (ref_checksums LE) false 32 (fun n => replicate n 0) (encode4 sample_large [0; 0]) 1520
    (replicate 14 0) idle
   = @send_all 32 (@delivery6 LE (ref_checksums LE) false (fun n => replicate n 0) (replicate 14 0)
      <$> all_fragments sample_large (@sent_data LE (ref_checksums LE) sample_large)) idle) /\
  length (all_fragments sample_large (@sent_data LE (ref_checksums LE) sample_large)) = 2%nat.
Proof.
  split; [|vm_compute; reflexivity].
  refine (proj1 (ip4_fragment_refines LE (ref_checksums LE) (ref_checksum_laws LE) false 32
    (fun n => replicate n 0) (fun n => length_replicate n 0) sample_large [0; 0] (replicate 14 0) idle
    sample_large_ok eq_refl _)).
  vm_compute. reflexivity.
Defined.

Lemma siit_xmit_ipv4_witness :
  exists k' j, @siit_xmit LE (ref_checksums LE) false 32 14 (fun n => replicate n 0)
      (Some (replicate 14 0 ++ encode4 sample_large [0; 0], ETH_P_IP)) idle = Ret 0 k' /\
    received k' = take j (@deliveries LE (ref_checksums LE) false (fun n => replicate n 0)
      (replicate 14 0) sample_large) /\
    (j = 2%nat \/ false ∈ []) /\ live k' = 0.
Proof.
  destruct (siit_xmit_ipv4 LE (ref_checksums LE) false 32 (fun n => replicate n 0) ltac:(lia)
    (fun n => length_replicate n 0) sample_large [0; 0] (replicate 14 0) idle sample_large_ok
    eq_refl) as [(k' & j & Hrun & Hrec & Hj & Hlive & _) _].
  exists k', j. split; [exact Hrun|split; [exact Hrec|split; [|exact Hlive]]].
  destruct Hj as [Hj|Hj]; [left; exact Hj|right; exact Hj].
Defined.

Lemma siit_xmit_ipv6_leak_witness :
  exists k', @siit_xmit BE (ref_checksums BE) false 32 14 (fun n => replicate n 0)
      (Some (replicate 14 0 ++ encode6 sample6, ETH_P_IPV6)) idle = Ret 0 k' /\
    length (received k') = 1%nat /\ live k' = 1.
Proof.
  destruct (siit_xmit_ipv6_leak BE (ref_checksums BE) false 32 (fun n => replicate n 0) sample6
    (replicate 14 0) idle sample6_wf ltac:(discriminate) ltac:(vm_compute; lia))
    as (k' & Hrun & Hrec & Hlive).
  exists k'. split; [exact Hrun|split; [|exact Hlive]]. rewrite Hrec. vm_compute. reflexivity.
Defined.
