(* ===== verification/SiitBounds.v ===== *)
(** * SIIT: the buffers are large enough

    For which packets the translation to IPv6 stays inside the buffer [siit_xmit]
    allocates, and a packet for which it does not. *)

From Stdlib Require Import ZArith Lia.
From stdpp Require Import base list numbers option.
From S2P Require Import Prelude Bits Packet PacketFacts Siit Siit64 SiitXmit SiitFacts.

(** ** Packets that are long enough for their headers *)

(** At least 20 bytes of header, which fit into the [len] bytes; [n] is what is
    behind it. UDP needs its own header, unless this is a later fragment. *)
Definition header_fits (h : iphdr) (len : Z) : bool :=
  let n := len - hdr_len h in
  (5 <=? ihl h) && (0 <=? n) &&
  (negb (protocol h =? IPPROTO_UDP) || negb (Z.land (frag_off h) IP_OFFSET =? 0) || (8 <=? n)).

(** A packet of which [len] bytes are included in an error. *)
Definition included_fits (src : list Z) (len : Z) : bool :=
  match read_iphdr src with
  | Some h => header_fits h len && (len <=? Z.of_nat (length src))
  | None => false
  end.

Definition is_echo (type : Z) : bool := (type =? ICMP_ECHO) || (type =? ICMP_ECHOREPLY).

(** An ICMP message that is not rejected for being a fragment has its own header,
    and an error includes a packet that fits. *)
Definition icmp_fits (src : list Z) (h : iphdr) (len : Z) : bool :=
  negb (Z.land (frag_off h) IP_OFFSET =? 0) || negb (Z.land (frag_off h) IP_MF =? 0) ||
  ((8 <=? len - hdr_len h) &&
   let icmp := drop (Z.to_nat (hdr_len h)) src in
   (is_echo (icmp !!! 0%nat) || included_fits (drop 8 icmp) (len - hdr_len h - 8))).

Definition packet_fits (src : list Z) : bool :=
  let len := Z.of_nat (length src) in
  match read_iphdr src with
  | Some h => (tot_len h =? len) && (len + 8 <? 65536) && header_fits h len &&
              (negb (protocol h =? IPPROTO_ICMP) || icmp_fits src h len)
  | None => false
  end.

(** Does the packet get a fragment header? *)
Definition has_fragment (h : iphdr) (include_flag : bool) : bool :=
  negb ((frag_off h =? IP_DF) || include_flag).

(** ** The steps *)

Section Bounds.
Context (e : endian) `{Checksums} (tos_ignore_flag : bool).

Lemma peek8_some i l : (i < length l)%nat -> exists b, peek8 i l = Some b /\ b = l !!! i.
Proof.
  intros Hi. unfold peek8. destruct (lookup_lt_is_Some_2 l i Hi) as [b Hb].
  exists b. split; [done|]. by rewrite (list_lookup_total_correct l i b).
Qed.

Lemma within_peek8 n i l : (i < length l)%nat -> within n (defined (peek8 i l)) (fun b => b = l !!! i).
Proof. intros Hi. apply within_defined. by apply peek8_some. Qed.

Lemma within_peek16 n i l :
  (i + 2 <= length l)%nat -> within n (defined (peek16 i l)) (fun _ => True).
Proof.
  intros Hi. apply within_defined. unfold peek16, peek.
  destruct (Nat.leb_spec (i + 2) (length l)); [|lia]. cbn. by eexists.
Qed.

(** The two headers. *)
Lemma within_base_header n h include_flag :
  (40 <= n)%nat -> length (saddr h) = 4%nat -> length (daddr h) = 4%nat ->
  within n (base_header tos_ignore_flag h include_flag) (fun _ => True).
Proof.
  intros Hn Hs Hd.
  assert (forall p a, length a = 4%nat -> length (v6_addr p a) = 16%nat) as Hl
    by (intros p a Ha; unfold v6_addr; rewrite !length_app, be_bytes_length, Ha; done).
  unfold base_header, traffic_class.
  repeat match goal with
    | |- within _ (if ?b then _ else _) _ => destruct b
    | |- within _ (_ ≫= _) _ => eapply within_bind; [|intros ? _; cbn beta]
    | |- within _ (set_low _ _) _ => apply within_set_low; lia
    | |- within _ (set_high _ _) _ => apply within_set_high; lia
    | |- within _ (poke _ _) _ => apply within_poke; rewrite ?Hl by done; cbn [length]; lia
    end.
Qed.

Lemma within_fragment_header n h include_flag :
  (front_length (has_fragment h include_flag) <= n)%nat ->
  within n (fragment_header h include_flag) (fun r =>
    r = if has_fragment h include_flag then (true, u16 (tot_len h + 8), NEXTHDR_FRAGMENT)
        else (false, tot_len h, nexthdr_of h)).
Proof.
  unfold fragment_header, has_fragment. intros Hn.
  destruct ((frag_off h =? IP_DF) || include_flag); cbn [negb front_length] in *.
  - by apply within_ret.
  - repeat (eapply within_bind; [within_step|intros ? _; cbn beta]). by apply within_ret.
Qed.

(** ** ICMP *)

Lemma within_dest_unreach n icmp code :
  (8 <= n)%nat -> (8 <= length icmp)%nat -> within n (dest_unreach icmp code) (fun _ => True).
Proof.
  intros Hn Hi. unfold dest_unreach.
  repeat match goal with
  | |- within _ (if ?b then _ else _) _ => destruct b
  | |- within _ (defined (peek16 _ _)) _ => apply within_peek16; lia
  | |- within _ (_ ≫= _) _ => eapply within_bind; [|intros ? _; cbn beta]
  | |- within _ return_error _ => apply within_error
  | |- within _ _ _ => apply within_poke; rewrite ?be_bytes_length; cbn [length]; lia
  end.
Qed.

(** The message, of [n] bytes, in a buffer of at least as many. *)
Lemma within_icmp_message m icmp n :
  (8 <= n)%nat -> (n <= length icmp)%nat -> (n <= m)%nat ->
  within m (icmp_message icmp (Z.of_nat n)) (fun err => err = negb (is_echo (icmp !!! 0%nat))).
Proof.
  intros H8 Hi Hm. unfold icmp_message, is_echo.
  eapply within_bind; [apply within_peek8; lia|]. intros type ->. cbn beta.
  set (type := icmp !!! 0%nat).
  assert (within m (defined (peek8 1 icmp)) (fun _ => True)) as H1
    by (eapply within_true, within_peek8; lia).
  repeat match goal with
  | |- within _ (if ?a =? ?b then _ else _) _ => destruct (Z.eqb_spec a b) as [->|?]
  | |- within _ (if ?b then _ else _) _ => destruct b
  | |- within _ (defined (peek8 1 _)) _ => exact H1
  | |- within _ (defined (peek16 _ _)) _ => apply within_peek16; lia
  | |- within _ (_ ≫= _) _ => eapply within_bind; [|intros ? _; cbn beta]
  | |- within _ return_error _ => apply within_error
  | |- within _ (mret _) _ => apply within_ret
  | |- within _ (dest_unreach _ _) _ => apply within_dest_unreach; lia
  | |- within _ (copy _ _ _) _ => apply within_copy; rewrite ?length_drop; lia
  | |- within _ _ _ => apply within_poke; rewrite ?be_bytes_length; cbn [length]; lia
  end.
  all: done.
Qed.

Lemma within_store_csum6 m off n proto sum :
  0 <= n -> (off + Z.to_nat n <= m)%nat -> (sum + 2 <= m)%nat -> (40 <= m)%nat ->
  within m (store_csum6 e off n proto sum) (fun _ => True).
Proof.
  intros H0 Hn Hs Hm. unfold store_csum6.
  repeat match goal with
  | |- within _ (_ ≫= _) _ => eapply within_bind; [|intros ? _; cbn beta]
  | |- within _ (get_int _ _) _ => apply within_get_int; lia
  | |- within _ (get _ _) _ => eapply within_true, within_get; lia
  | |- within _ _ _ => apply within_poke; rewrite ?store_length; cbn [length]; lia
  end.
Qed.

(** ** The payloads *)

Lemma read_lengths src h :
  read_iphdr src = Some h -> length (saddr h) = 4%nat /\ length (daddr h) = 4%nat.
Proof.
  unfold read_iphdr, peek. destruct (Nat.leb_spec (0 + 20) (length src)); [|done].
  cbn [mbind option_bind]. intros [= <-]. cbn [saddr daddr].
  assert (length (slice 0 20 src) = 20%nat) by (apply length_slice; lia).
  rewrite !length_slice by lia. done.
Qed.

(** The hypotheses about the part behind the header. *)
Section Payload.
Context (included : list Z -> Z -> M Z) (src : list Z) (h : iphdr) (include_flag : bool) (len n : nat).
Context (Hn : Z.of_nat n = Z.of_nat len - hdr_len h) (Hlen : (len <= length src)%nat).
Context (Hhdr : 20 <= hdr_len h).

Let k := front_length (has_fragment h include_flag).
Let plen := (if has_fragment h include_flag then u16 (tot_len h + 8) else tot_len h) - hdr_len h.

Context (m : nat) (Hm : (k + n <= m)%nat).
Context (Htot : include_flag = false -> tot_len h = Z.of_nat len /\ tot_len h + 8 < 65536).

Lemma behind_header : (n <= length (drop (Z.to_nat (hdr_len h)) src))%nat.
Proof. rewrite length_drop. lia. Qed.

Lemma room : (40 <= k)%nat.
Proof. unfold k. destruct (has_fragment h include_flag); cbn; lia. Qed.

Lemma plen_value :
  include_flag = false -> plen = Z.of_nat n + (if has_fragment h include_flag then 8 else 0).
Proof.
  intros Hi. destruct (Htot Hi) as [Ht Hb]. unfold plen. destruct (has_fragment h include_flag).
  - rewrite wrap_small by (change (2 ^ 16) with 65536; lia). lia.
  - lia.
Qed.

Lemma within_transport :
  within m (copy k (drop (Z.to_nat (hdr_len h)) src) (Z.of_nat len - hdr_len h)) (fun _ => True).
Proof. rewrite <- Hn. pose proof behind_header. apply within_copy; lia. Qed.

Lemma within_udp_payload :
  (Z.land (frag_off h) IP_OFFSET = 0 -> (8 <= n)%nat) ->
  within m (udp_payload e src (Z.of_nat len) h include_flag (has_fragment h include_flag) plen)
    (fun _ => True).
Proof.
  intros H8. unfold udp_payload. pose proof behind_header. pose proof room. fold (front_length (has_fragment h include_flag)). fold k.
  eapply (within_bind _ _ _ (fun csum => csum = true -> (8 <= n)%nat)).
  - destruct (Z.eqb_spec (Z.land (frag_off h) IP_OFFSET) 0) as [Ho|Ho]; [|by apply within_ret].
    eapply within_bind; [apply within_peek16; specialize (H8 Ho); lia|]. intros check _. cbn beta.
    destruct (negb _); [destruct (check =? 0); [apply within_error|by apply within_ret]|].
    apply within_ret. auto.
  - intros csum Hcsum. eapply within_bind; [apply within_transport|]. intros _ _. cbn beta.
    destruct (csum && negb include_flag) eqn:Hf; [|by apply within_ret].
    apply andb_true_iff in Hf as [-> Hi%negb_true_iff].
    rewrite plen_value by done. specialize (Hcsum eq_refl).
    apply within_store_csum6; unfold IP6_FRAGMENT_SIZE; destruct (has_fragment _ _); lia.
Qed.

Lemma within_icmp_payload :
  icmp_fits src h (Z.of_nat len) = true ->
  let icmp := drop (Z.to_nat (hdr_len h)) src in
  (is_echo (icmp !!! 0%nat) = false -> (k + n + 20 <= m)%nat /\
   forall m', (n + 12 <= m')%nat -> included_fits (drop 8 icmp) (Z.of_nat n - 8) = true ->
   within m' (included (drop 8 icmp) (Z.of_nat n - 8)) (fun _ => True)) ->
  within m (icmp_payload e included src (Z.of_nat len) h include_flag (has_fragment h include_flag) plen)
    (fun _ => True).
Proof.
  intros Hfits icmp Hinc. unfold icmp_payload, icmp_fits in *.
  destruct (negb (Z.land (frag_off h) IP_OFFSET =? 0) || negb (Z.land (frag_off h) IP_MF =? 0));
    [apply within_error|].
  cbn [orb] in Hfits.
  assert (include_flag = true \/ include_flag = false) as [Hi|Hi] by (case include_flag; auto);
    match goal with |- within _ (if include_flag then ?a else ?b) _ =>
      first [replace (if include_flag then a else b) with a by by rewrite Hi
            |replace (if include_flag then a else b) with b by by rewrite Hi]
    end; [apply within_error|].
  fold (front_length (has_fragment h include_flag)). fold k icmp.
  apply andb_true_iff in Hfits as [H8%Z.leb_le Hfits]. rewrite <- Hn in Hfits |- *. fold icmp in Hfits.
  pose proof behind_header as Hb. fold icmp in Hb. pose proof room. destruct (Htot Hi) as [Ht _].
  eapply within_bind.
  - apply within_offset; [lia|]. eapply within_icmp_message; lia.
  - intros err ->. cbn beta. destruct (is_echo (icmp !!! 0%nat)) eqn:He; cbn [negb].
    + eapply within_bind; [apply (within_ret _ _ (fun l => l = Z.of_nat n)); rewrite Ht; lia|].
      intros l ->. apply within_store_csum6; lia.
    + destruct (Hinc eq_refl) as [Hroom Hwithin]. cbn [orb] in Hfits.
      eapply (within_bind _ _ _ (fun l => l = Z.of_nat n + 20)).
      * eapply within_bind; [|intros ? _; cbn beta; eapply within_bind; [|intros ? _; cbn beta]].
        -- apply within_offset; [lia|]. apply Hwithin; [lia|done].
        -- apply within_poke. rewrite be_bytes_length. lia.
        -- apply within_ret. rewrite Ht. lia.
      * intros l ->. apply within_store_csum6; lia.
Qed.

(** The whole translation, given the payload of ICMP. *)
Lemma within_body :
  read_iphdr src = Some h -> header_fits h (Z.of_nat len) = true ->
  (protocol h = IPPROTO_ICMP ->
   within m (icmp_payload e included src (Z.of_nat len) h include_flag (has_fragment h include_flag) plen)
     (fun _ => True)) ->
  within m (ip4_ip6_body e tos_ignore_flag included src (Z.of_nat len) include_flag) (fun _ => True).
Proof.
  intros Hread Hfits Hicmp. pose proof room. destruct (read_lengths src h Hread) as [Hs Hd].
  unfold ip4_ip6_body. eapply (within_bind _ _ _ (fun h' => h' = h)).
  { apply within_defined. eauto. }
  intros h' ->. eapply within_bind; [apply within_fragment_header; fold k; lia|].
  intros r Hr. cbn beta in Hr.
  set (fr := has_fragment h include_flag) in *.
  assert (exists nh, r = (fr, (if fr then u16 (tot_len h + 8) else tot_len h), nh)) as [nh ->].
  { rewrite Hr. destruct fr; by eexists. }
  clear Hr. cbn beta iota.
  eapply within_bind; [apply within_base_header; done || lia|]. intros _ _. cbn beta.
  eapply within_bind; [apply within_poke; rewrite be_bytes_length; lia|]. intros _ _. cbn beta.
  eapply within_bind; [apply within_poke; cbn; lia|]. intros _ _. cbn beta. fold plen.
  eapply within_bind; [|intros _ _; by apply within_ret].
  destruct (Z.eqb_spec (protocol h) IPPROTO_ICMP) as [Hi|_]; [by apply Hicmp|].
  destruct (Z.eqb_spec (protocol h) IPPROTO_TCP) as [Ht|_]; [apply within_transport|].
  destruct (Z.eqb_spec (protocol h) IPPROTO_UDP) as [Hu|_]; [|apply within_error].
  apply within_udp_payload. intros Ho. unfold header_fits in Hfits. rewrite Hu, Ho in Hfits.
  cbn [negb orb Z.eqb Pos.eqb IPPROTO_UDP] in Hfits.
  rewrite !andb_true_iff in Hfits. destruct Hfits as [_ H8%Z.leb_le]. lia.
Qed.
End Payload.

(** The packet in an error. *)
Lemma within_included src n m :
  (n + 20 <= m)%nat -> included_fits src (Z.of_nat n) = true ->
  within m (ip4_ip6_included e tos_ignore_flag src (Z.of_nat n)) (fun _ => True).
Proof.
  intros Hm. unfold included_fits. destruct (read_iphdr src) as [h|] eqn:Hread; [|done].
  rewrite andb_true_iff. intros [Hfits Hlen%Z.leb_le].
  pose proof Hfits as Hf. unfold header_fits in Hf. rewrite !andb_true_iff in Hf.
  destruct Hf as [[H5%Z.leb_le H0%Z.leb_le] _]. assert (20 <= hdr_len h) by (unfold hdr_len; lia).
  apply (within_body (fun _ _ => undef) src h true n (Z.to_nat (Z.of_nat n - hdr_len h))); try done; try lia.
  - unfold has_fragment. rewrite orb_true_r. cbn [negb front_length]. lia.
  - intros _. unfold icmp_payload. destruct (_ || _); apply within_error.
Qed.

(** The type of an ICMP message. *)
Definition icmp_type (src : list Z) (h : iphdr) : Z := drop (Z.to_nat (hdr_len h)) src !!! 0%nat.

Lemma delta_value src h delta :
  skb_delta src h = Some delta ->
  delta = Z.of_nat (front_length (negb (frag_off h =? IP_DF))) - 20
          + (if (protocol h =? IPPROTO_ICMP) && negb (is_echo (icmp_type src h)) then 20 else 0).
Proof.
  unfold skb_delta, icmp_type. intros Hd.
  assert (Z.of_nat (front_length (negb (frag_off h =? IP_DF)))
    = 20 + if frag_off h =? IP_DF then IP4_IP6_HDR_DIFF else IP4_IP6_HDR_DIFF + IP6_FRAGMENT_SIZE) as ->
    by by destruct (frag_off h =? IP_DF).
  destruct (protocol h =? IPPROTO_ICMP); [|injection Hd as <-; cbn [andb]; lia].
  unfold peek8 in Hd. destruct (src !! _) as [b|] eqn:Hb; [|done]. cbn [mbind option_bind] in Hd.
  assert (drop (Z.to_nat (hdr_len h)) src !!! 0%nat = b) as ->.
  { apply list_lookup_total_correct. by rewrite lookup_drop, Nat.add_0_r. }
  injection Hd as <-. unfold is_echo. cbn [andb].
  destruct (_ || _); cbn [negb]; unfold IP4_IP6_HDR_DIFF; lia.
Qed.

Lemma within_translation src m h delta :
  packet_fits src = true -> read_iphdr src = Some h -> skb_delta src h = Some delta ->
  m = Z.to_nat (Z.of_nat (length src) + delta) ->
  within m (ip4_ip6 e tos_ignore_flag src (Z.of_nat (length src)) false) (fun _ => True).
Proof.
  unfold packet_fits. intros Hp Hread Hdelta Hmv. rewrite Hread, !andb_true_iff in Hp.
  destruct Hp as [[[Ht%Z.eqb_eq H8%Z.ltb_lt] Hfits] Hicmp].
  pose proof Hfits as Hf. unfold header_fits in Hf. rewrite !andb_true_iff in Hf.
  destruct Hf as [[H5%Z.leb_le H0%Z.leb_le] _].
  assert (20 <= hdr_len h) as H0' by (unfold hdr_len; lia).
  set (n := Z.to_nat (Z.of_nat (length src) - hdr_len h)).
  assert (Z.of_nat n = Z.of_nat (length src) - hdr_len h) as Hn by (unfold n; lia).
  assert (has_fragment h false = negb (frag_off h =? IP_DF)) as Hfr
    by (unfold has_fragment; by rewrite orb_false_r).
  pose proof (delta_value src h delta Hdelta) as Hd. rewrite <- Hfr in Hd.
  set (k := front_length (has_fragment h false)) in *.
  assert (k + n <= m)%nat as Hm by (destruct (_ && _); lia).
  assert (false = false -> tot_len h = Z.of_nat (length src) /\ tot_len h + 8 < 65536) as Htot
    by (intros _; lia).
  unfold ip4_ip6.
  refine (within_body (ip4_ip6_included e tos_ignore_flag) src h false (length src) n Hn
    (le_n _) H0' m Hm Htot Hread Hfits _).
  intros Hi. rewrite Hi in Hicmp. cbn [negb orb Z.eqb Pos.eqb IPPROTO_ICMP] in Hicmp.
  refine (within_icmp_payload (ip4_ip6_included e tos_ignore_flag) src h false (length src) n Hn
    (le_n _) H0' m Hm Htot Hicmp _).
  intros He. rewrite Hi, Z.eqb_refl in Hd. unfold icmp_type in Hd. rewrite He in Hd.
  cbn [negb andb] in Hd. split; [fold k; lia|]. intros m' Hm' Hinc.
  assert (8 <= Z.of_nat n) as Hn8.
  { clear - Hinc. unfold included_fits in Hinc. destruct (read_iphdr _) as [h'|]; [|done].
    unfold header_fits in Hinc. rewrite !andb_true_iff in Hinc.
    destruct Hinc as [[[H5%Z.leb_le H0%Z.leb_le] _] _]. unfold hdr_len in H0. lia. }
  replace (Z.of_nat n - 8) with (Z.of_nat (n - 8)) in * by lia.
  apply within_included; [lia|done].
Qed.
End Bounds.

(** C40. The buffer [siit_xmit] allocates for an IPv4 packet is large enough: for a
    packet whose headers are as long as they say and fit into it (and that includes
    one that does, if it is an ICMP error), whatever its contents, options,
    fragmentation, protocol, type and code, the translation ends, with the packet or
    with an error, and reads and writes only inside its two buffers. *)
Theorem ip4_ip6_in_bounds (e : endian) (Hck : Checksums) (tos_ignore : bool) (src : list Z)
    (h : iphdr) (delta : Z) (m : list Z)
    (Hfits : packet_fits src = true) (Hread : read_iphdr src = Some h)
    (Hdelta : skb_delta src h = Some delta)
    (Hm : Z.of_nat (length m) = Z.of_nat (length src) + delta) :
  match ip4_ip6 e tos_ignore src (Z.of_nat (length src)) false m with
  | Ret _ m' => length m' = length m
  | Exit _ m' => length m' = length m
  | Undef => False
  end.
Proof.
  pose proof (within_translation e tos_ignore src (length m) h delta Hfits Hread Hdelta
    ltac:(lia) m eq_refl) as Hw.
  by destruct (ip4_ip6 _ _ _ _ _ m) as [? ?|? ?|]; [destruct Hw|..].
Qed.

(** An ICMP error that includes a UDP packet with options: such a packet fits, though
    what comes of it is of no use. *)
Definition sample_options : list Z :=
  [69; 0; 0; 60; 0; 7; 64; 0; 64; 1; 0; 0; 10; 0; 0; 1; 10; 0; 0; 2] ++ [3; 3; 0; 0; 0; 0; 0; 0] ++
  [70; 0; 0; 99; 0; 7; 64; 0; 64; 17; 0; 0; 10; 0; 0; 2; 10; 0; 0; 1; 1; 1; 1; 1] ++
  [0; 80; 0; 81; 0; 75; 5; 5].

Lemma ip4_ip6_in_bounds_witness :
  packet_fits sample_options = true /\
  match @ip4_ip6 LE (ref_checksums LE) true sample_options 60 false (replicate 100 0) with
  | Ret _ m' => length m' = 100%nat
  | Exit _ m' => length m' = 100%nat
  | Undef => False
  end.
Proof.
  split; [reflexivity|].
  refine (ip4_ip6_in_bounds LE (ref_checksums LE) true sample_options
    (IpHdr 5 0 60 7 IP_DF 64 1 [10; 0; 0; 1] [10; 0; 0; 2]) 40 (replicate 100 0) _ _ _ _); reflexivity.
Defined.

(** A header length of 16 bytes: the payload is copied past the end of the buffer. *)
Example short_header_overruns :
  let src := [68; 0; 0; 24; 0; 7; 64; 0; 64; 6; 0; 0; 10; 0; 0; 1; 10; 0; 0; 2; 1; 2; 3; 4] in
  skb_delta src (IpHdr 4 0 24 7 IP_DF 64 6 [10; 0; 0; 1] [10; 0; 0; 2]) = Some 20 /\
  @ip4_ip6 LE (ref_checksums LE) true src 24 false (replicate 44 0) = Undef.
Proof. split; vm_compute; reflexivity. Qed.
