(* ===== verification/Mapcalc.v ===== *)
(** * The MAP address calculator

    Models [package/network/ipv6/map/src/mapcalc.c], which computes the addresses
    and port sets of MAP rules (RFC 7597). What [ubus] knows of the interfaces is an
    argument, parsed as libubox delivers it; an object is the list of its bytes. *)

From Stdlib Require Import ZArith Lia String Ascii.
From stdpp Require Import base list strings numbers option pretty.
From S2P Require Import Prelude CString.

(** ** Bits in memory *)

(** [n] bytes from [off], if the object is long enough. *)
Definition bytes_at (off n : nat) (l : list Z) : option (list Z) :=
  if (off + n <=? length l)%nat then Some (slice off n l) else None.

(** [memcmp]; the standard fixes no more than the sign of the result. *)
Fixpoint memcmp (a b : list Z) : Z :=
  match a, b with
  | x :: a, y :: b => if x =? y then memcmp a b else if x <? y then -1 else 1
  | _, _ => 0
  end.

(** A [size_t] that came from a negative [int] is longer than any object. *)
Definition bmemcmp (a b : list Z) (bits : Z) : option Z :=
  if bits <? 0 then None
  else
    let bytes := Z.to_nat (bits / 8) in
    let bits := bits mod 8 in
    x ← bytes_at 0 bytes a;
    y ← bytes_at 0 bytes b;
    let res := memcmp x y in
    if (res =? 0) && (0 <? bits) then
      x ← a !! bytes; y ← b !! bytes;
      Some (Z.shiftr x (8 - bits) - Z.shiftr y (8 - bits))
    else Some res.

(** The object [a] after the call. *)
Definition bmemcpy (a b : list Z) (bits : Z) : option (list Z) :=
  if bits <? 0 then None
  else
    let bytes := Z.to_nat (bits / 8) in
    let bits := bits mod 8 in
    _ ← bytes_at 0 bytes a;
    src ← bytes_at 0 bytes b;
    let a := write 0 src a in
    if 0 <? bits then
      let mask := u8 (Z.shiftl 1 (8 - bits) - 1) in
      x ← a !! bytes; y ← b !! bytes;
      Some (<[bytes := Z.lor (Z.land x mask) (Z.land (Z.lnot mask) y)]> a)
    else Some a.

(** [be64_to_cpu] and [cpu_to_be64] with the memory they act on: the same on every
    host. *)
Definition bmemcpys64 (a b : list Z) (frombits nbits : Z) : option (list Z) :=
  if (frombits <? 0) || (nbits <? 0) then None
  else
    let frombyte := Z.to_nat (frombits / 8) in
    let tobyte := Z.to_nat ((frombits + nbits) / 8) in
    let n := (tobyte - frombyte + 1)%nat in
    src ← bytes_at frombyte n b;
    if (8 <? n)%nat then None
    else
      let buf := write 0 src (replicate 8 0) in
      bmemcpy a (be_bytes 8 (u64 (Z.shiftl (be_val buf) (frombits mod 8)))) nbits.

(** ** What ubus knows *)

(** An element of ["ipv6-prefix"] or ["ipv6-address"]. *)
Record prefix_attr := PrefixAttr { address_text : option string; mask_value : option Z }.

(** An interface; [None] for a list that is missing or not an array. *)
Record iface_attr := IfaceAttr {
  interface : option string;
  ipv6_prefix : option (list prefix_attr);
  ipv6_address : option (list prefix_attr)
}.

Section Host.
(** [unsigned long]; does [strtoul] set [errno] when there is no number (musl does,
    glibc does not); what a shift of an [uint32_t] by 32, which the standard leaves
    undefined, gives on this machine. *)
Context (ulong : Z) (einval : bool) (shr32 : Z -> Z) `{Inet}.

(** One round of [match_prefix]. *)
Definition match_one (ipv6prefix : list Z) (prefix6len : Z) (lw4o6 : bool)
    (st : Z * list Z) (d : prefix_attr) : option (Z * list Z) :=
  let '(pdlen, pd) := st in
  match address_text d, mask_value d with
  | Some text, Some m =>
      let prefix := default (replicate 16 0) (inet_pton6 text) in
      let mask := if lw4o6 && (s32 m =? 128) then 64 else s32 m in
      first ← (if (pdlen <? mask) && (prefix6len <=? mask)
               then (fun r => r =? 0) <$> bmemcmp prefix ipv6prefix prefix6len
               else Some false);
      if first : bool then pd ← bmemcpy pd prefix mask; Some (mask, pd)
      else
        second ← (if lw4o6 && (pdlen <? prefix6len) && (mask <? prefix6len)
                  then (fun r => r =? 0) <$> bmemcmp prefix ipv6prefix mask
                  else Some false);
        if second : bool then pd ← bmemcpy pd ipv6prefix prefix6len; Some (prefix6len, pd)
        else Some (pdlen, pd)
  | _, _ => Some (pdlen, pd)
  end.

Fixpoint match_loop (ipv6prefix : list Z) (prefix6len : Z) (lw4o6 : bool) (cur : list prefix_attr)
    (st : Z * list Z) : option (Z * list Z) :=
  match cur with
  | [] => Some st
  | d :: cur =>
      st ← match_one ipv6prefix prefix6len lw4o6 st d;
      match_loop ipv6prefix prefix6len lw4o6 cur st
  end.

(** The new [*pdlen] and [*pd]. *)
Definition match_prefix (st : Z * list Z) (cur : option (list prefix_attr)) (ipv6prefix : list Z)
    (prefix6len : Z) (lw4o6 : bool) : option (Z * list Z) :=
  match cur with
  | None => Some st
  | Some cur => match_loop ipv6prefix prefix6len lw4o6 cur st
  end.

(** ** Options *)

Inductive opt :=
  OPT_TYPE | OPT_FMR | OPT_EALEN | OPT_PREFIX4LEN | OPT_PREFIX6LEN | OPT_IPV6PREFIX
| OPT_IPV4PREFIX | OPT_OFFSET | OPT_PSIDLEN | OPT_PSID | OPT_BR | OPT_DMR | OPT_PD | OPT_PDLEN.

Definition token : list (string * opt) :=
  [("type", OPT_TYPE); ("fmr", OPT_FMR); ("ealen", OPT_EALEN); ("prefix4len", OPT_PREFIX4LEN);
   ("prefix6len", OPT_PREFIX6LEN); ("ipv6prefix", OPT_IPV6PREFIX); ("ipv4prefix", OPT_IPV4PREFIX);
   ("offset", OPT_OFFSET); ("psidlen", OPT_PSIDLEN); ("psid", OPT_PSID); ("br", OPT_BR);
   ("dmr", OPT_DMR); ("pd", OPT_PD); ("pdlen", OPT_PDLEN)]%string.

Definition token_name (o : opt) : string :=
  match o with
  | OPT_TYPE => "type" | OPT_FMR => "fmr" | OPT_EALEN => "ealen" | OPT_PREFIX4LEN => "prefix4len"
  | OPT_PREFIX6LEN => "prefix6len" | OPT_IPV6PREFIX => "ipv6prefix"
  | OPT_IPV4PREFIX => "ipv4prefix" | OPT_OFFSET => "offset" | OPT_PSIDLEN => "psidlen"
  | OPT_PSID => "psid" | OPT_BR => "br" | OPT_DMR => "dmr" | OPT_PD => "pd" | OPT_PDLEN => "pdlen"
  end%string.

(** [getsubopt]: the option, or [None] for -1, its value and the rest of the rule. For an
    unknown option the value is all of it, as in glibc (musl gives a null pointer). *)
Definition getsubopt (rule : string) : option opt * option string * string :=
  let '(sub, rest) := default (rule, ""%string) (cut "," rule) in
  let '(name, value) := match cut "=" sub with
                        | Some (n, v) => (n, Some v)
                        | None => (sub, None)
                        end in
  match list_find (fun t => t.1 = name) token with
  | Some (_, (_, o)) => (Some o, value, rest)
  | None => (None, Some sub, rest)
  end.

(** The variables of one rule. *)
Record rule := Rule {
  lw4o6 : bool;
  fmr : bool;
  ealen : Z;
  prefix4len : Z;
  prefix6len : Z;
  pdlen : Z;
  ipv4prefix : list Z;
  ipv6prefix : list Z;
  pd : list Z;
  offset : Z;
  psidlen : Z;
  psid : Z;
  dmr : option string;
  br : option string
}.

Definition no_rule : rule :=
  Rule false false (-1) 32 (-1) (-1) (replicate 4 0) (replicate 16 0) (replicate 16 0) (-1) (-1) (-1)
    None None.

(** [intval = strtoul(value, NULL, 0)], and whether [errno] is still 0. *)
Definition intval (value : string) : Z * bool :=
  match strto_parse value 0 with
  | None => (0, negb einval)
  | Some (neg, v, _) =>
      if 2 ^ ulong <=? v then (s32 (2 ^ ulong - 1), false)
      else (s32 (if neg : bool then (- v) mod 2 ^ ulong else v), true)
  end.

(** The value of a numeric option, if it is at most [max]. The comparison is signed. *)
Definition number_option (value : option string) (max : Z) : option (option Z) :=
  v ← value;
  let '(i, ok) := intval v in
  Some (if (i <=? max) && ok then Some i else None).

(** The rule after an option; [Some None] when it is skipped, [None] when a missing
    value is dereferenced. *)
Definition set_option (r : rule) (o : opt) (value : option string) : option (option rule) :=
  let num max (f : Z -> rule) : option (option rule) :=
    i ← number_option value max; Some (option_map f i) in
  let addr (pton : string -> option (list Z)) (f : list Z -> rule) : option (option rule) :=
    v ← value; Some (option_map f (pton v)) in
  let '(Rule lw fm ea p4 p6 pl a4 a6 p off plen ps dm b) := r in
  match o with
  | OPT_TYPE => Some (Some (Rule (bool_decide (value = Some "lw4o6"%string)) fm ea p4 p6 pl a4 a6 p off plen ps dm b))
  | OPT_FMR => Some (Some (Rule lw true ea p4 p6 pl a4 a6 p off plen ps dm b))
  | OPT_EALEN => num 48 (fun i => Rule lw fm i p4 p6 pl a4 a6 p off plen ps dm b)
  | OPT_PREFIX4LEN => num 32 (fun i => Rule lw fm ea i p6 pl a4 a6 p off plen ps dm b)
  | OPT_PREFIX6LEN => num 128 (fun i => Rule lw fm ea p4 i pl a4 a6 p off plen ps dm b)
  | OPT_IPV4PREFIX => addr inet_pton4 (fun a => Rule lw fm ea p4 p6 pl a a6 p off plen ps dm b)
  | OPT_IPV6PREFIX => addr inet_pton6 (fun a => Rule lw fm ea p4 p6 pl a4 a p off plen ps dm b)
  | OPT_PD => addr inet_pton6 (fun a => Rule lw fm ea p4 p6 pl a4 a6 a off plen ps dm b)
  | OPT_OFFSET => num 16 (fun i => Rule lw fm ea p4 p6 pl a4 a6 p i plen ps dm b)
  | OPT_PSIDLEN => num 16 (fun i => Rule lw fm ea p4 p6 pl a4 a6 p off i ps dm b)
  | OPT_PDLEN => num 128 (fun i => Rule lw fm ea p4 p6 i a4 a6 p off plen ps dm b)
  | OPT_PSID => num 65535 (fun i => Rule lw fm ea p4 p6 pl a4 a6 p off plen i dm b)
  | OPT_DMR => Some (Some (Rule lw fm ea p4 p6 pl a4 a6 p off plen ps value b))
  | OPT_BR => Some (Some (Rule lw fm ea p4 p6 pl a4 a6 p off plen ps dm value))
  end.

(** ** Output *)

Record out := Out { stdout : string; stderr : string }.

Definition printf (s : string) : prog out unit := modify (fun w => Out (stdout w +:+ s) (stderr w)).
Definition eprintf (s : string) : prog out unit := modify (fun w => Out (stdout w) (stderr w +:+ s)).

Definition print_d (z : Z) : string := if z <? 0 then "-" +:+ print_u (- z) else print_u z.

(** ** Parsing *)

Definition skipped (o : option opt) (value : option string) : prog out unit :=
  match o with
  | None => v ← defined value; eprintf ("Skipped invalid option: " +:+ v +:+ newline)
  | Some o =>
      v ← defined value;
      eprintf ("Skipped invalid value " +:+ v +:+ " for option " +:+ token_name o +:+ newline)
  end.

(** The loop over the options; a round takes at least a character off the rule. *)
Fixpoint parse_rule (fuel : nat) (text : string) (r : rule) : prog out rule :=
  match fuel, text with
  | _, EmptyString => mret r
  | O, _ => undef
  | S fuel, _ =>
      let '(o, value, text) := getsubopt text in
      match o with
      | None => skipped None value;; parse_rule fuel text r
      | Some o =>
          r' ← defined (set_option r o value);
          match r' with
          | Some r' => parse_rule fuel text r'
          | None => skipped (Some o) value;; parse_rule fuel text r
          end
      end
  end.

(** ** One rule *)

(** The defaults of [offset], and of [psidlen] and [ealen] for lw4over6. *)
Definition rule_defaults (legacy : bool) (r : rule) : rule :=
  let off := if offset r <? 0 then (if lw4o6 r then 0 else if legacy then 4 else 6) else offset r in
  let plen := if lw4o6 r && (psidlen r <? 0) then 0 else psidlen r in
  let ea := if lw4o6 r then plen else ealen r in
  Rule (lw4o6 r) (fmr r) ea (prefix4len r) (prefix6len r) (pdlen r) (ipv4prefix r) (ipv6prefix r)
    (pd r) off plen (psid r) (dmr r) (br r).

(** "Find PD": the interfaces in turn, until one has a prefix that matches. The
    result has the interface, if one was found. *)
Fixpoint find_pd (name : string) (r : rule) (dump : list iface_attr) (st : Z * list Z)
    : option (Z * list Z * option string) :=
  match dump with
  | [] => Some (st, None)
  | c :: dump =>
      match interface c with
      | Some i =>
          if bool_decide (name = "*"%string) || bool_decide (name = i) then
            st ← match_prefix st (ipv6_prefix c) (ipv6prefix r) (prefix6len r) (lw4o6 r);
            st ← (if lw4o6 r
                  then match_prefix st (ipv6_address c) (ipv6prefix r) (prefix6len r) (lw4o6 r)
                  else Some st);
            if 0 <=? st.1 then Some (st, Some i) else find_pd name r dump st
          else find_pd name r dump st
      | None => find_pd name r dump st
      end
  end.

(** [ealen] and [psidlen] as far as they were not given; a computed [psidlen]
    discards a given [psid]. *)
Definition rule_lengths (r : rule) : option rule :=
  ea ← (if (ealen r <? 0) && (0 <=? pdlen r) then int_sub (pdlen r) (prefix6len r) else Some (ealen r));
  if psidlen r <=? 0 then
    d ← int_sub 32 (prefix4len r);
    plen ← int_sub ea d;
    Some (Rule (lw4o6 r) (fmr r) ea (prefix4len r) (prefix6len r) (pdlen r) (ipv4prefix r)
            (ipv6prefix r) (pd r) (offset r) (if plen <? 0 then 0 else plen) (-1) (dmr r) (br r))
  else
    Some (Rule (lw4o6 r) (fmr r) ea (prefix4len r) (prefix6len r) (pdlen r) (ipv4prefix r)
            (ipv6prefix r) (pd r) (offset r) (psidlen r) (psid r) (dmr r) (br r)).

Definition rule_ok (r : rule) : bool :=
  negb ((prefix4len r <? 0) || (prefix6len r <? 0) || (ealen r <? 0) || (16 <? psidlen r)
        || (ealen r <? psidlen r)).

(** [psid] and [psid16]: taken from the delegated prefix if need be, then cut to
    [psidlen] bits at the upper end of 16. *)
Definition rule_psid (r : rule) : option (Z * list Z) :=
  '(ps, ps16) ← (if (psid r <? 0) && (0 <=? psidlen r) && (0 <=? pdlen r) then
                   b ← bmemcpys64 [0; 0] (pd r) (prefix6len r + ealen r - psidlen r) (psidlen r);
                   Some (be_val b, b)
                 else Some (psid r, [0; 0]));
  if 0 <? psidlen r then
    let ps := Z.shiftr ps (16 - psidlen r) in
    high ← int_shl ps (16 - psidlen r);
    Some (high, be_bytes 2 (u16 ps))
  else Some (ps, ps16).

(** A shift of an [uint32_t] to the right. *)
Definition shr (x n : Z) : Z := if n <? 32 then Z.shiftr x n else u32 (shr32 x).

(** [ipv4addr] and [addr4len]. *)
Definition rule_ipv4 (r : rule) : option (list Z * Z) :=
  if (0 <=? pdlen r) || (ealen r =? psidlen r) then
    a ← bmemcpys64 (replicate 4 0) (pd r) (prefix6len r) (ealen r - psidlen r);
    a ← bmemcpy (be_bytes 4 (shr (be_val a) (prefix4len r))) (ipv4prefix r) (prefix4len r);
    Some (a, if prefix4len r + ealen r <? 32 then prefix4len r + ealen r else 32)
  else Some (replicate 4 0, 32).

(** [ipv6addr]: the delegated prefix in front of an interface identifier with the
    IPv4 address and the PSID. *)
Definition rule_ipv6 (legacy : bool) (r : rule) (ipv4addr psid16 : list Z) : option (list Z) :=
  let v4offset := if legacy then 9%nat else 10%nat in
  bmemcpy (write (v4offset + 4) psid16 (write v4offset ipv4addr (replicate 16 0))) (pd r) (pdlen r).

(** The port sets: one range for each value of the upper [offset] bits. *)
Definition port_range (off plen ps k : Z) : option (list (Z * Z)) :=
  base ← int_shl k (16 - off);
  size ← int_shl 1 (16 - off - plen);
  let start := Z.lor base (Z.shiftr ps off) in
  let last := start + size - 1 in
  let start := if start =? 0 then 1 else start in
  Some (if start <=? last then [(start, last)] else []).

Fixpoint port_ranges (n : nat) (off plen ps k : Z) : option (list (Z * Z)) :=
  match n with
  | O => Some []
  | S n =>
      l ← port_range off plen ps k;
      l' ← port_ranges n off plen ps (k + 1);
      Some (l ++ l')
  end.

Definition port_sets (off plen ps : Z) : option (list (Z * Z)) :=
  let first := if off =? 0 then 0 else 1 in
  port_ranges (Z.to_nat (2 ^ off - first)) off plen ps first.

(** ** Printing and the command *)

(** [RULE_<n>_<name>=<value>]. *)
Definition rule_line (n : Z) (name value : string) : prog out unit :=
  printf ("RULE_" +:+ print_d n +:+ "_" +:+ name +:+ "=" +:+ value +:+ newline).

Definition print_ranges (l : list (Z * Z)) : string :=
  foldr (fun r s => print_d r.1 +:+ "-" +:+ print_d r.2 +:+ " " +:+ s) EmptyString l.

Definition print_rule (n : Z) (r : rule) (iface : string) (v4 v6 : list Z) (addr4len : Z)
    : prog out unit :=
  rule_line n "FMR" (if fmr r then "1" else "0");;
  rule_line n "EALEN" (print_d (ealen r));;
  rule_line n "PSIDLEN" (print_d (psidlen r));;
  rule_line n "OFFSET" (print_d (offset r));;
  rule_line n "PREFIX4LEN" (print_d (prefix4len r));;
  rule_line n "PREFIX6LEN" (print_d (prefix6len r));;
  rule_line n "IPV4PREFIX" (inet_ntop4 (ipv4prefix r));;
  rule_line n "IPV6PREFIX" (inet_ntop6 (ipv6prefix r));;
  (if 0 <=? pdlen r then
     rule_line n "IPV6PD" (inet_ntop6 (pd r));;
     rule_line n "PD6LEN" (print_d (pdlen r));;
     rule_line n "PD6IFACE" iface;;
     rule_line n "IPV6ADDR" (inet_ntop6 v6);;
     printf ("RULE_BMR=" +:+ print_d n +:+ newline)
   else mret tt);;
  (if negb (be_val v4 =? 0) then
     rule_line n "IPV4ADDR" (inet_ntop4 v4);;
     rule_line n "ADDR4LEN" (print_d addr4len)
   else mret tt);;
  (if (0 <? psidlen r) && (0 <=? psid r) then
     l ← defined (port_sets (offset r) (psidlen r) (psid r));
     printf ("RULE_" +:+ print_d n +:+ "_PORTSETS='" +:+ print_ranges l +:+ "'" +:+ newline)
   else mret tt);;
  (match dmr r with Some v => rule_line n "DMR" v | None => mret tt end);;
  (match br r with Some v => rule_line n "BR" v | None => mret tt end).

Definition with_pd (r : rule) (len : Z) (p : list Z) : rule :=
  Rule (lw4o6 r) (fmr r) (ealen r) (prefix4len r) (prefix6len r) len (ipv4prefix r) (ipv6prefix r)
    p (offset r) (psidlen r) (psid r) (dmr r) (br r).
Definition with_psid (r : rule) (ps : Z) : rule :=
  Rule (lw4o6 r) (fmr r) (ealen r) (prefix4len r) (prefix6len r) (pdlen r) (ipv4prefix r)
    (ipv6prefix r) (pd r) (offset r) (psidlen r) ps (dmr r) (br r).

(** What the loop over the rules keeps: [status], [rulecnt] and [iface]. *)
Record progress := Progress { status : Z; rulecnt : Z; iface : string }.

(** The variables of a rule once they are all set, and [iface]. *)
Definition prepare_rule (legacy : bool) (dump : list iface_attr) (name text iface : string)
    : prog out (rule * string) :=
  r ← parse_rule (String.length text) text no_rule;
  let r := rule_defaults legacy r in
  '(len, p, found) ← (if pdlen r <? 0 then defined (find_pd name r dump (pdlen r, pd r))
                      else mret (pdlen r, pd r, None));
  r ← defined (rule_lengths (with_pd r len p));
  mret (r, default iface found).

Definition process_rule (legacy : bool) (dump : list iface_attr) (name text : string)
    (st : progress) : prog out progress :=
  '(r, iface) ← prepare_rule legacy dump name text (iface st);
  if negb (rule_ok r) then
    eprintf ("Skipping invalid or incomplete rule: " +:+ text +:+ newline);;
    mret (Progress 1 (rulecnt st) iface)
  else
    '(ps, psid16) ← defined (rule_psid r);
    let r := with_psid r ps in
    '(v4, addr4len) ← defined (rule_ipv4 r);
    if (pdlen r <? 0) && negb (fmr r) then
      eprintf ("Skipping non-FMR without matching PD: " +:+ text +:+ newline);;
      mret (Progress 1 (rulecnt st) iface)
    else
      v6 ← (if 0 <=? pdlen r then defined (rule_ipv6 legacy r v4 psid16)
            else mret (replicate 16 0));
      print_rule (rulecnt st + 1) r iface v4 v6 addr4len;;
      mret (Progress (status st) (rulecnt st + 1) iface).

Fixpoint process_rules (legacy : bool) (dump : list iface_attr) (name : string)
    (rules : list string) (st : progress) : prog out progress :=
  match rules with
  | [] => mret st
  | text :: rules =>
      st ← process_rule legacy dump name text st;
      process_rules legacy dump name rules st
  end.

(** [legacy_env && atoi(legacy_env)]; [atoi] is undefined out of range. *)
Definition is_legacy (legacy_env : option string) : option bool :=
  match legacy_env with
  | None => Some false
  | Some v =>
      match strto_parse v 10 with
      | None => Some false
      | Some (neg, n, _) => if fits_int (if neg : bool then - n else n) then Some (negb (n =? 0)) else None
      end
  end.

(** [args] are the arguments behind the name of the program. *)
Definition main (prog_name : string) (legacy_env : option string) (dump : list iface_attr)
    (args : list string) : prog out Z :=
  legacy ← defined (is_legacy legacy_env);
  match args with
  | name :: (_ :: _) as rules =>
      st ← process_rules legacy dump name (tail args) (Progress 0 0 name);
      printf ("RULE_COUNT=" +:+ print_d (rulecnt st) +:+ newline);;
      mret (status st)
  | _ =>
      eprintf ("Usage: " +:+ prog_name +:+ " <interface|*> <rule1> [rule2] [...]" +:+ newline);;
      mret 1
  end.
End Host.
