(* ===== verification/MapcalcFacts.v ===== *)
(** * Facts about the bit strings of the MAP address calculator

    The bits of a list of bytes are numbered from the most significant bit of the
    first byte, as addresses are read; [field l off n] is the number that the [n] bits
    from bit [off] form. *)

From Stdlib Require Import ZArith Lia.
From stdpp Require Import base list numbers option.
From S2P Require Import Prelude Bits.
From S2P Require Import CString Mapcalc.

Definition bit_at (l : list Z) (i : Z) : bool :=
  Z.testbit (default 0 (l !! Z.to_nat (i / 8))) (7 - i mod 8).

Definition field (l : list Z) (off n : Z) : Z :=
  be_val l / 2 ^ (8 * Z.of_nat (length l) - off - n) mod 2 ^ n.

(** ** Bits of numbers and of bytes *)

Lemma pow256_2 n : 256 ^ Z.of_nat n = 2 ^ (8 * Z.of_nat n).
Proof. change 256 with (2 ^ 8). rewrite <- Z.pow_mul_r; lia. Qed.

Lemma testbit_split k h l i :
  0 <= k -> 0 <= l < 2 ^ k -> 0 <= i ->
  Z.testbit (2 ^ k * h + l) i = if i <? k then Z.testbit l i else Z.testbit h (i - k).
Proof.
  intros Hk Hl Hi. assert (Z.land (Z.shiftl h k) l = 0) as Hland.
  { apply Z.bits_inj'. intros j Hj. rewrite Z.land_spec, Z.bits_0, Z.shiftl_spec by done.
    destruct (Z.ltb_spec j k).
    - by rewrite (Z.testbit_neg_r h) by lia.
    - by rewrite (testbit_out_of_range l k), andb_false_r by lia. }
  rewrite Z.mul_comm, <- Z.shiftl_mul_pow2, Z.add_nocarry_lxor, Z.lxor_lor by done.
  rewrite Z.lor_spec, Z.shiftl_spec by done. destruct (Z.ltb_spec i k).
  - by rewrite (Z.testbit_neg_r h) by lia.
  - by rewrite (testbit_out_of_range l k), orb_false_r by lia.
Qed.

Lemma be_val_bit l i :
  bytes_ok l -> 0 <= i < 8 * Z.of_nat (length l) ->
  Z.testbit (be_val l) (8 * Z.of_nat (length l) - 1 - i) = bit_at l i.
Proof.
  intros Hl. revert i. induction Hl as [|b l Hb Hl IH]; intros i Hi; cbn [length] in *; [lia|].
  pose proof (be_val_range l Hl) as Hr. rewrite pow256_2 in Hr.
  rewrite be_val_cons, pow256_2, testbit_split by lia. unfold bit_at.
  destruct (Z.ltb_spec (8 * Z.of_nat (S (length l)) - 1 - i) (8 * Z.of_nat (length l))).
  - replace (8 * Z.of_nat (S (length l)) - 1 - i) with (8 * Z.of_nat (length l) - 1 - (i - 8)) by lia.
    rewrite IH by lia. unfold bit_at.
    assert (i = i - 8 + 1 * 8) as Hi8 by lia. rewrite Hi8 at 3 4.
    rewrite Z.div_add, Z.mod_add by lia. pose proof (Z.div_pos (i - 8) 8).
    by replace (Z.to_nat ((i - 8) / 8 + 1)) with (S (Z.to_nat ((i - 8) / 8))) by lia.
  - rewrite Z.div_small, Z.mod_small by lia. cbn. f_equal. lia.
Qed.

Lemma be_bytes_bit n z i :
  0 <= i < 8 * Z.of_nat n -> bit_at (be_bytes n z) i = Z.testbit z (8 * Z.of_nat n - 1 - i).
Proof.
  intros Hi. rewrite <- be_val_bit; rewrite ?be_bytes_length; [|apply be_bytes_ok|done].
  rewrite be_val_bytes, pow256_2, Z.mod_pow2_bits_low; [done|lia].
Qed.

Lemma field_bit l off n i :
  0 <= off -> 0 <= i < n -> off + n <= 8 * Z.of_nat (length l) -> bytes_ok l ->
  Z.testbit (field l off n) i = bit_at l (off + (n - 1 - i)).
Proof.
  intros Ho Hi Hn Hl. unfold field.
  rewrite Z.mod_pow2_bits_low, Z.div_pow2_bits, <- be_val_bit by lia || done.
  f_equal. lia.
Qed.

Lemma field_range l off n : 0 <= n -> 0 <= field l off n < 2 ^ n.
Proof. intros. apply Z.mod_pos_bound. lia. Qed.

(** A field is a number below [2 ^ n] that has the bits. *)
Lemma field_intro l off n x :
  0 <= off -> 0 <= n -> off + n <= 8 * Z.of_nat (length l) -> bytes_ok l -> 0 <= x < 2 ^ n ->
  (forall i, 0 <= i < n -> bit_at l (off + (n - 1 - i)) = Z.testbit x i) -> field l off n = x.
Proof.
  intros Ho Hn Hb Hl Hx H. apply Z.bits_inj'. intros i Hi. destruct (Z.ltb_spec i n).
  - rewrite field_bit by lia || done. apply H. lia.
  - pose proof (field_range l off n Hn). by rewrite !(testbit_out_of_range _ n).
Qed.

Lemma field_eq l l' off off' n :
  0 <= off -> 0 <= off' -> 0 <= n -> off + n <= 8 * Z.of_nat (length l) ->
  off' + n <= 8 * Z.of_nat (length l') -> bytes_ok l -> bytes_ok l' ->
  (forall i, 0 <= i < n -> bit_at l (off + i) = bit_at l' (off' + i)) ->
  field l off n = field l' off' n.
Proof.
  intros Ho Ho' Hn Hb Hb' Hl Hl' H. apply field_intro; try done; [by apply field_range|].
  intros i Hi. rewrite field_bit by lia || done. apply H. lia.
Qed.

(** Adjacent fields form one. *)
Lemma field_app l off m n :
  0 <= off -> 0 <= m -> 0 <= n -> off + m + n <= 8 * Z.of_nat (length l) ->
  field l off (m + n) = field l off m * 2 ^ n + field l (off + m) n.
Proof.
  intros Ho Hm Hn Hb. unfold field.
  set (d := 8 * Z.of_nat (length l) - off - (m + n)).
  replace (8 * Z.of_nat (length l) - off - m) with (d + n) by lia.
  replace (8 * Z.of_nat (length l) - (off + m) - n) with d by lia.
  rewrite (Z.pow_add_r 2 d n), <- Z.div_div by lia. set (x := be_val l / 2 ^ d).
  rewrite (Z.add_comm m n), Z.pow_add_r, Z.rem_mul_r by lia. lia.
Qed.

Lemma int_shl_small x n : 0 <= n < 32 -> 0 <= x * 2 ^ n < 2 ^ 31 -> int_shl x n = Some (x * 2 ^ n).
Proof.
  intros Hn Hx. unfold int_shl. destruct (Z.leb_spec 0 n), (Z.ltb_spec n 32); try lia.
  cbn [andb]. f_equal. unfold swrap. rewrite Z.mod_small; lia.
Qed.

(** ** The parts of a list of bytes *)

Lemma bit_at_app_l a b i : 0 <= i < 8 * Z.of_nat (length a) -> bit_at (a ++ b) i = bit_at a i.
Proof.
  intros Hi. unfold bit_at. rewrite lookup_app_l; [done|].
  assert (i / 8 < Z.of_nat (length a)) by (apply Z.div_lt_upper_bound; lia).
  pose proof (Z.div_pos i 8). lia.
Qed.

Lemma bit_at_shift l k i : 0 <= i -> bit_at l (8 * Z.of_nat k + i) = bit_at (drop k l) i.
Proof.
  intros Hi. unfold bit_at. rewrite (Z.mul_comm 8), (Z.add_comm _ i), Z.div_add, Z.mod_add by lia.
  rewrite lookup_drop. pose proof (Z.div_pos i 8). do 3 f_equal. lia.
Qed.

Lemma bit_at_take l k i : 0 <= i < 8 * Z.of_nat k -> bit_at (take k l) i = bit_at l i.
Proof.
  intros Hi. unfold bit_at. rewrite lookup_take_lt; [done|].
  assert (i / 8 < Z.of_nat k) by (apply Z.div_lt_upper_bound; lia).
  pose proof (Z.div_pos i 8). lia.
Qed.

Lemma bit_at_ge l i : 8 * Z.of_nat (length l) <= i -> bit_at l i = false.
Proof.
  intros Hi. unfold bit_at. rewrite lookup_ge_None_2; [by apply Z.testbit_0_l|].
  assert (Z.of_nat (length l) <= i / 8) by (apply Z.div_le_lower_bound; lia). lia.
Qed.

Lemma bits_ext l l' :
  bytes_ok l -> bytes_ok l' -> length l = length l' ->
  (forall i, 0 <= i < 8 * Z.of_nat (length l) -> bit_at l i = bit_at l' i) -> l = l'.
Proof.
  intros Hl Hl' Hlen H. rewrite <- (be_bytes_val l), <- (be_bytes_val l'), Hlen by done. f_equal.
  pose proof (be_val_range l Hl) as R. pose proof (be_val_range l' Hl') as R'.
  rewrite pow256_2 in R, R'. rewrite <- Hlen in R'. apply Z.bits_inj'. intros j Hj.
  destruct (Z.ltb_spec j (8 * Z.of_nat (length l))).
  - replace j with (8 * Z.of_nat (length l) - 1 - (8 * Z.of_nat (length l) - 1 - j)) by lia.
    rewrite be_val_bit, H, Hlen, be_val_bit by (done || lia). done.
  - by rewrite !(testbit_out_of_range _ (8 * Z.of_nat (length l))).
Qed.

Lemma bytes_at_Some off n l :
  bytes_at off n l = Some (slice off n l) <-> (off + n <= length l)%nat.
Proof. unfold bytes_at. destruct (Nat.leb_spec (off + n) (length l)); split; intros; done || lia. Qed.

Lemma bytes_at_None off n l : bytes_at off n l = None <-> (length l < off + n)%nat.
Proof. unfold bytes_at. destruct (Nat.leb_spec (off + n) (length l)); split; intros; done || lia. Qed.

(** ** [bmemcpy] *)

Lemma lookup_splice (a b : list Z) k q :
  (k <= length a)%nat -> (k <= length b)%nat ->
  write 0 (slice 0 k b) a !! q = if (q <? k)%nat then b !! q else a !! q.
Proof.
  intros Ha Hb. unfold write. rewrite length_slice by lia.
  rewrite take_0, app_nil_l. unfold slice. rewrite drop_0, Nat.add_0_l.
  destruct (Nat.ltb_spec q k).
  - rewrite lookup_app_l by (rewrite length_take; lia). by apply lookup_take_lt.
  - rewrite lookup_app_r by (rewrite length_take; lia).
    rewrite length_take, lookup_drop. f_equal. lia.
Qed.

(** The byte that gets its first [r] bits from [y]. *)
Definition merge_byte (r x y : Z) : Z :=
  let mask := u8 (Z.shiftl 1 (8 - r) - 1) in Z.lor (Z.land x mask) (Z.land (Z.lnot mask) y).

Lemma merge_byte_bit r x y j :
  0 <= r <= 8 -> 0 <= j < 8 ->
  Z.testbit (merge_byte r x y) (7 - j) = if j <? r then Z.testbit y (7 - j) else Z.testbit x (7 - j).
Proof.
  intros Hr Hj. unfold merge_byte.
  rewrite Z.lor_spec, !Z.land_spec, Z.lnot_spec, wrap_testbit, Z.shiftl_1_l, Z.sub_1_r, <- Z.ones_equiv by lia.
  destruct (Z.ltb_spec (7 - j) 8); [|lia]. destruct (Z.ltb_spec j r).
  - rewrite Z.ones_spec_high by lia. cbn. by rewrite andb_false_r.
  - rewrite Z.ones_spec_low by lia. cbn. by rewrite andb_true_r, orb_false_r.
Qed.

Lemma merge_byte_ok r x y : 0 <= r <= 8 -> is_byte x -> is_byte y -> is_byte (merge_byte r x y).
Proof.
  intros Hr Hx Hy.
  assert (Z.land (merge_byte r x y) (Z.ones 8) = merge_byte r x y) as <-.
  { apply Z.bits_inj'. intros j Hj. rewrite Z.land_spec. destruct (Z.ltb_spec j 8).
    - by rewrite Z.ones_spec_low, andb_true_r by lia.
    - unfold merge_byte. rewrite Z.lor_spec, !Z.land_spec, Z.ones_spec_high by lia.
      rewrite (testbit_out_of_range x 8), (testbit_out_of_range y 8) by done.
      by rewrite !andb_false_r. }
  rewrite Z.land_ones by lia. apply (wrap_range 8). lia.
Qed.

Lemma byte_at_ok l k : bytes_ok l -> is_byte (default 0 (l !! k)).
Proof.
  intros Hl. destruct (l !! k) as [x|] eqn:E; [|split; done]. exact (Forall_lookup_1 _ _ _ _ Hl E).
Qed.

Lemma splice_ok k a b : bytes_ok a -> bytes_ok b -> bytes_ok (write 0 (slice 0 k b) a).
Proof. intros. apply bytes_ok_write; [by apply bytes_ok_slice|done]. Qed.

Lemma div8 i k : 0 <= k -> 8 * k <= i < 8 * k + 8 -> i / 8 = k.
Proof. intros. symmetry. apply (Z.div_unique _ _ _ (i - 8 * k)); lia. Qed.

Lemma bmemcpy_spec a b bits :
  bytes_ok a -> bytes_ok b -> 0 <= bits ->
  bits <= 8 * Z.of_nat (length a) -> bits <= 8 * Z.of_nat (length b) ->
  exists a', bmemcpy a b bits = Some a' /\ bytes_ok a' /\ length a' = length a /\
    forall i, 0 <= i -> bit_at a' i = if i <? bits then bit_at b i else bit_at a i.
Proof.
  intros Ha Hb H0 Hla Hlb. unfold bmemcpy. destruct (Z.ltb_spec bits 0); [lia|].
  pose proof (Z.div_mod bits 8) as Hd. pose proof (Z.mod_pos_bound bits 8) as Hm.
  set (k := bits / 8) in *. set (r := bits mod 8) in *. assert (0 <= k) by lia.
  rewrite (proj2 (bytes_at_Some _ _ a)), (proj2 (bytes_at_Some _ _ b)) by lia. cbn.
  pose proof (splice_ok (Z.to_nat k) a b Ha Hb) as Hok.
  pose proof (fun q => lookup_splice a b (Z.to_nat k) q ltac:(lia) ltac:(lia)) as Hsp.
  set (a1 := write 0 (slice 0 (Z.to_nat k) b) a) in *.
  assert (length a1 = length a) as Hlen by (apply length_write; rewrite length_slice; lia).
  destruct (Z.ltb_spec 0 r).
  - rewrite Hsp, Nat.ltb_irrefl.
    destruct (lookup_lt_is_Some_2 a (Z.to_nat k)) as [x Hx]; [lia|].
    destruct (lookup_lt_is_Some_2 b (Z.to_nat k)) as [y Hy]; [lia|].
    rewrite Hx, Hy. cbn. fold (merge_byte r x y). eexists. split; [done|]. split; [|split].
    + apply Forall_insert; [done|]. apply merge_byte_ok; [lia|..].
      * exact (Forall_lookup_1 _ _ _ _ Ha Hx).
      * exact (Forall_lookup_1 _ _ _ _ Hb Hy).
    + by rewrite length_insert.
    + intros i Hi. unfold bit_at. pose proof (Z.div_mod i 8). pose proof (Z.mod_pos_bound i 8).
      destruct (decide (i / 8 = k)) as [Ek|Hne].
      * rewrite Ek, list_lookup_insert_eq, Hx, Hy by lia. cbn. rewrite merge_byte_bit by lia.
        by destruct (Z.ltb_spec (i mod 8) r), (Z.ltb_spec i bits); try lia.
      * rewrite list_lookup_insert_ne, Hsp by lia.
        by destruct (Nat.ltb_spec (Z.to_nat (i / 8)) (Z.to_nat k)), (Z.ltb_spec i bits); try lia.
  - eexists. split; [done|]. split; [done|split; [done|]]. intros i Hi. unfold bit_at.
    pose proof (Z.div_mod i 8). pose proof (Z.mod_pos_bound i 8). rewrite Hsp.
    by destruct (Nat.ltb_spec (Z.to_nat (i / 8)) (Z.to_nat k)), (Z.ltb_spec i bits); try lia.
Qed.

Lemma bmemcpy_undefined a b bits :
  bits < 0 \/ 8 * Z.of_nat (length a) < bits \/ 8 * Z.of_nat (length b) < bits ->
  bmemcpy a b bits = None.
Proof.
  intros H. unfold bmemcpy. destruct (Z.ltb_spec bits 0); [done|].
  pose proof (Z.div_mod bits 8) as Hd. pose proof (Z.mod_pos_bound bits 8) as Hm.
  assert (0 <= bits / 8) by (apply Z.div_pos; lia).
  unfold bytes_at. destruct (Nat.leb_spec (0 + Z.to_nat (bits / 8)) (length a)); [|done].
  destruct (Nat.leb_spec (0 + Z.to_nat (bits / 8)) (length b)); [|done]. cbn.
  destruct (Z.ltb_spec 0 (bits mod 8)); [|lia].
  rewrite lookup_splice, Nat.ltb_irrefl by lia.
  destruct (a !! Z.to_nat (bits / 8)) as [x|] eqn:Ea; [|done]. apply lookup_lt_Some in Ea.
  destruct (b !! Z.to_nat (bits / 8)) as [y|] eqn:Eb; [|done]. apply lookup_lt_Some in Eb. lia.
Qed.

(** ** [bmemcmp] *)

Lemma memcmp_zero a b : length a = length b -> memcmp a b = 0 <-> a = b.
Proof.
  revert b. induction a as [|x a IH]; intros [|y b] Hl; try discriminate; cbn; [done|].
  destruct (Z.eqb_spec x y) as [->|Hne].
  - rewrite IH by (cbn in Hl; lia). split; [by intros ->|by intros [= ->]].
  - destruct (x <? y); split; [done| |done|]; by intros [= -> ->].
Qed.

(** The first [bits] bits are the same. *)
Definition agree (a b : list Z) (bits : Z) : Prop := forall i, 0 <= i < bits -> bit_at a i = bit_at b i.

Lemma agree_bytes a b k :
  bytes_ok a -> bytes_ok b -> (k <= length a)%nat -> (k <= length b)%nat ->
  take k a = take k b <-> agree a b (8 * Z.of_nat k).
Proof.
  intros Ha Hb Hla Hlb. split.
  - intros E i Hi. by rewrite <- (bit_at_take a k), <- (bit_at_take b k), E.
  - intros H. apply bits_ext; rewrite ?length_take; [by apply Forall_take..|lia|].
    intros i Hi. rewrite !bit_at_take by lia. apply H. lia.
Qed.

Lemma agree_byte_head a b k r x y :
  0 <= k -> 0 <= r < 8 -> bytes_ok a -> bytes_ok b ->
  a !! Z.to_nat k = Some x -> b !! Z.to_nat k = Some y ->
  Z.shiftr x (8 - r) - Z.shiftr y (8 - r) = 0 <->
  forall i, 8 * k <= i < 8 * k + r -> bit_at a i = bit_at b i.
Proof.
  intros Hk Hr Ha Hb Hx Hy.
  pose proof (Forall_lookup_1 _ _ _ _ Ha Hx) as Bx. pose proof (Forall_lookup_1 _ _ _ _ Hb Hy) as By.
  assert (forall i, 8 * k <= i < 8 * k + r ->
            bit_at a i = Z.testbit x (7 - (i - 8 * k)) /\ bit_at b i = Z.testbit y (7 - (i - 8 * k))) as Hbits.
  { intros i Hi. unfold bit_at. rewrite (div8 i k), Hx, Hy by lia. cbn.
    rewrite (Z.mod_eq i 8), (div8 i k) by lia. done. }
  split.
  - intros E i Hi. destruct (Hbits i Hi) as [-> ->].
    assert (Z.shiftr x (8 - r) = Z.shiftr y (8 - r)) as E' by lia.
    apply (f_equal (fun z => Z.testbit z (7 - (i - 8 * k) - (8 - r)))) in E'.
    rewrite !Z.shiftr_spec in E' by lia. by replace (7 - (i - 8 * k) - (8 - r) + (8 - r)) with (7 - (i - 8 * k)) in E' by lia.
  - intros H. assert (Z.shiftr x (8 - r) = Z.shiftr y (8 - r)) as ->; [|lia].
    apply Z.bits_inj'. intros j Hj. rewrite !Z.shiftr_spec by done.
    destruct (Z.ltb_spec (j + (8 - r)) 8).
    + specialize (H (8 * k + (7 - (j + (8 - r))))). specialize (Hbits (8 * k + (7 - (j + (8 - r))))).
      destruct Hbits as [E1 E2]; [lia|]. rewrite E1, E2 in H.
      replace (7 - (8 * k + (7 - (j + (8 - r))) - 8 * k)) with (j + (8 - r)) in H by lia. apply H. lia.
    + by rewrite (testbit_out_of_range x 8), (testbit_out_of_range y 8).
Qed.

Lemma bmemcmp_spec a b bits :
  bytes_ok a -> bytes_ok b -> 0 <= bits ->
  bits <= 8 * Z.of_nat (length a) -> bits <= 8 * Z.of_nat (length b) ->
  exists r, bmemcmp a b bits = Some r /\ (r = 0 <-> agree a b bits).
Proof.
  intros Ha Hb H0 Hla Hlb. unfold bmemcmp. destruct (Z.ltb_spec bits 0); [lia|].
  pose proof (Z.div_mod bits 8) as Hd. pose proof (Z.mod_pos_bound bits 8) as Hm.
  assert (0 <= bits / 8) as Hk by (apply Z.div_pos; lia).
  rewrite (proj2 (bytes_at_Some _ _ a)), (proj2 (bytes_at_Some _ _ b)) by lia. cbn.
  unfold slice. rewrite !drop_0.
  pose proof (agree_bytes a b (Z.to_nat (bits / 8)) Ha Hb ltac:(lia) ltac:(lia)) as Hwhole.
  rewrite <- memcmp_zero in Hwhole by (rewrite !length_take; lia).
  rewrite Z2Nat.id in Hwhole by done.
  destruct (Z.eqb_spec (memcmp (take (Z.to_nat (bits / 8)) a) (take (Z.to_nat (bits / 8)) b)) 0) as [E|E];
    [destruct (Z.ltb_spec 0 (bits mod 8)); cbn|]; cbn.
  - destruct (lookup_lt_is_Some_2 a (Z.to_nat (bits / 8))) as [x Hx]; [lia|].
    destruct (lookup_lt_is_Some_2 b (Z.to_nat (bits / 8))) as [y Hy]; [lia|].
    rewrite Hx, Hy. cbn. eexists. split; [done|].
    rewrite (agree_byte_head a b (bits / 8)) by (done || lia).
    apply Hwhole in E. split; [|intros H' i Hi; apply H'; lia].
    intros H' i Hi. destruct (Z.ltb_spec i (8 * (bits / 8))); [apply E; lia|apply H'; lia].
  - eexists. split; [done|]. rewrite Hwhole. by replace (8 * (bits / 8)) with bits by lia.
  - eexists. split; [done|]. rewrite Hwhole in *. split; [done|].
    intros H'. destruct E. intros i Hi. apply H'. lia.
Qed.

(** ** [bmemcpys64] *)

(** Eight bytes, shifted up. *)
Lemma shift_up_bit buf s i :
  bytes_ok buf -> length buf = 8%nat -> 0 <= s -> 0 <= i < 64 ->
  bit_at (be_bytes 8 (u64 (Z.shiftl (be_val buf) s))) i = bit_at buf (i + s).
Proof.
  intros Hb Hl Hs Hi. rewrite be_bytes_bit, wrap_testbit, Z.shiftl_spec by lia.
  destruct (Z.ltb_spec (8 * Z.of_nat 8 - 1 - i) 64); [|lia]. rewrite andb_true_l.
  destruct (Z.ltb_spec (i + s) 64).
  - rewrite <- be_val_bit by (done || lia). f_equal. lia.
  - rewrite Z.testbit_neg_r, bit_at_ge by lia. done.
Qed.

(** The reads and the writes are in bounds. *)
Definition copy_in_bounds (a b : list Z) (frombits nbits : Z) : Prop :=
  0 <= frombits /\ 0 <= nbits <= 8 * Z.of_nat (length a) /\
  (frombits + nbits) / 8 < Z.of_nat (length b) /\ frombits mod 8 + nbits < 64.

Lemma bmemcpys64_spec a b frombits nbits :
  bytes_ok a -> bytes_ok b -> copy_in_bounds a b frombits nbits ->
  exists a', bmemcpys64 a b frombits nbits = Some a' /\ bytes_ok a' /\ length a' = length a /\
    forall i, 0 <= i -> bit_at a' i = if i <? nbits then bit_at b (frombits + i) else bit_at a i.
Proof.
  intros Ha Hb (Hf & Hn & Hend & Hfit). unfold bmemcpys64.
  destruct (Z.ltb_spec frombits 0); [lia|]. destruct (Z.ltb_spec nbits 0); [lia|]. rewrite orb_false_l.
  pose proof (Z.div_mod frombits 8) as Hd. pose proof (Z.mod_pos_bound frombits 8) as Hm.
  pose proof (Z.div_mod (frombits + nbits) 8) as Hd'.
  pose proof (Z.mod_pos_bound (frombits + nbits) 8) as Hm'.
  assert (0 <= frombits / 8) by (apply Z.div_pos; lia).
  assert (frombits / 8 <= (frombits + nbits) / 8) by (apply Z.div_le_mono; lia).
  set (k := Z.to_nat (frombits / 8)).
  set (n := (Z.to_nat ((frombits + nbits) / 8) - k + 1)%nat).
  rewrite (proj2 (bytes_at_Some _ _ b)) by lia.
  cbv beta iota delta [mbind option_bind].
  destruct (Nat.ltb_spec 8 n); [lia|].
  pose proof (length_slice k n b ltac:(lia)) as Hsl.
  assert (write 0 (slice k n b) (replicate 8 0) = slice k n b ++ replicate (8 - n) 0) as ->.
  { unfold write. by rewrite take_0, app_nil_l, Hsl, drop_replicate. }
  set (buf := slice k n b ++ replicate (8 - n) 0).
  assert (bytes_ok buf) as Hok.
  { apply Forall_app; split; [by apply bytes_ok_slice|]. by apply Forall_replicate. }
  assert (length buf = 8%nat) as Hlen by (unfold buf; rewrite length_app, Hsl, length_replicate; lia).
  destruct (bmemcpy_spec a (be_bytes 8 (u64 (Z.shiftl (be_val buf) (frombits mod 8)))) nbits)
    as (a' & E & Hok' & Hlen' & Hbits);
    [done|apply be_bytes_ok|lia|lia|rewrite be_bytes_length; lia|].
  exists a'. split; [done|split; [done|split; [done|]]]. intros i Hi. rewrite Hbits by done.
  destruct (Z.ltb_spec i nbits); [|done]. rewrite shift_up_bit by (done || lia).
  unfold buf. rewrite bit_at_app_l by lia.
  unfold slice. rewrite bit_at_take, <- bit_at_shift by lia. f_equal. lia.
Qed.

Lemma bmemcpys64_undefined a b frombits nbits :
  0 <= frombits -> 0 <= nbits ->
  Z.of_nat (length b) <= (frombits + nbits) / 8 \/ 8 * Z.of_nat (length a) < nbits ->
  bmemcpys64 a b frombits nbits = None.
Proof.
  intros Hf Hn H. unfold bmemcpys64.
  destruct (Z.ltb_spec frombits 0); [done|]. destruct (Z.ltb_spec nbits 0); [done|].
  rewrite orb_false_l. assert (0 <= frombits / 8) by (apply Z.div_pos; lia).
  assert (frombits / 8 <= (frombits + nbits) / 8) by (apply Z.div_le_mono; lia).
  destruct (bytes_at _ _ b) as [src|] eqn:E; [|done]. cbv beta iota delta [mbind option_bind].
  destruct (Nat.ltb_spec 8 (Z.to_nat ((frombits + nbits) / 8) - Z.to_nat (frombits / 8) + 1)); [done|].
  destruct H as [H|H]; [|by apply bmemcpy_undefined; right; left].
  rewrite (proj2 (bytes_at_None _ _ b)) in E by lia. done.
Qed.
