(* ===== verification/MapcalcProofs.v ===== *)
(** * The port sets and addresses of a MAP rule

    What [mapcalc] computes from a rule and the delegated prefix, in the terms of RFC
    7597. The ranges it prints are those of section 5.1: the ports whose bits behind the
    first [offset] are the PSID, without the ports whose first [offset] bits are all 0;
    two PSIDs have no port in common. The embedded address bits are the suffix of the
    IPv4 address and the PSID, and the IPv6 address has both in its interface
    identifier. *)

From Stdlib Require Import ZArith Lia.
From stdpp Require Import base list numbers option strings.
From S2P Require Import Prelude CString Mapcalc MapcalcFacts Bits.

Definition in_range (P : Z) (r : Z * Z) : Prop := r.1 <= P <= r.2.

(** Some of the ranges has the port. *)
Definition has_port (l : list (Z * Z)) (P : Z) : Prop := Exists (in_range P) l.

(** The PSID of a port, and whether its first [off] bits keep it from all users. *)
Definition port_psid (off plen P : Z) : Z := P / 2 ^ (16 - off - plen) mod 2 ^ plen.
Definition port_usable (off P : Z) : Prop := 1 <= P < 65536 /\ (off = 0 \/ 2 ^ (16 - off) <= P).

Lemma pow16 off : 0 <= off <= 16 -> 65536 = 2 ^ off * 2 ^ (16 - off).
Proof. intros. rewrite <- Z.pow_add_r by lia. by replace (off + (16 - off)) with 16 by lia. Qed.

Section Ports.
Context (off plen s : Z) (Hoff : 0 <= off) (Hplen : 0 < plen) (Hsum : off + plen <= 16)
  (Hs : 0 <= s < 2 ^ plen).

(** The number of ports of a range, and the ports from one range to the next. *)
#[local] Abbreviation size := (2 ^ (16 - off - plen)).
#[local] Abbreviation step := (2 ^ (16 - off)).

Lemma step_size : step = 2 ^ plen * size.
Proof. rewrite <- Z.pow_add_r by lia. f_equal. lia. Qed.

Lemma range_size_pos : 0 < size.
Proof. apply Z.pow_pos_nonneg; lia. Qed.

Lemma psid_start k : 0 <= k -> Z.lor (k * step) (Z.shiftr (s * 2 ^ (16 - plen)) off) = k * step + s * size.
Proof.
  intros Hk. rewrite Z.shiftr_div_pow2 by done.
  replace (16 - plen) with (16 - off - plen + off) by lia.
  rewrite (Z.pow_add_r 2 _ off), Z.mul_assoc, Z.div_mul by lia.
  assert (Z.land (k * step) (s * size) = 0) as Hland.
  { apply Z.bits_inj'. intros i Hi. rewrite Z.land_spec, Z.bits_0.
    destruct (Z.ltb_spec i (16 - off)).
    - by rewrite Z.mul_pow2_bits_low by lia.
    - rewrite (testbit_out_of_range (s * size) (16 - off)) by (rewrite ?step_size; pose proof range_size_pos; nia).
      apply andb_false_r. }
  by rewrite <- Z.lxor_lor, <- Z.add_nocarry_lxor.
Qed.

Lemma step_bound k : 0 <= k < 2 ^ off -> 0 <= k * step /\ k * step + step <= 65536.
Proof.
  intros Hk. assert (65536 = 2 ^ off * step) as -> by (apply pow16; lia).
  assert (0 < step) by (apply Z.pow_pos_nonneg; lia). nia.
Qed.

(** One range. *)
Lemma port_range_spec k :
  0 <= k < 2 ^ off ->
  exists l, port_range off plen (s * 2 ^ (16 - plen)) k = Some l /\
    forall P, has_port l P <-> 1 <= P /\ k * step + s * size <= P < k * step + s * size + size.
Proof.
  intros Hk. pose proof (step_bound k Hk). pose proof range_size_pos. pose proof step_size.
  assert (size <= 65536) by (change 65536 with (2 ^ 16); apply Z.pow_le_mono_r; lia).
  unfold port_range. rewrite (int_shl_small k), (int_shl_small 1) by lia.
  cbv beta iota delta [mbind option_bind]. rewrite psid_start, Z.mul_1_l by lia.
  set (a := k * step + s * size). assert (0 <= a) by nia. eexists. split; [done|]. intros P.
  unfold has_port. destruct (Z.eqb_spec a 0); case_bool; rewrite ?Exists_cons, ?Exists_nil; unfold in_range; cbn; split;
    intros; lia.
Qed.

(** The port lies in the range of [k]. *)
Lemma port_of_range k P :
  0 <= k -> k * step + s * size <= P < k * step + s * size + size <->
            P / step = k /\ port_psid off plen P = s.
Proof.
  intros Hk. pose proof range_size_pos. pose proof step_size as E.
  pose proof (Z.div_mod P size ltac:(lia)) as H1. pose proof (Z.mod_pos_bound P size ltac:(lia)).
  assert (P / step = P / size / 2 ^ plen) as ->
    by (rewrite E, Z.mul_comm, Z.div_div by lia; done).
  unfold port_psid. set (q := P / size) in *.
  pose proof (Z.div_mod q (2 ^ plen) ltac:(lia)) as H2. pose proof (Z.mod_pos_bound q (2 ^ plen) ltac:(lia)).
  rewrite E. set (m := size) in *. split.
  - intros HP. assert (q = 2 ^ plen * k + s) as Hq by nia.
    split; symmetry; [apply (Z.div_unique _ _ _ s)|apply (Z.mod_unique _ _ k)]; lia.
  - intros [E1 E2]. rewrite E1, E2 in H2. rewrite H2 in H1. lia.
Qed.

Lemma port_ranges_spec n k :
  0 <= k -> k + Z.of_nat n <= 2 ^ off ->
  exists l, port_ranges n off plen (s * 2 ^ (16 - plen)) k = Some l /\
    forall P, has_port l P <->
      1 <= P /\ k <= P / step < k + Z.of_nat n /\ port_psid off plen P = s.
Proof.
  revert k. induction n as [|n IH]; intros k Hk Hn; cbn [port_ranges].
  - exists []. split; [done|]. intros P. unfold has_port. rewrite Exists_nil. lia.
  - destruct (port_range_spec k) as (l & -> & Hl); [lia|].
    destruct (IH (k + 1)) as (l' & -> & Hl'); [lia..|].
    exists (l ++ l'). split; [done|]. intros P. unfold has_port in *.
    rewrite Exists_app, Hl, Hl', port_of_range by lia. lia.
Qed.
End Ports.

(** C23. For every offset and PSID length that fit 16 bits, a port is in one of the
    ranges printed for a PSID exactly if it may be used at all and the bits behind
    its first [offset] are that PSID. *)
Theorem port_sets_exact off plen s :
  0 <= off -> 0 < plen -> off + plen <= 16 -> 0 <= s < 2 ^ plen ->
  exists l, port_sets off plen (s * 2 ^ (16 - plen)) = Some l /\
    forall P, has_port l P <-> port_usable off P /\ port_psid off plen P = s.
Proof.
  intros Ho Hp Hsum Hs. unfold port_sets.
  assert (0 < 2 ^ off) by (apply Z.pow_pos_nonneg; lia).
  set (first := if off =? 0 then 0 else 1).
  assert (first = 0 /\ off = 0 \/ first = 1 /\ 0 < off) as Hf
    by (unfold first; destruct (Z.eqb_spec off 0); lia).
  assert (off = 0 \/ 2 <= 2 ^ off) as Ho2
    by (destruct (decide (off = 0)); [by left|right; change 2 with (2 ^ 1) at 1; apply Z.pow_le_mono_r; lia]).
  destruct (port_ranges_spec off plen s Ho Hp Hsum Hs (Z.to_nat (2 ^ off - first)) first)
    as (l & E & Hl); [lia..|].
  exists l. split; [done|]. intros P. rewrite Hl. unfold port_usable.
  assert (65536 = 2 ^ off * 2 ^ (16 - off)) as E16 by (apply pow16; lia).
  assert (0 < 2 ^ (16 - off)) by (apply Z.pow_pos_nonneg; lia).
  assert (first <= P / 2 ^ (16 - off) <-> first * 2 ^ (16 - off) <= P) as Hlow.
  { split; intros H'; [|by apply Z.div_le_lower_bound; lia].
    pose proof (Z.mul_div_le P (2 ^ (16 - off))). nia. }
  assert (P / 2 ^ (16 - off) < 2 ^ off <-> P < 65536) as Hhigh.
  { rewrite E16. split; intros H'; [|apply Z.div_lt_upper_bound; lia].
    pose proof (Z.mul_succ_div_gt P (2 ^ (16 - off))). nia. }
  rewrite Z2Nat.id by lia. replace (first + (2 ^ off - first)) with (2 ^ off) by lia.
  rewrite Hlow, Hhigh. destruct Hf as [[-> ->]|[-> ?]]; lia.
Qed.

Lemma port_sets_exact_witness :
  exists l, port_sets 6 8 (52 * 2 ^ (16 - 8)) = Some l /\
    forall P, has_port l P <-> port_usable 6 P /\ port_psid 6 8 P = 52.
Proof. apply (port_sets_exact 6 8 52); lia. Defined.

(** The first of the 63 ranges of the example of RFC 7597. *)
Example port_sets_rfc :
  option_map (fun l => (length l, take 2 l)) (port_sets 6 8 (52 * 2 ^ 8)) =
    Some (63%nat, [(1232, 1235); (2256, 2259)]).
Proof. by vm_compute. Qed.

(** ** Rules *)

(** What the parser and [rule_lengths] ensure of a rule that was not skipped. *)
Record rule_wf (r : rule) : Prop := {
  wf_ipv4prefix : bytes_ok (ipv4prefix r) /\ length (ipv4prefix r) = 4%nat;
  wf_pd : bytes_ok (pd r) /\ length (pd r) = 16%nat;
  wf_prefix4len : prefix4len r <= 32;
  wf_pdlen : pdlen r <= 128;
  wf_psidlen : 0 <= psidlen r;
  wf_ok : rule_ok r = true
}.

Lemma rule_wf_bounds r :
  rule_wf r ->
  0 <= prefix4len r <= 32 /\ 0 <= prefix6len r /\ 0 <= psidlen r <= 16 /\ psidlen r <= ealen r.
Proof.
  intros [_ _ H4 _ Hp Hok]. unfold rule_ok in Hok.
  rewrite negb_true_iff, !orb_false_iff, !Z.ltb_ge in Hok. lia.
Qed.

(** The PSID in the delegated prefix, and the suffix of the IPv4 address. *)
Definition pd_psid (r : rule) : Z := field (pd r) (prefix6len r + ealen r - psidlen r) (psidlen r).
Definition pd_suffix (r : rule) : Z := field (pd r) (prefix6len r) (ealen r - psidlen r).

(** The bits that are read lie in the prefix. *)
Definition ea_in_pd (r : rule) : Prop := prefix6len r + ealen r < 128.

(** ** The PSID *)

Lemma bit_at_zeros n i : bit_at (replicate n 0) i = false.
Proof.
  unfold bit_at. destruct (replicate n 0 !! Z.to_nat (i / 8)) as [x|] eqn:E; [|by apply Z.testbit_0_l].
  apply lookup_replicate in E as [-> _]. apply Z.testbit_0_l.
Qed.

(** The PSID at the upper end of 16 bits. *)
Lemma psid_high n x : 0 <= n <= 16 -> 0 <= x < 2 ^ n -> 0 <= x * 2 ^ (16 - n) < 65536.
Proof.
  intros Hn Hx. change 65536 with (2 ^ 16). assert (2 ^ 16 = 2 ^ n * 2 ^ (16 - n)) as ->
    by (rewrite <- Z.pow_add_r by lia; f_equal; lia).
  assert (0 < 2 ^ (16 - n)) by (apply Z.pow_pos_nonneg; lia). nia.
Qed.

Lemma psid_bytes b n x :
  bytes_ok b -> length b = 2%nat -> 0 <= n <= 16 -> 0 <= x < 2 ^ n ->
  (forall i, 0 <= i < 16 -> bit_at b i = if i <? n then Z.testbit x (n - 1 - i) else false) ->
  b = be_bytes 2 (x * 2 ^ (16 - n)).
Proof.
  intros Hb Hl Hn Hx H. apply bits_ext; rewrite ?be_bytes_length; [done|apply be_bytes_ok|done|].
  rewrite Hl. intros i Hi. rewrite H, be_bytes_bit, Z.mul_pow2_bits by lia.
  destruct (Z.ltb_spec i n); [f_equal; lia|]. by rewrite Z.testbit_neg_r by lia.
Qed.

(** The bits of the delegated prefix that make the PSID. *)
Lemma read_psid r :
  rule_wf r -> ea_in_pd r ->
  bmemcpys64 [0; 0] (pd r) (prefix6len r + ealen r - psidlen r) (psidlen r) =
    Some (be_bytes 2 (pd_psid r * 2 ^ (16 - psidlen r))).
Proof.
  intros Hwf Hea. destruct (rule_wf_bounds r Hwf) as (H4 & H6 & Hp & He).
  destruct (wf_pd r Hwf) as [Hok Hlen]. unfold ea_in_pd in Hea. unfold pd_psid.
  set (from := prefix6len r + ealen r - psidlen r).
  destruct (bmemcpys64_spec [0; 0] (pd r) from (psidlen r)) as (b & Eb & Hb & Hlb & Hbits).
  { exact (zeros_ok 2). } { done. }
  { unfold copy_in_bounds. rewrite Hlen. cbn [length]. pose proof (Z.mod_pos_bound from 8).
    repeat split; try lia. apply Z.div_lt_upper_bound; lia. }
  rewrite Eb. f_equal. apply psid_bytes; [done|done|done|apply field_range; lia|].
  intros i Hi. rewrite Hbits by lia. destruct (Z.ltb_spec i (psidlen r)).
  - rewrite field_bit by (done || lia). f_equal. lia.
  - exact (bit_at_zeros 2 i).
Qed.

Lemma rule_psid_spec r :
  rule_wf r -> psid r < 0 -> 0 <= pdlen r -> ea_in_pd r ->
  rule_psid r = Some (pd_psid r * 2 ^ (16 - psidlen r), be_bytes 2 (pd_psid r)).
Proof.
  intros Hwf Hps Hpd Hea. destruct (rule_wf_bounds r Hwf) as (_ & _ & Hp & _). unfold rule_psid.
  destruct (Z.ltb_spec (psid r) 0), (Z.leb_spec 0 (psidlen r)), (Z.leb_spec 0 (pdlen r)); try lia.
  cbn [andb]. rewrite read_psid by done. cbv beta iota delta [mbind option_bind].
  assert (0 <= pd_psid r < 2 ^ psidlen r) as Hx by (apply field_range; lia).
  pose proof (psid_high (psidlen r) (pd_psid r) Hp Hx) as Hhigh.
  rewrite be_val_bytes, Z.mod_small by exact Hhigh.
  destruct (Z.ltb_spec 0 (psidlen r)).
  - rewrite Z.shiftr_div_pow2, Z.div_mul, int_shl_small by lia. do 2 f_equal.
    exact (store_mod BE 2 (pd_psid r)).
  - assert (psidlen r = 0) as E0 by lia. rewrite E0 in *. by assert (pd_psid r = 0) as -> by lia.
Qed.

(** ** The IPv4 address *)

(** The rule's prefix, the suffix from the delegated prefix, and zeros. *)
Record embeds (r : rule) (a : list Z) : Prop := {
  embeds_bytes : bytes_ok a /\ length a = 4%nat;
  embeds_prefix : field a 0 (prefix4len r) = field (ipv4prefix r) 0 (prefix4len r);
  embeds_suffix : field a (prefix4len r) (ealen r - psidlen r) = pd_suffix r;
  embeds_rest : field a (prefix4len r + (ealen r - psidlen r))
                  (32 - prefix4len r - (ealen r - psidlen r)) = 0
}.

Lemma shifted_bit shr32 v k i :
  0 <= k <= 32 -> k <= i < 32 -> bit_at (be_bytes 4 (shr shr32 v k)) i = Z.testbit v (31 - i + k).
Proof.
  intros Hk Hi. unfold shr. destruct (Z.ltb_spec k 32); [|lia].
  rewrite be_bytes_bit, Z.shiftr_spec by lia. done.
Qed.

Lemma rule_ipv4_bits shr32 r :
  rule_wf r -> 0 <= pdlen r -> prefix6len r + (ealen r - psidlen r) < 128 ->
  ealen r - psidlen r <= 32 ->
  exists a, rule_ipv4 shr32 r = Some (a, Z.min 32 (prefix4len r + ealen r)) /\
    bytes_ok a /\ length a = 4%nat /\
    forall i, 0 <= i < 32 ->
      bit_at a i = if i <? prefix4len r then bit_at (ipv4prefix r) i
                   else if i - prefix4len r <? ealen r - psidlen r
                        then bit_at (pd r) (prefix6len r + (i - prefix4len r)) else false.
Proof.
  intros Hwf Hpd Hea Hn. destruct (rule_wf_bounds r Hwf) as (H4 & H6 & Hp & He).
  destruct (wf_pd r Hwf) as [Hok Hlen]. destruct (wf_ipv4prefix r Hwf) as [Hok4 Hlen4].
  unfold rule_ipv4. destruct (Z.leb_spec 0 (pdlen r)); [|lia]. rewrite orb_true_l.
  destruct (bmemcpys64_spec (replicate 4 0) (pd r) (prefix6len r) (ealen r - psidlen r))
    as (a & Ea & Ha & Hla & Hbits); [apply zeros_ok|done|..].
  { unfold copy_in_bounds. rewrite Hlen, length_replicate. pose proof (Z.mod_pos_bound (prefix6len r) 8).
    repeat split; try lia. apply Z.div_lt_upper_bound; lia. }
  rewrite length_replicate in Hla. rewrite Ea. cbv beta iota delta [mbind option_bind].
  set (h := be_bytes 4 (shr shr32 (be_val a) (prefix4len r))).
  assert (length h = 4%nat) as Hlh by apply be_bytes_length.
  destruct (bmemcpy_spec h (ipv4prefix r) (prefix4len r)) as (a' & Ea' & Ha' & Hla' & Hbits');
    rewrite ?Hlh, ?Hlen4; try done || lia; [apply be_bytes_ok|].
  rewrite Ea'. exists a'. split; [|split; [done|split; [by rewrite Hla'|]]].
  { do 2 f_equal. destruct (Z.ltb_spec (prefix4len r + ealen r) 32); lia. }
  intros i Hi. rewrite Hbits' by lia. destruct (Z.ltb_spec i (prefix4len r)); [done|].
  unfold h. rewrite shifted_bit by lia.
  replace (31 - i + prefix4len r) with (8 * Z.of_nat (length a) - 1 - (i - prefix4len r)) by lia.
  rewrite be_val_bit, Hbits by (done || lia). destruct (i - prefix4len r <? ealen r - psidlen r); [done|].
  apply (bit_at_zeros 4).
Qed.

Lemma rule_ipv4_spec shr32 r :
  rule_wf r -> 0 <= pdlen r -> ea_in_pd r -> prefix4len r + (ealen r - psidlen r) <= 32 ->
  exists a, rule_ipv4 shr32 r = Some (a, Z.min 32 (prefix4len r + ealen r)) /\ embeds r a.
Proof.
  intros Hwf Hpd Hea Hn. destruct (rule_wf_bounds r Hwf) as (H4 & H6 & Hp & He). unfold ea_in_pd in Hea.
  destruct (rule_ipv4_bits shr32 r) as (a & E & Ha & Hl & Hbits); [done|lia..|].
  destruct (wf_pd r Hwf) as [Hok Hlen]. destruct (wf_ipv4prefix r Hwf) as [Hok4 Hlen4].
  exists a. split; [done|]. split; [done|..].
  - apply field_eq; rewrite ?Hl, ?Hlen4; try done || lia. intros i Hi. rewrite Hbits by lia.
    by destruct (Z.ltb_spec (0 + i) (prefix4len r)); [|lia].
  - apply field_eq; rewrite ?Hl, ?Hlen; try done || lia. intros i Hi. rewrite Hbits by lia.
    destruct (Z.ltb_spec (prefix4len r + i) (prefix4len r)); [lia|].
    replace (prefix4len r + i - prefix4len r) with i by lia.
    by destruct (Z.ltb_spec i (ealen r - psidlen r)); [|lia].
  - apply field_intro; rewrite ?Hl; try done || lia. intros i Hi. rewrite Hbits, Z.testbit_0_l by lia.
    case_bool; lia || done.
Qed.

(** ** The IPv6 address *)

(** The interface identifier: RFC 7597, section 6, or the one of its drafts. *)
Definition interface_id (legacy : bool) (v4 psid16 : list Z) : list Z :=
  if legacy then [0] ++ v4 ++ psid16 ++ [0] else [0; 0] ++ v4 ++ psid16.

(** The delegated prefix, zeros up to 64 bits, and the interface identifier. *)
Record map_address (legacy : bool) (r : rule) (v4 psid16 a : list Z) : Prop := {
  map_bytes : bytes_ok a /\ length a = 16%nat;
  map_prefix : field a 0 (pdlen r) = field (pd r) 0 (pdlen r);
  map_subnet : field a (pdlen r) (64 - pdlen r) = 0;
  map_interface : drop 8 a = interface_id legacy v4 psid16
}.

Lemma interface_written legacy v4 psid16 :
  length v4 = 4%nat -> length psid16 = 2%nat ->
  let off := if legacy : bool then 9%nat else 10%nat in
  write (off + 4) psid16 (write off v4 (replicate 16 0)) =
    replicate 8 0 ++ interface_id legacy v4 psid16.
Proof.
  destruct v4 as [|? [|? [|? [|? []]]]]; try discriminate.
  destruct psid16 as [|? [|? []]]; try discriminate. intros _ _. by destruct legacy.
Qed.

Lemma interface_id_ok legacy v4 psid16 :
  bytes_ok v4 -> length v4 = 4%nat -> bytes_ok psid16 -> length psid16 = 2%nat ->
  bytes_ok (interface_id legacy v4 psid16) /\ length (interface_id legacy v4 psid16) = 8%nat.
Proof.
  intros Hv Hlv Hp Hlp. assert (bytes_ok [0]) as H0 by exact (zeros_ok 1).
  destruct legacy; unfold interface_id; rewrite !length_app, !Forall_app, Hlv, Hlp.
  - done.
  - split; [|done]. split; [exact (zeros_ok 2)|done].
Qed.

(** A prefix over an identifier behind 64 zeros. *)
Lemma prefix_over base p n :
  bytes_ok base -> length base = 16%nat -> bytes_ok p -> length p = 16%nat -> 0 <= n <= 64 ->
  (forall i, 0 <= i < 64 -> bit_at base i = false) ->
  exists a, bmemcpy base p n = Some a /\ bytes_ok a /\ length a = 16%nat /\
    field a 0 n = field p 0 n /\ field a n (64 - n) = 0 /\ drop 8 a = drop 8 base.
Proof.
  intros Hb Hlb Hp Hlp Hn Hz.
  destruct (bmemcpy_spec base p n Hb Hp) as (a & Ea & Ha & Hla & Hbits);
    rewrite ?Hlb, ?Hlp; [lia..|]. rewrite Hlb in Hla.
  exists a. do 3 (split; [done|]). split; [|split].
  - apply field_eq; rewrite ?Hla, ?Hlp; [lia..|done|done|]. intros i Hi. rewrite Hbits by lia.
    by destruct (Z.ltb_spec (0 + i) n); [|lia].
  - apply field_intro; rewrite ?Hla; [lia..|done|lia|]. intros i Hi. rewrite Hbits, Z.testbit_0_l by lia.
    destruct (Z.ltb_spec (n + (64 - n - 1 - i)) n); [lia|]. apply Hz. lia.
  - apply bits_ext; rewrite ?length_drop, ?Hla, ?Hlb; [by apply Forall_drop..|done|].
    intros i Hi. rewrite <- !bit_at_shift, Hbits by lia.
    by destruct (Z.ltb_spec (8 * Z.of_nat 8 + i) n); [lia|].
Qed.

Lemma rule_ipv6_spec legacy r v4 psid16 :
  rule_wf r -> 0 <= pdlen r <= 64 ->
  bytes_ok v4 -> length v4 = 4%nat -> bytes_ok psid16 -> length psid16 = 2%nat ->
  exists a, rule_ipv6 legacy r v4 psid16 = Some a /\ map_address legacy r v4 psid16 a.
Proof.
  intros Hwf Hpd Hv4 Hl4 Hps Hlp. destruct (wf_pd r Hwf) as [Hok Hlen].
  destruct (interface_id_ok legacy v4 psid16 Hv4 Hl4 Hps Hlp) as [Hi Hli].
  unfold rule_ipv6. rewrite (interface_written legacy v4 psid16 Hl4 Hlp).
  destruct (prefix_over (replicate 8 0 ++ interface_id legacy v4 psid16) (pd r) (pdlen r))
    as (a & Ea & Ha & Hla & Hf & Hs & Hd).
  { apply Forall_app; split; [apply zeros_ok|done]. }
  { by rewrite length_app, length_replicate, Hli. }
  { done. } { done. } { done. }
  { intros i Hi'. rewrite bit_at_app_l by (rewrite length_replicate; lia). apply bit_at_zeros. }
  exists a. split; [done|]. by split.
Qed.

(** ** Bounds *)

Lemma rule_psid_undefined r :
  rule_wf r -> psid r < 0 -> 0 <= pdlen r -> 128 <= prefix6len r + ealen r -> rule_psid r = None.
Proof.
  intros Hwf Hps Hpd Hea. destruct (rule_wf_bounds r Hwf) as (_ & H6 & Hp & He).
  destruct (wf_pd r Hwf) as [_ Hlen]. unfold rule_psid.
  destruct (Z.ltb_spec (psid r) 0), (Z.leb_spec 0 (psidlen r)), (Z.leb_spec 0 (pdlen r)); try lia.
  cbn [andb]. rewrite bmemcpys64_undefined; [done|lia|lia|]. left. rewrite Hlen.
  apply Z.div_le_lower_bound; lia.
Qed.

Lemma rule_ipv4_undefined shr32 r :
  rule_wf r -> 0 <= pdlen r ->
  128 <= prefix6len r + (ealen r - psidlen r) \/ 32 < ealen r - psidlen r ->
  rule_ipv4 shr32 r = None.
Proof.
  intros Hwf Hpd H. destruct (rule_wf_bounds r Hwf) as (_ & H6 & Hp & He).
  destruct (wf_pd r Hwf) as [_ Hlen]. unfold rule_ipv4. destruct (Z.leb_spec 0 (pdlen r)); [|lia].
  rewrite orb_true_l, bmemcpys64_undefined; [done|lia|lia|]. rewrite Hlen, length_replicate.
  destruct H; [left; apply Z.div_le_lower_bound|right]; lia.
Qed.

(** ** Properties *)

(** C28. For a rule whose delegated prefix has the embedded address bits, the PSID and
    the suffix of the IPv4 address are those bits, in this order of significance:
    the IPv4 address is the rule's prefix, the suffix and zeros, the IPv6 address is
    the delegated prefix with the interface identifier of RFC 7597 (or of its drafts),
    and nothing depends on what a shift by 32 gives. *)
Theorem rule_addresses legacy shr32 r :
  rule_wf r -> psid r < 0 -> 0 <= pdlen r <= 64 -> ea_in_pd r ->
  prefix4len r + (ealen r - psidlen r) <= 32 ->
  exists v4 v6,
    rule_psid r = Some (pd_psid r * 2 ^ (16 - psidlen r), be_bytes 2 (pd_psid r)) /\
    rule_ipv4 shr32 r = Some (v4, Z.min 32 (prefix4len r + ealen r)) /\
    rule_ipv6 legacy r v4 (be_bytes 2 (pd_psid r)) = Some v6 /\
    field (pd r) (prefix6len r) (ealen r) = pd_suffix r * 2 ^ psidlen r + pd_psid r /\
    embeds r v4 /\ map_address legacy r v4 (be_bytes 2 (pd_psid r)) v6.
Proof.
  intros Hwf Hps Hpd Hea Hn. destruct (rule_wf_bounds r Hwf) as (H4 & H6 & Hp & He).
  destruct (rule_ipv4_spec shr32 r) as (v4 & E4 & Hv4); [done|lia|done|done|].
  destruct (embeds_bytes r v4 Hv4) as [Hb Hl].
  destruct (rule_ipv6_spec legacy r v4 (be_bytes 2 (pd_psid r))) as (v6 & E6 & Hv6);
    [done|done|done|done|apply be_bytes_ok|apply be_bytes_length|].
  exists v4, v6. split; [apply rule_psid_spec; done || lia|]. do 2 (split; [done|]).
  split; [|done]. unfold ea_in_pd in Hea. destruct (wf_pd r Hwf) as [_ Hlen].
  pose proof (field_app (pd r) (prefix6len r) (ealen r - psidlen r) (psidlen r)
                ltac:(lia) ltac:(lia) ltac:(lia) ltac:(lia)) as E.
  unfold pd_suffix, pd_psid. rewrite Z.sub_add in E. rewrite E. do 2 f_equal. lia.
Qed.

(** The bounds of the two copies from the delegated prefix: the PSID is read inside
    the 16 bytes exactly if the embedded address bits end before bit 128, and the
    suffix of the IPv4 address is copied inside its source and its 4 bytes exactly if
    it ends before bit 128 and has at most 32 bits. The command checks neither. *)
Theorem rule_copies_in_bounds shr32 r :
  rule_wf r -> psid r < 0 -> 0 <= pdlen r ->
  (rule_psid r <> None <-> ea_in_pd r) /\
  (rule_ipv4 shr32 r <> None <->
     prefix6len r + (ealen r - psidlen r) < 128 /\ ealen r - psidlen r <= 32).
Proof.
  intros Hwf Hps Hpd. unfold ea_in_pd. split; split.
  - intros H. destruct (Z.ltb_spec (prefix6len r + ealen r) 128); [done|].
    destruct H. by apply rule_psid_undefined.
  - intros H. by rewrite rule_psid_spec.
  - intros H. destruct (Z.ltb_spec (prefix6len r + (ealen r - psidlen r)) 128), (Z.leb_spec (ealen r - psidlen r) 32);
      try lia; destruct H; apply rule_ipv4_undefined; done || lia.
  - intros [H1 H2]. by destruct (rule_ipv4_bits shr32 r Hwf Hpd H1 H2) as (a & -> & _).
Qed.

(** The rule of the example of RFC 7597 (Appendix A, Example 1). *)
Definition rfc_rule : rule :=
  Rule false false 16 24 40 56 [192; 0; 2; 0] [32; 1; 13; 184; 0; 0; 0; 0; 0; 0; 0; 0; 0; 0; 0; 0]
    [32; 1; 13; 184; 0; 18; 52; 0; 0; 0; 0; 0; 0; 0; 0; 0] 6 8 (-1) None None.

Lemma rfc_rule_wf : rule_wf rfc_rule.
Proof.
  split; cbn; try lia; try done; (split; [|done]); repeat constructor; done.
Qed.

Lemma rule_addresses_witness :
  (exists v4 v6,
    rule_psid rfc_rule = Some (52 * 2 ^ 8, [0; 52]) /\
    rule_ipv4 (fun x => x) rfc_rule = Some (v4, 32) /\
    rule_ipv6 false rfc_rule v4 [0; 52] = Some v6 /\
    field (pd rfc_rule) 40 16 = 18 * 2 ^ 8 + 52 /\
    embeds rfc_rule v4 /\ map_address false rfc_rule v4 [0; 52] v6) /\
  rule_ipv4 (fun x => x) rfc_rule = Some ([192; 0; 2; 18], 32) /\
  rule_ipv6 false rfc_rule [192; 0; 2; 18] [0; 52] =
    Some [32; 1; 13; 184; 0; 18; 52; 0; 0; 0; 192; 0; 2; 18; 0; 52].
Proof.
  split; [|by vm_compute].
  apply (rule_addresses false (fun x => x) rfc_rule rfc_rule_wf); cbn; unfold ea_in_pd; cbn; lia.
Defined.

(** A rule that writes 47 bits to the 4 bytes of [ipv4addr]. *)
Definition long_rule : rule :=
  Rule false false 48 0 16 64 [0; 0; 0; 0] [32; 1; 13; 184; 0; 0; 0; 0; 0; 0; 0; 0; 0; 0; 0; 0]
    [32; 1; 13; 184; 0; 18; 52; 0; 0; 0; 0; 0; 0; 0; 0; 0] 6 1 (-1) None None.

Lemma rule_copies_in_bounds_witness :
  rule_ok long_rule = true /\ ealen long_rule - psidlen long_rule = 47 /\
  (rule_psid long_rule <> None <-> ea_in_pd long_rule) /\
  (rule_ipv4 (fun x => x) long_rule <> None <-> 16 + 47 < 128 /\ 47 <= 32).
Proof.
  split; [done|]. split; [done|]. apply (rule_copies_in_bounds (fun x => x) long_rule); [|done|done].
  split; cbn; try lia; try done; (split; [|done]); repeat constructor; done.
Defined.
