(* ===== verification/MapcalcRules.v ===== *)
(** * The rules of the MAP address calculator

    Parsing the options of a rule, finding the delegated prefix among those [ubus]
    reports, and what the command counts and returns. *)

From Stdlib Require Import ZArith Lia String Ascii.
From stdpp Require Import base list strings numbers option.
From S2P Require Import Prelude Bits.
From S2P Require Import CString Mapcalc MapcalcFacts MapcalcProofs.

(** The addresses [inet_pton] returns have the size of their family. *)
Class InetLaws `{Inet} : Prop := {
  pton4_ok : forall s l, inet_pton4 s = Some l -> bytes_ok l /\ length l = 4%nat;
  pton6_ok : forall s l, inet_pton6 s = Some l -> bytes_ok l /\ length l = 16%nat
}.

Section Rules.
Context `{InetLaws}.

(** ** The delegated prefix *)

Definition is_addr (l : list Z) : Prop := bytes_ok l /\ length l = 16%nat.

(** The length and the address of an element that has both. *)
Definition offered (d : prefix_attr) : option (Z * list Z) :=
  text ← address_text d; m ← mask_value d;
  Some (s32 m, default (replicate 16 0) (inet_pton6 text)).

Lemma offered_addr d m p : offered d = Some (m, p) -> is_addr p.
Proof.
  unfold offered. destruct (address_text d) as [t|]; [|done]. destruct (mask_value d); [|done].
  intros [= _ <-]. destruct (inet_pton6 t) as [l|] eqn:E; [by apply (pton6_ok t)|].
  split; [exact (zeros_ok 16)|done].
Qed.

(** A prefix that a rule accepts. *)
Definition fits (ipv6prefix : list Z) (prefix6len : Z) (d : prefix_attr) (m : Z) (p : list Z) : Prop :=
  offered d = Some (m, p) /\ prefix6len <= m /\ agree p ipv6prefix prefix6len.

(** One round, for a rule that is not lw4over6. *)
Lemma match_one_cases ipv6prefix prefix6len l pd d :
  is_addr ipv6prefix -> 0 <= prefix6len <= 128 -> is_addr pd ->
  (forall m p, offered d = Some (m, p) -> m <= 128) ->
  (exists m p pd', fits ipv6prefix prefix6len d m p /\ l < m /\
     match_one ipv6prefix prefix6len false (l, pd) d = Some (m, pd') /\ is_addr pd' /\
     forall i, 0 <= i -> bit_at pd' i = if i <? m then bit_at p i else bit_at pd i) \/
  ((forall m p, fits ipv6prefix prefix6len d m p -> m <= l) /\
   match_one ipv6prefix prefix6len false (l, pd) d = Some (l, pd)).
Proof.
  intros [Hpo Hpl] Hlen [Hdo Hdl] Hmask. unfold match_one, fits.
  pose proof (offered_addr d) as Haddr. unfold offered in *.
  destruct (address_text d) as [t|]; [|right; split; [by intros ? ? [? _]|done]].
  destruct (mask_value d) as [m|]; [|right; split; [by intros ? ? [? _]|done]].
  cbv beta iota delta [mbind option_bind] in *. rewrite andb_false_l.
  set (p := default (replicate 16 0) (inet_pton6 t)) in *.
  destruct (Haddr (s32 m) p eq_refl) as [Hp Hplen]. specialize (Hmask (s32 m) p eq_refl).
  destruct (bmemcmp_spec p ipv6prefix prefix6len) as (r & Er & Hr); rewrite ?Hplen, ?Hpl; [done|done|lia..|].
  assert (forall z q, Some (s32 m, p) = Some (z, q) -> z = s32 m /\ q = p) as Hinj by (by intros ? ? [= <- <-]).
  destruct (Z.ltb_spec l (s32 m)), (Z.leb_spec prefix6len (s32 m)); cbn [andb];
    [|right; (split; [|done]); intros z q (E & ? & ?); apply Hinj in E as [-> ->]; lia..].
  rewrite Er. cbn [fmap option_fmap option_map]. destruct (Z.eqb_spec r 0) as [Ez|Ez]; [left|right].
  - destruct (bmemcpy_spec pd p (s32 m)) as (pd' & -> & Hd' & Hdl' & Hbits);
      rewrite ?Hplen, ?Hdl; [done|done|lia..|].
    exists (s32 m), p, pd'. split; [split; [done|split; [done|by apply Hr]]|].
    do 2 (split; [done|]). split; [split; [done|lia]|done].
  - split; [|done]. intros z q (E & ? & Ha). apply Hinj in E as [-> ->]. by apply Hr in Ha.
Qed.

Lemma match_loop_longest ipv6prefix prefix6len cur l pd :
  is_addr ipv6prefix -> 0 <= prefix6len <= 128 -> is_addr pd ->
  (forall d m p, d ∈ cur -> offered d = Some (m, p) -> m <= 128) ->
  exists l' pd', match_loop ipv6prefix prefix6len false cur (l, pd) = Some (l', pd') /\
    is_addr pd' /\ l <= l' /\
    (forall d m p, d ∈ cur -> fits ipv6prefix prefix6len d m p -> m <= l') /\
    (l' = l /\ pd' = pd \/
     exists d p, d ∈ cur /\ fits ipv6prefix prefix6len d l' p /\
       forall i, 0 <= i -> bit_at pd' i = if i <? l' then bit_at p i else bit_at pd i).
Proof.
  intros Hp6 Hlen. revert l pd. induction cur as [|d cur IH]; intros l pd Hpd Hmask; cbn [match_loop].
  - exists l, pd. split; [done|]. split; [done|]. split; [lia|]. split; [|by left].
    intros d m p Hd. by apply elem_of_nil in Hd.
  - assert (forall d' m p, d' ∈ cur -> offered d' = Some (m, p) -> m <= 128) as Hmask'
      by (intros ? ? ? Hd; apply Hmask; by right).
    destruct (match_one_cases ipv6prefix prefix6len l pd d Hp6 Hlen Hpd)
      as [(m & p & pd1 & Hfit & Hlm & -> & Hpd1 & Hbits)|[Hno ->]];
      [intros m p; apply Hmask; by left|..]; cbv beta iota delta [mbind option_bind].
    + destruct (IH m pd1 Hpd1 Hmask') as (l' & pd' & -> & Hpd' & Hle & Hall & Hres).
      exists l', pd'. split; [done|]. split; [done|]. split; [lia|]. split.
      * intros d' m' p' [->|Hin]%elem_of_cons Hf; [|by apply (Hall d' m' p')].
        destruct Hf as (E & _), Hfit as (E' & _). rewrite E in E'. injection E' as -> _. lia.
      * right. destruct Hres as [[-> ->]|(d' & p' & Hin & Hf & Hb)]; [by exists d, p; split; [left|]|].
        exists d', p'. split; [by right|]. split; [done|]. intros i Hi. rewrite Hb, Hbits by done.
        by destruct (Z.ltb_spec i l'), (Z.ltb_spec i m); try lia.
    + destruct (IH l pd Hpd Hmask') as (l' & pd' & -> & Hpd' & Hle & Hall & Hres).
      exists l', pd'. split; [done|]. split; [done|]. split; [done|]. split.
      * intros d' m' p' [->|Hin]%elem_of_cons Hf; [|by apply (Hall d' m' p')].
        specialize (Hno m' p' Hf). lia.
      * destruct Hres as [?|(d' & p' & Hin & Hf)]; [by left|right; exists d', p'; by split; [right|]].
Qed.

(** The interfaces the command was asked for, and the prefixes they have. *)
Definition selected (name : string) (c : iface_attr) (i : string) : Prop :=
  interface c = Some i /\ (name = "*"%string \/ name = i).

Definition prefixes (c : iface_attr) : list prefix_attr := default [] (ipv6_prefix c).

Definition no_fit (ipv6prefix : list Z) (prefix6len : Z) (c : iface_attr) : Prop :=
  forall d m p, d ∈ prefixes c -> ~ fits ipv6prefix prefix6len d m p.

(** [pd'] is the longest of the fitting prefixes of [c], over what [pd] has behind it. *)
Definition longest_fit (ipv6prefix : list Z) (prefix6len : Z) (c : iface_attr) (pd : list Z)
    (l : Z) (pd' : list Z) : Prop :=
  (forall d m p, d ∈ prefixes c -> fits ipv6prefix prefix6len d m p -> m <= l) /\
  exists d p, d ∈ prefixes c /\ fits ipv6prefix prefix6len d l p /\
    forall i, 0 <= i -> bit_at pd' i = if i <? l then bit_at p i else bit_at pd i.

Lemma match_iface ipv6prefix prefix6len c pd :
  is_addr ipv6prefix -> 0 <= prefix6len <= 128 -> is_addr pd ->
  (forall d m p, d ∈ prefixes c -> offered d = Some (m, p) -> m <= 128) ->
  exists l pd', match_prefix (-1, pd) (ipv6_prefix c) ipv6prefix prefix6len false = Some (l, pd') /\
    (l = -1 /\ pd' = pd /\ no_fit ipv6prefix prefix6len c \/
     0 <= l /\ longest_fit ipv6prefix prefix6len c pd l pd').
Proof.
  intros Hp6 Hlen Hpd Hmask. unfold no_fit, longest_fit. unfold prefixes in *.
  destruct (ipv6_prefix c) as [cur|]; cbn [default match_prefix] in *.
  - destruct (match_loop_longest ipv6prefix prefix6len cur (-1) pd Hp6 Hlen Hpd Hmask)
      as (l & pd' & -> & _ & Hle & Hall & Hres).
    exists l, pd'. split; [done|]. destruct Hres as [[-> ->]|(d & p & Hin & Hf & Hb)].
    + left. do 2 (split; [done|]). intros d m p Hin Hf. specialize (Hall d m p Hin Hf).
      destruct Hf as (_ & ? & _). lia.
    + right. split; [destruct Hf as (_ & ? & _); lia|]. split; [done|]. by exists d, p.
  - exists (-1), pd. split; [done|]. left. do 2 (split; [done|]). intros d m p Hd.
    by apply elem_of_nil in Hd.
Qed.

Lemma selected_test name i :
  bool_decide (name = "*"%string) || bool_decide (name = i) = true <-> name = "*"%string \/ name = i.
Proof. by rewrite orb_true_iff, !bool_decide_eq_true. Qed.

(** One interface of the search. *)
Lemma find_pd_step name r c dump :
  lw4o6 r = false -> is_addr (ipv6prefix r) -> 0 <= prefix6len r <= 128 -> is_addr (pd r) ->
  (forall d m p, d ∈ prefixes c -> offered d = Some (m, p) -> m <= 128) ->
  (exists i l pd', selected name c i /\ 0 <= l /\
     longest_fit (ipv6prefix r) (prefix6len r) c (pd r) l pd' /\
     find_pd name r (c :: dump) (-1, pd r) = Some (l, pd', Some i)) \/
  ((forall i, selected name c i -> no_fit (ipv6prefix r) (prefix6len r) c) /\
   find_pd name r (c :: dump) (-1, pd r) = find_pd name r dump (-1, pd r)).
Proof.
  intros Hlw Hp6 Hlen Hpd Hmask.
  destruct (match_iface (ipv6prefix r) (prefix6len r) c (pd r) Hp6 Hlen Hpd Hmask) as (l & pd' & Ec & Hc).
  cbn [find_pd]. rewrite Hlw, Ec. unfold selected. destruct (interface c) as [i|];
    [|right; split; [by intros i [? _]|done]].
  destruct (bool_decide (name = "*"%string) || bool_decide (name = i)) eqn:Eb.
  - cbv beta iota delta [mbind option_bind]. cbn [fst].
    destruct Hc as [(-> & -> & Hno)|[Hl Hlong]]; [by right|left].
    exists i, l, pd'. rewrite selected_test in Eb. do 3 (split; [done|]).
    by destruct (Z.leb_spec 0 l); [|lia].
  - right. split; [|done]. intros i' [[= <-] Hn]. apply selected_test in Hn. by rewrite Eb in Hn.
Qed.
End Rules.

(** The search for the delegated prefix of a rule that is not lw4over6 takes the
    first of the interfaces it was asked for that has a prefix the rule accepts (one
    at least as long as the rule's IPv6 prefix that starts with it), and of its
    prefixes the longest that the rule accepts. *)
Theorem find_pd_longest `{InetLaws} name r dump :
  lw4o6 r = false -> is_addr (ipv6prefix r) -> 0 <= prefix6len r <= 128 -> is_addr (pd r) ->
  (forall c d m p, c ∈ dump -> d ∈ prefixes c -> offered d = Some (m, p) -> m <= 128) ->
  exists l pd' found, find_pd name r dump (-1, pd r) = Some (l, pd', found) /\
    match found with
    | None => l = -1 /\ pd' = pd r /\
        forall c i, c ∈ dump -> selected name c i -> no_fit (ipv6prefix r) (prefix6len r) c
    | Some i => 0 <= l /\ exists before c after, dump = before ++ c :: after /\ selected name c i /\
        (forall c' i', c' ∈ before -> selected name c' i' -> no_fit (ipv6prefix r) (prefix6len r) c') /\
        longest_fit (ipv6prefix r) (prefix6len r) c (pd r) l pd'
    end.
Proof.
  intros Hlw Hp6 Hlen Hpd. induction dump as [|c dump IH]; intros Hmask.
  - exists (-1), (pd r), None. split; [done|]. do 2 (split; [done|]). intros c i Hc. by apply elem_of_nil in Hc.
  - destruct IH as (l & pd' & found & E & Hres); [intros c' d m p Hc; apply (Hmask c'); by right|].
    destruct (find_pd_step name r c dump Hlw Hp6 Hlen Hpd)
      as [(i & lc & pdc & Hsel & Hlc & Hlong & Ec)|[Hno ->]]; [intros d m p; apply Hmask; by left|..].
    + exists lc, pdc, (Some i). split; [done|]. split; [done|]. exists [], c, dump.
      do 2 (split; [done|]). split; [|done]. intros c' i' Hc'. by apply elem_of_nil in Hc'.
    + exists l, pd', found. split; [done|]. destruct found as [i|].
      * destruct Hres as (Hl & before & c' & after & -> & Hsel & Hbefore & Hlong).
        split; [done|]. exists (c :: before), c', after. do 2 (split; [done|]). split; [|done].
        intros c1 i1 [->|Hin]%elem_of_cons; [apply Hno|by apply (Hbefore c1 i1)].
      * destruct Hres as (-> & -> & Hall). do 2 (split; [done|]).
        intros c1 i1 [->|Hin]%elem_of_cons; [apply Hno|by apply (Hall c1 i1)].
Qed.

(** ** A small set of addresses *)

(** [inet_pton] and [inet_ntop] on the addresses of the examples. *)
Definition demo_pton6 (s : string) : option (list Z) :=
  if bool_decide (s = "2001:db8::"%string) then Some ([32; 1; 13; 184] ++ replicate 12 0)
  else if bool_decide (s = "2001:db8:12:3400::"%string)
       then Some ([32; 1; 13; 184; 0; 18; 52] ++ replicate 9 0)
  else None.

#[local] Instance demo_inet : Inet := {|
  inet_pton4 s := if bool_decide (s = "192.0.2.0"%string) then Some [192; 0; 2; 0] else None;
  inet_ntop4 l := foldr (fun x s => print_u x +:+ "." +:+ s) EmptyString l;
  inet_pton6 := demo_pton6;
  inet_ntop6 l := foldr (fun x s => hex_fixed false 2 x +:+ s) EmptyString l
|}.

Lemma demo_laws : @InetLaws demo_inet.
Proof.
  split; cbn; intros s l.
  - case_bool_decide; [|done]. intros [= <-]. split; [repeat constructor; done|done].
  - unfold demo_pton6. repeat case_bool_decide; intros [= <-]; (split; [|done]);
      repeat constructor; done.
Qed.

Definition demo_dump : list iface_attr :=
  [IfaceAttr (Some "lan"%string) None None;
   IfaceAttr (Some "wan"%string)
     (Some [PrefixAttr (Some "2001:db8::"%string) (Some 48);
            PrefixAttr (Some "2001:db8:12:3400::"%string) (Some 56)]) None].

Definition demo_rule : rule :=
  Rule false true 16 24 40 (-1) [192; 0; 2; 0] ([32; 1; 13; 184] ++ replicate 12 0) (replicate 16 0)
    6 (-1) (-1) None None.

Lemma find_pd_longest_witness :
  exists l pd' found, find_pd "*" demo_rule demo_dump (-1, replicate 16 0) = Some (l, pd', found) /\
    match found with
    | None => l = -1 /\ pd' = replicate 16 0 /\
        forall c i, c ∈ demo_dump -> selected "*" c i -> no_fit (ipv6prefix demo_rule) 40 c
    | Some i => 0 <= l /\ exists before c after, demo_dump = before ++ c :: after /\ selected "*" c i /\
        (forall c' i', c' ∈ before -> selected "*" c' i' -> no_fit (ipv6prefix demo_rule) 40 c') /\
        longest_fit (ipv6prefix demo_rule) 40 c (replicate 16 0) l pd'
    end.
Proof.
  apply (@find_pd_longest demo_inet demo_laws "*" demo_rule demo_dump); cbn.
  - done.
  - split; [repeat constructor; done|done].
  - lia.
  - exact (conj (zeros_ok 16) eq_refl).
  - intros c d m p [->|[->|Hc%elem_of_nil]%elem_of_cons]%elem_of_cons; [| |done].
    + by intros Hd%elem_of_nil.
    + unfold prefixes, offered; cbn.
      by intros [->|[->|Hd%elem_of_nil]%elem_of_cons]%elem_of_cons; cbn; [intros [= <- _]..|].
Defined.

Example demo_search :
  option_map (fun x => (x.1.1, x.2)) (find_pd "*" demo_rule demo_dump (-1, replicate 16 0)) =
    Some (56, Some "wan"%string).
Proof. by vm_compute. Qed.
