(* ===== verification/MapcalcMain.v ===== *)
(** * The command of the MAP address calculator

    The parser of the rules terminates and gives rules within their bounds, a rule
    that is not skipped satisfies what the address calculation needs, and the exit
    status tells whether all rules were accepted. *)

From Stdlib Require Import ZArith Lia String Ascii.
From stdpp Require Import base list strings numbers option.
From S2P Require Import Prelude Bits.
From S2P Require Import CString Mapcalc MapcalcFacts MapcalcProofs MapcalcRules.

Lemma cut_length c s a b : cut c s = Some (a, b) -> (String.length b < String.length s)%nat.
Proof.
  revert a. induction s as [|x s IH]; intros a; cbn; [done|].
  destruct (ascii_dec x c); [intros [= _ ->]; lia|].
  destruct (cut c s) as [[a' b']|]; [|done]. intros [= _ ->]. specialize (IH a' eq_refl). lia.
Qed.

Lemma getsubopt_rest text :
  text <> EmptyString -> (String.length (getsubopt text).2 < String.length text)%nat.
Proof.
  intros Ht. unfold getsubopt. destruct (cut "," text) as [[sub rest]|] eqn:E; cbn [default].
  - apply cut_length in E.
    repeat case_match; simplify_eq/=; lia.
  - assert (0 < String.length text)%nat by (destruct text; cbn; [done|lia]).
    repeat case_match; simplify_eq/=; lia.
Qed.

(** An unknown option always comes with its text. *)
Lemma getsubopt_unknown text v rest : getsubopt text = (None, v, rest) -> v <> None.
Proof.
  unfold getsubopt. destruct (default _ _) as [sub r].
  intros E. repeat case_match; simplify_eq; done.
Qed.

Section Command.
Context (ulong : Z) (einval : bool) `{InetLaws}.

(** ** Bounds of the options *)

(** What the options leave in the variables of a rule. *)
Record rule_typed (r : rule) : Prop := {
  typed_ipv4prefix : bytes_ok (ipv4prefix r) /\ length (ipv4prefix r) = 4%nat;
  typed_ipv6prefix : is_addr (ipv6prefix r);
  typed_pd : is_addr (pd r);
  typed_ealen : ealen r <= 48;
  typed_prefix4len : prefix4len r <= 32;
  typed_prefix6len : prefix6len r <= 128;
  typed_pdlen : pdlen r <= 128;
  typed_offset : offset r <= 16;
  typed_psidlen : psidlen r <= 16;
  typed_psid : psid r <= 65535
}.

Lemma no_rule_typed : rule_typed no_rule.
Proof.
  split; cbn; try lia; (split; [|done]); [exact (zeros_ok 4)|exact (zeros_ok 16)|exact (zeros_ok 16)].
Qed.

Lemma number_option_le value max i : number_option ulong einval value max = Some (Some i) -> i <= max.
Proof.
  unfold number_option. destruct value as [v|]; [|done]. cbn. destruct (intval ulong einval v) as [j ok].
  destruct (Z.leb_spec j max), ok; by intros [= <-].
Qed.

Lemma set_option_typed r o value r' :
  rule_typed r -> set_option ulong einval r o value = Some (Some r') -> rule_typed r'.
Proof.
  intros [] E. destruct r as [lw fm ea p4 p6 pl a4 a6 p off plen ps dm b].
  cbn [ealen prefix4len prefix6len pdlen ipv4prefix ipv6prefix pd offset psidlen psid] in *.
  assert (forall max f, (i ← number_option ulong einval value max; Some (option_map f i)) = Some (Some r') ->
            exists i, i <= max /\ r' = f i) as Hnum.
  { intros max f En. destruct (number_option ulong einval value max) as [[i|]|] eqn:Ei; [|done..].
    injection En as <-. exists i. split; [by apply (number_option_le value)|done]. }
  assert (forall (pton : string -> option (list Z)) f,
            (v ← value; Some (option_map f (pton v))) = Some (Some r') ->
            exists v a, pton v = Some a /\ r' = f a) as Haddr.
  { intros pton f En. destruct value as [v|]; [|done]. cbn in En.
    destruct (pton v) as [a|] eqn:Ea; [|done]. injection En as <-. by exists v, a. }
  destruct o; cbn [set_option] in E;
    first [ apply Hnum in E as (i & Hi & ->)
          | apply Haddr in E as (v & a & Ha & ->);
            first [apply pton4_ok in Ha|apply pton6_ok in Ha]
          | injection E as <- ]; by constructor.
Qed.

Lemma skipped_ret o value w r w' : skipped o value w = Ret r w' -> stdout w' = stdout w.
Proof. destruct o, value; cbn; try done; intros [= _ <-]; done. Qed.

Lemma parse_rule_typed fuel text r w r' w' :
  rule_typed r -> parse_rule ulong einval fuel text r w = Ret r' w' -> rule_typed r'.
Proof.
  revert text r w. induction fuel as [|fuel IH]; intros text r w Hr; destruct text as [|c text];
    cbn [parse_rule]; [by intros [= <- _]|done|by intros [= <- _]|].
  destruct (getsubopt (String c text)) as [[o value] rest]. unfold mbind, prog_bind.
  destruct o as [o|].
  - unfold defined. destruct (set_option ulong einval r o value) as [[r1|]|] eqn:E; [| |done].
    + apply IH. by apply (set_option_typed r o value).
    + destruct (skipped (Some o) value w) as [? w1| |]; [by apply IH|done..].
  - destruct (skipped None value w) as [? w1| |]; [by apply IH|done..].
Qed.

(** ** Termination of the parser *)

(** The options whose value is used without a test. *)
Definition needs_value (o : option opt) : bool :=
  match o with
  | None | Some (OPT_TYPE | OPT_FMR | OPT_DMR | OPT_BR) => false
  | Some _ => true
  end.

Fixpoint options (fuel : nat) (text : string) : list (option opt * option string) :=
  match fuel, text with
  | _, EmptyString => []
  | O, _ => []
  | S fuel, _ => let '(o, v, rest) := getsubopt text in (o, v) :: options fuel rest
  end.

(** Every option that needs a value has one. *)
Definition valued (text : string) : bool :=
  forallb (fun ov => negb (needs_value ov.1) || bool_decide (is_Some ov.2))
    (options (String.length text) text).

Lemma options_fuel fuel text :
  (String.length text <= fuel)%nat -> options fuel text = options (String.length text) text.
Proof.
  assert (forall n m text, (String.length text <= n)%nat -> (String.length text <= m)%nat ->
            options n text = options m text) as Heq; [|by intros; apply Heq].
  intros n. induction n as [|n IH]; intros m t Hn Hm.
  - destruct t; [by destruct m|cbn in Hn; lia].
  - destruct t as [|c t]; [by destruct m|]. destruct m as [|m]; [cbn in Hm; lia|].
    cbn [options]. pose proof (getsubopt_rest (String c t) ltac:(done)) as Hrest.
    destruct (getsubopt (String c t)) as [[o v] rest]. cbn [snd] in Hrest. f_equal. apply IH; lia.
Qed.

Lemma set_option_defined r o value :
  negb (needs_value (Some o)) || bool_decide (is_Some value) = true ->
  set_option ulong einval r o value <> None /\
  (set_option ulong einval r o value = Some None -> value <> None).
Proof.
  intros Hv. destruct r, value as [v|].
  - destruct o; cbn; unfold number_option; cbn;
      try destruct (intval ulong einval v) as [i ok]; done.
  - destruct o; cbn in *; done.
Qed.

Lemma skipped_defined o value w : value <> None -> exists w', skipped o value w = Ret tt w'.
Proof. destruct value as [v|]; [|done]. intros _. destruct o; by eexists. Qed.

Lemma parse_rule_returns fuel text r w :
  (String.length text <= fuel)%nat ->
  forallb (fun ov => negb (needs_value ov.1) || bool_decide (is_Some ov.2)) (options fuel text) = true ->
  exists r' w', parse_rule ulong einval fuel text r w = Ret r' w'.
Proof.
  revert text r w. induction fuel as [|fuel IH]; intros text r w Hf; destruct text as [|c text];
    cbn [parse_rule options]; [by eexists _, _|cbn in Hf; lia|by eexists _, _|].
  pose proof (getsubopt_rest (String c text) ltac:(done)) as Hrest.
  destruct (getsubopt (String c text)) as [[o value] rest] eqn:Eg. cbn [snd] in Hrest.
  cbn [forallb fst snd]. intros [Hv Hall]%andb_true_iff. unfold mbind, prog_bind.
  assert (String.length rest <= fuel)%nat as Hle by lia. destruct o as [o|].
  - destruct (set_option_defined r o value Hv) as [Hd Hskip]. unfold defined.
    destruct (set_option ulong einval r o value) as [[r1|]|]; [by apply IH| |done].
    destruct (skipped_defined (Some o) value w (Hskip eq_refl)) as [w1 ->]. by apply IH.
  - destruct (skipped_defined None value w (getsubopt_unknown _ _ _ Eg)) as [w1 ->]. by apply IH.
Qed.

(** ** Bounds of a rule that is not skipped *)

Lemma bmemcpy_inv a b bits a' :
  bytes_ok a -> bytes_ok b -> bmemcpy a b bits = Some a' ->
  bits <= 8 * Z.of_nat (length b) /\ bytes_ok a' /\ length a' = length a.
Proof.
  intros Ha Hb E.
  destruct (Z.ltb_spec bits 0), (Z.ltb_spec (8 * Z.of_nat (length a)) bits),
    (Z.ltb_spec (8 * Z.of_nat (length b)) bits);
    try (rewrite bmemcpy_undefined in E by tauto; discriminate).
  destruct (bmemcpy_spec a b bits) as (a1 & E1 & ? & ? & _); [done|done|lia..|].
  rewrite E in E1. by injection E1 as ->.
Qed.

(** What the search keeps: a length of at most 128 and an address. *)
Definition st_ok (st : Z * list Z) : Prop := st.1 <= 128 /\ is_addr st.2.

Lemma match_one_ok ipv6prefix prefix6len lw st d st' :
  is_addr ipv6prefix -> prefix6len <= 128 -> st_ok st ->
  match_one ipv6prefix prefix6len lw st d = Some st' -> st_ok st'.
Proof.
  intros [Hp Hpl] H6 [Hl [Hd Hdl]]. destruct st as [l pd]. cbn [fst snd] in *. unfold match_one.
  pose proof (offered_addr d) as Ho. unfold offered in Ho.
  destruct (address_text d) as [t|]; [|by intros [= <-]].
  destruct (mask_value d) as [m|]; [|by intros [= <-]].
  cbv beta iota delta [mbind option_bind] in *. destruct (Ho _ _ eq_refl) as [Hq Hql].
  set (q := default (replicate 16 0) (inet_pton6 t)) in *.
  set (mask := if lw && (s32 m =? 128) then 64 else s32 m).
  destruct (if (l <? mask) && (prefix6len <=? mask)
            then (fun r => r =? 0) <$> bmemcmp q ipv6prefix prefix6len else Some false) as [[]|]; [| |done].
  - destruct (bmemcpy pd q mask) as [pd'|] eqn:E; [|done]. intros [= <-].
    apply bmemcpy_inv in E as (? & ? & ?); [|done..]. rewrite Hql in *. split; [done|]. split; [done|].
    cbn [snd]. lia.
  - destruct (if lw && (l <? prefix6len) && (mask <? prefix6len)
              then (fun r => r =? 0) <$> bmemcmp q ipv6prefix mask else Some false) as [[]|]; [|by intros [= <-]|done].
    destruct (bmemcpy pd ipv6prefix prefix6len) as [pd'|] eqn:E; [|done]. intros [= <-].
    apply bmemcpy_inv in E as (? & ? & ?); [|done..]. split; [done|]. split; [done|]. cbn [snd]. lia.
Qed.

Lemma match_prefix_ok ipv6prefix prefix6len lw st cur st' :
  is_addr ipv6prefix -> prefix6len <= 128 -> st_ok st ->
  match_prefix st cur ipv6prefix prefix6len lw = Some st' -> st_ok st'.
Proof.
  intros Hp H6. destruct cur as [cur|]; [|by intros ? [= <-]]. cbn [match_prefix].
  revert st. induction cur as [|d cur IH]; intros st Hst; cbn [match_loop]; [by intros [= <-]|].
  destruct (match_one ipv6prefix prefix6len lw st d) as [st1|] eqn:E; [|done]. apply IH.
  by apply (match_one_ok ipv6prefix prefix6len lw st d).
Qed.

Lemma find_pd_ok name r dump st st' found :
  is_addr (ipv6prefix r) -> prefix6len r <= 128 -> st_ok st ->
  find_pd name r dump st = Some (st', found) -> st_ok st'.
Proof.
  intros Hp H6. revert st. induction dump as [|c dump IH]; intros st Hst; cbn [find_pd];
    [by intros [= <- _]|].
  destruct (interface c) as [i|]; [|by apply IH].
  destruct (bool_decide (name = "*"%string) || bool_decide (name = i)); [|by apply IH].
  destruct (match_prefix st _ _ _ _) as [st1|] eqn:E1; [|done].
  pose proof (match_prefix_ok _ _ _ _ _ _ Hp H6 Hst E1) as Hst1. cbn [mbind option_bind].
  destruct (if lw4o6 r then _ else Some st1) as [st2|] eqn:E2; [|done].
  assert (st_ok st2) as Hst2.
  { destruct (lw4o6 r); [|by injection E2 as <-]. by apply (match_prefix_ok _ _ _ _ _ _ Hp H6 Hst1 E2). }
  cbn [mbind option_bind]. destruct (0 <=? st2.1); [by intros [= <- _]|by apply IH].
Qed.

Lemma defaults_typed legacy r :
  rule_typed r -> rule_typed (rule_defaults legacy r) /\ 0 <= offset (rule_defaults legacy r).
Proof.
  intros []. unfold rule_defaults. split; [split|]; cbn; try done.
  - destruct (lw4o6 r); [|done]. destruct (Z.ltb_spec (psidlen r) 0); cbn; lia.
  - destruct (Z.ltb_spec (offset r) 0); [destruct (lw4o6 r), legacy|]; done.
  - destruct (lw4o6 r && (psidlen r <? 0)); lia.
  - destruct (Z.ltb_spec (offset r) 0); [destruct (lw4o6 r), legacy|]; done.
Qed.

Lemma lengths_fields r r' :
  rule_lengths r = Some r' ->
  ipv4prefix r' = ipv4prefix r /\ pd r' = pd r /\ prefix4len r' = prefix4len r /\
  pdlen r' = pdlen r /\ offset r' = offset r /\ 0 <= psidlen r'.
Proof.
  unfold rule_lengths. destruct (if _ && _ then _ else _) as [ea|]; [|done].
  cbn [mbind option_bind]. destruct (Z.leb_spec (psidlen r) 0).
  - unfold int_sub. destruct (fits_int (32 - prefix4len r)); [|done]. cbn [mbind option_bind].
    destruct (fits_int _); [|done]. cbn [mbind option_bind]. intros [= <-]. cbn.
    do 5 (split; [done|]). case_bool; lia.
  - intros [= <-]. cbn. do 5 (split; [done|]). lia.
Qed.

Lemma search_ok name r dump len p found w w' :
  is_addr (ipv6prefix r) -> prefix6len r <= 128 -> pdlen r <= 128 -> is_addr (pd r) ->
  (if pdlen r <? 0 then defined (find_pd name r dump (pdlen r, pd r))
   else mret (pdlen r, pd r, None) : prog out _) w = Ret (len, p, found) w' ->
  len <= 128 /\ is_addr p.
Proof.
  intros H6 H6l Hpl Hpd. destruct (pdlen r <? 0); [|by intros [= <- <- _ _]].
  unfold defined. destruct (find_pd _ _ _ _) as [[st f]|] eqn:E; [|done]. intros [= -> _ _].
  exact (find_pd_ok _ _ _ (pdlen r, pd r) (len, p) _ H6 H6l (conj Hpl Hpd) E).
Qed.

Lemma prepare_rule_ok legacy dump name text iface r iface' w w' :
  prepare_rule ulong einval legacy dump name text iface w = Ret (r, iface') w' ->
  bytes_ok (ipv4prefix r) /\ length (ipv4prefix r) = 4%nat /\ is_addr (pd r) /\
  prefix4len r <= 32 /\ pdlen r <= 128 /\ 0 <= psidlen r /\ 0 <= offset r <= 16.
Proof.
  unfold prepare_rule, mbind, prog_bind.
  destruct (parse_rule _ _ _ _ _ w) as [r0 w0| |] eqn:E0; [|done..].
  apply parse_rule_typed in E0; [|apply no_rule_typed].
  destruct (defaults_typed legacy r0 E0) as [[H4 H6 Hpd _ H4l H6l Hpl Ho _ _] Hoff].
  set (r1 := rule_defaults legacy r0) in *.
  destruct ((if pdlen r1 <? 0 then defined (find_pd name r1 dump (pdlen r1, pd r1))
             else mret (pdlen r1, pd r1, None) : prog out _) w0) as [[[len p] found] w1| |] eqn:E1; [|done..].
  destruct (search_ok _ _ _ _ _ _ _ _ H6 H6l Hpl Hpd E1) as [Hlen Hp]. unfold defined.
  destruct (rule_lengths (with_pd r1 len p)) as [r2|] eqn:E2; [|done]. intros [= <- _ _].
  apply lengths_fields in E2 as (-> & -> & -> & -> & -> & ?). destruct H4. cbn. done.
Qed.

(** ** The count *)

Lemma process_rule_counts shr32 legacy dump name text st w st' w' :
  process_rule ulong einval shr32 legacy dump name text st w = Ret st' w' ->
  rulecnt st' = rulecnt st + 1 /\ status st' = status st \/
  rulecnt st' = rulecnt st /\ status st' = 1.
Proof.
  unfold process_rule, mbind, prog_bind.
  destruct (prepare_rule _ _ _ _ _ _ _ w) as [[r i] w0| |]; [|done..].
  destruct (negb (rule_ok r)); [by intros [= <- _]; right|].
  unfold defined at 1. destruct (rule_psid r) as [[ps psid16]|]; [|done].
  unfold defined at 1. destruct (rule_ipv4 shr32 (with_psid r ps)) as [[v4 len4]|]; [|done].
  destruct ((pdlen (with_psid r ps) <? 0) && negb (fmr (with_psid r ps))); [by intros [= <- _]; right|].
  destruct ((if 0 <=? pdlen (with_psid r ps) then defined (rule_ipv6 legacy (with_psid r ps) v4 psid16)
             else mret (replicate 16 0) : prog out _) w0) as [v6 w1| |]; [|done..].
  destruct (print_rule _ _ _ _ _ _ w1) as [? w2| |]; [|done..]. intros [= <- _]. by left.
Qed.

Lemma process_rules_counts shr32 legacy dump name rules st w st' w' :
  process_rules ulong einval shr32 legacy dump name rules st w = Ret st' w' ->
  status st = 0 \/ status st = 1 ->
  (status st' = 0 \/ status st' = 1) /\
  rulecnt st <= rulecnt st' <= rulecnt st + Z.of_nat (length rules) /\
  (status st' = 0 <-> status st = 0 /\ rulecnt st' = rulecnt st + Z.of_nat (length rules)).
Proof.
  revert st w. induction rules as [|text rules IH]; intros st w; cbn [process_rules length].
  - intros [= <- _] H1. split; [done|]. split; [lia|]. split; [intros; split; [done|lia]|by intros [? _]].
  - unfold mbind, prog_bind.
    destruct (process_rule _ _ _ _ _ _ _ st w) as [st1 w1| |] eqn:E; [|done..].
    intros E' Hs. apply process_rule_counts in E. apply IH in E'; [|lia].
    destruct E' as (Hs' & Hr & Hiff). split; [done|]. split; [lia|]. rewrite Hiff. lia.
Qed.
End Command.

(** ** Properties *)

(** The loop over the options of a rule ends: whenever every option that needs a
    value has one, the parser returns a rule, with any fuel of at least the length of
    the text. *)
Theorem parse_rule_terminates ulong einval `{InetLaws} fuel text r w :
  (String.length text <= fuel)%nat -> valued text = true ->
  exists r' w', parse_rule ulong einval fuel text r w = Ret r' w'.
Proof.
  intros Hf Hv. apply parse_rule_returns; [done|]. rewrite <- Hv. unfold valued. f_equal.
  by apply options_fuel.
Qed.

(** C33. Whatever the options and whatever [ubus] reports, a rule that passes the check
    has the sizes and lengths the address calculation relies on, and an offset of 0
    to 16. *)
Theorem prepared_rule_wf ulong einval `{InetLaws} legacy dump name text iface w :
  match prepare_rule ulong einval legacy dump name text iface w with
  | Ret (r, _) _ => rule_ok r = true -> rule_wf r /\ 0 <= offset r <= 16
  | _ => True
  end.
Proof.
  destruct (prepare_rule _ _ _ _ _ _ _ w) as [[r i] w'| |] eqn:E; [|done..].
  intros Hok. pose proof (prepare_rule_ok ulong einval _ _ _ _ _ _ _ _ _ E) as (? & ? & ? & ? & ? & ? & ?).
  split; [by constructor|done].
Qed.

(** When the command returns for a list of rules, the last line it printed is the
    number of the rules it accepted, and its status is 0 if it accepted all of them
    and 1 otherwise. *)
Theorem main_status ulong einval shr32 `{InetLaws} prog_name legacy_env dump name rules w code w' :
  rules <> [] ->
  main ulong einval shr32 prog_name legacy_env dump (name :: rules) w = Ret code w' ->
  exists n before, 0 <= n <= Z.of_nat (length rules) /\
    stdout w' = before +:+ "RULE_COUNT=" +:+ print_d n +:+ newline /\
    code = if n =? Z.of_nat (length rules) then 0 else 1.
Proof.
  intros Hne. destruct rules as [|rule rules]; [done|]. unfold main, mbind, prog_bind, defined.
  destruct (is_legacy legacy_env) as [legacy|]; [|done]. cbn [tail].
  destruct (process_rules _ _ _ _ _ _ (rule :: rules) _ w) as [st w1| |] eqn:E; [|done..].
  intros [= <- <-]. apply process_rules_counts in E as (Hs & Hr & Hiff); [|by left].
  cbn [status rulecnt] in *. exists (rulecnt st), (stdout w1). split; [lia|]. split; [done|].
  destruct (Z.eqb_spec (rulecnt st) (Z.of_nat (length (rule :: rules)))) as [En|En]; [by apply Hiff|].
  destruct Hs as [Hs|Hs]; [|done]. apply Hiff in Hs as [_ Hs]. lia.
Qed.

(** ** The example of RFC 7597 *)

Definition demo_text : string :=
  "type=map-e,ealen=16,prefix4len=24,prefix6len=40,ipv4prefix=192.0.2.0,ipv6prefix=2001:db8::".

Lemma parse_rule_terminates_witness :
  valued demo_text = true /\
  exists r' w', parse_rule (H := demo_inet) 64 true 200 demo_text no_rule (Out "" "") = Ret r' w'.
Proof.
  split; [by vm_compute|].
  apply (@parse_rule_terminates 64 true demo_inet demo_laws 200 demo_text no_rule (Out "" ""));
    [|by vm_compute]. apply Nat.leb_le. by vm_compute.
Defined.

Lemma prepared_rule_wf_witness :
  match prepare_rule (H := demo_inet) 64 true false demo_dump "*" demo_text "*" (Out "" "") with
  | Ret (r, _) _ => rule_ok r = true -> rule_wf r /\ 0 <= offset r <= 16
  | _ => True
  end /\
  match prepare_rule (H := demo_inet) 64 true false demo_dump "*" demo_text "*" (Out "" "") with
  | Ret (r, i) _ => rule_ok r = true /\ (pdlen r, psidlen r, offset r, i) = (56, 8, 6, "wan"%string)
  | _ => False
  end.
Proof.
  split; [|by vm_compute].
  exact (@prepared_rule_wf 64 true demo_inet demo_laws false demo_dump "*" demo_text "*" (Out "" "")).
Defined.

Definition demo_skipped : string := "prefix6len=40,ipv6prefix=2001:db8::,ealen=4,psidlen=8".

Definition demo_main : outcome out Z :=
  main (H := demo_inet) 64 true (fun x => x) "mapcalc" None demo_dump ["*"%string; demo_text; demo_skipped]
    (Out "" "").

(** Its status, and what [main_status] says of a result. *)
Definition demo_status : option Z := match demo_main with Ret c _ => Some c | _ => None end.

Definition counted (rules : list string) (o : outcome out Z) : Prop :=
  match o with
  | Ret code w' =>
      exists n before, 0 <= n <= Z.of_nat (length rules) /\
        stdout w' = before +:+ "RULE_COUNT=" +:+ print_d n +:+ newline /\
        code = if n =? Z.of_nat (length rules) then 0 else 1
  | _ => True
  end.

Lemma main_status_witness : demo_status = Some 1 /\ counted [demo_text; demo_skipped] demo_main.
Proof.
  split; [by vm_compute|].
  pose proof (fun c w => @main_status 64 true (fun x => x) demo_inet demo_laws "mapcalc" None
    demo_dump "*" [demo_text; demo_skipped] (Out "" "") c w ltac:(discriminate)) as H.
  unfold demo_main. revert H.
  match goal with |- (forall c w, ?m = Ret c w -> _) -> _ => generalize m end.
  intros [c w| |] H; [|exact I..]. exact (H c w eq_refl).
Defined.
