(* ===== verification/Bmt.v ===== *)
(** * Bad blocks of NAND flash: the mapped device

    Models [target/linux/generic/files/drivers/mtd/nand/mtk_bmt.c] and [mtk_bmt.h]: the
    layer that sits on the driver of a NAND chip, replaces blocks that fail and hides where
    a block really is. The driver of the chip is the class [Nand]; how blocks are mapped is
    one of the backends, a [mtk_bmt_ops]. *)

From Stdlib Require Import ZArith Lia.
From stdpp Require Import base list numbers option.
From S2P Require Import Prelude.

Definition MAIN_SIGNATURE_OFFSET : nat := 0.
Definition OOB_SIGNATURE_OFFSET : Z := 1.
Definition EIO : Z := 5.
Definition ENOMEM : Z := 12.
Definition EUCLEAN : Z := 117.

Definition mtd_is_bitflip (err : Z) : bool := err =? - EUCLEAN.

(** The driver of the chip, with a state of its own: reading bytes and bytes of the spare
    area from an address (address, length, spare length, spare offset) gives an error code,
    or how many bits were corrected, and the bytes that were read; writing gives the lengths
    that were written. *)
Class Nand (N : Type) := {
  _read_oob : Z -> Z -> Z -> Z -> N -> Z * list Z * list Z * N;
  _write_oob : Z -> list Z -> list Z -> Z -> N -> Z * Z * Z * N;
  _erase : Z -> Z -> N -> Z * N;
  _block_isbad : Z -> N -> Z * N;
  _block_markbad : Z -> N -> Z * N
}.

(** ** The instance of the third backend *)

(** [struct nmbm_header], [struct nmbm_signature] and [struct nmbm_info_table_header]. *)
Record nmbm_header := NmbmHeader { magic : Z; version : Z; header_size : Z; checksum : Z }.

Record nmbm_signature := NmbmSignature {
  sig_header : nmbm_header;
  nand_size : Z;
  block_size : Z;
  page_size : Z;
  spare_size : Z;
  mgmt_start_pb : Z;
  max_try_count : Z
}.

Record nmbm_info_table_header := InfoTableHeader {
  table_header : nmbm_header;
  write_count : Z;
  state_table_off : Z;
  mapping_table_off : Z;
  table_padding : Z
}.

(** What of [struct nmbm_instance] is set up once. *)
Record nmbm_config := NmbmConfig {
  rawpage_size : Z;
  info_table_size : Z;
  info_table_spare_blocks : Z;
  state_table_size : Z;
  mapping_table_size : Z;
  block_count : Z;
  max_ratio : Z;
  max_reserved_blocks : Z;
  empty_page_ecc_ok : bool;
  force_create : bool
}.

(** The rest of it; [page_cache] is [data_buf] of the description. *)
Record nmbm_instance := NmbmInstance {
  config : nmbm_config;
  signature : nmbm_signature;
  info_table_cache : list Z;
  info_table : nmbm_info_table_header;
  block_state : list Z;
  block_state_changed : Z;
  block_mapping : list Z;
  block_mapping_changed : Z;
  protected : bool;
  data_block_count : Z;
  mgmt_start_ba : Z;
  main_table_ba : Z;
  backup_table_ba : Z;
  mapping_blocks_ba : Z;
  mapping_blocks_top_ba : Z;
  signature_ba : Z
}.

Definition set_signature (s : nmbm_signature) (ba : Z) (i : nmbm_instance) : nmbm_instance :=
  NmbmInstance (config i) s (info_table_cache i) (info_table i) (block_state i) (block_state_changed i)
    (block_mapping i) (block_mapping_changed i) (protected i) (data_block_count i) (mgmt_start_ba i) (main_table_ba i)
    (backup_table_ba i) (mapping_blocks_ba i) (mapping_blocks_top_ba i) ba.

Definition set_cache (c : list Z) (i : nmbm_instance) : nmbm_instance :=
  NmbmInstance (config i) (signature i) c (info_table i) (block_state i) (block_state_changed i)
    (block_mapping i) (block_mapping_changed i) (protected i) (data_block_count i) (mgmt_start_ba i) (main_table_ba i)
    (backup_table_ba i) (mapping_blocks_ba i) (mapping_blocks_top_ba i) (signature_ba i).

Definition set_info_table (t : nmbm_info_table_header) (i : nmbm_instance) : nmbm_instance :=
  NmbmInstance (config i) (signature i) (info_table_cache i) t (block_state i) (block_state_changed i)
    (block_mapping i) (block_mapping_changed i) (protected i) (data_block_count i) (mgmt_start_ba i) (main_table_ba i)
    (backup_table_ba i) (mapping_blocks_ba i) (mapping_blocks_top_ba i) (signature_ba i).

(** The table of states and how often it has changed. *)
Definition set_state (l : list Z) (n : Z) (i : nmbm_instance) : nmbm_instance :=
  NmbmInstance (config i) (signature i) (info_table_cache i) (info_table i) l n
    (block_mapping i) (block_mapping_changed i) (protected i) (data_block_count i) (mgmt_start_ba i) (main_table_ba i)
    (backup_table_ba i) (mapping_blocks_ba i) (mapping_blocks_top_ba i) (signature_ba i).

Definition set_mapping (l : list Z) (n : Z) (i : nmbm_instance) : nmbm_instance :=
  NmbmInstance (config i) (signature i) (info_table_cache i) (info_table i) (block_state i) (block_state_changed i)
    l n (protected i) (data_block_count i) (mgmt_start_ba i) (main_table_ba i)
    (backup_table_ba i) (mapping_blocks_ba i) (mapping_blocks_top_ba i) (signature_ba i).

Definition set_protected (i : nmbm_instance) : nmbm_instance :=
  NmbmInstance (config i) (signature i) (info_table_cache i) (info_table i) (block_state i) (block_state_changed i)
    (block_mapping i) (block_mapping_changed i) true (data_block_count i) (mgmt_start_ba i) (main_table_ba i)
    (backup_table_ba i) (mapping_blocks_ba i) (mapping_blocks_top_ba i) (signature_ba i).

Definition set_data_blocks (n : Z) (i : nmbm_instance) : nmbm_instance :=
  NmbmInstance (config i) (signature i) (info_table_cache i) (info_table i) (block_state i) (block_state_changed i)
    (block_mapping i) (block_mapping_changed i) (protected i) n (mgmt_start_ba i) (main_table_ba i)
    (backup_table_ba i) (mapping_blocks_ba i) (mapping_blocks_top_ba i) (signature_ba i).

Definition set_mgmt_start (ba : Z) (i : nmbm_instance) : nmbm_instance :=
  NmbmInstance (config i) (signature i) (info_table_cache i) (info_table i) (block_state i) (block_state_changed i)
    (block_mapping i) (block_mapping_changed i) (protected i) (data_block_count i) ba (main_table_ba i)
    (backup_table_ba i) (mapping_blocks_ba i) (mapping_blocks_top_ba i) (signature_ba i).

Definition set_main_table (ba : Z) (i : nmbm_instance) : nmbm_instance :=
  NmbmInstance (config i) (signature i) (info_table_cache i) (info_table i) (block_state i) (block_state_changed i)
    (block_mapping i) (block_mapping_changed i) (protected i) (data_block_count i) (mgmt_start_ba i) ba
    (backup_table_ba i) (mapping_blocks_ba i) (mapping_blocks_top_ba i) (signature_ba i).

Definition set_backup_table (ba : Z) (i : nmbm_instance) : nmbm_instance :=
  NmbmInstance (config i) (signature i) (info_table_cache i) (info_table i) (block_state i) (block_state_changed i)
    (block_mapping i) (block_mapping_changed i) (protected i) (data_block_count i) (mgmt_start_ba i) (main_table_ba i)
    ba (mapping_blocks_ba i) (mapping_blocks_top_ba i) (signature_ba i).

Definition set_mapping_blocks (ba : Z) (i : nmbm_instance) : nmbm_instance :=
  NmbmInstance (config i) (signature i) (info_table_cache i) (info_table i) (block_state i) (block_state_changed i)
    (block_mapping i) (block_mapping_changed i) (protected i) (data_block_count i) (mgmt_start_ba i) (main_table_ba i)
    (backup_table_ba i) ba (mapping_blocks_top_ba i) (signature_ba i).

Definition set_mapping_top (ba : Z) (i : nmbm_instance) : nmbm_instance :=
  NmbmInstance (config i) (signature i) (info_table_cache i) (info_table i) (block_state i) (block_state_changed i)
    (block_mapping i) (block_mapping_changed i) (protected i) (data_block_count i) (mgmt_start_ba i) (main_table_ba i)
    (backup_table_ba i) (mapping_blocks_ba i) ba (signature_ba i).

(** ** The device *)

(** [struct bmt_desc], with what it uses of [struct mtd_info]; no range is an empty list. The
    second backend keeps its table in [bbt_buf], the third has the instance [ni]. *)
Record bmt_desc := BmtDesc {
  bbt_buf : list Z;
  data_buf : list Z;
  table_size : Z;
  pg_size : Z;
  blk_size : Z;
  pg_shift : Z;
  blk_shift : Z;
  pool_lba : Z;
  pool_pba : Z;
  bb_max : Z;
  total_blks : Z;
  bmt_blk_idx : Z;
  bmt_pgs : Z;
  remap_range : list (Z * Z);
  oob_offset : Z;
  mtd_size : Z;
  erasesize : Z;
  oobsize : Z;
  bitflip_threshold : Z;
  ecc_strength : Z;
  ni : option nmbm_instance
}.

Definition set_buf (b : list Z) (d : bmt_desc) : bmt_desc :=
  BmtDesc b (data_buf d) (table_size d) (pg_size d) (blk_size d) (pg_shift d) (blk_shift d) (pool_lba d) (pool_pba d)
    (bb_max d) (total_blks d) (bmt_blk_idx d) (bmt_pgs d) (remap_range d) (oob_offset d) (mtd_size d) (erasesize d)
    (oobsize d) (bitflip_threshold d) (ecc_strength d) (ni d).

Definition set_data (b : list Z) (d : bmt_desc) : bmt_desc :=
  BmtDesc (bbt_buf d) b (table_size d) (pg_size d) (blk_size d) (pg_shift d) (blk_shift d) (pool_lba d) (pool_pba d)
    (bb_max d) (total_blks d) (bmt_blk_idx d) (bmt_pgs d) (remap_range d) (oob_offset d) (mtd_size d) (erasesize d)
    (oobsize d) (bitflip_threshold d) (ecc_strength d) (ni d).

Definition set_idx (i : Z) (d : bmt_desc) : bmt_desc :=
  BmtDesc (bbt_buf d) (data_buf d) (table_size d) (pg_size d) (blk_size d) (pg_shift d) (blk_shift d) (pool_lba d)
    (pool_pba d) (bb_max d) (total_blks d) i (bmt_pgs d) (remap_range d) (oob_offset d) (mtd_size d) (erasesize d)
    (oobsize d) (bitflip_threshold d) (ecc_strength d) (ni d).

Definition set_pool_pba (p : Z) (d : bmt_desc) : bmt_desc :=
  BmtDesc (bbt_buf d) (data_buf d) (table_size d) (pg_size d) (blk_size d) (pg_shift d) (blk_shift d) (pool_lba d)
    p (bb_max d) (total_blks d) (bmt_blk_idx d) (bmt_pgs d) (remap_range d) (oob_offset d) (mtd_size d) (erasesize d)
    (oobsize d) (bitflip_threshold d) (ecc_strength d) (ni d).

Definition set_ni (i : option nmbm_instance) (d : bmt_desc) : bmt_desc :=
  BmtDesc (bbt_buf d) (data_buf d) (table_size d) (pg_size d) (blk_size d) (pg_shift d) (blk_shift d) (pool_lba d)
    (pool_pba d) (bb_max d) (total_blks d) (bmt_blk_idx d) (bmt_pgs d) (remap_range d) (oob_offset d) (mtd_size d)
    (erasesize d) (oobsize d) (bitflip_threshold d) (ecc_strength d) i.

(** What a backend sets up. *)
Definition set_layout (table lba bb pgs size : Z) (d : bmt_desc) : bmt_desc :=
  BmtDesc (bbt_buf d) (data_buf d) table (pg_size d) (blk_size d) (pg_shift d) (blk_shift d) lba
    (pool_pba d) bb (total_blks d) (bmt_blk_idx d) pgs (remap_range d) (oob_offset d) size (erasesize d)
    (oobsize d) (bitflip_threshold d) (ecc_strength d) (ni d).

Record bmt_world (N : Type) := BmtWorld { bmtd : bmt_desc; nand : N }.
Arguments BmtWorld {N} bmtd nand.
Arguments bmtd {N} b.
Arguments nand {N} b.

Section Bmt.
Context {N : Type} `{Nand N}.

Definition desc : prog (bmt_world N) bmt_desc := w ← get_st; mret (bmtd w).
Definition change_desc (f : bmt_desc -> bmt_desc) : prog (bmt_world N) unit :=
  modify (fun w => BmtWorld (f (bmtd w)) (nand w)).

(** A call of the driver. *)
Definition call {A} (f : N -> A * N) : prog (bmt_world N) A := fun w =>
  let '(a, n) := f (nand w) in Ret a (BmtWorld (bmtd w) n).

(** ** Access to the chip *)

Definition blk_pg (d : bmt_desc) (block : Z) : Z := u32 (Z.shiftl block (blk_shift d - pg_shift d)).

Definition bbt_nand_read (page dat_len fdm_len : Z) : prog (bmt_world N) (Z * list Z * list Z) :=
  d ← desc;
  '(ret, dat, oob) ← call (_read_oob (u32 (Z.shiftl page (pg_shift d))) dat_len fdm_len (oob_offset d));
  mret (if ret <? 0 then (ret, dat, oob) else (0, dat, oob)).

Definition bbt_nand_erase (block : Z) : prog (bmt_world N) Z :=
  d ← desc;
  call (_erase (Z.shiftl block (blk_shift d)) (blk_size d)).

(** The table, with the signature of the backend in the spare area. *)
Definition write_bmt (sig : list Z) (block : Z) (dat : list Z) : prog (bmt_world N) Z :=
  d ← desc;
  '(ret, _, _) ← call (_write_oob (Z.shiftl block (blk_shift d))
    (take (Z.to_nat (u32 (Z.shiftl (bmt_pgs d) (pg_shift d)))) dat) sig (OOB_SIGNATURE_OFFSET + oob_offset d));
  mret ret.

(** Page by page; [wr_ops.ooblen] is set behind the write, so that nothing of the spare area
    is written. *)
Fixpoint copy_pages (n : nat) (src dest offset max_offset : Z) : prog (bmt_world N) Z :=
  match n with
  | O => mret 0
  | S n =>
      if max_offset <=? offset then mret 0
      else
        d ← desc;
        let pages := Z.shiftr (blk_size d) (pg_shift d) in
        '(ret, dat, oob) ← call (_read_oob (src + offset) (pg_size d) (Z.min (oobsize d / pages) 64) 0);
        if (ret <? 0) && negb (mtd_is_bitflip ret) then mret ret
        else
          change_desc (fun d => set_data (Prelude.write 0 dat (data_buf d)) d);;
          if bool_decide (dat = []) then mret 0
          else
            d ← desc;
            '(ret, _, _) ← call (_write_oob (dest + offset) (take (Z.to_nat (pg_size d)) (data_buf d)) [] 0);
            if ret <? 0 then mret ret
            else copy_pages n src dest (offset + Z.of_nat (length dat)) max_offset
  end.

Definition bbt_nand_copy (dest_blk src_blk max_offset : Z) : prog (bmt_world N) Z :=
  d ← desc;
  copy_pages (Z.to_nat (Z.shiftr (blk_size d) (pg_shift d))) (Z.shiftl src_blk (blk_shift d))
    (Z.shiftl dest_blk (blk_shift d)) 0 max_offset.

(** ** Mapping *)

Definition mapping_block_in_range (d : bmt_desc) (block : Z) : option (Z * Z) :=
  let addr := u32 (Z.shiftl block (blk_shift d)) in
  match remap_range d with
  | [] => Some (0, total_blks d)
  | l => prod_map s32 s32 <$> List.find (fun r => (r.1 <=? addr) && (addr <? r.2)) l
  end.

Record mtk_bmt_ops := {
  remap_block : Z -> Z -> Z -> prog (bmt_world N) bool;
  unmap_block : Z -> prog (bmt_world N) unit;
  get_mapping_block : Z -> prog (bmt_world N) Z
}.

Context (ops : mtk_bmt_ops).

Definition mtk_bmt_remap_block (block mapped_block copy_len : Z) : prog (bmt_world N) bool :=
  d ← desc;
  match mapping_block_in_range d (s32 block) with
  | None => mret false
  | Some _ => remap_block ops (u16 block) (u16 mapped_block) copy_len
  end.

(** The block an address of the mapped device is in, and the offset in it. *)
Definition block_of (d : bmt_desc) (a : Z) : Z := u32 (Z.shiftr a (blk_shift d)).
Definition offset_of (d : bmt_desc) (a : Z) : Z := u32 (Z.land a (u32 (blk_size d - 1))).

(** [ret] and [max_bitflips] so far, the tries for this block, and what was read. The
    threshold is unsigned, so that [cur_ret] is compared as unsigned too: a negative one is
    above every threshold. *)
Fixpoint read_loop (fuel : nat) (len ooblen from ooboffs ret flips tries : Z) (dat oob : list Z)
    : prog (bmt_world N) (Z * list Z * list Z) :=
  match fuel with
  | O => undef
  | S fuel =>
      let retlen := Z.of_nat (length dat) in
      let oobretlen := Z.of_nat (length oob) in
      if (retlen <? len) || (oobretlen <? ooblen) then
        d ← desc;
        let offset := offset_of d from in
        let block := block_of d from in
        cur_block ← get_mapping_block ops (s32 block);
        if cur_block <? 0 then mret (- EIO, dat, oob)
        else
          let cur_len := Z.min (u32 (erasesize d - offset)) (u32 (len - retlen)) in
          '(cur_ret, cur_dat, cur_oob) ←
            call (_read_oob (Z.shiftl cur_block (blk_shift d) + offset) cur_len (ooblen - oobretlen) ooboffs);
          let ret := if cur_ret <? 0 then cur_ret else ret in
          let flips := if cur_ret <? 0 then flips else Z.max flips cur_ret in
          if (cur_ret <? 0) && negb (mtd_is_bitflip cur_ret) then
            again ← mtk_bmt_remap_block block (u32 cur_block) (erasesize d);
            if again && (tries <? 10) then read_loop fuel len ooblen from ooboffs ret flips (tries + 1) dat oob
            else mret (ret, dat, oob)
          else
            (if negb (bitflip_threshold d =? 0) && (bitflip_threshold d <=? u32 cur_ret)
             then mtk_bmt_remap_block block (u32 cur_block) (erasesize d) else mret false);;
            let step := if cur_len =? 0 then erasesize d - offset else cur_len in
            read_loop fuel len ooblen (from + step) 0 ret flips 0 (dat ++ cur_dat) (oob ++ cur_oob)
      else mret (if ret <? 0 then ret else flips, dat, oob)
  end.

Definition mtk_bmt_read (fuel : nat) (from len ooblen ooboffs : Z) : prog (bmt_world N) (Z * list Z * list Z) :=
  read_loop fuel len ooblen from ooboffs 0 0 0 [] [].

(** The lengths that were written so far. *)
Fixpoint write_loop (fuel : nat) (dat oob : list Z) (to ooboffs tries retlen oobretlen : Z)
    : prog (bmt_world N) (Z * Z * Z) :=
  match fuel with
  | O => undef
  | S fuel =>
      let len := Z.of_nat (length dat) in
      let ooblen := Z.of_nat (length oob) in
      if (retlen <? len) || (oobretlen <? ooblen) then
        d ← desc;
        let offset := offset_of d to in
        let block := block_of d to in
        cur_block ← get_mapping_block ops (s32 block);
        if cur_block <? 0 then mret (- EIO, retlen, oobretlen)
        else
          let cur_len := Z.min (u32 (blk_size d - offset)) (u32 (len - retlen)) in
          '(ret, cur_retlen, cur_oobretlen) ←
            call (_write_oob (Z.shiftl cur_block (blk_shift d) + offset)
              (take (Z.to_nat cur_len) (drop (Z.to_nat retlen) dat)) (drop (Z.to_nat oobretlen) oob) ooboffs);
          if ret <? 0 then
            again ← mtk_bmt_remap_block block (u32 cur_block) offset;
            if again && (tries <? 10) then write_loop fuel dat oob to ooboffs (tries + 1) retlen oobretlen
            else mret (ret, retlen, oobretlen)
          else
            let step := if cur_len =? 0 then erasesize d - offset else cur_len in
            write_loop fuel dat oob (to + step) 0 0 (retlen + cur_retlen) (oobretlen + cur_oobretlen)
      else mret (0, retlen, oobretlen)
  end.

Definition mtk_bmt_write (fuel : nat) (to : Z) (dat oob : list Z) (ooboffs : Z) : prog (bmt_world N) (Z * Z * Z) :=
  write_loop fuel dat oob to ooboffs 0 0 0.

(** The result, and [fail_addr] if the loop is left early; nothing to erase leaves [ret] as
    it was. *)
Fixpoint erase_loop (fuel : nat) (start_addr end_addr : Z) (ret : option Z) (tries : Z)
    : prog (bmt_world N) (Z * option Z) :=
  match fuel with
  | O => undef
  | S fuel =>
      if start_addr <? end_addr then
        d ← desc;
        let orig_block := u16 (Z.shiftr start_addr (blk_shift d)) in
        block ← get_mapping_block ops orig_block;
        if block <? 0 then mret (- EIO, None)
        else
          ret ← call (_erase (Z.shiftl block (blk_shift d)) (blk_size d));
          if negb (ret =? 0) then
            again ← mtk_bmt_remap_block orig_block (u32 block) 0;
            if again && (tries <? 10) then erase_loop fuel start_addr end_addr (Some ret) (tries + 1)
            else mret (ret, Some start_addr)
          else erase_loop fuel (start_addr + erasesize d) end_addr (Some ret) 0
      else ret ← defined ret; mret (ret, None)
  end.

Definition mtk_bmt_mtd_erase (fuel : nat) (addr len : Z) : prog (bmt_world N) (Z * option Z) :=
  d ← desc;
  erase_loop fuel (Z.land addr (not_w 32 (erasesize d - 1))) (addr + len) None 0.

Fixpoint isbad_loop (fuel : nat) (orig_block tries : Z) : prog (bmt_world N) Z :=
  match fuel with
  | O => undef
  | S fuel =>
      d ← desc;
      block ← get_mapping_block ops orig_block;
      ret ← call (_block_isbad (Z.shiftl (u16 block) (blk_shift d)));
      if negb (ret =? 0) then
        again ← mtk_bmt_remap_block orig_block (u16 block) (blk_size d);
        if again && (tries <? 10) then isbad_loop fuel orig_block (tries + 1) else mret ret
      else mret ret
  end.

(** Eleven tries. *)
Definition mtk_bmt_block_isbad (ofs : Z) : prog (bmt_world N) Z :=
  d ← desc;
  isbad_loop 11 (u16 (Z.shiftr ofs (blk_shift d))) 0.

Definition mtk_bmt_block_markbad (ofs : Z) : prog (bmt_world N) Z :=
  d ← desc;
  let orig_block := u16 (Z.shiftr ofs (blk_shift d)) in
  block ← get_mapping_block ops orig_block;
  if block <? 0 then mret (- EIO)
  else
    mtk_bmt_remap_block orig_block (u32 block) (blk_size d);;
    call (_block_markbad (Z.shiftl block (blk_shift d))).

(** ** Files for debugging *)

Definition mtk_bmt_debug_repair (val : Z) : prog (bmt_world N) Z :=
  d ← desc;
  let block := s32 (Z.shiftr val (blk_shift d)) in
  prev_block ← get_mapping_block ops block;
  if prev_block <? 0 then mret (- EIO)
  else
    unmap_block ops (u16 block);;
    new_block ← get_mapping_block ops block;
    if new_block <? 0 then mret (- EIO)
    else if prev_block =? new_block then mret 0
    else
      bbt_nand_erase (u16 new_block);;
      bbt_nand_copy (u16 new_block) (u16 prev_block) (blk_size d);;
      mret 0.

Definition mtk_bmt_debug_mark_good (val : Z) : prog (bmt_world N) Z :=
  d ← desc;
  unmap_block ops (u16 (Z.shiftr val (blk_shift d)));;
  mret 0.

Definition mtk_bmt_debug_mark_bad (val : Z) : prog (bmt_world N) Z :=
  d ← desc;
  let block := u32 (Z.shiftr val (blk_shift d)) in
  cur_block ← get_mapping_block ops (s32 block);
  if cur_block <? 0 then mret (- EIO)
  else mtk_bmt_remap_block block (u32 cur_block) (blk_size d);; mret 0.
End Bmt.
Arguments mtk_bmt_ops N : clear implicits.

Section Facts.
Context {N : Type} `{Nand N}.
Implicit Types (w : bmt_world N).

Lemma runs_desc w (Q : bmt_desc -> bmt_world N -> Prop) : Q (bmtd w) w -> runs desc w Q.
Proof. done. Qed.

Lemma runs_change_desc f w (Q : unit -> bmt_world N -> Prop) :
  Q tt (BmtWorld (f (bmtd w)) (nand w)) -> runs (change_desc f) w Q.
Proof. done. Qed.

Lemma runs_call {A} (f : N -> A * N) w (Q : A -> bmt_world N -> Prop) :
  Q (f (nand w)).1 (BmtWorld (bmtd w) (f (nand w)).2) -> runs (call f) w Q.
Proof. unfold runs, call. by destruct (f (nand w)). Qed.

(** Only the chip and the buffer for pages change. *)
Definition keeps_desc w w' : Prop := exists b, bmtd w' = set_data b (bmtd w).

Lemma set_data_same d : set_data (data_buf d) d = d.
Proof. by destruct d. Qed.

Lemma keeps_desc_refl w n : keeps_desc w (BmtWorld (bmtd w) n).
Proof. exists (data_buf (bmtd w)). cbn. by rewrite set_data_same. Qed.

Lemma keeps_desc_trans w1 w2 w3 : keeps_desc w1 w2 -> keeps_desc w2 w3 -> keeps_desc w1 w3.
Proof. intros [b1 E1] [b2 E2]. exists b2. by rewrite E2, E1. Qed.

Lemma runs_erase block w : runs (bbt_nand_erase block) w (fun _ w' => bmtd w' = bmtd w).
Proof. unfold bbt_nand_erase. apply runs_bind, runs_desc, runs_call. done. Qed.

Lemma runs_write_bmt sig block dat w : runs (write_bmt sig block dat) w (fun _ w' => bmtd w' = bmtd w).
Proof.
  unfold write_bmt. apply runs_bind, runs_desc, runs_bind, runs_call.
  destruct (_write_oob _ _ _ _ _) as [[[ret l1] l2] n]. by apply runs_ret.
Qed.

Lemma runs_copy_pages k src dest offset max w :
  runs (copy_pages k src dest offset max) w (fun _ w' => keeps_desc w w').
Proof.
  revert offset w. induction k as [|k IH]; intros offset w; cbn [copy_pages].
  { apply runs_ret. exists (data_buf (bmtd w)). by rewrite set_data_same. }
  destruct (max <=? offset). { apply runs_ret. exists (data_buf (bmtd w)). by rewrite set_data_same. }
  apply runs_bind, runs_desc, runs_bind, runs_call.
  destruct (_read_oob _ _ _ _ _) as [[[ret dat] oob] n]. cbn [fst snd].
  destruct (_ && _); [apply runs_ret, keeps_desc_refl|]. apply runs_bind, runs_change_desc.
  case_bool_decide. { apply runs_ret. by eexists. }
  apply runs_bind, runs_desc, runs_bind, runs_call.
  destruct (_write_oob _ _ _ _ _) as [[[ret2 l1] l2] n2]. cbn [fst snd].
  destruct (ret2 <? 0). { apply runs_ret. by eexists. }
  eapply runs_mono; [apply IH|]. intros a w' Hw. eapply keeps_desc_trans; [|exact Hw]. by eexists.
Qed.

Lemma runs_nand_copy dest src max w : runs (bbt_nand_copy dest src max) w (fun _ w' => keeps_desc w w').
Proof. unfold bbt_nand_copy. apply runs_bind, runs_desc. apply runs_copy_pages. Qed.
End Facts.
