(* ===== verification/BmtBbt.v ===== *)
(** * Bad blocks of NAND flash: the table of bad blocks

    Models [target/linux/generic/files/drivers/mtd/nand/mtk_bmt_bbt.c]: two bits per block
    say whether it is bad, and the blocks of a range that are bad are skipped. *)

From Stdlib Require Import ZArith Lia.
From stdpp Require Import base list numbers option.
From S2P Require Import Prelude Bmt.


(** [mtknand] *)
Definition bbt_sig : list Z := [109; 116; 107; 110; 97; 110; 100].

Definition state_mask (block : Z) : Z := u8 (Z.shiftl 3 (block mod 4 * 2)).

(** [None] behind the end of the table. *)
Definition bbt_block_is_bad (d : bmt_desc) (block : Z) : option bool :=
  cur ← bbt_buf d !! Z.to_nat (u16 block / 4);
  Some (negb (Z.land cur (Z.shiftl 3 (u16 block mod 4 * 2)) =? 0)).

(** The loop over the range: the block where it stops, how many good blocks are still to be
    skipped and how many bad ones there were. *)
Fixpoint skip_bad (d : bmt_desc) (n : nat) (i ofs bad_blocks : Z) : option (Z * Z * Z) :=
  match n with
  | O => Some (i, ofs, bad_blocks)
  | S n =>
      bad ← bbt_block_is_bad d i;
      if bad : bool then skip_bad d n (i + 1) ofs (bad_blocks + 1)
      else if negb (ofs =? 0) then skip_bad d n (i + 1) (ofs - 1) bad_blocks
      else Some (i, ofs, bad_blocks)
  end.

(** The loop back over the bad blocks. *)
Fixpoint use_bad (d : bmt_desc) (n : nat) (block i ofs bad_blocks : Z) : option Z :=
  if bad_blocks <=? 0 then Some block
  else
    match n with
    | O => None
    | S n =>
        bad ← bbt_block_is_bad d i;
        if bad : bool then
          if bad_blocks - 1 <=? ofs then Some i else use_bad d n block (i - 1) ofs (bad_blocks - 1)
        else use_bad d n block (i - 1) ofs bad_blocks
    end.

Definition mapping_bbt (d : bmt_desc) (block : Z) : option Z :=
  match mapping_block_in_range d block with
  | None => Some block
  | Some (start, stop) =>
      let start := Z.shiftr start (blk_shift d) in
      let stop := Z.shiftr stop (blk_shift d) in
      let n := Z.to_nat (stop - start) in
      '(i, ofs, bad_blocks) ← skip_bad d n start (block - start) 0;
      if i <? stop then Some i else use_bad d n block (stop - 1) ofs bad_blocks
  end.

Section Bbt.
Context {N : Type} `{Nand N}.

Definition get_mapping_block_index_bbt (block : Z) : prog (bmt_world N) Z :=
  d ← desc; defined (mapping_bbt d block).

Definition put_state (block : Z) (bad : bool) (cur : Z) : Z :=
  if bad then Z.lor cur (state_mask block) else Z.land cur (not_w 8 (state_mask block)).

Definition bbt_set_block_state (block : Z) (bad : bool) : prog (bmt_world N) unit :=
  d ← desc;
  cur ← defined (bbt_buf d !! Z.to_nat (block / 4));
  change_desc (set_buf (<[Z.to_nat (block / 4) := put_state block bad cur]> (bbt_buf d)));;
  bbt_nand_erase (bmt_blk_idx d);;
  d ← desc;
  write_bmt bbt_sig (bmt_blk_idx d) (bbt_buf d);;
  mret tt.

Definition remap_block_bbt (block mapped_blk copy_len : Z) : prog (bmt_world N) bool :=
  d ← desc;
  match mapping_block_in_range d block with
  | None => mret false
  | Some _ =>
      bbt_set_block_state mapped_blk true;;
      new_blk ← get_mapping_block_index_bbt block;
      bbt_nand_erase (u16 new_blk);;
      (if 0 <? copy_len then bbt_nand_copy (u16 new_blk) mapped_blk copy_len else mret 0);;
      mret true
  end.

Definition unmap_block_bbt (block : Z) : prog (bmt_world N) unit := bbt_set_block_state block false.

(** The last five blocks are searched for the table, from the end. *)
Fixpoint read_bbt_from (k : nat) (i : Z) : prog (bmt_world N) Z :=
  match k with
  | O => mret (- EIO)
  | S k =>
      d ← desc;
      '(ret, dat, oob_buf) ← bbt_nand_read (u32 (Z.shiftl i (blk_shift d - pg_shift d))) (pg_size d) 8;
      change_desc (fun d => set_buf (Prelude.write 0 dat (bbt_buf d)) d);;
      if negb (ret =? 0) then read_bbt_from k (i - 1)
      else
        mark ← defined (oob_buf !! O);
        if negb (mark =? 255) then read_bbt_from k (i - 1)
        else if negb (bool_decide (take 7 (drop 1 oob_buf) = bbt_sig)) then read_bbt_from k (i - 1)
        else change_desc (set_idx (u16 i));; mret 0
  end.

Definition mtk_bmt_read_bbt : prog (bmt_world N) Z :=
  d ← desc; read_bbt_from 5 (total_blks d - 1).

Definition round_up (n m : Z) : Z := (n + m - 1) / m * m.

(** [alloc]: the memory can be had. *)
Definition mtk_bmt_init_bbt (alloc : bool) : prog (bmt_world N) Z :=
  d ← desc;
  let buf_size := round_up (Z.shiftr (total_blks d) 2) (blk_size d) in
  if negb alloc then mret (- ENOMEM)
  else
    change_desc (set_buf (replicate (Z.to_nat buf_size) 255));;
    change_desc (fun d => set_layout (table_size d) (pool_lba d) (bb_max d) (bmt_pgs d) (mtd_size d - u32 (4 * erasesize d)) d);;
    ret ← mtk_bmt_read_bbt;
    if negb (ret =? 0) then mret ret
    else
      change_desc (fun d => set_layout (table_size d) (pool_lba d) (bb_max d) (u32 (buf_size / pg_size d)) (mtd_size d) d);;
      mret 0.

(** [val] 100 writes the table to the last block; 0 prints it. *)
Definition mtk_bmt_debug_bbt (val : Z) : prog (bmt_world N) Z :=
  if val =? 100 then
    d ← desc;
    change_desc (set_idx (u16 (total_blks d - 1)));;
    d ← desc;
    bbt_nand_erase (bmt_blk_idx d);;
    write_bmt bbt_sig (bmt_blk_idx d) (bbt_buf d);;
    mret 0
  else mret 0.

Definition mtk_bmt_bbt_ops : mtk_bmt_ops N := {|
  remap_block := remap_block_bbt;
  unmap_block := unmap_block_bbt;
  get_mapping_block := get_mapping_block_index_bbt
|}.
End Bbt.
