(* ===== verification/BmtBbtProofs.v ===== *)
(** * The blocks that the table of bad blocks maps to

    Within a range the mapping lists the good blocks and behind them the bad ones. Marking a
    block bad therefore moves all blocks behind it. *)

From Stdlib Require Import ZArith Lia.
From stdpp Require Import base list numbers option.
From S2P Require Import Prelude Bmt BmtBbt.

(** ** Bits of the table *)

Lemma byte_cases (P : Z -> bool) : forallb P (seqZ 0 256) = true -> forall b, is_byte b -> P b = true.
Proof.
  intros H b Hb. rewrite forallb_forall in H. apply H, list_elem_of_In, elem_of_seqZ. unfold is_byte in Hb. lia.
Qed.

Definition state_bits (cur k : Z) : bool := negb (Z.land cur (Z.shiftl 3 (k * 2)) =? 0).

Lemma put_state_bits cur a b (bad : bool) :
  is_byte cur -> 0 <= a < 4 -> 0 <= b < 4 ->
  state_bits (if bad then Z.lor cur (u8 (Z.shiftl 3 (a * 2))) else Z.land cur (not_w 8 (u8 (Z.shiftl 3 (a * 2))))) b =
  (if a =? b then bad else state_bits cur b) /\
  is_byte (if bad then Z.lor cur (u8 (Z.shiftl 3 (a * 2))) else Z.land cur (not_w 8 (u8 (Z.shiftl 3 (a * 2))))).
Proof.
  intros Hc Ha Hb.
  pose (ok cur := forallb (fun a => forallb (fun b => forallb (fun bad : bool =>
    let new := if bad then Z.lor cur (u8 (Z.shiftl 3 (a * 2))) else Z.land cur (not_w 8 (u8 (Z.shiftl 3 (a * 2)))) in
    Bool.eqb (state_bits new b) (if a =? b then bad else state_bits cur b) && (0 <=? new) && (new <? 256))
    [true; false]) (seqZ 0 4)) (seqZ 0 4)).
  assert (Hok : ok cur = true) by (apply byte_cases; [vm_compute; reflexivity|done]).
  unfold ok in Hok. rewrite forallb_forall in Hok. specialize (Hok a). rewrite forallb_forall in Hok.
  assert (Hin : forall x, 0 <= x < 4 -> In x (seqZ 0 4)) by (intros; apply list_elem_of_In, elem_of_seqZ; lia).
  specialize (Hok (Hin a Ha) b (Hin b Hb)). rewrite forallb_forall in Hok.
  specialize (Hok bad ltac:(destruct bad; cbn; auto)). apply andb_true_iff in Hok as [[Hok H1]%andb_true_iff H2].
  apply eqb_prop in Hok. split; [done|]. apply Z.leb_le in H1. apply Z.ltb_lt in H2. done.
Qed.

(** ** Tables *)

(** The table is there and has the blocks below [n]. *)
Definition table_ok (n : Z) (d : bmt_desc) : Prop :=
  bytes_ok (bbt_buf d) /\ n <= 65536 /\ n <= 4 * Z.of_nat (length (bbt_buf d)).

(** The state of a block in the table. *)
Definition bad_in (d : bmt_desc) (i : Z) : bool := default false (bbt_block_is_bad d i).

Lemma is_bad_some n d i : table_ok n d -> 0 <= i < n -> bbt_block_is_bad d i = Some (bad_in d i).
Proof.
  intros (_ & Hn & Hl) Hi. unfold bad_in, bbt_block_is_bad. rewrite (wrap_small 16) by lia.
  destruct (lookup_lt_is_Some_2 (bbt_buf d) (Z.to_nat (i / 4))) as [c Hc]; [|by rewrite Hc].
  apply Nat2Z.inj_lt. rewrite Z2Nat.id by (apply Z.div_pos; lia). apply Z.div_lt_upper_bound; lia.
Qed.

Lemma bad_in_bits n d i c :
  table_ok n d -> 0 <= i < n -> bbt_buf d !! Z.to_nat (i / 4) = Some c -> bad_in d i = state_bits c (i mod 4).
Proof. intros (_ & Hn & _) Hi Hc. unfold bad_in, bbt_block_is_bad. rewrite (wrap_small 16) by lia. by rewrite Hc. Qed.

(** The table after a block was given a state. *)
Definition with_state (block : Z) (bad : bool) (d : bmt_desc) : bmt_desc :=
  set_buf (alter (put_state block bad) (Z.to_nat (block / 4)) (bbt_buf d)) d.

Lemma table_ok_with n block bad d : table_ok n d -> 0 <= block < n -> table_ok n (with_state block bad d).
Proof.
  intros (Hb & Hn & Hl) Hi. split; [|split; [done|cbn; by rewrite length_alter]]. cbn.
  apply Forall_alter; [done|]. intros c _ Hc. unfold put_state, state_mask.
  apply (put_state_bits c (block mod 4) 0 bad); [done|by apply Z.mod_pos_bound|lia].
Qed.

Lemma bad_in_with n block bad d i :
  table_ok n d -> 0 <= block < n -> 0 <= i < n ->
  bad_in (with_state block bad d) i = if i =? block then bad else bad_in d i.
Proof.
  intros Ht Hb Hi. pose proof (table_ok_with n block bad d Ht Hb) as Ht'.
  assert (Hsome : exists c, bbt_buf d !! Z.to_nat (i / 4) = Some c).
  { apply lookup_lt_is_Some_2, Nat2Z.inj_lt. destruct Ht as (_ & _ & Hl).
    rewrite Z2Nat.id by (apply Z.div_pos; lia). apply Z.div_lt_upper_bound; lia. }
  destruct Hsome as [c Hc]. assert (Hbyte : is_byte c) by exact (Forall_lookup_1 _ _ _ _ (proj1 Ht) Hc).
  pose proof (Z.div_mod i 4 ltac:(lia)). pose proof (Z.div_mod block 4 ltac:(lia)).
  pose proof (Z.mod_pos_bound i 4 ltac:(lia)). pose proof (Z.mod_pos_bound block 4 ltac:(lia)).
  assert (0 <= i / 4 /\ 0 <= block / 4) by (split; apply Z.div_pos; lia).
  destruct (decide (i / 4 = block / 4)) as [E|E].
  - rewrite (bad_in_bits n _ i (put_state block bad c)); [|done|done|cbn; rewrite <- E, list_lookup_alter, decide_True, Hc by done; done].
    unfold put_state, state_mask. rewrite (proj1 (put_state_bits c (block mod 4) (i mod 4) bad Hbyte ltac:(lia) ltac:(lia))).
    rewrite (bad_in_bits n d i c) by done. destruct (Z.eqb_spec (block mod 4) (i mod 4)), (Z.eqb_spec i block); auto; lia.
  - rewrite (bad_in_bits n _ i c); [|done|done|cbn; rewrite list_lookup_alter_ne by lia; done].
    rewrite (bad_in_bits n d i c) by done. destruct (Z.eqb_spec i block); [by subst|done].
Qed.

(** ** The loops *)

Definition goods (d : bmt_desc) (s : Z) (n : nat) : list Z := filter (fun i => bad_in d i = false) (seqZ s (Z.of_nat n)).
Definition bads (d : bmt_desc) (s : Z) (n : nat) : list Z := filter (fun i => bad_in d i = true) (seqZ s (Z.of_nat n)).

Lemma goods_cons d s n : goods d s (S n) = if bad_in d s then goods d (s + 1) n else s :: goods d (s + 1) n.
Proof.
  unfold goods. rewrite seqZ_cons by lia. rewrite filter_cons. replace (Z.pred (Z.of_nat (S n))) with (Z.of_nat n) by lia.
  replace (Z.succ s) with (s + 1) by lia. by destruct (bad_in d s).
Qed.

Lemma bads_cons d s n : bads d s (S n) = if bad_in d s then s :: bads d (s + 1) n else bads d (s + 1) n.
Proof.
  unfold bads. rewrite seqZ_cons by lia. rewrite filter_cons. replace (Z.pred (Z.of_nat (S n))) with (Z.of_nat n) by lia.
  replace (Z.succ s) with (s + 1) by lia. by destruct (bad_in d s).
Qed.

Lemma bads_snoc d s n :
  bads d s (S n) = if bad_in d (s + Z.of_nat n) then bads d s n ++ [s + Z.of_nat n] else bads d s n.
Proof.
  unfold bads. replace (Z.of_nat (S n)) with (Z.of_nat n + 1) by lia. rewrite seqZ_app by lia. rewrite list.filter_app.
  rewrite (seqZ_cons _ 1) by lia. change (Z.pred 1) with 0. rewrite (seqZ_nil _ 0) by lia.
  rewrite filter_cons, filter_nil. destruct (bad_in d (s + Z.of_nat n)); cbn; [done|by rewrite app_nil_r].
Qed.

Lemma skip_bad_spec m d n i ofs bb :
  table_ok m d -> 0 <= i -> i + Z.of_nat n <= m -> 0 <= ofs ->
  match goods d i n !! Z.to_nat ofs with
  | Some g => exists o b, skip_bad d n i ofs bb = Some (g, o, b) /\ g < i + Z.of_nat n
  | None => skip_bad d n i ofs bb =
      Some (i + Z.of_nat n, ofs - Z.of_nat (length (goods d i n)), bb + Z.of_nat (length (bads d i n)))
  end.
Proof.
  intros Ht. revert i ofs bb. induction n as [|n IH]; intros i ofs bb Hi Hm Ho.
  { change (goods d i 0) with (@nil Z). change (bads d i 0) with (@nil Z). cbn. apply (f_equal Some); repeat apply (f_equal2 pair); lia. }
  rewrite goods_cons, bads_cons. cbn [skip_bad]. rewrite (is_bad_some m d i) by (done || lia). cbn [mbind option_bind].
  replace (i + Z.of_nat (S n)) with (i + 1 + Z.of_nat n) by lia. destruct (bad_in d i).
  - pose proof (IH (i + 1) ofs (bb + 1) ltac:(lia) ltac:(lia) Ho) as H. destruct (goods d (i + 1) n !! _); [done|].
    rewrite H. cbn. apply (f_equal Some); repeat apply (f_equal2 pair); lia.
  - destruct (Z.eqb_spec ofs 0) as [->|Hne]; cbn [negb].
    + cbn. exists 0, bb. split; [done|lia].
    + replace (Z.to_nat ofs) with (S (Z.to_nat (ofs - 1))) by lia. cbn [lookup list_lookup].
      pose proof (IH (i + 1) (ofs - 1) bb ltac:(lia) ltac:(lia) ltac:(lia)) as H.
      change (list_lookup (Z.to_nat (ofs - 1)) (goods d (i + 1) n)) with (goods d (i + 1) n !! Z.to_nat (ofs - 1)).
      destruct (goods d (i + 1) n !! _); [done|]. rewrite H. cbn. apply (f_equal Some); repeat apply (f_equal2 pair); lia.
Qed.

Lemma use_bad_spec m d n block s ofs :
  table_ok m d -> 0 <= s -> s + Z.of_nat n <= m -> 0 <= ofs < Z.of_nat (length (bads d s n)) ->
  use_bad d n block (s + Z.of_nat n - 1) ofs (Z.of_nat (length (bads d s n))) = bads d s n !! Z.to_nat ofs.
Proof.
  intros Ht Hs. induction n as [|n IH]; intros Hm Ho; [change (bads d s 0) with (@nil Z) in Ho; cbn in Ho; lia|].
  rewrite bads_snoc in *. replace (s + Z.of_nat (S n) - 1) with (s + Z.of_nat n) by lia.
  cbn [use_bad]. rewrite (is_bad_some m d (s + Z.of_nat n)) by (done || lia). cbn [mbind option_bind].
  destruct (bad_in d (s + Z.of_nat n)).
  - rewrite length_app in *. cbn [length] in *.
    destruct (Z.leb_spec (Z.of_nat (length (bads d s n) + 1)) 0); [lia|].
    destruct (Z.leb_spec (Z.of_nat (length (bads d s n) + 1) - 1) ofs).
    + replace (Z.to_nat ofs) with (length (bads d s n)) by lia. by rewrite list_lookup_middle.
    + rewrite lookup_app_l by lia. replace (Z.of_nat (length (bads d s n) + 1) - 1) with (Z.of_nat (length (bads d s n))) by lia.
      apply IH; lia.
  - destruct (Z.leb_spec (Z.of_nat (length (bads d s n))) 0); [lia|]. apply IH; lia.
Qed.

Lemma goods_bads_length d s n : (length (goods d s n) + length (bads d s n) = n)%nat.
Proof.
  revert s. induction n as [|n IH]; intros s; [done|]. rewrite goods_cons, bads_cons.
  specialize (IH (s + 1)). destruct (bad_in d s); cbn; lia.
Qed.

(** ** The mapping of a range *)

(** The blocks from [s] to [s + n] are one range for mapping. *)
Definition range_of (d : bmt_desc) (s : Z) (n : nat) : Prop :=
  0 <= s /\ forall block, s <= block < s + Z.of_nat n ->
  exists a z, mapping_block_in_range d block = Some (a, z) /\ Z.shiftr a (blk_shift d) = s /\
    Z.shiftr z (blk_shift d) = s + Z.of_nat n.

Lemma mapping_bbt_lookup d s n block :
  range_of d s n -> table_ok (s + Z.of_nat n) d -> s <= block < s + Z.of_nat n ->
  mapping_bbt d block = (goods d s n ++ bads d s n) !! Z.to_nat (block - s).
Proof.
  intros [Hs Hr] Ht Hb. destruct (Hr block Hb) as (a & z & E & Ea & Ez). unfold mapping_bbt. rewrite E, Ea, Ez.
  replace (Z.to_nat (s + Z.of_nat n - s)) with n by lia.
  pose proof (skip_bad_spec _ d n s (block - s) 0 Ht ltac:(lia) ltac:(lia) ltac:(lia)) as H.
  rewrite lookup_app. destruct (goods d s n !! Z.to_nat (block - s)) as [g|] eqn:Eg.
  - destruct H as (o & b & -> & Hg). cbn. destruct (Z.ltb_spec g (s + Z.of_nat n)); [done|lia].
  - rewrite H. cbn. rewrite Z.ltb_irrefl. pose proof (goods_bads_length d s n).
    apply lookup_ge_None in Eg. rewrite (use_bad_spec (s + Z.of_nat n)) by (done || lia). f_equal. lia.
Qed.

(** C25. In a range the mapping lists the good blocks in their order, and behind them the bad
    ones: it is a permutation of the blocks of the range, and a block is mapped to a bad one
    only if there are not enough good ones. *)
Theorem bbt_mapping_permutes d s n :
  range_of d s n -> table_ok (s + Z.of_nat n) d ->
  mapM (mapping_bbt d) (seqZ s (Z.of_nat n)) = Some (goods d s n ++ bads d s n) /\
  goods d s n ++ bads d s n ≡ₚ seqZ s (Z.of_nat n).
Proof.
  intros Hr Ht. split.
  - apply mapM_Some_2, Forall2_same_length_lookup_2.
    { rewrite length_seqZ, length_app, goods_bads_length. lia. }
    intros i x y [Hx Hi]%lookup_seqZ Hy. subst x. rewrite (mapping_bbt_lookup d s n) by (done || lia).
    rewrite <- Hy. f_equal. lia.
  - generalize s. clear. induction n as [|n IH]; intros s; [done|]. rewrite goods_cons, bads_cons, seqZ_cons by lia.
    replace (Z.pred (Z.of_nat (S n))) with (Z.of_nat n) by lia. replace (Z.succ s) with (s + 1) by lia.
    destruct (bad_in d s); [rewrite <- Permutation_middle|cbn]; by rewrite IH.
Qed.

(** ** Marking a block *)

Lemma goods_with n m d s k :
  table_ok n d -> 0 <= m < n -> 0 <= s -> s + Z.of_nat k <= n ->
  goods (with_state m true d) s k = filter (fun i => i <> m) (goods d s k).
Proof.
  intros Ht Hm. revert s. induction k as [|k IH]; intros s Hs Hn; [done|].
  rewrite !goods_cons, (bad_in_with n) by (done || lia). rewrite IH by lia.
  destruct (Z.eqb_spec s m) as [->|Hne].
  - destruct (bad_in d m); [done|]. rewrite filter_cons. by rewrite decide_False by (intros Hn'; by apply Hn').
  - destruct (bad_in d s); [done|]. rewrite filter_cons. by rewrite decide_True.
Qed.

Lemma filter_absent (l : list Z) m : m ∉ l -> filter (fun i => i <> m) l = l.
Proof.
  induction l as [|x l IH]; intros Hm; [done|]. rewrite filter_cons, decide_True by (intros ->; apply Hm; by constructor).
  f_equal. apply IH. intros Hx. apply Hm. by constructor.
Qed.

Lemma filter_delete (l : list Z) k m : NoDup l -> l !! k = Some m -> filter (fun i => i <> m) l = delete k l.
Proof.
  revert k. induction l as [|x l IH]; intros k Hd Hk; [done|]. apply list.NoDup_cons in Hd as [Hx Hd].
  rewrite filter_cons. destruct k as [|k].
  - injection Hk as ->. rewrite decide_False by (intros Hn; by apply Hn). cbn.
    by apply filter_absent.
  - cbn in Hk. rewrite decide_True by (intros ->; apply Hx; by eapply list_elem_of_lookup_2). cbn. f_equal. by apply IH.
Qed.

Lemma goods_nodup d s k : NoDup (goods d s k).
Proof. apply list.NoDup_filter, NoDup_seqZ. Qed.

Lemma goods_in d s k j m : goods d s k !! j = Some m -> s <= m < s + Z.of_nat k.
Proof. intros Hm%list_elem_of_lookup_2. apply list_elem_of_filter in Hm as [_ Hm]. by apply elem_of_seqZ in Hm. Qed.

Section Remap.
Context {N : Type} `{Nand N}.
Implicit Types (w : bmt_world N).

Lemma runs_set_state n block w :
  table_ok n (bmtd w) -> 0 <= block < n ->
  runs (bbt_set_block_state block true) w (fun _ w' => bmtd w' = with_state block true (bmtd w)).
Proof.
  intros (_ & _ & Hl) Hb. unfold bbt_set_block_state. apply runs_bind, runs_desc.
  destruct (lookup_lt_is_Some_2 (bbt_buf (bmtd w)) (Z.to_nat (block / 4))) as [c Hc].
  { apply Nat2Z.inj_lt. rewrite Z2Nat.id by (apply Z.div_pos; lia). apply Z.div_lt_upper_bound; lia. }
  rewrite Hc. apply runs_bind, runs_defined, runs_bind, runs_change_desc.
  eapply runs_step; [apply runs_erase|]. intros a w1 E1. cbn in E1. apply runs_bind, runs_desc.
  eapply runs_step; [apply runs_write_bmt|]. intros b w2 E2. apply runs_ret. rewrite E2, E1.
  unfold with_state. f_equal. rewrite list_insert_alter. apply list_alter_ext; [|done]. intros x Hx. cbn. rewrite Hc in Hx. by injection Hx as ->.
Qed.

(** C26. Marking the block of a logical block bad moves that block and all behind it in the
    range on by one good block: the logical block gets the place of the next one, which is
    erased and filled with the copy, and the next ones are found where their successors
    were. Nothing else is copied, so the contents of the next block are lost. *)
Theorem remap_block_bbt_shifts s n k m m1 len w :
  range_of (bmtd w) s n -> table_ok (s + Z.of_nat n) (bmtd w) ->
  goods (bmtd w) s n !! k = Some m -> goods (bmtd w) s n !! S k = Some m1 ->
  mapping_bbt (bmtd w) (s + Z.of_nat k) = Some m /\ mapping_bbt (bmtd w) (s + Z.of_nat k + 1) = Some m1 /\
  remap_block_bbt (s + Z.of_nat k) m len w =
    (bbt_set_block_state m true;; bbt_nand_erase m1;;
     (if 0 <? len then bbt_nand_copy m1 m len else mret 0);; mret true) w /\
  runs (remap_block_bbt (s + Z.of_nat k) m len) w (fun r w' =>
    r = true /\ exists rest, mapM (mapping_bbt (bmtd w')) (seqZ s (Z.of_nat n)) = Some (delete k (goods (bmtd w) s n) ++ rest)).
Proof.
  intros Hr Ht Hm Hm1. pose proof (goods_in _ _ _ _ _ Hm) as Hin. pose proof (goods_in _ _ _ _ _ Hm1) as Hin1.
  assert (Hk : (S k < n)%nat).
  { pose proof (goods_bads_length (bmtd w) s n). apply lookup_lt_Some in Hm1. lia. }
  destruct Hr as [Hs Hr']. assert (Hr : range_of (bmtd w) s n) by done.
  destruct (Hr' (s + Z.of_nat k) ltac:(lia)) as (a & z & Ea & _).
  assert (Hg : goods (with_state m true (bmtd w)) s n = delete k (goods (bmtd w) s n)).
  { rewrite (goods_with (s + Z.of_nat n)) by (done || lia). by apply filter_delete; [apply goods_nodup|]. }
  assert (Hmap : forall w', (exists b, bmtd w' = set_data b (with_state m true (bmtd w))) ->
    mapM (mapping_bbt (bmtd w')) (seqZ s (Z.of_nat n)) =
    Some (delete k (goods (bmtd w) s n) ++ bads (with_state m true (bmtd w)) s n)).
  { intros w' [b E]. rewrite E. rewrite <- Hg. apply (bbt_mapping_permutes (set_data b (with_state m true (bmtd w)))).
    - exact Hr.
    - exact (table_ok_with _ m true _ Ht ltac:(lia)). }
  assert (Hnew : forall w', bmtd w' = with_state m true (bmtd w) ->
    get_mapping_block_index_bbt (s + Z.of_nat k) w' = Ret m1 w').
  { intros w' E. unfold get_mapping_block_index_bbt, mbind, prog_bind, desc, mbind, prog_bind, get_st, mret, prog_ret.
    rewrite E. rewrite (mapping_bbt_lookup _ s n); [|exact Hr|exact (table_ok_with _ m true _ Ht ltac:(lia))|lia].
    rewrite Hg. replace (Z.to_nat (s + Z.of_nat k - s)) with k by lia.
    rewrite lookup_app, list_lookup_delete_ge by lia. by rewrite Hm1. }
  assert (Heq : remap_block_bbt (s + Z.of_nat k) m len w =
    (bbt_set_block_state m true;; bbt_nand_erase m1;;
     (if 0 <? len then bbt_nand_copy m1 m len else mret 0);; mret true) w).
  { pose proof (runs_set_state _ m w Ht ltac:(lia)) as Hset. unfold remap_block_bbt, desc, mbind, prog_bind, get_st, mret, prog_ret.
    rewrite Ea. unfold runs in Hset. destruct (bbt_set_block_state m true w) as [u w1| |]; [|done..].
    rewrite (Hnew w1 Hset). destruct Ht as (_ & Hn & _). by rewrite (wrap_small 16) by lia. }
  split; [|split; [|split; [done|]]].
  - rewrite (mapping_bbt_lookup _ s n) by (done || lia). replace (Z.to_nat (s + Z.of_nat k - s)) with k by lia.
    by rewrite (lookup_app_l_Some _ _ _ _ Hm).
  - rewrite (mapping_bbt_lookup _ s n) by (done || lia). replace (Z.to_nat (s + Z.of_nat k + 1 - s)) with (S k) by lia.
    by rewrite (lookup_app_l_Some _ _ _ _ Hm1).
  - unfold runs. rewrite Heq. eapply runs_step; [apply (runs_set_state _ m w Ht); lia|]. intros u w1 E1.
    eapply runs_step; [apply runs_erase|]. intros r w2 E2. eapply runs_step.
    { instantiate (1 := fun _ w3 => keeps_desc w2 w3). destruct (0 <? len); [apply runs_nand_copy|].
      apply runs_ret. exists (data_buf (bmtd w2)). by rewrite set_data_same. }
    intros r3 w3 [b E3]. apply runs_ret. split; [done|]. eexists. apply Hmap. exists b. by rewrite E3, E2, E1.
Qed.
End Remap.
