(* ===== verification/BmtV2.v ===== *)
(** * Bad blocks of NAND flash: the table of replacements

    Models [target/linux/generic/files/drivers/mtd/nand/mtk_bmt_v2.c]: a table gives the
    place of each block, and a pool of spare blocks behind it replaces those that fail. The
    last usable block of the pool holds the table. *)

From Stdlib Require Import ZArith Lia.
From stdpp Require Import base list numbers option.
From S2P Require Import Prelude Bmt.

Definition BBMT_VERSION : Z := 2.
Definition NO_MAPPED : Z := 0.
Definition NORMAL_MAPPED : Z := 1.
Definition BMT_MAPPED : Z := 2.
Definition BBPOOL_RATIO : Z := 2.
Definition BMT_TBL_DEF_VAL : Z := 0.

(** [BMT] and [bmt] *)
Definition main_sig : list Z := [66; 77; 84].
Definition v2_sig : list Z := [98; 109; 116].

(** [struct bbbt] in the buffer: three bytes of signature, a byte of version, the table of
    blocks, and behind it the table of the pool with two numbers per block. *)
Definition bb_tbl_at (i : Z) : Z := 4 + 2 * i.
Definition bmt_tbl_at (d : bmt_desc) (i : Z) : Z := 4 + 2 * table_size d + 4 * i.
Definition mapped_at (d : bmt_desc) (i : Z) : Z := bmt_tbl_at d i + 2.

Section V2.
(** The byte order of the host. *)
Context {N : Type} `{Nand N} (e : endian).

(** [None] outside of the buffer. *)
Definition get_u16 (buf : list Z) (off : Z) : option Z :=
  if (0 <=? off) && (off + 2 <=? Z.of_nat (length buf)) then Some (load e (slice (Z.to_nat off) 2 buf)) else None.

Definition put_u16 (off v : Z) (buf : list Z) : option (list Z) :=
  if (0 <=? off) && (off + 2 <=? Z.of_nat (length buf)) then Some (Prelude.write (Z.to_nat off) (store e 2 v) buf) else None.

Definition load16 (off : Z) : prog (bmt_world N) Z := d ← desc; defined (get_u16 (bbt_buf d) off).
Definition store16 (off v : Z) : prog (bmt_world N) unit :=
  d ← desc; buf ← defined (put_u16 off v (bbt_buf d)); change_desc (set_buf buf).

Definition get_bb (i : Z) : prog (bmt_world N) Z := load16 (bb_tbl_at i).
Definition put_bb (i v : Z) : prog (bmt_world N) unit := store16 (bb_tbl_at i) v.
Definition get_block (i : Z) : prog (bmt_world N) Z := d ← desc; load16 (bmt_tbl_at d i).
Definition put_block (i v : Z) : prog (bmt_world N) unit := d ← desc; store16 (bmt_tbl_at d i) v.
Definition get_mapped (i : Z) : prog (bmt_world N) Z := d ← desc; load16 (mapped_at d i).
Definition put_mapped (i v : Z) : prog (bmt_world N) unit := d ← desc; store16 (mapped_at d i) v.

(** ** Looking for good blocks *)

(** [k] more bad blocks are accepted. *)
Fixpoint find_valid (k : nat) (block : Z) : prog (bmt_world N) Z :=
  d ← desc;
  if total_blks d <=? block then mret 0
  else
    '(ret, dat, fdm) ← bbt_nand_read (blk_pg d block) (pg_size d) 4;
    change_desc (fun d => set_data (Prelude.write 0 dat (data_buf d)) d);;
    bad ← (if negb (ret =? 0) then mret true else mark ← defined (fdm !! O); mret (negb (mark =? 255)));
    if bad : bool then match k with O => mret 0 | S k => find_valid k (u16 (block + 1)) end
    else mret block.

Definition find_valid_block (block : Z) : prog (bmt_world N) Z :=
  d ← desc; find_valid (Z.to_nat (bb_max d)) (u16 block).

Fixpoint scan_data (n : nat) (i : Z) : prog (bmt_world N) Z :=
  match n with
  | O => mret 0
  | S n =>
      prev ← get_bb (i - 1);
      block ← find_valid_block (prev + 1);
      put_bb i block;;
      if block =? 0 then mret (-1) else scan_data n (i + 1)
  end.

(** The number of blocks found. *)
Fixpoint scan_pool (fuel : nat) (i block : Z) : prog (bmt_world N) Z :=
  match fuel with
  | O => undef
  | S fuel =>
      block ← find_valid_block block;
      if block =? 0 then mret i
      else
        put_block i block;;
        put_mapped i NO_MAPPED;;
        scan_pool fuel (i + 1) (u16 (block + 1))
  end.

Definition scan_bad_blocks : prog (bmt_world N) Z :=
  d ← desc;
  put_bb 0 0;;
  r ← scan_data (Z.to_nat (pool_lba d - 1)) 1;
  if negb (r =? 0) then mret (-1)
  else
    last ← get_bb (Z.max 1 (pool_lba d) - 1);
    change_desc (set_pool_pba (u16 (last + 1)));;
    d ← desc;
    if total_blks d - 2 <=? pool_pba d then mret (-1)
    else
      i ← scan_pool (Z.to_nat (total_blks d) + 1) 0 (pool_pba d);
      change_desc (set_idx (u16 (i - 1)));;
      put_mapped (u16 (i - 1)) BMT_MAPPED;;
      mret (if i <? 1 then -1 else 0).

(** ** The table on the flash *)

Definition is_valid_bmt (buf fdm : list Z) : bool :=
  bool_decide (take 3 (drop MAIN_SIGNATURE_OFFSET buf) = main_sig) && bool_decide (take 3 (drop 1 fdm) = v2_sig) &&
  bool_decide (buf !! 3%nat = Some BBMT_VERSION).

(** Nothing but a free entry ends the loop. *)
Fixpoint bmt_index (fuel : nat) (i : Z) : prog (bmt_world N) Z :=
  match fuel with
  | O => undef
  | S fuel =>
      block ← get_block i;
      if block =? BMT_TBL_DEF_VAL then mret 0
      else
        mapped ← get_mapped i;
        if mapped =? BMT_MAPPED then mret (u16 i) else bmt_index fuel (i + 1)
  end.

(** More rounds than the buffer has entries. *)
Definition get_bmt_index : prog (bmt_world N) Z := d ← desc; bmt_index (length (bbt_buf d)) 0.

Fixpoint upload_from (k : nat) (n : Z) : prog (bmt_world N) Z :=
  match k with
  | O => mret (u16 (-1))
  | S k =>
      mapped ← get_mapped n;
      if mapped =? NORMAL_MAPPED then mret (u16 (-1))
      else
        block ← get_block n;
        ret ← bbt_nand_erase block;
        if negb (ret =? 0) then put_block n 0;; upload_from k (n - 1)
        else
          change_desc (fun d => set_buf (Prelude.write MAIN_SIGNATURE_OFFSET (main_sig ++ [BBMT_VERSION]) (bbt_buf d)) d);;
          d ← desc;
          ret ← write_bmt v2_sig block (bbt_buf d);
          if negb (ret =? 0) then put_block n 0;; upload_from k (n - 1)
          else mret (u16 n)
  end.

(** From [n] down to 0. *)
Definition upload_bmt (n : Z) : prog (bmt_world N) Z := upload_from (Z.to_nat (n + 1)) n.

Fixpoint pool_from (k : nat) (i : Z) : prog (bmt_world N) Z :=
  match k with
  | O => mret 0
  | S k =>
      block ← get_block i;
      mapped ← (if block =? 0 then mret NORMAL_MAPPED else get_mapped i);
      if mapped =? NO_MAPPED then put_mapped i NORMAL_MAPPED;; get_block i else pool_from k (i + 1)
  end.

Definition find_valid_block_in_pool : prog (bmt_world N) Z :=
  d ← desc; pool_from (Z.to_nat (bmt_blk_idx d)) 0.

Definition upload : prog (bmt_world N) unit :=
  d ← desc; idx ← upload_bmt (bmt_blk_idx d); change_desc (set_idx idx).

(** ** The operations *)

Definition remap_block_v2 (block mapped_block copy_len : Z) : prog (bmt_world N) bool :=
  new_block ← find_valid_block_in_pool;
  if new_block =? 0 then mret false
  else
    put_bb block new_block;;
    bbt_nand_erase new_block;;
    (if 0 <? copy_len then bbt_nand_copy new_block mapped_block copy_len else mret 0);;
    upload;;
    mret true.

Definition get_mapping_block_index_v2 (block : Z) : prog (bmt_world N) Z :=
  d ← desc;
  if pool_lba d <=? block then mret block
  else match mapping_block_in_range d block with None => mret block | Some _ => get_bb block end.

Definition unmap_block_v2 (block : Z) : prog (bmt_world N) unit := put_bb block block;; upload.

(** ** Debugging *)

(** The first entry of the pool that holds the block. *)
Fixpoint pool_entry (n : nat) (k block : Z) : prog (bmt_world N) (option Z) :=
  match n with
  | O => mret None
  | S n => b ← get_block k; if block =? b then mret (Some k) else pool_entry n (k + 1) block
  end.

Fixpoint mapping_mask (n : nat) (i : Z) (used : list Z) : prog (bmt_world N) (list Z) :=
  match n with
  | O => mret used
  | S n =>
      d ← desc;
      b ← get_bb i;
      if b =? i then mapping_mask n (i + 1) used
      else
        o ← pool_entry (Z.to_nat (bmt_blk_idx d)) 0 b;
        mapping_mask n (i + 1) (match o with Some k => k :: used | None => used end)
  end.

(** The bits that are set. *)
Definition mtk_bmt_get_mapping_mask : prog (bmt_world N) (list Z) :=
  d ← desc;
  mapping_mask (Z.to_nat (s32 (Z.shiftr (mtd_size d) (blk_shift d)) - 1)) 1 [].

(** How many entries were freed. *)
Fixpoint free_unused (n : nat) (i : Z) (used : list Z) : prog (bmt_world N) Z :=
  match n with
  | O => mret 0
  | S n =>
      mapped ← get_mapped i;
      if negb (mapped =? NORMAL_MAPPED) || bool_decide (i ∈ used) then free_unused n (i + 1) used
      else put_mapped i NO_MAPPED;; r ← free_unused n (i + 1) used; mret (r + 1)
  end.

(** [val] 100 frees the entries that no block uses; 0 prints the tables. *)
Definition mtk_bmt_debug_v2 (alloc : bool) (val : Z) : prog (bmt_world N) Z :=
  if negb alloc then mret (- ENOMEM)
  else
    used ← mtk_bmt_get_mapping_mask;
    (if val =? 100 then
       d ← desc;
       n_remap ← free_unused (Z.to_nat (bmt_blk_idx d + 1)) 0 used;
       if negb (n_remap =? 0) then upload else mret tt
     else mret tt);;
    mret 0.

(** ** Initialisation *)

(** Backwards over the pool; the result says whether a table was found. *)
Fixpoint search_table (k : nat) (block bufsz : Z) : prog (bmt_world N) bool :=
  match k with
  | O => mret false
  | S k =>
      d ← desc;
      '(ret, dat, fdm) ← bbt_nand_read (blk_pg d block) bufsz 4;
      change_desc (fun d => set_buf (Prelude.write 0 dat (bbt_buf d)) d);;
      d ← desc;
      if negb (ret =? 0) then search_table k (block - 1) bufsz
      else if negb (is_valid_bmt (bbt_buf d) fdm) then search_table k (block - 1) bufsz
      else
        idx ← get_bmt_index;
        change_desc (set_idx idx);;
        mret (negb (idx =? 0))
  end.

(** [memset] of the pool's table, of [table_size] entries. *)
Definition clear_pool : prog (bmt_world N) unit :=
  d ← desc;
  if bmt_tbl_at d (table_size d) <=? Z.of_nat (length (bbt_buf d)) then
    change_desc (fun d => set_buf
      (Prelude.write (Z.to_nat (bmt_tbl_at d 0)) (replicate (Z.to_nat (4 * table_size d)) BMT_TBL_DEF_VAL) (bbt_buf d)) d)
  else undef.

Definition round_to (n m : Z) : Z := (n + m - 1) / m * m.

(** The properties of the device tree, and whether the memory can be had. The search ends
    above block 0, since the pool begins behind it. *)
Definition mtk_bmt_init_v2 (bmt_pool_size bmt_table_size : Z) (alloc : bool) : prog (bmt_world N) Z :=
  d ← desc;
  let pmt_block := u16 (total_blks d - bmt_pool_size - 2) in
  let bufsz := u32 (round_to (4 + bmt_table_size * 4) (pg_size d)) in
  change_desc (fun d => set_layout bmt_table_size (u16 (pmt_block + 2)) (u16 (total_blks d * BBPOOL_RATIO / 100))
    (Z.shiftr bufsz (pg_shift d)) (u64 (s32 (Z.shiftl pmt_block (blk_shift d)))) d);;
  if negb alloc then mret (- ENOMEM)
  else
    change_desc (set_buf (replicate (Z.to_nat bufsz) 255));;
    d ← desc;
    found ← search_table (Z.to_nat (total_blks d - pool_lba d)) (total_blks d - 1) bufsz;
    if found : bool then mret 0
    else if table_size d + table_size d * BBPOOL_RATIO / 100 <? total_blks d then mret (-1)
    else
      clear_pool;;
      r ← scan_bad_blocks;
      if negb (r =? 0) then mret (-1)
      else
        upload;;
        d ← desc;
        get_block (bmt_blk_idx d);;
        mret (if bmt_blk_idx d =? 65535 then -1 else 0).

Definition mtk_bmt_v2_ops : mtk_bmt_ops N := {|
  remap_block := remap_block_v2;
  unmap_block := unmap_block_v2;
  get_mapping_block := get_mapping_block_index_v2
|}.
End V2.
