(* ===== verification/BmtV2Proofs.v ===== *)
(** * The table of replacements stays one

    The numbers in the buffer of the table, what the search for a free block and the
    upload leave of them, and the invariant that [remap_block_v2] keeps. *)

From Stdlib Require Import ZArith Lia.
From stdpp Require Import base list numbers option.
From S2P Require Import Prelude Bmt BmtV2.

(** ** Numbers in the buffer *)

Section Buffer.
Context (e : endian).

Definition in_buf (buf : list Z) (off : Z) : Prop := 0 <= off /\ off + 2 <= Z.of_nat (length buf).

Lemma in_buf_test buf off : (0 <=? off) && (off + 2 <=? Z.of_nat (length buf)) = true <-> in_buf buf off.
Proof. unfold in_buf. rewrite andb_true_iff, Z.leb_le, Z.leb_le. done. Qed.

(** The number at an offset, 0 outside of the buffer. *)
Definition num (buf : list Z) (off : Z) : Z := default 0 (get_u16 e buf off).

Lemma get16_in buf off : in_buf buf off -> get_u16 e buf off = Some (num buf off).
Proof. intros Hi%in_buf_test. unfold num, get_u16. by rewrite Hi. Qed.

(** The buffer with a number put in. *)
Definition with_num (off v : Z) (buf : list Z) : list Z := Prelude.write (Z.to_nat off) (store e 2 v) buf.

Lemma put16_in buf off v : in_buf buf off -> put_u16 e off v buf = Some (with_num off v buf).
Proof. intros Hi%in_buf_test. unfold put_u16. by rewrite Hi. Qed.

Lemma length_with_num off v buf : in_buf buf off -> length (with_num off v buf) = length buf.
Proof.
  intros [H0 H1]. unfold with_num, Prelude.write. rewrite !length_app, length_take, length_drop, store_length. lia.
Qed.

Lemma in_buf_with_num off v buf o : in_buf buf off -> in_buf (with_num off v buf) o <-> in_buf buf o.
Proof. intros H. unfold in_buf. by rewrite length_with_num. Qed.

Lemma num_with_num off v buf : in_buf buf off -> 0 <= v < 65536 -> num (with_num off v buf) off = v.
Proof.
  intros Hi Hv. pose proof Hi as [H0 H1]. unfold num. rewrite get16_in by (by apply in_buf_with_num).
  unfold num, get_u16. rewrite (proj2 (in_buf_test _ _)) by (by apply in_buf_with_num). cbn.
  unfold with_num. assert (Hl : length (store e 2 v) = 2%nat) by apply store_length.
  pose proof (slice_write_eq (Z.to_nat off) (store e 2 v) buf) as Hs. rewrite Hl in Hs. rewrite Hs by lia. rewrite load_store. by rewrite Z.mod_small.
Qed.

Lemma num_with_num_ne off v buf o : in_buf buf off -> o + 2 <= off \/ off + 2 <= o -> num (with_num off v buf) o = num buf o.
Proof.
  intros Hi Ho. pose proof Hi as [H0 H1]. unfold num, get_u16. rewrite length_with_num by done.
  destruct ((0 <=? o) && (o + 2 <=? Z.of_nat (length buf))) eqn:E; [|done]. apply in_buf_test in E as [E0 E1]. cbn. f_equal.
  unfold with_num. assert (Hl : length (store e 2 v) = 2%nat) by apply store_length.
  apply slice_write_ne; rewrite Hl; lia.
Qed.

Lemma bytes_with_num off v buf : bytes_ok buf -> bytes_ok (with_num off v buf).
Proof. intros Hb. apply bytes_ok_write; [apply store_ok|done]. Qed.

Lemma num_range buf off : bytes_ok buf -> 0 <= num buf off < 65536.
Proof.
  intros Hb. unfold num, get_u16. destruct (_ && _) eqn:E; [|cbn; lia]. apply in_buf_test in E as [E0 E1]. cbn.
  pose proof (load_range e (slice (Z.to_nat off) 2 buf) (bytes_ok_slice _ _ _ Hb)) as Hr.
  rewrite length_slice in Hr by lia. exact Hr.
Qed.

(** The signature is in front of the numbers. *)
Lemma num_signature buf o : (4 <= length buf)%nat -> 4 <= o -> num (Prelude.write 0 (main_sig ++ [BBMT_VERSION]) buf) o = num buf o.
Proof.
  intros Hl Ho. unfold num, get_u16.
  assert (Hlen : length (Prelude.write 0 (main_sig ++ [BBMT_VERSION]) buf) = length buf).
  { unfold Prelude.write. rewrite !length_app, length_take, length_drop. cbn. lia. }
  rewrite Hlen. destruct ((0 <=? o) && _) eqn:E; [|done]. apply in_buf_test in E as [E0 E1]. cbn. f_equal.
  apply slice_write_ne; cbn; lia.
Qed.
End Buffer.

(** ** The tables *)

Section Tables.
Context {N : Type} `{Nand N} (e : endian).
Implicit Types (w : bmt_world N).

Definition bb (d : bmt_desc) (i : Z) : Z := num e (bbt_buf d) (bb_tbl_at i).
Definition blk (d : bmt_desc) (i : Z) : Z := num e (bbt_buf d) (bmt_tbl_at d i).
Definition mapped (d : bmt_desc) (i : Z) : Z := num e (bbt_buf d) (mapped_at d i).

(** The buffer has the table of blocks and [n] entries of the pool. *)
Definition has_room (d : bmt_desc) (n : Z) : Prop :=
  0 <= table_size d /\ 0 <= n /\ bmt_tbl_at d n <= Z.of_nat (length (bbt_buf d)) /\ bytes_ok (bbt_buf d).

Definition set_num (off v : Z) (d : bmt_desc) : bmt_desc := set_buf (with_num e off v (bbt_buf d)) d.

Lemma room_le d m n : has_room d m -> 0 <= n <= m -> has_room d n.
Proof. unfold has_room, bmt_tbl_at. intros (? & ? & ? & ?) ?. repeat split; (done || lia). Qed.

Lemma in_bb d n i : has_room d n -> 0 <= i < table_size d -> in_buf (bbt_buf d) (bb_tbl_at i).
Proof. unfold has_room, in_buf, bmt_tbl_at, bb_tbl_at. lia. Qed.

Lemma in_blk d n i : has_room d n -> 0 <= i < n -> in_buf (bbt_buf d) (bmt_tbl_at d i).
Proof. unfold has_room, in_buf, bmt_tbl_at. lia. Qed.

Lemma in_mapped d n i : has_room d n -> 0 <= i < n -> in_buf (bbt_buf d) (mapped_at d i).
Proof. unfold has_room, in_buf, mapped_at, bmt_tbl_at. lia. Qed.

Lemma room_set_num d n off v : has_room d n -> in_buf (bbt_buf d) off -> has_room (set_num off v d) n.
Proof.
  intros (H0 & H1 & H2 & H3) Hi. split; [done|]. split; [done|]. split; [|by apply bytes_with_num].
  cbn. by rewrite length_with_num.
Qed.

(** *** One number is written *)

Lemma bb_put_bb d n i v j :
  has_room d n -> 0 <= i < table_size d -> 0 <= v < 65536 -> bb (set_num (bb_tbl_at i) v d) j = if j =? i then v else bb d j.
Proof.
  intros Hr Hi Hv. pose proof (in_bb d n i Hr Hi) as Hin. unfold bb. cbn. destruct (Z.eqb_spec j i) as [->|Hne].
  - by apply num_with_num.
  - apply num_with_num_ne; [done|]. unfold bb_tbl_at. lia.
Qed.

Lemma blk_put_bb d n i v j : has_room d n -> 0 <= i < table_size d -> 0 <= j -> blk (set_num (bb_tbl_at i) v d) j = blk d j.
Proof.
  intros Hr Hi Hj. pose proof (in_bb d n i Hr Hi) as Hin. unfold blk. cbn.
  apply num_with_num_ne; [done|]. unfold bb_tbl_at, bmt_tbl_at. cbn. lia.
Qed.

Lemma mapped_put_bb d n i v j : has_room d n -> 0 <= i < table_size d -> 0 <= j -> mapped (set_num (bb_tbl_at i) v d) j = mapped d j.
Proof.
  intros Hr Hi Hj. pose proof (in_bb d n i Hr Hi) as Hin. unfold mapped. cbn.
  apply num_with_num_ne; [done|]. unfold bb_tbl_at, mapped_at, bmt_tbl_at. cbn. lia.
Qed.

Lemma bb_put_mapped d n i v j : has_room d n -> 0 <= i < n -> j < table_size d -> bb (set_num (mapped_at d i) v d) j = bb d j.
Proof.
  intros Hr Hi Hj. pose proof (in_mapped d n i Hr Hi) as Hin. unfold bb. cbn.
  apply num_with_num_ne; [done|]. unfold bb_tbl_at, mapped_at, bmt_tbl_at. lia.
Qed.

Lemma blk_put_mapped d n i v j : has_room d n -> 0 <= i < n -> blk (set_num (mapped_at d i) v d) j = blk d j.
Proof.
  intros Hr Hi. pose proof (in_mapped d n i Hr Hi) as Hin. unfold blk. cbn.
  apply num_with_num_ne; [done|]. unfold mapped_at, bmt_tbl_at. cbn. lia.
Qed.

Lemma mapped_put_mapped d n i v j :
  has_room d n -> 0 <= i < n -> 0 <= v < 65536 -> mapped (set_num (mapped_at d i) v d) j = if j =? i then v else mapped d j.
Proof.
  intros Hr Hi Hv. pose proof (in_mapped d n i Hr Hi) as Hin. unfold mapped. cbn. destruct (Z.eqb_spec j i) as [->|Hne].
  - by apply num_with_num.
  - apply num_with_num_ne; [done|]. unfold mapped_at, bmt_tbl_at. cbn. lia.
Qed.

Lemma bb_put_blk d n i v j : has_room d n -> 0 <= i < n -> j < table_size d -> bb (set_num (bmt_tbl_at d i) v d) j = bb d j.
Proof.
  intros Hr Hi Hj. pose proof (in_blk d n i Hr Hi) as Hin. unfold bb. cbn.
  apply num_with_num_ne; [done|]. unfold bb_tbl_at, bmt_tbl_at. lia.
Qed.

Lemma blk_put_blk d n i v j :
  has_room d n -> 0 <= i < n -> 0 <= v < 65536 -> blk (set_num (bmt_tbl_at d i) v d) j = if j =? i then v else blk d j.
Proof.
  intros Hr Hi Hv. pose proof (in_blk d n i Hr Hi) as Hin. unfold blk. cbn. destruct (Z.eqb_spec j i) as [->|Hne].
  - by apply num_with_num.
  - apply num_with_num_ne; [done|]. unfold bmt_tbl_at. cbn. lia.
Qed.

Lemma mapped_put_blk d n i v j : has_room d n -> 0 <= i < n -> mapped (set_num (bmt_tbl_at d i) v d) j = mapped d j.
Proof.
  intros Hr Hi. pose proof (in_blk d n i Hr Hi) as Hin. unfold mapped. cbn.
  apply num_with_num_ne; [done|]. unfold mapped_at, bmt_tbl_at. cbn. lia.
Qed.

(** *** Programs *)

Lemma runs_load16 off w (Q : Z -> bmt_world N -> Prop) :
  in_buf (bbt_buf (bmtd w)) off -> Q (num e (bbt_buf (bmtd w)) off) w -> runs (load16 e off) w Q.
Proof.
  intros Hi HQ. unfold load16. apply runs_bind, runs_desc. rewrite get16_in by done. by apply runs_defined.
Qed.

Lemma runs_store16 off v w (Q : unit -> bmt_world N -> Prop) :
  in_buf (bbt_buf (bmtd w)) off -> Q tt (BmtWorld (set_num off v (bmtd w)) (nand w)) -> runs (store16 e off v) w Q.
Proof.
  intros Hi HQ. unfold store16. apply runs_bind, runs_desc. rewrite put16_in by done.
  apply runs_bind, runs_defined. by apply runs_change_desc.
Qed.

(** A spare block is taken, if there is one. *)
Lemma runs_pool_from k i w :
  has_room (bmtd w) (i + Z.of_nat k) -> 0 <= i ->
  runs (pool_from e k i) w (fun r w' =>
    (r = 0 /\ w' = w) \/
    exists n, i <= n < i + Z.of_nat k /\ r = blk (bmtd w) n /\ r <> 0 /\ mapped (bmtd w) n = NO_MAPPED /\
      w' = BmtWorld (set_num (mapped_at (bmtd w) n) NORMAL_MAPPED (bmtd w)) (nand w)).
Proof.
  revert i. induction k as [|k IH]; intros i Hr Hi; cbn [pool_from]; [apply runs_ret; by left|].
  assert (Hin : 0 <= i < i + Z.of_nat (S k)) by lia.
  apply runs_bind, runs_bind, runs_desc. apply runs_load16; [by eapply in_blk|]. fold (blk (bmtd w) i).
  assert (Hnext : runs (pool_from e k (i + 1)) w (fun r w' =>
    (r = 0 /\ w' = w) \/
    exists n, i <= n < i + Z.of_nat (S k) /\ r = blk (bmtd w) n /\ r <> 0 /\ mapped (bmtd w) n = NO_MAPPED /\
      w' = BmtWorld (set_num (mapped_at (bmtd w) n) NORMAL_MAPPED (bmtd w)) (nand w))).
  { pose proof (IH (i + 1)) as IH'. replace (i + 1 + Z.of_nat k) with (i + Z.of_nat (S k)) in IH' by lia.
    eapply runs_mono; [apply IH'; [done|lia]|].
    intros r w' [?|(n & ? & ?)]; [by left|]. right. exists n. split; [lia|done]. }
  destruct (Z.eqb_spec (blk (bmtd w) i) 0) as [E|E]; [by apply runs_bind, runs_ret|].
  apply runs_bind, runs_bind, runs_desc. apply runs_load16; [by eapply in_mapped|]. fold (mapped (bmtd w) i).
  destruct (Z.eqb_spec (mapped (bmtd w) i) NO_MAPPED) as [Em|Em]; [|done].
  apply runs_bind, runs_bind, runs_desc. apply runs_store16; [by eapply in_mapped|].
  assert (Hr' : has_room (set_num (mapped_at (bmtd w) i) NORMAL_MAPPED (bmtd w)) (i + Z.of_nat (S k))).
  { apply room_set_num; [done|]. by eapply in_mapped. }
  apply runs_bind, runs_desc. apply runs_load16; [exact (in_blk _ _ i Hr' Hin)|]. right. exists i. split; [lia|].
  assert (Eb : num e (bbt_buf (set_num (mapped_at (bmtd w) i) NORMAL_MAPPED (bmtd w)))
    (bmt_tbl_at (set_num (mapped_at (bmtd w) i) NORMAL_MAPPED (bmtd w)) i) = blk (bmtd w) i) by exact (blk_put_mapped _ _ i _ i Hr Hin).
  cbn [bmtd]. rewrite Eb. done.
Qed.

(** ** Writing the table *)

(** [d'] has the tables of [d], but for entries of the pool that are cleared. *)
Record v2_kept (d d' : bmt_desc) : Prop := {
  k_same : exists b, d' = set_buf b d /\ length b = length (bbt_buf d) /\ bytes_ok b;
  k_bb : forall j, 0 <= j < table_size d -> bb d' j = bb d j;
  k_mapped : forall j, 0 <= j -> mapped d' j = mapped d j;
  k_blk : forall j, 0 <= j -> blk d' j = blk d j \/ blk d' j = 0
}.

Lemma v2_kept_refl d n : has_room d n -> v2_kept d d.
Proof. intros (_ & _ & _ & Hb). split; auto. exists (bbt_buf d). by destruct d. Qed.

Lemma v2_kept_trans d1 d2 d3 : v2_kept d1 d2 -> v2_kept d2 d3 -> v2_kept d1 d3.
Proof.
  intros [(b1 & E1 & L1 & B1) H1 H2 H3] [(b2 & E2 & L2 & B2) H4 H5 H6].
  assert (Et : table_size d2 = table_size d1) by by rewrite E1.
  split.
  - exists b2. rewrite E2, L2, E1. by destruct d1.
  - intros j Hj. rewrite H4 by (rewrite Et; done). by apply H1.
  - intros j Hj. by rewrite H5, H2.
  - intros j Hj. destruct (H6 j Hj) as [E|E]; [rewrite E; by apply H3|by right].
Qed.

Lemma kept_room d d' n : v2_kept d d' -> has_room d n -> has_room d' n.
Proof.
  intros [(b & -> & L & B) _ _ _] (H0 & H1 & H2 & _). split; [done|]. split; [done|]. split; [|done]. cbn. rewrite L. exact H2.
Qed.

Lemma kept_clear d n i : has_room d n -> 0 <= i < n -> v2_kept d (set_num (bmt_tbl_at d i) 0 d).
Proof.
  intros Hr Hi. pose proof (in_blk d n i Hr Hi) as Hin. split.
  - eexists. split; [done|]. split; [by apply length_with_num|]. by apply bytes_with_num, Hr.
  - intros j Hj. apply (bb_put_blk d n); [done|done|lia].
  - intros j Hj. by apply (mapped_put_blk d n).
  - intros j Hj. rewrite (blk_put_blk d n) by (done || lia). destruct (j =? i); [by right|by left].
Qed.

(** The buffer with the signature. *)
Definition signed (d : bmt_desc) : bmt_desc := set_buf (Prelude.write MAIN_SIGNATURE_OFFSET (main_sig ++ [BBMT_VERSION]) (bbt_buf d)) d.

Lemma room_length d n : has_room d n -> (4 <= length (bbt_buf d))%nat.
Proof. unfold has_room, bmt_tbl_at. lia. Qed.

Lemma num_signed d n o : has_room d n -> 4 <= o -> num e (bbt_buf (signed d)) o = num e (bbt_buf d) o.
Proof. intros Hr Ho. apply num_signature; [by eapply room_length|done]. Qed.

Lemma blk_signed d n j : has_room d n -> 0 <= j -> blk (signed d) j = blk d j.
Proof. intros Hr Hj. apply (num_signed d n); [done|]. destruct Hr as [Ht _]. unfold bmt_tbl_at. cbn. lia. Qed.

Lemma kept_signed d n : has_room d n -> v2_kept d (signed d).
Proof.
  intros Hr. pose proof (room_length d n Hr) as Hl. pose proof Hr as (Ht & _ & _ & Hb). split.
  - eexists. split; [done|]. split.
    + unfold Prelude.write. rewrite !length_app, length_take, length_drop. cbn. lia.
    + apply bytes_ok_write; [|done]. repeat constructor; done.
  - intros j Hj. apply (num_signed d n); [done|]. unfold bb_tbl_at. lia.
  - intros j Hj. apply (num_signed d n); [done|]. unfold mapped_at, bmt_tbl_at. cbn. lia.
  - intros j Hj. left. by apply (blk_signed d n).
Qed.

(** What becomes of the table when it is written from the entry [n] on. *)
Definition uploaded (n : Z) (d : bmt_desc) (r : Z) (d' : bmt_desc) : Prop :=
  v2_kept d d' /\
  (r = 65535 \/ (0 <= r <= n /\ mapped d r <> NORMAL_MAPPED /\ forall j, 0 <= j <= r -> blk d' j = blk d j)).

Lemma uploaded_next n d d1 r d' :
  v2_kept d d1 -> (forall j, 0 <= j < n -> blk d1 j = blk d j) -> uploaded (n - 1) d1 r d' -> uploaded n d r d'.
Proof.
  intros Hk Hb [Hk' Hr]. split; [by eapply v2_kept_trans|]. destruct Hr as [?|(Hr & Hm & Hl)]; [by left|right].
  split; [lia|]. split; [by rewrite <- (k_mapped _ _ Hk) by lia|]. intros j Hj. rewrite Hl by done. apply Hb. lia.
Qed.

Lemma runs_upload_from k n w :
  n = Z.of_nat k - 1 -> n < 65535 -> has_room (bmtd w) (n + 1) ->
  runs (upload_from e k n) w (fun r w' => uploaded n (bmtd w) r (bmtd w')).
Proof.
  revert n w. induction k as [|k IH]; intros n w Hn Hmax Hr; cbn [upload_from].
  { apply runs_ret. split; [by eapply v2_kept_refl|by left]. }
  assert (Hin : 0 <= n < n + 1) by lia.
  apply runs_bind, runs_bind, runs_desc. apply runs_load16; [by eapply in_mapped|]. fold (mapped (bmtd w) n).
  destruct (Z.eqb_spec (mapped (bmtd w) n) NORMAL_MAPPED) as [Em|Em].
  { apply runs_ret. split; [by eapply v2_kept_refl|by left]. }
  apply runs_bind, runs_bind, runs_desc. apply runs_load16; [by eapply in_blk|]. fold (blk (bmtd w) n).
  eapply runs_step; [apply runs_erase|]. intros ret w1 E1. destruct (negb (ret =? 0)) eqn:Er.
  { apply runs_bind, runs_bind, runs_desc. rewrite E1. apply runs_store16; [rewrite E1; by eapply in_blk|].
    pose proof (kept_clear (bmtd w) (n + 1) n Hr Hin) as Hk. rewrite E1.
    eapply runs_mono; [apply IH; [lia|lia|]|].
    - cbn. replace (n - 1 + 1) with n by lia. apply (kept_room (bmtd w)); [done|]. apply (room_le _ (n + 1)); [done|lia].
    - intros r w' Hu. eapply uploaded_next; [exact Hk| |exact Hu]. intros j Hj. rewrite (blk_put_blk _ (n + 1)) by (done || lia).
      destruct (Z.eqb_spec j n); [lia|done]. }
  apply runs_bind, runs_change_desc. fold (signed (bmtd w1)). rewrite E1. apply runs_bind, runs_desc.
  pose proof (kept_signed (bmtd w) (n + 1) Hr) as Hs.
  eapply runs_step; [apply runs_write_bmt|]. intros ret2 w2 E2. cbn [bmtd] in E2.
  destruct (negb (ret2 =? 0)).
  { assert (Hrs : has_room (signed (bmtd w)) (n + 1)) by (by eapply kept_room).
    apply runs_bind, runs_bind, runs_desc. rewrite E2. apply runs_store16; [rewrite E2; exact (in_blk _ _ n Hrs Hin)|].
    pose proof (kept_clear (signed (bmtd w)) (n + 1) n Hrs Hin) as Hk. rewrite E2.
    eapply runs_mono; [apply IH; [lia|lia|]|].
    - cbn [bmtd]. replace (n - 1 + 1) with n by lia. apply (kept_room (signed (bmtd w))); [done|]. apply (room_le _ (n + 1)); [done|lia].
    - intros r w' Hu. eapply uploaded_next; [eapply v2_kept_trans; [exact Hs|exact Hk]| |exact Hu]. intros j Hj.
      rewrite (blk_put_blk _ (n + 1)) by (done || lia). destruct (Z.eqb_spec j n); [lia|]. apply (blk_signed _ (n + 1)); [done|lia]. }
  apply runs_ret. rewrite E2. rewrite (wrap_small 16) by lia. split; [done|]. right. split; [lia|]. split; [done|].
  intros j Hj. apply (blk_signed _ (n + 1)); [done|lia].
Qed.
End Tables.

Section V2Proofs.
Context {N : Type} `{Nand N} (e : endian).
Implicit Types (w : bmt_world N).

#[local] Abbreviation bb := (bb e).
#[local] Abbreviation blk := (blk e).
#[local] Abbreviation mapped := (mapped e).

(** No two blocks have the same place, the entries of the pool are different blocks, and
    those that are not given away, the one with the table included, are in no place. *)
Record v2_ok (d : bmt_desc) : Prop := {
  o_lba : 0 < pool_lba d <= table_size d;
  o_idx : 0 <= bmt_blk_idx d < 65535;
  o_room : has_room d (bmt_blk_idx d + 1);
  o_inj : forall i j, 0 <= i < pool_lba d -> 0 <= j < pool_lba d -> bb d i = bb d j -> i = j;
  o_pool : forall i j, 0 <= i <= bmt_blk_idx d -> 0 <= j <= bmt_blk_idx d -> blk d i <> 0 -> blk d i = blk d j -> i = j;
  o_free : forall i j, 0 <= i <= bmt_blk_idx d -> blk d i <> 0 -> mapped d i <> NORMAL_MAPPED ->
    0 <= j < pool_lba d -> bb d j <> blk d i
}.

(** The new entry of the table of blocks, with the entry of the pool it comes from. *)
Definition given_out (block n : Z) (d : bmt_desc) : bmt_desc :=
  set_num e (bb_tbl_at block) (blk d n) (set_num e (mapped_at d n) NORMAL_MAPPED d).

Lemma blk_range d n i : has_room d n -> 0 <= blk d i < 65536.
Proof. intros (_ & _ & _ & Hb). by apply num_range. Qed.

Lemma given_tables d m block n :
  has_room d m -> 0 <= n < m -> 0 <= block < table_size d ->
  has_room (given_out block n d) m /\
  (forall j, 0 <= j < table_size d -> bb (given_out block n d) j = if j =? block then blk d n else bb d j) /\
  (forall j, 0 <= j -> blk (given_out block n d) j = blk d j) /\
  (forall j, 0 <= j -> mapped (given_out block n d) j = if j =? n then NORMAL_MAPPED else mapped d j).
Proof.
  intros Hr Hn Hb. pose proof (in_mapped d m n Hr Hn) as Hm.
  assert (Hr1 : has_room (set_num e (mapped_at d n) NORMAL_MAPPED d) m) by by apply room_set_num.
  pose proof (blk_range d m n Hr) as Hv. unfold given_out. split; [|split; [|split]].
  - apply room_set_num; [done|]. exact (in_bb _ m block Hr1 Hb).
  - intros j Hj. rewrite (bb_put_bb e _ m) by done. destruct (j =? block); [done|]. apply (bb_put_mapped e d m); [done|done|lia].
  - intros j Hj. rewrite (blk_put_bb e _ m) by done. by apply (blk_put_mapped e d m).
  - intros j Hj. rewrite (mapped_put_bb e _ m) by done. by apply (mapped_put_mapped e d m).
Qed.

(** A block that is free is in no place. *)
Lemma free_ok d n j :
  v2_ok d -> 0 <= n < bmt_blk_idx d -> blk d n <> 0 -> mapped d n = NO_MAPPED -> 0 <= j < pool_lba d -> bb d j <> blk d n.
Proof. intros Ho Hn Hb Hm Hj. apply (o_free d Ho); [lia|done|by rewrite Hm|done]. Qed.

Lemma given_uploaded d block n b r d' :
  v2_ok d -> 0 <= block < pool_lba d -> 0 <= n < bmt_blk_idx d -> blk d n <> 0 -> mapped d n = NO_MAPPED ->
  uploaded e (bmt_blk_idx d) (set_data b (given_out block n d)) r d' -> r <> 65535 ->
  v2_ok (set_idx r d') /\
  forall j, 0 <= j < pool_lba d -> bb (set_idx r d') j = if j =? block then blk d n else bb d j.
Proof.
  intros Ho Hb Hn Hz Hm [Hk [?|(Hr & Hmr & Hl)]] Hne; [done|]. pose proof (o_lba d Ho) as Hlba.
  destruct (given_tables d (bmt_blk_idx d + 1) block n (o_room d Ho) ltac:(lia) ltac:(lia)) as (G1 & G2 & G3 & G4).
  assert (Eb : forall j, 0 <= j < pool_lba d -> bb d' j = if j =? block then blk d n else bb d j).
  { intros j Hj. rewrite (k_bb _ _ _ Hk) by (cbn; lia). apply G2. lia. }
  assert (Ep : forall i, 0 <= i <= r -> blk d' i = blk d i) by (intros i Hi; rewrite Hl by done; apply G3; lia).
  assert (Em : forall i, 0 <= i <= r -> mapped d' i = if i =? n then NORMAL_MAPPED else mapped d i).
  { intros i Hi. rewrite (k_mapped _ _ _ Hk) by lia. apply G4. lia. }
  pose proof (kept_room e _ _ (bmt_blk_idx d + 1) Hk G1) as Hroom.
  destruct (k_same _ _ _ Hk) as (b' & E & _ & _).
  assert (El : pool_lba d' = pool_lba d) by by rewrite E.
  assert (Et : table_size d' = table_size d) by by rewrite E.
  split; [|exact Eb]. split; cbn.
  - rewrite El, Et. done.
  - pose proof (o_idx d Ho). lia.
  - apply (room_le _ (bmt_blk_idx d + 1)); [exact Hroom|lia].
  - rewrite El. intros i j Hi Hj. change (bb (set_idx r d')) with (bb d'). rewrite !Eb by done.
    pose proof (free_ok d n i Ho Hn Hz Hm Hi) as Fi. pose proof (free_ok d n j Ho Hn Hz Hm Hj) as Fj.
    destruct (Z.eqb_spec i block), (Z.eqb_spec j block); [congruence|congruence|congruence|by apply (o_inj d Ho)].
  - intros i j Hi Hj. change (blk (set_idx r d')) with (blk d'). rewrite !Ep by done. apply (o_pool d Ho); lia.
  - rewrite El. intros i j Hi. change (blk (set_idx r d')) with (blk d'). change (mapped (set_idx r d')) with (mapped d').
    change (bb (set_idx r d')) with (bb d'). rewrite Ep, Em by done. intros Hz' Hm' Hj. rewrite Eb by done.
    destruct (Z.eqb_spec i n) as [->|Hin]; [done|]. destruct (j =? block).
    + intros Eq. apply Hin. symmetry. apply (o_pool d Ho); [lia|lia|done|done].
    + by apply (o_free d Ho); [lia|..].
Qed.

(** C24. Remapping a block gives it a spare block that no other block has, or is refused and
    changes nothing; the other blocks keep their places. Whatever fails on the chip, and
    however many blocks of the pool are given up to find one that takes the table, the
    tables are well formed afterwards, unless none takes it. *)
Theorem remap_block_v2_keeps w block mapped_block len :
  v2_ok (bmtd w) -> 0 <= block < pool_lba (bmtd w) ->
  runs (remap_block_v2 e block mapped_block len) w (fun r w' =>
    (r = false /\ w' = w) \/
    (r = true /\ exists n,
      (forall j, 0 <= j < pool_lba (bmtd w) -> bb (bmtd w) j <> blk (bmtd w) n) /\
      (bmt_blk_idx (bmtd w') = 65535 \/
       (v2_ok (bmtd w') /\ bmt_blk_idx (bmtd w') <= bmt_blk_idx (bmtd w) /\
        forall j, 0 <= j < pool_lba (bmtd w) -> bb (bmtd w') j = if j =? block then blk (bmtd w) n else bb (bmtd w) j)))).
Proof.
  intros Ho Hb. pose proof (o_lba _ Ho) as Hlba. pose proof (o_idx _ Ho) as Hidx.
  unfold remap_block_v2, find_valid_block_in_pool. apply runs_bind, runs_bind, runs_desc.
  eapply runs_mono; [apply (runs_pool_from e)|].
  { apply (room_le _ (bmt_blk_idx (bmtd w) + 1)); [apply o_room; done|lia]. } { lia. }
  intros new w1 [[-> ->]|(n & Hn & -> & Hz & Hm & ->)]; [by apply runs_ret; left|].
  destruct (Z.eqb_spec (blk (bmtd w) n) 0) as [?|_]; [done|].
  destruct (given_tables (bmtd w) _ block n (o_room _ Ho) ltac:(lia) ltac:(lia)) as (G1 & _).
  apply runs_bind, runs_store16.
  { assert (Hr1 : has_room (set_num e (mapped_at (bmtd w) n) NORMAL_MAPPED (bmtd w)) (bmt_blk_idx (bmtd w) + 1)).
    { apply room_set_num; [by apply o_room|]. apply (in_mapped _ (bmt_blk_idx (bmtd w) + 1)); [by apply o_room|lia]. }
    exact (in_bb _ _ block Hr1 ltac:(cbn; lia)). }
  eapply runs_step; [apply runs_erase|]. intros r2 w2 E2. cbn [bmtd] in E2.
  eapply runs_step.
  { instantiate (1 := fun _ w3 => keeps_desc w2 w3). destruct (0 <? len); [apply runs_nand_copy|].
    apply runs_ret. exists (data_buf (bmtd w2)). by rewrite set_data_same. }
  intros r3 w3 [b E3]. rewrite E2 in E3. fold (given_out block n (bmtd w)) in E3.
  unfold upload. apply runs_bind, runs_bind, runs_desc. rewrite E3. cbn [bmt_blk_idx set_data set_num set_buf given_out].
  eapply runs_step; [apply runs_upload_from; [lia|lia|rewrite E3; exact G1]|].
  intros r w4 Hu. cbn beta in Hu. rewrite E3 in Hu. apply runs_change_desc, runs_ret. right. split; [done|]. exists n. split.
  { intros j Hj. apply (free_ok _ n j Ho); [lia|done..]. }
  cbn [bmtd]. destruct (decide (r = 65535)) as [->|Hne]; [by left|right].
  destruct (given_uploaded _ block n b r _ Ho Hb ltac:(lia) Hz Hm Hu Hne) as [K1 K2]. split; [done|]. split; [|done].
  cbn. destruct Hu as [_ [?|(? & _)]]; [done|lia].
Qed.
End V2Proofs.
