(* ===== verification/BmtDevice.v ===== *)
(** * The mapped device is a device

    What the driver of a chip with bad blocks promises is the class [ChipLaws], what the
    layer above expects of a backend the class [MapLaws]. From both it follows that the
    mapped device reads, writes and erases like a chip without bad blocks. *)

From Stdlib Require Import ZArith Lia.
From stdpp Require Import base list numbers option.
From S2P Require Import Prelude Bmt.

(** ** The chip *)

(** What is in a block, and which blocks fail when they are written or erased. *)
Class Chip (N : Type) := {
  content : N -> Z -> list Z;
  bad : Z -> bool;
  chip_blocks : Z;
  bsize : Z;
  psize : Z
}.

Definition same_but {N : Type} `{Chip N} (b : Z) (n n' : N) : Prop := forall b', b' <> b -> content n' b' = content n b'.

(** Reading gives what was written, with any number of bits corrected. Erasing sets all bits, writing erased bytes sets them;
    a block that fails says so, keeps what is in front of the place that was written, and
    nothing happens to the other blocks. *)
Class ChipLaws (N : Type) `{Nand N, Chip N} := {
  chip_length : forall (n : N) b, 0 <= b < chip_blocks -> Z.of_nat (length (content n b)) = bsize;
  chip_read : forall (n : N) b off len ool oo,
    0 <= b < chip_blocks -> 0 <= off < bsize -> 0 <= len -> off + len <= bsize -> 0 <= ool ->
    let '(ret, dat, oob, n') := _read_oob (b * bsize + off) len ool oo n in
    0 <= ret /\ dat = slice (Z.to_nat off) (Z.to_nat len) (content n b) /\ Z.of_nat (length oob) = ool /\
    forall b', content n' b' = content n b';
  chip_write : forall (n : N) b off dat oob oo,
    0 <= b < chip_blocks -> 0 <= off < bsize -> off + Z.of_nat (length dat) <= bsize -> bad b = false ->
    slice (Z.to_nat off) (length dat) (content n b) = replicate (length dat) 255 ->
    let '(ret, l1, l2, n') := _write_oob (b * bsize + off) dat oob oo n in
    ret = 0 /\ l1 = Z.of_nat (length dat) /\ l2 = Z.of_nat (length oob) /\
    content n' b = Prelude.write (Z.to_nat off) dat (content n b) /\ same_but b n n';
  chip_write_bad : forall (n : N) b off dat oob oo,
    0 <= b < chip_blocks -> 0 <= off < bsize -> off + Z.of_nat (length dat) <= bsize -> bad b = true ->
    let '(ret, _, _, n') := _write_oob (b * bsize + off) dat oob oo n in
    ret < 0 /\ take (Z.to_nat off) (content n' b) = take (Z.to_nat off) (content n b) /\ same_but b n n';
  chip_erase : forall (n : N) b,
    0 <= b < chip_blocks ->
    let '(ret, n') := _erase (b * bsize) bsize n in
    same_but b n n' /\
    if bad b then ret <> 0 else ret = 0 /\ content n' b = replicate (Z.to_nat bsize) 255
}.

(** ** The backend *)

(** What the fields of the description say of the chip. *)
Record geometry {N : Type} `{Chip N} (d : bmt_desc) : Prop := {
  g_shift : 0 <= blk_shift d;
  g_size : bsize = 2 ^ blk_shift d;
  g_limit : bsize < 2 ^ 31;
  g_blk : blk_size d = bsize;
  g_erase : erasesize d = bsize;
  g_page : (psize | bsize)
}.

Class MapLaws (N : Type) `{Nand N, Chip N} (ops : mtk_bmt_ops N) := {
  nblocks : Z;
  inv : bmt_desc -> Prop;
  place : bmt_desc -> Z -> Z;
  nblocks_range : 0 <= nblocks <= 65536;
  inv_geometry : forall d, inv d -> geometry d;
  inv_range : forall d b, inv d -> 0 <= b < nblocks -> exists r, mapping_block_in_range d b = Some r;
  place_range : forall d b, inv d -> 0 <= b < nblocks -> 0 <= place d b < chip_blocks /\ place d b < 65536;
  place_inj : forall d b c, inv d -> 0 <= b < nblocks -> 0 <= c < nblocks -> place d b = place d c -> b = c;
  get_mapping : forall (w : bmt_world N) b, inv (bmtd w) -> 0 <= b < nblocks ->
    get_mapping_block ops b w = Ret (place (bmtd w) b) w;
  remap_law : forall (w : bmt_world N) b len,
    inv (bmtd w) -> 0 <= b < nblocks -> 0 <= len <= bsize -> (psize | len) ->
    runs (remap_block ops b (place (bmtd w) b) len) w (fun r w' =>
      inv (bmtd w') /\
      (forall c, 0 <= c < nblocks -> c <> b ->
         place (bmtd w') c = place (bmtd w) c /\
         content (nand w') (place (bmtd w) c) = content (nand w) (place (bmtd w) c)) /\
      if r : bool then
        bad (place (bmtd w') b) = false /\
        content (nand w') (place (bmtd w') b) =
        take (Z.to_nat len) (content (nand w) (place (bmtd w) b)) ++ replicate (Z.to_nat (bsize - len)) 255
      else
        place (bmtd w') b = place (bmtd w) b /\
        content (nand w') (place (bmtd w) b) = content (nand w) (place (bmtd w) b))
}.

(** ** Addresses *)

Section Addresses.
Context {N : Type} `{Chip N} (d : bmt_desc) (Hg : geometry d).

Lemma bsize_pos : 0 < bsize.
Proof. rewrite (g_size d Hg). apply Z.pow_pos_nonneg; [lia|apply Hg]. Qed.

Lemma offset_of_mod a : offset_of d a = a mod bsize.
Proof.
  pose proof bsize_pos. pose proof (g_limit d Hg). unfold offset_of. rewrite (g_blk d Hg).
  rewrite (wrap_small 32 (bsize - 1)) by lia. rewrite (g_size d Hg) at 1.
  replace (2 ^ blk_shift d - 1) with (Z.ones (blk_shift d)) by (rewrite Z.ones_equiv; lia).
  rewrite Z.land_ones by apply Hg. rewrite <- (g_size d Hg). apply wrap_small.
  pose proof (Z.mod_pos_bound a bsize). lia.
Qed.

Lemma block_of_div a n : 0 <= a < n * bsize -> n <= 65536 -> block_of d a = a / bsize.
Proof.
  intros Ha Hn. pose proof bsize_pos. unfold block_of. rewrite Z.shiftr_div_pow2 by apply Hg. rewrite <- (g_size d Hg).
  apply wrap_small. pose proof (Z.div_pos a bsize). assert (a / bsize < n) by (apply Z.div_lt_upper_bound; lia). lia.
Qed.

Lemma shiftl_block b : Z.shiftl b (blk_shift d) = b * bsize.
Proof. rewrite Z.shiftl_mul_pow2 by apply Hg. by rewrite (g_size d Hg). Qed.
End Addresses.

Lemma s32_small z : 0 <= z < 2 ^ 31 -> s32 z = z.
Proof. intros Hz. unfold swrap. rewrite Z.mod_small; lia. Qed.

Lemma lookup_write off bs l i :
  (off + length bs <= length l)%nat ->
  Prelude.write off bs l !! i = if decide (off <= i < off + length bs)%nat then bs !! (i - off)%nat else l !! i.
Proof.
  intros Hl. unfold Prelude.write. assert (Ht : length (take off l) = off) by (rewrite length_take; lia).
  destruct (decide _) as [Hi|Hi].
  - rewrite lookup_app_r by lia. rewrite Ht. apply lookup_app_l. lia.
  - destruct (decide (i < off)%nat).
    + rewrite lookup_app_l by lia. by apply lookup_take_lt.
    + rewrite lookup_app_r by lia. rewrite lookup_app_r by lia. rewrite lookup_drop. f_equal. lia.
Qed.

(** ** Logical blocks *)

Section Device.
Context {N : Type} `{ChipLaws N} (ops : mtk_bmt_ops N) `{!MapLaws N ops}.
Implicit Types (w : bmt_world N).

(** What is in a block of the mapped device, and a byte of it. *)
Definition lblock w (b : Z) : list Z := content (nand w) (place (bmtd w) b).
Definition byte w (a : Z) : option Z := lblock w (a / bsize) !! Z.to_nat (a mod bsize).

Definition same_others (b : Z) w w' : Prop := forall c, 0 <= c < nblocks -> c <> b -> lblock w' c = lblock w c.

(** The device with some bytes replaced. *)
Definition updated (a : Z) (l : list Z) w w' : Prop :=
  forall x, 0 <= x < nblocks * bsize ->
  byte w' x = if decide (a <= x < a + Z.of_nat (length l)) then l !! Z.to_nat (x - a) else byte w x.

Lemma lblock_length w b : inv (bmtd w) -> 0 <= b < nblocks -> Z.of_nat (length (lblock w b)) = bsize.
Proof. intros Hw Hb. apply chip_length. by apply place_range. Qed.

Lemma address_block w a : inv (bmtd w) -> 0 <= a < nblocks * bsize -> 0 <= a / bsize < nblocks /\ 0 <= a mod bsize < bsize.
Proof.
  intros Hw Ha. pose proof (bsize_pos _ (inv_geometry _ Hw)). split; [|by apply Z.mod_pos_bound].
  split; [apply Z.div_pos; lia|apply Z.div_lt_upper_bound; lia].
Qed.

Lemma same_but_others w b n' : inv (bmtd w) -> 0 <= b < nblocks ->
  same_but (place (bmtd w) b) (nand w) n' -> same_others b w (BmtWorld (bmtd w) n').
Proof.
  intros Hw Hb Hs c Hc Hne. unfold lblock. cbn. apply Hs. intros E. apply Hne. by apply (place_inj (bmtd w)).
Qed.

Lemma same_others_trans b w1 w2 w3 : same_others b w1 w2 -> same_others b w2 w3 -> same_others b w1 w3.
Proof. intros S1 S2 c Hc Hne. by rewrite S2, S1. Qed.

(** One block is replaced in the middle. *)
Lemma updated_block w w' a l :
  inv (bmtd w) -> 0 <= a -> a mod bsize + Z.of_nat (length l) <= bsize -> a / bsize < nblocks ->
  same_others (a / bsize) w w' ->
  lblock w' (a / bsize) = Prelude.write (Z.to_nat (a mod bsize)) l (lblock w (a / bsize)) -> updated a l w w'.
Proof.
  intros Hw Ha Hl Hb Hs Hbk x Hx. destruct (address_block w x Hw Hx) as [Hxb Hxo].
  pose proof (bsize_pos _ (inv_geometry _ Hw)) as Hpos. pose proof (Z.mod_pos_bound a bsize Hpos) as Hao.
  assert (Hnz : bsize <> 0) by lia.
  pose proof (Z.div_mod a bsize Hnz) as Da. pose proof (Z.div_mod x bsize Hnz) as Dx.
  assert (Hab : 0 <= a / bsize < nblocks) by (pose proof (Z.div_pos a bsize Ha Hpos); done). unfold byte.
  destruct (decide (x / bsize = a / bsize)) as [E|E].
  - rewrite E, Hbk, lookup_write.
    2: { pose proof (lblock_length w (a / bsize) Hw Hab). lia. }
    rewrite E in Dx. destruct (decide (a <= x < a + Z.of_nat (length l))).
    + rewrite decide_True by lia. f_equal. lia.
    + by rewrite decide_False by lia.
  - rewrite Hs by done. rewrite decide_False; [done|]. intros Hin. apply E.
    symmetry. apply Z.div_unique with (x - bsize * (a / bsize)); lia.
Qed.

Lemma updated_app a l1 l2 w1 w2 w3 :
  updated a l1 w1 w2 -> updated (a + Z.of_nat (length l1)) l2 w2 w3 -> updated a (l1 ++ l2) w1 w3.
Proof.
  intros U1 U2 x Hx. rewrite U2, U1 by done. rewrite length_app.
  destruct (decide (a + Z.of_nat (length l1) <= x < _)), (decide (a <= x < a + Z.of_nat (length l1)));
    repeat (rewrite decide_True by lia); repeat (rewrite decide_False by lia); try lia; try done.
  - rewrite lookup_app_r by lia. f_equal. lia.
  - rewrite lookup_app_l by lia. done.
Qed.

Lemma updated_nil a w : updated a [] w w.
Proof. intros x Hx. cbn. by rewrite decide_False by lia. Qed.

(** From [a] to the end of its block all bits are set. *)
Lemma erased_tail w a :
  inv (bmtd w) -> 0 <= a < nblocks * bsize ->
  (forall x, a <= x < (a / bsize + 1) * bsize -> byte w x = Some 255) ->
  drop (Z.to_nat (a mod bsize)) (lblock w (a / bsize)) = replicate (Z.to_nat (bsize - a mod bsize)) 255.
Proof.
  intros Hw Ha He. destruct (address_block w a Hw Ha) as [Hb Ho]. pose proof (lblock_length w _ Hw Hb) as Hl.
  assert (Hnz : bsize <> 0) by lia. pose proof (Z.div_mod a bsize Hnz) as Da. apply list_eq. intros i.
  destruct (decide (i < Z.to_nat (bsize - a mod bsize))%nat) as [Hi|Hi].
  - rewrite lookup_drop, lookup_replicate_2 by done.
    assert (Ex : (a + Z.of_nat i) / bsize = a / bsize).
    { symmetry. apply Z.div_unique with (a mod bsize + Z.of_nat i); lia. }
    pose proof (He (a + Z.of_nat i) ltac:(lia)) as Eb. unfold byte in Eb. rewrite Ex in Eb.
    pose proof (Z.div_mod (a + Z.of_nat i) bsize Hnz) as Dx. rewrite Ex in Dx. rewrite <- Eb. f_equal. lia.
  - rewrite lookup_ge_None_2 by (rewrite length_drop; lia). symmetry. apply lookup_ge_None_2. rewrite length_replicate. lia.
Qed.
(** ** Writing *)

(** What a call of the driver does to a logical block. *)
Lemma write_call w b off l oob oo :
  inv (bmtd w) -> 0 <= b < nblocks -> 0 <= off < bsize -> off + Z.of_nat (length l) <= bsize ->
  drop (Z.to_nat off) (lblock w b) = replicate (Z.to_nat (bsize - off)) 255 ->
  let '(ret, l1, l2, n') := _write_oob (place (bmtd w) b * bsize + off) l oob oo (nand w) in
  same_others b w (BmtWorld (bmtd w) n') /\
  if bad (place (bmtd w) b)
  then ret < 0 /\ take (Z.to_nat off) (lblock (BmtWorld (bmtd w) n') b) = take (Z.to_nat off) (lblock w b)
  else ret = 0 /\ l1 = Z.of_nat (length l) /\ l2 = Z.of_nat (length oob) /\
    lblock (BmtWorld (bmtd w) n') b = Prelude.write (Z.to_nat off) l (lblock w b).
Proof.
  intros Hw Hb Ho Hl He. destruct (place_range (bmtd w) b Hw Hb) as [Hp _].
  destruct (bad (place (bmtd w) b)) eqn:Eb.
  - pose proof (chip_write_bad (nand w) _ off l oob oo Hp Ho Hl Eb) as Hc.
    destruct (_write_oob _ l oob oo (nand w)) as [[[ret l1] l2] n']. destruct Hc as (Hr & Ht & Hs).
    split; [by apply same_but_others|done].
  - assert (Hs : slice (Z.to_nat off) (length l) (content (nand w) (place (bmtd w) b)) = replicate (length l) 255).
    { unfold slice. unfold lblock in He. rewrite He. rewrite take_replicate. f_equal. lia. }
    pose proof (chip_write (nand w) _ off l oob oo Hp Ho Hl Eb Hs) as Hc.
    destruct (_write_oob _ l oob oo (nand w)) as [[[ret l1] l2] n']. destruct Hc as (Hr & E1 & E2 & Ec & Hso).
    split; [by apply same_but_others|done].
Qed.

(** Remapping through the range check. *)
Lemma runs_remap w b len (Q : bool -> bmt_world N -> Prop) :
  inv (bmtd w) -> 0 <= b < nblocks -> 0 <= len <= bsize -> (psize | len) ->
  (forall w', inv (bmtd w') -> same_others b w w' -> bad (place (bmtd w') b) = false ->
     lblock w' b = take (Z.to_nat len) (lblock w b) ++ replicate (Z.to_nat (bsize - len)) 255 -> Q true w') ->
  (forall w', inv (bmtd w') -> same_others b w w' -> lblock w' b = lblock w b -> Q false w') ->
  runs (mtk_bmt_remap_block ops b (place (bmtd w) b) len) w Q.
Proof.
  intros Hw Hb Hlen Hd Ht Hf. pose proof (nblocks_range (ops := ops)). destruct (place_range (bmtd w) b Hw Hb) as [_ Hp].
  destruct (place_range (bmtd w) b Hw Hb) as [Hp' _].
  unfold mtk_bmt_remap_block. apply runs_bind, runs_desc. rewrite s32_small by lia.
  destruct (inv_range (bmtd w) b Hw Hb) as [r ->]. rewrite !(wrap_small 16) by lia.
  eapply runs_mono; [by apply remap_law|]. intros r' w' (Hi & Hs & Hr).
  assert (Hso : same_others b w w').
  { intros c Hc Hne. destruct (Hs c Hc Hne) as [E1 E2]. unfold lblock. by rewrite E1, E2. }
  destruct r'; [destruct Hr; by apply Ht|]. destruct Hr as [E1 E2]. apply Hf; [done|done|]. unfold lblock. by rewrite E1, E2.
Qed.

(** The length of what is written to the block of [a]. *)
Definition part (a left : Z) : Z := Z.min (bsize - a mod bsize) left.

(** What is written to the block of [a], of which [retlen] bytes are written already. *)
Definition piece (dat : list Z) (a retlen : Z) : list Z :=
  take (Z.to_nat (part a (Z.of_nat (length dat) - retlen))) (drop (Z.to_nat retlen) dat).

(** What is left to do, and where. *)
Record to_write (dat : list Z) (a retlen : Z) w : Prop := {
  t_inv : inv (bmtd w);
  t_ret : 0 <= retlen;
  t_left : 0 < Z.of_nat (length dat) - retlen < 2 ^ 32;
  t_range : 0 <= a < nblocks * bsize;
  t_page : (psize | a mod bsize);
  t_erased : drop (Z.to_nat (a mod bsize)) (lblock w (a / bsize)) = replicate (Z.to_nat (bsize - a mod bsize)) 255
}.

Lemma piece_length dat a retlen w :
  to_write dat a retlen w ->
  Z.of_nat (length (piece dat a retlen)) = part a (Z.of_nat (length dat) - retlen) /\
  0 < part a (Z.of_nat (length dat) - retlen) <= bsize - a mod bsize.
Proof.
  intros [Hw Hr Hl Ha _ _]. destruct (address_block w a Hw Ha) as [_ Ho]. unfold piece, part.
  rewrite length_take, length_drop. lia.
Qed.

(** One round of the loop. *)
Lemma write_round f dat a oo tries retlen w :
  to_write dat a retlen w ->
  write_loop ops (S f) dat [] a oo tries retlen 0 w =
  ('(ret, l1, l2) ← call (_write_oob (place (bmtd w) (a / bsize) * bsize + a mod bsize) (piece dat a retlen) [] oo);
   if ret <? 0 then
     again ← mtk_bmt_remap_block ops (a / bsize) (place (bmtd w) (a / bsize)) (a mod bsize);
     if again && (tries <? 10) then write_loop ops f dat [] a oo (tries + 1) retlen 0 else mret (ret, retlen, 0)
   else write_loop ops f dat [] (a + part a (Z.of_nat (length dat) - retlen)) 0 0 (retlen + l1) (0 + l2)) w.
Proof.
  intros Ht. pose proof (piece_length _ _ _ _ Ht) as [_ Hpart]. destruct Ht as [Hw Hr Hl Ha Hd He].
  destruct (address_block w a Hw Ha) as [Hb Ho]. pose proof (inv_geometry _ Hw) as Hg.
  pose proof (bsize_pos _ Hg) as Hpos. pose proof (g_limit _ Hg) as Hlim. pose proof (nblocks_range (ops := ops)) as Hnb.
  destruct (place_range (bmtd w) _ Hw Hb) as [Hp Hp'].
  cbn [write_loop]. destruct (Z.ltb_spec retlen (Z.of_nat (length dat))); [|lia]. cbn [orb].
  unfold desc, mbind, prog_bind, get_st, mret, prog_ret.
  rewrite (offset_of_mod _ Hg), (block_of_div _ Hg a nblocks) by lia. rewrite s32_small by lia.
  rewrite get_mapping by done. destruct (Z.ltb_spec (place (bmtd w) (a / bsize)) 0); [lia|].
  rewrite (shiftl_block _ Hg), (g_blk _ Hg). rewrite (wrap_small 32 (bsize - a mod bsize)) by lia.
  rewrite (wrap_small 32 (_ - retlen)) by lia. rewrite (wrap_small 32 (place _ _)) by lia.
  fold (part a (Z.of_nat (length dat) - retlen)). fold (piece dat a retlen).
  unfold call. destruct (_write_oob _ _ _ _ _) as [[[ret l1] l2] n']. destruct (ret <? 0); [done|].
  destruct (Z.eqb_spec (part a (Z.of_nat (length dat) - retlen)) 0); [lia|]. done.
Qed.

(** A block that does not fail. *)
Lemma write_good f dat a oo tries retlen w Q :
  to_write dat a retlen w -> bad (place (bmtd w) (a / bsize)) = false ->
  (forall w', inv (bmtd w') -> updated a (piece dat a retlen) w w' ->
     runs (write_loop ops f dat [] (a + part a (Z.of_nat (length dat) - retlen)) 0 0
       (retlen + part a (Z.of_nat (length dat) - retlen)) 0) w' Q) ->
  runs (write_loop ops (S f) dat [] a oo tries retlen 0) w Q.
Proof.
  intros Ht Hbad Hgo. pose proof (piece_length _ _ _ _ Ht) as [Hlen Hpart]. unfold runs. rewrite (write_round _ _ _ _ _ _ _ Ht).
  destruct Ht as [Hw Hr Hl Ha Hd He]. destruct (address_block w a Hw Ha) as [Hb Ho].
  assert (Hsum : a mod bsize + Z.of_nat (length (piece dat a retlen)) <= bsize) by lia.
  pose proof (write_call w (a / bsize) (a mod bsize) (piece dat a retlen) [] oo Hw Hb Ho Hsum He) as Hc.
  rewrite Hbad in Hc. unfold mbind, prog_bind, call. destruct (_write_oob _ _ _ _ _) as [[[ret l1] l2] n'].
  destruct Hc as (Hs & -> & -> & -> & Hbk). cbn [Z.ltb Z.compare length]. rewrite Hlen. apply Hgo; [done|].
  apply updated_block; [done|lia|lia|lia|done|done].
Qed.

(** One piece; a block that fails takes a second round. *)
Lemma write_step f dat a oo retlen w Q :
  to_write dat a retlen w ->
  (forall f' w', (f <= f')%nat -> inv (bmtd w') -> updated a (piece dat a retlen) w w' ->
     runs (write_loop ops f' dat [] (a + part a (Z.of_nat (length dat) - retlen)) 0 0
       (retlen + part a (Z.of_nat (length dat) - retlen)) 0) w' Q) ->
  (forall ret w', ret < 0 -> inv (bmtd w') -> same_others (a / bsize) w w' ->
     take (Z.to_nat (a mod bsize)) (lblock w' (a / bsize)) = take (Z.to_nat (a mod bsize)) (lblock w (a / bsize)) ->
     Q (ret, retlen, 0) w') ->
  runs (write_loop ops (S (S f)) dat [] a oo 0 retlen 0) w Q.
Proof.
  intros Ht Hgo Hstop. destruct (bad (place (bmtd w) (a / bsize))) eqn:Hbad.
  2: { apply write_good; [done|done|]. intros w' Hw' Hu. apply Hgo; [lia|done|done]. }
  pose proof (piece_length _ _ _ _ Ht) as [Hlen Hpart]. unfold runs. rewrite (write_round _ _ _ _ _ _ _ Ht).
  destruct Ht as [Hw Hr Hl Ha Hd He]. destruct (address_block w a Hw Ha) as [Hb Ho].
  assert (Hsum : a mod bsize + Z.of_nat (length (piece dat a retlen)) <= bsize) by lia.
  pose proof (write_call w (a / bsize) (a mod bsize) (piece dat a retlen) [] oo Hw Hb Ho Hsum He) as Hc.
  rewrite Hbad in Hc. unfold mbind at 1, prog_bind at 1, call. destruct (_write_oob _ _ _ _ _) as [[[ret l1] l2] n'].
  destruct Hc as (Hs & Hneg & Htake). destruct (Z.ltb_spec ret 0); [|lia].
  set (w1 := BmtWorld (bmtd w) n') in *. change (place (bmtd w) (a / bsize)) with (place (bmtd w1) (a / bsize)).
  eapply runs_step; [apply (runs_remap w1 (a / bsize) (a mod bsize)) with
    (Q := fun again w2 => inv (bmtd w2) /\ same_others (a / bsize) w w2 /\
      if again : bool then bad (place (bmtd w2) (a / bsize)) = false /\ lblock w2 (a / bsize) = lblock w (a / bsize)
      else take (Z.to_nat (a mod bsize)) (lblock w2 (a / bsize)) = take (Z.to_nat (a mod bsize)) (lblock w (a / bsize)))|].
  - done.
  - done.
  - lia.
  - done.
  - intros w2 Hi Hso Hgood Hbk. split; [done|]. split; [by eapply same_others_trans|]. split; [done|].
    rewrite Hbk, Htake, <- He. apply take_drop.
  - intros w2 Hi Hso Hbk. split; [done|]. split; [by eapply same_others_trans|]. by rewrite Hbk.
  - intros again w2 (Hi & Hso & Hr2). destruct again; cbn [andb].
    + change (0 <? 10) with true. cbn [andb]. destruct Hr2 as [Hgood Hbk].
      apply write_good; [split; try done; by rewrite Hbk|done|]. intros w' Hw' Hu. apply Hgo; [lia|done|].
      intros x Hx. rewrite Hu by done. destruct (decide _); [done|]. unfold byte.
      destruct (address_block w x Hw Hx) as [Hxb _]. destruct (decide (x / bsize = a / bsize)) as [->|Hne]; [by rewrite Hbk|].
      by rewrite Hso.
    + apply runs_ret. by apply Hstop.
Qed.
(** The bytes from [a] on that are written before a block fails that cannot be replaced; what
    is behind them in that block is not known. *)
Definition written (a : Z) (l : list Z) (n : Z) w w' : Prop :=
  forall x, 0 <= x < nblocks * bsize -> x < a + n \/ ((a + n) / bsize + 1) * bsize <= x ->
  byte w' x = if decide (a <= x < a + n) then l !! Z.to_nat (x - a) else byte w x.

Lemma written_none w w' a l :
  inv (bmtd w) -> 0 <= a < nblocks * bsize -> same_others (a / bsize) w w' ->
  take (Z.to_nat (a mod bsize)) (lblock w' (a / bsize)) = take (Z.to_nat (a mod bsize)) (lblock w (a / bsize)) ->
  written a l 0 w w'.
Proof.
  intros Hw Ha Hs Ht x Hx Hout. rewrite decide_False by lia. destruct (address_block w x Hw Hx) as [Hxb Hxo].
  assert (Hnz : bsize <> 0) by lia. pose proof (Z.div_mod a bsize Hnz) as Da. pose proof (Z.div_mod x bsize Hnz) as Dx.
  rewrite Z.add_0_r in Hout. unfold byte. destruct (decide (x / bsize = a / bsize)) as [E|Hne]; [|by rewrite Hs].
  rewrite E in *. rewrite <- (lookup_take_lt (lblock w' _) (Z.to_nat (a mod bsize))) by lia.
  rewrite Ht. apply lookup_take_lt. lia.
Qed.

Lemma written_app w1 w2 w3 a l n part :
  0 <= part <= Z.of_nat (length l) -> 0 <= n -> updated a (take (Z.to_nat part) l) w1 w2 ->
  written (a + part) (drop (Z.to_nat part) l) n w2 w3 -> written a l (part + n) w1 w3.
Proof.
  intros Hp Hn Hu Hw x Hx Hout. rewrite Z.add_assoc in Hout. rewrite Hw by (done || lia). rewrite Hu by done.
  rewrite length_take. destruct (decide (a + part <= x < a + part + n)), (decide (a <= x < a + (part + n))); try lia.
  - rewrite lookup_drop. f_equal. lia.
  - rewrite decide_True by lia. rewrite lookup_take_lt by lia. done.
  - by rewrite decide_False by lia.
Qed.

(** The result of a write: all of it, or an error behind some of it. *)
Definition write_result (dat : list Z) (a retlen : Z) w (r : Z * Z * Z) w' : Prop :=
  let '(ret, rl, _) := r in
  inv (bmtd w') /\
  ((ret = 0 /\ rl = Z.of_nat (length dat) /\ updated a (drop (Z.to_nat retlen) dat) w w') \/
   (ret < 0 /\ retlen <= rl < Z.of_nat (length dat) /\ written a (drop (Z.to_nat retlen) dat) (rl - retlen) w w')).

Lemma write_result_next dat a retlen w w1 r w' :
  let p := part a (Z.of_nat (length dat) - retlen) in
  0 <= retlen -> 0 <= p <= Z.of_nat (length dat) - retlen -> updated a (piece dat a retlen) w w1 ->
  write_result dat (a + p) (retlen + p) w1 r w' -> write_result dat a retlen w r w'.
Proof.
  intros p Hr Hp Hu. destruct r as [[ret rl] ol]. intros [Hw Hres]. split; [done|].
  assert (Ed : drop (Z.to_nat (retlen + p)) dat = drop (Z.to_nat p) (drop (Z.to_nat retlen) dat)).
  { rewrite drop_drop. f_equal. lia. }
  rewrite Ed in Hres. unfold piece in Hu. fold p in Hu. destruct Hres as [(E1 & E2 & Hup)|(E1 & E2 & Hwr)]; [left|right].
  - split; [done|]. split; [done|]. rewrite <- (take_drop (Z.to_nat p) (drop (Z.to_nat retlen) dat)).
    eapply updated_app; [exact Hu|]. replace (Z.of_nat (length (take (Z.to_nat p) (drop (Z.to_nat retlen) dat)))) with p; [done|].
    rewrite length_take, length_drop. lia.
  - split; [done|]. split; [lia|]. replace (rl - retlen) with (p + (rl - (retlen + p))) by lia.
    eapply written_app; [rewrite length_drop; lia|lia|exact Hu|exact Hwr].
Qed.

Lemma write_loop_spec k : forall f dat a oo retlen z w,
  let left := Z.of_nat (length dat) - retlen in
  inv (bmtd w) -> 0 <= retlen -> 0 <= left < 2 ^ 32 -> 0 <= a -> a + left <= z * bsize -> z <= nblocks ->
  (0 < left -> (psize | a mod bsize)) -> left = 0 \/ a mod bsize + left <= Z.of_nat k * bsize -> (2 * k + 1 <= f)%nat ->
  (forall x, a <= x < z * bsize -> byte w x = Some 255) ->
  runs (write_loop ops f dat [] a oo 0 retlen 0) w (write_result dat a retlen w).
Proof.
  induction k as [|k IH]; intros f dat a oo retlen z w left Hw Hr Hl Ha Hz Hnb Hpg Hk Hf He.
  all: destruct (decide (left = 0)) as [E0|Hne].
  1, 3: destruct f as [|f]; [lia|]; cbn [write_loop]; destruct (Z.ltb_spec retlen (Z.of_nat (length dat))); [lia|];
    apply runs_ret; split; [done|]; left; split; [done|]; split; [lia|];
    rewrite drop_ge by lia; apply updated_nil.
  { pose proof (bsize_pos _ (inv_geometry _ Hw)) as Hpos. pose proof (Z.mod_pos_bound a bsize Hpos). lia. }
  pose proof (bsize_pos _ (inv_geometry _ Hw)) as Hpos. pose proof (Z.mod_pos_bound a bsize Hpos) as Hao.
  assert (Hnz : bsize <> 0) by lia. pose proof (Z.div_mod a bsize Hnz) as Da.
  assert (Hzb : z * bsize <= nblocks * bsize) by (apply Z.mul_le_mono_nonneg_r; lia).
  assert (Hq : (a / bsize + 1) * bsize <= z * bsize).
  { assert (a / bsize < z) by (apply Z.div_lt_upper_bound; lia). apply Z.mul_le_mono_nonneg_r; lia. }
  assert (Ht : to_write dat a retlen w).
  { split; [done|done|lia|lia|apply Hpg; lia|]. apply erased_tail; [done|lia|]. intros x Hx. apply He. lia. }
  destruct (piece_length _ _ _ _ Ht) as [Hlen Hpart]. fold left in Hlen, Hpart.
  destruct f as [|[|f]]; [lia|lia|]. apply write_step; [done| |].
  - fold left. intros f' w' Hf' Hw' Hu. eapply runs_mono; [apply (IH f' dat _ 0 _ z)|].
    1, 6: done.
    all: unfold part in *; try lia.
    + intros Hleft'. replace (a + Z.min (bsize - a mod bsize) left) with ((a / bsize + 1) * bsize) by lia.
      rewrite Z.mod_mul by done. apply Z.divide_0_r.
    + destruct (decide (left <= bsize - a mod bsize)); [left; lia|right].
      replace (a + Z.min (bsize - a mod bsize) left) with ((a / bsize + 1) * bsize) by lia.
      rewrite Z.mod_mul by done. destruct Hk; lia.
    + intros x Hx. rewrite Hu by lia. rewrite decide_False by lia. apply He. lia.
    + intros r w2 Hres. eapply write_result_next; [done|fold left; unfold part; lia|exact Hu|exact Hres].
  - intros ret w' Hneg Hw' Hs Htk. split; [done|]. right. split; [done|]. split; [lia|]. rewrite Z.sub_diag.
    apply written_none; [done|lia|done|done].
Qed.
(** ** Reading *)

(** No byte of the device changes; its blocks may be elsewhere. *)
Definition unchanged w w' : Prop :=
  inv (bmtd w') /\ forall b, 0 <= b < nblocks -> lblock w' b = lblock w b.

Lemma unchanged_byte w w' x : inv (bmtd w) -> 0 <= x < nblocks * bsize -> unchanged w w' -> byte w' x = byte w x.
Proof. intros Hw Hx [_ E]. unfold byte. rewrite E; [done|]. by apply (address_block w x). Qed.

(** [l] is what the device has from [a] on. *)
Definition reads (a : Z) (l : list Z) w : Prop := forall i, (i < length l)%nat -> l !! i = byte w (a + Z.of_nat i).

Lemma reads_app a l1 l2 w w' :
  inv (bmtd w) -> 0 <= a -> a + Z.of_nat (length l1) + Z.of_nat (length l2) <= nblocks * bsize ->
  unchanged w w' -> reads a l1 w -> reads (a + Z.of_nat (length l1)) l2 w' -> reads a (l1 ++ l2) w.
Proof.
  intros Hw Ha Hn Hun R1 R2 i Hi. rewrite length_app in Hi. destruct (decide (i < length l1)%nat).
  - rewrite lookup_app_l by done. by apply R1.
  - rewrite lookup_app_r by lia. rewrite R2 by lia. rewrite (unchanged_byte w w') by (done || lia). f_equal. lia.
Qed.

(** A block whose bit flips reach the threshold is replaced by one with the same bytes. *)
Lemma runs_remap_flips w b (above : bool) :
  inv (bmtd w) -> 0 <= b < nblocks ->
  runs (if above then mtk_bmt_remap_block ops b (place (bmtd w) b) bsize else mret false) w
    (fun _ w' => unchanged w w').
Proof.
  intros Hw Hb. pose proof (inv_geometry _ Hw) as Hg. pose proof (bsize_pos _ Hg) as Hpos.
  destruct above; [|by apply runs_ret]. apply runs_remap; [done|done|lia|apply Hg|..].
  - intros w' Hi Hs _ Hbk. split; [done|]. intros c Hc. destruct (decide (c = b)) as [->|Hne]; [|by apply Hs].
    rewrite Hbk, Z.sub_diag. pose proof (lblock_length w b Hw Hb). rewrite take_ge by lia. apply app_nil_r.
  - intros w' Hi Hs Hbk. split; [done|]. intros c Hc. destruct (decide (c = b)) as [->|Hne]; [done|by apply Hs].
Qed.

Lemma reads_block w a n :
  inv (bmtd w) -> 0 <= a < nblocks * bsize -> a mod bsize + Z.of_nat n <= bsize ->
  reads a (slice (Z.to_nat (a mod bsize)) n (lblock w (a / bsize))) w.
Proof.
  intros Hw Ha Hn i Hi. destruct (address_block w a Hw Ha) as [Hb Ho]. assert (Hnz : bsize <> 0) by lia.
  pose proof (Z.div_mod a bsize Hnz) as Da. unfold slice in *. rewrite length_take in Hi.
  rewrite lookup_take_lt by lia. rewrite lookup_drop. unfold byte.
  assert (Ex : (a + Z.of_nat i) / bsize = a / bsize).
  { symmetry. apply Z.div_unique with (a mod bsize + Z.of_nat i); lia. }
  pose proof (Z.div_mod (a + Z.of_nat i) bsize Hnz) as Dx. rewrite Ex in *. f_equal. lia.
Qed.

Lemma read_loop_spec k : forall f len a oo fl dat w,
  let left := len - Z.of_nat (length dat) in
  inv (bmtd w) -> 0 <= fl -> 0 <= left < 2 ^ 32 -> 0 <= a -> a + left <= nblocks * bsize ->
  left = 0 \/ a mod bsize + left <= Z.of_nat k * bsize -> (k + 1 <= f)%nat ->
  runs (read_loop ops f len 0 a oo 0 fl 0 dat []) w (fun r w' =>
    unchanged w w' /\ exists fl' l, r = (fl', dat ++ l, []) /\ 0 <= fl' /\ Z.of_nat (length l) = left /\ reads a l w).
Proof.
  induction k as [|k IH]; intros f len a oo fl dat w left Hw Hfl Hl Ha Han Hk Hf.
  all: destruct f as [|f]; [lia|]; cbn [read_loop]; destruct (Z.ltb_spec (Z.of_nat (length dat)) len) as [Hlt|Hge].
  2, 4: cbn [orb length]; rewrite Z.ltb_irrefl; apply runs_ret; split; [done|]; exists fl, []; rewrite app_nil_r;
    split; [done|]; split; [done|]; split; [cbn; lia|]; intros i Hi; cbn in Hi; lia.
  { pose proof (bsize_pos _ (inv_geometry _ Hw)) as Hpos. pose proof (Z.mod_pos_bound a bsize Hpos). lia. }
  pose proof (inv_geometry _ Hw) as Hg. pose proof (bsize_pos _ Hg) as Hpos. pose proof (g_limit _ Hg) as Hlim.
  pose proof (Z.mod_pos_bound a bsize Hpos) as Hao. assert (Hnz : bsize <> 0) by lia. pose proof (Z.div_mod a bsize Hnz) as Da.
  assert (Hab : 0 <= a < nblocks * bsize) by lia. destruct (address_block w a Hw Hab) as [Hb Ho].
  pose proof (nblocks_range (ops := ops)) as Hnb. destruct (place_range (bmtd w) _ Hw Hb) as [Hp Hp'].
  cbn [orb]. apply runs_bind, runs_desc. rewrite (offset_of_mod _ Hg), (block_of_div _ Hg a nblocks) by lia.
  rewrite s32_small by lia. apply runs_bind. unfold runs. rewrite get_mapping by done.
  destruct (Z.ltb_spec (place (bmtd w) (a / bsize)) 0); [lia|]. rewrite (shiftl_block _ Hg), (g_erase _ Hg).
  rewrite (wrap_small 32 (bsize - a mod bsize)) by lia. rewrite (wrap_small 32 (len - _)) by lia.
  fold left. fold (part a left). assert (Hpart : 0 < part a left <= bsize - a mod bsize) by (unfold part; lia).
  assert (Hsum : a mod bsize + part a left <= bsize) by lia. assert (Hp0 : 0 <= part a left) by lia.
  apply runs_bind, runs_call. cbn [length]. rewrite Z.sub_diag.
  pose proof (chip_read (nand w) _ (a mod bsize) (part a left) 0 oo Hp Ho Hp0 Hsum ltac:(lia)) as Hc.
  destruct (_read_oob _ _ _ _ _) as [[[ret cur] oob] n']. destruct Hc as (Hret & -> & Hoob & Hsame). cbn [fst snd].
  assert (oob = []) as -> by (destruct oob; [done|cbn in Hoob; lia]). destruct (Z.ltb_spec ret 0); [lia|]. cbn [andb app].
  set (l := slice _ _ (content _ _)).
  assert (El : l = slice (Z.to_nat (a mod bsize)) (Z.to_nat (part a left)) (lblock w (a / bsize))) by done.
  assert (Hlen : Z.of_nat (length l) = part a left).
  { rewrite El. rewrite length_slice; [lia|]. pose proof (lblock_length w _ Hw Hb). lia. }
  set (w1 := BmtWorld (bmtd w) n'). assert (Hun : unchanged w w1).
  { split; [done|]. intros b _. unfold lblock. cbn. apply Hsame. }
  change (bmtd w) with (bmtd w1). rewrite (wrap_small 32 (place _ _)) by (cbn; lia).
  apply runs_step with (Q := fun _ w2 => unchanged w1 w2); [by apply runs_remap_flips|]. intros _ w2 Hun2.
  assert (Hun' : unchanged w w2).
  { split; [apply Hun2|]. intros b Hb'. by rewrite (proj2 Hun2), (proj2 Hun). }
  destruct (Z.eqb_spec (part a left) 0); [lia|].
  eapply runs_mono; [apply (IH f len _ 0 (Z.max fl ret) (dat ++ l) w2)|]; rewrite ?length_app.
  - apply Hun2.
  - lia.
  - unfold part in *. lia.
  - unfold part in *. lia.
  - unfold part in *. lia.
  - destruct (decide (left <= bsize - a mod bsize)); [left; unfold part in *; lia|right].
    replace (a + part a left) with ((a / bsize + 1) * bsize) by (unfold part; lia).
    rewrite Z.mod_mul by done. unfold part in *. destruct Hk; lia.
  - lia.
  - intros r w' [Hun3 (fl' & l2 & -> & Hfl' & Hl2 & R2)]. split.
    { split; [apply Hun3|]. intros b Hb'. by rewrite (proj2 Hun3), (proj2 Hun'). }
    exists fl', (l ++ l2). split; [by rewrite app_assoc|]. split; [done|]. split; [rewrite length_app; lia|].
    apply (reads_app a l l2 w w2 Hw); [done|lia|done|rewrite El; apply reads_block; [done|done|lia]|by rewrite Hlen].
Qed.

(** ** Erasing *)

Definition erased : list Z := replicate (Z.to_nat bsize) 255.

(** The blocks from [s] to [j] are erased, the others but [but] are as they were. *)
Definition erased_blocks (s j : Z) (but : option Z) w w' : Prop :=
  forall c, 0 <= c < nblocks -> Some c <> but -> lblock w' c = if decide (s <= c < j) then erased else lblock w c.

Lemma erase_call w b :
  inv (bmtd w) -> 0 <= b < nblocks ->
  let '(ret, n') := _erase (place (bmtd w) b * bsize) bsize (nand w) in
  same_others b w (BmtWorld (bmtd w) n') /\
  if bad (place (bmtd w) b) then ret <> 0 else ret = 0 /\ lblock (BmtWorld (bmtd w) n') b = erased.
Proof.
  intros Hw Hb. destruct (place_range (bmtd w) b Hw Hb) as [Hp _]. pose proof (chip_erase (nand w) _ Hp) as Hc.
  destruct (_erase _ _ _) as [ret n']. destruct Hc as [Hs Hr]. split; [by apply same_but_others|done].
Qed.

Lemma erase_round f s stop ret tries w :
  inv (bmtd w) -> 0 <= s < nblocks -> s * bsize < stop ->
  erase_loop ops (S f) (s * bsize) stop ret tries w =
  (ret ← call (_erase (place (bmtd w) s * bsize) bsize);
   if negb (ret =? 0) then
     again ← mtk_bmt_remap_block ops s (place (bmtd w) s) 0;
     if again && (tries <? 10) then erase_loop ops f (s * bsize) stop (Some ret) (tries + 1) else mret (ret, Some (s * bsize))
   else erase_loop ops f ((s + 1) * bsize) stop (Some ret) 0) w.
Proof.
  intros Hw Hs Hst. pose proof (inv_geometry _ Hw) as Hg. pose proof (bsize_pos _ Hg) as Hpos.
  pose proof (nblocks_range (ops := ops)) as Hnb. destruct (place_range (bmtd w) s Hw Hs) as [Hp Hp'].
  cbn [erase_loop]. destruct (Z.ltb_spec (s * bsize) stop); [|lia].
  unfold desc, mbind, prog_bind, get_st, mret, prog_ret.
  rewrite Z.shiftr_div_pow2 by apply Hg. rewrite <- (g_size _ Hg), Z.div_mul by lia. rewrite (wrap_small 16) by lia.
  rewrite get_mapping by done. destruct (Z.ltb_spec (place (bmtd w) s) 0); [lia|].
  rewrite (shiftl_block _ Hg), (g_blk _ Hg), (g_erase _ Hg). rewrite (wrap_small 32) by lia.
  replace (s * bsize + bsize) with ((s + 1) * bsize) by lia. done.
Qed.
Lemma erase_good f s stop ret tries w Q :
  inv (bmtd w) -> 0 <= s < nblocks -> s * bsize < stop -> bad (place (bmtd w) s) = false ->
  (forall w', inv (bmtd w') -> same_others s w w' -> lblock w' s = erased ->
     runs (erase_loop ops f ((s + 1) * bsize) stop (Some 0) 0) w' Q) ->
  runs (erase_loop ops (S f) (s * bsize) stop ret tries) w Q.
Proof.
  intros Hw Hs Hst Hbad Hgo. unfold runs. rewrite erase_round by done. pose proof (erase_call w s Hw Hs) as Hc.
  rewrite Hbad in Hc. unfold mbind, prog_bind, call. destruct (_erase _ _ _) as [r n'].
  destruct Hc as (Hso & -> & He). cbn [negb Z.eqb]. by apply Hgo.
Qed.

(** One block; one that fails takes a second round. *)
Lemma erase_step f s stop ret w Q :
  inv (bmtd w) -> 0 <= s < nblocks -> s * bsize < stop ->
  (forall f' w', (f <= f')%nat -> inv (bmtd w') -> same_others s w w' -> lblock w' s = erased ->
     runs (erase_loop ops f' ((s + 1) * bsize) stop (Some 0) 0) w' Q) ->
  (forall r w', r <> 0 -> inv (bmtd w') -> same_others s w w' -> Q (r, Some (s * bsize)) w') ->
  runs (erase_loop ops (S (S f)) (s * bsize) stop ret 0) w Q.
Proof.
  intros Hw Hs Hst Hgo Hstop. destruct (bad (place (bmtd w) s)) eqn:Hbad.
  2: { apply erase_good; [done..|]. intros w' Hi Hso He. apply Hgo; [lia|done..]. }
  unfold runs. rewrite erase_round by done. pose proof (erase_call w s Hw Hs) as Hc. rewrite Hbad in Hc.
  pose proof (bsize_pos _ (inv_geometry _ Hw)) as Hpos.
  unfold mbind at 1, prog_bind at 1, call. destruct (_erase _ _ _) as [r n']. destruct Hc as [Hso Hr].
  destruct (Z.eqb_spec r 0); [done|]. cbn [negb]. set (w1 := BmtWorld (bmtd w) n') in *.
  change (place (bmtd w) s) with (place (bmtd w1) s).
  eapply runs_step; [apply (runs_remap w1 s 0) with
    (Q := fun again w2 => inv (bmtd w2) /\ same_others s w w2 /\ (again = true -> bad (place (bmtd w2) s) = false))|].
  - done.
  - done.
  - lia.
  - apply Z.divide_0_r.
  - intros w2 Hi Hso2 Hgood _. split; [done|]. split; [by eapply same_others_trans|done].
  - intros w2 Hi Hso2 _. split; [done|]. split; [by eapply same_others_trans|done].
  - intros again w2 (Hi & Hso2 & Hg). destruct again; cbn [andb].
    + change (0 <? 10) with true. cbn [andb]. apply erase_good; [done|done|done|by apply Hg|].
      intros w' Hi' Hso' He. apply Hgo; [lia|done| |done]. by eapply same_others_trans.
    + apply runs_ret. by apply Hstop.
Qed.

Lemma erased_next s j but w w1 w2 :
  s + 1 <= j -> but <> Some s -> same_others s w w1 -> lblock w1 s = erased -> erased_blocks (s + 1) j but w1 w2 -> erased_blocks s j but w w2.
Proof.
  intros Hj Hbut Hso He Hb c Hc Hne. rewrite Hb by done. destruct (decide (s + 1 <= c < j)); [by rewrite decide_True by lia|].
  destruct (decide (c = s)) as [->|Hcs]; [rewrite decide_True by lia; done|]. rewrite decide_False by lia. by apply Hso.
Qed.

Definition erase_result (s stop : Z) w (r : Z * option Z) w' : Prop :=
  inv (bmtd w') /\
  ((r = (0, None) /\ erased_blocks s stop None w w') \/
   exists j, s <= j < stop /\ r.1 <> 0 /\ r.2 = Some (j * bsize) /\ erased_blocks s j (Some j) w w').

Lemma erase_loop_spec k : forall f s ret w,
  inv (bmtd w) -> 0 <= s -> s + Z.of_nat k <= nblocks -> (2 * k + 1 <= f)%nat -> k <> O \/ ret = Some 0 ->
  runs (erase_loop ops f (s * bsize) ((s + Z.of_nat k) * bsize) ret 0) w (erase_result s (s + Z.of_nat k) w).
Proof.
  induction k as [|k IH]; intros f s ret w Hw Hs Hn Hf Hret; pose proof (bsize_pos _ (inv_geometry _ Hw)) as Hpos.
  - destruct f as [|f]; [lia|]. destruct Hret as [?| ->]; [done|]. cbn [erase_loop].
    destruct (Z.ltb_spec (s * bsize) ((s + Z.of_nat 0) * bsize)); [lia|]. apply runs_bind, runs_defined, runs_ret.
    split; [done|]. left. split; [done|]. intros c Hc _. by rewrite decide_False by lia.
  - destruct f as [|[|f]]; [lia|lia|].
    assert (Hst : s * bsize < (s + Z.of_nat (S k)) * bsize) by (apply Z.mul_lt_mono_pos_r; lia).
    apply erase_step; [done|lia|done| |].
    + intros f' w' Hf' Hi Hso He. replace (s + Z.of_nat (S k)) with (s + 1 + Z.of_nat k) by lia.
      eapply runs_mono; [apply IH; [done|lia|lia|lia|by right]|]. intros r w2 [Hi2 Hres]. split; [done|].
      destruct Hres as [[-> Hb]|(j & Hj & E1 & E2 & Hb)]; [left|right].
      * split; [done|]. eapply erased_next; [lia|done|done|done|exact Hb].
      * exists j. split; [lia|]. split; [done|]. split; [done|]. eapply erased_next; [lia| |done|done|exact Hb].
        intros [= ->]. lia.
    + intros r w' Hr Hi Hso. split; [done|]. right. exists s. split; [lia|]. split; [done|]. split; [done|].
      intros c Hc Hne. rewrite decide_False by lia. apply Hso; [done|]. intros ->. by apply Hne.
Qed.

(** ** The device *)

(** A write to erased flash, from a page on, puts the bytes where they belong and changes no
    other byte of the device, whatever blocks fail on the way, as long as they can be
    replaced. If one cannot, an error is returned, the bytes in front of it are written, and
    the other blocks are as they were. *)
Theorem mtk_bmt_write_device k f a dat oo z w :
  inv (bmtd w) -> 0 <= a -> a + Z.of_nat (length dat) <= z * bsize -> z <= nblocks -> Z.of_nat (length dat) < 2 ^ 32 ->
  (psize | a mod bsize) -> a mod bsize + Z.of_nat (length dat) <= Z.of_nat k * bsize -> (2 * k + 1 <= f)%nat ->
  (forall x, a <= x < z * bsize -> byte w x = Some 255) ->
  runs (mtk_bmt_write ops f a dat [] oo) w (fun r w' =>
    let '(ret, retlen, _) := r in
    inv (bmtd w') /\
    ((ret = 0 /\ retlen = Z.of_nat (length dat) /\ updated a dat w w') \/
     (ret < 0 /\ 0 <= retlen < Z.of_nat (length dat) /\ written a dat retlen w w'))).
Proof.
  intros Hw Ha Hz Hnb Hl Hpg Hk Hf He. unfold mtk_bmt_write.
  eapply runs_mono; [apply (write_loop_spec k f dat a oo 0 z)|]; try done; try lia.
  intros [[ret rl] ol] w' [Hi Hres]. split; [done|]. rewrite Z.sub_0_r in Hres. exact Hres.
Qed.

(** A read gives the bytes of the device, and how many flipped bits were corrected. *)
Theorem mtk_bmt_read_device k f a len oo w :
  inv (bmtd w) -> 0 <= a -> 0 <= len < 2 ^ 32 -> a + len <= nblocks * bsize ->
  a mod bsize + len <= Z.of_nat k * bsize -> (k + 1 <= f)%nat ->
  runs (mtk_bmt_read ops f a len 0 oo) w (fun r w' =>
    unchanged w w' /\ exists fl l, r = (fl, l, []) /\ 0 <= fl /\ Z.of_nat (length l) = len /\ reads a l w).
Proof.
  intros Hw Ha Hl Han Hk Hf. unfold mtk_bmt_read.
  eapply runs_mono; [apply (read_loop_spec k)|]; cbn [length]; try done; try lia.
  intros r w' [Hu (fl & l & -> & Hfl & Hlen & Hr)]. split; [done|]. exists fl, l. split; [done|]. split; [done|]. split; [lia|done].
Qed.

(** An erase of whole blocks erases these and no other. *)
Theorem mtk_bmt_erase_device k f s w :
  inv (bmtd w) -> 0 <= s -> s + Z.of_nat k <= nblocks -> (s + Z.of_nat k) * bsize <= 2 ^ 32 -> (2 * k + 1 <= f)%nat -> k <> O ->
  runs (mtk_bmt_mtd_erase ops f (s * bsize) (Z.of_nat k * bsize)) w (erase_result s (s + Z.of_nat k) w).
Proof.
  intros Hw Hs Hn H32 Hf Hk. pose proof (inv_geometry _ Hw) as Hg. pose proof (bsize_pos _ Hg) as Hpos.
  unfold mtk_bmt_mtd_erase. apply runs_bind, runs_desc. rewrite (g_erase _ Hg).
  replace (Z.land (s * bsize) (not_w 32 (bsize - 1))) with (s * bsize).
  - replace (s * bsize + Z.of_nat k * bsize) with ((s + Z.of_nat k) * bsize) by lia.
    apply erase_loop_spec; [done|done|done|done|by left].
  - unfold not_w. rewrite (g_size _ Hg). assert (Hb : blk_shift (bmtd w) <= 32).
    { apply (Z.pow_le_mono_r_iff 2); [lia|lia|]. rewrite <- (g_size _ Hg). pose proof (g_limit _ Hg). lia. }
    pose proof (g_shift _ Hg). rewrite land_high_mask; [|lia|].
    + rewrite Z.mod_mul by lia. lia.
    + rewrite <- (g_size _ Hg). assert (s * bsize < (s + Z.of_nat k) * bsize) by (apply Z.mul_lt_mono_pos_r; lia). lia.
Qed.
(** Reading after a write returns what was written. *)
Lemma reads_updated w w1 a dat l :
  inv (bmtd w1) -> 0 <= a -> a + Z.of_nat (length dat) <= nblocks * bsize ->
  updated a dat w w1 -> reads a l w1 -> length l = length dat -> l = dat.
Proof.
  intros Hi Ha Hn Hu Hr Hl. apply list_eq. intros i. destruct (decide (i < length dat)%nat) as [Hlt|Hge].
  - rewrite Hr by lia. rewrite Hu by lia. rewrite decide_True by lia. f_equal. lia.
  - by rewrite !lookup_ge_None_2 by lia.
Qed.

Lemma write_read k f a dat z w :
  inv (bmtd w) -> 0 <= a -> a + Z.of_nat (length dat) <= z * bsize -> z <= nblocks -> Z.of_nat (length dat) < 2 ^ 32 ->
  (psize | a mod bsize) -> a mod bsize + Z.of_nat (length dat) <= Z.of_nat k * bsize -> (2 * k + 1 <= f)%nat ->
  (forall x, a <= x < z * bsize -> byte w x = Some 255) ->
  runs (r ← mtk_bmt_write ops f a dat [] 0;
        b ← mtk_bmt_read ops f a (Z.of_nat (length dat)) 0 0;
        mret (r.1.1, r.1.2, b.1.1, b.1.2)) w
    (fun r w' => let '(ret, retlen, flips, back) := r in
     inv (bmtd w') /\ 0 <= flips /\
     ((ret = 0 /\ retlen = Z.of_nat (length dat) /\ back = dat /\ updated a dat w w') \/
      (ret < 0 /\ written a dat retlen w w'))).
Proof.
  intros Hw Ha Hz Hnb Hl Hpg Hk Hf He. pose proof (bsize_pos _ (inv_geometry _ Hw)) as Hpos.
  assert (Hn : z * bsize <= nblocks * bsize) by (apply Z.mul_le_mono_nonneg_r; lia).
  eapply runs_step; [by apply (mtk_bmt_write_device k f a dat 0 z w)|]. intros [[ret rl] ol] w1 [Hi Hres].
  eapply runs_step; [apply (mtk_bmt_read_device k f a (Z.of_nat (length dat)) 0 w1); try done; lia|].
  intros b w2 [Hun (fl & l & -> & Hfl & Hlen & Hr)]. apply runs_ret. cbn [fst snd].
  assert (Hby : forall x, 0 <= x < nblocks * bsize -> byte w2 x = byte w1 x) by (intros x Hx; by apply unchanged_byte).
  split; [apply Hun|]. split; [done|]. destruct Hres as [(-> & -> & Hu)|(Hneg & Hrl & Hwr)]; [left|right].
  - split; [done|]. split; [done|]. split; [apply (reads_updated w w1 a dat l); try done; lia|].
    intros x Hx. rewrite Hby by done. by apply Hu.
  - split; [done|]. intros x Hx Hout. rewrite Hby by done. by apply Hwr.
Qed.
End Device.

(** ** Copying blocks *)

Section Copying.
Context {N : Type} `{ChipLaws N}.
Implicit Types (w : bmt_world N).

(** Pages and blocks. *)
Record pages (d : bmt_desc) : Prop := {
  p_geometry : geometry d;
  p_shift : 0 <= pg_shift d <= blk_shift d;
  p_size : psize = 2 ^ pg_shift d;
  p_pg : pg_size d = psize;
  p_oob : 0 <= oobsize d
}.

Lemma psize_pos d : pages d -> 0 < psize /\ (psize | bsize) /\ psize <= bsize.
Proof.
  intros Hp. rewrite (p_size d Hp). rewrite (g_size d (p_geometry d Hp)). pose proof (p_shift d Hp) as Hs.
  split; [apply Z.pow_pos_nonneg; lia|]. split; [|apply Z.pow_le_mono_r; lia].
  exists (2 ^ (blk_shift d - pg_shift d)). rewrite <- Z.pow_add_r by lia. f_equal. lia.
Qed.

Lemma pages_count d : pages d -> Z.shiftr (blk_size d) (pg_shift d) = bsize / psize.
Proof.
  intros Hp. rewrite Z.shiftr_div_pow2 by apply Hp. by rewrite (g_blk d (p_geometry d Hp)), <- (p_size d Hp).
Qed.

(** ** Copying *)

(** A block that has the first bytes of another one, and is erased behind them. *)
Definition prefix_of_block (n : N) (src dest off : Z) : Prop :=
  content n dest = take (Z.to_nat off) (content n src) ++ replicate (Z.to_nat (bsize - off)) 255.

Lemma prefix_next (n1 n2 : N) src dest off p :
  0 <= off -> 0 <= p -> off + p <= bsize -> Z.of_nat (length (content n1 src)) = bsize ->
  prefix_of_block n1 src dest off ->
  content n2 dest = Prelude.write (Z.to_nat off) (slice (Z.to_nat off) (Z.to_nat p) (content n1 src)) (content n1 dest) ->
  content n2 src = content n1 src -> prefix_of_block n2 src dest (off + p).
Proof.
  intros Ho Hp Hb Hl Hpre Hw Hs. unfold prefix_of_block in *. rewrite Hw, Hs, Hpre. unfold Prelude.write.
  assert (Ht : length (take (Z.to_nat off) (content n1 src)) = Z.to_nat off) by (rewrite length_take; lia).
  rewrite take_app_length' by done. rewrite length_slice by lia. rewrite drop_app_ge by lia. rewrite Ht.
  rewrite drop_replicate. unfold slice. rewrite app_assoc. f_equal; [|f_equal; lia].
  replace (Z.to_nat (off + p)) with (Z.to_nat off + Z.to_nat p)%nat by lia. by rewrite take_take_drop.
Qed.

Lemma prefix_erased (n : N) src dest off p :
  0 <= off -> 0 <= p -> off + p <= bsize -> Z.of_nat (length (content n src)) = bsize ->
  prefix_of_block n src dest off -> slice (Z.to_nat off) (Z.to_nat p) (content n dest) = replicate (Z.to_nat p) 255.
Proof.
  intros Ho Hp Hb Hl ->. assert (Ht : length (take (Z.to_nat off) (content n src)) = Z.to_nat off) by (rewrite length_take; lia).
  unfold slice. rewrite drop_app_length' by done. rewrite take_replicate. f_equal. lia.
Qed.

Lemma take_written (l buf : list Z) n : n = length l -> take n (Prelude.write 0 l buf) = l.
Proof. intros ->. unfold Prelude.write. rewrite take_0, app_nil_l. apply take_app_length. Qed.

Lemma runs_copy_good k d src dest off len w :
  (exists b, bmtd w = set_data b d) -> pages d -> 0 <= src < chip_blocks -> 0 <= dest < chip_blocks -> src <> dest ->
  bad dest = false -> 0 <= off <= len -> len <= bsize -> (psize | off) -> (psize | len) ->
  len - off <= Z.of_nat k * psize -> prefix_of_block (nand w) src dest off ->
  runs (copy_pages k (src * bsize) (dest * bsize) off len) w (fun _ w' =>
    (exists b, bmtd w' = set_data b d) /\ same_but dest (nand w) (nand w') /\ prefix_of_block (nand w') src dest len).
Proof.
  intros Hd Hpg Hsrc Hdest Hne Hbad Ho Hlen Dof Dlen Hk Hpre. destruct (psize_pos d Hpg) as (Hps & _ & Hpb).
  revert off w Hd Ho Dof Hk Hpre. induction k as [|k IH]; intros off w Hd Ho Dof Hk Hpre; cbn [copy_pages].
  { apply runs_ret. assert (off = len) as <- by lia. done. }
  destruct (Z.leb_spec len off); [apply runs_ret; assert (off = len) as <- by lia; done|].
  assert (Hnext : off + psize <= len).
  { destruct Dof as [a ->], Dlen as [b ->]. assert (a < b) by (apply (Z.mul_lt_mono_pos_r psize); lia). nia. }
  destruct Hd as [b0 Eb]. apply runs_bind, runs_desc, runs_bind, runs_call. rewrite Eb. cbn [blk_size pg_shift pg_size oobsize set_data].
  rewrite (p_pg d Hpg), (pages_count d Hpg).
  assert (Hool : 0 <= Z.min (oobsize d / (bsize / psize)) 64).
  { apply Z.min_glb; [|lia]. apply Z.div_pos; [apply Hpg|]. apply Z.div_str_pos. lia. }
  assert (Ho0 : 0 <= off < bsize) by lia. assert (Hp0 : 0 <= psize) by lia. assert (Hsum : off + psize <= bsize) by lia.
  pose proof (chip_read (nand w) src off psize _ 0 Hsrc Ho0 Hp0 Hsum Hool) as Hc.
  destruct (_read_oob _ _ _ _ _) as [[[ret dat] oob] n1]. destruct Hc as (Hret & Edat & _ & Hsame). cbn [fst snd].
  destruct (Z.ltb_spec ret 0); [lia|]. cbn [andb].
  assert (Hls : Z.of_nat (length (content (nand w) src)) = bsize) by by apply chip_length.
  assert (Hld : Z.of_nat (length dat) = psize) by (rewrite Edat, length_slice; lia).
  apply runs_bind, runs_change_desc. rewrite bool_decide_eq_false_2 by (intros ->; cbn in Hld; lia).
  apply runs_bind, runs_desc, runs_bind, runs_call. cbn [bmtd data_buf set_data pg_size].
  rewrite (p_pg d Hpg). rewrite take_written by lia.
  assert (Her : slice (Z.to_nat off) (length dat) (content n1 dest) = replicate (length dat) 255).
  { rewrite Hsame. replace (length dat) with (Z.to_nat psize) by lia. apply (prefix_erased _ src); [lia..|done|done]. }
  assert (Hsum2 : off + Z.of_nat (length dat) <= bsize) by lia.
  pose proof (chip_write n1 dest off dat [] 0 Hdest Ho0 Hsum2 Hbad Her) as Hc.
  cbn [nand]. destruct (_write_oob _ _ _ _ _) as [[[ret2 l1] l2] n2]. destruct Hc as (-> & _ & _ & Hwr & Hso). cbn [fst snd].
  change (0 <? 0) with false. rewrite Hld. eapply runs_mono; [apply (IH (off + psize))|].
  - by exists (Prelude.write 0 dat b0).
  - lia.
  - apply Z.divide_add_r; [done|]. apply Z.divide_refl.
  - lia.
  - cbn [nand]. apply (prefix_next (nand w)); [lia..|done|done| |].
    + rewrite Hwr, Edat, Hsame. done.
    + rewrite Hso by done. apply Hsame.
  - intros r w' (Hd' & Hs' & Hp'). split; [done|]. split; [|done]. intros c Hc. rewrite Hs' by done.
    cbn [nand]. rewrite Hso by done. apply Hsame.
Qed.

Lemma runs_erase_good w b :
  geometry (bmtd w) -> 0 <= b < chip_blocks -> bad b = false ->
  runs (bbt_nand_erase b) w (fun r w' =>
    r = 0 /\ bmtd w' = bmtd w /\ same_but b (nand w) (nand w') /\ content (nand w') b = erased).
Proof.
  intros Hg Hb Hbad. unfold bbt_nand_erase. apply runs_bind, runs_desc, runs_call.
  rewrite (shiftl_block _ Hg), (g_blk _ Hg). pose proof (chip_erase (nand w) b Hb) as Hc. rewrite Hbad in Hc.
  destruct (_erase _ _ _) as [r n']. cbn. by destruct Hc as (Hs & -> & Hc).
Qed.

(** A block is erased and filled with the beginning of another one. *)
Lemma runs_fill d src new len w (p : prog (bmt_world N) bool) Q :
  bmtd w = d -> pages d -> 0 <= src < chip_blocks -> 0 <= new < chip_blocks -> src <> new -> bad new = false ->
  0 <= len <= bsize -> (psize | len) ->
  (forall w3, (exists x, bmtd w3 = set_data x d) -> same_but new (nand w) (nand w3) -> prefix_of_block (nand w3) src new len ->
     runs p w3 Q) ->
  runs (bbt_nand_erase new;; (if 0 <? len then bbt_nand_copy new src len else mret 0);; p) w Q.
Proof.
  intros Ed Hpg Hsrc Hnew Hne Hbad Hlen Hd Hgo. pose proof (p_geometry d Hpg) as Hg. subst d.
  eapply runs_step; [by apply runs_erase_good|]. intros r2 w2 (_ & E2 & S2 & C2).
  assert (Hpre : prefix_of_block (nand w2) src new 0) by (unfold prefix_of_block; rewrite C2, Z.sub_0_r; done).
  destruct (Z.ltb_spec 0 len).
  - destruct (psize_pos _ Hpg) as (Hps & [q Eq] & Hpb).
    eapply runs_step.
    { unfold bbt_nand_copy. apply runs_bind, runs_desc. rewrite E2, !(shiftl_block _ Hg), (pages_count _ Hpg).
      apply (runs_copy_good _ (bmtd w)); [|done|done|done|done|done|lia|lia|apply Z.divide_0_r|done| |exact Hpre].
      - exists (data_buf (bmtd w)). by rewrite set_data_same.
      - rewrite Eq, Z.div_mul by lia. rewrite Z2Nat.id by nia. lia. }
    intros r3 w3 (Hd3 & S3 & P3). apply Hgo; [exact Hd3| |exact P3]. intros c Hc. by rewrite S3, S2.
  - apply runs_bind, runs_ret. assert (len = 0) as -> by lia. apply Hgo; [|done|done].
    exists (data_buf (bmtd w)). by rewrite set_data_same.
Qed.
End Copying.
