(* ===== verification/BmtV2Device.v ===== *)
(** * The table of replacements makes a device

    With good spare blocks the backend of [BmtV2] is what [BmtDevice] expects of one. *)

From Stdlib Require Import ZArith Lia.
From stdpp Require Import base list numbers option.
From S2P Require Import Prelude Bmt BmtV2 BmtV2Proofs BmtDevice.

Section V2Device.
Context {N : Type} `{ChipLaws N} (e : endian).
Implicit Types (w : bmt_world N).

(** ** The state of the backend *)

Context (lba : Z) (lba_range : 0 <= lba <= 65536).

(** The tables are well formed, all places are on the chip, and what the pool still has is
    good, with the block for the table in it. *)
Record v2_inv (d : bmt_desc) : Prop := {
  vi_ok : v2_ok e d;
  vi_pages : pages d;
  vi_lba : pool_lba d = lba;
  vi_range : forall b, 0 <= b < lba -> exists r, mapping_block_in_range d b = Some r;
  vi_place : forall b, 0 <= b < lba -> bb e d b < chip_blocks;
  vi_spare : forall i, 0 <= i <= bmt_blk_idx d -> blk e d i <> 0 -> blk e d i < chip_blocks /\ bad (blk e d i) = false;
  vi_table : blk e d (bmt_blk_idx d) <> 0 /\ mapped e d (bmt_blk_idx d) <> NORMAL_MAPPED;
  vi_length : u32 (Z.shiftl (bmt_pgs d) (pg_shift d)) <= bsize
}.

Lemma bb_range d n i : has_room d n -> 0 <= bb e d i < 65536.
Proof. intros (_ & _ & _ & Hb). by apply num_range. Qed.

(** The table is written where it was. *)
Lemma runs_upload_good w :
  let idx := bmt_blk_idx (bmtd w) in
  geometry (bmtd w) -> has_room (bmtd w) (idx + 1) -> 0 <= idx < 65535 -> mapped e (bmtd w) idx <> NORMAL_MAPPED ->
  0 <= blk e (bmtd w) idx < chip_blocks -> bad (blk e (bmtd w) idx) = false ->
  u32 (Z.shiftl (bmt_pgs (bmtd w)) (pg_shift (bmtd w))) <= bsize ->
  runs (upload e) w (fun _ w' =>
    bmtd w' = set_idx idx (signed (bmtd w)) /\ same_but (blk e (bmtd w) idx) (nand w) (nand w')).
Proof.
  intros idx Hg Hr Hi Hm Hb Hbad Hlen. pose proof (bsize_pos _ Hg) as Hpos. unfold upload. apply runs_bind, runs_desc.
  fold idx. unfold upload_bmt. replace (Z.to_nat (idx + 1)) with (S (Z.to_nat idx)) by lia. cbn [upload_from].
  apply runs_bind, runs_bind, runs_bind, runs_desc. apply runs_load16; [apply (in_mapped _ (idx + 1)); [done|lia]|]. fold (mapped e (bmtd w) idx).
  destruct (Z.eqb_spec (mapped e (bmtd w) idx) NORMAL_MAPPED); [done|].
  apply runs_bind, runs_bind, runs_desc. apply runs_load16; [apply (in_blk _ (idx + 1)); [done|lia]|]. fold (blk e (bmtd w) idx).
  eapply runs_step; [by apply runs_erase_good|]. intros r1 w1 (-> & E1 & S1 & C1). cbn [negb Z.eqb].
  apply runs_bind, runs_change_desc. rewrite E1. fold (signed (bmtd w)). apply runs_bind, runs_desc.
  apply runs_bind. unfold write_bmt. apply runs_bind, runs_desc, runs_bind, runs_call. cbn [bmtd nand].
  assert (Hgs : geometry (signed (bmtd w))) by (destruct Hg; by split).
  rewrite (shiftl_block _ Hgs). set (l := take _ (bbt_buf (signed (bmtd w)))).
  assert (H0b : 0 <= 0 < bsize) by lia.
  assert (Hl : 0 + Z.of_nat (length l) <= bsize) by (unfold l; rewrite length_take; cbn; lia).
  rewrite <- (Z.add_0_r (blk e (bmtd w) idx * bsize)).
  assert (Her : slice (Z.to_nat 0) (length l) (content (nand w1) (blk e (bmtd w) idx)) = replicate (length l) 255).
  { rewrite C1. unfold slice, erased. rewrite drop_0, take_replicate. f_equal. lia. }
  pose proof (chip_write (nand w1) _ 0 l v2_sig (OOB_SIGNATURE_OFFSET + oob_offset (signed (bmtd w))) Hb H0b Hl Hbad Her) as Hc.
  destruct (_write_oob _ _ _ _ _) as [[[ret2 l1] l2] n2]. destruct Hc as (-> & _ & _ & _ & S2). cbn [fst snd].
  apply runs_ret. cbn [negb Z.eqb]. apply runs_ret, runs_change_desc. cbn [bmtd nand]. rewrite (wrap_small 16) by lia.
  split; [done|]. intros c Hc. by rewrite S2, S1.
Qed.

(** What remapping makes of the description. *)
Definition remapped (block n : Z) (b : list Z) (d : bmt_desc) : bmt_desc :=
  set_idx (bmt_blk_idx d) (signed (set_data b (given_out e block n d))).

Lemma remapped_inv d block n b :
  v2_inv d -> 0 <= block < lba -> 0 <= n < bmt_blk_idx d -> blk e d n <> 0 -> mapped e d n = NO_MAPPED ->
  v2_inv (remapped block n b d) /\
  forall j, 0 <= j < lba -> bb e (remapped block n b d) j = if j =? block then blk e d n else bb e d j.
Proof.
  intros Hv Hb Hn Hz Hm. pose proof (vi_ok d Hv) as Ho. pose proof (vi_lba d Hv) as El. rewrite <- El in Hb.
  pose proof (o_lba e d Ho) as Hlba. pose proof (o_idx e d Ho) as Hidx.
  destruct (given_tables e d (bmt_blk_idx d + 1) block n (o_room e d Ho) ltac:(lia) ltac:(lia)) as (G1 & G2 & G3 & G4).
  set (d1 := set_data b (given_out e block n d)).
  assert (Hroom : has_room d1 (bmt_blk_idx d + 1)) by exact G1.
  assert (Hu : uploaded e (bmt_blk_idx d) d1 (bmt_blk_idx d) (signed d1)).
  { split; [by apply (kept_signed e d1 (bmt_blk_idx d + 1))|]. right. split; [lia|]. split.
    - change (mapped e d1) with (mapped e (given_out e block n d)). rewrite G4 by lia.
      destruct (Z.eqb_spec (bmt_blk_idx d) n); [lia|]. apply (vi_table d Hv).
    - intros j Hj. apply (blk_signed e d1 (bmt_blk_idx d + 1)); [done|lia]. }
  destruct (given_uploaded e d block n b (bmt_blk_idx d) (signed d1) Ho Hb Hn Hz Hm Hu ltac:(lia)) as [K1 K2].
  assert (Hblk : forall i, 0 <= i -> blk e (remapped block n b d) i = blk e d i).
  { intros i Hi. change (blk e (remapped block n b d) i) with (blk e (signed d1) i).
    rewrite (blk_signed e d1 (bmt_blk_idx d + 1)) by done. exact (G3 i Hi). }
  split; [|intros j Hj; apply K2; by rewrite El]. split.
  - exact K1.
  - destruct (vi_pages d Hv) as [Hg P1 P2 P3 P4]. split; [|exact P1|exact P2|exact P3|exact P4]. destruct Hg. by split.
  - exact El.
  - exact (vi_range d Hv).
  - intros j Hj. rewrite <- El in Hj. change (remapped block n b d) with (set_idx (bmt_blk_idx d) (signed d1)).
    rewrite K2 by done. destruct (j =? block); [apply (vi_spare d Hv); [lia|done]|]. apply (vi_place d Hv). by rewrite <- El.
  - intros i Hi. rewrite Hblk by lia. apply (vi_spare d Hv). exact Hi.
  - change (bmt_blk_idx (remapped block n b d)) with (bmt_blk_idx d). rewrite Hblk by lia. split; [apply (vi_table d Hv)|].
    destruct Hu as [Hk _]. change (mapped e (remapped block n b d)) with (mapped e (signed d1)).
    rewrite (k_mapped _ _ _ Hk) by lia. change (mapped e d1) with (mapped e (given_out e block n d)). rewrite G4 by lia.
    destruct (Z.eqb_spec (bmt_blk_idx d) n); [lia|]. apply (vi_table d Hv).
  - exact (vi_length d Hv).
Qed.
Lemma geometry_given block n x d : geometry d -> geometry (set_data x (given_out e block n d)).
Proof. intros Hg. destruct Hg. by split. Qed.

Lemma pages_given block n d : pages d -> pages (given_out e block n d).
Proof. intros [Hg P1 P2 P3 P4]. split; [destruct Hg; by split|done..]. Qed.

(** Remapping in steps: a spare block, its erasure, the copy, the table. *)
Lemma remap_v2_law w b len :
  v2_inv (bmtd w) -> 0 <= b < lba -> 0 <= len <= bsize -> (psize | len) ->
  runs (remap_block_v2 e b (bb e (bmtd w) b) len) w (fun r w' =>
    v2_inv (bmtd w') /\
    (forall c, 0 <= c < lba -> c <> b ->
       bb e (bmtd w') c = bb e (bmtd w) c /\
       content (nand w') (bb e (bmtd w) c) = content (nand w) (bb e (bmtd w) c)) /\
    if r : bool then
      bad (bb e (bmtd w') b) = false /\
      content (nand w') (bb e (bmtd w') b) =
      take (Z.to_nat len) (content (nand w) (bb e (bmtd w) b)) ++ replicate (Z.to_nat (bsize - len)) 255
    else
      bb e (bmtd w') b = bb e (bmtd w) b /\
      content (nand w') (bb e (bmtd w) b) = content (nand w) (bb e (bmtd w) b)).
Proof.
  intros Hv Hb Hlen Hd. pose proof (vi_ok _ Hv) as Ho. pose proof (vi_lba _ Hv) as El. pose proof (o_lba e _ Ho) as Hlba.
  pose proof (o_idx e _ Ho) as Hidx. pose proof (o_room e _ Ho) as Hroom. set (d := bmtd w) in *.
  unfold remap_block_v2, find_valid_block_in_pool. apply runs_bind, runs_bind, runs_desc. fold d.
  eapply runs_mono; [apply (runs_pool_from e)|].
  { fold d. apply (room_le _ (bmt_blk_idx d + 1)); [done|lia]. } { lia. }
  fold d. intros new w1 [[-> ->]|(n & Hn & -> & Hz & Hm & ->)]; [by apply runs_ret|].
  destruct (Z.eqb_spec (blk e d n) 0) as [?|_]; [done|].
  assert (Hnn : 0 <= n < bmt_blk_idx d) by lia.
  assert (Hn1 : 0 <= n <= bmt_blk_idx (bmtd w)) by (fold d; lia). assert (Hi1 : 0 <= bmt_blk_idx d <= bmt_blk_idx (bmtd w)) by (fold d; lia).
  destruct (given_tables e d (bmt_blk_idx d + 1) b n Hroom ltac:(lia) ltac:(lia)) as (G1 & G2 & G3 & G4).
  pose proof (blk_range e d _ n Hroom) as Hbn. pose proof (bb_range d _ b Hroom) as Hbb.
  destruct (vi_spare _ Hv n Hn1 Hz) as [Hnc Hng].
  destruct (vi_table _ Hv) as [Hz2 Hm2]. fold d in Hz2, Hm2.
  destruct (vi_spare _ Hv (bmt_blk_idx d) Hi1 Hz2) as [Htc Htg]. fold d in Hnc, Hng, Htc, Htg.
  pose proof (blk_range e d _ (bmt_blk_idx d) Hroom) as Hbt.
  assert (Hfree : forall c, 0 <= c < lba -> bb e d c <> blk e d n /\ bb e d c <> blk e d (bmt_blk_idx d)).
  { intros c Hc. rewrite <- El in Hc. split; [by apply (free_ok e d n c Ho)|]. apply (o_free e d Ho); [lia|done|done|done]. }
  assert (Hnt : blk e d n <> blk e d (bmt_blk_idx d)).
  { intros Eq. pose proof (o_pool e d Ho n (bmt_blk_idx d) ltac:(lia) ltac:(lia) Hz Eq). lia. }
  assert (Hroom1 : has_room (set_num e (mapped_at d n) NORMAL_MAPPED d) (bmt_blk_idx d + 1)).
  { apply room_set_num; [done|]. apply (in_mapped _ (bmt_blk_idx d + 1)); [done|lia]. }
  apply runs_bind, runs_store16; [exact (in_bb _ _ b Hroom1 ltac:(cbn; lia))|]. cbn [bmtd nand]. fold d. fold (given_out e b n d).
  apply (runs_fill (given_out e b n d)).
  { done. } { by apply pages_given, Hv. } { split; [lia|by apply (vi_place _ Hv)]. } { lia. } { by apply (Hfree b Hb). }
  { done. } { done. } { done. }
  intros w3 [x E3] S3 Hpre3. cbn [nand] in S3.
  assert (Hgd : geometry (bmtd w3)) by (rewrite E3; by apply geometry_given, (p_geometry _ (vi_pages _ Hv))).
  assert (Eblk : blk e (bmtd w3) (bmt_blk_idx (bmtd w3)) = blk e d (bmt_blk_idx d)).
  { rewrite E3. exact (G3 (bmt_blk_idx d) ltac:(lia)). }
  eapply runs_step; [apply runs_upload_good|].
  - done.
  - rewrite E3. exact G1.
  - rewrite E3. exact Hidx.
  - rewrite E3. change (mapped e (given_out e b n d) (bmt_blk_idx d) <> NORMAL_MAPPED). rewrite G4 by lia.
    by destruct (Z.eqb_spec (bmt_blk_idx d) n); [lia|].
  - rewrite Eblk. lia.
  - by rewrite Eblk.
  - rewrite E3. exact (vi_length _ Hv).
  - intros u w4 [E4 S4]. rewrite Eblk in S4. rewrite E3 in E4. apply runs_ret.
    change (bmtd w4 = remapped b n x d) in E4. rewrite E4.
    destruct (remapped_inv d b n x Hv Hb Hnn Hz Hm) as [Hi Hbb2]. split; [done|]. split.
    + intros c Hc Hne. rewrite Hbb2 by done. destruct (Z.eqb_spec c b); [done|]. split; [done|].
      destruct (Hfree c Hc) as [F1 F2]. by rewrite S4, S3.
    + rewrite Hbb2 by done. rewrite Z.eqb_refl. split; [done|]. rewrite S4 by done. rewrite Hpre3.
      f_equal. f_equal. apply S3. apply (Hfree b Hb).
Qed.

(** The backend keeps what the layer above relies on. *)
#[export] Instance v2_laws : MapLaws N (mtk_bmt_v2_ops e).
Proof.
  refine {| nblocks := lba; inv := v2_inv; place := bb e |}.
  - done.
  - intros d Hv. apply (vi_pages d Hv).
  - intros d b Hv. by apply (vi_range d Hv).
  - intros d b Hv Hb. pose proof (bb_range d _ b (o_room e d (vi_ok d Hv))). split; [split; [lia|by apply (vi_place d Hv)]|lia].
  - intros d b c Hv. rewrite <- (vi_lba d Hv). apply (o_inj e d (vi_ok d Hv)).
  - intros w b Hv Hb. pose proof (vi_ok _ Hv) as Ho. pose proof (o_lba e _ Ho). pose proof (vi_lba _ Hv) as El.
    cbn [get_mapping_block mtk_bmt_v2_ops]. unfold get_mapping_block_index_v2, get_bb, load16, desc, mbind, prog_bind, get_st, mret, prog_ret.
    destruct (Z.leb_spec (pool_lba (bmtd w)) b); [lia|]. destruct (vi_range _ Hv b Hb) as [r ->].
    rewrite get16_in; [done|]. apply (in_bb _ _ b (o_room e _ Ho)). lia.
  - exact remap_v2_law.
Defined.
(** C7. Assumed are good blocks left in the pool, the one of the table among them
    ([v2_inv]; [lost_page] and [lost_table] are what happens otherwise), and a chip whose
    reads return the data, with any number of bits corrected ([chip_read]). Then a write to
    erased pages of the mapped device can be read back: the data is there, no other byte of
    the device has changed, and the tables are well formed, whatever blocks of the data area
    fail to write and however often a read corrects so many bits that the block is replaced.
    If a block fails that cannot be replaced, an error is returned; then the bytes in front
    of it are written and the other blocks are as they were. *)
Theorem v2_write_read k f a dat z w :
  v2_inv (bmtd w) -> 0 <= a -> a + Z.of_nat (length dat) <= z * bsize -> z <= lba -> Z.of_nat (length dat) < 2 ^ 32 ->
  (psize | a mod bsize) -> a mod bsize + Z.of_nat (length dat) <= Z.of_nat k * bsize -> (2 * k + 1 <= f)%nat ->
  (forall x, a <= x < z * bsize -> byte (mtk_bmt_v2_ops e) w x = Some 255) ->
  runs (r ← mtk_bmt_write (mtk_bmt_v2_ops e) f a dat [] 0;
        b ← mtk_bmt_read (mtk_bmt_v2_ops e) f a (Z.of_nat (length dat)) 0 0;
        mret (r.1.1, r.1.2, b.1.1, b.1.2)) w
    (fun r w' => let '(ret, retlen, flips, back) := r in
     v2_inv (bmtd w') /\ 0 <= flips /\
     ((ret = 0 /\ retlen = Z.of_nat (length dat) /\ back = dat /\ updated (mtk_bmt_v2_ops e) a dat w w') \/
      (ret < 0 /\ written (mtk_bmt_v2_ops e) a dat retlen w w'))).
Proof. exact (write_read (mtk_bmt_v2_ops e) k f a dat z w). Qed.
End V2Device.
