(* ===== verification/Nmbm.v ===== *)
(** * Bad blocks of NAND flash: the managed mapping

    Models [target/linux/generic/files/drivers/mtd/nand/mtk_bmt_nmbm.c]: a management area
    behind the data holds a signature, two copies of a table with the states of all blocks
    and the place of each, and the spare blocks that replace those that fail. Functions that
    report through pointers return an option; what is logged is left out. *)

From Stdlib Require Import ZArith Lia.
From stdpp Require Import base list numbers option.
From S2P Require Import Prelude Bmt.

Definition NMBM_MAGIC_SIGNATURE : Z := 0x304d4d4e.
Definition NMBM_MAGIC_INFO_TABLE : Z := 0x314d4d4e.
Definition NMBM_VER : Z := 1.
Definition NMBM_BITMAP_UNIT_SIZE : Z := 4.
Definition NMBM_BITMAP_BITS_PER_BLOCK : Z := 2.
Definition NMBM_BITMAP_BLOCKS_PER_UNIT : Z := 16.
Definition NMBM_SPARE_BLOCK_MULTI : Z := 1.
Definition NMBM_SPARE_BLOCK_DIV : Z := 2.
Definition NMBM_SPARE_BLOCK_MIN : Z := 2.
Definition NMBM_MGMT_DIV : Z := 16.
Definition NMBM_TRY_COUNT : nat := 3.
Definition BLOCK_ST_BAD : Z := 0.
Definition BLOCK_ST_GOOD : Z := 3.
Definition BLOCK_ST_MASK : Z := 3.

Definition EBADMSG : Z := 74.
Definition ENODEV : Z := 19.
Definition EINVAL : Z := 22.

(** The sizes of the structures, with the padding behind [max_try_count]. *)
Definition header_length : Z := 16.
Definition signature_length : Z := 48.
Definition info_table_length : Z := 32.

Definition align (n m : Z) : Z := (n + m - 1) / m * m.

Section Nmbm.
(** The byte order of the host, and the CRC of the kernel. *)
Context {N : Type} `{Nand N} (e : endian) (crc32_le : Z -> list Z -> Z).

(** ** Structures in memory *)

(** The 32-bit number at an offset. *)
Definition word (off : nat) (l : list Z) : Z := load e (slice off 4 l).

Definition header_bytes (h : nmbm_header) : list Z :=
  store e 4 (magic h) ++ store e 4 (version h) ++ store e 4 (header_size h) ++ store e 4 (checksum h).

Definition signature_bytes (s : nmbm_signature) : list Z :=
  header_bytes (sig_header s) ++ store e 8 (nand_size s) ++ store e 4 (block_size s) ++ store e 4 (page_size s) ++
  store e 4 (spare_size s) ++ store e 4 (mgmt_start_pb s) ++ store e 1 (max_try_count s) ++ replicate 7 0.

Definition info_table_bytes (t : nmbm_info_table_header) : list Z :=
  header_bytes (table_header t) ++ store e 4 (write_count t) ++ store e 4 (state_table_off t) ++
  store e 4 (mapping_table_off t) ++ store e 4 (table_padding t).

Definition header_of (l : list Z) : nmbm_header := NmbmHeader (word 0 l) (word 4 l) (word 8 l) (word 12 l).

Definition signature_of (l : list Z) : nmbm_signature :=
  NmbmSignature (header_of l) (load e (slice 16 8 l)) (word 24 l) (word 28 l) (word 32 l) (word 36 l) (load e (slice 40 1 l)).

Definition info_table_of (l : list Z) : nmbm_info_table_header :=
  InfoTableHeader (header_of l) (word 16 l) (word 20 l) (word 24 l) (word 28 l).

(** An array of 32-bit numbers. *)
Definition array_bytes (l : list Z) : list Z := l ≫= store e 4.

Fixpoint words (n : nat) (l : list Z) : list Z :=
  match n with O => [] | S n => word 0 l :: words n (drop 4 l) end.

(** The sizes are 32-bit numbers, for which the loop makes one round. *)
Definition nmbm_crc32 (crcval : Z) (buf : list Z) : Z :=
  match buf with [] => crcval | _ => crc32_le crcval buf end.

Definition nmbm_check_header (data : list Z) (size : Z) : bool :=
  let h := header_of data in
  if size <? header_size h then false
  else
    let new_checksum := nmbm_crc32 0 (header_bytes (NmbmHeader (magic h) (version h) (header_size h) 0)) in
    let new_checksum :=
      if header_length <? header_size h
      then nmbm_crc32 new_checksum (slice 16 (Z.to_nat (header_size h - header_length)) data) else new_checksum in
    checksum h =? new_checksum.

Definition nmbm_update_checksum (data : list Z) : list Z :=
  let data := Prelude.write 12 (store e 4 0) data in
  Prelude.write 12 (store e 4 (nmbm_crc32 0 (take (Z.to_nat (header_size (header_of data))) data))) data.

(** ** The instance *)

Definition instance : prog (bmt_world N) nmbm_instance := d ← desc; defined (ni d).
Definition change_ni (f : nmbm_instance -> nmbm_instance) : prog (bmt_world N) unit :=
  i ← instance; change_desc (set_ni (Some (f i))).

Definition set_page (f : list Z -> list Z) : prog (bmt_world N) unit :=
  change_desc (fun d => set_data (f (data_buf d)) d).

Definition ba2addr (d : bmt_desc) (ba : Z) : Z := u64 (Z.shiftl ba (blk_shift d)).
Definition size2blk (d : bmt_desc) (size : Z) : Z := u32 (Z.shiftr (u64 (size + blk_size d - 1)) (blk_shift d)).

(** The pages of a block. *)
Definition block_pages (d : bmt_desc) : nat := Z.to_nat ((blk_size d + pg_size d - 1) / pg_size d).

(** ** The chip *)

(** [data] is what the destination holds. *)
Fixpoint read_tries (k : nat) (addr : Z) (data : list Z) (ret : Z) : prog (bmt_world N) (Z * list Z) :=
  match k with
  | O => mret (ret, data)
  | S k =>
      d ← desc;
      '(ret, dat, _) ← call (_read_oob addr (pg_size d) 0 0);
      let data := Prelude.write 0 dat data in
      if ret =? - EUCLEAN then mret (s32 (Z.min (u32 (bitflip_threshold d + 1)) (ecc_strength d)), data)
      else if 0 <=? ret then mret (0, data)
      else read_tries k addr data ret
  end.

(** No caller asks for the spare area. *)
Definition nmbm_read_phys_page (addr : Z) (data : list Z) : prog (bmt_world N) (Z * list Z) :=
  read_tries NMBM_TRY_COUNT addr data 0.

(** Reading to [page_cache]. *)
Definition read_cached (addr : Z) : prog (bmt_world N) Z :=
  d ← desc;
  '(ret, data) ← nmbm_read_phys_page addr (data_buf d);
  set_page (fun _ => data);;
  mret ret.

Fixpoint write_tries (k : nat) (addr : Z) (data : list Z) : prog (bmt_world N) bool :=
  match k with
  | O => mret false
  | S k =>
      '(ret, _, _) ← call (_write_oob addr data [] 0);
      if ret =? 0 then mret true else write_tries k addr data
  end.

(** The page in [page_cache]. *)
Definition nmbm_write_phys_page (addr : Z) : prog (bmt_world N) bool :=
  d ← desc; write_tries NMBM_TRY_COUNT addr (take (Z.to_nat (pg_size d)) (data_buf d)).

Fixpoint erase_tries (k : nat) (addr : Z) : prog (bmt_world N) bool :=
  match k with
  | O => mret false
  | S k =>
      d ← desc;
      ret ← call (_erase addr (erasesize d));
      if ret =? 0 then mret true else erase_tries k addr
  end.

Definition nmbm_erase_phys_block (addr : Z) : prog (bmt_world N) bool := erase_tries NMBM_TRY_COUNT addr.

Definition nmbm_check_bad_phys_block (ba : Z) : prog (bmt_world N) bool :=
  d ← desc; ret ← call (_block_isbad (ba2addr d ba)); mret (negb (ret =? 0)).

Definition nmbm_mark_phys_bad_block (ba : Z) : prog (bmt_world N) Z :=
  d ← desc; call (_block_markbad (ba2addr d ba)).

(** ** The states of blocks *)

Definition nmbm_get_spare_block_count (block_count : Z) : Z :=
  let val := u32 (block_count + NMBM_SPARE_BLOCK_DIV / 2) / NMBM_SPARE_BLOCK_DIV * NMBM_SPARE_BLOCK_MULTI in
  if val <? NMBM_SPARE_BLOCK_MIN then NMBM_SPARE_BLOCK_MIN else val.

Definition state_unit (ba : Z) : nat := Z.to_nat (ba / NMBM_BITMAP_BLOCKS_PER_UNIT).
Definition state_shift (ba : Z) : Z := ba mod NMBM_BITMAP_BLOCKS_PER_UNIT * NMBM_BITMAP_BITS_PER_BLOCK.

Definition state_in (ba uv : Z) : Z := Z.land (Z.shiftr uv (state_shift ba)) BLOCK_ST_MASK.

(** [None] behind the end of the table. *)
Definition nmbm_get_block_state_raw (l : list Z) (ba : Z) : option Z := state_in ba <$> l !! state_unit ba.

Definition nmbm_get_block_state (ba : Z) : prog (bmt_world N) Z :=
  i ← instance; defined (nmbm_get_block_state_raw (block_state i) ba).

Definition put_block_state (ba state uv : Z) : Z :=
  Z.lor (Z.land uv (not_w 32 (Z.shiftl BLOCK_ST_MASK (state_shift ba)))) (u32 (Z.shiftl state (state_shift ba))).

Definition nmbm_set_block_state (ba state : Z) : prog (bmt_world N) bool :=
  i ← instance;
  uv ← defined (block_state i !! state_unit ba);
  let orig := state_in ba uv in
  let state := Z.land state BLOCK_ST_MASK in
  let l := <[state_unit ba := put_block_state ba state uv]> (block_state i) in
  if negb (orig =? state) then
    change_ni (set_state l (u32 (block_state_changed i + 1)));; mret true
  else
    change_ni (set_state l (block_state_changed i));; mret false.

(** The walks: from [ba] on, or back, [nblock] more good blocks are skipped. *)
Fixpoint walk_asc (n : nat) (ba nblock : Z) : prog (bmt_world N) (option Z) :=
  match n with
  | O => mret None
  | S n =>
      st ← nmbm_get_block_state ba;
      let nblock := if st =? BLOCK_ST_GOOD then nblock - 1 else nblock in
      if nblock <? 0 then mret (Some ba) else walk_asc n (ba + 1) nblock
  end.

Fixpoint walk_desc (n : nat) (ba nblock : Z) : prog (bmt_world N) (option Z) :=
  match n with
  | O => mret None
  | S n =>
      st ← nmbm_get_block_state ba;
      let nblock := if st =? BLOCK_ST_GOOD then nblock - 1 else nblock in
      if nblock <? 0 then mret (Some ba) else walk_desc n (ba - 1) nblock
  end.

(** The limit is a block of the chip. *)
Definition clip (i : nmbm_instance) (limit : Z) : Z :=
  if block_count (config i) <=? limit then u32 (block_count (config i) - 1) else limit.

Definition nmbm_block_walk_asc (ba count limit : Z) : prog (bmt_world N) (option Z) :=
  i ← instance; walk_asc (Z.to_nat (clip i limit - ba)) ba (s32 count).

Definition nmbm_block_walk_desc (ba count limit : Z) : prog (bmt_world N) (option Z) :=
  i ← instance; walk_desc (Z.to_nat (ba - clip i limit)) ba (s32 count).

Definition nmbm_block_walk (ascending : bool) (ba count limit : Z) : prog (bmt_world N) (option Z) :=
  if ascending then nmbm_block_walk_asc ba (u32 count) (u32 limit) else nmbm_block_walk_desc ba (u32 count) (u32 limit).

(** ** Scanning and mapping *)

Fixpoint scan_blocks (n : nat) (ba : Z) : prog (bmt_world N) unit :=
  match n with
  | O => mret tt
  | S n =>
      bad ← nmbm_check_bad_phys_block ba;
      (if bad : bool then nmbm_set_block_state ba BLOCK_ST_BAD else mret false);;
      scan_blocks n (ba + 1)
  end.

Definition nmbm_scan_badblocks : prog (bmt_world N) unit :=
  i ← instance; scan_blocks (Z.to_nat (block_count (config i))) 0.

(** Writing behind the end of the table is undefined. *)
Definition put_mapping (lb pb : Z) : prog (bmt_world N) unit :=
  i ← instance;
  if (0 <=? lb) && (lb <? Z.of_nat (length (block_mapping i)))
  then change_ni (set_mapping (<[Z.to_nat lb := pb]> (block_mapping i)) (block_mapping_changed i))
  else undef.

Definition mapping_at (lb : Z) : prog (bmt_world N) Z :=
  i ← instance; if 0 <=? lb then defined (block_mapping i !! Z.to_nat lb) else undef.

(** The number of blocks that are mapped. *)
Fixpoint map_good (n : nat) (pb lb : Z) : prog (bmt_world N) Z :=
  match n with
  | O => mret lb
  | S n =>
      st ← nmbm_get_block_state pb;
      if st =? BLOCK_ST_BAD then map_good n (pb + 1) lb
      else put_mapping lb pb;; map_good n (pb + 1) (lb + 1)
  end.

Fixpoint unmap_rest (n : nat) (pb : Z) : prog (bmt_world N) unit :=
  match n with O => mret tt | S n => put_mapping pb (-1);; unmap_rest n (pb + 1) end.

Definition nmbm_build_mapping_table : prog (bmt_world N) unit :=
  i ← instance;
  lb ← map_good (Z.to_nat (mgmt_start_ba i)) 0 0;
  change_ni (set_data_blocks lb);;
  unmap_rest (Z.to_nat (block_count (config i) - lb)) lb.

(** ** Writing to the management area *)

(** Every page is read; one that cannot be corrected makes the block unusable. *)
Fixpoint check_pages (n : nat) (addr : Z) : prog (bmt_world N) bool :=
  match n with
  | O => mret true
  | S n =>
      d ← desc;
      ret ← read_cached addr;
      if ret =? - EBADMSG then mret false else check_pages n (addr + pg_size d)
  end.

Definition nmbm_erase_block_and_check (ba : Z) : prog (bmt_world N) bool :=
  d ← desc;
  i ← instance;
  success ← nmbm_erase_phys_block (ba2addr d ba);
  if negb success then mret false
  else if negb (empty_page_ecc_ok (config i)) then mret true
  else check_pages (block_pages d) (ba2addr d ba).

(** A good block that is not marked: one that is marked becomes bad. *)
Definition usable (ba : Z) : prog (bmt_world N) bool :=
  st ← nmbm_get_block_state ba;
  if negb (st =? BLOCK_ST_GOOD) then mret false
  else
    bad ← nmbm_check_bad_phys_block ba;
    if bad : bool then nmbm_set_block_state ba BLOCK_ST_BAD;; mret false else mret true.

Definition spoil (ba : Z) : prog (bmt_world N) unit :=
  nmbm_mark_phys_bad_block ba;; nmbm_set_block_state ba BLOCK_ST_BAD;; mret tt.

Fixpoint erase_range (n : nat) (ba : Z) : prog (bmt_world N) unit :=
  match n with
  | O => mret tt
  | S n =>
      ok ← usable ba;
      (if ok : bool then
         success ← nmbm_erase_block_and_check ba;
         if success : bool then mret tt else spoil ba
       else mret tt);;
      erase_range n (ba + 1)
  end.

Definition nmbm_erase_range (ba limit : Z) : prog (bmt_world N) unit := erase_range (Z.to_nat (limit - ba)) ba.

Fixpoint write_pages (n : nat) (addr : Z) (data : list Z) : prog (bmt_world N) bool :=
  match n with
  | O => mret true
  | S n =>
      d ← desc;
      i ← instance;
      set_page (Prelude.write 0 (data ++ replicate (Z.to_nat (rawpage_size (config i)) - length data) 255));;
      success ← nmbm_write_phys_page addr;
      if negb success then mret false
      else
        ret ← read_cached addr;
        if ret <? 0 then mret false
        else
          d ← desc;
          if bool_decide (take (length data) (data_buf d) = data) then write_pages n (addr + pg_size d) data else mret false
  end.

(** To every page of the block. *)
Definition nmbm_write_repeated_data (ba : Z) (data : list Z) : prog (bmt_world N) bool :=
  d ← desc;
  if pg_size d <? Z.of_nat (length data) then mret false
  else write_pages (block_pages d) (ba2addr d ba) data.

Fixpoint write_signature_from (n : nat) (ba : Z) (data : list Z) : prog (bmt_world N) (option Z) :=
  match n with
  | O => mret None
  | S n =>
      ok ← usable ba;
      if negb ok then write_signature_from n (ba - 1) data
      else
        success ← nmbm_erase_block_and_check ba;
        success ← (if success : bool then nmbm_write_repeated_data ba data else mret false);
        if success : bool then mret (Some ba)
        else spoil ba;; write_signature_from n (ba - 1) data
  end.

Definition nmbm_write_signature (limit : Z) (s : nmbm_signature) : prog (bmt_world N) (option Z) :=
  i ← instance;
  let ba := u32 (block_count (config i) - 1) in
  write_signature_from (Z.to_nat (ba - limit)) ba (signature_bytes s).

(** How much of the page, or of what is left, is in one chunk. *)
Definition chunk_of (d : bmt_desc) (off sizeremain : Z) : Z :=
  Z.min (pg_size d - Z.land off (u32 (pg_size d - 1))) sizeremain.

(** [done] is in front of [ptr] and [rest] behind it; a chunk has a byte or more. *)
Fixpoint read_chunks (n : nat) (off sizeremain : Z) (done rest : list Z) : prog (bmt_world N) (Z * list Z) :=
  if sizeremain =? 0 then mret (0, done ++ rest)
  else
    match n with
    | O => undef
    | S n =>
        d ← desc;
        let leading := Z.land off (u32 (pg_size d - 1)) in
        let chunksize := chunk_of d off sizeremain in
        '(ret, rest) ←
          (if chunksize =? pg_size d then nmbm_read_phys_page (off - leading) rest
           else
             ret ← read_cached (off - leading);
             d ← desc;
             mret (ret, if ret <? 0 then rest
                        else Prelude.write 0 (slice (Z.to_nat leading) (Z.to_nat chunksize) (data_buf d)) rest));
        if ret <? 0 then mret (ret, done ++ rest)
        else
          read_chunks n (off + chunksize) (sizeremain - chunksize) (done ++ take (Z.to_nat chunksize) rest)
            (drop (Z.to_nat chunksize) rest)
    end.

Definition nmbn_read_data (addr size : Z) (data : list Z) : prog (bmt_world N) (Z * list Z) :=
  d ← desc; read_chunks (Z.to_nat (size / pg_size d) + 2) addr size [] data.

Fixpoint write_chunks (n : nat) (off : Z) (ptr : list Z) : prog (bmt_world N) bool :=
  match ptr with
  | [] => mret true
  | _ =>
      match n with
      | O => undef
      | S n =>
          d ← desc;
          i ← instance;
          let leading := Z.land off (u32 (pg_size d - 1)) in
          let chunk := take (Z.to_nat (chunk_of d off (Z.of_nat (length ptr)))) ptr in
          set_page (Prelude.write 0 (replicate (Z.to_nat (rawpage_size (config i))) 255));;
          set_page (Prelude.write (Z.to_nat leading) chunk);;
          success ← nmbm_write_phys_page (off - leading);
          if negb success then mret false
          else
            ret ← read_cached (off - leading);
            if ret <? 0 then mret false
            else
              d ← desc;
              if bool_decide (slice (Z.to_nat leading) (length chunk) (data_buf d) = chunk)
              then write_chunks n (off + Z.of_nat (length chunk)) (drop (length chunk) ptr) else mret false
      end
  end.

Definition nmbn_write_verify_data (addr : Z) (data : list Z) : prog (bmt_world N) bool :=
  d ← desc; write_chunks (Z.to_nat (Z.of_nat (length data) / pg_size d) + 2) addr data.

Definition write_block (ba : Z) (chunk : list Z) : prog (bmt_world N) bool :=
  d ← desc;
  success ← nmbm_erase_block_and_check ba;
  if success : bool then nmbn_write_verify_data (ba2addr d ba) chunk else mret false.

(** [start] is the block with the first chunk. *)
Fixpoint write_mgmt (n : nat) (ba : Z) (ptr : list Z) (start : option Z) : prog (bmt_world N) (option (Z * Z)) :=
  match ptr, n with
  | [], _ => start ← defined start; mret (Some (start, ba))
  | _, O => mret None
  | _, S n =>
      d ← desc;
      let chunk := take (Z.to_nat (blk_size d)) ptr in
      ok ← usable ba;
      if negb ok then write_mgmt n (ba + 1) ptr start
      else
        success ← write_block ba chunk;
        if success : bool then
          write_mgmt n (ba + 1) (drop (length chunk) ptr) (match start with None => Some ba | _ => start end)
        else spoil ba;; write_mgmt n (ba + 1) ptr start
  end.

(** The first block of the data and the one behind it. *)
Definition nmbm_write_mgmt_range (ba limit : Z) (data : list Z) : prog (bmt_world N) (option (Z * Z)) :=
  write_mgmt (Z.to_nat (limit - ba)) ba data None.

(** ** The table on the flash *)

(** A copy into the cache; outside of it is undefined. *)
Definition put_cached (off : Z) (bs : list Z) : prog (bmt_world N) unit :=
  i ← instance;
  if Z.of_nat (length bs) + off <=? Z.of_nat (length (info_table_cache i))
  then change_ni (set_cache (Prelude.write (Z.to_nat off) bs (info_table_cache i))) else undef.

Definition nmbm_generate_info_table_cache : prog (bmt_world N) bool :=
  i ← instance;
  let t := info_table i in
  change_ni (set_cache (replicate (Z.to_nat (info_table_size (config i))) 255));;
  put_cached (state_table_off t) (take (Z.to_nat (state_table_size (config i))) (array_bytes (block_state i)));;
  put_cached (mapping_table_off t) (take (Z.to_nat (mapping_table_size (config i))) (array_bytes (block_mapping i)));;
  let changed := negb (block_state_changed i =? 0) || negb (block_mapping_changed i =? 0) in
  let h := NmbmHeader NMBM_MAGIC_INFO_TABLE NMBM_VER (info_table_size (config i)) (checksum (table_header t)) in
  let t := InfoTableHeader h (if changed then u32 (write_count t + 1) else write_count t)
             (state_table_off t) (mapping_table_off t) (table_padding t) in
  change_ni (set_info_table t);;
  put_cached 0 (info_table_bytes t);;
  change_ni (fun i => set_cache (nmbm_update_checksum (info_table_cache i)) i);;
  mret changed.

Definition nmbm_write_info_table (ba limit : Z) : prog (bmt_world N) (option (Z * Z)) :=
  i ← instance; nmbm_write_mgmt_range ba limit (take (Z.to_nat (info_table_size (config i))) (info_table_cache i)).

Definition nmbm_mark_tables_clean : prog (bmt_world N) unit :=
  change_ni (fun i => set_mapping (block_mapping i) 0 (set_state (block_state i) 0 i)).

(** Fewer and fewer blocks, down to [min_count]. *)
Fixpoint reserve (n : nat) (ba nblocks limit : Z) : prog (bmt_world N) (option Z) :=
  match n with
  | O => mret None
  | S n =>
      nba ← nmbm_block_walk true ba nblocks limit;
      match nba with Some nba => mret (Some nba) | None => reserve n ba (nblocks - 1) limit end
  end.

Definition nmbm_try_reserve_blocks (ba count min_count limit : Z) : prog (bmt_world N) (option Z) :=
  reserve (Z.to_nat (s32 count - min_count + 1)) ba (s32 count) limit.

(** The limit that leaves room for a table. *)
Definition table_limit (d : bmt_desc) (i : nmbm_instance) : Z :=
  s32 (mapping_blocks_top_ba i - size2blk d (info_table_size (config i))).

(** The reserve behind a table that ends at [ba]. *)
Definition reserve_from (ba : Z) : prog (bmt_world N) (option Z) :=
  d ← desc; i ← instance; nmbm_try_reserve_blocks ba (info_table_spare_blocks (config i)) 0 (table_limit d i).

(** From [write_ba] back to [floor], until the table is written. *)
Fixpoint write_back_to (n : nat) (write_ba : Z) : prog (bmt_world N) (option (Z * Z)) :=
  match n with
  | O => mret None
  | S n =>
      i ← instance;
      r ← nmbm_write_info_table write_ba (mapping_blocks_top_ba i);
      match r with Some r => mret (Some r) | None => write_back_to n (write_ba - 1) end
  end.

Definition write_spare (write_ba floor : Z) : prog (bmt_world N) (option (Z * Z)) :=
  write_back_to (Z.to_nat (write_ba - floor + 1)) write_ba.

Definition nmbm_rebuild_info_table : prog (bmt_world N) bool :=
  change_ni (set_main_table 0);;
  change_ni (set_backup_table 0);;
  change_ni (fun i => set_mapping_blocks (mapping_blocks_top_ba i) i);;
  i ← instance;
  r ← nmbm_write_info_table (mgmt_start_ba i) (mapping_blocks_top_ba i);
  match r with
  | None => change_ni set_protected;; mret false
  | Some (table_start_ba, table_end_ba) =>
      change_ni (set_main_table table_start_ba);;
      change_ni (set_mapping_blocks table_end_ba);;
      nmbm_mark_tables_clean;;
      next ← reserve_from table_end_ba;
      match next with
      | None => mret true
      | Some next_start_ba =>
          i ← instance;
          r ← nmbm_write_info_table next_start_ba (mapping_blocks_top_ba i);
          match r with
          | None => mret true
          | Some (start2, end2) =>
              change_ni (set_backup_table start2);;
              change_ni (set_mapping_blocks end2);;
              nmbm_erase_range table_end_ba start2;;
              mret true
          end
      end
  end.

Definition nmbm_rescue_single_info_table : prog (bmt_world N) bool :=
  i ← instance;
  r ← nmbm_write_info_table (mgmt_start_ba i) (main_table_ba i);
  match r with
  | Some (table_start_ba, table_end_ba) =>
      change_ni (fun i => set_backup_table (main_table_ba i) i);;
      change_ni (set_main_table table_start_ba);;
      nmbm_mark_tables_clean;;
      i ← instance;
      nmbm_erase_range table_end_ba (backup_table_ba i);;
      mret true
  | None =>
      i ← instance;
      o ← reserve_from (mapping_blocks_ba i);
      match o with
      | None => mret false
      | Some write_ba =>
          r ← write_spare write_ba (mapping_blocks_ba i);
          match r with
          | None => mret false
          | Some (table_start_ba, table_end_ba) =>
              nmbm_erase_range (mapping_blocks_ba i) table_start_ba;;
              change_ni (set_backup_table table_start_ba);;
              change_ni (set_mapping_blocks table_end_ba);;
              nmbm_mark_tables_clean;;
              mret true
          end
      end
  end.

Definition nmbm_update_single_info_table (update_main_table : bool) : prog (bmt_world N) bool :=
  i ← instance;
  r ← (if update_main_table then nmbm_write_info_table (main_table_ba i) (backup_table_ba i)
       else nmbm_write_info_table (backup_table_ba i) (mapping_blocks_top_ba i));
  match r with
  | Some (table_start_ba, table_end_ba) =>
      (if update_main_table then change_ni (set_main_table table_start_ba)
       else change_ni (set_backup_table table_start_ba);; change_ni (set_mapping_blocks table_end_ba));;
      nmbm_mark_tables_clean;;
      mret true
  | None =>
      if update_main_table then
        change_ni (fun i => set_main_table (backup_table_ba i) i);;
        change_ni (set_backup_table 0);;
        nmbm_rescue_single_info_table
      else
        change_ni (fun i => set_mapping_blocks (backup_table_ba i) i);;
        change_ni (set_backup_table 0);;
        mret false
  end.

(** The backup table becomes the main table. *)
Definition use_backup : prog (bmt_world N) bool :=
  change_ni (fun i => set_main_table (backup_table_ba i) i);; change_ni (set_backup_table 0);; mret true.

(** The last part: a new backup table behind the main table that ends at [main_end]. *)
Definition write_new_backup (main_end : Z) : prog (bmt_world N) bool :=
  change_ni (set_mapping_blocks main_end);;
  o ← reserve_from main_end;
  match o with
  | None => change_ni (set_backup_table 0);; mret true
  | Some write_ba =>
      r ← write_spare write_ba main_end;
      match r with
      | None => change_ni (set_backup_table 0);; mret true
      | Some (start_ba, end_ba) =>
          change_ni (set_backup_table start_ba);;
          change_ni (set_mapping_blocks end_ba);;
          nmbm_erase_range main_end start_ba;;
          mret true
      end
  end.

Definition nmbm_rescue_main_info_table : prog (bmt_world N) bool :=
  i ← instance;
  o ← reserve_from (mapping_blocks_ba i);
  match o with
  | None => use_backup
  | Some write_ba =>
      r ← write_spare write_ba (mapping_blocks_ba i);
      match r with
      | None => use_backup
      | Some (tmp_start, tmp_end) =>
          change_ni (set_mapping_blocks tmp_end);;
          i ← instance;
          r ← nmbm_write_info_table (mgmt_start_ba i) tmp_start;
          match r with
          | None =>
              change_ni (set_main_table tmp_start);;
              change_ni (set_backup_table 0);;
              nmbm_mark_tables_clean;;
              mret true
          | Some (main_start, main_end) =>
              change_ni (set_main_table main_start);;
              nmbm_mark_tables_clean;;
              if main_end <=? tmp_start then change_ni (set_backup_table tmp_start);; mret true
              else write_new_backup main_end
          end
      end
  end.

(** The main table, up to [main_table_limit]. *)
Definition write_main_table (main_table_limit : Z) : prog (bmt_world N) bool :=
  i ← instance;
  if main_table_ba i =? 0 then nmbm_rebuild_info_table
  else
    r ← nmbm_write_info_table (main_table_ba i) main_table_limit;
    i ← instance;
    match r with
    | None => if backup_table_ba i =? 0 then nmbm_rebuild_info_table else nmbm_rescue_main_info_table
    | Some (table_start_ba, table_end_ba) =>
        change_ni (set_main_table table_start_ba);;
        (if backup_table_ba i =? 0 then change_ni (set_mapping_blocks table_end_ba) else mret tt);;
        nmbm_mark_tables_clean;;
        mret true
    end.

Definition nmbm_update_info_table_once (force : bool) : prog (bmt_world N) bool :=
  changed ← nmbm_generate_info_table_cache;
  if negb changed && negb force then mret true
  else
    i ← instance;
    if backup_table_ba i =? 0 then write_main_table (mapping_blocks_top_ba i)
    else
      r ← nmbm_write_info_table (backup_table_ba i) (mapping_blocks_top_ba i);
      match r with
      | None =>
          change_ni (fun i => set_mapping_blocks (backup_table_ba i) i);;
          change_ni (set_backup_table 0);;
          write_main_table (mapping_blocks_top_ba i)
      | Some (table_start_ba, table_end_ba) =>
          change_ni (set_backup_table table_start_ba);;
          change_ni (set_mapping_blocks table_end_ba);;
          nmbm_mark_tables_clean;;
          write_main_table table_start_ba
      end.

Fixpoint update_loop (n : nat) : prog (bmt_world N) bool :=
  i ← instance;
  if (block_state_changed i =? 0) && (block_mapping_changed i =? 0) then mret true
  else
    match n with
    | O => undef
    | S n =>
        success ← nmbm_update_info_table_once false;
        if success : bool then update_loop n else mret false
    end.

(** One round, and one more for each good block that can fail. *)
Definition nmbm_update_info_table : prog (bmt_world N) bool :=
  i ← instance;
  if protected i then mret true else update_loop (Z.to_nat (block_count (config i)) + 1).

(** ** Mapping spare blocks *)

Definition nmbm_map_block (lb : Z) : prog (bmt_world N) bool :=
  i ← instance;
  if mapping_blocks_ba i =? mapping_blocks_top_ba i then mret false
  else
    o ← nmbm_block_walk false (mapping_blocks_top_ba i) 0 (s32 (mapping_blocks_ba i));
    match o with
    | None =>
        nmbm_update_info_table;;
        change_ni (fun i => set_mapping_top (mapping_blocks_ba i) i);;
        mret false
    | Some pb =>
        put_mapping lb pb;;
        change_ni (fun i => set_mapping_top (u32 (mapping_blocks_top_ba i - 1)) i);;
        change_ni (fun i => set_mapping (block_mapping i) (u32 (block_mapping_changed i + 1)) i);;
        mret true
    end.

(** ** Creation *)

Fixpoint map_rest (n : nat) (lb : Z) : prog (bmt_world N) unit :=
  match n with
  | O => mret tt
  | S n =>
      success ← nmbm_map_block lb;
      if success : bool then
        change_ni (fun i => set_data_blocks (u32 (data_block_count i + 1)) i);; map_rest n (lb + 1)
      else mret tt
  end.

Definition nmbm_create_info_table : prog (bmt_world N) bool :=
  i ← instance;
  o ← nmbm_block_walk false (signature_ba i) 1 (s32 (mgmt_start_ba i));
  match o with
  | None => mret false
  | Some top =>
      change_ni (set_mapping_top top);;
      nmbm_generate_info_table_cache;;
      success ← nmbm_rebuild_info_table;
      if negb success then mret false
      else
        i ← instance;
        map_rest (Z.to_nat (mgmt_start_ba i - data_block_count i)) (data_block_count i);;
        nmbm_update_info_table
  end.

Definition nmbm_create_new : prog (bmt_world N) bool :=
  d ← desc;
  i ← instance;
  let c := config i in
  let start := u32 (block_count c * (NMBM_MGMT_DIV - max_ratio c)) / NMBM_MGMT_DIV in
  let start :=
    if negb (max_reserved_blocks c =? 0) && (max_reserved_blocks c <? u32 (block_count c - start))
    then u32 (block_count c - max_reserved_blocks c) else start in
  change_ni (set_mgmt_start start);;
  nmbm_scan_badblocks;;
  nmbm_build_mapping_table;;
  let s := NmbmSignature (NmbmHeader NMBM_MAGIC_SIGNATURE NMBM_VER signature_length (checksum (sig_header (signature i))))
    (u64 (s32 (Z.shiftl (total_blks d) (blk_shift d)))) (blk_size d) (pg_size d) (oobsize d) start (Z.of_nat NMBM_TRY_COUNT) in
  let s := signature_of (nmbm_update_checksum (signature_bytes s)) in
  change_ni (fun i => set_signature s (signature_ba i) i);;
  o ← nmbm_write_signature start s;
  match o with
  | None => mret false
  | Some ba => change_ni (set_signature s ba);; nmbm_create_info_table
  end.

(** ** Loading *)

Definition nmbm_check_info_table_header (i : nmbm_instance) (data : list Z) : bool :=
  let t := info_table_of data in
  (magic (table_header t) =? NMBM_MAGIC_INFO_TABLE) &&
  (header_size (table_header t) =? info_table_size (config i)) &&
  (state_table_size (config i) <=? u32 (mapping_table_off t - state_table_off t)) &&
  (mapping_table_size (config i) <=? u32 (info_table_size (config i) - mapping_table_off t)).

(** [int32_t] numbers compared with [uint32_t] ones. *)
Fixpoint check_mapping (i : nmbm_instance) (end_ba : Z) (mapping : list Z) (minimum : Z) : option Z :=
  match mapping with
  | [] => Some minimum
  | pb :: mapping =>
      if ((data_block_count i <=? pb) && (pb <? end_ba)) || (pb =? signature_ba i) then None
      else check_mapping i end_ba mapping (if (end_ba <=? pb) && (pb <? minimum) then pb else minimum)
  end.

Fixpoint check_states (n : nat) (ba : Z) (block_state : list Z) : prog (bmt_world N) bool :=
  match n with
  | O => mret true
  | S n =>
      st ← nmbm_get_block_state ba;
      if negb (st =? BLOCK_ST_GOOD) then check_states n (ba + 1) block_state
      else
        raw ← defined (nmbm_get_block_state_raw block_state ba);
        if negb (raw =? BLOCK_ST_GOOD) then mret false else check_states n (ba + 1) block_state
  end.

(** [size] bytes of the table from an offset. *)
Definition table_part (data : list Z) (off size : Z) : prog (bmt_world N) (list Z) :=
  if off + size <=? Z.of_nat (length data) then mret (slice (Z.to_nat off) (Z.to_nat size) data) else undef.

Definition states_of (t : nmbm_info_table_header) (data : list Z) : prog (bmt_world N) (list Z) :=
  i ← instance;
  l ← table_part data (state_table_off t) (state_table_size (config i));
  mret (words (Z.to_nat (state_table_size (config i) / 4)) l).

Definition mapping_of (t : nmbm_info_table_header) (data : list Z) : prog (bmt_world N) (list Z) :=
  i ← instance;
  l ← table_part data (mapping_table_off t) (mapping_table_size (config i));
  mret (words (Z.to_nat (mapping_table_size (config i) / 4)) l).

(** The block of the topmost spare block. *)
Definition nmbm_check_info_table (start_ba end_ba : Z) (data : list Z) : prog (bmt_world N) (option Z) :=
  i ← instance;
  let t := info_table_of data in
  mapping ← mapping_of t data;
  states ← states_of t data;
  if Z.of_nat (length mapping) <? data_block_count i then undef
  else
    match check_mapping i end_ba (take (Z.to_nat (data_block_count i)) mapping) (signature_ba i) with
    | None => mret None
    | Some minimum_mapping_pb =>
        ok ← check_states (Z.to_nat (end_ba - start_ba)) start_ba states;
        mret (if ok : bool then Some (u32 (minimum_mapping_pb - 1)) else None)
    end.

(** The blocks of a table: where it starts and ends, if all of it could be read; [off] bytes
    are in the cache. *)
Fixpoint load_blocks (n : nat) (ba : Z) (off : nat) (start : option Z) : prog (bmt_world N) (option (Z * Z)) :=
  i ← instance;
  let sizeremain := info_table_size (config i) - Z.of_nat off in
  if sizeremain =? 0 then start ← defined start; mret (Some (start, ba))
  else
    match n with
    | O => mret None
    | S n =>
        d ← desc;
        ok ← usable ba;
        if negb ok then load_blocks n (ba + 1) off start
        else
          let chunksize := Z.min sizeremain (blk_size d) in
          i ← instance;
          '(ret, rest) ← nmbn_read_data (ba2addr d ba) chunksize (drop off (info_table_cache i));
          change_ni (set_cache (Prelude.write off rest (info_table_cache i)));;
          if ret <? 0 then nmbm_set_block_state ba BLOCK_ST_BAD;; load_blocks n (ba + 1) off start
          else if 0 <? ret then mret None
          else
            match start with
            | None =>
                if negb (nmbm_check_info_table_header i rest) then mret None
                else load_blocks n (ba + 1) (off + Z.to_nat chunksize) (Some ba)
            | Some _ => load_blocks n (ba + 1) (off + Z.to_nat chunksize) start
            end
    end.

(** The end of the table, its write count and the topmost spare block. *)
Definition nmbm_try_load_info_table (ba : Z) (table_loaded : bool) : prog (bmt_world N) (option (Z * Z * Z)) :=
  d ← desc;
  i ← instance;
  r ← load_blocks (Z.to_nat (size2blk d (info_table_size (config i)))) ba 0 None;
  match r with
  | None => mret None
  | Some (start_ba, eba) =>
      i ← instance;
      let data := info_table_cache i in
      if negb (nmbm_check_header data (info_table_size (config i))) then mret None
      else
        let t := info_table_of data in
        o ← nmbm_check_info_table start_ba eba data;
        match o with
        | None => mret None
        | Some top =>
            (if negb table_loaded || (write_count (info_table i) <? write_count t) then
               states ← states_of t data;
               mapping ← mapping_of t data;
               change_ni (fun i => set_info_table t (set_state states (block_state_changed i)
                 (set_mapping (s32 <$> mapping) (block_mapping_changed i) i)))
             else mret tt);;
            mret (Some (eba, write_count t, top))
        end
  end.

(** The first block of a table, its end, write count and topmost spare block. *)
Fixpoint search_from (n : nat) (ba : Z) (table_loaded : bool) : prog (bmt_world N) (option (Z * Z * Z * Z)) :=
  match n with
  | O => mret None
  | S n =>
      r ← nmbm_try_load_info_table ba table_loaded;
      match r with
      | Some (eba, count, top) => mret (Some (ba, eba, count, top))
      | None => search_from n (ba + 1) table_loaded
      end
  end.

Definition nmbm_search_info_table (ba limit : Z) (table_loaded : bool) : prog (bmt_world N) (option (Z * Z * Z * Z)) :=
  d ← desc;
  i ← instance;
  search_from (Z.to_nat (u32 (limit - size2blk d (info_table_size (config i))) - ba)) ba table_loaded.

(** The number of logical blocks, without those at the end that are not mapped. *)
Fixpoint mapped_blocks (n : nat) (default : Z) : prog (bmt_world N) Z :=
  match n with
  | O => mret default
  | S n => pb ← mapping_at (Z.of_nat n); if 0 <=? pb then mret (Z.of_nat (S n)) else mapped_blocks n default
  end.

(** The tables that were found are brought up to date. *)
Definition complete_tables (main_count backup_count : Z) : prog (bmt_world N) bool :=
  i ← instance;
  if backup_table_ba i =? 0 then nmbm_rescue_single_info_table
  else if negb (main_count =? backup_count) then
    change_ni (fun i => set_mapping (block_mapping i) 1 (set_state (block_state i) 1 i));;
    nmbm_update_single_info_table (main_count <? backup_count)
  else mret true.

Definition nmbm_load_info_table (ba limit : Z) : prog (bmt_world N) bool :=
  change_ni (fun i =>
    let t := info_table i in
    set_data_blocks (mgmt_start_pb (signature i)) (set_mapping_top (u32 (signature_ba i - 1))
      (set_info_table (InfoTableHeader (table_header t) 0 (state_table_off t) (mapping_table_off t) (table_padding t))
        (set_backup_table 0 (set_main_table 0 i)))));;
  r ← nmbm_search_info_table ba limit false;
  match r with
  | None => mret false
  | Some (main, main_end, main_count, main_top) =>
      change_ni (set_main_table main);;
      r ← nmbm_search_info_table main_end limit true;
      let '(table_end, backup_count, top) :=
        match r with
        | None => (main_end, 0, main_top)
        | Some (backup, backup_end, count, top) => (backup_end, count, if count <=? main_count then main_top else top)
        end in
      match r with Some (backup, _, _, _) => change_ni (set_backup_table backup) | None => mret tt end;;
      change_ni (set_mapping_top top);;
      change_ni (set_mapping_blocks table_end);;
      i ← instance;
      n ← mapped_blocks (Z.to_nat (mgmt_start_pb (signature i))) (data_block_count i);
      change_ni (set_data_blocks n);;
      nmbm_generate_info_table_cache;;
      success ← complete_tables main_count backup_count;
      i ← instance;
      (if (mapping_blocks_ba i =? mapping_blocks_top_ba i) || negb success then change_ni set_protected else mret tt);;
      mret true
  end.

Definition nmbm_load_existing : prog (bmt_world N) bool :=
  change_ni (fun i => set_mgmt_start (mgmt_start_pb (signature i)) i);;
  i ← instance;
  success ← nmbm_load_info_table (mgmt_start_ba i) (signature_ba i);
  if success : bool then mret true
  else if negb (force_create (config i)) then mret false
  else
    nmbm_scan_badblocks;;
    nmbm_build_mapping_table;;
    nmbm_create_info_table.

(** The pages of a block. *)
Fixpoint signature_in (n : nat) (addr : Z) : prog (bmt_world N) (option nmbm_signature) :=
  match n with
  | O => mret None
  | S n =>
      d ← desc;
      '(ret, sig) ← nmbn_read_data addr signature_length (replicate (Z.to_nat signature_length) 0);
      if negb (ret =? 0) then signature_in n (addr + pg_size d)
      else if negb (nmbm_check_header sig signature_length) then signature_in n (addr + pg_size d)
      else if magic (header_of sig) =? NMBM_MAGIC_SIGNATURE then mret (Some (signature_of sig))
      else signature_in n (addr + pg_size d)
  end.

(** From block [ba - 1] down to the one in front of the limit; below block 0 the loop goes
    on from block [2 ^ 32 - 1]. *)
Fixpoint find_signature (n : nat) (ba limit : Z) : prog (bmt_world N) (option (nmbm_signature * Z)) :=
  match n with
  | O => if limit =? 0 then undef else mret None
  | S n =>
      let ba := u32 (ba - 1) in
      bad ← nmbm_check_bad_phys_block ba;
      if bad : bool then find_signature n ba limit
      else
        d ← desc;
        s ← signature_in (block_pages d) (ba2addr d ba);
        match s with Some s => mret (Some (s, ba)) | None => find_signature n ba limit end
  end.

Definition nmbm_find_signature : prog (bmt_world N) (option (nmbm_signature * Z)) :=
  d ← desc;
  i ← instance;
  let block_count := total_blks d in
  let limit := u32 (block_count / NMBM_MGMT_DIV * (NMBM_MGMT_DIV - max_ratio (config i))) in
  let limit :=
    if negb (max_reserved_blocks (config i) =? 0) && (max_reserved_blocks (config i) <? u32 (block_count - limit))
    then u32 (block_count - max_reserved_blocks (config i)) else limit in
  find_signature (Z.to_nat (block_count - limit + 1)) block_count limit.

(** ** Attaching *)

Definition state_bytes (block_count : Z) : Z :=
  (block_count + NMBM_BITMAP_BLOCKS_PER_UNIT - 1) / NMBM_BITMAP_BLOCKS_PER_UNIT * NMBM_BITMAP_UNIT_SIZE.

(** The memory of the instance is cleared; the table of states is filled with ones. *)
Definition nmbm_init_structure (d : bmt_desc) (ratio reserved : Z) (ecc_ok force : bool) : nmbm_instance :=
  let block_count := total_blks d in
  let state_size := state_bytes block_count in
  let mapping_size := block_count * 4 in
  let state_off := u32 (align info_table_length (pg_size d)) in
  let mapping_off := u32 (state_off + align state_size (pg_size d)) in
  let info_size := u32 (mapping_off + align mapping_size (pg_size d)) in
  let no_header := NmbmHeader 0 0 0 0 in
  NmbmInstance
    (NmbmConfig (u32 (pg_size d + oobsize d)) info_size (nmbm_get_spare_block_count (size2blk d info_size)) state_size
      mapping_size block_count ratio reserved ecc_ok force)
    (NmbmSignature no_header 0 0 0 0 0 0) (replicate (Z.to_nat info_size) 0)
    (InfoTableHeader no_header 0 state_off mapping_off 0)
    (replicate (Z.to_nat (state_size / 4)) 0xffffffff) 0 (replicate (Z.to_nat block_count) 0) 0 false 0 0 0 0 0 0 0.

Definition nmbm_attach : prog (bmt_world N) Z :=
  r ← nmbm_find_signature;
  d ← desc;
  i ← instance;
  match r with
  | None =>
      if negb (force_create (config i)) then mret (- ENODEV)
      else success ← nmbm_create_new; mret (if success : bool then 0 else - ENODEV)
  | Some (s, ba) =>
      change_ni (set_signature s ba);;
      if negb (version (sig_header s) =? NMBM_VER) then mret (- EINVAL)
      else if negb ((nand_size s =? u64 (s32 (Z.shiftl (total_blks d) (blk_shift d)))) && (block_size s =? blk_size d) &&
                    (page_size s =? pg_size d) && (spare_size s =? oobsize d)) then mret (- EINVAL)
      else success ← nmbm_load_existing; mret (if success : bool then 0 else - ENODEV)
  end.

(** [alloc]: the memory can be had. *)
Definition mtk_bmt_init_nmbm (ratio reserved : Z) (ecc_ok force alloc : bool) : prog (bmt_world N) Z :=
  if negb alloc then mret (- ENOMEM)
  else
    d ← desc;
    change_desc (set_ni (Some (nmbm_init_structure d ratio reserved ecc_ok force)));;
    ret ← nmbm_attach;
    if negb (ret =? 0) then change_desc (set_ni None);; mret ret
    else
      i ← instance;
      change_desc (fun d => set_layout (table_size d) (pool_lba d) (bb_max d) (bmt_pgs d)
        (u64 (u32 (Z.shiftl (data_block_count i) (blk_shift d)))) d);;
      mret 0.

(** ** The operations *)

Definition remap_block_nmbm (block mapped_block copy_len : Z) : prog (bmt_world N) bool :=
  i ← instance;
  if data_block_count i <=? block then mret false
  else
    nmbm_set_block_state mapped_block BLOCK_ST_BAD;;
    ok ← nmbm_map_block block;
    if negb ok then mret false
    else
      new_block ← mapping_at block;
      bbt_nand_erase (u16 new_block);;
      (if 0 <? copy_len then bbt_nand_copy (u16 new_block) mapped_block copy_len else mret 0);;
      nmbm_update_info_table;;
      mret true.

(** A negative number is a large one in the comparison. *)
Definition get_mapping_block_index_nmbm (block : Z) : prog (bmt_world N) Z :=
  i ← instance;
  if data_block_count i <=? u32 block then mret (-1) else mapping_at block.

(** Back to a block that is not in the spare area. *)
Fixpoint unmap_start (n : nat) (start : Z) : prog (bmt_world N) (option Z) :=
  i ← instance;
  pb ← mapping_at start;
  if u32 pb <? mapping_blocks_ba i then mret (Some start)
  else match n with O => mret None | S n => unmap_start n (start - 1) end.

(** The block below all that are mapped to the spare area. *)
Definition spare_below (mapping_blocks_ba : Z) (l : list Z) (new_block : Z) : Z :=
  foldl (fun new_block cur => if u32 cur <? mapping_blocks_ba then new_block
                              else if cur <=? new_block then cur - 1 else new_block) new_block l.

Definition unmap_block_nmbm (block : Z) : prog (bmt_world N) unit :=
  i ← instance;
  if data_block_count i <=? block then mret tt
  else
    o ← unmap_start (Z.to_nat block) block;
    match o with
    | None => mret tt
    | Some start =>
        if start =? block then mret tt
        else
          first ← mapping_at start;
          let new_block := first + (block - start) in
          nmbm_set_block_state (u32 new_block) BLOCK_ST_GOOD;;
          put_mapping block new_block;;
          change_ni (fun i => set_mapping (block_mapping i) (u32 (block_mapping_changed i + 1)) i);;
          i ← instance;
          change_ni (set_mapping_top (u32 (spare_below (mapping_blocks_ba i)
            (take (Z.to_nat (data_block_count i)) (block_mapping i)) (s32 (u32 (signature_ba i - 1))))));;
          nmbm_update_info_table;;
          mret tt
    end.

(** [val] 0 prints what is remapped; nothing else happens. *)
Definition mtk_bmt_debug_nmbm (val : Z) : prog (bmt_world N) Z := mret 0.

Definition mtk_bmt_nmbm_ops : mtk_bmt_ops N := {|
  remap_block := remap_block_nmbm;
  unmap_block := unmap_block_nmbm;
  get_mapping_block := get_mapping_block_index_nmbm
|}.
End Nmbm.
