(* ===== verification/NmbmFacts.v ===== *)
(** * Facts about the managed mapping

    What an operation on the management area may touch of the chip, and what it may do to
    the instance: blocks can only get worse, and [manages] is a logic for the functions
    that keep the tables, whatever the chip answers. *)

From Stdlib Require Import ZArith Lia.
From stdpp Require Import base list numbers option.
From S2P Require Import Prelude Bmt BmtDevice Nmbm.

(** ** The table of states *)

Section States.
Implicit Types (l : list Z).

#[local] Abbreviation state := nmbm_get_block_state_raw.

(** The table has a state for the first [n] blocks. *)
Definition covers (n : Z) l : Prop := n <= 16 * Z.of_nat (length l).

Lemma state_unit_lt n l ba : covers n l -> 0 <= ba < n -> (state_unit ba < length l)%nat.
Proof.
  unfold covers, state_unit, NMBM_BITMAP_BLOCKS_PER_UNIT. intros Hc Hb.
  apply Nat2Z.inj_lt. rewrite Z2Nat.id by (apply Z.div_pos; lia). apply Z.div_lt_upper_bound; lia.
Qed.

Lemma state_unit_ge l ba : 0 <= ba -> (state_unit ba < length l)%nat -> ba < 16 * Z.of_nat (length l).
Proof.
  unfold state_unit, NMBM_BITMAP_BLOCKS_PER_UNIT. intros Hb Hl. pose proof (Z.div_mod ba 16). pose proof (Z.mod_pos_bound ba 16). lia.
Qed.

Lemma state_some n l ba : covers n l -> 0 <= ba < n -> exists s, state l ba = Some s.
Proof.
  intros Hc Hb. pose proof (state_unit_lt n l ba Hc Hb) as Hu. unfold nmbm_get_block_state_raw.
  apply lookup_lt_is_Some_2 in Hu as [uv ->]. by eexists.
Qed.

Lemma state_shift_range ba : 0 <= state_shift ba <= 30.
Proof.
  unfold state_shift, NMBM_BITMAP_BLOCKS_PER_UNIT, NMBM_BITMAP_BITS_PER_BLOCK. pose proof (Z.mod_pos_bound ba 16). lia.
Qed.

(** Blocks in the same unit have their bits apart. *)
Lemma state_shift_apart b c : 0 <= b -> 0 <= c -> state_unit b = state_unit c -> b <> c ->
  state_shift b + 2 <= state_shift c \/ state_shift c + 2 <= state_shift b.
Proof.
  unfold state_unit, state_shift, NMBM_BITMAP_BLOCKS_PER_UNIT, NMBM_BITMAP_BITS_PER_BLOCK. intros Hb Hc Hu Hne.
  apply Z2Nat.inj in Hu; [|apply Z.div_pos; lia..]. pose proof (Z.div_mod b 16). pose proof (Z.div_mod c 16). lia.
Qed.

Lemma state_in_testbit ba uv i : 0 <= i -> Z.testbit (state_in ba uv) i = (i <? 2) && Z.testbit uv (state_shift ba + i).
Proof.
  intros Hi. pose proof (state_shift_range ba). unfold state_in, BLOCK_ST_MASK. rewrite Z.land_spec, Z.shiftr_spec by lia.
  change 3 with (Z.ones 2). rewrite Z.testbit_ones_nonneg by lia. rewrite andb_comm. f_equal. f_equal. lia.
Qed.

Lemma put_testbit ba s uv i : 0 <= s < 4 -> 0 <= i < 32 ->
  Z.testbit (put_block_state ba s uv) i =
  if (state_shift ba <=? i) && (i <? state_shift ba + 2) then Z.testbit s (i - state_shift ba) else Z.testbit uv i.
Proof.
  intros Hs Hi. pose proof (state_shift_range ba) as Hr. unfold put_block_state, not_w, BLOCK_ST_MASK.
  rewrite Z.lor_spec, Z.land_spec, !wrap_testbit by lia. rewrite Z.lnot_spec by lia. rewrite !Z.shiftl_spec by lia.
  change 3 with (Z.ones 2). destruct (Z.ltb_spec i 32) as [_|]; [|lia]. cbn [andb].
  destruct (Z.leb_spec (state_shift ba) i) as [Hl|Hl]; cbn [andb].
  - rewrite Z.testbit_ones_nonneg by lia. destruct (Z.ltb_spec i (state_shift ba + 2)) as [Hu|Hu].
    + destruct (Z.ltb_spec (i - state_shift ba) 2); [|lia]. by rewrite andb_false_r.
    + destruct (Z.ltb_spec (i - state_shift ba) 2); [lia|]. cbn [negb]. rewrite andb_true_r.
      rewrite (testbit_out_of_range s 2) by lia. apply orb_false_r.
  - rewrite !(Z.testbit_neg_r _ (i - state_shift ba)) by lia. cbn [negb]. by rewrite andb_true_r, orb_false_r.
Qed.

Lemma state_put_same ba s uv : 0 <= s < 4 -> state_in ba (put_block_state ba s uv) = s.
Proof.
  intros Hs. pose proof (state_shift_range ba). apply Z.bits_inj'. intros i Hi. rewrite state_in_testbit by done.
  destruct (Z.ltb_spec i 2) as [Hl|Hl]; cbn [andb].
  - rewrite put_testbit by lia. destruct (Z.leb_spec (state_shift ba) (state_shift ba + i)); [|lia].
    destruct (Z.ltb_spec (state_shift ba + i) (state_shift ba + 2)); [|lia]. cbn [andb]. f_equal. lia.
  - symmetry. by apply (testbit_out_of_range s 2).
Qed.

Lemma state_put_other b c s uv : 0 <= b -> 0 <= c -> b <> c -> state_unit b = state_unit c -> 0 <= s < 4 ->
  state_in c (put_block_state b s uv) = state_in c uv.
Proof.
  intros Hb Hc Hne Hu Hs. pose proof (state_shift_apart b c Hb Hc Hu Hne). pose proof (state_shift_range c).
  apply Z.bits_inj'. intros i Hi. rewrite !state_in_testbit by done. destruct (Z.ltb_spec i 2); [|done]. cbn [andb].
  rewrite put_testbit by lia. destruct (Z.leb_spec (state_shift b) (state_shift c + i)); [|done].
  destruct (Z.ltb_spec (state_shift c + i) (state_shift b + 2)); [lia|done].
Qed.

(** A state that was set is read back, and the others are as they were. *)
Lemma state_put l ba s uv c : 0 <= ba -> 0 <= c -> 0 <= s < 4 -> l !! state_unit ba = Some uv ->
  state (<[state_unit ba := put_block_state ba s uv]> l) c = if c =? ba then Some s else state l c.
Proof.
  intros Hb Hc Hs Hu. unfold nmbm_get_block_state_raw. pose proof (lookup_lt_Some _ _ _ Hu).
  destruct (decide (state_unit c = state_unit ba)) as [E|E].
  - rewrite E, list_lookup_insert_eq by done. cbn. destruct (Z.eqb_spec c ba) as [->|Hne].
    + by rewrite state_put_same.
    + rewrite Hu. cbn. by rewrite state_put_other.
  - rewrite list_lookup_insert_ne by done. destruct (Z.eqb_spec c ba); [congruence|done].
Qed.

(** Blocks that were good may have become bad, but for those in [sound]. *)
Definition worse (sound : Z -> Prop) l l' : Prop :=
  length l' = length l /\
  forall ba, 0 <= ba -> state l' ba = state l ba \/
    (state l ba = Some BLOCK_ST_GOOD /\ state l' ba = Some BLOCK_ST_BAD /\ ~ sound ba).

Lemma worse_refl sound l : worse sound l l.
Proof. split; [done|]. by left. Qed.

Lemma worse_trans sound l1 l2 l3 : worse sound l1 l2 -> worse sound l2 l3 -> worse sound l1 l3.
Proof.
  intros [E1 W1] [E2 W2]. split; [by rewrite E2|]. intros ba Hb.
  destruct (W1 ba Hb) as [Q1|(G1 & B1 & N1)], (W2 ba Hb) as [Q2|(G2 & B2 & N2)].
  - left. by rewrite Q2.
  - right. by rewrite <- Q1.
  - right. by rewrite Q2.
  - by rewrite B1 in G2.
Qed.

(** How many blocks are good. *)
Definition is_good l (ba : Z) : Prop := state l ba = Some BLOCK_ST_GOOD.
#[export] Instance is_good_dec l ba : Decision (is_good l ba).
Proof. unfold is_good. apply _. Defined.

Definition goods (n : Z) l : nat := length (filter (is_good l) (seqZ 0 n)).

Lemma filter_fewer (P Q : Z -> Prop) `{!forall x, Decision (P x), !forall x, Decision (Q x)} (l : list Z) :
  (forall x, x ∈ l -> Q x -> P x) ->
  (length (filter Q l) <= length (filter P l))%nat /\
  ((exists x, x ∈ l /\ P x /\ ~ Q x) -> (length (filter Q l) < length (filter P l))%nat).
Proof.
  induction l as [|y l IH]; intros Hs; [split; [done|]; intros (x & Hx & _); by apply elem_of_nil in Hx|].
  destruct IH as [IH1 IH2]; [intros x Hx; apply Hs; by right|]. rewrite !filter_cons.
  assert (Hy := Hs y (list_elem_of_here _ _)). split.
  - destruct (decide (Q y)), (decide (P y)); cbn; try lia; tauto.
  - intros (x & [->|Hx]%elem_of_cons & HP & HQ).
    + destruct (decide (Q y)), (decide (P y)); cbn; try lia; tauto.
    + specialize (IH2 (ex_intro _ x (conj Hx (conj HP HQ)))).
      destruct (decide (Q y)), (decide (P y)); cbn; try lia; tauto.
Qed.

Lemma worse_goods sound n l l' : worse sound l l' ->
  (goods n l' <= goods n l)%nat /\ ((exists ba, 0 <= ba < n /\ is_good l ba /\ ~ is_good l' ba) -> (goods n l' < goods n l)%nat).
Proof.
  intros [El W]. unfold goods.
  destruct (filter_fewer (is_good l) (is_good l') (seqZ 0 n)) as [F1 F2].
  - intros x Hx%elem_of_seqZ G. destruct (W x) as [Q|(G' & B & _)]; [lia|unfold is_good in *; congruence|done].
  - split; [exact F1|]. intros (ba & Hb & G & Hn). apply F2. exists ba. split; [|done]. by apply elem_of_seqZ.
Qed.

Lemma goods_le n l : (goods n l <= Z.to_nat n)%nat.
Proof. unfold goods. etransitivity; [apply length_filter|]. by rewrite length_seqZ. Qed.
End States.

(** An operation on a block does nothing to the others, whatever comes of it. *)
Class ChipFrame (N : Type) `{Nand N, Chip N} := {
  frame_read : forall (n : N) addr len ool oo b, content (_read_oob addr len ool oo n).2 b = content n b;
  frame_write : forall (n : N) b off dat oob oo c,
    0 <= b < chip_blocks -> 0 <= off -> off + Z.of_nat (length dat) <= bsize -> c <> b ->
    content (_write_oob (b * bsize + off) dat oob oo n).2 c = content n c;
  frame_erase : forall (n : N) b c, 0 <= b < chip_blocks -> c <> b ->
    content (_erase (b * bsize) bsize n).2 c = content n c;
  frame_isbad : forall (n : N) addr b, content (_block_isbad addr n).2 b = content n b;
  frame_markbad : forall (n : N) b c, 0 <= b < chip_blocks -> c <> b ->
    content (_block_markbad (b * bsize) n).2 c = content n c
}.

(** ** Steps on the chip *)

Section Chip.
Context {N : Type} `{ChipFrame N}.
Implicit Types (w : bmt_world N).

Definition between (lo hi b : Z) : Prop := lo <= b < hi.

Definition same_outside (T : Z -> Prop) (n n' : N) : Prop := forall b, ~ T b -> content n' b = content n b.

Lemma same_outside_refl T n : same_outside T n n.
Proof. done. Qed.

Lemma same_outside_trans T n1 n2 n3 : same_outside T n1 n2 -> same_outside T n2 n3 -> same_outside T n1 n3.
Proof. intros A1 A2 b Hb. by rewrite A2, A1. Qed.

Lemma same_outside_mono (T T' : Z -> Prop) n n' : (forall b, T b -> T' b) -> same_outside T n n' -> same_outside T' n n'.
Proof. intros HT Hs b Hb. apply Hs. auto. Qed.

(** Only the chip and the cache for pages change. *)
Record chip_step (T : Z -> Prop) w w' : Prop := {
  cs_desc : exists b, bmtd w' = set_data b (bmtd w);
  cs_out : same_outside T (nand w) (nand w')
}.

Lemma chip_step_nand T w n : same_outside T (nand w) n -> chip_step T w (BmtWorld (bmtd w) n).
Proof. split; [|done]. exists (data_buf (bmtd w)). cbn. by rewrite set_data_same. Qed.

Lemma chip_step_refl T w : chip_step T w w.
Proof. destruct w. by apply chip_step_nand. Qed.

Lemma chip_step_trans T w1 w2 w3 : chip_step T w1 w2 -> chip_step T w2 w3 -> chip_step T w1 w3.
Proof.
  intros [[b1 E1] S1] [[b2 E2] S2]. split; [|by eapply same_outside_trans]. exists b2. by rewrite E2, E1.
Qed.

Ltac chain := cbn beta in *; eapply chip_step_trans; eassumption.

Lemma chip_step_mono (T T' : Z -> Prop) w w' : (forall b, T b -> T' b) -> chip_step T w w' -> chip_step T' w w'.
Proof. intros HT [D S]. split; [done|]. by eapply same_outside_mono. Qed.

Lemma pages_step T w w' : chip_step T w w' -> pages (bmtd w) -> pages (bmtd w').
Proof. intros [[b ->] _] [[] ? ? ? ?]. split; [by split|done..]. Qed.

Lemma runs_set_page f w : runs (set_page f) w (fun _ w' => chip_step (fun _ => False) w w').
Proof. apply runs_change_desc. split; [by eexists|done]. Qed.

Lemma runs_read_tries T k addr data ret w : runs (read_tries k addr data ret) w (fun _ w' => chip_step T w w').
Proof.
  revert data ret w. induction k as [|k IH]; intros data ret w; cbn [read_tries]; [apply runs_ret, chip_step_refl|].
  apply runs_bind, runs_desc, runs_bind, runs_call.
  pose proof (frame_read (nand w) addr (pg_size (bmtd w)) 0 0) as Hf.
  destruct (_read_oob _ _ _ _ _) as [[[ret' dat] oob] n]. cbn [fst snd] in *.
  assert (Hs : chip_step T w (BmtWorld (bmtd w) n)) by (apply chip_step_nand; intros b _; apply Hf).
  destruct (ret' =? - EUCLEAN); [by apply runs_ret|]. destruct (0 <=? ret'); [by apply runs_ret|].
  eapply runs_mono; [apply IH|]. intros r w' Hw. chain.
Qed.

Lemma runs_read_cached T addr w : runs (read_cached addr) w (fun _ w' => chip_step T w w').
Proof.
  unfold read_cached. apply runs_bind, runs_desc. eapply runs_step; [apply (runs_read_tries T)|].
  intros [ret data] w1 A1. apply runs_bind. eapply runs_mono; [apply runs_set_page|]. intros [] w2 A2.
  apply runs_ret. eapply chip_step_trans; [exact A1|]. by eapply chip_step_mono; [|exact A2].
Qed.

Lemma runs_write_tries k b off data w :
  0 <= b < chip_blocks -> 0 <= off -> off + Z.of_nat (length data) <= bsize ->
  runs (write_tries k (b * bsize + off) data) w (fun _ w' => chip_step (eq b) w w').
Proof.
  intros Hb Ho Hl. revert w. induction k as [|k IH]; intros w; cbn [write_tries]; [apply runs_ret, chip_step_refl|].
  apply runs_bind, runs_call. pose proof (fun c => frame_write (nand w) b off data [] 0 c Hb Ho Hl) as Hf.
  destruct (_write_oob _ _ _ _ _) as [[[ret l1] l2] n]. cbn [fst snd] in *.
  assert (Hs : chip_step (eq b) w (BmtWorld (bmtd w) n)) by (apply chip_step_nand; intros c Hc; apply Hf; congruence).
  destruct (ret =? 0); [by apply runs_ret|].
  eapply runs_mono; [apply IH|]. intros r w' Hw. chain.
Qed.

Lemma runs_erase_tries k b w :
  geometry (bmtd w) -> 0 <= b < chip_blocks ->
  runs (erase_tries k (b * bsize)) w (fun _ w' => chip_step (eq b) w w').
Proof.
  intros Hg Hb. revert w Hg. induction k as [|k IH]; intros w Hg; cbn [erase_tries]; [apply runs_ret, chip_step_refl|].
  apply runs_bind, runs_desc, runs_bind, runs_call. rewrite (g_erase _ Hg).
  pose proof (fun c => frame_erase (nand w) b c Hb) as Hf. destruct (_erase _ _ _) as [ret n]. cbn [fst snd] in *.
  assert (Hs : chip_step (eq b) w (BmtWorld (bmtd w) n)) by (apply chip_step_nand; intros c Hc; apply Hf; congruence).
  destruct (ret =? 0); [by apply runs_ret|].
  eapply runs_mono; [by apply IH|]. intros r w' Hw. chain.
Qed.

Lemma runs_check_pages T n addr w : runs (check_pages n addr) w (fun _ w' => chip_step T w w').
Proof.
  revert addr w. induction n as [|n IH]; intros addr w; cbn [check_pages]; [apply runs_ret, chip_step_refl|].
  apply runs_bind, runs_desc. eapply runs_step; [apply (runs_read_cached T)|]. intros ret w1 A1.
  destruct (ret =? - EBADMSG); [by apply runs_ret|]. eapply runs_mono; [apply IH|].
  intros r w' Hw. chain.
Qed.

(** ** Addresses *)

Lemma ba2addr_mul d b : geometry d -> 0 <= b <= 65536 -> ba2addr d b = b * bsize.
Proof.
  intros Hg Hb. unfold ba2addr. rewrite shiftl_block by done. apply wrap_small.
  pose proof (g_limit d Hg). pose proof (bsize_pos d Hg). nia.
Qed.

(** A chunk at the beginning of a page. *)
Lemma page_chunk d b o n :
  pages d -> 0 <= b -> (psize | o) -> 0 <= o ->
  Z.land (b * bsize + o) (u32 (pg_size d - 1)) = 0 /\ chunk_of d (b * bsize + o) n = Z.min psize n.
Proof.
  intros Hp Hb Ho A0. destruct (psize_pos d Hp) as (Hps & Hd & Hle). pose proof (g_limit _ (p_geometry d Hp)).
  assert (E : Z.land (b * bsize + o) (u32 (pg_size d - 1)) = 0).
  { rewrite (p_pg d Hp), (wrap_small 32) by lia. rewrite (p_size d Hp) at 1.
    replace (2 ^ pg_shift d - 1) with (Z.ones (pg_shift d)) by (rewrite Z.ones_equiv; lia).
    rewrite Z.land_ones by apply (p_shift d Hp). rewrite <- (p_size d Hp).
    apply Z.mod_divide; [lia|]. apply Z.divide_add_r; [|done]. by apply Z.divide_mul_r. }
  split; [exact E|]. unfold chunk_of. by rewrite E, (p_pg d Hp), Z.sub_0_r.
Qed.

(** A page that begins in a block ends in it. *)
Lemma page_fits d o : pages d -> (psize | o) -> 0 <= o < bsize -> o + psize <= bsize.
Proof.
  intros Hp [a ->] Ho. destruct (psize_pos d Hp) as (Hps & [k E] & _). rewrite E in *.
  assert (a < k) by (apply (Z.mul_lt_mono_pos_r psize); lia). nia.
Qed.

Lemma runs_write_phys b o w :
  pages (bmtd w) -> 0 <= b < chip_blocks -> (psize | o) -> 0 <= o < bsize ->
  runs (nmbm_write_phys_page (b * bsize + o)) w (fun _ w' => chip_step (eq b) w w').
Proof.
  intros Hp Hb Ho A0. pose proof (page_fits _ o Hp Ho A0). unfold nmbm_write_phys_page. apply runs_bind, runs_desc.
  apply runs_write_tries; [done|lia|]. rewrite length_take, (p_pg _ Hp). lia.
Qed.

End Chip.

Ltac chain := cbn beta in *; eapply chip_step_trans; eassumption.

Section Manage.
Context {N : Type} `{ChipFrame N} (e : endian) (crc32_le : Z -> list Z -> Z).
Implicit Types (w : bmt_world N).

Definition inst w (i : nmbm_instance) : Prop := ni (bmtd w) = Some i.

Lemma runs_instance w i Q : inst w i -> Q i w -> runs instance w Q.
Proof. unfold inst. intros Hi HQ. unfold instance. apply runs_bind, runs_desc. rewrite Hi. by apply runs_defined. Qed.

Lemma runs_change_ni f w i (Q : unit -> bmt_world N -> Prop) :
  inst w i -> Q tt (BmtWorld (set_ni (Some (f i)) (bmtd w)) (nand w)) -> runs (change_ni f) w Q.
Proof. intros Hi HQ. unfold change_ni. apply runs_bind. eapply runs_instance; [done|]. by apply runs_change_desc. Qed.

Lemma inst_step T w w' i : chip_step T w w' -> inst w i -> inst w' i.
Proof. unfold inst. by intros [[b ->] _]. Qed.

Lemma runs_write_chunks n b o ptr w i :
  inst w i -> pages (bmtd w) -> 0 <= b < chip_blocks -> 0 <= o -> o + Z.of_nat (length ptr) <= bsize ->
  (psize | o) \/ ptr = [] -> Z.of_nat (length ptr) <= Z.of_nat n * psize ->
  runs (write_chunks n (b * bsize + o) ptr) w (fun _ w' => chip_step (eq b) w w').
Proof.
  revert o ptr w. induction n as [|n IH]; intros o ptr w Hi Hp Hb A0 Hl Ho Hn;
    (destruct ptr as [|x ptr']; cbn [write_chunks]; [apply runs_ret, chip_step_refl|]); [cbn in Hn; lia|].
  set (ptr := x :: ptr') in *. destruct Ho as [Ho|]; [|done]. destruct (psize_pos _ Hp) as (Hps & _ & _).
  assert (Hlen : 0 < Z.of_nat (length ptr)) by (unfold ptr; cbn; lia).
  apply runs_bind, runs_desc, runs_bind. eapply runs_instance; [done|].
  destruct (page_chunk _ b o (Z.of_nat (length ptr)) Hp (proj1 Hb) Ho A0) as [-> ->]. rewrite !Z.sub_0_r.
  set (chunk := take _ ptr). assert (Hc : Z.of_nat (length chunk) = Z.min psize (Z.of_nat (length ptr))).
  { unfold chunk. rewrite length_take. lia. }
  eapply runs_step; [apply runs_set_page|]. intros [] w1 S1.
  eapply runs_step; [apply runs_set_page|]. intros [] w2 S2.
  assert (S12 : chip_step (eq b) w w2).
  { eapply chip_step_trans; (eapply chip_step_mono; [|eassumption]); done. }
  eapply runs_step; [apply (runs_write_phys b o); [by eapply pages_step|done|done|lia]|].
  intros success w3 S3. assert (S13 : chip_step (eq b) w w3) by chain.
  destruct (negb success); [by apply runs_ret|].
  eapply runs_step; [apply (runs_read_cached (eq b))|]. intros ret w4 S4.
  assert (S14 : chip_step (eq b) w w4) by chain.
  destruct (ret <? 0); [by apply runs_ret|]. apply runs_bind, runs_desc.
  case_bool_decide; [|by apply runs_ret]. rewrite <- Z.add_assoc.
  eapply runs_mono; [apply (IH (o + Z.of_nat (length chunk)) (drop (length chunk) ptr))|].
  - by eapply inst_step.
  - by eapply pages_step.
  - done.
  - lia.
  - rewrite length_drop. lia.
  - rewrite Hc. destruct (Z.min_spec psize (Z.of_nat (length ptr))) as [[_ ->]|[_ E]].
    + left. apply Z.divide_add_r; [done|apply Z.divide_refl].
    + right. apply nil_length_inv. rewrite length_drop. lia.
  - rewrite length_drop. lia.
  - intros r w' S5. chain.
Qed.

Lemma runs_erase_block b w i :
  inst w i -> pages (bmtd w) -> 0 <= b < chip_blocks -> b <= 65536 ->
  runs (nmbm_erase_block_and_check b) w (fun _ w' => chip_step (eq b) w w').
Proof.
  intros Hi Hp Hb H16. pose proof (p_geometry _ Hp) as Hg. unfold nmbm_erase_block_and_check.
  apply runs_bind, runs_desc, runs_bind. eapply runs_instance; [done|]. rewrite ba2addr_mul by (done || lia).
  eapply runs_step; [by apply runs_erase_tries|]. intros r w1 S1.
  destruct (negb r); [by apply runs_ret|]. destruct (negb _); [by apply runs_ret|].
  eapply runs_mono; [apply runs_check_pages|]. intros r2 w2 S2. chain.
Qed.

Lemma runs_write_block b chunk w i :
  inst w i -> pages (bmtd w) -> 0 <= b < chip_blocks -> b <= 65536 -> Z.of_nat (length chunk) <= bsize ->
  runs (write_block b chunk) w (fun _ w' => chip_step (eq b) w w').
Proof.
  intros Hi Hp Hb H16 Hl. pose proof (p_geometry _ Hp) as Hg. unfold write_block. apply runs_bind, runs_desc.
  rewrite ba2addr_mul by (done || lia). eapply runs_step; [by eapply runs_erase_block|].
  intros r w1 S1. destruct r; [|by apply runs_ret]. unfold nmbn_write_verify_data. apply runs_bind, runs_desc.
  rewrite <- (Z.add_0_r (b * bsize)). assert (Hp1 : pages (bmtd w1)) by by eapply pages_step.
  destruct (psize_pos _ Hp1) as (Hps & _ & _). rewrite (p_pg _ Hp1).
  eapply runs_mono; [eapply runs_write_chunks|].
  - by eapply inst_step.
  - done.
  - done.
  - lia.
  - lia.
  - left. apply Z.divide_0_r.
  - pose proof (Z.div_mod (Z.of_nat (length chunk)) psize). pose proof (Z.mod_pos_bound (Z.of_nat (length chunk)) psize).
    pose proof (Z.div_pos (Z.of_nat (length chunk)) psize). nia.
  - intros r w' S2. chain.
Qed.

(** ** A logic for the functions that keep the tables *)

(** The operations on the blocks in [sound] never fail. *)
Context (sound : Z -> Prop).
Hypothesis sound_marks : forall (n : N) b, sound b -> (_block_isbad (b * bsize) n).1 = 0.
Hypothesis sound_erase : forall w i b,
  sound b -> inst w i -> pages (bmtd w) -> 0 <= b < chip_blocks -> b <= 65536 ->
  runs (nmbm_erase_block_and_check b) w (fun r _ => r = true).
Hypothesis sound_write : forall w i b chunk,
  sound b -> inst w i -> pages (bmtd w) -> psize <= rawpage_size (config i) -> 0 <= b < chip_blocks -> b <= 65536 ->
  Z.of_nat (length chunk) <= bsize -> runs (write_block b chunk) w (fun r _ => r = true).

Definition goods_of (i : nmbm_instance) : nat := goods (block_count (config i)) (block_state i).

(** The table is on the flash, but for blocks that have failed since there were [g] good ones. *)
Definition settled (g : nat) (i : nmbm_instance) : Prop :=
  block_mapping_changed i = 0 /\ (goods_of i <= g)%nat /\ (block_state_changed i = 0 \/ (goods_of i < g)%nat).

(** What the functions that keep the tables do not change. *)
Record stays (i i' : nmbm_instance) : Prop := {
  st_config : config i' = config i;
  st_mapping : block_mapping i' = block_mapping i;
  st_data : data_block_count i' = data_block_count i;
  st_start : mgmt_start_ba i' = mgmt_start_ba i;
  st_top : mapping_blocks_top_ba i' = mapping_blocks_top_ba i;
  st_sig : signature_ba i' = signature_ba i;
  st_state_off : state_table_off (info_table i') = state_table_off (info_table i);
  st_mapping_off : mapping_table_off (info_table i') = mapping_table_off (info_table i);
  st_cache : length (info_table_cache i') = length (info_table_cache i);
  st_worse : worse sound (block_state i) (block_state i');
  st_settled : forall g, settled g i -> settled g i'
}.

Lemma stays_refl i : stays i i.
Proof. split; try done. apply worse_refl. Qed.

Lemma stays_trans i1 i2 i3 : stays i1 i2 -> stays i2 i3 -> stays i1 i3.
Proof. intros [] []. split; try congruence; [by eapply worse_trans|by auto]. Qed.

(** What they rely on. *)
Record fixed_ok (i : nmbm_instance) : Prop := {
  fx_count : 0 < block_count (config i) <= chip_blocks;
  fx_limit : block_count (config i) <= 65536;
  fx_covers : covers (block_count (config i)) (block_state i);
  fx_raw : psize <= rawpage_size (config i);
  fx_cache : Z.of_nat (length (info_table_cache i)) = info_table_size (config i);
  fx_start : 0 < mgmt_start_ba i <= mapping_blocks_top_ba i;
  fx_top : mapping_blocks_top_ba i < block_count (config i);
  fx_states : 0 <= state_table_off (info_table i) /\ 0 <= state_table_size (config i) /\
    state_table_off (info_table i) + state_table_size (config i) <= info_table_size (config i);
  fx_maps : 0 <= mapping_table_off (info_table i) /\ 0 <= mapping_table_size (config i) /\
    mapping_table_off (info_table i) + mapping_table_size (config i) <= info_table_size (config i);
  fx_header : 32 <= info_table_size (config i)
}.

Lemma fixed_stays i i' : stays i i' -> fixed_ok i -> fixed_ok i'.
Proof.
  intros [Ec Em Ed Es Et Eg E1 E2 E3 [El _] _] []. split; rewrite ?Ec, ?Es, ?Et, ?E1, ?E2, ?E3; try done.
  unfold covers. by rewrite El.
Qed.

(** From the instance [i] the program returns: it touches the management area below the
    spare blocks only, and the new instance stays what the old one was. *)
Definition manages {A} (i : nmbm_instance) (p : prog (bmt_world N) A) (Q : A -> nmbm_instance -> Prop) : Prop :=
  forall w, inst w i -> pages (bmtd w) ->
  runs p w (fun r w' => exists i' b,
    bmtd w' = set_ni (Some i') (set_data b (bmtd w)) /\
    same_outside (between (mgmt_start_ba i) (mapping_blocks_top_ba i)) (nand w) (nand w') /\
    stays i i' /\ Q r i').

Lemma pages_set_ni i b d : pages d -> pages (set_ni i (set_data b d)).
Proof. intros [[] ? ? ? ?]. split; [by split|done..]. Qed.

Lemma manages_ret {A} (a : A) i (Q : A -> nmbm_instance -> Prop) : Q a i -> manages i (mret a) Q.
Proof.
  intros HQ w Hi Hp. apply runs_ret. exists i, (data_buf (bmtd w)). split; [|split; [done|split; [apply stays_refl|done]]].
  unfold inst in Hi. rewrite set_data_same. destruct (bmtd w); cbn in *. by subst.
Qed.

Lemma manages_mono {A} (p : prog _ A) i (Q R : A -> nmbm_instance -> Prop) :
  manages i p Q -> (forall a i', stays i i' -> Q a i' -> R a i') -> manages i p R.
Proof.
  intros Hm HQ w Hi Hp. eapply runs_mono; [by apply Hm|]. intros a w' (i' & b & E & S & St & Q'). exists i', b. auto.
Qed.

Lemma manages_bind {A B} (p : prog _ A) (f : A -> prog _ B) i Q R :
  manages i p Q -> (forall a i', stays i i' -> Q a i' -> manages i' (f a) R) -> manages i (p ≫= f) R.
Proof.
  intros Hm HQ w Hi Hp. eapply runs_step; [by apply Hm|]. intros a w1 (i1 & b1 & E1 & S1 & St1 & Q1).
  eapply runs_mono; [apply (HQ a i1 St1 Q1)|].
  - unfold inst. by rewrite E1.
  - rewrite E1. by apply pages_set_ni.
  - intros r w2 (i2 & b2 & E2 & S2 & St2 & Q2). exists i2, b2. rewrite E2, E1. split; [done|].
    rewrite (st_start _ _ St1), (st_top _ _ St1) in S2. split; [by eapply same_outside_trans|].
    split; [by eapply stays_trans|done].
Qed.

Lemma manages_instance {A} (f : nmbm_instance -> prog _ A) i R : manages i (f i) R -> manages i (instance ≫= f) R.
Proof. intros Hm w Hi Hp. apply runs_bind. eapply runs_instance; [done|]. by apply Hm. Qed.

Lemma manages_desc {A} (f : bmt_desc -> prog _ A) i R :
  (forall d, pages d -> manages i (f d) R) -> manages i (desc ≫= f) R.
Proof. intros Hm w Hi Hp. apply runs_bind, runs_desc. by apply Hm. Qed.

Lemma manages_change (f : nmbm_instance -> nmbm_instance) i (Q : unit -> nmbm_instance -> Prop) :
  stays i (f i) -> Q tt (f i) -> manages i (change_ni f) Q.
Proof.
  intros Hs HQ w Hi Hp. eapply runs_change_ni; [done|]. exists (f i), (data_buf (bmtd w)). split; [|done].
  cbn. by rewrite set_data_same.
Qed.

(** A program that does not know of the instance. *)
Lemma manages_chip {A} (p : prog _ A) i T (Q : A -> Prop) :
  (forall b, T b -> between (mgmt_start_ba i) (mapping_blocks_top_ba i) b) ->
  (forall w, inst w i -> pages (bmtd w) -> runs p w (fun r w' => chip_step T w w' /\ Q r)) ->
  manages i p (fun r i' => i' = i /\ Q r).
Proof.
  intros HT Hp w Hi Hpg. eapply runs_mono; [by apply Hp|]. intros r w' ([[b E] S] & HQ). exists i, b.
  split; [|split; [by eapply same_outside_mono|split; [apply stays_refl|done]]].
  unfold inst in Hi. rewrite E. destruct (bmtd w); cbn in *. by subst.
Qed.

Lemma runs_both {A} (P : Prop) (p : prog (bmt_world N) A) w Q R :
  runs p w R -> (P -> runs p w Q) -> runs p w (fun a w' => R a w' /\ (P -> Q a w')).
Proof. unfold runs. by destruct (p w). Qed.

(** ** Marking blocks *)

(** Only the table of states differs. *)
Definition only_state (i i' : nmbm_instance) : Prop := exists l c, i' = set_state l c i.

Lemma only_state_refl i : only_state i i.
Proof. exists (block_state i), (block_state_changed i). by destruct i. Qed.

Lemma only_state_trans i1 i2 i3 : only_state i1 i2 -> only_state i2 i3 -> only_state i1 i3.
Proof. intros (l1 & c1 & ->) (l2 & c2 & ->). by exists l2, c2. Qed.

Lemma runs_put_state w i ba s :
  inst w i -> (state_unit ba < length (block_state i))%nat -> 0 <= ba -> 0 <= s < 4 ->
  runs (nmbm_set_block_state ba s) w (fun r w' => exists l c,
    w' = BmtWorld (set_ni (Some (set_state l c i)) (bmtd w)) (nand w) /\ length l = length (block_state i) /\
    (forall x, 0 <= x -> nmbm_get_block_state_raw l x =
      if x =? ba then Some s else nmbm_get_block_state_raw (block_state i) x)).
Proof.
  intros Hi Hu Hb Hs. unfold nmbm_set_block_state. apply runs_bind. eapply runs_instance; [done|].
  apply lookup_lt_is_Some_2 in Hu as [uv Hu]. rewrite Hu. apply runs_bind, runs_defined.
  replace (Z.land s BLOCK_ST_MASK) with s.
  2:{ unfold BLOCK_ST_MASK. change 3 with (Z.ones 2). rewrite Z.land_ones by lia. rewrite Z.mod_small; [done|]. change (2 ^ 2) with 4. lia. }
  case_match; (apply runs_bind; eapply runs_change_ni; [done|]; apply runs_ret;
    eexists _, _; split; [reflexivity|]; split; [by rewrite length_insert|]; intros x Hx; by apply state_put).
Qed.

(** A good block becomes bad. *)
Lemma manages_set_bad i ba :
  fixed_ok i -> 0 <= ba < block_count (config i) -> is_good (block_state i) ba -> ~ sound ba ->
  manages i (nmbm_set_block_state ba BLOCK_ST_BAD) (fun _ i' => only_state i i').
Proof.
  intros Hf Hb Hg Hns w Hi Hp. pose proof (state_unit_lt _ _ _ (fx_covers _ Hf) Hb) as Hu.
  assert (Hs : 0 <= BLOCK_ST_BAD < 4) by (unfold BLOCK_ST_BAD; lia).
  eapply runs_mono; [apply (runs_put_state w i ba BLOCK_ST_BAD Hi Hu (proj1 Hb) Hs)|].
  intros r w' (l & c & -> & El & Hl). exists (set_state l c i), (data_buf (bmtd w)).
  split; [cbn; by rewrite set_data_same|]. split; [done|].
  assert (Hw : worse sound (block_state i) l).
  { split; [done|]. intros x Hx. rewrite Hl by done. destruct (Z.eqb_spec x ba) as [->|]; [right|by left]. by split. }
  split; [|by exists l, c]. split; try done. intros g (Hm & Hle & _). split; [done|]. cbn.
  unfold goods_of in *. cbn. destruct (worse_goods sound (block_count (config i)) _ _ Hw) as [_ Hlt].
  assert (Hlt' : (goods (block_count (config i)) l < goods (block_count (config i)) (block_state i))%nat); [|lia].
  apply Hlt. exists ba. split; [lia|]. split; [done|]. unfold is_good. by rewrite Hl, Z.eqb_refl by lia.
Qed.

(** Only a block that is marked and not in [sound] is turned down. *)
Lemma manages_usable i ba :
  fixed_ok i -> 0 <= ba < block_count (config i) ->
  manages i (usable ba) (fun r i' => only_state i i' /\ (r = true -> i' = i /\ is_good (block_state i) ba) /\
    (sound ba -> is_good (block_state i) ba -> r = true)).
Proof.
  intros Hf Hb. destruct (state_some _ _ _ (fx_covers _ Hf) Hb) as [s Hs]. unfold usable, nmbm_get_block_state.
  eapply manages_bind with (Q := fun r i' => i' = i /\ r = s).
  { apply manages_instance. rewrite Hs. by apply manages_ret. }
  intros r i0 _ [-> ->]. destruct (Z.eqb_spec s BLOCK_ST_GOOD) as [->|Hne]; cbn [negb].
  2:{ apply manages_ret. split; [apply only_state_refl|]. split; [done|]. intros _ G. unfold is_good in G. congruence. }
  eapply manages_bind.
  { apply (manages_chip _ _ (fun _ => False) (fun r => r = true -> ~ sound ba)); [done|]. intros w Hi Hp.
    unfold nmbm_check_bad_phys_block. apply runs_bind, runs_desc, runs_bind, runs_call.
    pose proof (fx_limit _ Hf). rewrite ba2addr_mul by (try apply Hp; lia).
    pose proof (frame_isbad (nand w) (ba * bsize)) as Hfr. pose proof (sound_marks (nand w) ba) as Hsm.
    destruct (_block_isbad _ _) as [ret n]. cbn [fst snd] in *. apply runs_ret. split.
    - apply chip_step_nand. intros b _. apply Hfr.
    - intros Hr Hso. by rewrite Hsm in Hr. }
  intros bad i0 _ [-> Hbad]. destruct bad.
  - eapply manages_bind; [apply manages_set_bad; auto|]. intros r i1 St1 Ho. apply manages_ret.
    split; [done|]. split; [done|]. intros Hso _. by destruct Hbad.
  - apply manages_ret. split; [apply only_state_refl|]. done.
Qed.

Lemma manages_spoil i ba :
  fixed_ok i -> mgmt_start_ba i <= ba < mapping_blocks_top_ba i -> is_good (block_state i) ba -> ~ sound ba ->
  manages i (spoil ba) (fun _ i' => only_state i i').
Proof.
  intros Hf Hb Hg Hns. pose proof (fx_top _ Hf). pose proof (fx_start _ Hf). pose proof (fx_count _ Hf). unfold spoil.
  eapply manages_bind.
  { apply (manages_chip _ _ (eq ba) (fun _ => True)); [by intros b <-|]. intros w Hi Hp.
    unfold nmbm_mark_phys_bad_block. apply runs_bind, runs_desc, runs_call. pose proof (fx_limit _ Hf).
    rewrite ba2addr_mul by (try apply Hp; lia). split; [|done]. apply chip_step_nand. intros b Hb'.
    apply frame_markbad; [lia|congruence]. }
  intros r i0 _ [-> _]. eapply manages_bind; [apply manages_set_bad; auto; lia|]. intros r2 i1 _ Ho. by apply manages_ret.
Qed.

Lemma manages_write_block i ba chunk :
  fixed_ok i -> mgmt_start_ba i <= ba < mapping_blocks_top_ba i -> Z.of_nat (length chunk) <= bsize ->
  manages i (write_block ba chunk) (fun r i' => i' = i /\ (sound ba -> r = true)).
Proof.
  intros Hf Hb Hl. pose proof (fx_top _ Hf). pose proof (fx_start _ Hf). pose proof (fx_count _ Hf). pose proof (fx_limit _ Hf).
  apply (manages_chip _ _ (eq ba) (fun r => sound ba -> r = true)); [by intros b <-|]. intros w Hi Hp.
  apply runs_both; [eapply runs_write_block; try done; lia|]. intros Hs.
  eapply sound_write; try done; [apply (fx_raw _ Hf)|lia..].
Qed.

Lemma manages_erase i ba :
  fixed_ok i -> mgmt_start_ba i <= ba < mapping_blocks_top_ba i ->
  manages i (nmbm_erase_block_and_check ba) (fun r i' => i' = i /\ (sound ba -> r = true)).
Proof.
  intros Hf Hb. pose proof (fx_top _ Hf). pose proof (fx_start _ Hf). pose proof (fx_count _ Hf). pose proof (fx_limit _ Hf).
  apply (manages_chip _ _ (eq ba) (fun r => sound ba -> r = true)); [by intros b <-|]. intros w Hi Hp.
  apply runs_both; [eapply runs_erase_block; try done; lia|]. intros Hs. eapply sound_erase; try done; lia.
Qed.

Lemma manages_erase_range i n ba :
  fixed_ok i -> mgmt_start_ba i <= ba -> ba + Z.of_nat n <= mapping_blocks_top_ba i ->
  manages i (erase_range n ba) (fun _ i' => only_state i i').
Proof.
  revert i ba. induction n as [|n IH]; intros i ba Hf Hb Hn; cbn [erase_range]; [apply manages_ret, only_state_refl|].
  pose proof (fx_top _ Hf). pose proof (fx_start _ Hf).
  eapply manages_bind; [apply manages_usable; [done|lia]|]. intros ok i1 St1 (O1 & Hok & _).
  assert (Hf1 : fixed_ok i1) by by eapply fixed_stays.
  eapply manages_bind with (Q := fun _ i' => only_state i1 i').
  { destruct ok; [|apply manages_ret, only_state_refl]. destruct (Hok eq_refl) as [-> G].
    eapply manages_bind; [apply manages_erase; [done|lia]|]. intros r i2 _ [-> Hr].
    destruct r; [apply manages_ret, only_state_refl|]. apply manages_spoil; [done|lia|done|]. intros Hs. by specialize (Hr Hs). }
  intros [] i2 St2 O2. eapply manages_mono; [apply IH|].
  - by eapply fixed_stays.
  - rewrite (st_start _ _ St2), (st_start _ _ St1). lia.
  - rewrite (st_top _ _ St2), (st_top _ _ St1). lia.
  - intros [] i3 _ O3. by eapply only_state_trans, only_state_trans.
Qed.

(** Where the data was written, if it was. *)
Definition placed (lo hi : Z) (r : option (Z * Z)) : Prop :=
  match r with Some (s, x) => lo <= s < x /\ x <= hi | None => True end.

Lemma manages_write_mgmt i n ba ptr start lo :
  fixed_ok i -> mgmt_start_ba i <= lo <= ba -> ba + Z.of_nat n <= mapping_blocks_top_ba i ->
  match start with Some s => lo <= s < ba | None => ptr <> [] end ->
  manages i (write_mgmt n ba ptr start) (fun r i' => only_state i i' /\ placed lo (ba + Z.of_nat n) r).
Proof.
  revert i ba ptr start. induction n as [|n IH]; intros i ba ptr start Hf Hb Hn Hs.
  { destruct ptr as [|x ptr]; cbn [write_mgmt]; [|apply manages_ret; split; [apply only_state_refl|done]].
    destruct start as [s|]; [|done]. apply manages_ret. split; [apply only_state_refl|]. cbn. lia. }
  destruct ptr as [|x ptr]; cbn [write_mgmt].
  { destruct start as [s|]; [|done]. apply manages_ret. split; [apply only_state_refl|]. cbn [placed]. lia. }
  set (p := x :: ptr) in *. pose proof (fx_top _ Hf). pose proof (fx_start _ Hf).
  apply manages_desc. intros d Hp. set (chunk := take _ p).
  eapply manages_bind; [apply manages_usable; [done|lia]|]. intros ok i1 St1 (O1 & Hok & _).
  assert (Hf1 : fixed_ok i1) by by eapply fixed_stays.
  assert (Hnext : forall i2 ptr start, stays i1 i2 -> only_state i1 i2 ->
    match start with Some s => lo <= s < ba + 1 | None => ptr <> [] end ->
    manages i2 (write_mgmt n (ba + 1) ptr start) (fun r i' => only_state i i' /\ placed lo (ba + Z.of_nat (S n)) r)).
  { intros i2 ptr2 start2 St2 O2 Hs2. eapply manages_mono; [apply IH|].
    - by eapply fixed_stays.
    - rewrite (st_start _ _ St2), (st_start _ _ St1). lia.
    - rewrite (st_top _ _ St2), (st_top _ _ St1). lia.
    - done.
    - intros r i3 _ [O3 Hr]. split; [by eapply only_state_trans, only_state_trans|].
      by replace (ba + Z.of_nat (S n)) with (ba + 1 + Z.of_nat n) by lia. }
  assert (Hkeep : match start with Some s => lo <= s < ba + 1 | None => p <> [] end) by (destruct start; [lia|done]).
  destruct ok; cbn [negb]; [|apply Hnext; [apply stays_refl|apply only_state_refl|exact Hkeep]].
  destruct (Hok eq_refl) as [-> G].
  eapply manages_bind; [apply manages_write_block; [done|lia|]|].
  { unfold chunk. rewrite length_take, (g_blk _ (p_geometry _ Hp)). pose proof (bsize_pos _ (p_geometry _ Hp)). lia. }
  intros success i2 _ [-> Hr]. destruct success.
  - apply Hnext; [apply stays_refl|apply only_state_refl|]. destruct start; lia.
  - eapply manages_bind; [apply manages_spoil; [done|lia|done|]|].
    + intros Hs'. by specialize (Hr Hs').
    + intros [] i2 St2 O2. by apply Hnext.
Qed.
End Manage.
