(* ===== verification/NmbmProofs.v ===== *)
(** * The tables of the managed mapping

    Updating the tables ends, whatever the chip answers, and touches nothing but the
    management area below the spare blocks in use. The search for a spare block is followed
    to where it gives away one twice. *)

From Stdlib Require Import ZArith Lia.
From stdpp Require Import base list numbers option.
From S2P Require Import Prelude Bmt BmtDevice Nmbm NmbmFacts.

Section Tables.
Context {N : Type} `{ChipFrame N} (e : endian) (crc32_le : Z -> list Z -> Z) (sound : Z -> Prop).
Hypothesis sound_marks : forall (n : N) b, sound b -> (_block_isbad (b * bsize) n).1 = 0.
Hypothesis sound_erase : forall (w : bmt_world N) i b,
  sound b -> inst w i -> pages (bmtd w) -> 0 <= b < chip_blocks -> b <= 65536 ->
  runs (nmbm_erase_block_and_check b) w (fun r _ => r = true).
Hypothesis sound_write : forall (w : bmt_world N) i b chunk,
  sound b -> inst w i -> pages (bmtd w) -> psize <= rawpage_size (config i) -> 0 <= b < chip_blocks -> b <= 65536 ->
  Z.of_nat (length chunk) <= bsize -> runs (write_block b chunk) w (fun r _ => r = true).

#[local] Abbreviation manages := (manages sound).
#[local] Abbreviation stays := (stays sound).

(** The main table is in front of the backup table, both are in the management area, and
    spare blocks are behind them. *)
Record areas (i : nmbm_instance) : Prop := {
  a_mapping : mgmt_start_ba i <= mapping_blocks_ba i <= mapping_blocks_top_ba i;
  a_main : main_table_ba i = 0 \/ mgmt_start_ba i <= main_table_ba i <= mapping_blocks_ba i;
  a_backup : backup_table_ba i = 0 \/
    (mgmt_start_ba i <= backup_table_ba i <= mapping_blocks_ba i /\ main_table_ba i <= backup_table_ba i)
}.

Definition same_areas (i i' : nmbm_instance) : Prop :=
  main_table_ba i' = main_table_ba i /\ backup_table_ba i' = backup_table_ba i /\
  mapping_blocks_ba i' = mapping_blocks_ba i /\ protected i' = protected i.

Lemma same_areas_state i i' : only_state i i' -> same_areas i i'.
Proof. by intros (l & c & ->). Qed.

Lemma same_areas_areas i i' : stays i i' -> same_areas i i' -> areas i -> areas i'.
Proof. intros [] (E1 & E2 & E3 & _) []. split; by rewrite ?E1, ?E2, ?E3, ?st_start, ?st_top. Qed.

Lemma stays_goods i i' g : stays i i' -> (goods_of i <= g)%nat -> (goods_of i' <= g)%nat.
Proof.
  intros Hs Hg. pose proof (worse_goods _ (block_count (config i)) _ _ (st_worse _ _ _ Hs)) as [Hw _].
  unfold goods_of in *. rewrite (st_config _ _ _ Hs). lia.
Qed.

(** Fields that [stays] does not speak of. *)
Ltac stays_same := split; try done; apply worse_refl.

(** ** The cache *)

Definition dirty (i : nmbm_instance) : bool := negb (block_state_changed i =? 0) || negb (block_mapping_changed i =? 0).

Lemma manages_put_cached i off bs :
  0 <= off -> off + Z.of_nat (length bs) <= Z.of_nat (length (info_table_cache i)) ->
  manages i (put_cached off bs) (fun _ i' => i' = set_cache (Prelude.write (Z.to_nat off) bs (info_table_cache i)) i).
Proof.
  intros Ho Hl. unfold put_cached. apply manages_instance.
  destruct (Z.leb_spec (Z.of_nat (length bs) + off) (Z.of_nat (length (info_table_cache i)))); [|lia].
  apply manages_change; [|done]. split; try done; [|apply worse_refl]. cbn. apply length_write. lia.
Qed.

Lemma length_array_bytes l : length (array_bytes e l) = (4 * length l)%nat.
Proof. unfold array_bytes. induction l as [|x l IH]; [done|]. cbn [mbind list_bind length]. rewrite length_app, store_length, IH. lia. Qed.

Lemma length_info_table_bytes t : length (info_table_bytes e t) = 32%nat.
Proof. unfold info_table_bytes, header_bytes. rewrite !length_app, !store_length. done. Qed.

Lemma length_update_checksum l : (16 <= length l)%nat -> length (nmbm_update_checksum e crc32_le l) = length l.
Proof. intros Hl. unfold nmbm_update_checksum. rewrite !length_write; rewrite ?length_write; rewrite ?store_length; lia. Qed.

Definition next_table (i : nmbm_instance) : nmbm_info_table_header :=
  let t := info_table i in
  InfoTableHeader
    (NmbmHeader NMBM_MAGIC_INFO_TABLE NMBM_VER (info_table_size (config i)) (checksum (table_header t)))
    (if dirty i then u32 (write_count t + 1) else write_count t) (state_table_off t) (mapping_table_off t) (table_padding t).

(** The table in the cache, without its header. *)
Definition table_body (i : nmbm_instance) : list Z :=
  Prelude.write (Z.to_nat (mapping_table_off (info_table i)))
    (take (Z.to_nat (mapping_table_size (config i))) (array_bytes e (block_mapping i)))
    (Prelude.write (Z.to_nat (state_table_off (info_table i)))
      (take (Z.to_nat (state_table_size (config i))) (array_bytes e (block_state i)))
      (replicate (Z.to_nat (info_table_size (config i))) 255)).

Definition table_bytes (i : nmbm_instance) : list Z :=
  nmbm_update_checksum e crc32_le (Prelude.write 0 (info_table_bytes e (next_table i)) (table_body i)).

Lemma length_table_body i : fixed_ok i -> Z.of_nat (length (table_body i)) = info_table_size (config i).
Proof.
  intros Hf. destruct (fx_states _ Hf) as (S1 & S2 & S3), (fx_maps _ Hf) as (M1 & M2 & M3). pose proof (fx_header _ Hf).
  unfold table_body. rewrite !length_write; rewrite ?length_write; rewrite ?length_take, ?length_replicate; lia.
Qed.

Lemma length_table_bytes i : fixed_ok i -> Z.of_nat (length (table_bytes i)) = info_table_size (config i).
Proof.
  intros Hf. pose proof (length_table_body i Hf) as Hl. pose proof (fx_header _ Hf). unfold table_bytes.
  rewrite length_update_checksum; rewrite length_write; rewrite ?length_info_table_bytes; lia.
Qed.

Lemma manages_generate i : fixed_ok i ->
  manages i (nmbm_generate_info_table_cache e crc32_le) (fun r i' =>
    r = dirty i /\ i' = set_cache (table_bytes i) (set_info_table (next_table i) i)).
Proof.
  intros Hf. pose proof (length_table_body i Hf) as Hl. pose proof (length_table_bytes i Hf) as Hlt.
  destruct (fx_states _ Hf) as (S1 & S2 & S3), (fx_maps _ Hf) as (M1 & M2 & M3). pose proof (fx_header _ Hf).
  pose proof (fx_cache _ Hf) as Hc. unfold nmbm_generate_info_table_cache. apply manages_instance.
  eapply manages_bind with (Q := fun _ i' => i' = set_cache _ i); [apply manages_change; [|done]|].
  { split; try done; [|apply worse_refl]. cbn. rewrite length_replicate. lia. }
  intros [] i1 _ ->. eapply manages_bind; [apply manages_put_cached; [done|]|].
  { cbn. rewrite length_take, length_replicate. lia. }
  intros [] i1 _ ->. eapply manages_bind; [apply manages_put_cached; [done|]|].
  { cbn. rewrite length_write; rewrite ?length_take, ?length_replicate; lia. }
  intros [] i1 _ ->. eapply manages_bind with (Q := fun _ i' => i' = set_info_table (next_table i) _).
  { apply manages_change; [stays_same|reflexivity]. }
  intros [] i1 _ ->. eapply manages_bind; [apply manages_put_cached; [done|]|].
  { rewrite length_info_table_bytes. cbn. fold (table_body i). lia. }
  intros [] i1 _ ->. eapply manages_bind with (Q := fun _ i' => i' = set_cache (table_bytes i) (set_info_table (next_table i) i)).
  { apply manages_change; [|reflexivity]. split; try done; [|apply worse_refl].
    change (length (table_bytes i) = length (Prelude.write 0 (info_table_bytes e (next_table i)) (table_body i))).
    rewrite length_write; rewrite ?length_info_table_bytes; lia. }
  intros [] i1 _ ->. by apply manages_ret.
Qed.

(** ** Writing tables *)

Lemma manages_write_table i ba limit :
  fixed_ok i -> mgmt_start_ba i <= ba -> limit <= mapping_blocks_top_ba i ->
  manages i (nmbm_write_info_table ba limit) (fun r i' => only_state i i' /\ placed ba limit r).
Proof.
  intros Hf Hb Hl. unfold nmbm_write_info_table, nmbm_write_mgmt_range. apply manages_instance.
  pose proof (fx_cache _ Hf) as Hc. pose proof (fx_header _ Hf). set (data := take _ _).
  assert (Hd : data <> []).
  { intros E. apply (f_equal length) in E. unfold data in E. rewrite length_take in E. cbn in E. lia. }
  destruct (Z.le_gt_cases ba limit) as [Hbl|Hbl].
  - eapply manages_mono; [eapply (manages_write_mgmt _ sound_marks sound_write _ _ _ _ _ ba)|]; [done|lia|lia|done|].
    cbn. intros r i' _ [Ho Hr]. split; [done|]. by replace (ba + Z.of_nat (Z.to_nat (limit - ba))) with limit in Hr by lia.
  - replace (Z.to_nat (limit - ba)) with O by lia. destruct data; [done|]. cbn [write_mgmt]. apply manages_ret.
    split; [apply only_state_refl|done].
Qed.

Lemma manages_clean i g : (goods_of i <= g)%nat ->
  manages i nmbm_mark_tables_clean (fun _ i' => same_areas i i' /\ settled g i').
Proof.
  intros Hg. apply manages_change; [|split; [done|]].
  - split; try done; [apply worse_refl|]. intros g' (_ & Hle & _). split; [done|]. split; [done|by left].
  - split; [done|]. split; [done|by left].
Qed.

Lemma manages_walk_asc i n ba nblock :
  covers (block_count (config i)) (block_state i) -> 0 <= ba -> (n = O \/ ba + Z.of_nat n <= block_count (config i)) ->
  manages i (walk_asc n ba nblock) (fun r i' => i' = i /\ match r with Some x => ba <= x | None => True end).
Proof.
  revert ba nblock. induction n as [|n IH]; intros ba nblock Hc Hb Hn; cbn [walk_asc]; [by apply manages_ret|].
  destruct (state_some _ _ ba Hc) as [s Hs]; [lia|]. unfold nmbm_get_block_state.
  eapply manages_bind with (Q := fun r i' => i' = i /\ r = s); [apply manages_instance; rewrite Hs; by apply manages_ret|].
  intros r i1 _ [-> ->]. cbv zeta. generalize (if s =? BLOCK_ST_GOOD then nblock - 1 else nblock) as nb. intros nb. destruct (nb <? 0); [apply manages_ret; split; [done|lia]|].
  eapply manages_mono; [apply IH; [done|lia|right; lia]|]. intros [x|] i2 _ [-> Hx]; split; try done; lia.
Qed.

(** A reserve ends behind where it begins. *)
Lemma manages_reserve i ba : fixed_ok i -> 0 <= ba ->
  manages i (reserve_from ba) (fun r i' => i' = i /\ match r with Some x => ba <= x | None => True end).
Proof.
  intros Hf Hb. unfold reserve_from. apply manages_desc. intros d Hp. apply manages_instance.
  unfold nmbm_try_reserve_blocks. generalize (s32 (info_table_spare_blocks (config i))) (table_limit d i).
  intros nb limit. generalize (Z.to_nat (nb - 0 + 1)) as n. intros n. revert nb.
  induction n as [|n IH]; intros nb; cbn [reserve]; [by apply manages_ret|].
  eapply manages_bind.
  - unfold nmbm_block_walk, nmbm_block_walk_asc. apply manages_instance. apply manages_walk_asc; [apply (fx_covers _ Hf)|done|].
    pose proof (fx_count _ Hf). pose proof (fx_limit _ Hf). unfold clip. pose proof (wrap_range 32 limit).
    destruct (Z.leb_spec (block_count (config i)) (u32 limit)); [rewrite (wrap_small 32 (_ - 1)) by lia|];
      (destruct (Z.le_gt_cases ba (block_count (config i))); [right|left]); lia.
  - intros [x|] i1 _ [-> Hx]; [by apply manages_ret|apply IH].
Qed.

Lemma manages_write_back i n write_ba lo :
  fixed_ok i -> mgmt_start_ba i <= lo -> lo <= write_ba - Z.of_nat n + 1 ->
  manages i (write_back_to n write_ba) (fun r i' => only_state i i' /\ placed lo (mapping_blocks_top_ba i) r).
Proof.
  revert i write_ba. induction n as [|n IH]; intros i write_ba Hf Hs Hl; cbn [write_back_to].
  { apply manages_ret. split; [apply only_state_refl|done]. }
  apply manages_instance. eapply manages_bind; [apply manages_write_table; [done|lia|lia]|].
  intros [[s x]|] i1 St1 [O1 Hr]; [apply manages_ret; split; [done|cbn in *; lia]|].
  eapply manages_mono; [apply IH; [by eapply fixed_stays|rewrite (st_start _ _ _ St1); lia|lia]|].
  rewrite (st_top _ _ _ St1). intros r i2 _ [O2 Hr2]. split; [by eapply only_state_trans|done].
Qed.

Lemma manages_write_spare i write_ba floor :
  fixed_ok i -> mgmt_start_ba i <= floor -> floor <= write_ba ->
  manages i (write_spare write_ba floor) (fun r i' => only_state i i' /\ placed floor (mapping_blocks_top_ba i) r).
Proof. intros Hf Hs Hl. apply manages_write_back; [done|done|lia]. Qed.

Lemma manages_set (f : nmbm_instance -> nmbm_instance) i :
  (forall j, stays j (f j)) -> manages i (change_ni f) (fun _ i' => i' = f i).
Proof. intros Hs. by apply manages_change. Qed.

(** Not to be remembered in another form. *)
Lemma stays_main x j : stays j (set_main_table x j). Proof. stays_same. Qed.
Lemma stays_backup x j : stays j (set_backup_table x j). Proof. stays_same. Qed.
Lemma stays_mapping x j : stays j (set_mapping_blocks x j). Proof. stays_same. Qed.
Lemma stays_protected j : stays j (set_protected j). Proof. stays_same. Qed.
Hint Resolve stays_main stays_backup stays_mapping stays_protected : core.

(** What a function that updates the tables leaves. *)
Definition updates (g : nat) (r : bool) (i' : nmbm_instance) : Prop := areas i' /\ (r = true -> settled g i').

Lemma areas_intro i :
  mgmt_start_ba i <= mapping_blocks_ba i <= mapping_blocks_top_ba i ->
  (main_table_ba i = 0 \/ mgmt_start_ba i <= main_table_ba i <= mapping_blocks_ba i) ->
  (backup_table_ba i = 0 \/
    (mgmt_start_ba i <= backup_table_ba i <= mapping_blocks_ba i /\ main_table_ba i <= backup_table_ba i)) -> areas i.
Proof. by split. Qed.

(** The facts on the borders of the areas that the steps so far give. *)
Ltac borders :=
  repeat match goal with
  | S : NmbmFacts.stays _ _ _ |- _ => pose proof (st_start _ _ _ S); pose proof (st_top _ _ _ S); clear S
  | O : only_state _ _ |- _ => apply same_areas_state in O
  | O : same_areas _ _ |- _ => destruct O as (? & ? & ? & ?)
  | A : areas _ |- _ => destruct A
  end; cbn in *; lia.
Ltac by_borders := first [apply areas_intro; borders|borders].

Lemma manages_erase_between i lo hi :
  fixed_ok i -> mgmt_start_ba i <= lo -> hi <= mapping_blocks_top_ba i ->
  manages i (nmbm_erase_range lo hi) (fun _ i' => only_state i i').
Proof.
  intros Hf Hl Hh. unfold nmbm_erase_range. destruct (Z.le_gt_cases lo hi).
  - eapply manages_erase_range; try done. lia.
  - replace (Z.to_nat (hi - lo)) with O by lia. apply manages_ret, only_state_refl.
Qed.

(** A table was written; it is the backup table. *)
Lemma manages_new_backup i lo start_ba end_ba g :
  fixed_ok i -> areas i -> settled g i -> mgmt_start_ba i <= lo -> main_table_ba i <= start_ba ->
  placed (mgmt_start_ba i) (mapping_blocks_top_ba i) (Some (start_ba, end_ba)) ->
  manages i (change_ni (set_backup_table start_ba);; change_ni (set_mapping_blocks end_ba);;
    nmbm_erase_range lo start_ba;; mret true) (updates g).
Proof.
  intros Hf Ha Hg Hlo Hm Hp. cbn in Hp. eapply manages_bind; [apply manages_set; auto|]. intros [] i1 S1 E1.
  eapply manages_bind; [apply manages_set; auto|]. intros [] i2 S2 E2.
  assert (S02 : stays i i2) by by eapply stays_trans. assert (Hf2 : fixed_ok i2) by by eapply fixed_stays.
  eapply manages_bind; [apply manages_erase_between; [done|subst; cbn; lia..]|]. intros [] i3 S3 O3.
  apply manages_ret. split; [subst; by_borders|]. intros _. apply (st_settled _ _ _ S3), (st_settled _ _ _ S02), Hg.
Qed.

Lemma manages_rebuild i g : fixed_ok i -> (goods_of i <= g)%nat ->
  manages i nmbm_rebuild_info_table (updates g).
Proof.
  intros Hf Hg. pose proof (fx_start _ Hf). unfold nmbm_rebuild_info_table.
  eapply manages_bind; [apply manages_set; auto|]. intros [] i1 S1 E1.
  eapply manages_bind; [apply manages_set; auto|]. intros [] i2 S2 E2.
  eapply manages_bind; [apply (manages_set (fun i => set_mapping_blocks (mapping_blocks_top_ba i) i)); intros j; auto|].
  intros [] i3 S3 E3. assert (S03 : stays i i3) by (eapply stays_trans; [|exact S3]; by eapply stays_trans).
  assert (Hf3 : fixed_ok i3) by by eapply fixed_stays. clear S1 S2 S3.
  apply manages_instance. eapply manages_bind; [apply manages_write_table; [done|lia|lia]|].
  intros [[s x]|] i4 S4 [O4 Hr]; assert (Hf4 : fixed_ok i4) by by eapply fixed_stays.
  2:{ eapply manages_bind; [apply manages_set; auto|]. intros [] i5 S5 E5. apply manages_ret.
      split; [|done]. subst. by_borders. }
  assert (S04 : stays i i4) by by eapply stays_trans.
  eapply manages_bind; [apply manages_set; auto|]. intros [] i5 S5 E5.
  eapply manages_bind; [apply manages_set; auto|]. intros [] i6 S6 E6.
  assert (S06 : stays i i6) by (eapply stays_trans; [exact S04|]; by eapply stays_trans).
  eapply manages_bind; [apply (manages_clean i6 g); by eapply stays_goods|]. intros [] i7 S7 [A7 Hg7].
  assert (S07 : stays i i7) by by eapply stays_trans. assert (Hf7 : fixed_ok i7) by by eapply fixed_stays.
  assert (Ha7 : areas i7). { clear S5 S6 S04 S06. subst. by_borders. }
  assert (Hx : mgmt_start_ba i7 <= x /\ main_table_ba i7 <= x /\ 0 <= x). { clear S5 S6 S04 S06. subst. by_borders. }
  eapply manages_bind; [apply manages_reserve; [done|lia]|]. intros [nx|] i8 _ [-> Hnx].
  2:{ apply manages_ret. by split. }
  apply manages_instance. eapply manages_bind; [apply manages_write_table; [done|lia|lia]|].
  intros [[s2 x2]|] i9 S9 [O9 Hr9].
  2:{ apply manages_ret. split; [by eapply same_areas_areas, Ha7; [|apply same_areas_state]|]. intros _. by apply (st_settled _ _ _ S9). }
  assert (Ha9 : areas i9) by by eapply same_areas_areas, Ha7; [|apply same_areas_state].
  cbn in Hr9. apply manages_new_backup; [by eapply fixed_stays|done|by apply (st_settled _ _ _ S9)|..]; clear S5 S6 S04 S06 S07; by_borders.
Qed.

Lemma manages_use_backup i g : areas i -> settled g i -> manages i use_backup (updates g).
Proof.
  intros Ha Hg. unfold use_backup.
  eapply manages_bind; [apply (manages_set (fun i => set_main_table (backup_table_ba i) i)); intros j; auto|]. intros [] i1 S1 E1.
  eapply manages_bind; [apply manages_set; auto|]. intros [] i2 S2 E2. apply manages_ret.
  split; [subst; by_borders|]. intros _. apply (st_settled _ _ _ S2), (st_settled _ _ _ S1), Hg.
Qed.

Lemma manages_rescue_main i g : fixed_ok i -> areas i -> settled g i -> backup_table_ba i <> 0 ->
  manages i nmbm_rescue_main_info_table (updates g).
Proof.
  intros Hf Ha Hg Hb. pose proof (fx_start _ Hf). pose proof (a_mapping _ Ha). unfold nmbm_rescue_main_info_table.
  apply manages_instance. eapply manages_bind; [apply manages_reserve; [done|lia]|].
  intros [nx|] i1 _ [-> Hnx]; [|by apply manages_use_backup].
  eapply manages_bind; [apply manages_write_spare; [done|lia|done]|].
  intros [[ts te]|] i1 S1 [O1 Hr]; assert (Ha1 : areas i1) by by eapply same_areas_areas, Ha; [|apply same_areas_state].
  2:{ apply manages_use_backup; [done|by apply (st_settled _ _ _ S1)]. }
  cbn in Hr. eapply manages_bind; [apply manages_set; auto|]. intros [] i2 S2 E2.
  assert (S02 : stays i i2) by by eapply stays_trans. assert (Hf2 : fixed_ok i2) by by eapply fixed_stays.
  assert (Ha2 : areas i2) by (clear S2 S02; subst; by_borders).
  apply manages_instance. eapply manages_bind; [apply manages_write_table; [done|lia|clear Ha2; subst; by_borders]|].
  intros [[ms me]|] i3 S3 [O3 Hr3]; assert (S03 : stays i i3) by by eapply stays_trans.
  - cbn in Hr3. eapply manages_bind; [apply manages_set; auto|]. intros [] i4 S4 E4.
    assert (S04 : stays i i4) by by eapply stays_trans.
    eapply manages_bind; [apply (manages_clean i4 g); eapply stays_goods; [exact S04|apply Hg]|]. intros [] i5 S5 [A5 Hg5].
    destruct (Z.leb_spec me ts); [|lia].
    eapply manages_bind; [apply manages_set; auto|]. intros [] i6 S6 E6. apply manages_ret.
    split; [|intros _; by apply (st_settled _ _ _ S6)]. clear S04 S03 S02 S2 S4 S6. subst. by_borders.
  - eapply manages_bind; [apply manages_set; auto|]. intros [] i4 S4 E4.
    eapply manages_bind; [apply manages_set; auto|]. intros [] i5 S5 E5.
    assert (S05 : stays i i5) by (eapply stays_trans; [exact S03|]; by eapply stays_trans).
    eapply manages_bind; [apply (manages_clean i5 g); eapply stays_goods; [exact S05|apply Hg]|]. intros [] i6 S6 [A6 Hg6].
    apply manages_ret. split; [|done]. clear S05 S03 S02 S2 S4 S5. subst. by_borders.
Qed.

Lemma manages_write_main i limit g :
  fixed_ok i -> areas i -> (goods_of i <= g)%nat -> limit <= mapping_blocks_top_ba i ->
  (backup_table_ba i <> 0 -> settled g i /\ limit = backup_table_ba i) ->
  manages i (write_main_table limit) (updates g).
Proof.
  intros Hf Ha Hg Hl Hb. pose proof (fx_start _ Hf). unfold write_main_table. apply manages_instance.
  destruct (Z.eqb_spec (main_table_ba i) 0) as [E0|E0]; [by apply manages_rebuild|].
  pose proof (a_main _ Ha). eapply manages_bind; [apply manages_write_table; [done|lia|done]|].
  intros r i1 S1 [O1 Hr]. apply manages_instance. assert (Hf1 : fixed_ok i1) by by eapply fixed_stays.
  assert (Ha1 : areas i1) by by eapply same_areas_areas, Ha; [|apply same_areas_state].
  assert (Eb : backup_table_ba i1 = backup_table_ba i) by apply (same_areas_state _ _ O1). rewrite Eb.
  destruct r as [[s x]|].
  - cbn in Hr. eapply manages_bind; [apply manages_set; auto|]. intros [] i2 S2 E2.
    eapply manages_bind with (Q := fun _ i' => i' = if backup_table_ba i =? 0 then set_mapping_blocks x i2 else i2).
    { destruct (backup_table_ba i =? 0); [apply manages_set; auto|by apply manages_ret]. }
    intros [] i3 S3 E3. assert (S03 : stays i i3) by (eapply stays_trans; [exact S1|]; by eapply stays_trans).
    eapply manages_bind; [apply (manages_clean i3 g); by eapply stays_goods|]. intros [] i4 S4 [A4 Hg4].
    apply manages_ret. split; [|done]. clear S03 S2 S3. subst i2 i3.
    destruct (Z.eqb_spec (backup_table_ba i) 0) as [Z0|Z0]; [by_borders|]. destruct (Hb Z0) as [_ ->]. by_borders.
  - destruct (Z.eqb_spec (backup_table_ba i) 0) as [Z0|Z0]; [apply manages_rebuild; [done|by eapply stays_goods]|].
    apply manages_rescue_main; [done|done| |by rewrite Eb]. apply (st_settled _ _ _ S1). by apply Hb.
Qed.

Lemma manages_once i : fixed_ok i -> areas i -> dirty i = true ->
  manages i (nmbm_update_info_table_once e crc32_le false) (updates (goods_of i)).
Proof.
  intros Hf Ha Hd. unfold nmbm_update_info_table_once. eapply manages_bind; [by apply manages_generate|].
  intros r i1 S1 [-> E1]. rewrite Hd. cbn [negb andb]. assert (Hf1 : fixed_ok i1) by by eapply fixed_stays.
  assert (Ha1 : areas i1) by (eapply same_areas_areas; [exact S1|by subst|done]).
  assert (Hg1 : (goods_of i1 <= goods_of i)%nat) by by eapply stays_goods.
  clear E1. pose proof (fx_start _ Hf1). pose proof (a_mapping _ Ha1). apply manages_instance.
  destruct (Z.eqb_spec (backup_table_ba i1) 0) as [Z0|Z0]; [by apply manages_write_main|].
  pose proof (a_backup _ Ha1). eapply manages_bind; [apply manages_write_table; [done|lia|lia]|].
  intros [[s x]|] i2 S2 [O2 Hr]; assert (Hf2 : fixed_ok i2) by by eapply fixed_stays.
  - cbn in Hr. eapply manages_bind; [apply manages_set; auto|]. intros [] i3 S3 E3.
    eapply manages_bind; [apply manages_set; auto|]. intros [] i4 S4 E4.
    assert (S14 : stays i1 i4) by (eapply stays_trans; [exact S2|]; by eapply stays_trans).
    eapply manages_bind; [apply (manages_clean i4 (goods_of i)); by eapply stays_goods|]. intros [] i5 S5 [A5 Hg5].
    assert (S15 : stays i1 i5) by by eapply stays_trans.
    apply manages_write_main; [by eapply fixed_stays| |apply Hg5| |].
    + clear S15 S14 S3 S4. subst. by_borders.
    + clear S14 S3 S4. subst. by_borders.
    + intros _. split; [done|]. clear S14 S15 S3 S4. subst. by_borders.
  - eapply manages_bind; [apply (manages_set (fun i => set_mapping_blocks (backup_table_ba i) i)); intros j; auto|]. intros [] i3 S3 E3.
    eapply manages_bind; [apply manages_set; auto|]. intros [] i4 S4 E4.
    assert (S14 : stays i1 i4) by (eapply stays_trans; [exact S2|]; by eapply stays_trans).
    apply manages_write_main; [by eapply fixed_stays| |by eapply stays_goods| |].
    + clear S14 S3 S4. subst. by_borders.
    + clear S3 S4. rewrite (st_top _ _ _ S14). lia.
    + clear S14 S3 S4. subst. cbn. lia.
Qed.

Lemma manages_loop i n : fixed_ok i -> areas i -> (dirty i = false \/ (goods_of i < n)%nat) ->
  manages i (update_loop e crc32_le n) (fun r i' => areas i' /\ (r = true -> dirty i' = false)).
Proof.
  revert i. induction n as [|n IH]; intros i Hf Ha Hn; cbn [update_loop]; apply manages_instance;
    replace ((block_state_changed i =? 0) && (block_mapping_changed i =? 0)) with (negb (dirty i))
      by (unfold dirty; by rewrite negb_orb, !negb_involutive).
  - destruct Hn as [E|]; [|lia]. rewrite E. cbn [negb]. by apply manages_ret.
  - destruct (dirty i) eqn:Hd; cbn [negb]; [|by apply manages_ret].
    eapply manages_bind; [by apply manages_once|]. intros [] i1 S1 [Ha1 Hs]; [|by apply manages_ret].
    destruct (Hs eq_refl) as (Hm & Hle & Hc). apply IH; [by eapply fixed_stays|done|].
    destruct Hc as [Hc|Hc]; [left; unfold dirty; by rewrite Hm, Hc|right]. destruct Hn; [done|lia].
Qed.

(** Either no change is counted afterwards, or the result says so, or the tables are not
    kept any more. *)
Lemma manages_update i : fixed_ok i -> areas i ->
  manages i (nmbm_update_info_table e crc32_le) (fun r i' =>
    areas i' /\ (r = true -> protected i = true \/ dirty i' = false)).
Proof.
  intros Hf Ha. unfold nmbm_update_info_table. apply manages_instance. destruct (protected i) eqn:Ep.
  { apply manages_ret. split; [done|by left]. }
  eapply manages_mono; [apply manages_loop; [done|done|right]|].
  - pose proof (goods_le (block_count (config i)) (block_state i)). unfold goods_of. pose proof (fx_count _ Hf). lia.
  - intros r i' _ [Ha' Hr]. split; [done|]. intros E. right. by apply Hr.
Qed.
End Tables.

Section Ends.
Context {N : Type} `{ChipFrame N} (e : endian) (crc32_le : Z -> list Z -> Z).

(** C9. [nmbm_update_info_table] returns whatever the chip answers to any of its calls. It
    writes and erases nothing outside the management area in front of the spare blocks in
    use, leaves the mapping as it is, and makes blocks bad only that were good; the tables
    stay one behind the other. If it reports success, the instance was protected or no change is
    counted any more. *)
Theorem nmbm_update_info_table_ends (w : bmt_world N) i :
  inst w i -> pages (bmtd w) -> fixed_ok i -> areas i ->
  runs (nmbm_update_info_table e crc32_le) w (fun r w' => exists i',
    inst w' i' /\ fixed_ok i' /\ areas i' /\
    block_mapping i' = block_mapping i /\ mapping_blocks_top_ba i' = mapping_blocks_top_ba i /\
    (forall ba, 0 <= ba ->
      nmbm_get_block_state_raw (block_state i') ba = nmbm_get_block_state_raw (block_state i) ba \/
      nmbm_get_block_state_raw (block_state i) ba = Some BLOCK_ST_GOOD /\
      nmbm_get_block_state_raw (block_state i') ba = Some BLOCK_ST_BAD) /\
    (r = true -> protected i = true \/ block_state_changed i' = 0 /\ block_mapping_changed i' = 0) /\
    (forall b, ~ (mgmt_start_ba i <= b < mapping_blocks_top_ba i) -> content (nand w') b = content (nand w) b)).
Proof.
  intros Hi Hp Hf Ha. eapply runs_mono; [apply (manages_update e crc32_le (fun _ => False)); done|].
  intros r w' (i' & b & E & So & St & Ha' & Hr). exists i'. split; [unfold inst; by rewrite E|].
  split; [by eapply fixed_stays|]. split; [done|]. split; [apply St|]. split; [apply St|].
  split; [|split; [|exact So]].
  - intros ba Hb. destruct (st_worse _ _ _ St) as [_ W]. destruct (W ba Hb) as [->|(G & B & _)]; [by left|by right].
  - intros E1. destruct (Hr E1) as [|Hd]; [by left|right]. unfold dirty in Hd.
    apply orb_false_elim in Hd as [D1 D2]. apply negb_false_iff in D1, D2. lia.
Qed.
End Ends.

(** ** Spare blocks *)

Section Mapping.
Context {N : Type} `{Nand N} (e : endian) (crc32_le : Z -> list Z -> Z).
Implicit Types (w : bmt_world N).

(** The next good block below [ba], [k] blocks away. *)
Definition good_below (i : nmbm_instance) (ba : Z) (k : nat) : Prop :=
  is_good (block_state i) (ba - Z.of_nat k) /\
  forall j, (j < k)%nat -> exists s, nmbm_get_block_state_raw (block_state i) (ba - Z.of_nat j) = Some s /\ s <> BLOCK_ST_GOOD.

Lemma runs_get_state w i ba s : inst w i -> nmbm_get_block_state_raw (block_state i) ba = Some s ->
  runs (nmbm_get_block_state ba) w (fun r w' => r = s /\ w' = w).
Proof. intros Hi Hs. unfold nmbm_get_block_state. apply runs_bind. eapply runs_instance; [done|]. rewrite Hs. by apply runs_defined. Qed.

Lemma runs_walk_desc w i n ba k : inst w i -> good_below i ba k -> (k < n)%nat ->
  runs (walk_desc n ba 0) w (fun r w' => r = Some (ba - Z.of_nat k) /\ w' = w).
Proof.
  intros Hi. revert ba k. induction n as [|n IH]; intros ba k [Hg Hb] Hn; [lia|]. cbn [walk_desc]. destruct k as [|k].
  - rewrite Z.sub_0_r in Hg. eapply runs_step; [by eapply runs_get_state|]. intros r w1 [-> ->]. apply runs_ret.
    by rewrite Z.sub_0_r.
  - destruct (Hb O ltac:(lia)) as (s & Hs & Hne). rewrite Z.sub_0_r in Hs.
    eapply runs_step; [by eapply runs_get_state|]. intros r w1 [-> ->]. destruct (Z.eqb_spec s BLOCK_ST_GOOD); [done|].
    change (0 <? 0) with false. cbv iota zeta.
    eapply runs_mono; [apply (IH (ba - 1) k)|].
    + split; [by replace (ba - 1 - Z.of_nat k) with (ba - Z.of_nat (S k)) by lia|]. intros j Hj.
      replace (ba - 1 - Z.of_nat j) with (ba - Z.of_nat (S j)) by lia. apply Hb. lia.
    + lia.
    + intros r w1 [-> ->]. split; [|done]. f_equal. lia.
Qed.

(** The instance with a block mapped. *)
Definition with_block (lb pb : Z) (i : nmbm_instance) : nmbm_instance :=
  set_mapping (<[Z.to_nat lb := pb]> (block_mapping i)) (u32 (block_mapping_changed i + 1))
    (set_mapping_top (u32 (mapping_blocks_top_ba i - 1)) i).

Lemma runs_map_block w i lb k :
  inst w i -> 0 <= mapping_blocks_ba i -> mapping_blocks_top_ba i < block_count (config i) <= 65536 ->
  mapping_blocks_ba i < mapping_blocks_top_ba i - Z.of_nat k -> good_below i (mapping_blocks_top_ba i) k ->
  0 <= lb < Z.of_nat (length (block_mapping i)) ->
  runs (nmbm_map_block e crc32_le lb) w (fun r w' =>
    r = true /\ w' = BmtWorld (set_ni (Some (with_block lb (mapping_blocks_top_ba i - Z.of_nat k) i)) (bmtd w)) (nand w)).
Proof.
  intros Hi H0 Ht Hk Hg Hl. unfold nmbm_map_block. apply runs_bind. eapply runs_instance; [done|].
  destruct (Z.eqb_spec (mapping_blocks_ba i) (mapping_blocks_top_ba i)); [lia|].
  eapply runs_step with (Q := fun r w' => r = Some (mapping_blocks_top_ba i - Z.of_nat k) /\ w' = w).
  { unfold nmbm_block_walk, nmbm_block_walk_desc. apply runs_bind. eapply runs_instance; [done|].
    rewrite s32_small by lia. rewrite !(wrap_small 32) by lia. unfold clip.
    destruct (Z.leb_spec (block_count (config i)) (mapping_blocks_ba i)); [lia|].
    change (s32 0) with 0. apply (runs_walk_desc _ i); [done|done|lia]. }
  intros r w1 [-> ->]. apply runs_bind. unfold put_mapping. apply runs_bind. eapply runs_instance; [done|].
  destruct (Z.leb_spec 0 lb); [|lia]. destruct (Z.ltb_spec lb (Z.of_nat (length (block_mapping i)))); [|lia]. cbn [andb].
  eapply runs_change_ni; [done|]. apply runs_bind. eapply runs_change_ni; [reflexivity|].
  apply runs_bind. eapply runs_change_ni; [reflexivity|]. by apply runs_ret.
Qed.

(** C27. When the topmost spare block is bad and the one below it good, two blocks that are
    mapped one after the other both get that one: [nmbm_map_block] lowers the top by one, which
    need not be behind the block it gave away. *)
Theorem nmbm_map_block_twice w i a b s :
  inst w i -> 0 <= mapping_blocks_ba i -> mapping_blocks_ba i + 1 < mapping_blocks_top_ba i ->
  mapping_blocks_top_ba i < block_count (config i) <= 65536 ->
  nmbm_get_block_state_raw (block_state i) (mapping_blocks_top_ba i) = Some s -> s <> BLOCK_ST_GOOD ->
  nmbm_get_block_state_raw (block_state i) (mapping_blocks_top_ba i - 1) = Some BLOCK_ST_GOOD ->
  a <> b -> 0 <= a < Z.of_nat (length (block_mapping i)) -> 0 <= b < Z.of_nat (length (block_mapping i)) ->
  runs (ra ← nmbm_map_block e crc32_le a; rb ← nmbm_map_block e crc32_le b; mret (ra, rb)) w (fun r w' =>
    r = (true, true) /\ exists i', inst w' i' /\
      block_mapping i' !! Z.to_nat a = Some (mapping_blocks_top_ba i - 1) /\
      block_mapping i' !! Z.to_nat b = Some (mapping_blocks_top_ba i - 1)).
Proof.
  intros Hi H0 Ht Hc Hs Hne Hg Hab Ha Hb. set (top := mapping_blocks_top_ba i) in *.
  eapply runs_step; [apply (runs_map_block w i a 1); try done; [fold top; lia|]|].
  { split; [exact Hg|]. intros j Hj. assert (j = O) as -> by lia. exists s. by rewrite Z.sub_0_r. }
  intros r w1 [-> ->]. set (i1 := with_block a (top - Z.of_nat 1) i).
  assert (Et : mapping_blocks_top_ba i1 = top - 1) by (cbn; apply wrap_small; lia).
  eapply runs_step; [apply (runs_map_block _ i1 b 0); rewrite ?Et; try done; try (cbn; rewrite ?length_insert; fold top; lia)|].
  { split; [|intros j Hj; lia]. cbn. rewrite Z.sub_0_r. exact Hg. }
  intros r w2 [-> ->]. apply runs_ret. split; [done|]. exists (with_block b (mapping_blocks_top_ba i1 - Z.of_nat 0) i1).
  split; [done|]. rewrite Et. cbn. rewrite Z.sub_0_r.
  assert (Z.to_nat a <> Z.to_nat b) by lia. split.
  - rewrite list_lookup_insert_ne by done. apply list_lookup_insert_eq. lia.
  - apply list_lookup_insert_eq. rewrite length_insert. lia.
Qed.
End Mapping.
