(* ===== verification/NmbmDevice.v ===== *)
(** * The managed mapping makes a device

    With a good management area: what is written to a block is there, a table that was
    written is found and loaded, and the backend of [Nmbm] is what [BmtDevice] expects of
    one. *)

From Stdlib Require Import ZArith Lia.
From stdpp Require Import base list numbers option.
From S2P Require Import Prelude Bmt BmtDevice Nmbm NmbmFacts NmbmProofs.

(** The CRC of some bytes goes on from that of those in front of them. *)
Class Crc32Laws (crc32_le : Z -> list Z -> Z) := {
  crc_app : forall c l1 l2, crc32_le c (l1 ++ l2) = crc32_le (crc32_le c l1) l2;
  crc_range : forall c l, 0 <= c < 2 ^ 32 -> bytes_ok l -> 0 <= crc32_le c l < 2 ^ 32
}.

(** ** The bytes of a table *)

Section Bytes.
Context (e : endian) (crc32_le : Z -> list Z -> Z) `{!Crc32Laws crc32_le}.

Lemma word_store off a v t : length a = off -> word e off (a ++ store e 4 v ++ t) = u32 v.
Proof.
  intros <-. unfold word, slice. rewrite drop_app_length, take_app_length' by (by rewrite store_length).
  by rewrite load_store.
Qed.

Lemma length_header_bytes h : length (header_bytes e h) = 16%nat.
Proof. unfold header_bytes. by rewrite !length_app, !store_length. Qed.

Lemma header_bytes_ok h : bytes_ok (header_bytes e h).
Proof. unfold header_bytes. repeat (apply Forall_app; split); apply store_ok. Qed.

Definition is_u32 (z : Z) : Prop := 0 <= z < 2 ^ 32.

Record header_ok (h : nmbm_header) : Prop := {
  h_magic : is_u32 (magic h); h_version : is_u32 (version h); h_size : is_u32 (header_size h); h_sum : is_u32 (checksum h)
}.

Lemma header_of_bytes h t : header_ok h -> header_of e (header_bytes e h ++ t) = h.
Proof.
  intros []. unfold header_of, header_bytes. rewrite <- !app_assoc.
  pose proof (word_store 0 [] (magic h)) as E0. cbn [app] in E0. rewrite E0 by done. rewrite (word_store 4 (store e 4 _)) by (by rewrite store_length).
  rewrite (app_assoc (store e 4 (magic h)) (store e 4 (version h))).
  rewrite (word_store 8) by (by rewrite length_app, !store_length).
  rewrite (app_assoc (_ ++ _) (store e 4 (header_size h))).
  rewrite (word_store 12) by (by rewrite !length_app, !store_length). rewrite !wrap_small by done. by destruct h.
Qed.

Definition with_sum (c : Z) (h : nmbm_header) : nmbm_header := NmbmHeader (magic h) (version h) (header_size h) c.

Lemma write_sum h c t : Prelude.write 12 (store e 4 c) (header_bytes e h ++ t) = header_bytes e (with_sum c h) ++ t.
Proof.
  unfold Prelude.write, header_bytes. cbn [magic version header_size checksum with_sum]. rewrite store_length.
  set (a := store e 4 (magic h)). set (b := store e 4 (version h)). set (z := store e 4 (header_size h)).
  assert (Hl : length (a ++ b ++ z) = 12%nat) by (unfold a, b, z; by rewrite !length_app, !store_length).
  replace ((a ++ b ++ z ++ store e 4 (checksum h)) ++ t) with ((a ++ b ++ z) ++ store e 4 (checksum h) ++ t)
    by (by rewrite <- !app_assoc).
  rewrite take_app_length' by done. rewrite drop_app_ge by lia. rewrite Hl. rewrite drop_app_length' by (by rewrite store_length).
  by rewrite <- !app_assoc.
Qed.

Lemma crc_some l : l <> [] -> nmbm_crc32 crc32_le 0 l = crc32_le 0 l.
Proof. by destruct l. Qed.

(** What [nmbm_update_checksum] puts in is what [nmbm_check_header] expects. *)
Lemma check_update h t :
  header_ok h -> bytes_ok t -> header_size h = 16 + Z.of_nat (length t) ->
  exists c, is_u32 c /\ nmbm_update_checksum e crc32_le (header_bytes e h ++ t) = header_bytes e (with_sum c h) ++ t /\
    nmbm_check_header e crc32_le (header_bytes e (with_sum c h) ++ t) (header_size h) = true.
Proof.
  intros Hh Ht Hz. set (h0 := with_sum 0 h). set (c := crc32_le 0 (header_bytes e h0 ++ t)).
  assert (Hc : is_u32 c). { apply crc_range; [lia|]. apply Forall_app. split; [apply header_bytes_ok|done]. }
  assert (Hh0 : header_ok h0) by (destruct Hh; by split). assert (Hhc : header_ok (with_sum c h)) by (destruct Hh; by split).
  exists c. split; [done|]. split.
  - unfold nmbm_update_checksum. cbv zeta. rewrite write_sum, header_of_bytes by done. cbn [header_size with_sum].
    rewrite (take_ge (_ ++ _)) by (rewrite length_app, length_header_bytes; cbn; lia). rewrite write_sum.
    rewrite crc_some; [done|]. intros E. apply (f_equal length) in E. rewrite length_app, length_header_bytes in E. done.
  - unfold nmbm_check_header. rewrite header_of_bytes by done. cbv zeta. cbn [header_size checksum magic version with_sum].
    rewrite Z.ltb_irrefl. apply Z.eqb_eq. fold (with_sum 0 h). fold h0. unfold c. rewrite crc_app. unfold header_length.
    assert (Hn : nmbm_crc32 crc32_le 0 (header_bytes e h0) = crc32_le 0 (header_bytes e h0)).
    { apply crc_some. intros E. apply (f_equal length) in E. by rewrite length_header_bytes in E. }
    rewrite Hn. destruct (Z.ltb_spec 16 (header_size h)).
    + unfold slice. rewrite drop_app_length' by (by rewrite length_header_bytes). rewrite take_ge by lia. destruct t; [cbn in Hz; lia|done].
    + assert (t = []) as -> by (apply nil_length_inv; lia). rewrite <- crc_app. by rewrite app_nil_r.
Qed.

(** Arrays of numbers. *)
Lemma words_array l : words e (length l) (array_bytes e l) = u32 <$> l.
Proof.
  induction l as [|x l IH]; [done|]. unfold array_bytes in *. cbn [length words mbind list_bind fmap list_fmap].
  pose proof (word_store 0 [] x (l ≫= store e 4)) as E. cbn [app] in E. rewrite E by done. f_equal.
  rewrite drop_app_length' by (by rewrite store_length). exact IH.
Qed.

Lemma words_states l : Forall is_u32 l -> words e (length l) (array_bytes e l) = l.
Proof.
  intros Hl. rewrite words_array. induction Hl as [|x l Hx _ IH]; [done|]. cbn [fmap list_fmap].
  unfold is_u32 in Hx. by rewrite wrap_small, IH.
Qed.

Definition is_s32 (z : Z) : Prop := - 2 ^ 31 <= z < 2 ^ 31.

Lemma s32_u32 z : is_s32 z -> s32 (u32 z) = z.
Proof.
  intros Hz. unfold is_s32 in Hz. unfold swrap, wrap. rewrite Zplus_mod_idemp_l. rewrite Z.mod_small; lia.
Qed.

Lemma array_bytes_ok l : bytes_ok (array_bytes e l).
Proof. induction l as [|x l IH]; [done|]. apply Forall_app. split; [apply store_ok|exact IH]. Qed.

(** The tables are laid out one behind the other, and the numbers in them fit. *)
Record table_fits (i : nmbm_instance) : Prop := {
  tf_order : 32 <= state_table_off (info_table i) /\
    state_table_off (info_table i) + state_table_size (config i) <= mapping_table_off (info_table i) /\
    mapping_table_off (info_table i) + mapping_table_size (config i) <= info_table_size (config i);
  tf_limit : info_table_size (config i) < 2 ^ 32;
  tf_states : state_table_size (config i) = 4 * Z.of_nat (length (block_state i));
  tf_mapping : mapping_table_size (config i) = 4 * Z.of_nat (length (block_mapping i));
  tf_u32 : Forall is_u32 (block_state i);
  tf_s32 : Forall is_s32 (block_mapping i);
  tf_count : is_u32 (write_count (info_table i));
  tf_sum : is_u32 (checksum (table_header (info_table i)));
  tf_padding : is_u32 (table_padding (info_table i))
}.

Context (i : nmbm_instance) (Hf : table_fits i).

Lemma body_length : Z.of_nat (length (table_body e i)) = info_table_size (config i).
Proof.
  destruct (tf_order i Hf) as (O1 & O2 & O3). pose proof (tf_states i Hf). pose proof (tf_mapping i Hf).
  unfold table_body. rewrite !length_write; rewrite ?length_write; rewrite ?length_take, ?length_array_bytes, ?length_replicate; lia.
Qed.

Lemma body_ok : bytes_ok (table_body e i).
Proof.
  unfold table_body. apply bytes_ok_write; [apply Forall_take, array_bytes_ok|].
  apply bytes_ok_write; [apply Forall_take, array_bytes_ok|]. apply Forall_replicate. by unfold is_byte.
Qed.

Lemma body_states : slice (Z.to_nat (state_table_off (info_table i))) (Z.to_nat (state_table_size (config i))) (table_body e i) =
  array_bytes e (block_state i).
Proof.
  destruct (tf_order i Hf) as (O1 & O2 & O3). pose proof (tf_states i Hf). pose proof (tf_mapping i Hf). unfold table_body.
  rewrite !(take_ge (array_bytes e _)) by (rewrite length_array_bytes; lia).
  rewrite slice_write_ne; [|rewrite length_write; rewrite ?length_array_bytes, ?length_replicate; lia|lia].
  replace (Z.to_nat (state_table_size (config i))) with (length (array_bytes e (block_state i))) by (rewrite length_array_bytes; lia).
  apply slice_write_eq. rewrite length_replicate. lia.
Qed.

Lemma body_mapping : slice (Z.to_nat (mapping_table_off (info_table i))) (Z.to_nat (mapping_table_size (config i))) (table_body e i) =
  array_bytes e (block_mapping i).
Proof.
  destruct (tf_order i Hf) as (O1 & O2 & O3). pose proof (tf_states i Hf). pose proof (tf_mapping i Hf). unfold table_body.
  rewrite !(take_ge (array_bytes e _)) by (rewrite length_array_bytes; lia).
  replace (Z.to_nat (mapping_table_size (config i))) with (length (array_bytes e (block_mapping i))) by (rewrite length_array_bytes; lia).
  apply slice_write_eq. rewrite length_write; rewrite ?length_array_bytes, ?length_replicate; lia.
Qed.

(** The header of the table with its checksum. *)
Definition read_table (c : Z) : nmbm_info_table_header :=
  let t := next_table i in
  InfoTableHeader (with_sum c (table_header t)) (write_count t) (state_table_off t) (mapping_table_off t) (table_padding t).

Lemma info_table_of_bytes t r :
  header_ok (table_header t) -> is_u32 (write_count t) -> is_u32 (state_table_off t) -> is_u32 (mapping_table_off t) ->
  is_u32 (table_padding t) -> info_table_of e (info_table_bytes e t ++ r) = t.
Proof.
  intros Hh H1 H2 H3 H4. unfold info_table_of, info_table_bytes. rewrite <- app_assoc, header_of_bytes by done.
  assert (Hl := length_header_bytes (table_header t)). rewrite <- !app_assoc.
  set (h := header_bytes e (table_header t)) in *. rewrite (word_store 16 h) by done.
  rewrite (app_assoc h). rewrite (word_store 20 (h ++ _)) by (by rewrite length_app, store_length, Hl).
  rewrite (app_assoc (h ++ _)). rewrite (word_store 24 ((h ++ _) ++ _)) by (by rewrite !length_app, !store_length, Hl).
  rewrite (app_assoc ((h ++ _) ++ _)). rewrite (word_store 28 (((h ++ _) ++ _) ++ _)) by (by rewrite !length_app, !store_length, Hl).
  unfold is_u32 in *. rewrite !wrap_small by done. by destruct t.
Qed.

Lemma next_ok : header_ok (table_header (next_table i)) /\ is_u32 (write_count (next_table i)) /\
  is_u32 (state_table_off (next_table i)) /\ is_u32 (mapping_table_off (next_table i)).
Proof.
  destruct (tf_order i Hf) as (O1 & O2 & O3). pose proof (tf_limit i Hf). pose proof (tf_states i Hf). pose proof (tf_mapping i Hf).
  split; [split; cbn; [by unfold is_u32, NMBM_MAGIC_INFO_TABLE|by unfold is_u32, NMBM_VER|unfold is_u32; lia|apply (tf_sum i Hf)]|].
  split; [cbn; destruct (dirty i); [apply wrap_range; lia|apply (tf_count i Hf)]|]. split; cbn; unfold is_u32; lia.
Qed.

(** The bytes of the table are those of its header, and of its body behind that. *)
Lemma table_bytes_form : exists c, is_u32 c /\
  table_bytes e crc32_le i = info_table_bytes e (read_table c) ++ drop 32 (table_body e i) /\
  nmbm_check_header e crc32_le (table_bytes e crc32_le i) (info_table_size (config i)) = true.
Proof.
  pose proof body_length as Hl. destruct (tf_order i Hf) as (O1 & O2 & O3). pose proof (tf_states i Hf). pose proof (tf_mapping i Hf).
  destruct next_ok as (Hh & _). unfold table_bytes.
  set (t := next_table i). set (words4 := store e 4 (write_count t) ++ store e 4 (state_table_off t) ++
    store e 4 (mapping_table_off t) ++ store e 4 (table_padding t)).
  assert (Hw : Prelude.write 0 (info_table_bytes e t) (table_body e i) =
    header_bytes e (table_header t) ++ words4 ++ drop 32 (table_body e i)).
  { unfold Prelude.write. rewrite take_0, app_nil_l, length_info_table_bytes. unfold info_table_bytes. by rewrite <- app_assoc. }
  rewrite Hw. destruct (check_update (table_header t) (words4 ++ drop 32 (table_body e i))) as (c & Hc & -> & Hck).
  - exact Hh.
  - apply Forall_app. split; [|apply Forall_drop, body_ok]. unfold words4. repeat (apply Forall_app; split); apply store_ok.
  - rewrite length_app, length_drop. unfold words4. rewrite !length_app, !store_length. cbn. lia.
  - exists c. split; [done|]. split; [|exact Hck]. unfold info_table_bytes, words4. cbn. by rewrite <- !app_assoc.
Qed.
End Bytes.

(** A good block is not marked. *)
Class ChipMarks (N : Type) `{Nand N, Chip N} := {
  chip_unmarked : forall (n : N) b, 0 <= b < chip_blocks -> bad b = false -> (_block_isbad (b * bsize) n).1 = 0
}.

Section Good.
Context {N : Type} `{Nand N, !Chip N, !ChipLaws N, !ChipFrame N, !ChipMarks N} (e : endian) (crc32_le : Z -> list Z -> Z).
Implicit Types (w : bmt_world N).

Definition good_block (b : Z) : Prop := 0 <= b < chip_blocks /\ bad b = false.

Lemma good_marks (n : N) b : good_block b -> (_block_isbad (b * bsize) n).1 = 0.
Proof. intros [Hb Hg]. by apply chip_unmarked. Qed.

(** ** Reading *)

(** A page, or a part of one, at its first try. *)
Lemma runs_read_good k addr data ret w b o :
  pages (bmtd w) -> 0 <= b < chip_blocks -> 0 <= o < bsize -> (psize | o) -> addr = b * bsize + o ->
  runs (read_tries (S k) addr data ret) w (fun r w' =>
    r = (0, Prelude.write 0 (slice (Z.to_nat o) (Z.to_nat psize) (content (nand w) b)) data) /\
    bmtd w' = bmtd w /\ forall c, content (nand w') c = content (nand w) c).
Proof.
  intros Hp Hb Ho Hd ->. pose proof (page_fits _ o Hp Hd Ho). destruct (psize_pos _ Hp) as (Hps & _). cbn [read_tries].
  apply runs_bind, runs_desc, runs_bind, runs_call. rewrite (p_pg _ Hp).
  assert (A0 : 0 <= psize) by lia. assert (A1 : 0 <= 0) by lia.
  pose proof (chip_read (nand w) b o psize 0 0 Hb Ho A0 ltac:(lia) A1) as Hc.
  destruct (_read_oob _ _ _ _ _) as [[[r dat] oob] n]. destruct Hc as (Hr & -> & _ & Hs). cbn [fst snd].
  destruct (Z.eqb_spec r (- EUCLEAN)) as [->|_]; [by vm_compute in Hr|]. rewrite (proj2 (Z.leb_le 0 r) Hr). by apply runs_ret.
Qed.

Lemma runs_read_cached_good w b o :
  pages (bmtd w) -> 0 <= b < chip_blocks -> 0 <= o < bsize -> (psize | o) ->
  runs (read_cached (b * bsize + o)) w (fun r w' =>
    r = 0 /\ bmtd w' = set_data (Prelude.write 0 (slice (Z.to_nat o) (Z.to_nat psize) (content (nand w) b)) (data_buf (bmtd w))) (bmtd w) /\
    forall c, content (nand w') c = content (nand w) c).
Proof.
  intros Hp Hb Ho Hd. unfold read_cached. apply runs_bind, runs_desc.
  eapply runs_step; [by apply (runs_read_good _ _ _ _ w b o)|]. intros r w1 (-> & E1 & S1).
  apply runs_bind, runs_change_desc. apply runs_ret. rewrite E1. done.
Qed.

(** ** Writing *)

Lemma page_buffer (chunk old : list Z) raw p :
  (p <= raw)%nat -> (length chunk <= p)%nat ->
  take p (Prelude.write 0 chunk (Prelude.write 0 (replicate raw 255) old)) = chunk ++ replicate (p - length chunk) 255.
Proof.
  intros Hp Hc. unfold Prelude.write. rewrite !take_0, !app_nil_l, !Nat.add_0_l, length_replicate.
  rewrite take_app_ge by done. f_equal. rewrite drop_app_le by (rewrite length_replicate; lia).
  rewrite drop_replicate. rewrite take_app_le by (rewrite length_replicate; lia). rewrite take_replicate. f_equal. lia.
Qed.

Lemma write_next (pre page : list Z) n m :
  (length page <= n)%nat -> m = length pre ->
  Prelude.write m page (pre ++ replicate n 255) = pre ++ page ++ replicate (n - length page) 255.
Proof.
  intros Hp ->. unfold Prelude.write. rewrite take_app_length. f_equal. f_equal.
  rewrite drop_app_ge by lia. rewrite drop_replicate. f_equal. lia.
Qed.

Lemma runs_write_good w b o :
  pages (bmtd w) -> good_block b -> 0 <= o < bsize -> (psize | o) -> (Z.to_nat psize <= length (data_buf (bmtd w)))%nat ->
  slice (Z.to_nat o) (Z.to_nat psize) (content (nand w) b) = replicate (Z.to_nat psize) 255 ->
  runs (nmbm_write_phys_page (b * bsize + o)) w (fun r w' =>
    r = true /\ bmtd w' = bmtd w /\
    content (nand w') b = Prelude.write (Z.to_nat o) (take (Z.to_nat psize) (data_buf (bmtd w))) (content (nand w) b) /\
    same_but b (nand w) (nand w')).
Proof.
  intros Hp [Hb Hg] Ho Hd Hl He. pose proof (page_fits _ o Hp Hd Ho). unfold nmbm_write_phys_page.
  apply runs_bind, runs_desc. rewrite (p_pg _ Hp). destruct (psize_pos _ Hp) as (Hps & _).
  assert (Ht : length (take (Z.to_nat psize) (data_buf (bmtd w))) = Z.to_nat psize) by (rewrite length_take; lia).
  cbn [write_tries NMBM_TRY_COUNT]. apply runs_bind, runs_call.
  pose proof (chip_write (nand w) b o _ [] 0 Hb Ho ltac:(rewrite Ht; lia) Hg ltac:(rewrite Ht; exact He)) as Hc.
  destruct (_write_oob _ _ _ _ _) as [[[r l1] l2] n]. destruct Hc as (-> & _ & _ & Hw & Hs). cbn [fst snd].
  by apply runs_ret.
Qed.

(** One page of the chunks; what is behind it is erased. *)
Lemma runs_write_page {A} (K : bool -> prog (bmt_world N) A) Q w i b o pre chunk :
  inst w i -> pages (bmtd w) -> good_block b -> psize <= rawpage_size (config i) -> 0 <= o < bsize -> (psize | o) ->
  0 < Z.of_nat (length chunk) <= psize -> Z.of_nat (length pre) = o ->
  content (nand w) b = pre ++ replicate (Z.to_nat (bsize - o)) 255 ->
  (forall w', (exists buf, bmtd w' = set_data buf (bmtd w)) -> same_but b (nand w) (nand w') ->
    slice (Z.to_nat o) (Z.to_nat psize) (content (nand w') b) = chunk ++ replicate (Z.to_nat psize - length chunk) 255 ->
    content (nand w') b = (pre ++ chunk) ++ replicate (Z.to_nat (bsize - (o + Z.of_nat (length chunk)))) 255 ->
    runs (K true) w' Q) ->
  runs (set_page (Prelude.write 0 (replicate (Z.to_nat (rawpage_size (config i))) 255));;
        set_page (Prelude.write 0 chunk);;
        success ← nmbm_write_phys_page (b * bsize + o); K success) w Q.
Proof.
  intros Hi Hp Hb Hraw Ho Hd Hc Hl Hpre HK. pose proof (page_fits _ o Hp Hd Ho) as Hfit.
  apply runs_bind, runs_change_desc, runs_bind, runs_change_desc. set (w1 := BmtWorld _ _). cbn [bmtd nand].
  assert (Hp1 : pages (bmtd w1)) by (destruct Hp as [[] ? ? ? ?]; split; [by split|done..]).
  assert (Hbuf : take (Z.to_nat psize) (data_buf (bmtd w1)) = chunk ++ replicate (Z.to_nat psize - length chunk) 255).
  { apply page_buffer; lia. }
  assert (Hlen : (Z.to_nat psize <= length (data_buf (bmtd w1)))%nat).
  { apply (f_equal length) in Hbuf. rewrite length_take, length_app, length_replicate in Hbuf. lia. }
  assert (He : slice (Z.to_nat o) (Z.to_nat psize) (content (nand w1) b) = replicate (Z.to_nat psize) 255).
  { cbn [w1 nand]. rewrite Hpre. unfold slice. replace (Z.to_nat o) with (length pre) by lia.
    rewrite drop_app_length, take_replicate. f_equal. lia. }
  eapply runs_step; [by apply (runs_write_good w1 b o)|]. intros r w' (-> & E & Hw & Hs).
  rewrite Hbuf in Hw. cbn [w1 nand] in Hw. rewrite Hpre in Hw. apply HK; [rewrite E; by eexists|done|..]; rewrite Hw.
  all: set (page := chunk ++ _); assert (Hpl : length page = Z.to_nat psize) by (unfold page; rewrite length_app, length_replicate; lia).
  all: rewrite write_next by lia.
  - unfold slice. replace (Z.to_nat o) with (length pre) by lia. rewrite drop_app_length. apply take_app_length'. lia.
  - rewrite <- app_assoc. f_equal. unfold page. rewrite <- app_assoc. f_equal. rewrite <- replicate_add. f_equal.
    rewrite length_app, length_replicate. lia.
Qed.

Lemma runs_write_chunks_good n b o ptr w i pre :
  inst w i -> pages (bmtd w) -> good_block b -> psize <= rawpage_size (config i) ->
  0 <= o -> o + Z.of_nat (length ptr) <= bsize -> (psize | o) \/ ptr = [] -> Z.of_nat (length ptr) <= Z.of_nat n * psize ->
  Z.of_nat (length pre) = o -> content (nand w) b = pre ++ replicate (Z.to_nat (bsize - o)) 255 ->
  runs (write_chunks n (b * bsize + o) ptr) w (fun r w' =>
    r = true /\ (exists buf, bmtd w' = set_data buf (bmtd w)) /\ same_but b (nand w) (nand w') /\
    content (nand w') b = (pre ++ ptr) ++ replicate (Z.to_nat (bsize - (o + Z.of_nat (length ptr)))) 255).
Proof.
  revert o ptr w pre. induction n as [|n IH]; intros o ptr w pre Hi Hp Hb Hraw A0 Hl Ho Hn Hpl Hpre;
    (destruct ptr as [|x ptr']; cbn [write_chunks];
      [apply runs_ret; split; [done|]; split; [exists (data_buf (bmtd w)); by rewrite set_data_same|]; split; [done|];
       rewrite app_nil_r, Z.add_0_r; exact Hpre|]); [cbn in Hn; lia|].
  set (ptr := x :: ptr') in *. destruct Ho as [Ho|]; [|done]. destruct (psize_pos _ Hp) as (Hps & _ & _).
  assert (Hlen : 0 < Z.of_nat (length ptr)) by (unfold ptr; cbn; lia).
  apply runs_bind, runs_desc, runs_bind. eapply runs_instance; [done|].
  destruct (page_chunk _ b o (Z.of_nat (length ptr)) Hp (proj1 (proj1 Hb)) Ho A0) as [-> ->]. rewrite !Z.sub_0_r.
  set (chunk := take _ ptr). assert (Hc : Z.of_nat (length chunk) = Z.min psize (Z.of_nat (length ptr))).
  { unfold chunk. rewrite length_take. lia. }
  assert (Hob : 0 <= o < bsize) by lia. change (Z.to_nat 0) with O.
  apply (runs_write_page _ _ w i b o pre chunk); try done; [lia|].
  intros w1 [b1 E1] S1 Hsl Hco. cbn [negb]. assert (Hp1 : pages (bmtd w1)).
  { rewrite E1. destruct Hp as [[] ? ? ? ?]; split; [by split|done..]. }
  eapply runs_step; [by apply runs_read_cached_good; [|apply Hb|..]|]. intros r w2 (-> & E2 & S2). change (0 <? 0) with false. cbv iota.
  apply runs_bind, runs_desc. rewrite E2. cbn [data_buf set_data]. rewrite Hsl.
  assert (Hback : slice 0 (length chunk) (Prelude.write 0 (chunk ++ replicate (Z.to_nat psize - length chunk) 255) (data_buf (bmtd w1))) = chunk).
  { unfold slice, Prelude.write. rewrite drop_0, take_0, app_nil_l, <- app_assoc. apply take_app_length. }
  rewrite Hback, bool_decide_eq_true_2 by done. rewrite <- Z.add_assoc.
  eapply runs_mono; [apply (IH (o + Z.of_nat (length chunk)) (drop (length chunk) ptr) _ (pre ++ chunk))|].
  - unfold inst. rewrite E2, E1. exact Hi.
  - rewrite E2. destruct Hp1 as [[] ? ? ? ?]; split; [by split|done..].
  - done.
  - done.
  - lia.
  - rewrite length_drop. lia.
  - rewrite Hc. destruct (Z.min_spec psize (Z.of_nat (length ptr))) as [[_ ->]|[_ E]].
    + left. apply Z.divide_add_r; [done|apply Z.divide_refl].
    + right. apply nil_length_inv. rewrite length_drop. lia.
  - rewrite length_drop. lia.
  - rewrite length_app. lia.
  - by rewrite S2, Hco.
  - intros r w3 (-> & (b3 & E3) & S3 & C3). split; [done|]. split; [exists b3; by rewrite E3, E2, E1|].
    split; [intros c Hne; by rewrite S3, S2, S1|]. rewrite C3, length_drop.
    assert (Hsplit : chunk ++ drop (length chunk) ptr = ptr).
    { replace (length chunk) with (Z.to_nat (Z.min psize (Z.of_nat (length ptr)))) by lia. apply take_drop. }
    replace ((pre ++ chunk) ++ drop (length chunk) ptr) with (pre ++ ptr) by (by rewrite <- app_assoc, Hsplit).
    f_equal. f_equal. lia.
Qed.

(** What a block holds that got some data. *)
Definition filled (data : list Z) : list Z := data ++ replicate (Z.to_nat (bsize - Z.of_nat (length data))) 255.

Lemma runs_check_pages_good n b o w :
  pages (bmtd w) -> 0 <= b < chip_blocks -> 0 <= o -> (psize | o) -> o + Z.of_nat n * psize <= bsize ->
  runs (check_pages n (b * bsize + o)) w (fun r w' =>
    r = true /\ (exists buf, bmtd w' = set_data buf (bmtd w)) /\ forall c, content (nand w') c = content (nand w) c).
Proof.
  revert o w. induction n as [|n IH]; intros o w Hp Hb A0 Hd Hn; cbn [check_pages].
  { apply runs_ret. split; [done|]. split; [|done]. exists (data_buf (bmtd w)). by rewrite set_data_same. }
  destruct (psize_pos _ Hp) as (Hps & _). apply runs_bind, runs_desc.
  eapply runs_step; [apply runs_read_cached_good; [done|done|lia|done]|]. intros r w1 (-> & E1 & S1).
  change (0 =? - EBADMSG) with false. cbv iota. rewrite (p_pg _ Hp), <- Z.add_assoc.
  eapply runs_mono; [apply IH|].
  - rewrite E1. destruct Hp as [[] ? ? ? ?]; split; [by split|done..].
  - done.
  - lia.
  - apply Z.divide_add_r; [done|apply Z.divide_refl].
  - lia.
  - intros r w2 (-> & (b2 & E2) & S2). split; [done|]. split; [exists b2; by rewrite E2, E1|]. intros c. by rewrite S2, S1.
Qed.

Lemma pages_data d b : pages d -> pages (set_data b d).
Proof. intros [[] ? ? ? ?]. split; [by split|done..]. Qed.

Lemma runs_erase_block_good w i b :
  inst w i -> pages (bmtd w) -> good_block b -> b <= 65536 ->
  runs (nmbm_erase_block_and_check b) w (fun r w' =>
    r = true /\ (exists buf, bmtd w' = set_data buf (bmtd w)) /\ same_but b (nand w) (nand w') /\ content (nand w') b = erased).
Proof.
  intros Hi Hp [Hb Hg] H16. pose proof (p_geometry _ Hp) as Hgeo. unfold nmbm_erase_block_and_check.
  apply runs_bind, runs_desc, runs_bind. eapply runs_instance; [done|]. rewrite ba2addr_mul by (done || lia).
  unfold nmbm_erase_phys_block. cbn [erase_tries NMBM_TRY_COUNT]. apply runs_bind, runs_bind, runs_desc, runs_bind, runs_call.
  rewrite (g_erase _ Hgeo). pose proof (chip_erase (nand w) b Hb) as Hc. rewrite Hg in Hc.
  destruct (_erase _ _ _) as [r n]. cbn [fst snd]. destruct Hc as (Hs & -> & He). change (0 =? 0) with true. cbv iota.
  apply runs_ret. cbn [negb]. destruct (negb _).
  { apply runs_ret. split; [done|]. split; [exists (data_buf (bmtd w)); cbn; by rewrite set_data_same|done]. }
  rewrite <- (Z.add_0_r (b * bsize)). destruct (psize_pos _ Hp) as (Hps & [q Eq] & _).
  eapply runs_mono; [apply runs_check_pages_good; [done|done|done|apply Z.divide_0_r|]|].
  - unfold block_pages. rewrite (p_pg _ Hp), (g_blk _ Hgeo), Eq.
    replace (q * psize + psize - 1) with ((psize - 1) + q * psize) by lia. rewrite Z.div_add, (Z.div_small (psize - 1)) by lia.
    pose proof (bsize_pos _ Hgeo). nia.
  - intros r w' (-> & Hd & Hsame). split; [done|]. split; [done|]. split; [|by rewrite Hsame].
    intros c Hne. rewrite Hsame. by apply Hs.
Qed.

Lemma runs_write_block_good w i b chunk :
  inst w i -> pages (bmtd w) -> psize <= rawpage_size (config i) -> good_block b -> b <= 65536 ->
  Z.of_nat (length chunk) <= bsize ->
  runs (write_block b chunk) w (fun r w' =>
    r = true /\ (exists buf, bmtd w' = set_data buf (bmtd w)) /\ same_but b (nand w) (nand w') /\
    content (nand w') b = filled chunk).
Proof.
  intros Hi Hp Hraw Hb H16 Hl. unfold write_block. apply runs_bind, runs_desc.
  eapply runs_step; [by eapply runs_erase_block_good|]. intros r w1 (-> & [b1 E1] & S1 & C1).
  assert (Hp1 : pages (bmtd w1)) by (rewrite E1; by apply pages_data).
  unfold nmbn_write_verify_data. apply runs_bind, runs_desc. destruct Hb as [Hb Hg].
  rewrite ba2addr_mul by (try apply Hp; lia). rewrite <- (Z.add_0_r (b * bsize)). destruct (psize_pos _ Hp) as (Hps & _).
  eapply runs_mono; [apply (runs_write_chunks_good _ b 0 chunk w1 i [])|].
  - unfold inst. by rewrite E1.
  - done.
  - done.
  - done.
  - lia.
  - lia.
  - left. apply Z.divide_0_r.
  - rewrite (p_pg _ Hp1). pose proof (Z.div_mod (Z.of_nat (length chunk)) psize).
    pose proof (Z.mod_pos_bound (Z.of_nat (length chunk)) psize). pose proof (Z.div_pos (Z.of_nat (length chunk)) psize). nia.
  - done.
  - rewrite C1, Z.sub_0_r. done.
  - intros r w' (-> & [b2 E2] & S2 & C2). split; [done|]. split; [exists b2; by rewrite E2, E1|].
    split; [intros c Hne; by rewrite S2, S1|]. exact C2.
Qed.

(** ** Tables on good blocks *)

(** The blocks that some bytes take. *)
Definition blocks_for (n : Z) : Z := (n + bsize - 1) / bsize.

Lemma blocks_for_next d n : geometry d -> 0 < n -> blocks_for n = 1 + blocks_for (n - Z.min bsize n).
Proof.
  intros Hg Hn. pose proof (bsize_pos d Hg). unfold blocks_for. destruct (Z.min_spec bsize n) as [[Hl ->]|[Hl ->]].
  - replace (n + bsize - 1) with ((n - bsize + bsize - 1) + 1 * bsize) by lia. rewrite Z.div_add by lia. lia.
  - replace (n - n + bsize - 1) with (bsize - 1) by lia. rewrite (Z.div_small (bsize - 1)) by lia.
    replace (n + bsize - 1) with ((n - 1) + 1 * bsize) by lia. rewrite Z.div_add, (Z.div_small (n - 1)) by lia. lia.
Qed.

Lemma drop_chunk (l : list Z) : drop (Z.to_nat (Z.min bsize (Z.of_nat (length l)))) l = drop (Z.to_nat bsize) l.
Proof. destruct (Z.le_gt_cases bsize (Z.of_nat (length l))); [f_equal; lia|]. rewrite !drop_ge by lia. done. Qed.

(** The data is in the blocks from [ba] on. *)
Fixpoint stored (k : nat) (n : N) (ba : Z) (data : list Z) : Prop :=
  match k with
  | O => data = []
  | S k => content n ba = filled (take (Z.to_nat bsize) data) /\ stored k n (ba + 1) (drop (Z.to_nat bsize) data)
  end.

Lemma stored_same k n n' ba data :
  (forall b, ba <= b < ba + Z.of_nat k -> content n' b = content n b) -> stored k n ba data -> stored k n' ba data.
Proof.
  revert ba data. induction k as [|k IH]; intros ba data Hs; [done|]. cbn [stored]. intros [E St].
  split; [rewrite Hs by lia; done|]. apply IH; [|done]. intros b Hb. apply Hs. lia.
Qed.

(** Blocks that are good and known to be. *)
Definition all_good (i : nmbm_instance) (lo hi : Z) : Prop :=
  forall b, lo <= b < hi -> good_block b /\ b <= 65536 /\ is_good (block_state i) b.

Lemma runs_usable_good w i b :
  inst w i -> pages (bmtd w) -> good_block b -> b <= 65536 -> is_good (block_state i) b ->
  runs (usable b) w (fun r w' => r = true /\ bmtd w' = bmtd w /\ forall c, content (nand w') c = content (nand w) c).
Proof.
  intros Hi Hp Hb H16 Hg. unfold usable, nmbm_get_block_state. apply runs_bind, runs_bind. eapply runs_instance; [done|].
  rewrite Hg. apply runs_defined. rewrite Z.eqb_refl. cbn [negb]. apply runs_bind. unfold nmbm_check_bad_phys_block.
  apply runs_bind, runs_desc, runs_bind, runs_call. rewrite ba2addr_mul by (try apply Hp; destruct Hb; lia).
  pose proof (good_marks (nand w) b Hb) as Hm. pose proof (frame_isbad (nand w) (b * bsize)) as Hf.
  destruct (_block_isbad _ _) as [ret n]. cbn [fst snd] in *. rewrite Hm. apply runs_ret, runs_ret. done.
Qed.

Lemma runs_write_mgmt_good k n ba ptr start w i :
  inst w i -> pages (bmtd w) -> psize <= rawpage_size (config i) -> all_good i ba (ba + Z.of_nat k) -> (k <= n)%nat ->
  Z.of_nat k = blocks_for (Z.of_nat (length ptr)) -> (start = None -> ptr <> []) ->
  runs (write_mgmt n ba ptr start) w (fun r w' =>
    r = Some (default ba start, ba + Z.of_nat k) /\ (exists buf, bmtd w' = set_data buf (bmtd w)) /\
    same_outside (between ba (ba + Z.of_nat k)) (nand w) (nand w') /\ stored k (nand w') ba ptr).
Proof.
  revert n ba ptr start w. induction k as [|k IH]; intros n ba ptr start w Hi Hp Hraw Hgood Hkn Hk Hs.
  - assert (ptr = []) as ->.
    { destruct ptr as [|x ptr]; [done|]. pose proof (blocks_for_next (bmtd w) (Z.of_nat (length (x :: ptr))) (p_geometry _ Hp) ltac:(cbn; lia)) as E.
      assert (0 <= blocks_for (Z.of_nat (length (x :: ptr)) - Z.min bsize (Z.of_nat (length (x :: ptr))))).
      { pose proof (bsize_pos _ (p_geometry _ Hp)). apply Z.div_pos; lia. } lia. }
    destruct start as [s|]; [|by destruct Hs]. cbn [Z.of_nat]. rewrite Z.add_0_r.
    destruct n; cbn [write_mgmt]; (apply runs_ret; split; [done|]; split; [|done]; exists (data_buf (bmtd w)); by rewrite set_data_same).
  - destruct ptr as [|x ptr'].
    { exfalso. unfold blocks_for in Hk. cbn [length Z.of_nat] in Hk. pose proof (bsize_pos _ (p_geometry _ Hp)).
      rewrite Z.div_small in Hk; lia. }
    set (ptr := x :: ptr') in *. assert (Hlen : 0 < Z.of_nat (length ptr)) by (unfold ptr; cbn; lia).
    destruct n as [|n]; [lia|]. change (write_mgmt (S n) ba ptr start) with
      (d ← desc;
       let chunk := take (Z.to_nat (blk_size d)) ptr in
       ok ← usable ba;
       if negb ok then write_mgmt n (ba + 1) ptr start
       else
         success ← write_block ba chunk;
         if success : bool then
           write_mgmt n (ba + 1) (drop (length chunk) ptr) (match start with None => Some ba | _ => start end)
         else spoil ba;; write_mgmt n (ba + 1) ptr start).
    apply runs_bind, runs_desc. cbv zeta. rewrite (g_blk _ (p_geometry _ Hp)).
    set (chunk := take _ ptr). pose proof (bsize_pos _ (p_geometry _ Hp)) as Hpos.
    assert (Hc : Z.of_nat (length chunk) = Z.min bsize (Z.of_nat (length ptr))) by (unfold chunk; rewrite length_take; lia).
    destruct (Hgood ba ltac:(lia)) as (G1 & G2 & G3).
    eapply runs_step; [by eapply runs_usable_good|]. intros ok w1 (-> & E1 & S1). cbn [negb].
    assert (Hi1 : inst w1 i) by (unfold inst; by rewrite E1). assert (Hp1 : pages (bmtd w1)) by by rewrite E1.
    eapply runs_step; [eapply runs_write_block_good; try done; lia|]. intros r w2 (-> & [b2 E2] & S2 & C2).
    eapply runs_mono; [apply (IH n (ba + 1) (drop (length chunk) ptr))|].
    + unfold inst. rewrite E2. exact Hi1.
    + rewrite E2. by apply pages_data.
    + done.
    + intros b Hb. apply Hgood. lia.
    + lia.
    + rewrite length_drop. rewrite (blocks_for_next _ _ (p_geometry _ Hp) Hlen) in Hk.
      replace (Z.of_nat (length ptr - length chunk)) with (Z.of_nat (length ptr) - Z.min bsize (Z.of_nat (length ptr))) by lia. lia.
    + by destruct start.
    + intros r w3 (-> & [b3 E3] & S3 & St). split; [|split; [exists b3; by rewrite E3, E2, E1|split]].
      * destruct start; cbn [default]; f_equal; f_equal; lia.
      * intros c Hne. rewrite S3 by (unfold between in *; lia). rewrite S2 by (unfold between in *; lia). apply S1.
      * cbn [stored]. split.
        -- rewrite S3 by (unfold between; lia). exact C2.
        -- replace (length chunk) with (Z.to_nat (Z.min bsize (Z.of_nat (length ptr)))) in St by lia. by rewrite drop_chunk in St.
Qed.

(** ** Reading tables *)

Lemma slice_split o a b (l : list Z) : slice o (a + b) l = slice o a l ++ slice (o + a) b l.
Proof. unfold slice. rewrite <- drop_drop. by rewrite take_take_drop. Qed.

Lemma take_write_front (bs l : list Z) n : n = length bs -> take n (Prelude.write 0 bs l) = bs.
Proof. intros ->. unfold Prelude.write. rewrite take_0, app_nil_l. apply take_app_length. Qed.

Lemma drop_write_front (bs l : list Z) n : n = length bs -> drop n (Prelude.write 0 bs l) = drop n l.
Proof. intros ->. unfold Prelude.write. rewrite take_0, app_nil_l. apply drop_app_length. Qed.

Lemma runs_read_chunks_good n b o size front rest w :
  pages (bmtd w) -> 0 <= b < chip_blocks -> 0 <= o -> (psize | o) \/ size = 0 -> 0 <= size -> o + size <= bsize ->
  size <= Z.of_nat (length rest) -> size <= Z.of_nat n * psize ->
  runs (read_chunks n (b * bsize + o) size front rest) w (fun r w' =>
    r = (0, front ++ slice (Z.to_nat o) (Z.to_nat size) (content (nand w) b) ++ drop (Z.to_nat size) rest) /\
    (exists buf, bmtd w' = set_data buf (bmtd w)) /\ forall c, content (nand w') c = content (nand w) c).
Proof.
  revert o size front rest w. induction n as [|n IH]; intros o size front rest w Hp Hb A0 Ho Hz Hl Hr Hn;
    destruct (Z.eqb_spec size 0) as [->|Hne]; cbn [read_chunks]; try (exfalso; lia).
  1, 2: apply runs_ret; split; [done|]; split; [|done]; exists (data_buf (bmtd w)); by rewrite set_data_same.
  destruct (Z.eqb_spec size 0); [done|]. destruct Ho as [Ho|]; [|done]. destruct (psize_pos _ Hp) as (Hps & _).
  apply runs_bind, runs_desc. destruct (page_chunk _ b o size Hp (proj1 Hb) Ho A0) as [-> ->]. rewrite (p_pg _ Hp), Z.sub_0_r.
  set (chunk := Z.min psize size). set (part := slice (Z.to_nat o) (Z.to_nat chunk) (content (nand w) b)).
  assert (Hpl : length part = Z.to_nat chunk).
  { unfold part. apply length_slice. pose proof (chip_length (nand w) b Hb). lia. }
  eapply runs_step with (Q := fun r w' => r = (0, Prelude.write 0 part rest) /\
    (exists buf, bmtd w' = set_data buf (bmtd w)) /\ forall c, content (nand w') c = content (nand w) c).
  { destruct (Z.eqb_spec chunk psize) as [E|E].
    - eapply runs_mono; [apply (runs_read_good _ _ rest 0 w b o); try done; lia|]. intros r w1 (-> & E1 & S1).
      split; [unfold part; by rewrite E|]. split; [|done]. exists (data_buf (bmtd w)). by rewrite set_data_same, E1.
    - eapply runs_step; [apply runs_read_cached_good; try done; lia|]. intros r w1 (-> & E1 & S1).
      apply runs_bind, runs_desc, runs_ret. change (0 <? 0) with false. cbv iota. rewrite E1.
      split; [|split; [by eexists|done]]. f_equal. f_equal. cbn [data_buf set_data]. unfold part, slice at 1.
      change (Z.to_nat 0) with O. rewrite drop_0. assert (Hs : (Z.to_nat chunk <= Z.to_nat psize)%nat) by lia.
      pose proof (page_fits _ o Hp Ho ltac:(lia)). pose proof (chip_length (nand w) b Hb).
      unfold Prelude.write. rewrite take_0, app_nil_l. rewrite take_app_le by (rewrite length_slice; lia).
      unfold slice. rewrite take_take. f_equal. lia. }
  intros r w1 (-> & [b1 E1] & S1). change (0 <? 0) with false. cbv iota. rewrite take_write_front, drop_write_front by done.
  rewrite <- Z.add_assoc. eapply runs_mono; [apply (IH (o + chunk) (size - chunk))|].
  - rewrite E1. by apply pages_data.
  - done.
  - lia.
  - unfold chunk. destruct (Z.min_spec psize size) as [[_ ->]|[_ ->]].
    + left. apply Z.divide_add_r; [done|apply Z.divide_refl].
    + right. lia.
  - lia.
  - lia.
  - rewrite length_drop. lia.
  - lia.
  - intros r w2 (-> & [b2 E2] & S2). split; [|split; [exists b2; by rewrite E2, E1|intros c; by rewrite S2, S1]].
    rewrite S1, drop_drop, <- (app_assoc front), (app_assoc part). f_equal. f_equal. f_equal.
    + replace (Z.to_nat size) with (Z.to_nat chunk + Z.to_nat (size - chunk))%nat by lia. rewrite slice_split. f_equal. f_equal. lia.
    + f_equal. lia.
Qed.

(** A chunk of the table from a block, put into the cache. *)
Lemma runs_read_data_good b size rest w :
  pages (bmtd w) -> 0 <= b < chip_blocks -> b <= 65536 -> 0 <= size <= bsize -> size <= Z.of_nat (length rest) ->
  runs (nmbn_read_data (ba2addr (bmtd w) b) size rest) w (fun r w' =>
    r = (0, take (Z.to_nat size) (content (nand w) b) ++ drop (Z.to_nat size) rest) /\
    (exists buf, bmtd w' = set_data buf (bmtd w)) /\ forall c, content (nand w') c = content (nand w) c).
Proof.
  intros Hp Hb H16 Hs Hr. destruct (psize_pos _ Hp) as (Hps & _). unfold nmbn_read_data. apply runs_bind, runs_desc.
  rewrite ba2addr_mul by (try apply Hp; lia). rewrite (p_pg _ Hp), <- (Z.add_0_r (b * bsize)).
  eapply runs_mono; [apply (runs_read_chunks_good _ b 0 size []); try done; try lia|].
  - left. apply Z.divide_0_r.
  - pose proof (Z.div_mod size psize). pose proof (Z.mod_pos_bound size psize). pose proof (Z.div_pos size psize). nia.
  - intros r w' H'. exact H'.
Qed.

(** The first chunk of the table has its header. *)
Definition header_checked (c : nmbm_config) (data : list Z) : Prop :=
  forall i rest, config i = c -> (forall n, (n <= 32)%nat -> take n rest = take n data) ->
  nmbm_check_info_table_header e i rest = true.

(** A chunk of the data is put behind the part of it that is in the cache. *)
Lemma cache_next (data cache : list Z) (off n : nat) :
  length cache = length data -> (off + n <= length data)%nat -> take off cache = take off data ->
  let cache' := Prelude.write off (take n (drop off data) ++ drop n (drop off cache)) cache in
  length cache' = length data /\ take (off + n) cache' = take (off + n) data.
Proof.
  intros Hl Hn Ht cache'. assert (E : cache' = take off data ++ take n (drop off data) ++ drop n (drop off cache)).
  { unfold cache', Prelude.write. rewrite Ht. f_equal.
    rewrite (drop_ge _ (off + length (take n (drop off data) ++ drop n (drop off cache))));
      [apply app_nil_r|rewrite length_app, length_take, !length_drop; lia]. }
  rewrite E. split; [rewrite !length_app, !length_take, !length_drop; lia|].
  rewrite app_assoc, take_app_length' by (rewrite length_app, !length_take, length_drop; lia). apply take_take_drop.
Qed.

(** All of the data is in the cache. *)
Lemma runs_load_end n ba s w i data :
  inst w i -> Z.of_nat (length data) = info_table_size (config i) -> info_table_cache i = data ->
  runs (load_blocks e n ba (length data) (Some s)) w (fun r w' =>
    r = Some (s, ba) /\ (exists buf, bmtd w' = set_ni (Some (set_cache data i)) (set_data buf (bmtd w))) /\
    forall c, content (nand w') c = content (nand w) c).
Proof.
  intros Hi Hlen Hc. destruct n; cbn [load_blocks]; apply runs_bind; (eapply runs_instance; [done|]); rewrite Hlen, Z.sub_diag; cbn [Z.eqb];
    (apply runs_bind, runs_defined, runs_ret; split; [done|]; split; [|done]; exists (data_buf (bmtd w));
     rewrite set_data_same; unfold inst in Hi; destruct (bmtd w), i; cbn in *; by subst).
Qed.

Lemma runs_load_blocks_good k n ba off start w i data :
  inst w i -> pages (bmtd w) -> all_good i ba (ba + Z.of_nat k) -> (k <= n)%nat -> 32 <= bsize ->
  Z.of_nat (length data) = info_table_size (config i) -> length (info_table_cache i) = length data ->
  32 <= info_table_size (config i) -> (off <= length data)%nat -> take off (info_table_cache i) = take off data ->
  stored k (nand w) ba (drop off data) -> Z.of_nat k = blocks_for (Z.of_nat (length data - off)) ->
  (start = None -> off = O /\ header_checked (config i) data) ->
  runs (load_blocks e n ba off start) w (fun r w' =>
    r = Some (default ba start, ba + Z.of_nat k) /\
    (exists buf, bmtd w' = set_ni (Some (set_cache data i)) (set_data buf (bmtd w))) /\
    forall c, content (nand w') c = content (nand w) c).
Proof.
  revert n ba off start w i. induction k as [|k IH]; intros n ba off start w i Hi Hp Hg Hkn H32 Hlen Hlc Hsz Hoff Htake Hst Hk Hs.
  - assert (off = length data) as ->.
    { cbn [stored] in Hst. apply (f_equal length) in Hst. rewrite length_drop in Hst. cbn in Hst. lia. }
    rewrite <- Hlc in Htake at 1. rewrite !firstn_all in Htake. destruct start as [s|]; [|destruct Hs as [Hs _]; [done|lia]].
    cbn [Z.of_nat default]. rewrite Z.add_0_r. by apply runs_load_end.
  - destruct n as [|n]; [lia|]. cbn [stored] in Hst. destruct Hst as [Hst0 Hst].
    assert (Hlt : (off < length data)%nat).
    { destruct (decide (off = length data)) as [->|]; [|lia]. rewrite Nat.sub_diag in Hk. unfold blocks_for in Hk.
      pose proof (bsize_pos _ (p_geometry _ Hp)). rewrite Z.div_small in Hk; lia. }
    cbn [load_blocks]. apply runs_bind. eapply runs_instance; [done|]. rewrite <- Hlen.
    destruct (Z.eqb_spec (Z.of_nat (length data) - Z.of_nat off) 0); [lia|]. apply runs_bind, runs_desc.
    destruct (Hg ba ltac:(lia)) as (G1 & G2 & G3). pose proof (bsize_pos _ (p_geometry _ Hp)) as Hpos.
    eapply runs_step; [by eapply runs_usable_good|]. intros ok w1 (-> & E1 & S1). cbn [negb].
    assert (Hi1 : inst w1 i) by (unfold inst; by rewrite E1). assert (Hp1 : pages (bmtd w1)) by by rewrite E1.
    cbv zeta. rewrite (g_blk _ (p_geometry _ Hp)). set (chunk := Z.min (Z.of_nat (length data) - Z.of_nat off) bsize).
    apply runs_bind. eapply runs_instance; [done|].
    replace (ba2addr (bmtd w) ba) with (ba2addr (bmtd w1) ba) by by rewrite E1.
    eapply runs_step; [apply runs_read_data_good; [done|apply G1|lia|unfold chunk; lia|rewrite length_drop, Hlc; unfold chunk; lia]|].
    intros [ret rest] w2 (Hr & [b2 E2] & S2). injection Hr as -> ->. change (0 <? 0) with false. cbv iota.
    assert (Hpart : take (Z.to_nat chunk) (content (nand w1) ba) = take (Z.to_nat chunk) (drop off data)).
    { rewrite S1, Hst0. unfold filled. rewrite take_app_le by (rewrite length_take, length_drop; lia).
      rewrite take_take. f_equal. lia. }
    rewrite Hpart. set (part := take (Z.to_nat chunk) (drop off data)).
    destruct (cache_next data (info_table_cache i) off (Z.to_nat chunk)) as [Hcl Htake2]; [done|unfold chunk; lia|done|]. fold part in Hcl, Htake2.
    set (i2 := set_cache (Prelude.write off (part ++ drop (Z.to_nat chunk) (drop off (info_table_cache i))) (info_table_cache i)) i).
    apply runs_bind. eapply runs_change_ni; [unfold inst; rewrite E2; exact Hi1|]. set (w3 := BmtWorld _ _).
    assert (Hnext : forall start', (start' = None -> False) -> default (ba + 1) start' = default ba start ->
      runs (load_blocks e n (ba + 1) (off + Z.to_nat chunk) start') w3 (fun r w' =>
        r = Some (default ba start, ba + Z.of_nat (S k)) /\
        (exists buf, bmtd w' = set_ni (Some (set_cache data i)) (set_data buf (bmtd w))) /\
        forall c, content (nand w') c = content (nand w) c)).
    { intros start' Hs' Hd'. eapply runs_mono; [apply (IH n (ba + 1) (off + Z.to_nat chunk)%nat start' w3 i2)|]; try done; try lia.
      - cbn. rewrite E2. apply pages_set_ni, Hp1.
      - intros b Hb. apply Hg. lia.
      - rewrite <- drop_drop. unfold chunk. rewrite Z.min_comm. replace (Z.of_nat (length data) - Z.of_nat off) with (Z.of_nat (length (drop off data)))
          by (rewrite length_drop; lia). rewrite drop_chunk. eapply stored_same; [|exact Hst]. intros b Hb. cbn. by rewrite S2, S1.
      - rewrite (blocks_for_next _ _ (p_geometry _ Hp)) in Hk by lia.
        replace (Z.of_nat (length data - (off + Z.to_nat chunk))) with
          (Z.of_nat (length data - off) - Z.min bsize (Z.of_nat (length data - off))) by lia. lia.
      - intros r w4 (-> & [b4 E4] & S4). split; [rewrite Hd'; f_equal; f_equal; lia|].
        split; [exists b4; rewrite E4; cbn; by rewrite E2, E1|]. intros c. rewrite S4. cbn. by rewrite S2, S1. }
    change (0 <? 0) with false. cbv iota. destruct start as [s|]; [by apply Hnext|].
    destruct (Hs eq_refl) as [-> Hh]. rewrite (Hh i); [by apply Hnext|done|].
    intros m Hm. rewrite take_app_le by (unfold part; rewrite length_take, length_drop; lia).
    unfold part. rewrite drop_0, take_take. f_equal. lia.
Qed.

(** ** From the flash back into the instance *)

Lemma word_take off (n : nat) (l : list Z) : (off + 4 <= n)%nat -> word e off (take n l) = word e off l.
Proof. intros Hn. unfold word, slice. rewrite skipn_firstn_comm, take_take. by rewrite Nat.min_l by lia. Qed.

Lemma info_table_of_take l : info_table_of e (take 32 l) = info_table_of e l.
Proof. unfold info_table_of, header_of. by rewrite !word_take by lia. Qed.

Lemma slice_behind (h l : list Z) off (n : nat) : (length h <= off)%nat -> slice off n (h ++ drop (length h) l) = slice off n l.
Proof. intros Ho. unfold slice. rewrite drop_app_ge by done. rewrite drop_drop. do 2 f_equal. lia. Qed.

Lemma size2blk_for d (n : Z) : geometry d -> 0 <= n < 2 ^ 32 -> size2blk d n = blocks_for n.
Proof.
  intros Hg Hn. pose proof (bsize_pos d Hg). pose proof (g_limit d Hg). unfold size2blk, blocks_for. rewrite (g_blk d Hg).
  rewrite (wrap_small 64) by lia. rewrite Z.shiftr_div_pow2 by apply Hg. rewrite <- (g_size d Hg).
  replace (n + bsize - 1) with (n + (bsize - 1)) by lia. apply wrap_small. split; [apply Z.div_pos; lia|].
  apply Z.div_lt_upper_bound; [lia|]. nia.
Qed.

(** The numbers of a mapping that are allowed. *)
Lemma check_mapping_ok (i : nmbm_instance) end_ba l m :
  (forall pb, pb ∈ l -> (pb < data_block_count i \/ end_ba <= pb) /\ pb <> signature_ba i) ->
  exists m', check_mapping i end_ba l m = Some m' /\ m' <= m /\ (forall pb, pb ∈ l -> end_ba <= pb -> m' <= pb) /\
    (m' = m \/ m' ∈ l /\ end_ba <= m').
Proof.
  revert m. induction l as [|x l IH]; intros m Hl; cbn [check_mapping].
  { exists m. split; [done|]. split; [lia|]. split; [|by left]. intros pb Hpb. by apply elem_of_nil in Hpb. }
  destruct (Hl x (list_elem_of_here _ _)) as [Hx Hne].
  replace ((data_block_count i <=? x) && (x <? end_ba) || (x =? signature_ba i)) with false by lia.
  set (m1 := if (end_ba <=? x) && (x <? m) then x else m). destruct (IH m1) as (m' & -> & Hle & Hmin & Hin).
  { intros pb Hpb. apply Hl. by right. }
  exists m'. split; [done|]. unfold m1 in *. destruct (Z.leb_spec end_ba x), (Z.ltb_spec x m); cbn [andb] in *.
  all: split; [lia|split].
  all: try (intros pb [->|Hpb]%elem_of_cons He; [lia|by apply Hmin]).
  all: destruct Hin as [->|[Hin He]]; [|right; split; [by right|done]].
  all: first [by left|right; split; [left|done]].
Qed.

Lemma runs_check_states n ba l w i :
  inst w i -> (forall b, ba <= b < ba + Z.of_nat n -> is_good (block_state i) b /\ is_good l b) ->
  runs (check_states n ba l) w (fun r w' => r = true /\ w' = w).
Proof.
  revert ba. induction n as [|n IH]; intros ba Hi Hg; cbn [check_states]; [by apply runs_ret|].
  destruct (Hg ba ltac:(lia)) as [G1 G2]. eapply runs_step; [by eapply runs_get_state|]. intros r w1 [-> ->].
  rewrite Z.eqb_refl. cbn [negb]. apply runs_bind. rewrite G2. apply runs_defined. rewrite Z.eqb_refl. cbn [negb].
  apply IH; [done|]. intros b Hb. apply Hg. lia.
Qed.

Lemma runs_table_part data off size w :
  off + size <= Z.of_nat (length data) ->
  runs (table_part data off size) w (fun r w' => r = slice (Z.to_nat off) (Z.to_nat size) data /\ w' = w).
Proof. intros Hl. unfold table_part. destruct (Z.leb_spec (off + size) (Z.of_nat (length data))); [by apply runs_ret|lia]. Qed.

(** What the table says, read back. *)
Lemma table_read `{!Crc32Laws crc32_le} i : table_fits i ->
  let data := table_bytes e crc32_le i in
  let t := info_table_of e data in
  Z.of_nat (length data) = info_table_size (config i) /\
  nmbm_check_header e crc32_le data (info_table_size (config i)) = true /\
  header_checked (config i) data /\ write_count t = write_count (next_table i) /\
  state_table_off t = state_table_off (info_table i) /\ mapping_table_off t = mapping_table_off (info_table i) /\
  slice (Z.to_nat (state_table_off t)) (Z.to_nat (state_table_size (config i))) data = array_bytes e (block_state i) /\
  slice (Z.to_nat (mapping_table_off t)) (Z.to_nat (mapping_table_size (config i))) data = array_bytes e (block_mapping i).
Proof.
  intros Hf data t. destruct (table_bytes_form e crc32_le i Hf) as (c & Hc & Ed & Hck).
  destruct (next_ok i Hf) as (Hh & Hw & Ho1 & Ho2). destruct (tf_order i Hf) as (O1 & O2 & O3). pose proof (tf_limit i Hf).
  pose proof (tf_states i Hf). pose proof (tf_mapping i Hf). pose proof (body_length e i Hf) as Hbl.
  assert (Hil := length_info_table_bytes e (read_table i c)).
  assert (Et : t = read_table i c).
  { unfold t, data. rewrite Ed. apply info_table_of_bytes; try done; [destruct Hh; by split|apply (tf_padding i Hf)]. }
  rewrite Et. split.
  { unfold data. rewrite Ed, length_app, length_drop, Hil. lia. }
  split; [exact Hck|]. split.
  { intros i' rest Ec Hr. unfold nmbm_check_info_table_header.
    assert (Er : info_table_of e rest = read_table i c).
    { rewrite <- info_table_of_take, Hr, info_table_of_take by lia. exact Et. }
    rewrite Er, Ec. cbn. rewrite !(wrap_small 32) by lia. lia. }
  split; [done|]. split; [done|]. split; [done|]. unfold data. rewrite Ed. cbn [read_table state_table_off mapping_table_off next_table].
  rewrite <- !Hil at 1. split.
  - rewrite slice_behind by lia. by apply body_states.
  - rewrite slice_behind by lia. by apply body_mapping.
Qed.

(** What [nmbm_try_load_info_table] makes of a table that is in the blocks from [ba] on. *)
Lemma runs_try_load `{!Crc32Laws crc32_le} i j ba k w :
  table_fits i -> config j = config i -> inst w j -> pages (bmtd w) -> all_good j ba (ba + Z.of_nat k) -> 32 <= bsize ->
  Z.of_nat k = blocks_for (info_table_size (config i)) -> Z.of_nat (length (info_table_cache j)) = info_table_size (config i) ->
  stored k (nand w) ba (table_bytes e crc32_le i) ->
  (forall b, ba <= b < ba + Z.of_nat k -> is_good (block_state i) b) ->
  0 <= data_block_count j <= Z.of_nat (length (block_mapping i)) ->
  (forall pb, pb ∈ u32 <$> take (Z.to_nat (data_block_count j)) (block_mapping i) ->
    (pb < data_block_count j \/ ba + Z.of_nat k <= pb) /\ pb <> signature_ba j) ->
  runs (nmbm_try_load_info_table e crc32_le ba false) w (fun r w' =>
    (exists m, r = Some (ba + Z.of_nat k, write_count (next_table i), u32 (m - 1)) /\ m <= signature_ba j /\
      (forall pb, pb ∈ u32 <$> take (Z.to_nat (data_block_count j)) (block_mapping i) -> ba + Z.of_nat k <= pb -> m <= pb)) /\
    exists j', inst w' j' /\ config j' = config i /\ block_state j' = block_state i /\ block_mapping j' = block_mapping i /\
      write_count (info_table j') = write_count (next_table i)).
Proof.
  intros Hf Ec Hi Hp Hg H32 Hk Hlc Hst Hgi Hdb Hmap. destruct (table_read i Hf) as (Hlen & Hck & Hhc & Hw & Ho1 & Ho2 & Hs1 & Hs2).
  set (data := table_bytes e crc32_le i) in *. set (t := info_table_of e data) in *.
  destruct (tf_order i Hf) as (O1 & O2 & O3). pose proof (tf_limit i Hf). pose proof (tf_states i Hf) as T1. pose proof (tf_mapping i Hf) as T2.
  unfold nmbm_try_load_info_table. apply runs_bind, runs_desc, runs_bind. eapply runs_instance; [done|].
  rewrite Ec, (size2blk_for _ _ (p_geometry _ Hp)) by lia.
  eapply runs_step.
  { apply (runs_load_blocks_good k _ ba 0 None w j data); try done; rewrite ?Ec; try lia; [by rewrite Nat.sub_0_r, Hlen|by split]. }
  intros r w1 (-> & [b1 E1] & S1). cbn [default]. set (j1 := set_cache data j).
  assert (Hi1 : inst w1 j1) by (unfold inst; by rewrite E1). apply runs_bind. eapply runs_instance; [done|].
  cbv zeta. change (info_table_cache j1) with data. change (config j1) with (config j). rewrite Ec, Hck. cbn [negb].
  fold t. assert (Hmo : forall w', inst w' j1 -> runs (mapping_of e t data) w' (fun r w2 => r = u32 <$> block_mapping i /\ w2 = w')).
  { intros w' Hi'. unfold mapping_of. apply runs_bind. eapply runs_instance; [done|]. change (config j1) with (config j). rewrite Ec.
    eapply runs_step; [apply runs_table_part; lia|]. intros r w2 [-> ->]. apply runs_ret. split; [|done]. rewrite Hs2.
    replace (Z.to_nat (mapping_table_size (config i) / 4)) with (length (block_mapping i));
      [apply words_array|rewrite T2, Z.mul_comm, Z.div_mul by lia; lia]. }
  assert (Hso : forall w', inst w' j1 -> runs (states_of e t data) w' (fun r w2 => r = block_state i /\ w2 = w')).
  { intros w' Hi'. unfold states_of. apply runs_bind. eapply runs_instance; [done|]. change (config j1) with (config j). rewrite Ec.
    eapply runs_step; [apply runs_table_part; lia|]. intros r w2 [-> ->]. apply runs_ret. split; [|done]. rewrite Hs1.
    replace (Z.to_nat (state_table_size (config i) / 4)) with (length (block_state i));
      [apply words_states, (tf_u32 i Hf)|rewrite T1, Z.mul_comm, Z.div_mul by lia; lia]. }
  destruct (check_mapping_ok j1 (ba + Z.of_nat k) (u32 <$> take (Z.to_nat (data_block_count j)) (block_mapping i)) (signature_ba j1) Hmap)
    as (m & Em & Hle & Hmin & _).
  eapply runs_step with (Q := fun o w2 => o = Some (u32 (m - 1)) /\ w2 = w1).
  { unfold nmbm_check_info_table. apply runs_bind. eapply runs_instance; [done|]. cbv zeta. fold t.
    eapply runs_step; [by apply Hmo|]. intros mapping w2 [-> ->]. eapply runs_step; [by apply Hso|]. intros states w2 [-> ->].
    rewrite length_fmap. change (data_block_count j1) with (data_block_count j).
    destruct (Z.ltb_spec (Z.of_nat (length (block_mapping i))) (data_block_count j)); [lia|].
    rewrite <- fmap_take, Em. eapply runs_step; [apply (runs_check_states _ _ _ w1 j1); [done|]|].
    - intros b Hb. split; [apply Hg; lia|apply Hgi; lia].
    - intros r w2 [-> ->]. by apply runs_ret. }
  intros o w2 [-> ->]. cbn [negb orb]. apply runs_bind. eapply runs_step; [by apply Hso|]. intros states w2 [-> ->].
  eapply runs_step; [by apply Hmo|]. intros mapping w2 [-> ->]. eapply runs_change_ni; [done|]. apply runs_ret. split.
  - exists m. split; [by rewrite Hw|]. split; [exact Hle|exact Hmin].
  - eexists. split; [reflexivity|]. cbn. split; [done|]. split; [done|]. split; [|done].
    rewrite <- list_fmap_compose. rewrite <- (list_fmap_id (block_mapping i)) at 2. apply list_fmap_ext.
    intros n x Hx. cbn. apply s32_u32. pose proof (tf_s32 i Hf) as Ha. rewrite Forall_lookup in Ha. by eapply Ha.
Qed.

(** C12. A table that is written to good blocks is loaded from there after a restart: the
    blocks and the mapping have the states and places they had, the write count is that of the
    table, and the topmost spare block is below all that are in use and the signature. *)
Theorem nmbm_table_reload `{!Crc32Laws crc32_le} i j ba k limit w :
  inst w i -> pages (bmtd w) -> fixed_ok i -> table_fits i -> all_good i ba (ba + Z.of_nat k) ->
  Z.of_nat k = blocks_for (info_table_size (config i)) -> ba + Z.of_nat k <= limit -> 32 <= bsize ->
  config j = config i -> all_good j ba (ba + Z.of_nat k) -> Z.of_nat (length (info_table_cache j)) = info_table_size (config i) ->
  0 <= data_block_count j <= Z.of_nat (length (block_mapping i)) ->
  (forall pb, pb ∈ u32 <$> take (Z.to_nat (data_block_count j)) (block_mapping i) ->
    (pb < data_block_count j \/ ba + Z.of_nat k <= pb) /\ pb <> signature_ba j) ->
  runs (nmbm_generate_info_table_cache e crc32_le;;
        r ← nmbm_write_info_table ba limit;
        change_desc (set_ni (Some j));;
        o ← nmbm_try_load_info_table e crc32_le ba false;
        mret (r, o)) w (fun r w' =>
    r.1 = Some (ba, ba + Z.of_nat k) /\
    (exists m, r.2 = Some (ba + Z.of_nat k, write_count (next_table i), u32 (m - 1)) /\ m <= signature_ba j /\
      (forall pb, pb ∈ u32 <$> take (Z.to_nat (data_block_count j)) (block_mapping i) -> ba + Z.of_nat k <= pb -> m <= pb)) /\
    exists j', inst w' j' /\ block_state j' = block_state i /\ block_mapping j' = block_mapping i /\
      write_count (info_table j') = write_count (next_table i)).
Proof.
  intros Hi Hp Hx Hf Hg Hk Hl H32 Ec Hgj Hlc Hdb Hmap. destruct (table_read i Hf) as (Hlen & _).
  eapply runs_step; [apply (manages_generate e crc32_le (fun _ => False) i Hx w Hi Hp)|].
  intros r w1 (i1 & b1 & E1 & _ & _ & -> & ->).
  set (i1 := set_cache (table_bytes e crc32_le i) (set_info_table (next_table i) i)) in *.
  assert (Hi1 : inst w1 i1) by (unfold inst; by rewrite E1).
  assert (Hp1 : pages (bmtd w1)) by (rewrite E1; by apply pages_set_ni).
  eapply runs_step.
  { unfold nmbm_write_info_table, nmbm_write_mgmt_range. apply runs_bind. eapply runs_instance; [done|].
    apply (runs_write_mgmt_good k _ ba _ None w1 i1); try done; try lia.
    - apply (fx_raw i Hx).
    - change (info_table_cache i1) with (table_bytes e crc32_le i). change (config i1) with (config i).
      rewrite take_ge by lia. by rewrite Hlen.
    - intros _ E. apply (f_equal length) in E. rewrite length_take in E. change (info_table_cache i1) with (table_bytes e crc32_le i) in E.
      change (config i1) with (config i) in E. pose proof (fx_header i Hx). cbn in E. lia. }
  intros r w2 (-> & [b2 E2] & S2 & St). apply runs_bind, runs_change_desc. set (w3 := BmtWorld _ _).
  assert (Hp3 : pages (bmtd w3)).
  { cbn. rewrite E2. by apply pages_set_ni. }
  change (info_table_cache i1) with (table_bytes e crc32_le i) in St. change (config i1) with (config i) in St.
  rewrite take_ge in St by lia.
  eapply runs_step; [apply (runs_try_load i j ba k w3); try done|].
  { intros b Hb. by apply Hg. }
  intros o w4 (Ho & j' & H1 & H2 & H3 & H4 & H5). apply runs_ret. cbn [fst snd]. split; [done|]. split; [exact Ho|]. by exists j'.
Qed.
End Good.

(** ** The backend *)

Section Backend.
Context {N : Type} `{Nand N, !Chip N, !ChipLaws N, !ChipFrame N, !ChipMarks N} (e : endian) (crc32_le : Z -> list Z -> Z).
Implicit Types (w : bmt_world N) (d : bmt_desc).

Context (lcount : Z) (lcount_range : 0 <= lcount <= 65536).

Definition place_in (i : nmbm_instance) (b : Z) : Z := default (-1) (block_mapping i !! Z.to_nat b).

(** The instance has the tables in order, every logical block has a place of its own outside of
    the management area, and the blocks in there and the spare ones are good. *)
Record inst_ok (i : nmbm_instance) : Prop := {
  io_fixed : fixed_ok i;
  io_areas : areas i;
  io_count : data_block_count i = lcount;
  io_length : lcount <= Z.of_nat (length (block_mapping i));
  io_place : forall b, 0 <= b < lcount ->
    0 <= place_in i b < block_count (config i) /\ ~ (mgmt_start_ba i <= place_in i b <= mapping_blocks_top_ba i);
  io_inj : forall b c, 0 <= b < lcount -> 0 <= c < lcount -> place_in i b = place_in i c -> b = c;
  io_good : forall b, mgmt_start_ba i <= b <= mapping_blocks_top_ba i -> good_block b /\ is_good (block_state i) b
}.

Record nmbm_inv d : Prop := {
  ni_pages : pages d;
  ni_range : forall b, 0 <= b < lcount -> exists r, mapping_block_in_range d b = Some r;
  ni_inst : exists i, ni d = Some i /\ inst_ok i
}.

Definition nmbm_place d (b : Z) : Z := match ni d with Some i => place_in i b | None => -1 end.

(** A description that differs in the instance and the cache for pages. *)
Lemma inv_with d i x : nmbm_inv d -> inst_ok i -> nmbm_inv (set_ni (Some i) (set_data x d)).
Proof. intros [Hp Hr _] Hi. split; [by apply pages_set_ni|exact Hr|by exists i]. Qed.

(** Blocks in the management area stay good if those outside change. *)
Lemma inst_ok_state i l c ba s : inst_ok i -> ~ (mgmt_start_ba i <= ba <= mapping_blocks_top_ba i) ->
  length l = length (block_state i) ->
  (forall x, 0 <= x -> nmbm_get_block_state_raw l x = if x =? ba then Some s else nmbm_get_block_state_raw (block_state i) x) ->
  inst_ok (set_state l c i).
Proof.
  intros [Hf Ha Hc Hl Hp Hj Hg] Hout El Hs. pose proof (fx_start _ Hf). split; try done.
  - destruct Hf. split; try done. unfold covers in *. cbn. by rewrite El.
  - destruct Ha. by split.
  - intros b Hb. cbn in Hb. destruct (Hg b Hb) as [G1 G2]. split; [done|]. unfold is_good. cbn. rewrite Hs by lia.
    destruct (Z.eqb_spec b ba) as [->|]; [done|exact G2].
Qed.

(** The topmost spare block is given to a block. *)
Lemma inst_ok_mapped i b : inst_ok i -> 0 <= b < lcount -> mapping_blocks_ba i < mapping_blocks_top_ba i ->
  let i' := with_block b (mapping_blocks_top_ba i) i in
  inst_ok i' /\ forall c, 0 <= c < lcount -> place_in i' c = if c =? b then mapping_blocks_top_ba i else place_in i c.
Proof.
  intros [Hf Ha Hc Hl Hp Hj Hg] Hb Ht i'. pose proof (fx_start _ Hf) as Hs. pose proof (fx_top _ Hf). pose proof (fx_limit _ Hf).
  assert (Etop : mapping_blocks_top_ba i' = mapping_blocks_top_ba i - 1) by (cbn; apply wrap_small; lia).
  assert (Hpl : forall c, 0 <= c < lcount -> place_in i' c = if c =? b then mapping_blocks_top_ba i else place_in i c).
  { intros c Hcr. unfold place_in. cbn. destruct (Z.eqb_spec c b) as [->|Hne].
    - rewrite list_lookup_insert_eq by lia. done.
    - rewrite list_lookup_insert_ne by lia. done. }
  split; [|exact Hpl]. split.
  - destruct Hf, Ha. split; rewrite ?Etop; try done; cbn; lia.
  - destruct Ha. split; rewrite ?Etop; try done. cbn. lia.
  - exact Hc.
  - cbn. by rewrite length_insert.
  - intros c Hcr. rewrite Hpl, Etop by done. change (config i') with (config i). change (mgmt_start_ba i') with (mgmt_start_ba i).
    destruct (Z.eqb_spec c b); [lia|]. destruct (Hp c Hcr). lia.
  - intros c1 c2 R1 R2. rewrite !Hpl by done. destruct (Hp c1 R1), (Hp c2 R2).
    destruct (Z.eqb_spec c1 b), (Z.eqb_spec c2 b); try lia. by apply Hj.
  - intros x Hx. rewrite Etop in Hx. change (mgmt_start_ba i') with (mgmt_start_ba i) in Hx. apply (Hg x). lia.
Qed.

(** Updating the tables keeps all that. *)
Lemma inst_ok_stays i i' : inst_ok i -> stays good_block i i' -> areas i' -> inst_ok i'.
Proof.
  intros [Hf Ha Hc Hl Hp Hj Hg] Hs Ha'. assert (Hpl : forall b, place_in i' b = place_in i b).
  { intros b. unfold place_in. by rewrite (st_mapping _ _ _ Hs). }
  pose proof (fx_start _ Hf). split.
  - by eapply fixed_stays.
  - done.
  - by rewrite (st_data _ _ _ Hs).
  - by rewrite (st_mapping _ _ _ Hs).
  - intros b Hb. rewrite Hpl, (st_config _ _ _ Hs), (st_start _ _ _ Hs), (st_top _ _ _ Hs). by apply Hp.
  - intros b c. rewrite !Hpl. apply Hj.
  - intros b. rewrite (st_start _ _ _ Hs), (st_top _ _ _ Hs). intros Hb. destruct (Hg b Hb) as [G1 G2]. split; [done|].
    destruct (st_worse _ _ _ Hs) as [_ W]. destruct (W b) as [Q|(_ & _ & Q)]; [lia| |done]. unfold is_good. by rewrite Q.
Qed.

Lemma runs_update_good w i : inst w i -> pages (bmtd w) -> inst_ok i ->
  runs (nmbm_update_info_table e crc32_le) w (fun _ w' => exists i' b,
    bmtd w' = set_ni (Some i') (set_data b (bmtd w)) /\ inst_ok i' /\ (forall c, place_in i' c = place_in i c) /\
    same_outside (between (mgmt_start_ba i) (mapping_blocks_top_ba i)) (nand w) (nand w')).
Proof.
  intros Hi Hp Hok. eapply runs_mono.
  - apply (manages_update e crc32_le good_block); [| | |apply (io_fixed i Hok)|apply (io_areas i Hok)|exact Hi|exact Hp].
    + intros n b Hb. by apply good_marks.
    + intros w0 i0 b Hb Hi0 Hp0 _ H16. eapply runs_mono; [by eapply runs_erase_block_good|]. by intros r w1 (-> & _).
    + intros w0 i0 b chunk Hb Hi0 Hp0 Hraw _ H16 Hl. eapply runs_mono; [by eapply runs_write_block_good|]. by intros r w1 (-> & _).
  - intros r w' (i' & b & E & S & St & Ha & _). exists i', b. split; [done|]. split; [by eapply inst_ok_stays|]. split; [|done].
    intros c. unfold place_in. by rewrite (st_mapping _ _ _ St).
Qed.

(** The topmost spare block is good, so that it is the one a block gets. *)
Lemma runs_map_top w i b : inst w i -> inst_ok i -> 0 <= b < lcount ->
  runs (nmbm_map_block e crc32_le b) w (fun r w' =>
    if mapping_blocks_ba i =? mapping_blocks_top_ba i then r = false /\ w' = w
    else r = true /\ w' = BmtWorld (set_ni (Some (with_block b (mapping_blocks_top_ba i) i)) (bmtd w)) (nand w)).
Proof.
  intros Hi Hok Hb. pose proof (io_fixed i Hok) as Hf. pose proof (fx_start i Hf). pose proof (fx_top i Hf).
  pose proof (fx_limit i Hf). pose proof (a_mapping _ (io_areas i Hok)).
  destruct (Z.eqb_spec (mapping_blocks_ba i) (mapping_blocks_top_ba i)) as [E|E].
  - unfold nmbm_map_block. apply runs_bind. eapply runs_instance; [done|]. rewrite E, Z.eqb_refl. by apply runs_ret.
  - eapply runs_mono; [apply (runs_map_block e crc32_le w i b 0); [done|lia|lia|lia| |]|].
    + split; [|intros j Hj; lia]. change (Z.of_nat 0) with 0. rewrite Z.sub_0_r. apply (io_good i Hok). lia.
    + pose proof (io_length i Hok). lia.
    + intros r w' Hr. change (Z.of_nat 0) with 0 in Hr. by rewrite Z.sub_0_r in Hr.
Qed.

Lemma runs_mapping_at w i b : inst w i -> 0 <= b -> 0 <= place_in i b ->
  runs (mapping_at b) w (fun r w' => r = place_in i b /\ w' = w).
Proof.
  intros Hi Hb. unfold place_in, mapping_at. intros Hp. apply runs_bind. eapply runs_instance; [done|].
  destruct (Z.leb_spec 0 b); [|lia]. destruct (block_mapping i !! Z.to_nat b); [by apply runs_defined|cbn in Hp; lia].
Qed.

(** A spare block is erased and filled, and the tables are written. *)
Lemma remap_nmbm_law w b len :
  nmbm_inv (bmtd w) -> 0 <= b < lcount -> 0 <= len <= bsize -> (psize | len) ->
  runs (remap_block_nmbm e crc32_le b (nmbm_place (bmtd w) b) len) w (fun r w' =>
    nmbm_inv (bmtd w') /\
    (forall c, 0 <= c < lcount -> c <> b ->
       nmbm_place (bmtd w') c = nmbm_place (bmtd w) c /\
       content (nand w') (nmbm_place (bmtd w) c) = content (nand w) (nmbm_place (bmtd w) c)) /\
    if r : bool then
      bad (nmbm_place (bmtd w') b) = false /\
      content (nand w') (nmbm_place (bmtd w') b) =
      take (Z.to_nat len) (content (nand w) (nmbm_place (bmtd w) b)) ++ replicate (Z.to_nat (bsize - len)) 255
    else
      nmbm_place (bmtd w') b = nmbm_place (bmtd w) b /\
      content (nand w') (nmbm_place (bmtd w) b) = content (nand w) (nmbm_place (bmtd w) b)).
Proof.
  intros Hv Hb Hlen Hd. pose proof (ni_pages _ Hv) as Hp. destruct (ni_inst _ Hv) as (i & Ei & Hok).
  pose proof (io_fixed i Hok) as Hf. pose proof (fx_start i Hf). pose proof (fx_top i Hf). pose proof (fx_limit i Hf).
  pose proof (fx_count i Hf). pose proof (a_mapping _ (io_areas i Hok)).
  assert (Epl : forall c, nmbm_place (bmtd w) c = place_in i c) by (intros c; unfold nmbm_place; by rewrite Ei).
  rewrite !Epl. destruct (io_place i Hok b Hb) as [Hpr Hpo]. set (pb := place_in i b) in *. set (top := mapping_blocks_top_ba i) in *.
  unfold remap_block_nmbm. apply runs_bind. eapply runs_instance; [exact Ei|]. rewrite (io_count i Hok).
  destruct (Z.leb_spec lcount b); [lia|].
  eapply runs_step; [apply (runs_put_state w i pb BLOCK_ST_BAD Ei)|].
  { apply (state_unit_lt (block_count (config i))); [apply (fx_covers i Hf)|done]. } { lia. } { unfold BLOCK_ST_BAD. lia. }
  intros changed w1 (l & c & -> & El & Hl). set (i1 := set_state l c i).
  assert (Hok1 : inst_ok i1) by by apply (inst_ok_state i l c pb BLOCK_ST_BAD).
  eapply runs_step; [by apply (runs_map_top _ i1 b)|]. change (mapping_blocks_ba i1) with (mapping_blocks_ba i).
  change (mapping_blocks_top_ba i1) with top. cbn [bmtd nand]. intros r w2 Hr2.
  destruct (Z.eqb_spec (mapping_blocks_ba i) top) as [Em|Em]; destruct Hr2 as [-> ->].
  - apply runs_ret. split; [rewrite <- (set_data_same (bmtd w)); by apply inv_with|]. split; [|done]. intros x Hx _. by rewrite !Epl.
  - destruct (inst_ok_mapped i1 b Hok1 Hb) as [Hok2 Hpl2]; [change (mapping_blocks_ba i < top); lia|].
    change (mapping_blocks_top_ba i1) with top in Hok2, Hpl2. set (i2 := with_block b top i1) in *.
    destruct (io_good i Hok top) as [Htg _]; [fold top; lia|].
    assert (Epb2 : place_in i2 b = top) by (rewrite Hpl2, Z.eqb_refl by done; done).
    assert (Etop2 : mapping_blocks_top_ba i2 = top - 1) by (cbn; apply wrap_small; fold top; lia).
    replace (set_ni (Some i2) (set_ni (Some i1) (bmtd w))) with (set_ni (Some i2) (bmtd w)) by done.
    set (d2 := set_ni (Some i2) (bmtd w)). assert (Hp2 : pages d2).
    { unfold d2. rewrite <- (set_data_same (bmtd w)). by apply pages_set_ni. }
    eapply runs_step; [apply (runs_mapping_at _ i2); [done|lia|lia]|]. intros r w2 [-> ->]. rewrite Epb2, !(wrap_small 16) by lia.
    apply (runs_fill d2 pb top len (BmtWorld d2 (nand w))); try done; [lia|apply Htg|lia|apply Htg|].
    intros w3 [x E3] S3 Hpre. cbn [nand] in S3.
    eapply runs_step; [apply (runs_update_good w3 i2)|].
    + unfold inst. by rewrite E3.
    + rewrite E3. by apply pages_data.
    + done.
    + intros r w4 (i4 & x4 & E4 & Hok4 & Hpl4 & S4). apply runs_ret.
      assert (Ed4 : bmtd w4 = set_ni (Some i4) (set_data x4 (bmtd w))) by by rewrite E4, E3.
      assert (Epl4 : forall y, nmbm_place (bmtd w4) y = place_in i2 y).
      { intros y. unfold nmbm_place. rewrite Ed4. apply Hpl4. }
      rewrite Etop2 in S4. change (mgmt_start_ba i2) with (mgmt_start_ba i) in S4.
      assert (Hkeep : forall y, 0 <= y < lcount -> content (nand w4) (place_in i y) = content (nand w) (place_in i y)).
      { intros y Hy. destruct (io_place i Hok y Hy) as [_ Ho]. fold top in Ho. rewrite S4 by (unfold between; lia). apply S3. lia. }
      split; [rewrite Ed4; by apply inv_with|]. split.
      * intros y Hy Hne. rewrite Epl4, Epl, Hpl2 by done. destruct (Z.eqb_spec y b); [done|]. split; [done|by apply Hkeep].
      * rewrite Epl4, Epb2. split; [apply Htg|]. rewrite S4 by (unfold between; lia). rewrite Hpre. f_equal. f_equal.
        rewrite S3 by lia. done.
Qed.

(** The backend keeps what the layer above relies on. *)
#[export] Instance nmbm_laws : MapLaws N (mtk_bmt_nmbm_ops e crc32_le).
Proof.
  refine {| nblocks := lcount; inv := nmbm_inv; place := nmbm_place |}.
  - done.
  - intros d Hv. apply (ni_pages d Hv).
  - intros d b Hv. by apply (ni_range d Hv).
  - intros d b Hv Hb. destruct (ni_inst d Hv) as (i & Ei & Hok). unfold nmbm_place. rewrite Ei.
    destruct (io_place i Hok b Hb) as [Hpr Hpo]. pose proof (fx_count i (io_fixed i Hok)). pose proof (fx_limit i (io_fixed i Hok)). lia.
  - intros d b c Hv Hb Hc. destruct (ni_inst d Hv) as (i & Ei & Hok). unfold nmbm_place. rewrite Ei. by apply (io_inj i Hok).
  - intros w b Hv Hb. destruct (ni_inst _ Hv) as (i & Ei & Hok).
    cbn [get_mapping_block mtk_bmt_nmbm_ops]. unfold get_mapping_block_index_nmbm, mapping_at, instance, desc, defined, mbind, prog_bind, get_st, mret, prog_ret.
    unfold nmbm_place. rewrite Ei. rewrite wrap_small by lia. rewrite (io_count i Hok).
    destruct (Z.leb_spec lcount b); [lia|]. rewrite Ei. destruct (Z.leb_spec 0 b); [|lia].
    destruct (io_place i Hok b Hb) as [Hpr _]. unfold place_in in *. destruct (block_mapping i !! Z.to_nat b); [done|cbn in Hpr; lia].
  - exact remap_nmbm_law.
Defined.

(** C8. Assumed are good blocks in the management area, where the spare blocks and the
    tables are ([nmbm_inv]), and a chip whose reads return the data, with any number of bits
    corrected ([chip_read]). Then data that is written to erased pages of the mapped device
    and read back is there, no other byte of the device has changed, and the tables stay in
    order, whatever blocks of the data area fail to write and however often a read corrects
    so many bits that the block is replaced. If a block fails that cannot be replaced, an
    error is returned; then the bytes in front of it are written and the other blocks are as
    they were. *)
Theorem nmbm_write_read k f a dat z w :
  nmbm_inv (bmtd w) -> 0 <= a -> a + Z.of_nat (length dat) <= z * bsize -> z <= lcount -> Z.of_nat (length dat) < 2 ^ 32 ->
  (psize | a mod bsize) -> a mod bsize + Z.of_nat (length dat) <= Z.of_nat k * bsize -> (2 * k + 1 <= f)%nat ->
  (forall x, a <= x < z * bsize -> byte (mtk_bmt_nmbm_ops e crc32_le) w x = Some 255) ->
  runs (r ← mtk_bmt_write (mtk_bmt_nmbm_ops e crc32_le) f a dat [] 0;
        b ← mtk_bmt_read (mtk_bmt_nmbm_ops e crc32_le) f a (Z.of_nat (length dat)) 0 0;
        mret (r.1.1, r.1.2, b.1.1, b.1.2)) w
    (fun r w' => let '(ret, retlen, flips, back) := r in
     nmbm_inv (bmtd w') /\ 0 <= flips /\
     ((ret = 0 /\ retlen = Z.of_nat (length dat) /\ back = dat /\ updated (mtk_bmt_nmbm_ops e crc32_le) a dat w w') \/
      (ret < 0 /\ written (mtk_bmt_nmbm_ops e crc32_le) a dat retlen w w'))).
Proof. exact (write_read (mtk_bmt_nmbm_ops e crc32_le) k f a dat z w). Qed.
End Backend.
