(* ===== verification/BmtAttach.v ===== *)
(** * Attaching the mapped device

    Models [mtk_bmt_attach] and [mtk_bmt_detach] of
    [target/linux/generic/files/drivers/mtd/nand/mtk_bmt.c]: one device at a time gets the
    functions of [Bmt] in place of its own, with the backend its device node names. *)

From Stdlib Require Import ZArith Lia.
From stdpp Require Import base list numbers option.
From S2P Require Import Prelude Bmt BmtBbt BmtV2 Nmbm.

Definition ENOSPC : Z := 28.

(** What of a device the layer reads and changes; its chip; and whether it has the functions
    of the layer. *)
Record mtd_info (N : Type) := MtdInfo {
  m_size : Z;
  m_erasesize : Z;
  m_writesize : Z;
  m_oobsize : Z;
  m_threshold : Z;
  m_strength : Z;
  m_mapped : bool;
  m_chip : N
}.
Arguments MtdInfo {N}.
Arguments m_size {N}.
Arguments m_erasesize {N}.
Arguments m_writesize {N}.
Arguments m_oobsize {N}.
Arguments m_threshold {N}.
Arguments m_strength {N}.
Arguments m_mapped {N}.
Arguments m_chip {N}.

(** The properties of a device node; a number may be missing. *)
Record device_node := DeviceNode {
  p_bmt_v2 : bool;
  p_nmbm : bool;
  p_bbt : bool;
  p_remap_range : list (Z * Z);
  p_overridden_oobsize : option Z;
  p_pool_size : option Z;
  p_oob_offset : option Z;
  p_table_size : option Z;
  p_max_ratio : option Z;
  p_max_reserved : option Z;
  p_ecc_protected : bool;
  p_force_create : bool
}.

Inductive backend := BMT_V2 | NMBM | BBT.

(** [bmtd.mtd], [bmtd] and all devices. *)
Record mtd_world (N : Type) := MtdWorld {
  owner : option Z;
  bmt : bmt_desc;
  devices : Z -> mtd_info N
}.
Arguments MtdWorld {N}.
Arguments owner {N}.
Arguments bmt {N}.
Arguments devices {N}.

(** The lowest bit that is set, counted from 1. *)
Definition ffs (z : Z) : Z := if z =? 0 then 0 else Z.log2 (Z.land z (- z)) + 1.

Definition no_desc : bmt_desc := BmtDesc [] [] 0 0 0 0 0 0 0 0 0 0 0 [] 0 0 0 0 0 0 None.

Section Attach.
Context {N : Type} `{Nand N} (e : endian) (crc32_le : Z -> list Z -> Z).

Definition set_device (m : Z) (i : mtd_info N) (w : mtd_world N) : mtd_world N :=
  MtdWorld (owner w) (bmt w) (fun x => if x =? m then i else devices w x).

Definition mtk_bmt_replace_ops (m : Z) : prog (mtd_world N) unit :=
  modify (fun w => let i := devices w m in
    set_device m (MtdInfo (m_size i) (m_erasesize i) (m_writesize i) (m_oobsize i) (m_threshold i) (m_strength i) true (m_chip i)) w).

Definition backend_of (np : device_node) : option backend :=
  if p_bmt_v2 np then Some BMT_V2 else if p_nmbm np then Some NMBM else if p_bbt np then Some BBT else None.

(** [init] of the backend, with the defaults for what the node does not say. *)
Definition backend_init (b : backend) (np : device_node) (alloc : bool) : prog (bmt_world N) Z :=
  match b with
  | BMT_V2 => mtk_bmt_init_v2 e (default 80 (p_pool_size np)) (default 0x2000 (p_table_size np)) alloc
  | NMBM => mtk_bmt_init_nmbm e crc32_le (default 1 (p_max_ratio np)) (default 256 (p_max_reserved np))
              (p_ecc_protected np) (p_force_create np) alloc
  | BBT => mtk_bmt_init_bbt alloc
  end.

(** A program on [bmtd] and the chip of a device, whose size it may change. *)
Definition on_device {A} (m : Z) (p : prog (bmt_world N) A) : prog (mtd_world N) A := fun w =>
  let i := devices w m in
  match p (BmtWorld (bmt w) (m_chip i)) with
  | Ret a w' =>
      let d := bmtd w' in
      Ret a (set_device m (MtdInfo (mtd_size d) (m_erasesize i) (m_writesize i) (m_oobsize i) (m_threshold i) (m_strength i)
        (m_mapped i) (nand w')) (MtdWorld (owner w) d (devices w)))
  | Exit k w' => Exit k w
  | Undef => Undef
  end.

(** Freeing the buffers leaves nothing that can be seen. *)
Definition mtk_bmt_detach (m : Z) : prog (mtd_world N) unit :=
  w ← get_st;
  if negb (bool_decide (owner w = Some m)) then mret tt
  else
    let i := devices w m in
    let d := bmt w in
    modify (set_device m (MtdInfo (u64 (s32 (Z.shiftl (total_blks d) (blk_shift d)))) (m_erasesize i) (m_writesize i)
      (m_oobsize i) (m_threshold i) (m_strength i) false (m_chip i)));;
    modify (fun w => MtdWorld None no_desc (devices w)).

(** What [bmtd] gets from the device and its node; [bmt_idx] and the like are zero. *)
Definition described (np : device_node) (b : backend) (i : mtd_info N) : bmt_desc :=
  let blk_shift := u16 (ffs (m_erasesize i) - 1) in
  BmtDesc [] [] 0 (m_writesize i) (m_erasesize i) (u16 (ffs (m_writesize i) - 1)) blk_shift 0 0 0
    (u16 (Z.shiftr (m_size i) blk_shift)) 0 0 (p_remap_range np)
    (match b with BMT_V2 => default 0 (p_oob_offset np) | _ => 0 end)
    (m_size i) (m_erasesize i) (m_oobsize i) (m_threshold i) (m_strength i) None.

(** [alloc] and [alloc_init]: the buffer for a page and the memory of the backend can be had. *)
Definition mtk_bmt_attach (m : Z) (np : option device_node) (alloc alloc_init : bool) : prog (mtd_world N) Z :=
  w ← get_st;
  match owner w, np with
  | Some _, _ => mret (- ENOSPC)
  | None, None => mret 0
  | None, Some np =>
      match backend_of np with
      | None => mret 0
      | Some b =>
          modify (fun w => MtdWorld (Some m) (bmt w) (devices w));;
          mtk_bmt_replace_ops m;;
          w ← get_st;
          let i := devices w m in
          let oobsize := match p_overridden_oobsize np with
                         | Some n => if n <? m_oobsize i then n else m_oobsize i
                         | None => m_oobsize i
                         end in
          let i := MtdInfo (m_size i) (m_erasesize i) (m_writesize i) oobsize (m_threshold i) (m_strength i) (m_mapped i) (m_chip i) in
          modify (set_device m i);;
          modify (fun w => MtdWorld (owner w) (described np b i) (devices w));;
          if negb alloc then mtk_bmt_detach m;; mret (-1)
          else
            on_device m (change_desc (set_data (replicate (Z.to_nat (m_writesize i + m_oobsize i)) 255)));;
            ret ← on_device m (backend_init b np alloc_init);
            if negb (ret =? 0) then mtk_bmt_detach m;; mret ret else mret 0
      end
  end.
End Attach.

Section Facts.
Context {N : Type} `{Nand N} (e : endian) (crc32_le : Z -> list Z -> Z).

Lemma ffs_pow n : 0 <= n -> ffs (2 ^ n) = n + 1.
Proof.
  intros Hn. unfold ffs. assert (0 < 2 ^ n) by (apply Z.pow_pos_nonneg; lia). destruct (Z.eqb_spec (2 ^ n) 0); [lia|].
  assert (E : Z.land (2 ^ n) (- 2 ^ n) = 2 ^ n); [|by rewrite E, Z.log2_pow2].
  apply Z.bits_inj'. intros i Hi. replace (- 2 ^ n) with (Z.lnot (2 ^ n - 1)) by (unfold Z.lnot; lia).
  rewrite Z.land_spec, Z.lnot_spec by done. replace (2 ^ n - 1) with (Z.ones n) by (rewrite Z.ones_equiv; lia).
  rewrite Z.pow2_bits_eqb by done. destruct (Z.eqb_spec n i) as [->|]; [|done]. by rewrite Z.ones_spec_high by lia.
Qed.

(** A device of [k] blocks below 2 GiB. *)
Lemma detach_size k n : 0 <= k < 2 ^ 16 -> 0 <= n < 2 ^ 16 -> k * 2 ^ n < 2 ^ 31 ->
  u64 (s32 (Z.shiftl (u16 (Z.shiftr (k * 2 ^ n) n)) n)) = k * 2 ^ n.
Proof.
  intros Hk Hn Hs. assert (0 < 2 ^ n) by (apply Z.pow_pos_nonneg; lia). rewrite Z.shiftr_div_pow2, Z.div_mul by lia.
  rewrite (wrap_small 16) by lia. rewrite Z.shiftl_mul_pow2 by lia. unfold swrap. rewrite Z.mod_small, Z.add_simpl_r by lia. apply wrap_small. nia.
Qed.

(** Without memory for the page the device is as it was, but for the size of the spare area. *)
Lemma attach_without_memory m np b k n alloc_init w :
  owner w = None -> backend_of np = Some b -> m_mapped (devices w m) = false ->
  0 <= k < 2 ^ 16 -> 0 <= n < 2 ^ 16 -> k * 2 ^ n < 2 ^ 31 -> m_erasesize (devices w m) = 2 ^ n -> m_size (devices w m) = k * 2 ^ n ->
  runs (mtk_bmt_attach e crc32_le m (Some np) false alloc_init) w (fun r w' =>
    r = -1 /\ owner w' = None /\ bmt w' = no_desc /\
    m_mapped (devices w' m) = false /\ m_size (devices w' m) = m_size (devices w m) /\
    m_chip (devices w' m) = m_chip (devices w m) /\ m_oobsize (devices w' m) <= m_oobsize (devices w m) /\
    forall x, x <> m -> devices w' x = devices w x).
Proof.
  intros Ho Hb Hm Hk Hn Hs He Hz. unfold runs, mtk_bmt_attach, mtk_bmt_detach, mtk_bmt_replace_ops, get_st, modify, mbind, prog_bind.
  rewrite Ho, Hb. cbn. rewrite !Z.eqb_refl. rewrite bool_decide_eq_true_2 by done. cbn. rewrite !Z.eqb_refl. cbn.
  rewrite He, Hz, ffs_pow, Z.add_simpl_r by lia. rewrite (wrap_small 16 n) by lia. rewrite detach_size by done.
  repeat (split; [done|]). split.
  - destruct (p_overridden_oobsize np) as [x|]; [|done]. destruct (Z.ltb_spec x (m_oobsize (devices w m))); lia.
  - intros x Hx. by destruct (Z.eqb_spec x m).
Qed.

(** A second device is turned down. *)
Lemma attach_busy m m' np a1 a2 w : owner w = Some m' ->
  mtk_bmt_attach e crc32_le m np a1 a2 w = Ret (- ENOSPC) w.
Proof. intros Ho. unfold mtk_bmt_attach, get_st, mbind, prog_bind. by rewrite Ho. Qed.
End Facts.
