(* ===== verification/BmtExample.v ===== *)
(** * Small chips

    A chip of eight blocks of 64 bytes that satisfies [ChipLaws] and a device on it, and one
    of 32 blocks for the managed mapping; the theorems at work, and what happens outside of
    their hypotheses. *)

From Stdlib Require Import ZArith Lia.
From stdpp Require Import base list numbers option.
From S2P Require Import Prelude Bmt BmtBbt BmtV2 BmtBbtProofs BmtV2Proofs BmtDevice BmtV2Device Nmbm NmbmFacts NmbmProofs NmbmDevice BmtAttach.

Module Small.
Definition cells : Type := Z -> list Z.

Definition put (b : Z) (l : list Z) (n : cells) : cells := fun c => if c =? b then l else n c.
Definition bytes_in (n : cells) (b : Z) : list Z := resize 64 0 (n b).

(** Writing to or erasing a failing block is an input/output error; what reading a block
    returns is given. *)
Definition driver_reading (code : Z -> Z) (fails : Z -> bool) : Nand cells := {|
  _read_oob addr len ool oo n := (code (addr / 64), slice (Z.to_nat (addr mod 64)) (Z.to_nat len) (bytes_in n (addr / 64)), replicate (Z.to_nat ool) 255, n);
  _write_oob addr dat oob oo n :=
    if fails (addr / 64) then (- EIO, 0, 0, n)
    else (0, Z.of_nat (length dat), Z.of_nat (length oob),
          put (addr / 64) (Prelude.write (Z.to_nat (addr mod 64)) dat (bytes_in n (addr / 64))) n);
  _erase addr len n := if fails (addr / 64) then (- EIO, n) else (0, put (addr / 64) (replicate 64 255) n);
  _block_isbad addr n := (0, n);
  _block_markbad addr n := (0, n)
|}.

(** Block 4 has three flipped bits. *)
#[export] Instance driver (fails : Z -> bool) : Nand cells := driver_reading (fun b => if b =? 4 then 3 else 0) fails.

#[export] Instance chip (fails : Z -> bool) : Chip cells := {|
  content := bytes_in; bad := fails; chip_blocks := 8; bsize := 64; psize := 16
|}.

Lemma bytes_length n b : length (bytes_in n b) = 64%nat.
Proof. apply length_resize. Qed.

Lemma address b off : 0 <= off < 64 -> (b * 64 + off) / 64 = b /\ (b * 64 + off) mod 64 = off.
Proof.
  intros Ho. split.
  - symmetry. apply Z.div_unique with off; lia.
  - symmetry. apply Z.mod_unique with b; lia.
Qed.

Lemma bytes_put n b l : length l = 64%nat -> bytes_in (put b l n) b = l.
Proof. intros Hl. unfold bytes_in, put. rewrite Z.eqb_refl. by apply resize_all_alt. Qed.

Lemma bytes_put_ne n b l c : c <> b -> bytes_in (put b l n) c = bytes_in n c.
Proof. intros Hc. unfold bytes_in, put. by destruct (Z.eqb_spec c b). Qed.

Lemma small_laws fails : @ChipLaws cells (driver fails) (chip fails).
Proof.
  split; cbn.
  - intros n b Hb. by rewrite bytes_length.
  - intros n b off len ool oo Hb Ho Hl Hs Hool. destruct (address b off Ho) as [-> ->].
    rewrite length_replicate. split; [by destruct (b =? 4)|]. split; [done|]. split; [lia|done].
  - intros n b off dat oob oo Hb Ho Hs Hg He. destruct (address b off Ho) as [-> ->]. rewrite Hg.
    split; [done|]. split; [done|]. split; [done|]. split; [|intros c Hc; by apply bytes_put_ne].
    apply bytes_put. rewrite length_write; rewrite bytes_length; lia.
  - intros n b off dat oob oo Hb Ho Hs Hg. destruct (address b off Ho) as [-> ->]. rewrite Hg. done.
  - intros n b Hb. destruct (address b 0 ltac:(lia)) as [E _]. rewrite Z.add_0_r in E. rewrite E. destruct (fails b); [done|].
    split; [intros c Hc; by apply bytes_put_ne|]. split; [done|]. by apply bytes_put.
Qed.

(** Four blocks for data, three in the pool, the last of them for the table. *)
Definition table : list Z :=
  [66; 77; 84; 2] ++ [0; 0; 1; 0; 2; 0; 3; 0; 0; 0; 0; 0; 0; 0; 0; 0] ++
  [4; 0; 0; 0; 5; 0; 0; 0; 6; 0; 2; 0] ++ replicate 16 0.

Definition desc : bmt_desc := {|
  bbt_buf := table; data_buf := replicate 16 255; table_size := 8; pg_size := 16; blk_size := 64; pg_shift := 4;
  blk_shift := 6; pool_lba := 4; pool_pba := 4; bb_max := 2; total_blks := 8; bmt_blk_idx := 2; bmt_pgs := 3;
  remap_range := []; oob_offset := 0; mtd_size := 128; erasesize := 64; oobsize := 64; bitflip_threshold := 3; ecc_strength := 4; ni := None
|}.

(** The first page of block 1 is written. *)
Definition cells0 : cells := fun b => if b =? 1 then replicate 16 7 ++ replicate 48 255 else replicate 64 255.
Definition world : bmt_world cells := BmtWorld desc cells0.

(** Block 1 fails. *)
Definition fails1 (b : Z) : bool := b =? 1.
End Small.

#[local] Instance small_driver : Nand Small.cells := Small.driver Small.fails1.
#[local] Instance small_chip : Chip Small.cells := Small.chip Small.fails1.
#[local] Instance small_chip_laws : ChipLaws Small.cells := Small.small_laws Small.fails1.

Lemma four (P : Z -> Prop) : P 0 -> P 1 -> P 2 -> P 3 -> forall i, 0 <= i < 4 -> P i.
Proof. intros ? ? ? ? i Hi. assert (i = 0 \/ i = 1 \/ i = 2 \/ i = 3) as [-> | [-> | [-> | ->]]] by lia; done. Qed.

Lemma small_ok : v2_ok LE Small.desc.
Proof.
  split.
  - cbn. lia.
  - cbn. lia.
  - split; [cbn; lia|]. split; [cbn; lia|]. split; [vm_compute; discriminate|]. apply Forall_forall. intros b Hb.
    assert (H : forallb (fun b => (0 <=? b) && (b <? 256)) Small.table = true) by (vm_compute; reflexivity).
    rewrite forallb_forall in H. specialize (H b Hb). unfold is_byte. lia.
  - intros i j Hi Hj. revert j Hj. pattern i. apply four; try exact Hi; intros j Hj; pattern j; apply four; try exact Hj;
      intros E; vm_compute in E; congruence.
  - intros i j Hi Hj. cbn in Hi, Hj. revert j Hj. assert (i = 0 \/ i = 1 \/ i = 2) as [-> | [-> | ->]] by lia; intros j Hj;
      assert (j = 0 \/ j = 1 \/ j = 2) as [-> | [-> | ->]] by lia; intros _ E; vm_compute in E; congruence.
  - intros i j Hi. cbn in Hi. assert (i = 0 \/ i = 1 \/ i = 2) as [-> | [-> | ->]] by lia; intros _ _ Hj;
      pattern j; apply four; try exact Hj; vm_compute; discriminate.
Qed.

Lemma small_inv : v2_inv LE 4 Small.desc.
Proof.
  split.
  - exact small_ok.
  - split; [split|..]; cbn; try lia; try done. by exists 4.
  - done.
  - intros b _. by eexists.
  - apply four; vm_compute; reflexivity.
  - intros i Hi. cbn in Hi. assert (i = 0 \/ i = 1 \/ i = 2) as [-> | [-> | ->]] by lia; intros _; split; vm_compute; reflexivity.
  - split; vm_compute; discriminate.
  - vm_compute. discriminate.
Qed.

(** ** The theorems at work *)

Definition some_bytes : list Z := seqZ 1 40.

#[local] Instance small_map : MapLaws Small.cells (mtk_bmt_v2_ops LE) := v2_laws LE 4 ltac:(lia).

Lemma small_erased x : 80 <= x < 2 * 64 -> byte (mtk_bmt_v2_ops LE) Small.world x = Some 255.
Proof.
  intros Hx. assert (H : forallb (fun x => bool_decide (byte (mtk_bmt_v2_ops LE) Small.world x = Some 255)) (seqZ 80 48) = true)
    by (vm_compute; reflexivity).
  rewrite forallb_forall in H. assert (Hin : In x (seqZ 80 48)) by (apply list_elem_of_In, elem_of_seqZ; lia).
  specialize (H x Hin). by apply bool_decide_eq_true_1 in H.
Qed.

(** Block 1 fails when its second page is written, and is replaced by block 4; when that is
    read, its flipped bits reach the threshold, and it is replaced by block 5. *)
Definition write_and_read : prog (bmt_world Small.cells) (Z * Z * Z * list Z) :=
  r ← mtk_bmt_write (mtk_bmt_v2_ops LE) 3 80 some_bytes [] 0;
  b ← mtk_bmt_read (mtk_bmt_v2_ops LE) 3 80 (Z.of_nat (length some_bytes)) 0 0;
  mret (r.1.1, r.1.2, b.1.1, b.1.2).

Lemma write_and_read_result :
  match write_and_read Small.world with
  | Ret r w' => r = (0, 40, 3, some_bytes) /\ bb LE (bmtd w') 1 = 5 /\ take 16 (Small.bytes_in (nand w') 5) = replicate 16 7
  | _ => False
  end.
Proof. vm_compute. repeat split; reflexivity. Qed.

Lemma v2_write_read_witness : runs write_and_read Small.world (fun r w' =>
  let '(ret, _, _, back) := r in v2_inv LE 4 (bmtd w') /\ (ret < 0 \/ back = some_bytes)).
Proof.
  eapply runs_mono.
  - refine (v2_write_read LE 4 _ 1 3 80 some_bytes 2 Small.world small_inv _ _ _ _ _ _ _ small_erased).
    all: first [lia|by exists 1|vm_compute; discriminate|vm_compute; reflexivity|vm_compute; lia].
  - intros [[[ret rl] flips] back] w' (Hw & _ & [(_ & _ & Hb & _)|(Hr & _)]); (split; [exact Hw|]); [by right|by left].
Defined.

Lemma remap_block_v2_keeps_witness : runs (remap_block_v2 LE 2 2 64) Small.world (fun r w' => r = false \/ r = true).
Proof.
  eapply runs_mono.
  - refine (remap_block_v2_keeps LE Small.world 2 2 64 small_ok _). cbn. lia.
  - intros r w' [[Hr _]|[Hr _]]; [by left|by right].
Defined.

(** ** The table of bad blocks *)

(** One range of six blocks; block 2 is bad. *)
Definition bbt_desc : bmt_desc := {|
  bbt_buf := [48; 0]; data_buf := replicate 16 255; table_size := 0; pg_size := 16; blk_size := 64; pg_shift := 4;
  blk_shift := 6; pool_lba := 0; pool_pba := 0; bb_max := 0; total_blks := 8; bmt_blk_idx := 7; bmt_pgs := 4;
  remap_range := [(0, 384)]; oob_offset := 0; mtd_size := 256; erasesize := 64; oobsize := 64; bitflip_threshold := 3; ecc_strength := 4; ni := None
|}.

Definition bbt_world : bmt_world Small.cells := BmtWorld bbt_desc Small.cells0.

Lemma bbt_range : range_of bbt_desc 0 6.
Proof.
  split; [lia|]. intros b Hb. exists 0, 384.
  assert (b = 0 \/ b = 1 \/ b = 2 \/ b = 3 \/ b = 4 \/ b = 5) as [-> | [-> | [-> | [-> | [-> | ->]]]]] by lia;
    split; [vm_compute; reflexivity|split; vm_compute; reflexivity|vm_compute; reflexivity|split; vm_compute; reflexivity
      |vm_compute; reflexivity|split; vm_compute; reflexivity|vm_compute; reflexivity|split; vm_compute; reflexivity
      |vm_compute; reflexivity|split; vm_compute; reflexivity|vm_compute; reflexivity|split; vm_compute; reflexivity].
Qed.

Lemma bbt_table : table_ok (0 + Z.of_nat 6) bbt_desc.
Proof. split; [repeat constructor; cbn; lia|]. split; cbn; lia. Qed.

Lemma bbt_mapping_permutes_witness :
  mapM (mapping_bbt bbt_desc) (seqZ 0 6) = Some [0; 1; 3; 4; 5; 2].
Proof.
  pose proof (proj1 (bbt_mapping_permutes bbt_desc 0 6 bbt_range bbt_table)) as H. vm_compute in H |- *. exact H.
Defined.

(** Block 1 goes to where block 2 was. *)
Lemma remap_block_bbt_shifts_witness : mapping_bbt bbt_desc 1 = Some 1 /\ mapping_bbt bbt_desc 2 = Some 3.
Proof.
  pose proof (remap_block_bbt_shifts 0 6 1 1 3 64 bbt_world bbt_range bbt_table ltac:(vm_compute; reflexivity)
    ltac:(vm_compute; reflexivity)) as H.
  split; [exact (proj1 H)|exact (proj1 (proj2 H))].
Defined.

(** ** Outside of the hypotheses *)

Section Failing.
Context (fails : Z -> bool).

Definition v2 : @mtk_bmt_ops Small.cells := @mtk_bmt_v2_ops Small.cells (Small.driver fails) LE.

Definition write_to (a : Z) (l : list Z) : prog (bmt_world Small.cells) (Z * Z * Z) :=
  @mtk_bmt_write Small.cells (Small.driver fails) v2 5 a l [] 0.

(** A block is remapped, and the index is looked up again in the table that was written. *)
Definition remap_and_search : prog (bmt_world Small.cells) Z :=
  @remap_block_v2 Small.cells (Small.driver fails) LE 2 2 0;; get_bmt_index LE.
End Failing.

(** A corrected error that a driver reports as [-EUCLEAN] is above any threshold: the block
    is replaced, the bytes are returned, and the call returns the error. *)
Example euclean_remaps :
  match @mtk_bmt_read Small.cells (Small.driver_reading (fun b => if b =? 1 then - EUCLEAN else 0) (fun _ => false))
          (@mtk_bmt_v2_ops Small.cells (Small.driver_reading (fun b => if b =? 1 then - EUCLEAN else 0) (fun _ => false)) LE)
          3 64 8 0 0 Small.world with
  | Ret r w' => r = (- EUCLEAN, replicate 8 7, []) /\ bb LE (bmtd w') 1 = 4
  | _ => False
  end.
Proof. vm_compute. split; reflexivity. Qed.

(** Block 1 and the spare block that replaces it fail: the second replacement is filled from
    the first one, the write returns 0, and the page in front of it is lost. *)
Example lost_page :
  match write_to (fun b => (b =? 1) || (b =? 4)) 80 some_bytes Small.world with
  | Ret r w' => r = (0, 40, 0) /\ bb LE (bmtd w') 1 = 5 /\
      take 16 (Small.bytes_in (nand w') 5) = replicate 16 255 /\ take 16 (Small.bytes_in Small.cells0 1) = replicate 16 7
  | _ => False
  end.
Proof. vm_compute. repeat split; reflexivity. Qed.

(** The block of the table fails: the table goes to the spare block in front of it, whose
    entry is not marked, so that the index that the next start looks for is not found and
    all blocks are mapped anew. *)
Example lost_table :
  match remap_and_search (fun b => b =? 6) Small.world with
  | Ret idx w' => idx = 0 /\ bmt_blk_idx (bmtd w') = 1 /\ bb LE (bmtd w') 2 = 4
  | _ => False
  end.
Proof. vm_compute. repeat split; reflexivity. Qed.

(** With the default size of the tables, clearing the pool's table writes behind the buffer
    that [mtk_bmt_init_v2] has allocated. *)
Example clear_pool_overflows (w : bmt_world Small.cells) :
  table_size (bmtd w) = 8192 -> Z.of_nat (length (bbt_buf (bmtd w))) = round_to (4 + 8192 * 4) 2048 ->
  @clear_pool Small.cells w = Undef.
Proof.
  intros Ht Hl. unfold clear_pool, desc, mbind, prog_bind, get_st, mret, prog_ret, bmt_tbl_at. rewrite Ht, Hl. reflexivity.
Qed.

(** Without a remap range [mapping_block_in_range] gives a number of blocks where the table
    of bad blocks expects addresses: no bad block is skipped. *)
Lemma bbt_without_range d block :
  remap_range d = [] -> 0 <= blk_shift d -> 0 <= total_blks d < 2 ^ blk_shift d -> mapping_bbt d block = Some block.
Proof.
  intros Hr Hs Ht. unfold mapping_bbt, mapping_block_in_range. rewrite Hr. rewrite !Z.shiftr_div_pow2 by done.
  rewrite (Z.div_small (total_blks d)) by done. rewrite Z.div_0_l by lia. cbn. done.
Qed.

(** Marking a block good again can give it the place of another one. *)
Example unmap_collides :
  let d := set_buf (<[6%nat := 2]> (<[8%nat := 3]> (<[10%nat := 4]> Small.table))) Small.desc in
  match unmap_block_v2 LE 2 (BmtWorld d Small.cells0) with
  | Ret _ w' => bb LE (bmtd w') 1 = 2 /\ bb LE (bmtd w') 2 = 2
  | _ => False
  end.
Proof. vm_compute. split; reflexivity. Qed.

(** ** The managed mapping *)

Module Managed.
(** 32 blocks of 128 bytes, and those that are marked. *)
Record flash := { cells : Small.cells; marks : list Z }.

Definition bytes_in (n : flash) (b : Z) : list Z := resize 128 0 (cells n b).
Definition put (b : Z) (l : list Z) (n : flash) : flash := {| cells := Small.put b l (cells n); marks := marks n |}.

#[export] Instance driver (fails : Z -> bool) : Nand flash := {|
  _read_oob addr len ool oo n := (0, slice (Z.to_nat (addr mod 128)) (Z.to_nat len) (bytes_in n (addr / 128)), replicate (Z.to_nat ool) 255, n);
  _write_oob addr dat oob oo n :=
    if fails (addr / 128) then (- EIO, 0, 0, n)
    else (0, Z.of_nat (length dat), Z.of_nat (length oob),
          put (addr / 128) (Prelude.write (Z.to_nat (addr mod 128)) dat (bytes_in n (addr / 128))) n);
  _erase addr len n := if fails (addr / 128) then (- EIO, n) else (0, put (addr / 128) (replicate 128 255) n);
  _block_isbad addr n := (if fails (addr / 128) && bool_decide (addr / 128 ∈ marks n) then 1 else 0, n);
  _block_markbad addr n := (0, {| cells := cells n; marks := addr / 128 :: marks n |})
|}.

#[export] Instance chip (fails : Z -> bool) : Chip flash := {|
  content := bytes_in; bad := fails; chip_blocks := 32; bsize := 128; psize := 64
|}.

Lemma flash_length n b : length (bytes_in n b) = 128%nat.
Proof. apply length_resize. Qed.

Lemma flash_address b off : 0 <= off < 128 -> (b * 128 + off) / 128 = b /\ (b * 128 + off) mod 128 = off.
Proof.
  intros Ho. split.
  - symmetry. apply Z.div_unique with off; lia.
  - symmetry. apply Z.mod_unique with b; lia.
Qed.

Lemma flash_address0 b : b * 128 / 128 = b.
Proof. apply Z.div_mul. lia. Qed.

Lemma flash_put n b l : length l = 128%nat -> bytes_in (put b l n) b = l.
Proof. intros Hl. unfold bytes_in, put, Small.put. cbn. rewrite Z.eqb_refl. by apply resize_all_alt. Qed.

Lemma flash_put_ne n b l c : c <> b -> bytes_in (put b l n) c = bytes_in n c.
Proof. intros Hc. unfold bytes_in, put, Small.put. cbn. by destruct (Z.eqb_spec c b). Qed.

Lemma laws fails : @ChipLaws flash (driver fails) (chip fails).
Proof.
  split; cbn.
  - intros n b Hb. by rewrite flash_length.
  - intros n b off len ool oo Hb Ho Hl Hs Hool. destruct (flash_address b off Ho) as [-> ->].
    rewrite length_replicate. split; [done|]. split; [done|]. split; [lia|done].
  - intros n b off dat oob oo Hb Ho Hs Hg He. destruct (flash_address b off Ho) as [-> ->]. rewrite Hg.
    split; [done|]. split; [done|]. split; [done|]. split; [|intros c Hc; by apply flash_put_ne].
    apply flash_put. rewrite length_write; rewrite flash_length; lia.
  - intros n b off dat oob oo Hb Ho Hs Hg. destruct (flash_address b off Ho) as [-> ->]. rewrite Hg. done.
  - intros n b Hb. rewrite flash_address0. destruct (fails b); [done|].
    split; [intros c Hc; by apply flash_put_ne|]. split; [done|]. by apply flash_put.
Qed.

Lemma keeps_frame fails : @ChipFrame flash (driver fails) (chip fails).
Proof.
  split; cbn; try done.
  - intros n b off dat oob oo c Hb Ho Hl Hc. destruct (Z.eq_dec off 128) as [->|Hne].
    + assert (dat = []) as -> by (apply nil_length_inv; lia).
      replace (b * 128 + 128) with ((b + 1) * 128) by lia. rewrite flash_address0, Z.mod_mul by lia.
      destruct (fails (b + 1)); [done|]. destruct (Z.eq_dec c (b + 1)) as [->|]; [|by apply flash_put_ne].
      cbn [snd]. rewrite flash_put; [done|]. change (length (bytes_in n (b + 1)) = 128%nat). apply flash_length.
    + destruct (flash_address b off ltac:(lia)) as [-> ->]. destruct (fails b); [done|by apply flash_put_ne].
  - intros n b c Hb Hc. rewrite flash_address0. destruct (fails b); [done|by apply flash_put_ne].
Qed.

Lemma unmarked fails : @ChipMarks flash (driver fails) (chip fails).
Proof. split. cbn. intros n b Hb Hf. by rewrite flash_address0, Hf. Qed.

(** The CRC of the kernel, bit by bit. *)
Definition crc_bit (c : Z) : Z := if Z.odd c then Z.lxor (Z.shiftr c 1) 0xedb88320 else Z.shiftr c 1.
Definition crc (c : Z) (l : list Z) : Z := foldl (fun c b => Nat.iter 8 crc_bit (Z.lxor c b)) c l.

Lemma lxor_range a b : 0 <= a < 2 ^ 32 -> 0 <= b < 2 ^ 32 -> 0 <= Z.lxor a b < 2 ^ 32.
Proof.
  intros Ha Hb. assert (E : Z.lxor a b = wrap 32 (Z.lxor a b)).
  { apply Z.bits_inj'. intros i Hi. rewrite wrap_testbit by lia. destruct (Z.ltb_spec i 32); [done|]. cbn [andb].
    by rewrite Z.lxor_spec, !(testbit_out_of_range _ 32) by lia. }
  rewrite E. apply wrap_range. lia.
Qed.

Lemma crc_bit_range c : 0 <= c < 2 ^ 32 -> 0 <= crc_bit c < 2 ^ 32.
Proof.
  intros Hc. assert (Hs : 0 <= Z.shiftr c 1 < 2 ^ 32).
  { rewrite Z.shiftr_div_pow2 by lia. change (2 ^ 1) with 2. pose proof (Z.div_mod c 2). pose proof (Z.mod_pos_bound c 2). lia. }
  unfold crc_bit. destruct (Z.odd c); [|done]. apply lxor_range; [done|lia].
Qed.

#[export] Instance crc_laws : Crc32Laws crc.
Proof.
  split; [intros c l1 l2; apply foldl_app|]. intros c l Hc Hl. revert c Hc. induction Hl as [|x l Hx _ IH]; intros c Hc; [done|].
  cbn [crc foldl]. apply IH. assert (Hx' : 0 <= Z.lxor c x < 2 ^ 32) by (apply lxor_range; [done|unfold is_byte in Hx; lia]).
  cbn [Nat.iter Nat.iter nat_rect]. by do 8 apply crc_bit_range.
Qed.

Definition desc : bmt_desc := {|
  bbt_buf := []; data_buf := replicate 72 255; table_size := 0; pg_size := 64; blk_size := 128; pg_shift := 6;
  blk_shift := 7; pool_lba := 0; pool_pba := 0; bb_max := 0; total_blks := 32; bmt_blk_idx := 0; bmt_pgs := 0;
  remap_range := []; oob_offset := 0; mtd_size := 4096; erasesize := 128; oobsize := 8; bitflip_threshold := 3; ecc_strength := 4; ni := None
|}.

(** Half of the blocks are for data. *)
Definition start : nmbm_instance := nmbm_init_structure desc 8 256 false false.

(** Tables in blocks 16 and 20, spare blocks from block 30 down, the signature in block 31. *)
Definition running : nmbm_instance := {|
  config := config start; signature := signature start; info_table_cache := info_table_cache start;
  info_table := info_table start; block_state := block_state start; block_state_changed := 0;
  block_mapping := seqZ 0 16 ++ replicate 16 (-1); block_mapping_changed := 0; protected := false; data_block_count := 16;
  mgmt_start_ba := 16; main_table_ba := 16; backup_table_ba := 20; mapping_blocks_ba := 22; mapping_blocks_top_ba := 30;
  signature_ba := 31
|}.

(** After a restart, before the table is loaded. *)
Definition restarted : nmbm_instance := set_data_blocks 16 (set_signature (signature start) 31 start).

Definition flash0 : flash := {| cells := fun b => if b =? 1 then replicate 64 7 ++ replicate 64 255 else replicate 128 255; marks := [] |}.
Definition world_of (i : nmbm_instance) : bmt_world flash := BmtWorld (set_ni (Some i) desc) flash0.

Lemma upto (P : Z -> bool) lo n : forallb P (seqZ lo n) = true -> forall b, lo <= b < lo + n -> P b = true.
Proof. intros Hp b Hb. rewrite forallb_forall in Hp. apply Hp, list_elem_of_In, elem_of_seqZ. lia. Qed.

Lemma desc_pages fails i : @pages flash (chip fails) (set_ni (Some i) desc).
Proof. split; [split|..]; cbn; try lia; try done. by exists 2. Qed.

Lemma running_fixed fails : @fixed_ok flash (chip fails) running.
Proof. split; vm_compute; repeat split; discriminate. Qed.

Lemma running_areas : areas running.
Proof. split; cbn; lia. Qed.

Lemma all_in (P : Z -> Prop) (p : Z -> bool) l : (forall x, p x = true -> P x) -> forallb p l = true -> Forall P l.
Proof. intros Hp Hl. apply Forall_forall. intros x Hx. rewrite forallb_forall in Hl. by apply Hp, Hl. Qed.

Lemma running_fits : table_fits running.
Proof.
  split; [..|apply (all_in _ (fun z => (0 <=? z) && (z <? 2 ^ 32)))|apply (all_in _ (fun z => (- 2 ^ 31 <=? z) && (z <? 2 ^ 31)))| | |];
    try reflexivity; try (unfold is_u32, is_s32; intros; lia).
  - change (32 <= 64 /\ 64 + 8 <= 128 /\ 128 + 128 <= 256). lia.
  - split; [discriminate|reflexivity].
  - split; [discriminate|reflexivity].
  - split; [discriminate|reflexivity].
Qed.
End Managed.

(** Blocks 16 and 20, in which the tables are, fail. *)
Definition fails_tables (b : Z) : bool := (b =? 16) || (b =? 20).

(** Block 3 has become bad. *)
Definition changed : nmbm_instance := set_state [0xffffff3f; 0xffffffff] 1 Managed.running.

Lemma changed_fixed fails : @fixed_ok Managed.flash (Managed.chip fails) changed.
Proof. split; vm_compute; repeat split; discriminate. Qed.

Lemma changed_areas : areas changed.
Proof. split; cbn; lia. Qed.

Definition update_tables : prog (bmt_world Managed.flash) bool :=
  @nmbm_update_info_table _ (Managed.driver fails_tables) LE Managed.crc.

Lemma nmbm_update_info_table_ends_witness :
  runs update_tables (Managed.world_of changed) (fun r w' => exists i', ni (bmtd w') = Some i' /\ areas i').
Proof.
  eapply runs_mono.
  - exact (@nmbm_update_info_table_ends _ (Managed.driver fails_tables) (Managed.chip fails_tables) (Managed.keeps_frame fails_tables)
      LE Managed.crc (Managed.world_of changed) changed eq_refl (Managed.desc_pages _ _) (changed_fixed _) changed_areas).
  - intros r w' (i' & Hi & _ & Ha & _). by exists i'.
Defined.

(** Both tables are written elsewhere and the blocks that failed are marked. The tables on the
    flash, which are those in the cache, say that the two are good, and no change is left to
    write. *)
Example tables_move :
  match update_tables (Managed.world_of changed) with
  | Ret r w' => r = true /\ Managed.marks (nand w') = [16; 20] /\
      (fun i => (main_table_ba i, backup_table_ba i, write_count (info_table i), block_state_changed i)) <$> ni (bmtd w') =
        Some (17, 21, 1, 0) /\
      block_state <$> ni (bmtd w') = Some [0xffffff3f; 0xfffffcfc] /\
      (fun i => words LE 2 (slice 64 8 (info_table_cache i))) <$> ni (bmtd w') = Some [0xffffff3f; 0xffffffff]
  | _ => False
  end.
Proof. vm_compute. repeat split; reflexivity. Qed.

(** Block 30 is bad, and blocks 1 and 2 are mapped. *)
Definition top_bad : nmbm_instance := set_state [0xffffffff; 0xcfffffff] 1 Managed.running.

Definition map_two : prog (bmt_world Managed.flash) (bool * bool) :=
  ra ← @nmbm_map_block _ (Managed.driver fails_tables) LE Managed.crc 1;
  rb ← @nmbm_map_block _ (Managed.driver fails_tables) LE Managed.crc 2; mret (ra, rb).

Lemma nmbm_map_block_twice_witness : runs map_two (Managed.world_of top_bad) (fun r w' => exists i',
  ni (bmtd w') = Some i' /\ block_mapping i' !! 1%nat = Some 29 /\ block_mapping i' !! 2%nat = Some 29).
Proof.
  eapply runs_mono.
  - refine (@nmbm_map_block_twice _ (Managed.driver fails_tables) LE Managed.crc (Managed.world_of top_bad) top_bad 1 2 0 eq_refl _ _ _ _ _ _ _ _ _).
    all: first [discriminate|vm_compute; repeat split; discriminate|vm_compute; reflexivity|split; [discriminate|vm_compute; reflexivity]].
  - intros r w' [_ (i' & Hi & Ha & Hb)]. by exists i'.
Defined.

(** ** The table after a restart *)

Lemma good_range fails i lo n :
  forallb (fun b => negb (fails b) && (0 <=? b) && (b <? 32) && bool_decide (is_good (block_state i) b)) (seqZ lo n) = true ->
  @all_good Managed.flash (Managed.chip fails) i lo (lo + n).
Proof.
  intros Hp b Hb. pose proof (Managed.upto _ _ _ Hp b Hb) as Hg. cbn in Hg. apply andb_prop in Hg as [Hg G4].
  apply andb_prop in Hg as [Hg G3]. apply andb_prop in Hg as [G1 G2]. apply bool_decide_eq_true_1 in G4. apply negb_true_iff in G1.
  split; [split; [cbn; lia|exact G1]|]. split; [lia|exact G4].
Qed.

Definition none (b : Z) : bool := false.

Definition write_and_load : prog (bmt_world Managed.flash) (option (Z * Z) * option (Z * Z * Z)) :=
  @nmbm_generate_info_table_cache _ LE Managed.crc;;
  r ← @nmbm_write_info_table _ (Managed.driver none) 16 22;
  change_desc (set_ni (Some Managed.restarted));;
  o ← @nmbm_try_load_info_table _ (Managed.driver none) LE Managed.crc 16 false;
  mret (r, o).

Lemma nmbm_table_reload_witness : runs write_and_load (Managed.world_of Managed.running) (fun r w' => exists j',
  ni (bmtd w') = Some j' /\ block_mapping j' = seqZ 0 16 ++ replicate 16 (-1)).
Proof.
  eapply runs_mono.
  - refine (@nmbm_table_reload _ (Managed.driver none) (Managed.chip none) (Managed.laws none) (Managed.keeps_frame none) (Managed.unmarked none)
      LE Managed.crc Managed.crc_laws Managed.running Managed.restarted 16 2 22 (Managed.world_of Managed.running) eq_refl
      (Managed.desc_pages _ _) (Managed.running_fixed _) Managed.running_fits (good_range _ _ 16 2 _) _ _ _ _ (good_range _ _ 16 2 _) _ _ _).
    all: try (vm_compute; reflexivity). all: try (vm_compute; discriminate). all: try (split; vm_compute; discriminate).
    intros pb Hpb. assert (Hall : Forall (fun pb => 0 <= pb < 16) (u32 <$> take 16 (block_mapping Managed.running))).
    { apply (Managed.all_in _ (fun pb => (0 <=? pb) && (pb <? 16))); [lia|vm_compute; reflexivity]. }
    rewrite Forall_forall in Hall. specialize (Hall pb (proj1 (list_elem_of_In _ _) Hpb)). cbn. lia.
  - intros r w' (_ & _ & j' & Hi & _ & Hm & _). by exists j'.
Defined.

(** With block 17 bad the table is written around it, but not found there: the blocks that
    are looked at are as many as the table has. *)
Definition gap : nmbm_instance := set_state [0xffffffff; 0xfffffff3] 0 Managed.running.

Example table_with_gap :
  match (@nmbm_generate_info_table_cache _ LE Managed.crc;;
         r ← @nmbm_write_info_table _ (Managed.driver none) 16 22;
         o ← @nmbm_try_load_info_table _ (Managed.driver none) LE Managed.crc 16 false;
         mret (r, o)) (Managed.world_of gap) with
  | Ret r _ => r = (Some (16, 19), None)
  | _ => False
  end.
Proof. vm_compute. reflexivity. Qed.

(** ** Attaching *)

(** A new chip with block 3 bad gets its tables, and a second start finds them. *)
Definition attach_twice : prog (bmt_world Managed.flash) (Z * Z * list Z) :=
  a ← @mtk_bmt_init_nmbm _ (Managed.driver (fun b => b =? 3)) LE Managed.crc 8 256 false true true;
  b ← @mtk_bmt_init_nmbm _ (Managed.driver (fun b => b =? 3)) LE Managed.crc 8 256 false false true;
  i ← @instance Managed.flash;
  mret (a, b, [main_table_ba i; backup_table_ba i; mapping_blocks_ba i; mapping_blocks_top_ba i; signature_ba i; data_block_count i]).

Example attach_finds_tables :
  match attach_twice (BmtWorld Managed.desc {| Managed.cells := fun _ => replicate 128 255; Managed.marks := [3] |}) with
  | Ret r w' => r = (0, 0, [16; 20; 22; 29; 31; 16]) /\
      (fun i => take 16 (block_mapping i)) <$> ni (bmtd w') = Some [0; 1; 2; 4; 5; 6; 7; 8; 9; 10; 11; 12; 13; 14; 15; 30] /\
      mtd_size (bmtd w') = 2048
  | _ => False
  end.
Proof. vm_compute. repeat split; reflexivity. Qed.

(** A device with a managed mapping, whose node makes the spare area smaller. *)
Definition node : device_node := {|
  p_bmt_v2 := false; p_nmbm := true; p_bbt := false; p_remap_range := []; p_overridden_oobsize := Some 4; p_pool_size := None;
  p_oob_offset := None; p_table_size := None; p_max_ratio := Some 8; p_max_reserved := None; p_ecc_protected := false;
  p_force_create := true
|}.

Definition devices0 : mtd_world Managed.flash := {|
  owner := None; bmt := no_desc;
  devices := fun _ => MtdInfo 4096 128 64 8 3 4 false {| Managed.cells := fun _ => replicate 128 255; Managed.marks := [] |}
|}.

(** Attached it has 16 blocks; detached it has its functions and blocks again, but not its
    spare area. *)
Example attach_and_detach :
  match (@mtk_bmt_attach _ (Managed.driver none) LE Managed.crc 5 (Some node) true true;;
         w ← get_st; mtk_bmt_detach 5;; mret (m_size (devices w 5), m_mapped (devices w 5))) devices0 with
  | Ret r w' => r = (2048, true) /\ m_size (devices w' 5) = 4096 /\ m_mapped (devices w' 5) = false /\ m_oobsize (devices w' 5) = 4
  | _ => False
  end.
Proof. vm_compute. repeat split; reflexivity. Qed.

(** A device of 2 GiB has another size when it is detached. *)
Example detach_wraps :
  match mtk_bmt_detach 5 {| owner := Some 5; devices := devices devices0; bmt :=
      described node NMBM (MtdInfo (2 ^ 31) (2 ^ 17) 2048 64 3 4 true Managed.flash0) |} with
  | Ret _ w' => m_size (devices w' 5) = 2 ^ 64 - 2 ^ 31
  | _ => False
  end.
Proof. vm_compute. reflexivity. Qed.

(** ** The managed device *)

#[local] Instance managed_driver : Nand Managed.flash := Managed.driver Small.fails1.
#[local] Instance managed_chip : Chip Managed.flash := Managed.chip Small.fails1.
#[local] Instance managed_laws : ChipLaws Managed.flash := Managed.laws Small.fails1.
#[local] Instance managed_frame : ChipFrame Managed.flash := Managed.keeps_frame Small.fails1.
#[local] Instance managed_marks : ChipMarks Managed.flash := Managed.unmarked Small.fails1.

Lemma running_place b : 0 <= b < 16 -> place_in Managed.running b = b.
Proof.
  intros Hb. apply Z.eqb_eq. revert b Hb. apply (Managed.upto (fun b => place_in Managed.running b =? b) 0 16). vm_compute. reflexivity.
Qed.

Lemma running_inv : nmbm_inv 16 (bmtd (Managed.world_of Managed.running)).
Proof.
  split; [apply Managed.desc_pages|intros b _; by eexists|]. exists Managed.running. split; [reflexivity|]. split.
  - apply Managed.running_fixed.
  - apply Managed.running_areas.
  - reflexivity.
  - vm_compute. discriminate.
  - intros b Hb. rewrite running_place by done. change (0 <= b < 32 /\ ~ (16 <= b <= 30)). lia.
  - intros b c Hb Hc. by rewrite !running_place.
  - intros b Hb. change (16 <= b <= 30) in Hb. destruct (good_range Small.fails1 Managed.running 16 15 ltac:(vm_compute; reflexivity) b) as (G1 & _ & G2); [lia|done].
Qed.

#[local] Instance managed_map : MapLaws Managed.flash (mtk_bmt_nmbm_ops LE Managed.crc) := nmbm_laws LE Managed.crc 16 ltac:(lia).

Lemma managed_erased x : 192 <= x < 2 * 128 -> byte (mtk_bmt_nmbm_ops LE Managed.crc) (Managed.world_of Managed.running) x = Some 255.
Proof.
  intros Hx. apply (bool_decide_eq_true_1 _). revert x Hx.
  apply (Managed.upto (fun x => bool_decide (byte (mtk_bmt_nmbm_ops LE Managed.crc) (Managed.world_of Managed.running) x = Some 255)) 192 64).
  vm_compute. reflexivity.
Qed.

(** Block 1 fails when its second page is written, and is replaced. *)
Definition managed_write_read : prog (bmt_world Managed.flash) (Z * Z * Z * list Z) :=
  r ← mtk_bmt_write (mtk_bmt_nmbm_ops LE Managed.crc) 3 192 some_bytes [] 0;
  b ← mtk_bmt_read (mtk_bmt_nmbm_ops LE Managed.crc) 3 192 (Z.of_nat (length some_bytes)) 0 0;
  mret (r.1.1, r.1.2, b.1.1, b.1.2).

Example managed_write_read_result :
  match managed_write_read (Managed.world_of Managed.running) with
  | Ret r w' => r = (0, 40, 0, some_bytes) /\ nmbm_place (bmtd w') 1 = 30
  | _ => False
  end.
Proof. vm_compute. split; reflexivity. Qed.

Lemma nmbm_write_read_witness : runs managed_write_read (Managed.world_of Managed.running) (fun r w' =>
  let '(ret, _, _, back) := r in nmbm_inv 16 (bmtd w') /\ (ret < 0 \/ back = some_bytes)).
Proof.
  eapply runs_mono.
  - refine (nmbm_write_read LE Managed.crc 16 _ 1 3 192 some_bytes 2 (Managed.world_of Managed.running) running_inv _ _ _ _ _ _ _ managed_erased).
    all: first [lia|by exists 1|vm_compute; discriminate|vm_compute; reflexivity|vm_compute; lia].
  - intros [[[ret rl] flips] back] w' (Hw & _ & [(_ & _ & Hb & _)|(Hr & _)]); (split; [exact Hw|]); [by right|by left].
Defined.
